(* ===== verification/_CoqProject ===== *)
-Q . S2P
Prelude.v
PortalTypes.v
PortalCore.v
Poller.v
PortalSocket.v
PortalShared.v
PortalCodec.v
SharedRpc.v
HardwareRpc.v
SocketRpc.v
SendFd.v
Mmu.v
DmaManager.v
Bsim.v
BsimCtrl.v
BsimDma.v
Timer.v
PortalMem.v
PcieDriver.v
MorrisPratt.v
Edid.v
I2cHdmi.v
ZynqDriver.v
Ring.v
RingSafe.v
RingProgram.v
RingEcho.v
Gralloc.v
KernelRelay.v
Imageon.v
ImageonTools.v
TlpReplay.v
FlashAccess.v
FileSearch.v
SearchClients.v
Display.v
Tiny3Asm.v
Mnist.v
MemTests.v
MemcpyTest.v
FloatArith.v
PortalMat.v
MatFacts.v
MatmulTest.v
Rbm.v
SigmoidTable.v
RbmTrain.v
DeviceTests.v
PortalPerf.v
