(* ===== verification/Prelude.v ===== *)
(** * Connectal: software side of the portals

    Connectal connects C and C++ programs to hardware designs.  A _portal_ is an
    interface of typed methods; a generated proxy marshals a call into 32-bit
    words, a _transport_ carries the words, and generated code on the other side
    calls the method.  The transports are memory-mapped FIFOs of a board, a ring
    in shared memory, sockets (with a multiplexer) and the sockets of a
    simulator.  Memory objects come from a driver, are named by descriptors, and
    are given to the DMA engine by programming its MMU.  Drivers discover the
    portals of a board and hand their registers and interrupts to programs.

    ** Model

    C code is a function in the state and error monad [M] of this file: a result
    is [Ok] with the new state, [Exit] for a call of [exit], [Assert] for a failed
    [assert], [Fault] for a wild access (index out of range, dangling pointer,
    release of what is not held), or [Block] for a call that waits for ever.  Machine integers are
    [Z] with their wrap-around written out ([u32], [u64], ...); arrays are lists
    with checked indices ([znth], [zupd]); structures are records with the names
    of the source.  What is not in the repository (kernel services, devices, the
    other side of a connection) is a class of operations, and what the code
    relies on is in named classes or hypotheses, with instances in the [...Demo]
    modules; theorems about concrete inputs evaluate the definitions.
    [wp] is the safety predicate: the program does not stop or fault, and if it
    returns, the result is as stated.

    ** Files and sources (under src/)

    - [PortalTypes]: cpp/portal.h, cpp/poller.h, cpp/sock_utils.h; the data of
      the runtime and the [World] its operations share.
    - [PortalCore]: cpp/portal.c; initialisation, the memory-mapped transport,
      cycle counter, memory wrappers.  [HardwareRpc] runs generated code on it.
    - [Poller]: cpp/poller.cpp; registration, event passes, execution loop.
    - [PortalSocket]: cpp/sock_utils.c, cpp/portalSocket.c; byte streams that
      carry descriptors, socket transports, multiplexer.  [SocketRpc]: requests
      over any kernel whose stream sockets behave as documented.
    - [PortalShared]: cpp/portalShared.c; the ring.  [SharedRpc]: requests over
      it.
    - [PortalCodec]: generated/cpp/MMURequest.c and GeneratedTypes.h; the class
      [Deliverer] is what a transport promises to the receiving code.
    - [SendFd], [DmaManager]: cpp/dmaSendFd.h, lib/cpp/userReference.h,
      cpp/dmaManager.c, cpp/dmaManager.h, cpp/StdDmaIndication.h,
      cpp/MMUServer.h; giving memory objects to the hardware.
    - [Mmu]: the translation of bsv/MMU.bsv, the other side of [SendFd], for any
      width of the physical addresses and with the bits a simulation adds.
    - [Bsim], [BsimCtrl], [BsimDma]: the simulator transport of
      cpp/portalSocket.c, cpp/BsimCtrl.cxx with the methods of bsv/BsimTop.bsv
      that call it, cpp/BsimDma.cxx.
    - [Timer]: cpp/timer.c.
    - [PortalMem]: drivers/portalmem/portalmem.c and its header.
    - [PcieDriver]: drivers/pcieportal/pcieportal.c, cpp/portalKernel.h.
    - [ZynqDriver]: drivers/zynqportal/zynqportal.c and its header.
    - [Ring], [RingSafe], [RingProgram], [RingEcho]: examples/ring/testring.cpp,
      with the dispatch, echo engine and completion of examples/ring/Ring.bsv and
      EchoEngine.bsv.
    - [MorrisPratt]: lib/strstr/cpp/mp.h.
    - [Edid], [I2cHdmi]: lib/cpp/edid.h, lib/cpp/i2chdmi.h.
    - [Gralloc]: gralloc/ (gralloc.cpp, mapper.cpp, gralloc_priv.h, gr.h).
    - [KernelRelay]: the kernel half of cpp/portalSocket.c, cpp/bsim_relay.c,
      cpp/kernel_module.c; two threads as a step relation.
    - [TlpReplay]: cpp/TlpReplay.cxx.
    - [Imageon], [ImageonTools]: examples/imageon (testimagecapture.cpp,
      i2ccamera.h, dump_image.cpp).
    - [Display]: examples/hdmidisplay/testhdmidisplay.cpp, over [Edid].
    - [Tiny3Asm]: examples/tiny3/tc3asm.c.
    - [SearchClients]: lib/regexp/cpp/regexp_utils.h, lib/strstr/cpp/strstr.h,
      lib/nandsim/cpp/nandsim.h.
    - [FlashAccess]: tests/algo1_flashmodel/flashaccess.cpp.
    - [FileSearch]: tests/algo1_nandsim_manual (ss.cpp, ss_sw.cpp, ss.h).
    - [Mnist]: lib/rbm/cpp/mnist.h.
    - [MemTests]: examples/nandsim/testnandsim.cpp, examples/memread and
      examples/memwrite; [MemcpyTest]: examples/memcpy and
      tests/memcpy_manysglists.
    - [FloatArith]: the arithmetic of [float] and [double], on the exact IEEE
      operations of the Standard Library, with the cases in which it is exact.
    - [PortalMat], [MatFacts]: lib/matmul/cpp (portalmat.cpp, portalmat.h);
      matrices in portal memory, with the class [OpenCV] for cv::Mat and
      [Accelerator] for the engines.  [MatmulTest]: examples/matmul/testmm.cpp.
    - [Rbm], [SigmoidTable], [RbmTrain]: lib/rbm/cpp (rbm.cpp, rbm.h).
    - [DeviceTests]: examples/simple, tests/mifo, examples/serialconfig and
      examples/yuv; [PortalPerf]: examples/portalperf, over [Timer].

    ** Theorems

    - Transports and generated code.  The shared ring is a queue of messages:
      any interleaving of sends and deliveries delivers the calls that were made,
      in order (the descriptor of idRequest as 0); waiting for room ends when the
      reader reads.  A request over a
      socket arrives whole, whatever pieces the kernel delivers it in; requests
      to hardware are the words of the message in the FIFO of the method.
      Marshalling and dispatch are inverse to each other.
    - Poller.  Unregistering undoes registering, in the table of portals and in
      that of the polled descriptors; an event pass over transports that keep the
      poller calls each once; the loop ends when it is told to.
    - Memory.  Allocation returns aligned blocks that add up to the length; the
      driver reports exactly them; the MMU programmed with the messages of
      [send_fd_to_portal] for at most 255 areas translates every offset of the
      object to the address of its byte and rejects every offset behind it;
      mappings and nested CPU accesses show the
      same bytes.
    - Simulator.  The design sees the register accesses of a program each once
      and in order, and answers every read, whatever the turns it takes them in;
      the words written come through a FIFO of their own.  Memory accesses read
      back what was written, within the bytes a handle maps.  The accesses of an
      application in the kernel, relayed to the simulator, are a prefix of the
      direct ones, up to the two on their way, at every moment of every
      interleaving from the loading of the module, and complete unless the relay
      reads before the application connects; a recorded trace is replayed packet
      by packet under every order of the turns.
    - Drivers.  Probe and remove of the PCIe driver hold nothing in the end, and
      a failed probe gives back what it took but for the leaks stated; the Zynq
      driver registers the portals the board has, keeps one interrupt per
      registered portal under any use of its device files, and releases them and
      its queue; files kept open across a second opening of the device point
      into freed memory.
    - Rings.  No command is lost, overwritten or reordered and no completion tag
      is used twice, under every schedule of the hardware; blocking echoes
      return what was sent for all latencies, the reply being computed from the
      command in the ring.
    - Libraries.  The Morris-Pratt matcher, called with the pointers the
      programs pass, prints occurrences only, and what it prints is specified
      by an automaton; it misses some.  Monitor descriptions and the registers
      of the HDMI transmitter are as specified; image buffers hold the whole
      image.
    - Clients.  The start-up of the camera returns for every sensor and leaves
      the registers of its tables on what the reset put there; the display shows
      the whole picture of each frame and does not paint the buffer on the screen
      if the first painting is over before the first vertical blank is told; the flash test passes, keeps
      its tags apart and ends under every order of completion; the search of a
      fragmented file counts the matches within its blocks; the reference
      automaton stays in its tables; instructions, captures and image files can
      be read back from what the assembler, the dump and their writer produce.
    - Tests of the hardware.  What each test reports is characterised for every
      engine: it passes exactly when the transfers were right, for the copy test
      under every interleaving of its threads.
    - Matrices.  Every operation gives its matrix the elements it should have,
      keeps the other matrices and leaves every matrix the only owner of its
      array, whatever is shared in between; the product of the hardware is that
      of its engine, the reference product of integers is exact, and the matrix
      test reports exactly the elements out of bounds.  The training of the
      Boltzmann machine ends with the weights of its epochs, each of which is
      specified as the hardware path computes it (without the bias unit in the
      second pass over the hidden units); the table of the sigmoid is loaded as
      specified, also when the MMU gives identifier 0 first.
    - Where the code differs from what it means to do, the theorem states what
      it does (for example [MP_as_called], [mmu_256_areas],
      [DmaManager_reference_wait_inverted], [unregister_drops_last_fd],
      [write_fd_never_returns], [memwrite_verdict_lost], [manysglists_race],
      [stale_token], [assembler_losses], [identifier_zero_lost],
      [bias_left_out], [wait_for_overshot], [first_vsync_race],
      [relay_first_stuck]).

    ** Bounds and fuel

    Loops without a structural measure take fuel.  Where a loop waits for
    another party, the party is a schedule or a stream of the state and the fuel
    is its length, so that running out of fuel is running out of schedule
    ([Block]); where a loop searches or copies, the fuel is the length of what
    it walks over, and the theorems that the function returns a value show that
    it is enough.  The rings of testring.cpp have at most [2 ^ 24] slots, so that
    byte offsets stay below [2 ^ 32]; the code uses 128.  Lists given to the MMU
    have at most 255 areas, the number of entries it keeps less the end marker.
    Sizes of pictures are those whose bytes an [int] counts.  In the step
    relations ([KernelRelay], [FlashAccess]) termination is a bound on the
    length of every run, polling apart, with progress in every state; the
    states of the copy test are finitely many up to the contents of the buffers
    and are explored by evaluation, in 24 rounds, after which the set is closed;
    those of the colour test likewise.  The allocator of matrices has room for
    127 arrays and never reuses one: a state is well-formed for [n] more arrays
    and [m] more references ([wfs]), and an operation says how many it uses; the
    training needs 18 of each for any number of epochs.  Matrices have less than
    [2 ^ 31] elements where a request carries their number.

    ** Not modelled

    Messages printed for the user, thread creation and logging; the hardware
    (bsv/) except the MMU's translation, the methods of the simulator's register
    clients and the echo path of the ring example; the build scripts and the portal compiler (python);
    vendored kernel headers; of the programs modelled in part the main program of
    the camera, the hardware comparison of the file search, the monitor program
    of the assembler, which is unfinished, the reading of haystack files, and of
    the matrices what is only printed, the assignments (which return nothing)
    and the comparison with CUDA; the first two passes of examples/ring, which
    copy a scratch buffer with a copy engine; the other example programs, which
    call generated proxies, wait and print.

    ** Plan

    Next: a copy engine for the first passes of examples/ring, the clients of
    the NAND simulator (tests/nandsim_manual) and the grid of
    examples/maxcommonsubseq. *)

From stdpp Require Import base gmap list fin_maps.
From Stdlib Require Import ZArith Lia.

#[global] Open Scope Z_scope.

(** * Machine integers

    A [w]-bit integer is a [Z]; the C conversions are written out.  [u8] ..
    [u64] are the conversions to the unsigned types, [s32] and [s64] the
    (two's complement) conversions to [int] and [long]. *)

Definition wrap (n z : Z) : Z := z mod 2 ^ n.
Definition swrap (n z : Z) : Z := (z + 2 ^ (n - 1)) mod 2 ^ n - 2 ^ (n - 1).

Definition u8 (z : Z) : Z := wrap 8 z.
Definition u16 (z : Z) : Z := wrap 16 z.
Definition u32 (z : Z) : Z := wrap 32 z.
Definition u64 (z : Z) : Z := wrap 64 z.
Definition s32 (z : Z) : Z := swrap 32 z.
Definition s64 (z : Z) : Z := swrap 64 z.

Definition in_u32 (z : Z) : Prop := 0 <= z < 2 ^ 32.
Definition in_u64 (z : Z) : Prop := 0 <= z < 2 ^ 64.

#[global] Instance in_u32_dec z : Decision (in_u32 z).
Proof. unfold in_u32. apply _. Defined.
#[global] Instance in_u64_dec z : Decision (in_u64 z).
Proof. unfold in_u64. apply _. Defined.

Lemma wrap_small n z : 0 <= z < 2 ^ n -> wrap n z = z.
Proof. intros H. unfold wrap. apply Z.mod_small. exact H. Qed.

Lemma wrap_bound n z : 0 <= n -> 0 <= wrap n z < 2 ^ n.
Proof. intros Hn. unfold wrap. apply Z.mod_pos_bound. apply Z.pow_pos_nonneg; lia. Qed.

Lemma wrap_wrap n z : wrap n (wrap n z) = wrap n z.
Proof. unfold wrap. apply Zmod_mod. Qed.

Lemma u8_bound z : 0 <= u8 z < 256.
Proof. unfold u8. apply (wrap_bound 8 z). lia. Qed.

Lemma u16_bound z : 0 <= u16 z < 65536.
Proof. unfold u16. apply (wrap_bound 16 z). lia. Qed.

Lemma u32_bound z : 0 <= u32 z < 4294967296.
Proof. unfold u32. apply (wrap_bound 32 z). lia. Qed.

Lemma u64_bound z : 0 <= u64 z < 18446744073709551616.
Proof. unfold u64. apply (wrap_bound 64 z). lia. Qed.

Lemma u8_small z : 0 <= z < 256 -> u8 z = z.
Proof. intros H. apply (wrap_small 8). lia. Qed.

Lemma u16_small z : 0 <= z < 65536 -> u16 z = z.
Proof. intros H. apply (wrap_small 16). lia. Qed.

Lemma u32_small z : 0 <= z < 4294967296 -> u32 z = z.
Proof. intros H. apply (wrap_small 32). lia. Qed.

Lemma u64_small z : 0 <= z < 18446744073709551616 -> u64 z = z.
Proof. intros H. apply (wrap_small 64). lia. Qed.

Lemma s32_small z : -2147483648 <= z < 2147483648 -> s32 z = z.
Proof.
  intros H. unfold s32, swrap. change (2 ^ (32 - 1)) with 2147483648.
  change (2 ^ 32) with 4294967296. rewrite Z.mod_small; lia.
Qed.

Lemma s64_small z : - 2 ^ 63 <= z < 2 ^ 63 -> s64 z = z.
Proof.
  intros H. unfold s64, swrap. change (64 - 1) with 63.
  change (2 ^ 64) with (2 ^ 63 + 2 ^ 63). rewrite Z.mod_small; lia.
Qed.

Lemma u32_idem z : u32 (u32 z) = u32 z.
Proof. apply wrap_wrap. Qed.

(** ** Bit fields of a message header: 16 bits of channel above 16 bits of length *)

Lemma land_ones_mod z n : 0 <= n -> Z.land z (2 ^ n - 1) = z mod 2 ^ n.
Proof.
  intros Hn. replace (2 ^ n - 1) with (Z.ones n) by (rewrite Z.ones_equiv; lia).
  apply Z.land_ones; exact Hn.
Qed.

Lemma land_lnot_ones z n : 0 <= n -> Z.land z (Z.lnot (2 ^ n - 1)) = z - z mod 2 ^ n.
Proof.
  intros Hn. rewrite <- Z.ldiff_land. replace (2 ^ n - 1) with (Z.ones n) by (rewrite Z.ones_equiv; lia).
  rewrite Z.ldiff_ones_r, Z.shiftl_mul_pow2, Z.shiftr_div_pow2 by lia.
  pose proof (Z.div_mod z (2 ^ n) ltac:(lia)). lia.
Qed.

Lemma land_ffff z : Z.land z 0xffff = z mod 65536.
Proof. apply (land_ones_mod z 16). lia. Qed.

Lemma land_ffffffff z : Z.land z 0xffffffff = z mod 4294967296.
Proof. apply (land_ones_mod z 32). lia. Qed.

Lemma land_fffe z : Z.land z 0xfffe = 2 * ((z / 2) mod 32768).
Proof.
  change 0xfffe with (Z.shiftl (2 ^ 15 - 1) 1).
  rewrite (Z.mul_comm 2). change 32768 with (2 ^ 15).
  rewrite <- land_ones_mod by lia.
  change (z / 2) with (z / 2 ^ 1). rewrite <- Z.shiftr_div_pow2 by lia.
  change (Z.land (Z.shiftr z 1) (2 ^ 15 - 1) * 2)
    with (Z.land (Z.shiftr z 1) (2 ^ 15 - 1) * 2 ^ 1).
  rewrite <- Z.shiftl_mul_pow2 by lia.
  apply Z.bits_inj'. intros i Hi.
  rewrite Z.land_spec, !Z.shiftl_spec, Z.land_spec by lia.
  destruct (decide (i < 1)).
  - rewrite (Z.testbit_neg_r (2 ^ 15 - 1)) by lia.
    by rewrite !andb_false_r.
  - rewrite Z.shiftr_spec by lia. do 2 f_equal. lia.
Qed.

Lemma lor_shiftl_add hi lo n :
  0 <= n -> 0 <= lo < 2 ^ n -> Z.lor (Z.shiftl hi n) lo = hi * 2 ^ n + lo.
Proof.
  intros Hn Hlo. rewrite <- Z.shiftl_mul_pow2 by exact Hn.
  symmetry. rewrite Z.add_nocarry_lxor, Z.lxor_lor; [reflexivity| |];
    apply Z.bits_inj'; intros i Hi; rewrite Z.land_spec, Z.bits_0;
    (destruct (decide (i < n));
     [rewrite Z.shiftl_spec, (Z.testbit_neg_r hi) by lia; reflexivity|];
     rewrite <- (Z.mod_small lo (2 ^ n)) by exact Hlo;
     rewrite Z.mod_pow2_bits_high by lia; apply andb_false_r).
Qed.

(** * Running C code: outcomes and the state monad

    A C function that works on a state of type [W] and returns an [A] is a
    term of type [M W A].  [Exit] is a call of [exit], [Assert] a failed
    [assert], [Fault] an access the C standard leaves undefined (an invalid
    pointer, an index outside its array) and [Block] an execution that waits
    for something the rest of the environment's schedule does not provide. *)

Inductive outcome (W A : Type) : Type :=
| Ok (a : A) (w : W)
| Exit (code : Z) (w : W)
| Assert (w : W)
| Fault
| Block (w : W).
Arguments Ok {W A} a w.
Arguments Exit {W A} code w.
Arguments Assert {W A} w.
Arguments Fault {W A}.
Arguments Block {W A} w.

Definition M (W A : Type) : Type := W -> outcome W A.

#[global] Instance M_ret W : MRet (M W) := fun A a w => Ok a w.
#[global] Instance M_bind W : MBind (M W) := fun A B k m w =>
  match m w with
  | Ok a w' => k a w'
  | Exit c w' => Exit c w'
  | Assert w' => Assert w'
  | Fault => Fault
  | Block w' => Block w'
  end.

Definition exit {W A} (code : Z) : M W A := fun w => Exit code w.
Definition assert {W} (b : bool) : M W unit := fun w => if b then Ok tt w else Assert w.
Definition fault {W A} : M W A := fun _ => Fault.
Definition block {W A} : M W A := fun w => Block w.
Definition getW {W} : M W W := fun w => Ok w w.
Definition putW {W} (w : W) : M W unit := fun _ => Ok tt w.
Definition modifyW {W} (f : W -> W) : M W unit := fun w => Ok tt (f w).

(** Definedness of an access: [None] is undefined behaviour. *)
Definition defined {W A} (o : option A) : M W A :=
  fun w => match o with Some a => Ok a w | None => Fault end.

Section MonadFacts.
Context {W A B C : Type}.

Lemma bind_ok (m : M W A) (k : A -> M W B) w a w' :
  m w = Ok a w' -> (m ≫= k) w = k a w'.
Proof. intros H. unfold mbind, M_bind. by rewrite H. Qed.

Lemma bind_fault (m : M W A) (k : A -> M W B) w : m w = Fault -> (m ≫= k) w = Fault.
Proof. intros H. unfold mbind, M_bind. by rewrite H. Qed.

Lemma bind_ret (a : A) (k : A -> M W B) w : (mret a ≫= k) w = k a w.
Proof. reflexivity. Qed.

Lemma bind_assoc (m : M W A) (k : A -> M W B) (l : B -> M W C) w :
  ((m ≫= k) ≫= l) w = (m ≫= (fun a => k a ≫= l)) w.
Proof. unfold mbind, M_bind. by destruct (m w). Qed.

Lemma bind_ok_inv (m : M W A) (k : A -> M W B) w b w' :
  (m ≫= k) w = Ok b w' -> exists a w1, m w = Ok a w1 /\ k a w1 = Ok b w'.
Proof. unfold mbind, M_bind. destruct (m w); intros; simplify_eq; eauto. Qed.

Lemma ret_inv (a b : A) (w w' : W) : (mret a : M W A) w = Ok b w' -> a = b /\ w = w'.
Proof. intros [= -> ->]. done. Qed.

Lemma bind_defined (a : A) (k : A -> M W B) w : (defined (Some a) ≫= k) w = k a w.
Proof. reflexivity. Qed.

Lemma bind_eq_l (m m' : M W A) (k : A -> M W B) w : m w = m' w -> (m ≫= k) w = (m' ≫= k) w.
Proof. intros H. unfold mbind, M_bind. by rewrite H. Qed.

Lemma bind_ext (m : M W A) (k l : A -> M W B) w :
  (forall a w', k a w' = l a w') -> (m ≫= k) w = (m ≫= l) w.
Proof. intros H. unfold mbind, M_bind. destruct (m w); auto. Qed.
End MonadFacts.

(** ** Safety of a run

    [wp m Q w]: from [w] the program [m] ends in a state that satisfies [Q] or
    waits for the environment; it does not exit, fail an assertion or do
    anything undefined. *)

Definition wp {W A} (m : M W A) (Q : A -> W -> Prop) (w : W) : Prop :=
  match m w with Ok a w' => Q a w' | Block _ => True | _ => False end.

Section WpFacts.
Context {W A B : Type}.

Lemma wp_ok (m : M W A) (Q : A -> W -> Prop) w a w' : m w = Ok a w' -> Q a w' -> wp m Q w.
Proof. unfold wp. by intros ->. Qed.

Lemma wp_elim (m : M W A) (Q : A -> W -> Prop) w a w' : wp m Q w -> m w = Ok a w' -> Q a w'.
Proof. unfold wp. intros H E. by rewrite E in H. Qed.

Lemma wp_ret (a : A) (Q : A -> W -> Prop) w : Q a w -> wp (mret a) Q w.
Proof. done. Qed.

Lemma wp_block (Q : A -> W -> Prop) w : wp block Q w.
Proof. done. Qed.

Lemma wp_mono (m : M W A) (P Q : A -> W -> Prop) w :
  wp m P w -> (forall a w', P a w' -> Q a w') -> wp m Q w.
Proof. unfold wp. destruct (m w); naive_solver. Qed.

Lemma wp_bind (m : M W A) (k : A -> M W B) (Q : B -> W -> Prop) w :
  wp m (fun a w' => wp (k a) Q w') w -> wp (m ≫= k) Q w.
Proof. unfold wp, mbind, M_bind. by destruct (m w). Qed.

Lemma wp_defined (o : option A) (Q : A -> W -> Prop) w a : o = Some a -> Q a w -> wp (defined o) Q w.
Proof. by intros ->. Qed.

Lemma wp_assert (b : bool) (Q : unit -> W -> Prop) w : b = true -> Q tt w -> wp (assert b) Q w.
Proof. by intros ->. Qed.
End WpFacts.

(** * Arrays of C: fixed-length lists with a checked index *)

Definition znth {A} (l : list A) (i : Z) : option A :=
  if decide (0 <= i) then l !! Z.to_nat i else None.

Definition zupd {A} (l : list A) (i : Z) (x : A) : option (list A) :=
  if decide (0 <= i < Z.of_nat (length l)) then Some (<[Z.to_nat i := x]> l) else None.

Lemma znth_Some {A} (l : list A) i x :
  znth l i = Some x -> 0 <= i < Z.of_nat (length l).
Proof.
  unfold znth. case_decide; [|done]. intros H1%lookup_lt_Some. lia.
Qed.

Lemma zupd_Some {A} (l : list A) i x :
  0 <= i < Z.of_nat (length l) -> zupd l i x = Some (<[Z.to_nat i := x]> l).
Proof. intros H. unfold zupd. by rewrite decide_True. Qed.

Lemma zupd_length {A} (l l' : list A) i x :
  zupd l i x = Some l' -> length l' = length l.
Proof. unfold zupd. case_decide; [|done]. intros [= <-]. apply length_insert. Qed.

Lemma znth_zupd_eq {A} (l l' : list A) i x :
  zupd l i x = Some l' -> znth l' i = Some x.
Proof.
  unfold zupd, znth. case_decide as Hi; [|done]. intros [= <-].
  rewrite decide_True by lia. apply list_lookup_insert_eq. lia.
Qed.

Lemma znth_zupd_ne {A} (l l' : list A) i j x :
  zupd l i x = Some l' -> i <> j -> znth l' j = znth l j.
Proof.
  unfold zupd, znth. case_decide as Hi; [|done]. intros [= <-] Hij.
  case_decide; [|done]. apply list_lookup_insert_ne. lia.
Qed.

Lemma znth_in_range {A} (l : list A) i :
  0 <= i < Z.of_nat (length l) -> exists x, znth l i = Some x.
Proof.
  intros Hi. unfold znth. rewrite decide_True by lia.
  destruct (lookup_lt_is_Some_2 l (Z.to_nat i)) as [x Hx]; [lia|]. eauto.
Qed.

(** * Automation *)

Create HintDb portal.
#[export] Hint Resolve u8_bound u16_bound u32_bound u64_bound : portal.

(** One step of a symbolic execution: the head operation of the goal's
    program runs by a lemma of the [portal] database. *)
Ltac mstep :=
  first [ rewrite bind_ret
        | erewrite bind_ok by (eauto with portal)
        | rewrite bind_assoc ].
Ltac mrun := repeat mstep.

(** One step of a proof that two programs are the same: equal first operations. *)
Ltac bind_cong :=
  first [ reflexivity
        | progress rewrite ?bind_assoc
        | case_decide
        | apply bind_ext; intros ].

(** Case analysis on the [if]s and [match]es of the goal. *)
Ltac case_goal :=
  match goal with
  | |- context [if decide ?P then _ else _] => destruct (decide P)
  | |- context [if ?b then _ else _] => destruct b eqn:?
  | |- context [match ?x with _ => _ end] => destruct x eqn:?
  end.

(** Linear arithmetic after rewriting divisions and remainders by literals. *)
Ltac zlia := Z.div_mod_to_equations; lia.
