(* ===== verification/PortalTypes.v ===== *)
(** The data of the portal runtime, from [cpp/portal.h], [cpp/poller.h] and
    [cpp/sock_utils.h]: pointers and the word-addressed memory they point to,
    the register map of a portal, the [PortalInternal] structure, the table
    of transport operations ([PortalItemFunctions]), the poller object, the
    messages of the simulator socket, and the [World] all of these live in. *)

From stdpp Require Import base gmap list fin_maps.
From Stdlib Require Import ZArith Lia.
From S2P Require Import Prelude.

(** * Pointers to 32-bit words

    [Pblk b o] points to word [o] of the allocated block [b] (memory obtained
    with [malloc] or [portalMmap], possibly shared with another process or
    with the hardware); [Pio a] is the device register at byte address [a] of
    a mapped portal; [Pint a] is an integer cast to a pointer, which is never
    dereferenced ([Pint 0] is the null pointer). *)

Inductive ptr : Type :=
| Pblk (b : nat) (o : Z)
| Pio (a : Z)
| Pint (a : Z).

Definition NULL : ptr := Pint 0.
Definition MAP_FAILED : ptr := Pint (-1).

#[global] Instance ptr_eq_dec : EqDecision ptr.
Proof. solve_decision. Defined.

(** [p + k] on a pointer to 32-bit words. *)
Definition ptr_add (p : ptr) (k : Z) : ptr :=
  match p with
  | Pblk b o => Pblk b (o + k)
  | Pio a => Pio (a + 4 * k)
  | Pint a => Pint (a + 4 * k)
  end.

Lemma ptr_add_0 p : ptr_add p 0 = p.
Proof. destruct p; cbn; f_equal; lia. Qed.

Lemma ptr_add_add p i j : ptr_add (ptr_add p i) j = ptr_add p (i + j).
Proof. destruct p; cbn; f_equal; lia. Qed.

(** * Registers of a portal *)

Definition PORTAL_BASE_OFFSET : Z := Z.shiftl 1 16.

(** [(((0<<14) + (A) * 256 + 256)/sizeof(uint32_t))], with [A] an
    [unsigned int]: the sum is reduced modulo [2^32] before the division. *)
Definition PORTAL_REQ_FIFO (A : Z) : Z := u32 (Z.shiftl 0 14 + A * 256 + 256) / 4.
Definition PORTAL_IND_FIFO (A : Z) : Z := u32 (Z.shiftl 0 14 + A * 256 + 256) / 4.

Definition PORTAL_CTRL_REG_OFFSET_32 : Z := Z.shiftl 0 14 / 4.
Definition PORTAL_CTRL_REG_INTERRUPT_STATUS : Z := PORTAL_CTRL_REG_OFFSET_32 + 0.
Definition PORTAL_CTRL_REG_INTERRUPT_ENABLE : Z := PORTAL_CTRL_REG_OFFSET_32 + 1.
Definition PORTAL_CTRL_REG_SEVEN : Z := PORTAL_CTRL_REG_OFFSET_32 + 2.
Definition PORTAL_CTRL_REG_IND_QUEUE_STATUS : Z := PORTAL_CTRL_REG_OFFSET_32 + 3.
Definition PORTAL_CTRL_REG_PORTAL_ID : Z := PORTAL_CTRL_REG_OFFSET_32 + 4.
Definition PORTAL_CTRL_REG_TOP : Z := PORTAL_CTRL_REG_OFFSET_32 + 5.
Definition PORTAL_CTRL_REG_COUNTER_MSB : Z := PORTAL_CTRL_REG_OFFSET_32 + 6.
Definition PORTAL_CTRL_REG_COUNTER_LSB : Z := PORTAL_CTRL_REG_OFFSET_32 + 7.

Definition MAX_CLIENT_FD : nat := 10.
Definition MAX_TIMERS : Z := 50.

Definition SHARED_LIMIT : Z := 0.
Definition SHARED_WRITE : Z := 1.
Definition SHARED_READ : Z := 2.
Definition SHARED_START : Z := 4.

Definition MAX_BSIM_PORTAL_ID : Z := 128.
Definition MAGIC_PORTAL_FOR_SENDING_FD : Z := 666.
Definition MAGIC_PORTAL_FOR_SENDING_INTERRUPT : Z := 999.

(** * Structures *)

(** The transport tables the runtime defines, and [kernelfunc] of the drivers. *)
Inductive ItemId : Type :=
| bsimfunc | hardwarefunc | socketfuncInit | socketfuncResp | sharedfunc | muxfunc
| kernelfunc.

#[global] Instance ItemId_eq_dec : EqDecision ItemId.
Proof. solve_decision. Defined.

(** The [void *param] given to an [init] function: what each of them casts it to. *)
Inductive ItemParam : Type :=
| NoParam
| SharedParam (dma : nat) (size : Z)   (* PortalSharedParam *)
| SocketParam (addr : option nat)      (* PortalSocketParam *)
| MuxParam (pint : nat).               (* PortalMuxParam *)

(** A [PortalInternal] structure.  Structures are named by a number (their
    address): [mux] and the entries of [mux_ports] are such numbers, [poller]
    is the number of a [PortalPoller], [handler] the number of a function. *)
Record PortalInternal : Type := {
  poller : option nat;
  fpga_fd : Z;
  fpga_number : Z;
  map_base : ptr;
  parent : ptr;
  handler : option nat;
  reqsize : Z;
  accept_finished : Z;
  item : option ItemId;
  cb : ptr;
  mux : option nat;
  muxid : Z;
  indication_index : Z;
  request_index : Z;
  client_fd_number : Z;
  client_fd : list Z;
  mux_ports_number : Z;
  mux_ports : list nat
}.

Definition set_poller (v : option nat) (r : PortalInternal) : PortalInternal :=
  {| poller := v; fpga_fd := fpga_fd r; fpga_number := fpga_number r; map_base := map_base r;
     parent := parent r; handler := handler r; reqsize := reqsize r;
     accept_finished := accept_finished r; item := item r; cb := cb r; mux := mux r;
     muxid := muxid r; indication_index := indication_index r;
     request_index := request_index r; client_fd_number := client_fd_number r;
     client_fd := client_fd r; mux_ports_number := mux_ports_number r;
     mux_ports := mux_ports r |}.
Definition set_fpga_fd (v : Z) (r : PortalInternal) : PortalInternal :=
  {| poller := poller r; fpga_fd := v; fpga_number := fpga_number r; map_base := map_base r;
     parent := parent r; handler := handler r; reqsize := reqsize r;
     accept_finished := accept_finished r; item := item r; cb := cb r; mux := mux r;
     muxid := muxid r; indication_index := indication_index r;
     request_index := request_index r; client_fd_number := client_fd_number r;
     client_fd := client_fd r; mux_ports_number := mux_ports_number r;
     mux_ports := mux_ports r |}.
Definition set_fpga_number (v : Z) (r : PortalInternal) : PortalInternal :=
  {| poller := poller r; fpga_fd := fpga_fd r; fpga_number := v; map_base := map_base r;
     parent := parent r; handler := handler r; reqsize := reqsize r;
     accept_finished := accept_finished r; item := item r; cb := cb r; mux := mux r;
     muxid := muxid r; indication_index := indication_index r;
     request_index := request_index r; client_fd_number := client_fd_number r;
     client_fd := client_fd r; mux_ports_number := mux_ports_number r;
     mux_ports := mux_ports r |}.
Definition set_map_base (v : ptr) (r : PortalInternal) : PortalInternal :=
  {| poller := poller r; fpga_fd := fpga_fd r; fpga_number := fpga_number r; map_base := v;
     parent := parent r; handler := handler r; reqsize := reqsize r;
     accept_finished := accept_finished r; item := item r; cb := cb r; mux := mux r;
     muxid := muxid r; indication_index := indication_index r;
     request_index := request_index r; client_fd_number := client_fd_number r;
     client_fd := client_fd r; mux_ports_number := mux_ports_number r;
     mux_ports := mux_ports r |}.
Definition set_handler (v : option nat) (r : PortalInternal) : PortalInternal :=
  {| poller := poller r; fpga_fd := fpga_fd r; fpga_number := fpga_number r;
     map_base := map_base r; parent := parent r; handler := v; reqsize := reqsize r;
     accept_finished := accept_finished r; item := item r; cb := cb r; mux := mux r;
     muxid := muxid r; indication_index := indication_index r;
     request_index := request_index r; client_fd_number := client_fd_number r;
     client_fd := client_fd r; mux_ports_number := mux_ports_number r;
     mux_ports := mux_ports r |}.
Definition set_reqsize (v : Z) (r : PortalInternal) : PortalInternal :=
  {| poller := poller r; fpga_fd := fpga_fd r; fpga_number := fpga_number r;
     map_base := map_base r; parent := parent r; handler := handler r; reqsize := v;
     accept_finished := accept_finished r; item := item r; cb := cb r; mux := mux r;
     muxid := muxid r; indication_index := indication_index r;
     request_index := request_index r; client_fd_number := client_fd_number r;
     client_fd := client_fd r; mux_ports_number := mux_ports_number r;
     mux_ports := mux_ports r |}.
Definition set_accept_finished (v : Z) (r : PortalInternal) : PortalInternal :=
  {| poller := poller r; fpga_fd := fpga_fd r; fpga_number := fpga_number r;
     map_base := map_base r; parent := parent r; handler := handler r; reqsize := reqsize r;
     accept_finished := v; item := item r; cb := cb r; mux := mux r; muxid := muxid r;
     indication_index := indication_index r; request_index := request_index r;
     client_fd_number := client_fd_number r; client_fd := client_fd r;
     mux_ports_number := mux_ports_number r; mux_ports := mux_ports r |}.
Definition set_item (v : option ItemId) (r : PortalInternal) : PortalInternal :=
  {| poller := poller r; fpga_fd := fpga_fd r; fpga_number := fpga_number r;
     map_base := map_base r; parent := parent r; handler := handler r; reqsize := reqsize r;
     accept_finished := accept_finished r; item := v; cb := cb r; mux := mux r;
     muxid := muxid r; indication_index := indication_index r;
     request_index := request_index r; client_fd_number := client_fd_number r;
     client_fd := client_fd r; mux_ports_number := mux_ports_number r;
     mux_ports := mux_ports r |}.
Definition set_cb (v : ptr) (r : PortalInternal) : PortalInternal :=
  {| poller := poller r; fpga_fd := fpga_fd r; fpga_number := fpga_number r;
     map_base := map_base r; parent := parent r; handler := handler r; reqsize := reqsize r;
     accept_finished := accept_finished r; item := item r; cb := v; mux := mux r;
     muxid := muxid r; indication_index := indication_index r;
     request_index := request_index r; client_fd_number := client_fd_number r;
     client_fd := client_fd r; mux_ports_number := mux_ports_number r;
     mux_ports := mux_ports r |}.
Definition set_mux (v : option nat) (r : PortalInternal) : PortalInternal :=
  {| poller := poller r; fpga_fd := fpga_fd r; fpga_number := fpga_number r;
     map_base := map_base r; parent := parent r; handler := handler r; reqsize := reqsize r;
     accept_finished := accept_finished r; item := item r; cb := cb r; mux := v;
     muxid := muxid r; indication_index := indication_index r;
     request_index := request_index r; client_fd_number := client_fd_number r;
     client_fd := client_fd r; mux_ports_number := mux_ports_number r;
     mux_ports := mux_ports r |}.
Definition set_muxid (v : Z) (r : PortalInternal) : PortalInternal :=
  {| poller := poller r; fpga_fd := fpga_fd r; fpga_number := fpga_number r;
     map_base := map_base r; parent := parent r; handler := handler r; reqsize := reqsize r;
     accept_finished := accept_finished r; item := item r; cb := cb r; mux := mux r;
     muxid := v; indication_index := indication_index r; request_index := request_index r;
     client_fd_number := client_fd_number r; client_fd := client_fd r;
     mux_ports_number := mux_ports_number r; mux_ports := mux_ports r |}.
Definition set_indication_index (v : Z) (r : PortalInternal) : PortalInternal :=
  {| poller := poller r; fpga_fd := fpga_fd r; fpga_number := fpga_number r;
     map_base := map_base r; parent := parent r; handler := handler r; reqsize := reqsize r;
     accept_finished := accept_finished r; item := item r; cb := cb r; mux := mux r;
     muxid := muxid r; indication_index := v; request_index := request_index r;
     client_fd_number := client_fd_number r; client_fd := client_fd r;
     mux_ports_number := mux_ports_number r; mux_ports := mux_ports r |}.
Definition set_request_index (v : Z) (r : PortalInternal) : PortalInternal :=
  {| poller := poller r; fpga_fd := fpga_fd r; fpga_number := fpga_number r;
     map_base := map_base r; parent := parent r; handler := handler r; reqsize := reqsize r;
     accept_finished := accept_finished r; item := item r; cb := cb r; mux := mux r;
     muxid := muxid r; indication_index := indication_index r; request_index := v;
     client_fd_number := client_fd_number r; client_fd := client_fd r;
     mux_ports_number := mux_ports_number r; mux_ports := mux_ports r |}.
Definition set_client_fd_number (v : Z) (r : PortalInternal) : PortalInternal :=
  {| poller := poller r; fpga_fd := fpga_fd r; fpga_number := fpga_number r;
     map_base := map_base r; parent := parent r; handler := handler r; reqsize := reqsize r;
     accept_finished := accept_finished r; item := item r; cb := cb r; mux := mux r;
     muxid := muxid r; indication_index := indication_index r;
     request_index := request_index r; client_fd_number := v; client_fd := client_fd r;
     mux_ports_number := mux_ports_number r; mux_ports := mux_ports r |}.
Definition set_client_fd (v : list Z) (r : PortalInternal) : PortalInternal :=
  {| poller := poller r; fpga_fd := fpga_fd r; fpga_number := fpga_number r;
     map_base := map_base r; parent := parent r; handler := handler r; reqsize := reqsize r;
     accept_finished := accept_finished r; item := item r; cb := cb r; mux := mux r;
     muxid := muxid r; indication_index := indication_index r;
     request_index := request_index r; client_fd_number := client_fd_number r;
     client_fd := v; mux_ports_number := mux_ports_number r; mux_ports := mux_ports r |}.
Definition set_mux_ports_number (v : Z) (r : PortalInternal) : PortalInternal :=
  {| poller := poller r; fpga_fd := fpga_fd r; fpga_number := fpga_number r;
     map_base := map_base r; parent := parent r; handler := handler r; reqsize := reqsize r;
     accept_finished := accept_finished r; item := item r; cb := cb r; mux := mux r;
     muxid := muxid r; indication_index := indication_index r;
     request_index := request_index r; client_fd_number := client_fd_number r;
     client_fd := client_fd r; mux_ports_number := v; mux_ports := mux_ports r |}.
Definition set_mux_ports (v : list nat) (r : PortalInternal) : PortalInternal :=
  {| poller := poller r; fpga_fd := fpga_fd r; fpga_number := fpga_number r;
     map_base := map_base r; parent := parent r; handler := handler r; reqsize := reqsize r;
     accept_finished := accept_finished r; item := item r; cb := cb r; mux := mux r;
     muxid := muxid r; indication_index := indication_index r;
     request_index := request_index r; client_fd_number := client_fd_number r;
     client_fd := client_fd r; mux_ports_number := mux_ports_number r; mux_ports := v |}.

(** [memset(pint, 0, sizeof( *pint))]. *)
Definition PortalInternal_zero : PortalInternal :=
  {| poller := None; fpga_fd := 0; fpga_number := 0; map_base := NULL; parent := NULL;
     handler := None; reqsize := 0; accept_finished := 0; item := None; cb := NULL;
     mux := None; muxid := 0; indication_index := 0; request_index := 0;
     client_fd_number := 0; client_fd := replicate MAX_CLIENT_FD 0;
     mux_ports_number := 0; mux_ports := [] |}.

(** [struct pollfd], as far as the poller uses it. *)
Record pollfd : Type := { fd : Z; events : Z }.
Definition POLLIN : Z := 1.

(** The members of [class PortalPoller]; a [Portal] object is named by the
    number of its [pint]. *)
Record PortalPoller : Type := {
  portal_wrappers : list nat;
  portal_fds : list pollfd;
  numWrappers : Z;
  numFds : Z;
  portalExec_timeout : Z;
  stopping : Z;
  sem_startup : Z
}.

Definition set_portal_wrappers (v : list nat) (r : PortalPoller) : PortalPoller :=
  {| portal_wrappers := v; portal_fds := portal_fds r; numWrappers := numWrappers r;
     numFds := numFds r; portalExec_timeout := portalExec_timeout r; stopping := stopping r;
     sem_startup := sem_startup r |}.
Definition set_portal_fds (v : list pollfd) (r : PortalPoller) : PortalPoller :=
  {| portal_wrappers := portal_wrappers r; portal_fds := v; numWrappers := numWrappers r;
     numFds := numFds r; portalExec_timeout := portalExec_timeout r; stopping := stopping r;
     sem_startup := sem_startup r |}.
Definition set_numWrappers (v : Z) (r : PortalPoller) : PortalPoller :=
  {| portal_wrappers := portal_wrappers r; portal_fds := portal_fds r; numWrappers := v;
     numFds := numFds r; portalExec_timeout := portalExec_timeout r; stopping := stopping r;
     sem_startup := sem_startup r |}.
Definition set_numFds (v : Z) (r : PortalPoller) : PortalPoller :=
  {| portal_wrappers := portal_wrappers r; portal_fds := portal_fds r;
     numWrappers := numWrappers r; numFds := v; portalExec_timeout := portalExec_timeout r;
     stopping := stopping r; sem_startup := sem_startup r |}.
Definition set_portalExec_timeout (v : Z) (r : PortalPoller) : PortalPoller :=
  {| portal_wrappers := portal_wrappers r; portal_fds := portal_fds r;
     numWrappers := numWrappers r; numFds := numFds r; portalExec_timeout := v;
     stopping := stopping r; sem_startup := sem_startup r |}.
Definition set_stopping (v : Z) (r : PortalPoller) : PortalPoller :=
  {| portal_wrappers := portal_wrappers r; portal_fds := portal_fds r;
     numWrappers := numWrappers r; numFds := numFds r;
     portalExec_timeout := portalExec_timeout r; stopping := v; sem_startup := sem_startup r |}.
Definition set_sem_startup (v : Z) (r : PortalPoller) : PortalPoller :=
  {| portal_wrappers := portal_wrappers r; portal_fds := portal_fds r;
     numWrappers := numWrappers r; numFds := numFds r;
     portalExec_timeout := portalExec_timeout r; stopping := stopping r; sem_startup := v |}.

(** Messages between an application and the simulator ([sock_utils.h]). *)
Record memrequest : Type := {
  mreq_portal : Z; mreq_write_flag : Z; mreq_addr : ptr; mreq_data_or_tag : Z }.
Record memresponse : Type := {
  mresp_portal : Z; mresp_data : Z; mresp_tag : Z }.

Record bsim_fpga_map_entry : Type := { bme_name : Z; bme_offset : Z; bme_valid : Z }.

(** The static variables of [portalSocket.c] used with the simulator. *)
Record BsimState : Type := {
  bsim_fpga_map : list bsim_fpga_map_entry;
  shared_response : memresponse;
  shared_response_valid : Z;
  interrupt_value : Z;
  tag_counter : Z
}.

Definition set_bsim_fpga_map (v : list bsim_fpga_map_entry) (r : BsimState) : BsimState :=
  {| bsim_fpga_map := v; shared_response := shared_response r;
     shared_response_valid := shared_response_valid r; interrupt_value := interrupt_value r;
     tag_counter := tag_counter r |}.
Definition set_shared_response (v : memresponse) (r : BsimState) : BsimState :=
  {| bsim_fpga_map := bsim_fpga_map r; shared_response := v;
     shared_response_valid := shared_response_valid r; interrupt_value := interrupt_value r;
     tag_counter := tag_counter r |}.
Definition set_shared_response_valid (v : Z) (r : BsimState) : BsimState :=
  {| bsim_fpga_map := bsim_fpga_map r; shared_response := shared_response r;
     shared_response_valid := v; interrupt_value := interrupt_value r;
     tag_counter := tag_counter r |}.
Definition set_interrupt_value (v : Z) (r : BsimState) : BsimState :=
  {| bsim_fpga_map := bsim_fpga_map r; shared_response := shared_response r;
     shared_response_valid := shared_response_valid r; interrupt_value := v;
     tag_counter := tag_counter r |}.
Definition set_tag_counter (v : Z) (r : BsimState) : BsimState :=
  {| bsim_fpga_map := bsim_fpga_map r; shared_response := shared_response r;
     shared_response_valid := shared_response_valid r; interrupt_value := interrupt_value r;
     tag_counter := v |}.

(** The global variables of [portal.c] and [portalSocket.c], and the static
    [runaway] of the generated [MMURequest_handleMessage]. *)
Record Globals : Type := {
  utility_portal : option nat;
  hw_once : Z;
  global_pa_fd : Z;
  global_sockfd : Z;
  runaway : Z
}.

Definition set_utility_portal (v : option nat) (r : Globals) : Globals :=
  {| utility_portal := v; hw_once := hw_once r; global_pa_fd := global_pa_fd r;
     global_sockfd := global_sockfd r; runaway := runaway r |}.
Definition set_hw_once (v : Z) (r : Globals) : Globals :=
  {| utility_portal := utility_portal r; hw_once := v; global_pa_fd := global_pa_fd r;
     global_sockfd := global_sockfd r; runaway := runaway r |}.
Definition set_global_pa_fd (v : Z) (r : Globals) : Globals :=
  {| utility_portal := utility_portal r; hw_once := hw_once r; global_pa_fd := v;
     global_sockfd := global_sockfd r; runaway := runaway r |}.
Definition set_global_sockfd (v : Z) (r : Globals) : Globals :=
  {| utility_portal := utility_portal r; hw_once := hw_once r;
     global_pa_fd := global_pa_fd r; global_sockfd := v; runaway := runaway r |}.
Definition set_runaway (v : Z) (r : Globals) : Globals :=
  {| utility_portal := utility_portal r; hw_once := hw_once r;
     global_pa_fd := global_pa_fd r; global_sockfd := global_sockfd r; runaway := v |}.

(** A [DmaManagerPrivate] structure ([dmaManager.h]); a semaphore is its count. *)
Record DmaManagerPrivate : Type := {
  confSem : Z;
  sglIdSem : Z;
  sglId : Z;
  dmaDevice : option nat;
  sglDevice : option nat;
  pa_fd : Z
}.

Definition set_confSem (v : Z) (r : DmaManagerPrivate) : DmaManagerPrivate :=
  {| confSem := v; sglIdSem := sglIdSem r; sglId := sglId r; dmaDevice := dmaDevice r;
     sglDevice := sglDevice r; pa_fd := pa_fd r |}.
Definition set_sglIdSem (v : Z) (r : DmaManagerPrivate) : DmaManagerPrivate :=
  {| confSem := confSem r; sglIdSem := v; sglId := sglId r; dmaDevice := dmaDevice r;
     sglDevice := sglDevice r; pa_fd := pa_fd r |}.
Definition set_sglId (v : Z) (r : DmaManagerPrivate) : DmaManagerPrivate :=
  {| confSem := confSem r; sglIdSem := sglIdSem r; sglId := v; dmaDevice := dmaDevice r;
     sglDevice := sglDevice r; pa_fd := pa_fd r |}.
Definition set_dmaDevice (v : option nat) (r : DmaManagerPrivate) : DmaManagerPrivate :=
  {| confSem := confSem r; sglIdSem := sglIdSem r; sglId := sglId r; dmaDevice := v;
     sglDevice := sglDevice r; pa_fd := pa_fd r |}.
Definition set_sglDevice (v : option nat) (r : DmaManagerPrivate) : DmaManagerPrivate :=
  {| confSem := confSem r; sglIdSem := sglIdSem r; sglId := sglId r;
     dmaDevice := dmaDevice r; sglDevice := v; pa_fd := pa_fd r |}.
Definition set_pa_fd (v : Z) (r : DmaManagerPrivate) : DmaManagerPrivate :=
  {| confSem := confSem r; sglIdSem := sglIdSem r; sglId := sglId r;
     dmaDevice := dmaDevice r; sglDevice := sglDevice r; pa_fd := v |}.

(** * The world a portal program runs in

    [K] is the state of everything outside the program (kernel, hardware,
    peers, application callbacks); it is used through interfaces such as
    [Device] below.  [w_mem] holds the allocated words, [w_brk] the next
    fresh block, [w_fill] the unspecified contents of fresh memory, and
    [w_sched] what the peers store into shared memory while this program
    waits: one list of stores [(block, word, value)] per wait. *)

Section World.
Context {K : Type}.

Record World : Type := {
  w_mem : gmap (nat * Z) Z;
  w_brk : nat;
  w_fill : Z -> Z;
  w_pints : gmap nat PortalInternal;
  w_pollers : gmap nat PortalPoller;
  w_dmas : gmap nat DmaManagerPrivate;
  w_glob : Globals;
  w_bsim : BsimState;
  w_kern : K;
  w_sched : list (list (nat * Z * Z))
}.

Definition set_w_mem (v : gmap (nat * Z) Z) (r : World) : World :=
  {| w_mem := v; w_brk := w_brk r; w_fill := w_fill r; w_pints := w_pints r;
     w_pollers := w_pollers r; w_dmas := w_dmas r; w_glob := w_glob r; w_bsim := w_bsim r;
     w_kern := w_kern r; w_sched := w_sched r |}.
Definition set_w_brk (v : nat) (r : World) : World :=
  {| w_mem := w_mem r; w_brk := v; w_fill := w_fill r; w_pints := w_pints r;
     w_pollers := w_pollers r; w_dmas := w_dmas r; w_glob := w_glob r; w_bsim := w_bsim r;
     w_kern := w_kern r; w_sched := w_sched r |}.
Definition set_w_pints (v : gmap nat PortalInternal) (r : World) : World :=
  {| w_mem := w_mem r; w_brk := w_brk r; w_fill := w_fill r; w_pints := v;
     w_pollers := w_pollers r; w_dmas := w_dmas r; w_glob := w_glob r; w_bsim := w_bsim r;
     w_kern := w_kern r; w_sched := w_sched r |}.
Definition set_w_pollers (v : gmap nat PortalPoller) (r : World) : World :=
  {| w_mem := w_mem r; w_brk := w_brk r; w_fill := w_fill r; w_pints := w_pints r;
     w_pollers := v; w_dmas := w_dmas r; w_glob := w_glob r; w_bsim := w_bsim r;
     w_kern := w_kern r; w_sched := w_sched r |}.
Definition set_w_dmas (v : gmap nat DmaManagerPrivate) (r : World) : World :=
  {| w_mem := w_mem r; w_brk := w_brk r; w_fill := w_fill r; w_pints := w_pints r;
     w_pollers := w_pollers r; w_dmas := v; w_glob := w_glob r; w_bsim := w_bsim r;
     w_kern := w_kern r; w_sched := w_sched r |}.
Definition set_w_glob (v : Globals) (r : World) : World :=
  {| w_mem := w_mem r; w_brk := w_brk r; w_fill := w_fill r; w_pints := w_pints r;
     w_pollers := w_pollers r; w_dmas := w_dmas r; w_glob := v; w_bsim := w_bsim r;
     w_kern := w_kern r; w_sched := w_sched r |}.
Definition set_w_bsim (v : BsimState) (r : World) : World :=
  {| w_mem := w_mem r; w_brk := w_brk r; w_fill := w_fill r; w_pints := w_pints r;
     w_pollers := w_pollers r; w_dmas := w_dmas r; w_glob := w_glob r; w_bsim := v;
     w_kern := w_kern r; w_sched := w_sched r |}.
Definition set_w_kern (v : K) (r : World) : World :=
  {| w_mem := w_mem r; w_brk := w_brk r; w_fill := w_fill r; w_pints := w_pints r;
     w_pollers := w_pollers r; w_dmas := w_dmas r; w_glob := w_glob r; w_bsim := w_bsim r;
     w_kern := v; w_sched := w_sched r |}.
Definition set_w_sched (v : list (list (nat * Z * Z))) (r : World) : World :=
  {| w_mem := w_mem r; w_brk := w_brk r; w_fill := w_fill r; w_pints := w_pints r;
     w_pollers := w_pollers r; w_dmas := w_dmas r; w_glob := w_glob r; w_bsim := w_bsim r;
     w_kern := w_kern r; w_sched := v |}.

End World.
Arguments World K : clear implicits.

(** The state at the start of a program: the static initialisers of the C files. *)
Definition start_world {K} (k : K) : World K :=
  {| w_mem := ∅; w_brk := 1; w_fill := fun _ => 0; w_pints := ∅; w_pollers := ∅;
     w_dmas := ∅;
     w_glob := {| utility_portal := None; hw_once := 0; global_pa_fd := -1; global_sockfd := -1;
                  runaway := 0 |};
     w_bsim := {| bsim_fpga_map := replicate (Z.to_nat MAX_BSIM_PORTAL_ID)
                    {| bme_name := 0; bme_offset := 0; bme_valid := 0 |};
                  shared_response := {| mresp_portal := 0; mresp_data := 0; mresp_tag := 0 |};
                  shared_response_valid := 0; interrupt_value := 0; tag_counter := 0 |};
     w_kern := k; w_sched := [] |}.

(** Device registers: what a load from a register returns and what a store does. *)
Class Device (K : Type) : Type := {
  mmio_read : Z -> K -> Z * K;
  mmio_write : Z -> Z -> K -> K;
  dev_tick : K -> K
}.

Section Access.
Context {K : Type} `{!Device K}.
Local Abbreviation W := (World K).

(** [*p] *)
Definition load (p : ptr) : M W Z :=
  match p with
  | Pblk b o => fun w => match w_mem w !! (b, o) with Some v => Ok v w | None => Fault end
  | Pio a => fun w => let (v, k) := mmio_read a (w_kern w) in Ok (u32 v) (set_w_kern k w)
  | Pint _ => fault
  end.

(** [*p = v] *)
Definition store (p : ptr) (v : Z) : M W unit :=
  match p with
  | Pblk b o => fun w =>
      match w_mem w !! (b, o) with
      | Some _ => Ok tt (set_w_mem (<[(b, o) := u32 v]> (w_mem w)) w)
      | None => Fault
      end
  | Pio a => fun w => Ok tt (set_w_kern (mmio_write a (u32 v) (w_kern w)) w)
  | Pint _ => fault
  end.

Fixpoint fresh_words (b : nat) (fill : Z -> Z) (n : nat) (m : gmap (nat * Z) Z) : gmap (nat * Z) Z :=
  match n with
  | O => m
  | S n => <[(b, Z.of_nat n) := u32 (fill (Z.of_nat n))]> (fresh_words b fill n m)
  end.

(** [malloc(size)], for a block of 32-bit words. *)
Definition malloc (size : Z) : M W ptr := fun w =>
  let b := w_brk w in
  Ok (Pblk b 0)
     (set_w_brk (S b)
       (set_w_mem (fresh_words b (w_fill w) (Z.to_nat (size / 4)) (w_mem w)) w)).

(** [p->...] for a structure [p]. *)
Definition get_pint (p : nat) : M W PortalInternal := fun w =>
  match w_pints w !! p with Some x => Ok x w | None => Fault end.
Definition put_pint (p : nat) (x : PortalInternal) : M W unit :=
  modifyW (fun w => set_w_pints (<[p := x]> (w_pints w)) w).
Definition upd_pint (p : nat) (f : PortalInternal -> PortalInternal) : M W unit :=
  x ← get_pint p; put_pint p (f x).

Definition get_poller (p : nat) : M W PortalPoller := fun w =>
  match w_pollers w !! p with Some x => Ok x w | None => Fault end.
Definition put_poller (p : nat) (x : PortalPoller) : M W unit :=
  modifyW (fun w => set_w_pollers (<[p := x]> (w_pollers w)) w).

Definition get_dma (d : nat) : M W DmaManagerPrivate := fun w =>
  match w_dmas w !! d with Some x => Ok x w | None => Fault end.
Definition put_dma (d : nat) (x : DmaManagerPrivate) : M W unit :=
  modifyW (fun w => set_w_dmas (<[d := x]> (w_dmas w)) w).

Definition get_glob : M W Globals := fun w => Ok (w_glob w) w.
Definition put_glob (g : Globals) : M W unit := modifyW (set_w_glob g).
Definition get_bsim : M W BsimState := fun w => Ok (w_bsim w) w.
Definition put_bsim (g : BsimState) : M W unit := modifyW (set_w_bsim g).

(** Peers store into shared memory while the program waits. *)
Definition peer_store (m : gmap (nat * Z) Z) (s : nat * Z * Z) : gmap (nat * Z) Z :=
  match s with
  | (b, o, v) => match m !! (b, o) with Some _ => <[(b, o) := u32 v]> m | None => m end
  end.

(** A turn of a waiting loop: the environment takes its next scheduled step. *)
Definition await : M W unit := fun w =>
  match w_sched w with
  | [] => Block w
  | stores :: rest =>
      Ok tt (set_w_sched rest
              (set_w_kern (dev_tick (w_kern w))
                (set_w_mem (foldl peer_store (w_mem w) stores) w)))
  end.

(** * The transport table: [PortalItemFunctions]

    Pointers to words passed by reference ([volatile unsigned int **addr])
    are returned with the result; so is [*recvfd] of [recv], [None] when the
    function does not assign it. *)
Record PortalItemFunctions : Type := {
  it_init : nat -> ItemParam -> M W Z;
  it_read : nat -> ptr -> M W (Z * ptr);
  it_write : nat -> ptr -> Z -> M W ptr;
  it_writefd : nat -> ptr -> Z -> M W ptr;
  it_mapchannelInd : nat -> Z -> M W ptr;
  it_mapchannelReq : nat -> Z -> M W ptr;
  it_send : nat -> ptr -> Z -> Z -> M W unit;
  it_recv : nat -> ptr -> Z -> M W (Z * option Z);
  it_busywait : nat -> ptr -> M W Z;
  it_enableint : nat -> Z -> M W unit;
  it_event : nat -> M W Z
}.

(** The table of a structure whose [item] pointer is null. *)
Definition no_item : PortalItemFunctions :=
  {| it_init := fun _ _ => fault; it_read := fun _ _ => fault;
     it_write := fun _ _ _ => fault; it_writefd := fun _ _ _ => fault;
     it_mapchannelInd := fun _ _ => fault; it_mapchannelReq := fun _ _ => fault;
     it_send := fun _ _ _ _ => fault; it_recv := fun _ _ _ => fault;
     it_busywait := fun _ _ => fault; it_enableint := fun _ _ => fault;
     it_event := fun _ => fault |}.

(** ** Facts about accesses *)

Lemma load_blk b o v w :
  w_mem w !! (b, o) = Some v -> load (Pblk b o) w = Ok v w.
Proof. intros H. cbn. by rewrite H. Qed.

Lemma store_blk b o v v0 w :
  w_mem w !! (b, o) = Some v0 ->
  store (Pblk b o) v w = Ok tt (set_w_mem (<[(b, o) := u32 v]> (w_mem w)) w).
Proof. intros H. cbn. by rewrite H. Qed.

Lemma get_pint_ok p x w : w_pints w !! p = Some x -> get_pint p w = Ok x w.
Proof. intros H. unfold get_pint. by rewrite H. Qed.

Lemma upd_pint_ok p x f w :
  w_pints w !! p = Some x ->
  upd_pint p f w = Ok tt (set_w_pints (<[p := f x]> (w_pints w)) w).
Proof. intros H. unfold upd_pint. by rewrite (bind_ok _ _ _ _ _ (get_pint_ok _ _ _ H)). Qed.

Lemma fresh_words_lookup b fill n m o :
  0 <= o < Z.of_nat n -> fresh_words b fill n m !! (b, o) = Some (u32 (fill o)).
Proof.
  induction n as [|n IH]; [lia|]. intros Ho. cbn.
  destruct (decide (o = Z.of_nat n)) as [->|Hne].
  - apply lookup_insert_eq.
  - rewrite lookup_insert_ne by congruence. apply IH. lia.
Qed.

Lemma fresh_words_other b fill n m b' o :
  b <> b' -> fresh_words b fill n m !! (b', o) = m !! (b', o).
Proof.
  intros Hb. induction n as [|n IH]; [done|]. cbn.
  rewrite lookup_insert_ne by congruence. exact IH.
Qed.

End Access.
Arguments PortalItemFunctions K : clear implicits.

#[export] Hint Resolve load_blk store_blk get_pint_ok upd_pint_ok : portal.
