(* ===== verification/PortalCore.v ===== *)
(** The portal runtime of [cpp/portal.c]: initialisation, the operations
    shared by the memory transports, the hardware (memory-mapped register)
    transport, the cycle counter and the portal-memory wrappers.  The build
    modelled is the user-space one for a PCIe board ([ZYNQ] and [__KERNEL__]
    not defined); messages printed for the user are not modelled. *)

From stdpp Require Import base gmap list fin_maps.
From Stdlib Require Import ZArith Lia.
From S2P Require Import Prelude PortalTypes.

(** What the code asks of the operating system. *)
Class PortalOs (K : Type) : Type := {
  os_open_portal : Z -> K -> Z * K;        (* open of /dev/portal<number>: an fd, or -1 *)
  os_open_portalmem : K -> Z * K;          (* open of /dev/portalmem *)
  os_pa_malloc : Z -> Z -> K -> Z * K;     (* ioctl(fd, PA_MALLOC, size) *)
  os_mmap : Z -> Z -> K -> ptr * K;        (* mmap(0, size, ..., fd, 0) *)
  os_errno : K -> Z
}.

Definition ENODEV : Z := 19.

Section Core.
Context {K : Type} `{!Device K} `{!PortalOs K}.
Local Abbreviation W := (World K).

(** The transport tables the program is linked with, the functions its
    [handler] pointers denote, and whether it is built for the simulator. *)
Variable tab : ItemId -> PortalItemFunctions K.
Variable hcall : nat -> nat -> Z -> Z -> M W Z.
Variable BSIM : bool.

(** [pint->item] *)
Definition item_of (x : PortalInternal) : PortalItemFunctions K :=
  match item x with Some i => tab i | None => no_item end.

Definition kcall {A} (f : K -> A * K) : M W A := fun w =>
  let (a, k) := f (w_kern w) in Ok a (set_w_kern k w).

(** ** Initialisation *)

Definition init_portal_hw : M W unit :=
  g ← get_glob;
  if decide (hw_once g <> 0) then mret tt
  else put_glob (set_hw_once 1 g).

Definition init_portal_internal (p : nat) (id : Z) (hdl : option nat) (cbp : ptr)
    (itm : option ItemId) (param : ItemParam) (rsize : Z) : M W unit :=
  init_portal_hw ;;
  put_pint p PortalInternal_zero ;;
  g ← get_glob;
  match utility_portal g with
  | None => put_glob (set_utility_portal (Some p) g)
  | Some _ => mret tt
  end ;;
  upd_pint p (set_fpga_number id) ;;
  upd_pint p (set_fpga_fd (-1)) ;;
  upd_pint p (set_handler hdl) ;;
  upd_pint p (set_cb cbp) ;;
  upd_pint p (set_item itm) ;;
  upd_pint p (set_muxid (-1)) ;;
  match itm with
  | None => upd_pint p (set_item (Some (if BSIM then bsimfunc else hardwarefunc)))
  | Some _ => mret tt
  end ;;
  upd_pint p (set_reqsize rsize) ;;
  x ← get_pint p;
  rc ← it_init (item_of x) p param;
  if decide (rc <> 0) then exit 1 else mret tt.

(** The user-space builds without [ZYNQ] return 0 and change nothing. *)
Definition setClockFrequency (clkNum requestedFrequency : Z) : M W Z :=
  init_portal_hw ;; mret 0.

(** Both trace entry points stop at [assert(false)]. *)
Definition portalTrace_start : M W unit := init_portal_hw ;; assert false.
Definition portalTrace_stop : M W unit := init_portal_hw ;; assert false.

(** ** The cycle counter *)

Definition portalCycleCount : M W Z :=
  g ← get_glob;
  match utility_portal g with
  | None => mret 0
  | Some u =>
      init_portal_hw ;;
      x ← get_pint u;
      let msb := ptr_add (map_base x) PORTAL_CTRL_REG_COUNTER_MSB in
      let lsb := ptr_add (map_base x) PORTAL_CTRL_REG_COUNTER_LSB in
      '(high_bits, _) ← it_read (item_of x) u msb;
      '(low_bits, _) ← it_read (item_of x) u lsb;
      mret (Z.lor (u64 (Z.shiftl high_bits 32)) low_bits)
  end.

(** ** Portal memory *)

Definition init_portal_memory : M W unit :=
  g ← get_glob;
  (if decide (global_pa_fd g = -1) then
     fd ← kcall os_open_portalmem;
     g ← get_glob; put_glob (set_global_pa_fd fd g)
   else mret tt) ;;
  g ← get_glob;
  if decide (global_pa_fd g < 0) then exit ENODEV else mret tt.

Definition portalAlloc (size : Z) : M W Z :=
  init_portal_memory ;;
  g ← get_glob;
  kcall (os_pa_malloc (global_pa_fd g) size).

Definition portalMmap (fd size : Z) : M W ptr := kcall (os_mmap fd size).

(** The x86 build reads every byte of the buffer and flushes its cache line;
    byte [i] of the buffer is part of word [i / 4]. *)
Fixpoint flush_loop (n : nat) (i : Z) (p : ptr) : M W unit :=
  match n with
  | O => mret tt
  | S n => load (ptr_add p (i / 4)) ;; flush_loop n (i + 1) p
  end.

Definition portalDCacheFlushInval (fd size : Z) (p : ptr) : M W Z :=
  flush_loop (Z.to_nat size) 0 p ;; mret 0.

(** ** Delivery of indications *)

(** The [while] loop of [portalCheckIndication]; [fuel] bounds the number of
    indications taken in one call, and a device that has more blocks. *)
Fixpoint portalCheckIndication_loop (fuel : nat) (p : nat) (statp : ptr) : M W unit :=
  match fuel with
  | O => block
  | S fuel =>
      x ← get_pint p;
      '(queue_status, statp) ← it_read (item_of x) p statp;
      if decide (queue_status = 0) then mret tt
      else
        match handler x with
        | None => exit 1
        | Some h => hcall h p (u32 (queue_status - 1)) 0
        end ;;
        portalCheckIndication_loop fuel p statp
  end.

Definition portalCheckIndication (fuel : nat) (p : nat) : M W unit :=
  x ← get_pint p;
  portalCheckIndication_loop fuel p (ptr_add (map_base x) PORTAL_CTRL_REG_IND_QUEUE_STATUS).

(** ** Operations of the memory transports *)

Definition send_portal_null (p : nat) (buffer : ptr) (hdr sendFd : Z) : M W unit := mret tt.
Definition recv_portal_null (p : nat) (buffer : ptr) (len : Z) : M W (Z * option Z) := mret (0, None).
Definition busy_portal_null (p : nat) (addr : ptr) : M W Z := mret 0.
Definition enableint_portal_null (p : nat) (val : Z) : M W unit := mret tt.

Definition read_portal_memory (p : nat) (addr : ptr) : M W (Z * ptr) :=
  rc ← load addr; mret (rc, ptr_add addr 1).
Definition write_portal_memory (p : nat) (addr : ptr) (v : Z) : M W ptr :=
  store addr v ;; mret (ptr_add addr 1).
Definition write_fd_portal_memory (p : nat) (addr : ptr) (v : Z) : M W ptr :=
  store addr v ;; mret (ptr_add addr 1).

(** ** The hardware transport *)

Definition mapchannel_hardware (p : nat) (v : Z) : M W ptr :=
  x ← get_pint p; mret (ptr_add (map_base x) (PORTAL_IND_FIFO v)).

(** [while (!read(&tempp) && count-- > 0);]: the result is [count] at the exit. *)
Fixpoint busy_loop (p : nat) (count : nat) (tempp : ptr) : M W Z :=
  x ← get_pint p;
  '(v, tempp) ← it_read (item_of x) p tempp;
  if decide (v <> 0) then mret (Z.of_nat count)
  else match count with
       | O => mret (-1)
       | S count => busy_loop p count tempp
       end.

Definition busy_hardware (p : nat) (addr : ptr) : M W Z :=
  count ← busy_loop p 50 (ptr_add addr 1);
  if decide (count <= 0) then mret 1 else mret 0.

Definition enableint_hardware (p : nat) (val : Z) : M W unit :=
  x ← get_pint p;
  it_write (item_of x) p (ptr_add (map_base x) PORTAL_CTRL_REG_INTERRUPT_ENABLE) val ;;
  mret tt.

Definition event_hardware (fuel : nat) (p : nat) : M W Z :=
  portalCheckIndication fuel p ;; mret (-1).

Definition init_hardware (p : nat) (param : ItemParam) : M W Z :=
  x ← get_pint p;
  fd ← kcall (os_open_portal (fpga_number x));
  upd_pint p (set_fpga_fd fd) ;;
  if decide (fd < 0) then e ← kcall (fun k => (os_errno k, k)); mret (- e)
  else
    mb ← portalMmap fd PORTAL_BASE_OFFSET;
    upd_pint p (set_map_base mb) ;;
    if decide (mb = MAP_FAILED) then e ← kcall (fun k => (os_errno k, k)); mret (- e)
    else mret 0.

Definition read_hardware (p : nat) (addr : ptr) : M W (Z * ptr) :=
  v ← load addr; mret (v, addr).
Definition write_hardware (p : nat) (addr : ptr) (v : Z) : M W ptr :=
  store addr v ;; mret addr.
Definition write_fd_hardware (p : nat) (addr : ptr) (v : Z) : M W ptr :=
  store addr v ;; mret addr.

(** [PortalItemFunctions hardwarefunc] *)
Definition hardwarefunc_table (fuel : nat) : PortalItemFunctions K :=
  {| it_init := init_hardware; it_read := read_hardware; it_write := write_hardware;
     it_writefd := write_fd_hardware; it_mapchannelInd := mapchannel_hardware;
     it_mapchannelReq := mapchannel_hardware; it_send := send_portal_null;
     it_recv := recv_portal_null; it_busywait := busy_hardware;
     it_enableint := enableint_hardware; it_event := event_hardware fuel |}.

(** ** Properties *)

(** The structure [init_portal_internal] fills in before it calls [init]. *)
Definition fresh_pint (id : Z) (hdl : option nat) (cbp : ptr) (itm : ItemId) (rsize : Z)
    : PortalInternal :=
  {| poller := None; fpga_fd := -1; fpga_number := id; map_base := NULL; parent := NULL;
     handler := hdl; reqsize := rsize; accept_finished := 0; item := Some itm; cb := cbp;
     mux := None; muxid := -1; indication_index := 0; request_index := 0;
     client_fd_number := 0; client_fd := replicate MAX_CLIENT_FD 0;
     mux_ports_number := 0; mux_ports := [] |}.

Definition default_item (itm : option ItemId) : ItemId :=
  match itm with Some i => i | None => if BSIM then bsimfunc else hardwarefunc end.

(** The world in which [init] is called. *)
Definition before_init (p : nat) (x : PortalInternal) (w : W) : W :=
  set_w_pints (<[p := x]> (w_pints w))
    (set_w_glob
      (let g := set_hw_once (if decide (hw_once (w_glob w) <> 0) then hw_once (w_glob w) else 1) (w_glob w) in
       match utility_portal g with None => set_utility_portal (Some p) g | Some _ => g end) w).

Lemma init_portal_hw_eq w :
  init_portal_hw w =
  Ok tt (set_w_glob (set_hw_once (if decide (hw_once (w_glob w) <> 0) then hw_once (w_glob w) else 1)
                       (w_glob w)) w).
Proof.
  unfold init_portal_hw, mbind, M_bind, get_glob, put_glob, modifyW.
  destruct w as [? ? ? ? ? ? []]. cbn. by case_decide.
Qed.

Lemma insert_pint_twice p x y (w : W) :
  set_w_pints (<[p := x]> (w_pints (set_w_pints (<[p := y]> (w_pints w)) w)))
    (set_w_pints (<[p := y]> (w_pints w)) w) = set_w_pints (<[p := x]> (w_pints w)) w.
Proof. destruct w. cbn. by rewrite insert_insert_eq. Qed.

Lemma upd_fresh p x y f (w : W) :
  f x = y ->
  upd_pint p f (set_w_pints (<[p := x]> (w_pints w)) w) = Ok tt (set_w_pints (<[p := y]> (w_pints w)) w).
Proof.
  intros <-. rewrite (upd_pint_ok p x) by apply lookup_insert_eq. by rewrite insert_pint_twice.
Qed.

(** [init_portal_internal] resets every field of the structure, selects the
    default transport of the build when none is given, makes the first portal
    of the program the utility portal, and calls the transport's [init] in
    that state; the program exits with status 1 when [init] fails. *)
Theorem init_portal_internal_spec p id hdl cbp itm param rsize (w w' : W) rc :
  it_init (tab (default_item itm)) p param
    (before_init p (fresh_pint id hdl cbp (default_item itm) rsize) w) = Ok rc w' ->
  init_portal_internal p id hdl cbp itm param rsize w =
    if decide (rc = 0) then Ok tt w' else Exit 1 w'.
Proof.
  intros Hrun. unfold init_portal_internal.
  rewrite (bind_ok _ _ _ _ _ (init_portal_hw_eq w)).
  set (g := set_hw_once _ _). unfold before_init in Hrun. fold g in Hrun.
  unfold put_pint at 1. unfold mbind at 1, M_bind at 1, modifyW.
  unfold mbind at 1, M_bind at 1, get_glob at 1. cbn [w_glob set_w_pints set_w_glob].
  set (g' := match utility_portal g with None => set_utility_portal (Some p) g | Some _ => g end) in *.
  rewrite (bind_ok _ _ _ tt (set_w_pints (<[p := PortalInternal_zero]> (w_pints w)) (set_w_glob g' w))).
  2:{ unfold g'. destruct (utility_portal g); done. }
  change (w_pints w) with (w_pints (set_w_glob g' w)).
  change (w_pints w) with (w_pints (set_w_glob g' w)) in Hrun.
  do 6 erewrite (bind_ok (upd_pint _ _)) by (apply upd_fresh; reflexivity).
  rewrite (bind_ok _ _ _ tt (set_w_pints (<[p := set_item (Some (default_item itm))
    (set_muxid (-1) (set_item itm (set_cb cbp (set_handler hdl (set_fpga_fd (-1)
      (set_fpga_number id PortalInternal_zero))))))]> (w_pints (set_w_glob g' w))) (set_w_glob g' w))).
  2:{ destruct itm; [reflexivity|]. apply upd_fresh. reflexivity. }
  erewrite (bind_ok (upd_pint _ _)) by (apply upd_fresh; reflexivity).
  erewrite (bind_ok (get_pint _)) by (apply get_pint_ok, lookup_insert_eq).
  erewrite bind_ok by exact Hrun. destruct (decide (rc = 0)), (decide (rc <> 0)); done || lia.
Qed.

End Core.

(** A transport that opens, for the witness. *)
Module CoreDemo.
#[local] Instance dev : Device nat :=
  {| mmio_read := fun _ k => (0, k); mmio_write := fun _ _ k => k; dev_tick := fun k => k |}.
#[local] Instance os : PortalOs nat :=
  {| os_open_portal := fun _ k => (3, k); os_open_portalmem := fun k => (4, k);
     os_pa_malloc := fun _ _ k => (5, k); os_mmap := fun _ _ k => (Pio 0x10000, k);
     os_errno := fun _ => 0 |}.
Definition hcall (_ _ : nat) (_ _ : Z) : M (World nat) Z := mret 0.
Definition tab (i : ItemId) : PortalItemFunctions nat :=
  match i with hardwarefunc => hardwarefunc_table (fun _ => no_item) hcall 1 | _ => no_item end.

(** Opening portal 9 with the default transport: the registers are mapped. *)
Lemma init_portal_internal_spec_witness :
  init_portal_internal tab false 0 9 (Some 7%nat) NULL None NoParam 44 (start_world 0%nat) =
  Ok tt (set_w_pints
    (<[0%nat := set_map_base (Pio 0x10000) (set_fpga_fd 3 (fresh_pint 9 (Some 7%nat) NULL hardwarefunc 44))]> ∅)
    (before_init 0 (fresh_pint 9 (Some 7%nat) NULL hardwarefunc 44) (start_world 0%nat))).
Proof.
  apply (init_portal_internal_spec tab false 0 9 (Some 7%nat) NULL None NoParam 44 (start_world 0%nat)
    (set_w_pints
      (<[0%nat := set_map_base (Pio 0x10000) (set_fpga_fd 3 (fresh_pint 9 (Some 7%nat) NULL hardwarefunc 44))]> ∅)
      (before_init 0 (fresh_pint 9 (Some 7%nat) NULL hardwarefunc 44) (start_world 0%nat))) 0).
  reflexivity.
Defined.
End CoreDemo.
