(* ===== verification/Poller.v ===== *)
(** The event loop of [cpp/poller.cpp]: a [PortalPoller] keeps the array of the
    registered portals and the array of descriptors to poll, and dispatches
    events to the transports.  Arrays grown with [realloc] are lists cut or
    extended to the new number of elements; [Portal] objects (the C++ class of
    [cpp/poller.h]) are named by the number of their [PortalInternal]. *)

From stdpp Require Import base gmap list fin_maps.
From Stdlib Require Import ZArith Lia.
From S2P Require Import Prelude PortalTypes PortalCore.

(** [poll] on the first [numFds] entries, with the timeout in milliseconds. *)
Class PollOs (K : Type) : Type := {
  os_poll : list pollfd -> Z -> K -> Z * K;
  os_close : Z -> K -> K
}.

Section Poller.
Context {K : Type} `{!Device K} `{!PortalOs K} `{!PollOs K}.
Local Abbreviation W := (World K).

Variable tab : ItemId -> PortalItemFunctions K.
Variable BSIM : bool.
(** The poller [defaultPoller] points to. *)
Variable defaultPoller : nat.

Definition PortalPoller_new : PortalPoller :=
  {| portal_wrappers := []; portal_fds := []; numWrappers := 0; numFds := 0;
     portalExec_timeout := 0; stopping := 0; sem_startup := 0 |}.

Definition pollfd_zero : pollfd := {| fd := 0; events := 0 |}.

(** ** Registration *)

(** The [while] loop that looks for the first wrapper with this [fpga_number],
    from index [i]; [n] bounds the turns left. *)
Fixpoint find_wrapper (n : nat) (pp : PortalPoller) (number : Z) (i : Z) : M W Z :=
  match n with
  | O => mret i
  | S n =>
      if decide (i < numWrappers pp) then
        q ← defined (znth (portal_wrappers pp) i);
        x ← get_pint q;
        if decide (fpga_number x = number) then mret i
        else find_wrapper n pp number (i + 1)
      else mret i
  end.

(** [while (i < n - 1) { a[i] = a[i+1]; i++; }] *)
Fixpoint shift_down {A} (turns : nat) (n : Z) (a : list A) (i : Z) : option (list A) :=
  match turns with
  | O => Some a
  | S turns =>
      if decide (i < n - 1) then
        v ← znth a (i + 1); a ← zupd a i v; shift_down turns n a (i + 1)
      else Some a
  end.

Fixpoint find_fd (n : nat) (pp : PortalPoller) (f : Z) (i : Z) : M W Z :=
  match n with
  | O => mret i
  | S n =>
      if decide (i < numFds pp) then
        e ← defined (znth (portal_fds pp) i);
        if decide (fd e = f) then mret i else find_fd n pp f (i + 1)
      else mret i
  end.

Definition unregisterInstance (me p : nat) : M W Z :=
  pp ← get_poller me;
  x ← get_pint p;
  i ← find_wrapper (Z.to_nat (numWrappers pp)) pp (fpga_number x) 0;
  ws ← defined (shift_down (Z.to_nat (numWrappers pp)) (numWrappers pp) (portal_wrappers pp) i);
  let pp := set_numWrappers (numWrappers pp - 1) (set_portal_wrappers ws pp) in
  i ← find_fd (Z.to_nat (numFds pp)) pp (fpga_fd x) 0;
  fds ← defined (shift_down (Z.to_nat (numFds pp)) (numFds pp) (portal_fds pp) i);
  put_poller me (set_numFds (numFds pp - 1) (set_portal_fds fds pp)) ;;
  mret 0.

Definition addFd (me : nat) (f : Z) : M W unit :=
  pp ← get_poller me;
  let n := numFds pp + 1 in
  fds ← defined (zupd (resize (Z.to_nat n) pollfd_zero (portal_fds pp)) (n - 1)
                      {| fd := f; events := POLLIN |});
  put_poller me (set_numFds n (set_portal_fds fds pp)).

(** [for (int i = 0; i < client_fd_number; i++) addFd(client_fd[i]);] *)
Fixpoint add_clients (turns : nat) (me : nat) (x : PortalInternal) (i : Z) : M W unit :=
  match turns with
  | O => mret tt
  | S turns =>
      if decide (i < client_fd_number x) then
        f ← defined (znth (client_fd x) i);
        addFd me f ;; add_clients turns me x (i + 1)
      else mret tt
  end.

Definition registerInstance (me p : nat) : M W Z :=
  pp ← get_poller me;
  let n := numWrappers pp + 1 in
  ws ← defined (zupd (resize (Z.to_nat n) 0%nat (portal_wrappers pp)) (n - 1) p);
  put_poller me (set_numWrappers n (set_portal_wrappers ws pp)) ;;
  x ← get_pint p;
  (if decide (fpga_fd x <> -1) then addFd me (fpga_fd x) else mret tt) ;;
  add_clients (Z.to_nat (client_fd_number x)) me x 0 ;;
  mret 0.

(** ** Execution *)

Fixpoint enable_all (turns : nat) (me : nat) (i : Z) : M W unit :=
  match turns with
  | O => mret tt
  | S turns =>
      pp ← get_poller me;
      if decide (i < numWrappers pp) then
        p ← defined (znth (portal_wrappers pp) i);
        x ← get_pint p;
        it_enableint (item_of tab x) p 1 ;;
        enable_all turns me (i + 1)
      else mret tt
  end.

Definition upd_poller (me : nat) (f : PortalPoller -> PortalPoller) : M W unit :=
  pp ← get_poller me; put_poller me (f pp).

Definition portalExec_init (me : nat) : M W Z :=
  upd_poller me (set_portalExec_timeout (-1)) ;;
  (if BSIM then
     upd_poller me (set_portalExec_timeout 100) ;;
     g ← get_glob;
     if decide (global_sockfd g <> -1) then addFd me (global_sockfd g) else mret tt
   else mret tt) ;;
  pp ← get_poller me;
  if decide (numFds pp = 0) then mret (- ENODEV)
  else enable_all (Z.to_nat (numWrappers pp)) me 0 ;; mret 0.

Definition portalExec_stop (me : nat) : M W unit := upd_poller me (set_stopping 1).

(** The loop behind the [return] is dead code. *)
Definition portalExec_end (me : nat) : M W unit := upd_poller me (set_stopping 1).

Definition portalExec_poll (me : nat) (timeout : Z) : M W Z :=
  if decide (timeout <> 0) then
    pp ← get_poller me;
    kcall (os_poll (take (Z.to_nat (numFds pp)) (portal_fds pp)) timeout)
  else mret 0.

(** A turn reads [numWrappers] again: handlers may register portals.  [fuel]
    bounds the turns; a run that needs more blocks. *)
Fixpoint event_all (fuel : nat) (me : nat) (i : Z) : M W unit :=
  match fuel with
  | O => block
  | S fuel =>
      pp ← get_poller me;
      if decide (i < numWrappers pp) then
        p ← defined (znth (portal_wrappers pp) i);
        x ← get_pint p;
        match handler x with
        | None => event_all fuel me (i + 1)
        | Some _ =>
            _ ← it_event (item_of tab x) p;
            x ← get_pint p;
            it_enableint (item_of tab x) p 1 ;;
            event_all fuel me (i + 1)
        end
      else mret tt
  end.

Definition portalExec_event (fuel : nat) (me : nat) : M W Z :=
  event_all fuel me 0 ;; mret 0.

Definition addFdToPoller (me : nat) (f : Z) : M W unit := addFd me f.

(** The [while] loop of [portalExec]: [fuel] bounds its turns. *)
Fixpoint portalExec_loop (fuel efuel : nat) (me : nat) (rc : Z) : M W Z :=
  pp ← get_poller me;
  if decide (rc = 0 /\ stopping pp = 0) then
    match fuel with
    | O => block
    | S fuel =>
        rc ← portalExec_poll me (portalExec_timeout pp);
        rc ← (if decide (0 <= rc) then portalExec_event efuel me else mret rc);
        portalExec_loop fuel efuel me rc
    end
  else mret rc.

Definition portalExec (fuel efuel : nat) (me : nat) : M W Z :=
  rc ← portalExec_init me;
  pp ← get_poller me;
  put_poller me (set_sem_startup (sem_startup pp + 1) pp) ;;
  rc ← portalExec_loop fuel efuel me rc;
  portalExec_end me ;;
  mret rc.

(** ** [class Portal] *)

Definition socket_item (x : PortalInternal) : bool :=
  match item x with Some socketfuncResp | Some socketfuncInit => true | _ => false end.

Definition initPortal (p : nat) : M W unit :=
  x ← get_pint p;
  if decide (is_Some (handler x) \/ socket_item x = true) then
    (match poller x with None => upd_pint p (set_poller (Some defaultPoller)) | Some _ => mret tt end) ;;
    x ← get_pint p;
    me ← defined (poller x);
    registerInstance me p ;; mret tt
  else mret tt.

Definition Portal_new (p : nat) (id rsize : Z) (hdl : option nat) (cbp : ptr) (itm : option ItemId)
    (param : ItemParam) (pl : option nat) : M W unit :=
  init_portal_internal tab BSIM p id hdl cbp itm param rsize ;;
  upd_pint p (set_poller pl) ;;
  initPortal p.

(** [~Portal] runs before [~PortalInternalCpp]. *)
Definition Portal_delete (p : nat) : M W unit :=
  x ← get_pint p;
  match handler x with
  | None => mret tt
  | Some _ => me ← defined (poller x); unregisterInstance me p ;; mret tt
  end ;;
  x ← get_pint p;
  if decide (fpga_fd x > 0) then
    kcall (fun k => (tt, os_close (fpga_fd x) k)) ;; upd_pint p (set_fpga_fd (-1))
  else mret tt.

End Poller.

(** * The arrays as lists *)

Lemma delete_shift {A} (l : list A) (i : nat) v :
  l !! S i = Some v -> delete (S i) (<[i := v]> l) = delete i l.
Proof.
  revert i. induction l as [|a l IH]; intros [|i] H; cbn in *; try done.
  - destruct l; cbn in *; [done|]. by injection H as ->.
  - f_equal. by apply IH.
Qed.

Lemma take_delete_last {A} (l : list A) (n : nat) :
  (n < length l)%nat -> take n l = delete n (take (S n) l).
Proof.
  revert l. induction n as [|n IH]; intros [|a l] H; cbn in *; try lia; [done|].
  f_equal. apply IH. lia.
Qed.

(** [shift_down] deletes entry [i] of the first [n] entries; past the end it
    changes nothing. *)
Lemma shift_down_spec {A} (n : nat) : forall (turns i : nat) (a : list A),
  (n <= length a)%nat -> (n - 1 - i <= turns)%nat ->
  exists a', shift_down turns (Z.of_nat n) a (Z.of_nat i) = Some a' /\ length a' = length a /\
    (((i < n)%nat -> take (n - 1) a' = delete i (take n a)) /\ ((n <= i)%nat -> a' = a)).
Proof.
  induction turns as [|turns IH]; intros i a Ha Ht; cbn.
  - exists a. split_and!; try done. intros Hi. replace i with (n - 1)%nat by lia.
    replace n with (S (n - 1)) at 3 by lia. apply take_delete_last. lia.
  - case_decide as Hi.
    + destruct (lookup_lt_is_Some_2 a (S i)) as [v Hv]; [lia|].
      assert (Hz : znth a (Z.of_nat i + 1) = Some v).
      { unfold znth. rewrite decide_True by lia. rewrite <- Hv. f_equal. lia. }
      rewrite Hz. cbn. rewrite zupd_Some by lia. cbn. rewrite Nat2Z.id.
      destruct (IH (S i) (<[i := v]> a)) as (a' & Hr & Hl & H1 & _).
      { rewrite length_insert. lia. } { lia. }
      exists a'. replace (Z.of_nat i + 1) with (Z.of_nat (S i)) by lia.
      rewrite length_insert in Hl. split_and!; [done|done| |lia].
      intros _. rewrite H1 by lia. rewrite take_insert_lt by lia.
      apply delete_shift. by rewrite lookup_take_lt by lia.
    + exists a. split_and!; try done. intros Hin. replace i with (n - 1)%nat by lia.
      replace n with (S (n - 1)) at 3 by lia. apply take_delete_last. lia.
Qed.

(** The index of the first entry that satisfies [P]: the length when none does. *)
Fixpoint index_of {A} (P : A -> bool) (l : list A) : nat :=
  match l with
  | [] => O
  | x :: l => if P x then O else S (index_of P l)
  end.

Lemma index_of_le {A} (P : A -> bool) l : (index_of P l <= length l)%nat.
Proof. induction l as [|x l IH]; cbn; [lia|]. destruct (P x); lia. Qed.

Lemma index_of_none {A} (P : A -> bool) l : Forall (fun x => P x = false) l -> index_of P l = length l.
Proof. induction 1 as [|x l Hx _ IH]; cbn; [done|]. by rewrite Hx, IH. Qed.

Lemma index_of_snoc {A} (P : A -> bool) l x :
  Forall (fun x => P x = false) l -> P x = true -> index_of P (l ++ [x]) = length l.
Proof. induction 1 as [|y l Hy _ IH]; intros Hx; cbn; [by rewrite Hx|]. by rewrite Hy, IH. Qed.

(** The entries in use. *)
Definition live_wrappers (pp : PortalPoller) : list nat :=
  take (Z.to_nat (numWrappers pp)) (portal_wrappers pp).
Definition live_fds (pp : PortalPoller) : list pollfd :=
  take (Z.to_nat (numFds pp)) (portal_fds pp).

Definition poller_ok (pp : PortalPoller) : Prop :=
  0 <= numWrappers pp <= Z.of_nat (length (portal_wrappers pp)) /\
  0 <= numFds pp <= Z.of_nat (length (portal_fds pp)).

Lemma length_live_wrappers pp : poller_ok pp -> Z.of_nat (length (live_wrappers pp)) = numWrappers pp.
Proof. intros [? _]. unfold live_wrappers. rewrite length_take. lia. Qed.

Lemma length_live_fds pp : poller_ok pp -> Z.of_nat (length (live_fds pp)) = numFds pp.
Proof. intros [_ ?]. unfold live_fds. rewrite length_take. lia. Qed.

(** What [unregisterInstance] does to an array: the entry at the index found
    goes; when none was found, the last one. *)
Definition drop_entry {A} (P : A -> bool) (l : list A) : list A :=
  delete (Nat.min (index_of P l) (length l - 1)) l.

Lemma shift_drop {A} (P : A -> bool) (a : list A) (n : Z) :
  0 < n <= Z.of_nat (length a) ->
  exists a', shift_down (Z.to_nat n) n a (Z.of_nat (index_of P (take (Z.to_nat n) a))) = Some a' /\
    length a' = length a /\ take (Z.to_nat (n - 1)) a' = drop_entry P (take (Z.to_nat n) a).
Proof.
  intros Hn. set (m := Z.to_nat n). set (l := take m a).
  assert (Hlen : length l = m) by (unfold l; rewrite length_take; lia).
  pose proof (index_of_le P l) as Hle.
  destruct (shift_down_spec m m (index_of P l) a) as (a' & Hr & Hl & H1 & H2); [lia|lia|].
  exists a'. unfold m in Hr at 2. rewrite Z2Nat.id in Hr by lia. split_and!; [done|done|].
  replace (Z.to_nat (n - 1)) with (m - 1)%nat by lia. unfold drop_entry. rewrite Hlen.
  destruct (decide (index_of P l < m)%nat).
  - rewrite Nat.min_l by lia. auto.
  - rewrite Nat.min_r, H2 by lia. fold l. unfold l.
    replace m with (S (m - 1)) at 3 by lia. apply take_delete_last. lia.
Qed.

Section PollerFacts.
Context {K : Type} `{!Device K} `{!PortalOs K} `{!PollOs K}.
Local Abbreviation W := (World K).
Implicit Types (w : W).

Definition number_of w (q : nat) : Z :=
  match w_pints w !! q with Some x => fpga_number x | None => 0 end.

Lemma get_poller_ok me pp w : w_pollers w !! me = Some pp -> get_poller me w = Ok pp w.
Proof. intros H. unfold get_poller. by rewrite H. Qed.

Lemma znth_take_drop {A} (l : list A) (n i : nat) x r :
  drop i (take n l) = x :: r -> znth l (Z.of_nat i) = Some x /\ (i < n)%nat /\ drop (S i) (take n l) = r.
Proof.
  intros H. assert (Hi : take n l !! i = Some x).
  { rewrite <- (Nat.add_0_r i), <- lookup_drop, H. done. }
  pose proof (lookup_lt_Some _ _ _ Hi) as Hlt. rewrite length_take in Hlt.
  rewrite lookup_take_lt in Hi by lia. unfold znth. rewrite decide_True, Nat2Z.id by lia.
  split_and!; [done|lia|]. replace (S i) with (i + 1)%nat by lia. rewrite <- drop_drop. by rewrite H.
Qed.

Lemma find_wrapper_ok pp number w : poller_ok pp ->
  Forall (fun q => is_Some (w_pints w !! q)) (live_wrappers pp) ->
  forall n i, (length (live_wrappers pp) - i <= n)%nat -> (i <= length (live_wrappers pp))%nat ->
  find_wrapper n pp number (Z.of_nat i) w =
    Ok (Z.of_nat (i + index_of (fun q => bool_decide (number_of w q = number))
                         (drop i (live_wrappers pp)))) w.
Proof.
  intros Hok Hf. pose proof (length_live_wrappers _ Hok) as Hlen.
  induction n as [|n IH]; intros i Hn Hi.
  - rewrite drop_ge by lia. cbn. unfold mret, M_ret. do 2 f_equal. lia.
  - cbn [find_wrapper]. destruct (drop i (live_wrappers pp)) as [|q r] eqn:Hd.
    + assert (length (live_wrappers pp) - i = 0)%nat by (rewrite <- length_drop, Hd; done).
      rewrite decide_False by lia. cbn. unfold mret, M_ret. do 2 f_equal. lia.
    + pose proof (f_equal length Hd) as Hl. rewrite length_drop in Hl. cbn in Hl.
      rewrite decide_True by lia. unfold live_wrappers in Hd.
      destruct (znth_take_drop _ _ _ _ _ Hd) as (Hz & _ & Hd'). fold (live_wrappers pp) in *.
      rewrite Hz, bind_defined.
      assert (Hq : is_Some (w_pints w !! q)).
      { rewrite Forall_lookup in Hf. apply (Hf i). rewrite <- (Nat.add_0_r i), <- lookup_drop, Hd. done. }
      destruct Hq as [x Hx]. rewrite (bind_ok _ _ _ _ _ (get_pint_ok _ _ _ Hx)).
      cbn [index_of]. assert (Hnum : number_of w q = fpga_number x) by (unfold number_of; by rewrite Hx).
      rewrite <- Hnum. case_decide as Hc; [rewrite bool_decide_true by done|rewrite bool_decide_false by done].
      * unfold mret, M_ret. do 2 f_equal. lia.
      * replace (Z.of_nat i + 1) with (Z.of_nat (S i)) by lia.
        rewrite IH by lia. rewrite Hd'. do 2 f_equal. lia.
Qed.

Lemma find_fd_ok pp f w : poller_ok pp ->
  forall n i, (length (live_fds pp) - i <= n)%nat -> (i <= length (live_fds pp))%nat ->
  find_fd n pp f (Z.of_nat i) w =
    Ok (Z.of_nat (i + index_of (fun e => bool_decide (fd e = f)) (drop i (live_fds pp)))) w.
Proof.
  intros Hok. pose proof (length_live_fds _ Hok) as Hlen.
  induction n as [|n IH]; intros i Hn Hi.
  - rewrite drop_ge by lia. cbn. unfold mret, M_ret. do 2 f_equal. lia.
  - cbn [find_fd]. destruct (drop i (live_fds pp)) as [|e r] eqn:Hd.
    + assert (length (live_fds pp) - i = 0)%nat by (rewrite <- length_drop, Hd; done).
      rewrite decide_False by lia. cbn. unfold mret, M_ret. do 2 f_equal. lia.
    + pose proof (f_equal length Hd) as Hl. rewrite length_drop in Hl. cbn in Hl.
      rewrite decide_True by lia. unfold live_fds in Hd.
      destruct (znth_take_drop _ _ _ _ _ Hd) as (Hz & _ & Hd'). fold (live_fds pp) in *.
      rewrite Hz, bind_defined. cbn [index_of].
      case_decide as Hc; [rewrite bool_decide_true by done|rewrite bool_decide_false by done].
      * unfold mret, M_ret. do 2 f_equal. lia.
      * replace (Z.of_nat i + 1) with (Z.of_nat (S i)) by lia.
        rewrite IH by lia. rewrite Hd'. do 2 f_equal. lia.
Qed.

Lemma unregister_ok me pp p x w :
  w_pollers w !! me = Some pp -> w_pints w !! p = Some x -> poller_ok pp ->
  0 < numWrappers pp -> 0 < numFds pp ->
  Forall (fun q => is_Some (w_pints w !! q)) (live_wrappers pp) ->
  exists pp', unregisterInstance me p w = Ok 0 (set_w_pollers (<[me := pp']> (w_pollers w)) w) /\
    poller_ok pp' /\
    live_wrappers pp' =
      drop_entry (fun q => bool_decide (number_of w q = fpga_number x)) (live_wrappers pp) /\
    live_fds pp' = drop_entry (fun e => bool_decide (fd e = fpga_fd x)) (live_fds pp).
Proof.
  intros Hme Hp Hok Hnw Hnf Hf. pose proof Hok as [Hw1 Hw2].
  destruct (shift_drop (fun q => bool_decide (number_of w q = fpga_number x))
              (portal_wrappers pp) (numWrappers pp)) as (ws & Hs1 & Hl1 & Ht1); [lia|].
  destruct (shift_drop (fun e => bool_decide (fd e = fpga_fd x))
              (portal_fds pp) (numFds pp)) as (fds & Hs2 & Hl2 & Ht2); [lia|].
  set (pp1 := set_numWrappers (numWrappers pp - 1) (set_portal_wrappers ws pp)).
  exists (set_numFds (numFds pp - 1) (set_portal_fds fds pp1)).
  assert (Hok1 : poller_ok pp1) by (unfold poller_ok; cbn; lia).
  split_and!; [|unfold poller_ok; cbn; lia|exact Ht1|exact Ht2].
  unfold unregisterInstance. rewrite (bind_ok _ _ _ _ _ (get_poller_ok _ _ _ Hme)).
  rewrite (bind_ok _ _ _ _ _ (get_pint_ok _ _ _ Hp)).
  pose proof (length_live_wrappers _ Hok). pose proof (length_live_fds _ Hok1).
  rewrite (bind_ok _ _ _ _ _ (find_wrapper_ok pp (fpga_number x) w Hok Hf
             (Z.to_nat (numWrappers pp)) 0 ltac:(lia) ltac:(lia))).
  rewrite drop_0, Nat.add_0_l. fold (live_wrappers pp) in Hs1. rewrite Hs1, bind_defined. fold pp1.
  rewrite (bind_ok _ _ _ _ _ (find_fd_ok pp1 (fpga_fd x) w Hok1
             (Z.to_nat (numFds pp1)) 0 ltac:(lia) ltac:(lia))).
  rewrite drop_0, Nat.add_0_l. change (live_fds pp1) with (live_fds pp).
  change (numFds pp1) with (numFds pp). change (portal_fds pp1) with (portal_fds pp).
  fold (live_fds pp) in Hs2. rewrite Hs2, bind_defined. done.
Qed.

(** ** Registration appends *)

Lemma take_snoc {A} (l : list A) (n : nat) d x :
  (n <= length l)%nat ->
  zupd (resize (S n) d l) (Z.of_nat n) x = Some (take n l ++ [x]).
Proof.
  intros Hn. rewrite zupd_Some by (rewrite length_resize; lia). f_equal. rewrite Nat2Z.id.
  destruct (decide (n = length l)) as [->|].
  - rewrite resize_ge by lia. rewrite firstn_all.
    replace (S (length l) - length l)%nat with 1%nat by lia. cbn.
    rewrite insert_app_r_alt by lia. rewrite Nat.sub_diag. done.
  - rewrite resize_le by lia.
    destruct (lookup_lt_is_Some_2 l n) as [y Hy]; [lia|].
    rewrite (take_S_r _ _ _ Hy), insert_app_r_alt by (rewrite length_take; lia).
    rewrite length_take, Nat.min_l, Nat.sub_diag by lia. done.
Qed.

Lemma addFd_ok me pp f w :
  w_pollers w !! me = Some pp -> poller_ok pp ->
  exists pp', addFd me f w = Ok tt (set_w_pollers (<[me := pp']> (w_pollers w)) w) /\
    poller_ok pp' /\ live_wrappers pp' = live_wrappers pp /\
    live_fds pp' = live_fds pp ++ [{| fd := f; events := POLLIN |}] /\
    stopping pp' = stopping pp /\ portalExec_timeout pp' = portalExec_timeout pp.
Proof.
  intros Hme Hok. pose proof Hok as [? ?]. unfold addFd.
  rewrite (bind_ok _ _ _ _ _ (get_poller_ok _ _ _ Hme)).
  replace (Z.to_nat (numFds pp + 1)) with (S (Z.to_nat (numFds pp))) by lia.
  replace (numFds pp + 1 - 1) with (Z.of_nat (Z.to_nat (numFds pp))) by lia.
  rewrite take_snoc, bind_defined by lia. eexists. split; [done|].
  assert (length (live_fds pp) = Z.to_nat (numFds pp)) by (unfold live_fds; rewrite length_take; lia).
  split; [unfold poller_ok; cbn; rewrite length_app, length_take; cbn; lia|].
  split; [done|]. split; [|done]. unfold live_fds at 1. cbn.
  rewrite take_ge; [done|]. fold (live_fds pp). rewrite length_app. cbn. lia.
Qed.

Definition pollin (f : Z) : pollfd := {| fd := f; events := POLLIN |}.

Lemma set_pollers_twice me a b w :
  set_w_pollers (<[me := a]> (w_pollers (set_w_pollers (<[me := b]> (w_pollers w)) w)))
    (set_w_pollers (<[me := b]> (w_pollers w)) w) = set_w_pollers (<[me := a]> (w_pollers w)) w.
Proof. destruct w. cbn. by rewrite insert_insert_eq. Qed.

Lemma set_pollers_same me a w : w_pollers w !! me = Some a ->
  set_w_pollers (<[me := a]> (w_pollers w)) w = w.
Proof. intros H. rewrite insert_id by done. by destruct w. Qed.

(** The descriptors a portal brings: its own, when open, and its clients'. *)
Definition portal_fd_list (x : PortalInternal) : list Z :=
  (if decide (fpga_fd x <> -1) then [fpga_fd x] else []) ++
  take (Z.to_nat (client_fd_number x)) (client_fd x).

Lemma add_clients_ok me x : 0 <= client_fd_number x <= Z.of_nat (length (client_fd x)) ->
  forall n i pp w,
  (n = Z.to_nat (client_fd_number x) - i)%nat -> (i <= Z.to_nat (client_fd_number x))%nat ->
  w_pollers w !! me = Some pp -> poller_ok pp ->
  exists pp', add_clients n me x (Z.of_nat i) w =
      Ok tt (set_w_pollers (<[me := pp']> (w_pollers w)) w) /\
    poller_ok pp' /\ live_wrappers pp' = live_wrappers pp /\
    live_fds pp' = live_fds pp ++
      map pollin (drop i (take (Z.to_nat (client_fd_number x)) (client_fd x))).
Proof.
  intros Hx. induction n as [|n IH]; intros i pp w Hn Hi Hme Hok.
  - exists pp. cbn. rewrite (set_pollers_same _ _ _ Hme).
    rewrite drop_ge by (rewrite length_take; lia). cbn. by rewrite app_nil_r.
  - cbn [add_clients]. rewrite decide_True by lia.
    destruct (drop i (take (Z.to_nat (client_fd_number x)) (client_fd x))) as [|f r] eqn:Hd.
    { apply (f_equal length) in Hd. rewrite length_drop, length_take in Hd. cbn in Hd. lia. }
    destruct (znth_take_drop _ _ _ _ _ Hd) as (Hz & _ & Hd'). rewrite Hz, bind_defined.
    destruct (addFd_ok me pp f w Hme Hok) as (pp1 & Hr1 & Hok1 & Hw1 & Hf1 & _).
    rewrite (bind_ok _ _ _ _ _ Hr1).
    destruct (IH (S i) pp1 (set_w_pollers (<[me := pp1]> (w_pollers w)) w)) as (pp2 & Hr2 & Hok2 & Hw2 & Hf2);
      [lia|lia|apply lookup_insert_eq|done|].
    replace (Z.of_nat i + 1) with (Z.of_nat (S i)) by lia.
    exists pp2. rewrite Hr2, set_pollers_twice. split_and!; [done|done|by rewrite Hw2|].
    rewrite Hf2, Hf1, Hd'. cbn. by rewrite <- app_assoc.
Qed.

Lemma register_ok me pp p x w :
  w_pollers w !! me = Some pp -> w_pints w !! p = Some x -> poller_ok pp ->
  0 <= client_fd_number x <= Z.of_nat (length (client_fd x)) ->
  exists pp', registerInstance me p w = Ok 0 (set_w_pollers (<[me := pp']> (w_pollers w)) w) /\
    poller_ok pp' /\ live_wrappers pp' = live_wrappers pp ++ [p] /\
    live_fds pp' = live_fds pp ++ map pollin (portal_fd_list x).
Proof.
  intros Hme Hp Hok Hx. pose proof Hok as [? ?]. unfold registerInstance.
  rewrite (bind_ok _ _ _ _ _ (get_poller_ok _ _ _ Hme)).
  replace (Z.to_nat (numWrappers pp + 1)) with (S (Z.to_nat (numWrappers pp))) by lia.
  replace (numWrappers pp + 1 - 1) with (Z.of_nat (Z.to_nat (numWrappers pp))) by lia.
  rewrite take_snoc, bind_defined by lia.
  set (pp1 := set_numWrappers _ _).
  rewrite (bind_ok _ _ _ tt (set_w_pollers (<[me := pp1]> (w_pollers w)) w)) by done.
  assert (length (live_wrappers pp) = Z.to_nat (numWrappers pp))
    by (unfold live_wrappers; rewrite length_take; lia).
  assert (Hok1 : poller_ok pp1).
  { unfold poller_ok, pp1; cbn; rewrite length_app, length_take; cbn; lia. }
  assert (Hw1 : live_wrappers pp1 = live_wrappers pp ++ [p]).
  { unfold live_wrappers at 1, pp1. cbn. rewrite take_ge; [done|].
    fold (live_wrappers pp). rewrite length_app. cbn. lia. }
  rewrite (bind_ok _ _ _ _ _ (get_pint_ok p x (set_w_pollers (<[me := pp1]> (w_pollers w)) w) Hp)).
  assert (exists pp2, (if decide (fpga_fd x <> -1) then addFd me (fpga_fd x) else mret tt)
      (set_w_pollers (<[me := pp1]> (w_pollers w)) w) =
      Ok tt (set_w_pollers (<[me := pp2]> (w_pollers w)) w) /\
      poller_ok pp2 /\ live_wrappers pp2 = live_wrappers pp1 /\
      live_fds pp2 = live_fds pp ++ map pollin (if decide (fpga_fd x <> -1) then [fpga_fd x] else []))
    as (pp2 & Hr2 & Hok2 & Hw2 & Hf2).
  { case_decide.
    - destruct (addFd_ok me pp1 (fpga_fd x) (set_w_pollers (<[me := pp1]> (w_pollers w)) w))
        as (pp2 & Hr & Hok2 & Hw2 & Hf2 & _); [apply lookup_insert_eq|done|].
      exists pp2. rewrite Hr, set_pollers_twice. done.
    - exists pp1. cbn. by rewrite app_nil_r. }
  rewrite (bind_ok _ _ _ _ _ Hr2).
  destruct (add_clients_ok me x Hx (Z.to_nat (client_fd_number x)) 0 pp2
              (set_w_pollers (<[me := pp2]> (w_pollers w)) w)) as (pp3 & Hr3 & Hok3 & Hw3 & Hf3);
    [lia|lia|apply lookup_insert_eq|done|].
  rewrite (bind_ok _ _ _ _ _ Hr3), set_pollers_twice. exists pp3.
  split_and!; [done|done|by rewrite Hw3, Hw2|].
  rewrite Hf3, Hf2, drop_0. unfold portal_fd_list. by rewrite map_app, <- app_assoc.
Qed.

Lemma drop_entry_snoc {A} (P : A -> bool) l x :
  Forall (fun y => P y = false) l -> P x = true -> drop_entry P (l ++ [x]) = l.
Proof.
  intros Hl Hx. unfold drop_entry. rewrite index_of_snoc by done. rewrite length_app. cbn.
  rewrite Nat.min_l by lia. rewrite delete_take_drop, take_app_length, drop_ge.
  - apply app_nil_r.
  - rewrite length_app. cbn. lia.
Qed.

Lemma drop_entry_none {A} (P : A -> bool) l :
  Forall (fun y => P y = false) l -> drop_entry P l = take (length l - 1) l.
Proof.
  intros Hl. unfold drop_entry. rewrite index_of_none, Nat.min_r by (done || lia).
  destruct l as [|a l] using rev_ind; [done|]. rewrite length_app. cbn.
  replace (length l + 1 - 1)%nat with (length l) by lia.
  rewrite delete_take_drop, take_app_length, drop_ge; [apply app_nil_r|rewrite length_app; cbn; lia].
Qed.

(** * Properties *)

(** Registering a portal appends it to the poller's portals and its
    descriptors (its own when open, then its clients') to the polled ones. *)
Theorem registerInstance_appends me pp p x w :
  w_pollers w !! me = Some pp -> w_pints w !! p = Some x -> poller_ok pp ->
  0 <= client_fd_number x <= Z.of_nat (length (client_fd x)) ->
  exists pp', registerInstance me p w = Ok 0 (set_w_pollers (<[me := pp']> (w_pollers w)) w) /\
    poller_ok pp' /\ live_wrappers pp' = live_wrappers pp ++ [p] /\
    live_fds pp' = live_fds pp ++ map pollin (portal_fd_list x).
Proof. apply register_ok. Qed.

(** C37: A portal with one descriptor, whose number and descriptor no registered
    portal has, is registered and unregistered without a trace: the poller has
    the portals and descriptors it had before. *)
Theorem register_unregister me pp p x w :
  w_pollers w !! me = Some pp -> w_pints w !! p = Some x -> poller_ok pp ->
  fpga_fd x <> -1 -> client_fd_number x = 0 ->
  Forall (fun q => is_Some (w_pints w !! q) /\ number_of w q <> fpga_number x) (live_wrappers pp) ->
  Forall (fun e => fd e <> fpga_fd x) (live_fds pp) ->
  exists pp', (registerInstance me p ;; unregisterInstance me p) w =
      Ok 0 (set_w_pollers (<[me := pp']> (w_pollers w)) w) /\
    poller_ok pp' /\ live_wrappers pp' = live_wrappers pp /\ live_fds pp' = live_fds pp.
Proof.
  intros Hme Hp Hok Hfd Hcl Hws Hfds.
  destruct (register_ok me pp p x w Hme Hp Hok) as (pp1 & Hr1 & Hok1 & Hw1 & Hf1); [lia|].
  rewrite (bind_ok _ _ _ _ _ Hr1).
  assert (portal_fd_list x = [fpga_fd x]) as Hl.
  { unfold portal_fd_list. rewrite Hcl, decide_True by done. done. }
  rewrite Hl in Hf1. cbn in Hf1.
  pose proof (length_live_wrappers _ Hok1) as L1. pose proof (length_live_fds _ Hok1) as L2.
  rewrite Hw1, length_app in L1. rewrite Hf1, length_app in L2. cbn in L1, L2.
  set (w1 := set_w_pollers (<[me := pp1]> (w_pollers w)) w).
  destruct (unregister_ok me pp1 p x w1) as (pp2 & Hr2 & Hok2 & Hw2 & Hf2);
    [apply lookup_insert_eq|exact Hp|done|lia|lia| |].
  { rewrite Hw1. apply Forall_app. split; [|repeat constructor; cbn; rewrite Hp; eauto].
    eapply Forall_impl; [exact Hws|]. intros q [Hq _]. exact Hq. }
  exists pp2. rewrite Hr2. unfold w1. rewrite set_pollers_twice. split_and!; [done|done| |].
  - rewrite Hw2, Hw1. apply drop_entry_snoc.
    + eapply Forall_impl; [exact Hws|]. intros q [_ Hq]. by apply bool_decide_false.
    + apply bool_decide_true. unfold number_of. cbn. by rewrite Hp.
  - rewrite Hf2, Hf1. apply drop_entry_snoc; [|by apply bool_decide_true].
    eapply Forall_impl; [exact Hfds|]. intros e He. by apply bool_decide_false.
Qed.

(** [unregisterInstance] removes the first portal with the same number; but
    when no polled descriptor is the portal's [fpga_fd] (a socket portal that
    connected has [fpga_fd = -1] and is polled by its client descriptors), it
    drops the last polled descriptor, whichever portal that one belongs to. *)
Theorem unregister_drops_last_fd me pp p x w :
  w_pollers w !! me = Some pp -> w_pints w !! p = Some x -> poller_ok pp ->
  0 < numWrappers pp -> 0 < numFds pp ->
  Forall (fun q => is_Some (w_pints w !! q)) (live_wrappers pp) ->
  Forall (fun e => fd e <> fpga_fd x) (live_fds pp) ->
  exists pp', unregisterInstance me p w = Ok 0 (set_w_pollers (<[me := pp']> (w_pollers w)) w) /\
    live_wrappers pp' =
      drop_entry (fun q => bool_decide (number_of w q = fpga_number x)) (live_wrappers pp) /\
    live_fds pp' = take (length (live_fds pp) - 1) (live_fds pp).
Proof.
  intros Hme Hp Hok Hnw Hnf Hws Hfds.
  destruct (unregister_ok me pp p x w) as (pp' & Hr & _ & Hw & Hf); try done.
  exists pp'. split_and!; [done|done|]. rewrite Hf. apply drop_entry_none.
  eapply Forall_impl; [exact Hfds|]. intros e He. by apply bool_decide_false.
Qed.

Variable tab : ItemId -> PortalItemFunctions K.

(** The loop of [portalExec] ends: when [poll] fails it ends with the result of
    [poll], without an event pass; and when an event pass leaves [stopping]
    set, no further [poll] is made. *)
Theorem portalExec_loop_ends me fuel efuel w pp rc k w1 pp1 :
  w_pollers w !! me = Some pp -> stopping pp = 0 -> portalExec_timeout pp <> 0 ->
  os_poll (take (Z.to_nat (numFds pp)) (portal_fds pp)) (portalExec_timeout pp) (w_kern w) = (rc, k) ->
  (0 <= rc -> portalExec_event tab efuel me (set_w_kern k w) = Ok 0 w1 /\
              w_pollers w1 !! me = Some pp1 /\ stopping pp1 <> 0) ->
  portalExec_loop tab (S fuel) efuel me 0 w =
    if decide (0 <= rc) then Ok 0 w1 else Ok rc (set_w_kern k w).
Proof.
  intros Hme Hst Ht Hp Hev. cbn [portalExec_loop].
  rewrite (bind_ok _ _ _ _ _ (get_poller_ok _ _ _ Hme)), decide_True by done.
  rewrite (bind_ok _ _ _ rc (set_w_kern k w)).
  2:{ unfold portalExec_poll. rewrite decide_True by done.
      rewrite (bind_ok _ _ _ _ _ (get_poller_ok _ _ _ Hme)). unfold kcall. by rewrite Hp. }
  case_decide as Hrc.
  - destruct (Hev Hrc) as (He & Hme1 & Hs1). rewrite (bind_ok _ _ _ _ _ He).
    destruct fuel; cbn [portalExec_loop];
      rewrite (bind_ok _ _ _ _ _ (get_poller_ok _ _ _ Hme1)), decide_False by tauto; done.
  - rewrite bind_ret.
    assert (Hme' : get_poller me (set_w_kern k w) = Ok pp (set_w_kern k w)) by (by apply get_poller_ok).
    destruct fuel; cbn [portalExec_loop]; rewrite (bind_ok _ _ _ _ _ Hme'), decide_False by lia; done.
Qed.

End PollerFacts.

(** * A concrete poller *)
Module PollerDemo.
#[local] Instance dev : Device nat :=
  {| mmio_read := fun _ k => (0, k); mmio_write := fun _ _ k => k; dev_tick := fun k => k |}.
#[local] Instance os : PortalOs nat :=
  {| os_open_portal := fun _ k => (3, k); os_open_portalmem := fun k => (4, k);
     os_pa_malloc := fun _ _ k => (5, k); os_mmap := fun _ _ k => (NULL, k);
     os_errno := fun _ => 0 |}.
#[local] Instance polls : PollOs nat :=
  {| os_poll := fun l _ k => (Z.of_nat (length l), k); os_close := fun _ k => k |}.

(** Portal 1 has descriptor 7; portal 2 is connected, with client descriptor 8. *)
Definition p1 : PortalInternal :=
  set_handler (Some 0%nat) (set_item (Some hardwarefunc)
    (set_fpga_fd 7 (set_fpga_number 1 PortalInternal_zero))).
Definition p2 : PortalInternal :=
  set_client_fd (8 :: replicate 9 0) (set_client_fd_number 1
    (set_fpga_fd (-1) (set_fpga_number 2 PortalInternal_zero))).
Definition pp0 : PortalPoller := PortalPoller_new.
Definition world (pp : PortalPoller) : World nat :=
  set_w_pollers (<[0%nat := pp]> ∅)
    (set_w_pints (<[1%nat := p1]> (<[2%nat := p2]> ∅)) (start_world 0%nat)).

(** The events of the demonstration count the visits. *)
Definition it : PortalItemFunctions nat :=
  {| it_init := fun _ _ => mret 0; it_read := fun _ a => mret (0, a);
     it_write := fun _ a _ => mret a; it_writefd := fun _ a _ => mret a;
     it_mapchannelInd := fun _ _ => mret NULL; it_mapchannelReq := fun _ _ => mret NULL;
     it_send := fun _ _ _ _ => mret tt; it_recv := fun _ _ _ => mret (0, None);
     it_busywait := fun _ _ => mret 0; it_enableint := fun _ _ => mret tt;
     it_event := fun p => modifyW (fun w => set_w_kern (w_kern w + p)%nat w) ;; mret (-1) |}.
Definition tab (_ : ItemId) : PortalItemFunctions nat := it.

Lemma pp0_ok : poller_ok pp0.
Proof. split; cbn; lia. Qed.

Lemma registerInstance_appends_witness :
  exists pp', registerInstance 0 2 (world pp0) =
      Ok 0 (set_w_pollers (<[0%nat := pp']> (w_pollers (world pp0))) (world pp0)) /\
    poller_ok pp' /\ live_wrappers pp' = [2%nat] /\ live_fds pp' = [pollin 8].
Proof.
  apply (registerInstance_appends 0 pp0 2 p2 (world pp0)).
  - reflexivity.
  - reflexivity.
  - apply pp0_ok.
  - cbn. lia.
Defined.

(** Portal 2 is registered while portal 1 comes and goes. *)
Definition pp2 : PortalPoller :=
  {| portal_wrappers := [2]%nat; portal_fds := [pollin 8]; numWrappers := 1;
     numFds := 1; portalExec_timeout := -1; stopping := 0; sem_startup := 0 |}.

Lemma register_unregister_witness :
  exists pp', (registerInstance 0 1 ;; unregisterInstance 0 1) (world pp2) =
      Ok 0 (set_w_pollers (<[0%nat := pp']> (w_pollers (world pp2))) (world pp2)) /\
    poller_ok pp' /\ live_wrappers pp' = [2]%nat /\ live_fds pp' = [pollin 8].
Proof.
  apply (register_unregister 0 pp2 1 p1 (world pp2)).
  - reflexivity.
  - reflexivity.
  - split; cbn; lia.
  - cbn. lia.
  - reflexivity.
  - repeat constructor; [by eexists|]. by vm_compute.
  - repeat constructor. by vm_compute.
Defined.

(** Portal 2, then portal 1 registered: unregistering 2 drops the descriptor of 1. *)
Definition pp21 : PortalPoller :=
  {| portal_wrappers := [2; 1]%nat; portal_fds := [pollin 8; pollin 7]; numWrappers := 2;
     numFds := 2; portalExec_timeout := -1; stopping := 0; sem_startup := 0 |}.

Lemma unregister_drops_last_fd_witness :
  exists pp', unregisterInstance 0 2 (world pp21) =
      Ok 0 (set_w_pollers (<[0%nat := pp']> (w_pollers (world pp21))) (world pp21)) /\
    live_wrappers pp' = [1%nat] /\ live_fds pp' = [pollin 8].
Proof.
  apply (unregister_drops_last_fd 0 pp21 2 p2 (world pp21)).
  - reflexivity.
  - reflexivity.
  - split; cbn; lia.
  - cbn. lia.
  - cbn. lia.
  - repeat constructor; eexists; reflexivity.
  - repeat constructor; cbn; lia.
Defined.

(** A poll that fails. *)
Module Failing.
#[local] Instance polls : PollOs nat := {| os_poll := fun _ _ k => (-1, k); os_close := fun _ k => k |}.
Lemma portalExec_loop_ends_witness :
  portalExec_loop tab 1 3 0 0 (world pp21) = Ok (-1) (world pp21).
Proof.
  apply (portalExec_loop_ends tab 0 0 3 (world pp21) pp21 (-1) 0%nat (world pp21) pp21).
  - reflexivity.
  - reflexivity.
  - discriminate.
  - reflexivity.
  - intros H. exfalso. apply H. reflexivity.
Defined.
End Failing.
End PollerDemo.
