(* ===== verification/PortalSocket.v ===== *)
(** Sockets: the helpers of [cpp/sock_utils.c] (connected byte streams that can
    carry a descriptor), the socket transports [socketfuncInit] and
    [socketfuncResp] and the multiplexer [muxfunc] of [cpp/portalSocket.c].

    The kernel moves bytes: a buffer of 32-bit words is read and written byte by
    byte, little-endian, so that short reads behave as they do in the code. *)

From stdpp Require Import base gmap list fin_maps.
From Stdlib Require Import ZArith Lia.
From S2P Require Import Prelude PortalTypes PortalCore Poller.

(** * Bytes of words *)

Definition le_bytes (v : Z) : list Z :=
  [v mod 256; (v / 256) mod 256; (v / 65536) mod 256; (v / 16777216) mod 256].

Definition of_bytes (l : list Z) : Z :=
  match l with
  | [a; b; c; d] => a + 256 * b + 65536 * c + 16777216 * d
  | _ => 0
  end.

Definition set_byte (v : Z) (i : nat) (b : Z) : Z := of_bytes (<[i := b]> (le_bytes v)).

Definition words_bytes (ws : list Z) : list Z := mjoin (map le_bytes ws).

Definition is_byte (b : Z) : Prop := 0 <= b < 256.

Lemma of_le_bytes v : in_u32 v -> of_bytes (le_bytes v) = v.
Proof. unfold in_u32, of_bytes, le_bytes. intros. zlia. Qed.

Lemma le_of_bytes a b c d : is_byte a -> is_byte b -> is_byte c -> is_byte d ->
  le_bytes (of_bytes [a; b; c; d]) = [a; b; c; d].
Proof. unfold is_byte, of_bytes, le_bytes. intros. repeat f_equal; zlia. Qed.

Lemma le_bytes_byte v : Forall is_byte (le_bytes v).
Proof. unfold le_bytes, is_byte. repeat constructor; apply Z.mod_pos_bound; lia. Qed.

(** * What the code asks of the kernel's sockets *)

Inductive sname : Type := SWSOCK (n : Z) | SOCKET_NAME.
Inductive sockaddr : Type := UnixPath (n : sname) | TcpAddr (a : nat).

(** The control message of a received message. *)
Inductive cmsg : Type := ScmRights (fd : Z) | OtherCmsg.

(** [recvmsg] with [MSG_DONTWAIT]: end of file, an error, or at least one byte. *)
Inductive recv_result : Type :=
| REof
| RErr
| RData (l : list Z) (c : option cmsg).

Class SockOs (K : Type) : Type := {
  sk_socket : K -> Z * K;
  sk_connect : Z -> sockaddr -> K -> Z * K;
  sk_unlink : sname -> K -> K;
  sk_bind : Z -> sockaddr -> K -> Z * K;
  sk_listen : Z -> Z -> K -> Z * K;
  sk_accept : Z -> K -> Z * K;
  sk_nonblock : Z -> K -> K;            (* ioctl(fd, FIONBIO, &on) *)
  sk_sleep : Z -> K -> K;
  sk_sendmsg : Z -> list Z -> option Z -> K -> Z * K;
  sk_recvmsg : Z -> Z -> K -> recv_result * K;
  sk_errno : K -> Z
}.

Definition EAGAIN : Z := 11.

Section Socket.
Context {K : Type} `{!Device K} `{!PortalOs K} `{!PollOs K} `{!SockOs K}.
Local Abbreviation W := (World K).

Variable tab : ItemId -> PortalItemFunctions K.
Variable hcall : nat -> nat -> Z -> Z -> M W Z.

Definition kupd (f : K -> K) : M W unit := modifyW (fun w => set_w_kern (f (w_kern w)) w).
Definition errno : M W Z := fun w => Ok (sk_errno (w_kern w)) w.

(** ** Buffers *)

(** Bytes [l] stored from byte [i] of the buffer at [p]. *)
Fixpoint store_bytes (p : ptr) (i : nat) (l : list Z) : M W unit :=
  match l with
  | [] => mret tt
  | b :: l =>
      let q := ptr_add p (Z.of_nat (i / 4)) in
      v ← load q;
      store q (set_byte v (i mod 4) b) ;;
      store_bytes p (S i) l
  end.

Fixpoint load_words (p : ptr) (n : nat) : M W (list Z) :=
  match n with
  | O => mret []
  | S n => v ← load p; l ← load_words (ptr_add p 1) n; mret (v :: l)
  end.

(** The [nbytes] bytes of the buffer at [p]; [nbytes] is a multiple of 4. *)
Definition load_bytes (p : ptr) (nbytes : Z) : M W (list Z) :=
  ws ← load_words p (Z.to_nat (nbytes / 4)); mret (words_bytes ws).

(** ** [sock_utils.c] *)

Definition addr_of (name : sname) (param : ItemParam) : sockaddr :=
  match param with
  | SocketParam (Some a) => TcpAddr a
  | _ => UnixPath name
  end.

Definition init_listening (name : sname) (param : ItemParam) : M W Z :=
  (match param with
   | SocketParam (Some _) => mret tt
   | _ => kupd (sk_unlink name)
   end) ;;
  listening_socket ← kcall sk_socket;
  rc ← (if decide (listening_socket = -1) then mret (-1)
        else kcall (sk_bind listening_socket (addr_of name param)));
  if decide (rc = -1) then exit 1
  else
    rc ← kcall (sk_listen listening_socket 5);
    if decide (rc = -1) then exit 1 else mret listening_socket.

Definition accept_socket (arg_listening : Z) : M W Z :=
  sockfd ← kcall (sk_accept arg_listening);
  if decide (sockfd = -1) then
    e ← errno;
    if decide (e = EAGAIN) then mret (-1) else exit 1
  else mret sockfd.

(** The control message is attached when [sendfd >= 0]. *)
Definition sock_fd_write (sockfd : Z) (p : ptr) (nbytes sendfd : Z) : M W Z :=
  l ← load_bytes p nbytes;
  rc ← kcall (sk_sendmsg sockfd l (if decide (sendfd >= 0) then Some sendfd else None));
  if decide (rc <> nbytes) then exit 1 else mret rc.

(** The result and [*recvfd]. *)
Definition sock_fd_read (sockfd : Z) (p : ptr) (nbytes : Z) : M W (Z * Z) :=
  r ← kcall (sk_recvmsg sockfd nbytes);
  match r with
  | REof => mret (0, -1)
  | RErr => mret (-1, -1)
  | RData l c =>
      store_bytes p 0 l ;;
      match c with
      | None => mret (Z.of_nat (length l), -1)
      | Some (ScmRights f) => mret (Z.of_nat (length l), f)
      | Some OtherCmsg => exit 1
      end
  end.

Definition portalSendFd (fd : Z) (p : ptr) (len sendFd : Z) : M W unit :=
  rc ← sock_fd_write fd p len sendFd;
  if decide (rc <> len) then exit 1 else mret tt.

Definition portalRecvFd (fd : Z) (p : ptr) (len : Z) : M W (Z * Z) := sock_fd_read fd p len.

(** ** Connecting *)

(** [while (connect(...) == -1) { if (connect_attempts++ > 16) exit(1); sleep(1); }]:
    [n] is the number of failures that are still tolerated. *)
Fixpoint connect_loop (n : nat) (sockfd : Z) (a : sockaddr) : M W unit :=
  rc ← kcall (sk_connect sockfd a);
  if decide (rc = -1) then
    match n with
    | O => exit 1
    | S n => kupd (sk_sleep 1) ;; connect_loop n sockfd a
    end
  else mret tt.

Definition init_connecting (name : sname) (param : ItemParam) : M W Z :=
  sockfd ← kcall sk_socket;
  if decide (sockfd = -1) then exit 1
  else connect_loop 17 sockfd (addr_of name param) ;; mret sockfd.

(** ** The socket transports *)

Definition init_socketResp (p : nat) (aparam : ItemParam) : M W Z :=
  x ← get_pint p;
  f ← init_listening (SWSOCK (fpga_number x)) aparam;
  upd_pint p (set_fpga_fd f) ;;
  kupd (sk_nonblock f) ;;
  x ← get_pint p;
  b ← malloc (reqsize x);
  upd_pint p (set_map_base b) ;;
  mret 0.

(** [pint->client_fd[pint->client_fd_number++] = f] *)
Definition push_client (p : nat) (f : Z) : M W unit :=
  x ← get_pint p;
  l ← defined (zupd (client_fd x) (client_fd_number x) f);
  put_pint p (set_client_fd_number (client_fd_number x + 1) (set_client_fd l x)).

Definition init_socketInit (p : nat) (aparam : ItemParam) : M W Z :=
  x ← get_pint p;
  f ← init_connecting (SWSOCK (fpga_number x)) aparam;
  push_client p f ;;
  upd_pint p (set_accept_finished 1) ;;
  x ← get_pint p;
  b ← malloc (reqsize x);
  upd_pint p (set_map_base b) ;;
  mret 0.

Definition mapchannel_socket (p : nat) (v : Z) : M W ptr :=
  x ← get_pint p; mret (ptr_add (map_base x) 1).

Definition recv_socket (p : nat) (buffer : ptr) (len : Z) : M W (Z * option Z) :=
  x ← get_pint p;
  f ← defined (znth (client_fd x) (indication_index x));
  '(rc, recvfd) ← portalRecvFd f buffer (len * 4);
  mret (rc, Some recvfd).

(** [for (j = i; j < client_fd_number; j++) client_fd[j] = client_fd[j+1];] *)
Fixpoint close_gap (turns : nat) (n : Z) (l : list Z) (j : Z) : option (list Z) :=
  match turns with
  | O => Some l
  | S turns =>
      if decide (j < n) then
        v ← znth l (j + 1); l ← zupd l j v; close_gap turns n l (j + 1)
      else Some l
  end.

(** The [for] loop over the clients; [turns] is at least the number of clients left. *)
Fixpoint event_clients (turns : nat) (p : nat) (i : Z) : M W unit :=
  match turns with
  | O => mret tt
  | S turns =>
      x ← get_pint p;
      if decide (i < client_fd_number x) then
        f ← defined (znth (client_fd x) i);
        '(len, event_socket_fd) ← portalRecvFd f (map_base x) 4;
        e ← errno;
        if decide (len = -1 /\ e = EAGAIN) then event_clients turns p (i + 1)
        else if decide (len = -1) then exit 1
        else
          (if decide (len = 0) then
             kupd (os_close f) ;;
             let n := client_fd_number x - 1 in
             l ← defined (close_gap (Z.to_nat n) n (client_fd x) i);
             put_pint p (set_client_fd l (set_client_fd_number n x))
           else mret tt) ;;
          upd_pint p (set_indication_index i) ;;
          x ← get_pint p;
          match handler x with
          | None => mret tt
          | Some h => hdr ← load (map_base x); hcall h p (Z.shiftr hdr 16) event_socket_fd ;; mret tt
          end
      else mret tt
  end.

(** The end of [event_socket]: a listening portal accepts a new client. *)
Definition event_accept (p : nat) : M W Z :=
  x ← get_pint p;
  (if decide (fpga_fd x <> -1) then
     sockfd ← accept_socket (fpga_fd x);
     if decide (sockfd <> -1) then
       push_client p sockfd ;;
       upd_pint p (set_accept_finished 1) ;;
       x ← get_pint p;
       match poller x with
       | Some me => addFdToPoller me sockfd
       | None => mret tt
       end
     else mret tt
   else mret tt) ;;
  mret (-1).

Definition event_socket (p : nat) : M W Z :=
  x ← get_pint p;
  event_clients (Z.to_nat (client_fd_number x)) p 0 ;;
  event_accept p.

(** [while (pint->client_fd_number == 0) event_socket(pint);]: between two turns
    the environment takes a scheduled step. *)
Fixpoint wait_client (fuel : nat) (p : nat) : M W unit :=
  x ← get_pint p;
  if decide (client_fd_number x = 0) then
    event_socket p ;;
    match fuel with
    | O => block
    | S fuel => await ;; wait_client fuel p
    end
  else mret tt.

Definition send_socket (p : nat) (data : ptr) (hdr sendFd : Z) : M W unit :=
  let buffer := ptr_add data (-1) in
  store buffer hdr ;;
  w ← getW;
  wait_client (length (w_sched w)) p ;;
  x ← get_pint p;
  f ← defined (znth (client_fd x) (request_index x));
  portalSendFd f buffer (Z.land hdr 0xffff * 4) sendFd.

(** [PortalItemFunctions socketfuncResp] and [socketfuncInit] *)
Definition socketfuncResp_table : PortalItemFunctions K :=
  {| it_init := init_socketResp; it_read := read_portal_memory; it_write := write_portal_memory;
     it_writefd := write_fd_portal_memory; it_mapchannelInd := mapchannel_socket;
     it_mapchannelReq := mapchannel_socket; it_send := send_socket; it_recv := recv_socket;
     it_busywait := busy_portal_null; it_enableint := enableint_portal_null;
     it_event := event_socket |}.
Definition socketfuncInit_table : PortalItemFunctions K :=
  {| it_init := init_socketInit; it_read := read_portal_memory; it_write := write_portal_memory;
     it_writefd := write_fd_portal_memory; it_mapchannelInd := mapchannel_socket;
     it_mapchannelReq := mapchannel_socket; it_send := send_socket; it_recv := recv_socket;
     it_busywait := busy_portal_null; it_enableint := enableint_portal_null;
     it_event := event_socket |}.

(** ** The multiplexer *)

Definition init_mux (p : nat) (aparam : ItemParam) : M W Z :=
  match aparam with
  | MuxParam m =>
      upd_pint p (set_mux (Some m)) ;;
      x ← get_pint p;
      b ← malloc (reqsize x);
      upd_pint p (set_map_base b) ;;
      mx ← get_pint m;
      store (map_base mx) (-1) ;;
      mx ← get_pint m;
      let n := mux_ports_number mx + 1 in
      ports ← defined (zupd (resize (Z.to_nat n) 0%nat (mux_ports mx)) (n - 1) p);
      put_pint m (set_mux_ports ports (set_mux_ports_number n mx)) ;;
      mret 0
  | _ => fault
  end.

Definition send_mux (p : nat) (data : ptr) (hdr sendFd : Z) : M W unit :=
  let buffer := ptr_add data (-1) in
  store buffer hdr ;;
  x ← get_pint p;
  m ← defined (mux x);
  upd_pint m (set_request_index (request_index x)) ;;
  mx ← get_pint m;
  it_send (item_of tab mx) m buffer
    (u32 (Z.lor (Z.shiftl (fpga_number x) 16) (Z.land (hdr + 1) 0xffff))) sendFd.

Definition recv_mux (p : nat) (buffer : ptr) (len : Z) : M W (Z * option Z) :=
  x ← get_pint p;
  m ← defined (mux x);
  mx ← get_pint m;
  it_recv (item_of tab mx) m buffer len.

Definition event_mux (p : nat) : M W Z := mret (-1).

(** The loop of [portal_mux_handler] over [mux_ports], which handlers may extend:
    [fuel] bounds the turns, and a run that needs more blocks. *)
Fixpoint mux_loop (fuel : nat) (p : nat) (channel messageFd : Z) (i : Z) : M W unit :=
  match fuel with
  | O => block
  | S fuel =>
      x ← get_pint p;
      if decide (i < mux_ports_number x) then
        q ← defined (znth (mux_ports x) i);
        y ← get_pint q;
        (if decide (channel = u32 (fpga_number y)) then
           _ ← it_recv (item_of tab y) q (map_base y) 1;
           y ← get_pint q;
           hdr ← load (map_base y);
           h ← defined (handler y);
           hcall h q (Z.shiftr hdr 16) messageFd ;; mret tt
         else mret tt) ;;
        mux_loop fuel p channel messageFd (i + 1)
      else mret tt
  end.

Definition portal_mux_handler (fuel p : nat) (channel messageFd : Z) : M W Z :=
  mux_loop fuel p channel messageFd 0 ;; mret (-1).

(** [PortalItemFunctions muxfunc] *)
Definition muxfunc_table : PortalItemFunctions K :=
  {| it_init := init_mux; it_read := read_portal_memory; it_write := write_portal_memory;
     it_writefd := write_fd_portal_memory; it_mapchannelInd := mapchannel_socket;
     it_mapchannelReq := mapchannel_socket; it_send := send_mux; it_recv := recv_mux;
     it_busywait := busy_portal_null; it_enableint := enableint_portal_null;
     it_event := event_mux |}.

End Socket.
