(* ===== verification/PortalShared.v ===== *)
(** The shared-memory transport of [cpp/portalShared.c]: a ring of messages in
    a block of words shared by a writer and a reader.  Word [SHARED_LIMIT]
    holds the number of words of the block, [SHARED_WRITE] and [SHARED_READ]
    the word indices at which the next message is written and read, and the
    messages start at word [SHARED_START].

    The file defines the operations, the abstract view of the ring as a queue
    of messages ([ring_ok]), and proves that sending and delivering a message
    refine enqueue and dequeue on that queue. *)

From stdpp Require Import base gmap list fin_maps.
From Stdlib Require Import ZArith Lia.
From S2P Require Import Prelude PortalTypes PortalCore.

Section Shared.
Context {K : Type} `{!Device K} `{!PortalOs K}.
Local Abbreviation W := (World K).

Variable hcall : nat -> nat -> Z -> Z -> M W Z.
(** [dma->reference(fd)] and [MMURequest_setInterface(dma->priv.sglDevice, ...)]. *)
Variable dma_reference : nat -> Z -> M W Z.
Variable dma_setInterface : nat -> Z -> Z -> M W unit.

(** [pint->map_base[i]] *)
Definition mb_load (p : nat) (i : Z) : M W Z :=
  x ← get_pint p; load (ptr_add (map_base x) i).
Definition mb_store (p : nat) (i v : Z) : M W unit :=
  x ← get_pint p; store (ptr_add (map_base x) i) v.

Definition init_shared (p : nat) (aparam : ItemParam) : M W Z :=
  match aparam with
  | NoParam => mret 0
  | SharedParam dma size =>
      fd ← portalAlloc size;
      mb ← portalMmap fd size;
      upd_pint p (set_map_base mb) ;;
      mb_store p SHARED_LIMIT (size / 4) ;;
      mb_store p SHARED_WRITE SHARED_START ;;
      mb_store p SHARED_READ SHARED_START ;;
      mb_store p SHARED_START 0 ;;
      ref ← dma_reference dma fd;
      x ← get_pint p;
      dma_setInterface dma (fpga_number x) (u32 ref) ;;
      mret 0
  | _ => fault
  end.

Definition mapchannel_sharedInd (p : nat) (v : Z) : M W ptr :=
  x ← get_pint p;
  r ← mb_load p SHARED_READ;
  mret (ptr_add (map_base x) (u32 (r + 1))).

Definition mapchannel_sharedReq (p : nat) (v : Z) : M W ptr :=
  x ← get_pint p;
  wr ← mb_load p SHARED_WRITE;
  mret (ptr_add (map_base x) (u32 (wr + 1))).

(** The two lines that open [busywait_shared] and [increment_shared]. *)
Definition shared_reqwords (x : PortalInternal) : Z :=
  let reqwords := s32 (reqsize x / 4 + 1) in
  Z.land (reqwords + 1) 0xfffe.

(** The [while (1)] loop: each turn reads both indices again; between two
    turns the peers of the schedule run. *)
Fixpoint busywait_loop (fuel : nat) (p : nat) (limit reqwords : Z) : M W Z :=
  write ← mb_load p SHARED_WRITE;
  read ← mb_load p SHARED_READ;
  let write := s32 write in
  let read := s32 read in
  let avail := if decide (write >= read) then s32 (limit - (write - read) - 4)
               else s32 (read - write) in
  if decide (avail > 2 * reqwords) then mret 0
  else match fuel with
       | O => block
       | S fuel => await ;; busywait_loop fuel p limit reqwords
       end.

Definition busywait_shared (p : nat) (addr : ptr) : M W Z :=
  x ← get_pint p;
  limit ← mb_load p SHARED_LIMIT;
  w ← getW;
  busywait_loop (length (w_sched w)) p (s32 limit) (shared_reqwords x).

Definition increment_shared (p : nat) (newp : Z) : M W Z :=
  x ← get_pint p;
  limit ← mb_load p SHARED_LIMIT;
  if decide (u32 (newp + shared_reqwords x) >= limit) then mret SHARED_START else mret newp.

Definition send_shared (p : nat) (buff : ptr) (hdr sendFd : Z) : M W unit :=
  let reqwords := Z.land hdr 0xffff in
  let needs_padding := Z.land reqwords 1 in
  wr ← mb_load p SHARED_WRITE;
  mb_store p wr hdr ;;
  reqwords ← (if decide (needs_padding <> 0) then
                wr ← mb_load p SHARED_WRITE;
                mb_store p (u32 (wr + reqwords)) 0xffff0001 ;;
                mret (Z.land (reqwords + 1) 0xfffe)
              else mret reqwords);
  wr ← mb_load p SHARED_WRITE;
  newp ← increment_shared p (u32 (wr + reqwords));
  mb_store p SHARED_WRITE newp ;;
  wr ← mb_load p SHARED_WRITE;
  mb_store p wr 0.

Definition event_shared (p : nat) : M W Z :=
  x ← get_pint p;
  if decide (map_base x = NULL) then mret (-1)
  else
    r ← mb_load p SHARED_READ;
    wr ← mb_load p SHARED_WRITE;
    if decide (r = wr) then mret (-1)
    else
      r ← mb_load p SHARED_READ;
      hdr ← mb_load p r;
      let msg_num := u16 (Z.shiftr hdr 16) in
      let msg_words := u16 (Z.land hdr 0xffff) in
      let msg_words := u16 (Z.land (msg_words + 1) 0xfffe) in
      (if decide (msg_num <> 0xffff) then
         x ← get_pint p;
         match handler x with
         | Some h => hcall h p msg_num 0 ;; mret tt
         | None => fault
         end
       else mret tt) ;;
      r ← mb_load p SHARED_READ;
      newp ← increment_shared p (u32 (r + msg_words));
      mb_store p SHARED_READ newp ;;
      mret (-1).

(** [PortalItemFunctions sharedfunc] *)
Definition sharedfunc_table : PortalItemFunctions K :=
  {| it_init := init_shared; it_read := read_portal_memory; it_write := write_portal_memory;
     it_writefd := write_fd_portal_memory; it_mapchannelInd := mapchannel_sharedInd;
     it_mapchannelReq := mapchannel_sharedReq; it_send := send_shared;
     it_recv := recv_portal_null; it_busywait := busywait_shared;
     it_enableint := enableint_portal_null; it_event := event_shared |}.

(** ** Running the accesses *)

Lemma mb_load_ok p x b i v (w : W) :
  w_pints w !! p = Some x -> map_base x = Pblk b 0 -> w_mem w !! (b, i) = Some v ->
  mb_load p i w = Ok v w.
Proof.
  intros Hp Hb Hm. unfold mb_load. rewrite (bind_ok _ _ _ _ _ (get_pint_ok _ _ _ Hp)), Hb.
  by apply load_blk.
Qed.

Lemma mb_store_ok p x b i v (w : W) :
  w_pints w !! p = Some x -> map_base x = Pblk b 0 -> is_Some (w_mem w !! (b, i)) ->
  mb_store p i v w = Ok tt (set_w_mem (<[(b, i) := u32 v]> (w_mem w)) w).
Proof.
  intros Hp Hb [v0 Hm]. unfold mb_store.
  rewrite (bind_ok _ _ _ _ _ (get_pint_ok _ _ _ Hp)), Hb. by eapply store_blk.
Qed.

Lemma increment_shared_ok p x b L newp (w : W) :
  w_pints w !! p = Some x -> map_base x = Pblk b 0 ->
  w_mem w !! (b, SHARED_LIMIT) = Some L ->
  increment_shared p newp w =
    Ok (if decide (u32 (newp + shared_reqwords x) >= L) then SHARED_START else newp) w.
Proof.
  intros Hp Hb HL. unfold increment_shared.
  rewrite (bind_ok _ _ _ _ _ (get_pint_ok _ _ _ Hp)).
  rewrite (bind_ok _ _ _ _ _ (mb_load_ok _ _ _ _ _ _ Hp Hb HL)).
  by case_decide.
Qed.

End Shared.

(** * The ring as a queue of messages *)

(** A message: its channel and the words of its arguments. *)
Definition msg : Type := (Z * list Z)%type.
Definition msg_words (m : msg) : Z := 1 + Z.of_nat (length (snd m)).
Definition msg_hdr (m : msg) : Z := fst m * 65536 + msg_words m.
(** The words a message takes in the ring: padded to an even number. *)
Definition msg_size (m : msg) : Z := msg_words m + msg_words m mod 2.

Definition msg_ok (Rw : Z) (m : msg) : Prop :=
  0 <= fst m < 65535 /\ msg_size m <= Rw /\ Forall in_u32 (snd m).

(** Show the index constants to [lia]. *)
Ltac shared_consts :=
  unfold SHARED_START, SHARED_LIMIT, SHARED_READ, SHARED_WRITE in *.

Section Ring.
Variables (b : nat) (L Rw : Z).
Implicit Types (mem : gmap (nat * Z) Z) (q : list msg).

(** The words of [pl] lie at [p], [p + 1], ... *)
Definition words_at mem (p : Z) (pl : list Z) : Prop :=
  forall i v, pl !! i = Some v -> mem !! (b, p + Z.of_nat i) = Some v.

Definition at_msg mem (p : Z) (m : msg) : Prop :=
  mem !! (b, p) = Some (msg_hdr m) /\ words_at mem (p + 1) (snd m).

(** The messages [q] lie one behind the other from [p] up to [e]. *)
Fixpoint seg mem (p : Z) q (e : Z) : Prop :=
  match q with
  | [] => p = e
  | m :: q' => p + Rw < L /\ msg_ok Rw m /\ at_msg mem p m /\ seg mem (p + msg_size m) q' e
  end.

(** The unread messages, from the read index to the write index: in one
    piece, or wrapped, with the last message of the first piece reaching the
    zone (the last [Rw] words) in which no message starts. *)
Definition layout mem (r wr : Z) q : Prop :=
  seg mem r q wr \/
  exists q1 q2 e, q = q1 ++ q2 /\ seg mem r q1 e /\ L <= e + Rw /\
                  seg mem SHARED_START q2 wr /\ wr < r.

Record ring_ok mem (r wr : Z) q : Prop := {
  rk_limit : mem !! (b, SHARED_LIMIT) = Some L;
  rk_write : mem !! (b, SHARED_WRITE) = Some wr;
  rk_read : mem !! (b, SHARED_READ) = Some r;
  rk_alloc : forall o, 0 <= o < L -> is_Some (mem !! (b, o));
  rk_L : L < 2 ^ 31;
  rk_Rw : 0 <= Rw < 65536;
  rk_r : SHARED_START <= r /\ r + Rw < L /\ r mod 2 = 0;
  rk_w : SHARED_START <= wr /\ wr + Rw < L /\ wr mod 2 = 0;
  rk_layout : layout mem r wr q
}.

(** The room [busywait_shared] computes. *)
Definition room (r wr : Z) : Z := if decide (wr >= r) then L - (wr - r) - 4 else r - wr.

Lemma msg_size_bounds m : 1 <= msg_words m /\ msg_words m <= msg_size m <= msg_words m + 1.
Proof. unfold msg_size, msg_words. zlia. Qed.

Lemma msg_size_even m : msg_size m mod 2 = 0.
Proof. unfold msg_size. zlia. Qed.

Lemma seg_le mem p q e : seg mem p q e -> p <= e.
Proof.
  revert p. induction q as [|m q IH]; intros p; cbn; [lia|].
  intros (_ & _ & _ & Hs). apply IH in Hs. pose proof (msg_size_bounds m). lia.
Qed.

Lemma at_msg_frame mem mem' p m :
  at_msg mem p m -> (forall a, p <= a < p + msg_size m -> mem' !! (b, a) = mem !! (b, a)) ->
  at_msg mem' p m.
Proof.
  intros [Hh Hw] Hf. pose proof (msg_size_bounds m) as Hb.
  split; [rewrite Hf by lia; exact Hh|].
  intros i v Hv. rewrite Hf; [by apply Hw|].
  apply lookup_lt_Some in Hv. unfold msg_words in Hb. lia.
Qed.

Lemma seg_frame mem mem' p q e :
  seg mem p q e -> (forall a, p <= a < e -> mem' !! (b, a) = mem !! (b, a)) ->
  seg mem' p q e.
Proof.
  revert p. induction q as [|m q IH]; intros p; [done|].
  intros (Hp & Hok & Hat & Hs) Hf. pose proof (seg_le _ _ _ _ Hs).
  pose proof (msg_size_bounds m).
  split_and!; [done|done| |].
  - eapply at_msg_frame; [done|]. intros a Ha. apply Hf. lia.
  - apply IH; [done|]. intros a Ha. apply Hf. lia.
Qed.

Lemma seg_snoc mem p q e m :
  seg mem p q e -> e + Rw < L -> msg_ok Rw m -> at_msg mem e m ->
  seg mem p (q ++ [m]) (e + msg_size m).
Proof.
  revert p. induction q as [|m0 q IH]; intros p; cbn.
  - intros -> Hr Hok Hat. split_and!; done.
  - intros (Hp & Hok0 & Hat0 & Hs) Hr Hok Hat. split_and!; try done. by apply IH.
Qed.

(** No message starts in the last [Rw] words: a piece that reaches that zone
    ends there. *)
Lemma seg_end mem p q e : seg mem p q e -> L <= p + Rw -> q = [] /\ p = e.
Proof. destruct q; cbn; [auto|]. intros (Hp & _). lia. Qed.

Lemma msg_hdr_num m : 0 <= fst m < 65535 -> msg_words m < 65536 ->
  u16 (Z.shiftr (msg_hdr m) 16) = fst m.
Proof.
  intros Hc Hl. pose proof (msg_size_bounds m). rewrite Z.shiftr_div_pow2 by lia.
  unfold msg_hdr. change (2 ^ 16) with 65536.
  rewrite u16_small; zlia.
Qed.

Lemma msg_hdr_words m : msg_words m < 65536 -> Z.land (msg_hdr m) 0xffff = msg_words m.
Proof.
  intros Hl. pose proof (msg_size_bounds m). rewrite land_ffff. unfold msg_hdr. zlia.
Qed.

Lemma pad_even n : 0 <= n < 65535 -> Z.land (n + 1) 0xfffe = n + n mod 2.
Proof. intros Hn. rewrite land_fffe. zlia. Qed.

Lemma land_1 n : Z.land n 1 = n mod 2.
Proof. apply (land_ones_mod n 1). lia. Qed.

(** The index after a message that ends at [n]. *)
Definition next_index (n : Z) : Z := if decide (n + Rw >= L) then SHARED_START else n.

(** With the room [busywait_shared] waits for, the index after a new message
    either stays above it (and below the unread messages when the ring is
    wrapped), or goes back to the start, strictly below the read index. *)
Lemma send_index mem r wr q m :
  ring_ok mem r wr q -> room r wr > 2 * Rw -> msg_size m <= Rw ->
  (next_index (wr + msg_size m) = wr + msg_size m /\ wr + msg_size m + Rw < L /\
   (wr < r -> wr + msg_size m < r)) \/
  (next_index (wr + msg_size m) = SHARED_START /\ SHARED_START < r <= wr /\
   wr + msg_size m + Rw >= L).
Proof.
  intros [? ? ? ? ? ? (? & ? & _) (? & ? & _) _] Hroom Hsz. unfold room in Hroom.
  unfold next_index, SHARED_START in *. pose proof (msg_size_bounds m).
  repeat case_decide; lia.
Qed.

(** Enqueue: a memory that holds the new message at the write index, the new
    write index, and is otherwise unchanged represents the queue with the
    message at its end. *)
Lemma ring_enqueue mem mem' r wr q m :
  ring_ok mem r wr q -> room r wr > 2 * Rw -> msg_ok Rw m ->
  at_msg mem' wr m ->
  mem' !! (b, SHARED_WRITE) = Some (next_index (wr + msg_size m)) ->
  (forall o, 0 <= o < L -> is_Some (mem' !! (b, o))) ->
  (forall a, a <> SHARED_WRITE -> a <> next_index (wr + msg_size m) ->
             ~ (wr <= a < wr + msg_size m) -> mem' !! (b, a) = mem !! (b, a)) ->
  ring_ok mem' r (next_index (wr + msg_size m)) (q ++ [m]).
Proof.
  intros HR Hroom Hok Hat Hw Hal Hf.
  pose proof (send_index _ _ _ _ _ HR Hroom (proj1 (proj2 Hok))) as Hi.
  destruct HR as [HL Hw0 Hr Hal0 HLb HRw (Hr1 & Hr2 & Hr3) (Hw1 & Hw2 & Hw3) Hlay].
  pose proof (msg_size_bounds m) as Hsz. pose proof (msg_size_even m) as Hev.
  shared_consts.
  assert (Hkeep : forall p q' e, seg mem p q' e -> 4 <= p ->
            (e <= wr \/ wr + msg_size m <= p) ->
            (e <= next_index (wr + msg_size m) \/ next_index (wr + msg_size m) < p) ->
            seg mem' p q' e).
  { intros p q' e Hs Hp H1 H2. apply (seg_frame mem); [done|].
    intros a Ha. apply Hf; lia. }
  split; shared_consts.
  1: rewrite Hf; [exact HL|lia..].
  1: exact Hw.
  1: rewrite Hf; [exact Hr|lia..].
  1-5: try done.
  1: destruct Hi as [(-> & ? & ?)|(-> & ? & ?)]; repeat split; zlia.
  destruct Hlay as [Hs|(q1 & q2 & e & -> & Hs1 & He & Hs2 & Hwr)].
  - pose proof (seg_le _ _ _ _ Hs) as Hle.
    assert (seg mem' r (q ++ [m]) (wr + msg_size m)) as Hs'.
    { apply seg_snoc; [apply Hkeep|..]; try done; lia. }
    destruct Hi as [(-> & ? & ?)|(-> & ? & ?)]; [by left|].
    right. exists (q ++ [m]), [], (wr + msg_size m).
    split_and!; [by rewrite app_nil_r|done|lia|done|unfold SHARED_START; lia].
  - destruct Hi as [(Hn & ? & Hlt)|(? & ? & ?)]; [|unfold SHARED_START in *; lia].
    rewrite Hn in *. pose proof (Hlt Hwr).
    right. exists q1, (q2 ++ [m]), e. pose proof (seg_le _ _ _ _ Hs2).
    split_and!; [by rewrite app_assoc|apply Hkeep; [done|lia..]|done| |done].
    apply seg_snoc; [apply Hkeep; unfold SHARED_START in *; [done|lia..]|..]; done.
Qed.

(** Dequeue: moving the read index past the first message leaves the rest. *)
Lemma ring_dequeue mem mem' r wr m q :
  ring_ok mem r wr (m :: q) ->
  mem' !! (b, SHARED_READ) = Some (next_index (r + msg_size m)) ->
  (forall a, a <> SHARED_READ -> mem' !! (b, a) = mem !! (b, a)) ->
  ring_ok mem' (next_index (r + msg_size m)) wr q.
Proof.
  intros [HL Hw0 Hr Hal HLb HRw (Hr1 & Hr2 & Hr3) (Hw1 & Hw2 & Hw3) Hlay] Hrd Hf.
  pose proof (msg_size_bounds m) as Hsz. pose proof (msg_size_even m) as Hev.
  shared_consts.
  assert (Hkeep : forall p q' e, seg mem p q' e -> 4 <= p -> seg mem' p q' e).
  { intros p q' e Hs Hp. apply (seg_frame mem); [done|]. intros a Ha. apply Hf; lia. }
  assert (Hn : (next_index (r + msg_size m) = r + msg_size m /\ r + msg_size m + Rw < L) \/
               (next_index (r + msg_size m) = 4 /\ r + msg_size m + Rw >= L)).
  { unfold next_index, SHARED_START. case_decide; lia. }
  split; shared_consts.
  1,2: rewrite Hf; [done|lia].
  1: exact Hrd.
  1: intros o Ho; destruct (decide (o = 2)) as [->|]; [by rewrite Hrd|rewrite Hf; auto].
  1-2: done.
  1: destruct Hn as [[-> ?]|[-> ?]]; unfold SHARED_START; repeat split; zlia.
  1: unfold SHARED_START; repeat split; lia.
  destruct Hlay as [Hs|(q1 & q2 & e & Heq & Hs1 & He & Hs2 & Hwr)].
  - destruct Hs as (_ & _ & _ & Hs). pose proof (seg_le _ _ _ _ Hs).
    left. destruct Hn as [[-> ?]|[-> ?]]; [apply Hkeep; [done|lia]|lia].
  - destruct q1 as [|m1 q1]; cbn in Heq, Hs1; [subst e; lia|].
    injection Heq as <- ->. destruct Hs1 as (_ & _ & _ & Hs1).
    destruct Hn as [[-> ?]|[-> ?]].
    + right. exists q1, q2, e. split_and!; [done|apply Hkeep; [done|lia]|done| |lia].
      apply Hkeep; [done|unfold SHARED_START; lia].
    + destruct (seg_end _ _ _ _ Hs1) as [-> _]; [lia|].
      left. apply Hkeep; [done|lia].
Qed.

(** The words behind the write index are free: storing there changes no message. *)
Lemma ring_free mem mem' r wr q :
  ring_ok mem r wr q -> room r wr > 2 * Rw ->
  (forall a, ~ (wr <= a < wr + Rw) -> mem' !! (b, a) = mem !! (b, a)) ->
  (forall a, is_Some (mem !! (b, a)) -> is_Some (mem' !! (b, a))) ->
  ring_ok mem' r wr q.
Proof.
  intros [HL Hw Hr Hal HLb HRw Hrb Hwb Hlay] Hroom Hf Hk.
  unfold room in Hroom. shared_consts. destruct Hwb as (? & ? & ?), Hrb as (? & ? & ?).
  split; shared_consts; try done; try (rewrite Hf by lia; done); auto.
  destruct Hlay as [Hs|(q1 & q2 & e & -> & Hs1 & He & Hs2 & Hwr)].
  - left. eapply seg_frame; [exact Hs|]. intros a Ha. apply Hf. lia.
  - rewrite decide_False in Hroom by lia.
    right. exists q1, q2, e. split_and!; try done.
    + eapply seg_frame; [exact Hs1|]. intros a Ha. apply Hf. lia.
    + eapply seg_frame; [exact Hs2|]. intros a Ha. apply Hf. lia.
Qed.

(** The first unread message lies at the read index, and the indices differ. *)
Lemma ring_head mem r wr m q :
  ring_ok mem r wr (m :: q) -> msg_ok Rw m /\ at_msg mem r m /\ r <> wr.
Proof.
  intros [_ _ _ _ _ _ (Hr1 & Hr2 & _) _ Hlay]. pose proof (msg_size_bounds m).
  destruct Hlay as [(_ & ? & ? & Hs)|(q1 & q2 & e & Heq & Hs1 & He & Hs2 & Hwr)].
  - pose proof (seg_le _ _ _ _ Hs). split_and!; [done|done|lia].
  - destruct q1 as [|m1 q1]; cbn in Heq, Hs1; [lia|].
    injection Heq as <- ->. destruct Hs1 as (_ & ? & ? & _). split_and!; [done|done|lia].
Qed.

Lemma ring_empty mem r wr : ring_ok mem r wr [] <-> ring_ok mem r wr [] /\ r = wr.
Proof.
  split; [|tauto]. intros H. split; [done|]. destruct H as [_ _ _ _ _ _ (_ & ? & _) _ Hlay].
  destruct Hlay as [Hs|(q1 & q2 & e & Heq & Hs1 & He & Hs2 & Hwr)]; [done|].
  symmetry in Heq. apply app_eq_nil in Heq as [-> ->]. cbn in *. lia.
Qed.

End Ring.

(** * The operations refine the queue *)

Section Run.
Context {K : Type} `{!Device K} `{!PortalOs K}.
Local Abbreviation W := (World K).

Lemma is_Some_insert (m : gmap (nat * Z) Z) k v i :
  is_Some (m !! i) -> is_Some (<[k := v]> m !! i).
Proof. intros H. apply lookup_insert_is_Some'. auto. Qed.

(** Solve a lookup in a memory built by stores at known indices. *)
Ltac lookup_mem :=
  cbn [set_w_mem w_mem w_pints];
  lazymatch goal with
  | |- is_Some _ =>
      repeat apply is_Some_insert;
      match goal with H : forall o, _ -> is_Some _ |- _ => apply H; lia end
  | |- _ =>
      repeat (rewrite lookup_insert_ne by (intros [=]; lia));
      rewrite ?lookup_insert_eq; eauto
  end.

(** [step_load] and [step_store] run the access of the block at the head. *)
Ltac step_load := erewrite bind_ok by (eapply mb_load_ok; [eassumption|eassumption|lookup_mem]).
Ltac step_store := erewrite bind_ok by (eapply mb_store_ok; [eassumption|eassumption|lookup_mem]).

Lemma send_shared_ok p x b L r wr q m buff fd (w : W) :
  w_pints w !! p = Some x -> map_base x = Pblk b 0 ->
  ring_ok b L (shared_reqwords x) (w_mem w) r wr q ->
  room L r wr > 2 * shared_reqwords x ->
  msg_ok (shared_reqwords x) m ->
  words_at b (w_mem w) (wr + 1) (snd m) ->
  exists mem', send_shared p buff (msg_hdr m) fd w = Ok tt (set_w_mem mem' w) /\
    ring_ok b L (shared_reqwords x) mem' r
      (next_index L (shared_reqwords x) (wr + msg_size m)) (q ++ [m]) /\
    (forall b' a, b' <> b -> mem' !! (b', a) = w_mem w !! (b', a)).
Proof.
  intros Hp Hb HR Hroom Hok Hpl.
  set (Rw := shared_reqwords x) in *.
  pose proof (send_index _ _ _ _ _ _ _ _ HR Hroom (proj1 (proj2 Hok))) as Hi.
  pose proof HR as [HL Hw0 Hr Hal HLb HRw (Hr1 & Hr2 & _) (Hw1 & Hw2 & _) _].
  pose proof (msg_size_bounds m) as Hsz. pose proof Hok as (Hc & Hsz' & _).
  assert (Hhdr : 0 <= msg_hdr m < 4294967296) by (unfold msg_hdr; lia).
  set (nw := next_index L Rw (wr + msg_size m)) in *.
  shared_consts.
  assert (Hnw : 4 <= nw < L) by (destruct Hi as [(-> & ? & _)|(-> & ? & ?)]; lia).
  set (m2 := if decide (msg_words m mod 2 <> 0)
             then <[(b, wr + msg_words m) := 0xffff0001]> (<[(b, wr) := msg_hdr m]> (w_mem w))
             else <[(b, wr) := msg_hdr m]> (w_mem w)).
  assert (H2 : forall a, ~ (wr <= a < wr + msg_size m) -> m2 !! (b, a) = w_mem w !! (b, a)).
  { intros a Ha. unfold m2, msg_size in *. case_decide; lookup_mem. }
  assert (H2al : forall o, 0 <= o < L -> is_Some (m2 !! (b, o))).
  { intros o Ho. unfold m2. case_decide; lookup_mem. }
  exists (<[(b, nw) := 0]> (<[(b, 1) := nw]> m2)).
  split_and!.
  - unfold send_shared. rewrite msg_hdr_words by lia. shared_consts.
    step_load. step_store. rewrite (u32_small (msg_hdr m)) by done.
    rewrite (bind_ok _ _ _ (msg_size m) (set_w_mem m2 w)).
    2:{ unfold m2. rewrite land_1. case_decide as Hp1.
        - step_load. rewrite u32_small by lia. step_store.
          unfold msg_size in *. rewrite pad_even by zlia. done.
        - unfold mret, M_ret. f_equal. unfold msg_size. lia. }
    assert (H2w := H2 1 ltac:(lia)). assert (H2l := H2 0 ltac:(lia)).
    rewrite Hw0 in H2w. rewrite HL in H2l.
    step_load.
    erewrite bind_ok by (eapply increment_shared_ok; [eassumption|eassumption|lookup_mem]).
    fold Rw. rewrite (u32_small (wr + msg_size m)), u32_small by lia.
    change (if decide _ then SHARED_START else _) with nw.
    step_store. rewrite u32_small by lia. step_load.
    erewrite mb_store_ok by (first [eassumption|lookup_mem]). done.
  - apply ring_enqueue with (mem := w_mem w); try done.
    + split.
      * unfold m2, msg_size in *. case_decide; lookup_mem.
      * intros i v Hv. pose proof (lookup_lt_Some _ _ _ Hv). apply Hpl in Hv.
        assert (nw <> wr + 1 + Z.of_nat i) by (unfold msg_words in *; lia).
        unfold m2, msg_words in *. case_decide; lookup_mem.
    + shared_consts. fold nw. lookup_mem.
    + intros o Ho. do 2 apply is_Some_insert. auto.
    + intros a H1 H3 H4. shared_consts. rewrite <- H2 by done. lookup_mem.
  - intros b' a Hb'. unfold m2.
    case_decide; repeat (rewrite lookup_insert_ne by congruence); done.
Qed.

Variable hcall : nat -> nat -> Z -> Z -> M W Z.

(** [event_shared] on a ring with an unread message: the handler is called
    with the channel of the first message, in the unchanged world, and when it
    returns the read index moves past that message.  The handler may change
    anything but the identity of the portal's ring; [q'] may have grown. *)
Lemma event_shared_ok p x b L r wr m q h rc x' wr' q' (w w' : W) :
  w_pints w !! p = Some x -> map_base x = Pblk b 0 -> handler x = Some h ->
  ring_ok b L (shared_reqwords x) (w_mem w) r wr (m :: q) ->
  hcall h p (fst m) 0 w = Ok rc w' ->
  w_pints w' !! p = Some x' -> map_base x' = Pblk b 0 -> reqsize x' = reqsize x ->
  ring_ok b L (shared_reqwords x) (w_mem w') r wr' (m :: q') ->
  exists mem', event_shared hcall p w = Ok (-1) (set_w_mem mem' w') /\
    ring_ok b L (shared_reqwords x) mem'
      (next_index L (shared_reqwords x) (r + msg_size m)) wr' q' /\
    (forall b' a, b' <> b -> mem' !! (b', a) = w_mem w' !! (b', a)).
Proof.
  intros Hp Hb Hh HR Hcall Hp' Hb' Hrs HR'.
  assert (Hrw : shared_reqwords x' = shared_reqwords x) by (unfold shared_reqwords; by rewrite Hrs).
  destruct (ring_head _ _ _ _ _ _ _ _ HR) as ((Hc & Hsz & _) & [Hhd _] & Hne).
  pose proof (msg_size_bounds m). pose proof (rk_Rw _ _ _ _ _ _ _ HR).
  pose proof (rk_r _ _ _ _ _ _ _ HR) as (? & ? & _). pose proof (rk_L _ _ _ _ _ _ _ HR).
  pose proof (rk_read _ _ _ _ _ _ _ HR) as Hr. pose proof (rk_write _ _ _ _ _ _ _ HR) as Hw.
  pose proof (rk_read _ _ _ _ _ _ _ HR') as Hr'. pose proof (rk_limit _ _ _ _ _ _ _ HR') as HL'.
  set (n := next_index L (shared_reqwords x) (r + msg_size m)).
  exists (<[(b, SHARED_READ) := n]> (w_mem w')). shared_consts. split_and!.
  - unfold event_shared. rewrite (bind_ok _ _ _ _ _ (get_pint_ok _ _ _ Hp)), Hb.
    rewrite decide_False by done. step_load. step_load. rewrite decide_False by done.
    step_load. step_load. rewrite msg_hdr_num, msg_hdr_words by lia.
    rewrite (u16_small (msg_words m)), pad_even, u16_small by (unfold msg_size in *; zlia).
    fold (msg_size m). rewrite (bind_ok _ _ _ tt w').
    2:{ rewrite decide_True by lia. rewrite (bind_ok _ _ _ _ _ (get_pint_ok _ _ _ Hp)), Hh.
        by rewrite (bind_ok _ _ _ _ _ Hcall). }
    step_load.
    erewrite bind_ok by (eapply increment_shared_ok; [eassumption|eassumption|eassumption]).
    rewrite Hrw, (u32_small (r + msg_size m)), u32_small by lia.
    change (if decide _ then SHARED_START else _) with n.
    erewrite bind_ok by (eapply mb_store_ok; [eassumption|eassumption|exists r; exact Hr']).
    rewrite u32_small; [done|]. unfold n, next_index, SHARED_START. case_decide; lia.
  - eapply ring_dequeue; [exact HR'| |]; [lookup_mem|].
    intros a Ha. shared_consts. lookup_mem.
  - intros b1 a Hb1. rewrite lookup_insert_ne by congruence. done.
Qed.

(** On an empty ring nothing happens. *)
Lemma event_shared_empty p x b L r wr (w : W) :
  w_pints w !! p = Some x -> map_base x = Pblk b 0 ->
  ring_ok b L (shared_reqwords x) (w_mem w) r wr [] ->
  event_shared hcall p w = Ok (-1) w.
Proof.
  intros Hp Hb HR. apply ring_empty in HR as [HR ->].
  pose proof (rk_read _ _ _ _ _ _ _ HR) as Hr. pose proof (rk_write _ _ _ _ _ _ _ HR) as Hw.
  unfold event_shared. rewrite (bind_ok _ _ _ _ _ (get_pint_ok _ _ _ Hp)), Hb.
  rewrite decide_False by done. step_load. step_load. by rewrite decide_True.
Qed.

(** ** Setting the ring up *)

Variable dma_reference : nat -> Z -> M W Z.
Variable dma_setInterface : nat -> Z -> Z -> M W unit.

(** A call that returns and leaves portal [p] and block [b] as they are. *)
Definition returns_keeping {A} (p b : nat) (f : M W A) : Prop :=
  forall w, exists a w', f w = Ok a w' /\ w_pints w' !! p = w_pints w !! p /\
    (forall o, w_mem w' !! (b, o) = w_mem w !! (b, o)).

Lemma ring_fresh b L Rw mem :
  0 <= Rw < 65536 -> SHARED_START + Rw < L < 2 ^ 31 ->
  (forall o, 0 <= o < L -> is_Some (mem !! (b, o))) ->
  mem !! (b, SHARED_LIMIT) = Some L -> mem !! (b, SHARED_WRITE) = Some SHARED_START ->
  mem !! (b, SHARED_READ) = Some SHARED_START ->
  ring_ok b L Rw mem SHARED_START SHARED_START [].
Proof.
  intros. shared_consts. split; shared_consts; try done; try (repeat split; lia).
  by left.
Qed.

Lemma init_shared_ok p x b dma size fd k (w w1 : W) :
  portalAlloc size w = Ok fd w1 ->
  os_mmap fd size (w_kern w1) = (Pblk b 0, k) ->
  w_pints w1 !! p = Some x ->
  (forall o, 0 <= o < size / 4 -> is_Some (w_mem w1 !! (b, o))) ->
  0 <= shared_reqwords x < 65536 -> SHARED_START + shared_reqwords x < size / 4 < 2 ^ 31 ->
  returns_keeping p b (dma_reference dma fd) ->
  (forall id ref, returns_keeping p b (dma_setInterface dma id ref)) ->
  exists w', init_shared dma_reference dma_setInterface p (SharedParam dma size) w = Ok 0 w' /\
    w_pints w' !! p = Some (set_map_base (Pblk b 0) x) /\
    ring_ok b (size / 4) (shared_reqwords x) (w_mem w') SHARED_START SHARED_START [].
Proof.
  intros Hal Hmm Hp Hb HRw HL Href Hset. unfold init_shared.
  rewrite (bind_ok _ _ _ _ _ Hal). unfold portalMmap.
  rewrite (bind_ok _ _ _ (Pblk b 0) (set_w_kern k w1)) by (unfold kcall; by rewrite Hmm).
  erewrite bind_ok by (eapply upd_pint_ok; exact Hp).
  set (x' := set_map_base (Pblk b 0) x). set (pi := <[p := x']> _).
  assert (Hp' : pi !! p = Some x') by apply lookup_insert_eq.
  assert (Hb' : map_base x' = Pblk b 0) by done. clearbody x' pi.
  cbn [set_w_kern w_pints] in *. shared_consts.
  step_store. step_store. step_store. step_store.
  rewrite !u32_small by (rewrite ?u32_small; lia). cbn [set_w_mem w_mem set_w_pints set_w_kern].
  edestruct Href as (ref & w2 & H2 & Hp2 & Hm2). rewrite (bind_ok _ _ _ _ _ H2).
  cbn [set_w_mem w_mem set_w_pints set_w_kern w_pints] in Hp2, Hm2.
  rewrite Hp' in Hp2. rewrite (bind_ok _ _ _ _ _ (get_pint_ok _ _ _ Hp2)).
  destruct (Hset (fpga_number x') (u32 ref) w2) as ([] & w3 & H3 & Hp3 & Hm3).
  rewrite (bind_ok _ _ _ _ _ H3). exists w3. split; [done|].
  split; [by rewrite Hp3|].
  assert (Hl : forall o, w_mem w3 !! (b, o) =
    (<[(b, 4) := 0]> (<[(b, 2) := 4]> (<[(b, 1) := 4]> (<[(b, 0) := size / 4]> (w_mem w1))))) !! (b, o)).
  { intros o. by rewrite Hm3, Hm2. }
  apply ring_fresh; shared_consts; try done; rewrite ?Hl; try lookup_mem.
  intros o Ho. rewrite Hl. lookup_mem.
Qed.

End Run.
