(* ===== verification/PortalCodec.v ===== *)
(** The request/response code the portal compiler generates, on the instance
    checked into the repository: [generated/cpp/MMURequest.c] with the tables
    of [generated/cpp/GeneratedTypes.h].  A proxy function marshals its
    arguments into 32-bit words and hands them to the transport of the portal;
    [MMURequest_handleMessage] takes the words of a message from the transport
    and calls the callback of the channel.

    The functions are shown to be instances of a generic marshalling
    ([portal_send], [portal_recv]), and [Deliverer] states what a transport
    promises to the receiving side, so that the theorems about the generated
    code hold for every transport. *)

From stdpp Require Import base gmap list fin_maps.
From Stdlib Require Import ZArith Lia.
From S2P Require Import Prelude PortalTypes PortalCore.

(** * Channels and sizes, from [GeneratedTypes.h] *)

Definition CHAN_NUM_MMURequest_sglist : Z := 0.
Definition CHAN_NUM_MMURequest_region : Z := 1.
Definition CHAN_NUM_MMURequest_idRequest : Z := 2.
Definition CHAN_NUM_MMURequest_idReturn : Z := 3.
Definition CHAN_NUM_MMURequest_setInterface : Z := 4.
Definition MMURequest_reqsize : Z := 44.

Section Codec.
Context {K : Type} `{!Device K}.
Local Abbreviation W := (World K).

(** [MMURequestCb], and the table each [p->cb] points to. *)
Record MMURequestCb : Type := {
  cb_sglist : nat -> Z -> Z -> Z -> Z -> M W unit;
  cb_region : nat -> Z -> Z -> Z -> Z -> Z -> Z -> Z -> M W unit;
  cb_idRequest : nat -> Z -> M W unit;
  cb_idReturn : nat -> Z -> M W unit;
  cb_setInterface : nat -> Z -> Z -> M W unit
}.

Variable tab : ItemId -> PortalItemFunctions K.
Variable mmu_cb : ptr -> MMURequestCb.
Local Abbreviation item_of := (item_of tab).

(** * The proxy functions

    [p->item] is assigned only when the portal is initialised; it is read once. *)

Definition MMURequest_sglist (p : nat) (sglId sglIndex addr len : Z) : M W unit :=
  x ← get_pint p;
  temp_working_addr_start ← it_mapchannelReq (item_of x) p CHAN_NUM_MMURequest_sglist;
  rc ← it_busywait (item_of x) p temp_working_addr_start;
  if decide (rc <> 0) then mret tt
  else
    a ← it_write (item_of x) p temp_working_addr_start (u32 sglId);
    a ← it_write (item_of x) p a (u32 sglIndex);
    a ← it_write (item_of x) p a (u32 (Z.shiftr addr 32));
    a ← it_write (item_of x) p a (u32 addr);
    a ← it_write (item_of x) p a (u32 len);
    it_send (item_of x) p temp_working_addr_start
      (Z.lor (Z.shiftl CHAN_NUM_MMURequest_sglist 16) 6) (-1).

Definition MMURequest_region (p : nat)
    (sglId barr8 index8 barr4 index4 barr0 index0 : Z) : M W unit :=
  x ← get_pint p;
  temp_working_addr_start ← it_mapchannelReq (item_of x) p CHAN_NUM_MMURequest_region;
  rc ← it_busywait (item_of x) p temp_working_addr_start;
  if decide (rc <> 0) then mret tt
  else
    a ← it_write (item_of x) p temp_working_addr_start (u32 sglId);
    a ← it_write (item_of x) p a (u32 (Z.shiftr barr8 32));
    a ← it_write (item_of x) p a (u32 barr8);
    a ← it_write (item_of x) p a (u32 index8);
    a ← it_write (item_of x) p a (u32 (Z.shiftr barr4 32));
    a ← it_write (item_of x) p a (u32 barr4);
    a ← it_write (item_of x) p a (u32 index4);
    a ← it_write (item_of x) p a (u32 (Z.shiftr barr0 32));
    a ← it_write (item_of x) p a (u32 barr0);
    a ← it_write (item_of x) p a (u32 index0);
    it_send (item_of x) p temp_working_addr_start
      (Z.lor (Z.shiftl CHAN_NUM_MMURequest_region 16) 11) (-1).

Definition MMURequest_idRequest (p : nat) (fd : Z) : M W unit :=
  x ← get_pint p;
  temp_working_addr_start ← it_mapchannelReq (item_of x) p CHAN_NUM_MMURequest_idRequest;
  rc ← it_busywait (item_of x) p temp_working_addr_start;
  if decide (rc <> 0) then mret tt
  else
    a ← it_writefd (item_of x) p temp_working_addr_start (u32 fd);
    it_send (item_of x) p temp_working_addr_start
      (Z.lor (Z.shiftl CHAN_NUM_MMURequest_idRequest 16) 2) fd.

Definition MMURequest_idReturn (p : nat) (sglId : Z) : M W unit :=
  x ← get_pint p;
  temp_working_addr_start ← it_mapchannelReq (item_of x) p CHAN_NUM_MMURequest_idReturn;
  rc ← it_busywait (item_of x) p temp_working_addr_start;
  if decide (rc <> 0) then mret tt
  else
    a ← it_write (item_of x) p temp_working_addr_start (u32 sglId);
    it_send (item_of x) p temp_working_addr_start
      (Z.lor (Z.shiftl CHAN_NUM_MMURequest_idReturn 16) 2) (-1).

Definition MMURequest_setInterface (p : nat) (interfaceId sglId : Z) : M W unit :=
  x ← get_pint p;
  temp_working_addr_start ← it_mapchannelReq (item_of x) p CHAN_NUM_MMURequest_setInterface;
  rc ← it_busywait (item_of x) p temp_working_addr_start;
  if decide (rc <> 0) then mret tt
  else
    a ← it_write (item_of x) p temp_working_addr_start (u32 interfaceId);
    a ← it_write (item_of x) p a (u32 sglId);
    it_send (item_of x) p temp_working_addr_start
      (Z.lor (Z.shiftl CHAN_NUM_MMURequest_setInterface 16) 3) (-1).

(** * The dispatcher *)

(** [tmp = p->item->read(p, &temp_working_addr); v = (uint32_t)(tmp & 0xffffffff)] *)
Definition read_u32 (it : PortalItemFunctions K) (p : nat) (a : ptr) : M W (Z * ptr) :=
  '(tmp, a) ← it_read it p a;
  mret (u32 (Z.land tmp 0xffffffff), a).

(** A 64-bit argument: the word read first is the high half. *)
Definition read_u64 (it : PortalItemFunctions K) (p : nat) (a : ptr) : M W (Z * ptr) :=
  '(tmp, a) ← it_read it p a;
  let v := u64 (Z.shiftl (u64 (Z.land tmp 0xffffffff)) 32) in
  '(tmp, a) ← it_read it p a;
  mret (Z.lor v (u64 (Z.land tmp 0xffffffffffffffff)), a).

Definition MMURequest_handleMessage (p : nat) (channel messageFd : Z) : M W Z :=
  x ← get_pint p;
  let it := item_of x in
  a ← it_mapchannelInd it p channel;
  if decide (channel = CHAN_NUM_MMURequest_sglist) then
    _ ← it_recv it p a 5;
    '(sglId, a) ← read_u32 it p a;
    '(sglIndex, a) ← read_u32 it p a;
    '(addr, a) ← read_u64 it p a;
    '(len, a) ← read_u32 it p a;
    cb_sglist (mmu_cb (cb x)) p sglId sglIndex addr len ;; mret 0
  else if decide (channel = CHAN_NUM_MMURequest_region) then
    _ ← it_recv it p a 10;
    '(sglId, a) ← read_u32 it p a;
    '(barr8, a) ← read_u64 it p a;
    '(index8, a) ← read_u32 it p a;
    '(barr4, a) ← read_u64 it p a;
    '(index4, a) ← read_u32 it p a;
    '(barr0, a) ← read_u64 it p a;
    '(index0, a) ← read_u32 it p a;
    cb_region (mmu_cb (cb x)) p sglId barr8 index8 barr4 index4 barr0 index0 ;; mret 0
  else if decide (channel = CHAN_NUM_MMURequest_idRequest) then
    _ ← it_recv it p a 1;
    '(tmp, a) ← it_read it p a;
    let fd := messageFd in
    cb_idRequest (mmu_cb (cb x)) p fd ;; mret 0
  else if decide (channel = CHAN_NUM_MMURequest_idReturn) then
    _ ← it_recv it p a 1;
    '(sglId, a) ← read_u32 it p a;
    cb_idReturn (mmu_cb (cb x)) p sglId ;; mret 0
  else if decide (channel = CHAN_NUM_MMURequest_setInterface) then
    _ ← it_recv it p a 2;
    '(interfaceId, a) ← read_u32 it p a;
    '(sglId, a) ← read_u32 it p a;
    cb_setInterface (mmu_cb (cb x)) p interfaceId sglId ;; mret 0
  else
    g ← get_glob;
    put_glob (set_runaway (runaway g + 1) g) ;;
    if decide (runaway g > 10) then exit (-1) else mret 0.

(** * The generic marshalling *)

(** An argument word: written with [write], or, for a file descriptor, with [writefd]. *)
Inductive arg : Type := AWord (v : Z) | AFd (v : Z).
Definition arg_val (a : arg) : Z := match a with AWord v | AFd v => v end.

Fixpoint write_args (it : PortalItemFunctions K) (p : nat) (a : ptr) (l : list arg) : M W ptr :=
  match l with
  | [] => mret a
  | AWord v :: l => a ← it_write it p a v; write_args it p a l
  | AFd v :: l => a ← it_writefd it p a v; write_args it p a l
  end.

Definition portal_send (p : nat) (chan : Z) (l : list arg) (fd : Z) : M W unit :=
  x ← get_pint p;
  start ← it_mapchannelReq (item_of x) p chan;
  rc ← it_busywait (item_of x) p start;
  if decide (rc <> 0) then mret tt
  else
    write_args (item_of x) p start l ;;
    it_send (item_of x) p start (Z.lor (Z.shiftl chan 16) (1 + Z.of_nat (length l))) fd.

Fixpoint read_words (it : PortalItemFunctions K) (p : nat) (a : ptr) (n : nat) : M W (list Z) :=
  match n with
  | O => mret []
  | S n => '(v, a) ← it_read it p a; l ← read_words it p a n; mret (v :: l)
  end.

Definition portal_recv (p : nat) (chan : Z) (n : nat) : M W (list Z) :=
  x ← get_pint p;
  a ← it_mapchannelInd (item_of x) p chan;
  _ ← it_recv (item_of x) p a (Z.of_nat n);
  read_words (item_of x) p a n.

(** * Requests as values *)

End Codec.

Inductive MMUReq : Type :=
| Sglist (sglId sglIndex addr len : Z)
| Region (sglId barr8 index8 barr4 index4 barr0 index0 : Z)
| IdRequest (fd : Z)
| IdReturn (sglId : Z)
| SetInterface (interfaceId sglId : Z).

#[global] Instance MMUReq_eq_dec : EqDecision MMUReq.
Proof. solve_decision. Defined.

(** The arguments have the width of their C types; a file descriptor is an [int]. *)
Definition req_ok (r : MMUReq) : Prop :=
  match r with
  | Sglist i x a l => in_u32 i /\ in_u32 x /\ in_u64 a /\ in_u32 l
  | Region i b8 i8 b4 i4 b0 i0 =>
      in_u32 i /\ in_u64 b8 /\ in_u32 i8 /\ in_u64 b4 /\ in_u32 i4 /\ in_u64 b0 /\ in_u32 i0
  | IdRequest fd => - 2 ^ 31 <= fd < 2 ^ 31
  | IdReturn i => in_u32 i
  | SetInterface f i => in_u32 f /\ in_u32 i
  end.

Definition req_chan (r : MMUReq) : Z :=
  match r with
  | Sglist _ _ _ _ => CHAN_NUM_MMURequest_sglist
  | Region _ _ _ _ _ _ _ => CHAN_NUM_MMURequest_region
  | IdRequest _ => CHAN_NUM_MMURequest_idRequest
  | IdReturn _ => CHAN_NUM_MMURequest_idReturn
  | SetInterface _ _ => CHAN_NUM_MMURequest_setInterface
  end.

Definition hi32 (v : Z) : Z := u32 (Z.shiftr v 32).

Definition encode (r : MMUReq) : list arg :=
  match r with
  | Sglist i x a l => [AWord (u32 i); AWord (u32 x); AWord (hi32 a); AWord (u32 a); AWord (u32 l)]
  | Region i b8 i8 b4 i4 b0 i0 =>
      [AWord (u32 i); AWord (hi32 b8); AWord (u32 b8); AWord (u32 i8);
       AWord (hi32 b4); AWord (u32 b4); AWord (u32 i4);
       AWord (hi32 b0); AWord (u32 b0); AWord (u32 i0)]
  | IdRequest fd => [AFd (u32 fd)]
  | IdReturn i => [AWord (u32 i)]
  | SetInterface f i => [AWord (u32 f); AWord (u32 i)]
  end.

(** The descriptor sent beside the message: [-1] when there is none. *)
Definition req_fd (r : MMUReq) : Z := match r with IdRequest fd => fd | _ => -1 end.

(** A transport that carries no descriptors: [event_shared] and
    [portalCheckIndication] pass 0 as the descriptor of every message. *)
Definition as_delivered (rq : MMUReq) : MMUReq :=
  match rq with IdRequest _ => IdRequest 0 | _ => rq end.

Definition join64 (hi lo : Z) : Z := hi * 2 ^ 32 + lo.

Definition decode (chan : Z) (l : list Z) (fd : Z) : option MMUReq :=
  match l with
  | [i; x; ah; al; n] =>
      if decide (chan = 0) then Some (Sglist i x (join64 ah al) n) else None
  | [i; h8; l8; i8; h4; l4; i4; h0; l0; i0] =>
      if decide (chan = 1) then Some (Region i (join64 h8 l8) i8 (join64 h4 l4) i4 (join64 h0 l0) i0)
      else None
  | [v] => if decide (chan = 2) then Some (IdRequest fd)
           else if decide (chan = 3) then Some (IdReturn v) else None
  | [f; i] => if decide (chan = 4) then Some (SetInterface f i) else None
  | _ => None
  end.

Lemma join_split v : in_u64 v -> join64 (hi32 v) (u32 v) = v.
Proof.
  unfold in_u64, join64, hi32, u32, wrap. intros Hv. rewrite Z.shiftr_div_pow2 by lia.
  rewrite (Z.mod_small (v / 2 ^ 32)) by zlia.
  rewrite (Z.div_mod v (2 ^ 32)) at 3 by lia. lia.
Qed.

Lemma in_u32_id v : in_u32 v -> u32 v = v.
Proof. apply u32_small. Qed.

Lemma u32_in v : in_u32 (u32 v).
Proof. apply u32_bound. Qed.
#[export] Hint Resolve u32_in : portal.

Lemma encode_in_u32 r : Forall in_u32 (map arg_val (encode r)).
Proof. destruct r; cbn; unfold hi32; repeat constructor; apply u32_in. Qed.

Lemma decode_encode r : req_ok r -> decode (req_chan r) (map arg_val (encode r)) (req_fd r) = Some r.
Proof.
  destruct r; cbn; intros; destruct_and?; rewrite ?join_split, ?in_u32_id by done; done.
Qed.

Lemma decode_encode_nofd r :
  req_ok r -> decode (req_chan r) (map arg_val (encode r)) 0 = Some (as_delivered r).
Proof. intros H. pose proof (decode_encode _ H) as Hd. destruct r; try exact Hd. done. Qed.

Lemma encode_words r : 1 + Z.of_nat (length (encode r)) <= MMURequest_reqsize / 4.
Proof. by destruct r. Qed.

Section CodecFacts.
Context {K : Type} `{!Device K}.
Local Abbreviation W := (World K).
Variable tab : ItemId -> PortalItemFunctions K.
Variable mmu_cb : ptr -> MMURequestCb (K := K).
Implicit Types (it : PortalItemFunctions K) (w : W).

(** Calling the proxy function of a request, and the callback of a request. *)
Definition mmu_call (p : nat) (r : MMUReq) : M W unit :=
  match r with
  | Sglist i x a l => MMURequest_sglist tab p i x a l
  | Region i b8 i8 b4 i4 b0 i0 => MMURequest_region tab p i b8 i8 b4 i4 b0 i0
  | IdRequest fd => MMURequest_idRequest tab p fd
  | IdReturn i => MMURequest_idReturn tab p i
  | SetInterface f i => MMURequest_setInterface tab p f i
  end.

Definition mmu_dispatch (x : PortalInternal) (p : nat) (r : MMUReq) : M W unit :=
  match r with
  | Sglist i y a l => cb_sglist (mmu_cb (cb x)) p i y a l
  | Region i b8 i8 b4 i4 b0 i0 => cb_region (mmu_cb (cb x)) p i b8 i8 b4 i4 b0 i0
  | IdRequest fd => cb_idRequest (mmu_cb (cb x)) p fd
  | IdReturn i => cb_idReturn (mmu_cb (cb x)) p i
  | SetInterface f i => cb_setInterface (mmu_cb (cb x)) p f i
  end.

(** Every proxy function is the generic marshalling of its request. *)
Lemma mmu_call_send p r w :
  mmu_call p r w = portal_send tab p (req_chan r) (encode r) (req_fd r) w.
Proof.
  destruct r; cbn [mmu_call encode req_chan req_fd];
    unfold MMURequest_sglist, MMURequest_region, MMURequest_idRequest, MMURequest_idReturn,
      MMURequest_setInterface, portal_send;
    cbn [write_args]; repeat bind_cong.
Qed.

Lemma read_words_inv it p a n l w w' :
  read_words it p a (S n) w = Ok l w' ->
  exists v a1 w1 l1, l = v :: l1 /\ it_read it p a w = Ok (v, a1) w1 /\
    read_words it p a1 n w1 = Ok l1 w'.
Proof.
  cbn. intros ([v a1] & w1 & H1 & (l1 & w2 & H2 & H3)%bind_ok_inv)%bind_ok_inv.
  injection H3 as <- <-. eauto 10.
Qed.

Lemma read_words_length it p a n l w w' : read_words it p a n w = Ok l w' -> length l = n.
Proof.
  revert a l w. induction n as [|n IH]; intros a l w H.
  - by injection H as <- <-.
  - apply read_words_inv in H as (v & a1 & w1 & l1 & -> & _ & H%IH). cbn. by rewrite H.
Qed.

Lemma read_u32_ok it p a v a' w w' :
  it_read it p a w = Ok (v, a') w' -> in_u32 v -> read_u32 it p a w = Ok (v, a') w'.
Proof.
  intros H Hv. unfold read_u32. rewrite (bind_ok _ _ _ _ _ H).
  rewrite land_ffffffff, Z.mod_small, u32_small by exact Hv. done.
Qed.

Lemma read_u64_ok it p a v1 v2 a1 a2 w w1 w2 :
  it_read it p a w = Ok (v1, a1) w1 -> in_u32 v1 ->
  it_read it p a1 w1 = Ok (v2, a2) w2 -> in_u32 v2 ->
  read_u64 it p a w = Ok (join64 v1 v2, a2) w2.
Proof.
  unfold in_u32. intros H1 Hv1 H2 Hv2.
  unfold read_u64. rewrite (bind_ok _ _ _ _ _ H1). cbn zeta beta iota.
  rewrite (bind_ok _ _ _ _ _ H2). unfold join64.
  rewrite land_ffffffff, Z.mod_small, (u64_small v1) by lia.
  rewrite u64_small by (rewrite Z.shiftl_mul_pow2; lia).
  change 0xffffffffffffffff with (2 ^ 64 - 1).
  rewrite land_ones_mod, (Z.mod_small v2), u64_small by lia.
  by rewrite lor_shiftl_add by lia.
Qed.

Ltac inv_reads :=
  repeat match goal with
  | H : read_words _ _ _ (S _) _ = Ok _ _ |- _ =>
      apply read_words_inv in H as (? & ? & ? & ? & ? & ? & H); simplify_eq
  | H : _ = Ok [] _ |- _ => apply ret_inv in H as [_ ->]
  end; decompose_Forall_hyps.

Ltac step_read :=
  cbn beta iota;
  first [ erewrite bind_ok by (eapply read_u32_ok; eassumption)
        | erewrite bind_ok by (eapply read_u64_ok; eassumption)
        | erewrite bind_ok by eassumption ].

(** The dispatcher calls the callback with the request the words denote, after
    taking the words from the transport. *)
Lemma handleMessage_recv p x chan fd n l r w w' :
  w_pints w !! p = Some x ->
  portal_recv tab p chan n w = Ok l w' -> Forall in_u32 l ->
  decode chan l fd = Some r ->
  MMURequest_handleMessage tab mmu_cb p chan fd w = (mmu_dispatch x p r ;; mret 0) w'.
Proof.
  intros Hp Hr Hl Hd.
  unfold portal_recv in Hr. rewrite (bind_ok _ _ _ _ _ (get_pint_ok _ _ _ Hp)) in Hr.
  apply bind_ok_inv in Hr as (a & w1 & Ha & (y & w2 & Hy & Hr)%bind_ok_inv).
  pose proof (read_words_length _ _ _ _ _ _ _ Hr) as <-.
  unfold MMURequest_handleMessage.
  rewrite (bind_ok _ _ _ _ _ (get_pint_ok _ _ _ Hp)), (bind_ok _ _ _ _ _ Ha).
  unfold decode in Hd. repeat case_match; simplify_eq; cbn [length Z.of_nat] in *;
    unfold CHAN_NUM_MMURequest_sglist, CHAN_NUM_MMURequest_region, CHAN_NUM_MMURequest_idRequest,
      CHAN_NUM_MMURequest_idReturn, CHAN_NUM_MMURequest_setInterface;
    repeat (first [rewrite decide_True by lia | rewrite decide_False by lia]);
    erewrite bind_ok by exact Hy; inv_reads; do 10 try step_read; reflexivity.
Qed.

End CodecFacts.

(** The dispatcher uses three operations of the portal's table. *)
Lemma handleMessage_ext {K} (t1 t2 : ItemId -> PortalItemFunctions K) mmu_cb p c fd w :
  (forall i, it_mapchannelInd (t1 i) = it_mapchannelInd (t2 i)) ->
  (forall i, it_recv (t1 i) = it_recv (t2 i)) -> (forall i, it_read (t1 i) = it_read (t2 i)) ->
  MMURequest_handleMessage t1 mmu_cb p c fd w = MMURequest_handleMessage t2 mmu_cb p c fd w.
Proof.
  intros H1 H2 H3. unfold MMURequest_handleMessage. apply bind_ext. intros x w'.
  unfold item_of. destruct (item x) as [i|]; [|done].
  unfold read_u32, read_u64. rewrite H1, H2, H3. done.
Qed.

(** * Properties *)

(** C36: Marshalling loses nothing. Every proxy function waits for its transport
    and sends one message under its channel, of at most [MMURequest_reqsize]
    bytes; and on whatever transport the words of that message are received,
    [MMURequest_handleMessage] takes exactly these words and makes the one
    callback of the request, with the arguments the proxy was called with. *)
Theorem mmu_request_roundtrip {K} `{!Device K} (tab tab' : ItemId -> PortalItemFunctions K) p r w :
  req_ok r ->
  let words := encode r in
  mmu_call tab p r w = portal_send tab p (req_chan r) words (req_fd r) w /\
  4 * (1 + Z.of_nat (length words)) <= MMURequest_reqsize /\
  forall mmu_cb p' x n w1 w2, w_pints w1 !! p' = Some x ->
      portal_recv tab' p' (req_chan r) n w1 = Ok (map arg_val words) w2 ->
      MMURequest_handleMessage tab' mmu_cb p' (req_chan r) (req_fd r) w1 = (mmu_dispatch mmu_cb x p' r ;; mret 0) w2.
Proof.
  intros H words. split; [apply mmu_call_send|]. split; [by destruct r|].
  intros mmu_cb p' x n w1 w2 Hp Hr. eapply handleMessage_recv; eauto using encode_in_u32, decode_encode.
Qed.

(** On every transport, [MMURequest_handleMessage] for the words of a request
    takes exactly those words and then makes the one callback of the request,
    with its arguments. *)
Theorem handleMessage_dispatches {K} (tab : ItemId -> PortalItemFunctions K) mmu_cb p x r fd n w w' :
  w_pints w !! p = Some x -> req_ok r -> fd = req_fd r ->
  portal_recv tab p (req_chan r) n w = Ok (map arg_val (encode r)) w' ->
  MMURequest_handleMessage tab mmu_cb p (req_chan r) fd w = (mmu_dispatch mmu_cb x p r ;; mret 0) w'.
Proof.
  intros Hp Hok -> Hr. eapply handleMessage_recv; eauto using encode_in_u32, decode_encode.
Qed.

(** A message on a channel the interface does not have makes no callback; the
    dispatcher tolerates eleven of them and exits at the twelfth. *)
Theorem handleMessage_unknown {K} (tab : ItemId -> PortalItemFunctions K) mmu_cb p x chan fd a w w' :
  w_pints w !! p = Some x -> 5 <= chan ->
  it_mapchannelInd (item_of tab x) p chan w = Ok a w' ->
  MMURequest_handleMessage tab mmu_cb p chan fd w =
    let w'' := set_w_glob (set_runaway (runaway (w_glob w') + 1) (w_glob w')) w' in
    if decide (runaway (w_glob w') <= 10) then Ok 0 w'' else Exit (-1) w''.
Proof.
  intros Hp Hc Ha. unfold MMURequest_handleMessage.
  rewrite (bind_ok _ _ _ _ _ (get_pint_ok _ _ _ Hp)), (bind_ok _ _ _ _ _ Ha).
  unfold CHAN_NUM_MMURequest_sglist, CHAN_NUM_MMURequest_region, CHAN_NUM_MMURequest_idRequest,
    CHAN_NUM_MMURequest_idReturn, CHAN_NUM_MMURequest_setInterface.
  do 5 rewrite decide_False by lia.
  unfold mbind, M_bind, get_glob, put_glob, modifyW. cbn zeta.
  destruct (decide (runaway (w_glob w') > 10)), (decide (runaway (w_glob w') <= 10)); done || lia.
Qed.

(** A transport that delivers the same three words for ever, for the witnesses. *)
Module CodecDemo.
Definition it : PortalItemFunctions nat :=
  {| it_init := fun _ _ => mret 0; it_read := fun _ a => mret (5, a);
     it_write := fun _ a _ => mret a; it_writefd := fun _ a _ => mret a;
     it_mapchannelInd := fun _ _ => mret NULL; it_mapchannelReq := fun _ _ => mret NULL;
     it_send := fun _ _ _ _ => mret tt; it_recv := fun _ _ _ => mret (0, None);
     it_busywait := fun _ _ => mret 0; it_enableint := fun _ _ => mret tt;
     it_event := fun _ => mret (-1) |}.
Definition tab (_ : ItemId) : PortalItemFunctions nat := it.
Definition count (n : nat) : M (World nat) unit := modifyW (set_w_kern n).
Definition cbs (_ : ptr) : MMURequestCb :=
  {| cb_sglist := fun _ _ _ _ _ => count 1; cb_region := fun _ _ _ _ _ _ _ _ => count 2;
     cb_idRequest := fun _ _ => count 3; cb_idReturn := fun _ i => count (Z.to_nat i);
     cb_setInterface := fun _ _ _ => count 4 |}.
Definition world (runs : Z) (k : nat) : World nat :=
  set_w_pints (<[0%nat := set_item (Some sharedfunc) PortalInternal_zero]> ∅)
    (set_w_glob (set_runaway runs (w_glob (start_world k))) (start_world k)).
#[local] Instance dev : Device nat :=
  {| mmio_read := fun _ k => (0, k); mmio_write := fun _ _ k => k; dev_tick := fun k => k |}.

(** The words of [idReturn(5)], received on the transport [tab], make its callback. *)
Lemma mmu_request_roundtrip_witness :
  mmu_call tab 0 (IdReturn 5) (world 0 0) = portal_send tab 0 3 (encode (IdReturn 5)) (-1) (world 0 0) /\
  portal_recv tab 0 3 1 (world 0 0) = Ok (map arg_val (encode (IdReturn 5))) (world 0 0) /\
  MMURequest_handleMessage tab cbs 0 3 (-1) (world 0 0) = Ok 0 (world 0 5).
Proof.
  destruct (mmu_request_roundtrip tab tab 0 (IdReturn 5) (world 0 0)) as (Hc & _ & Hr).
  - vm_compute. split; discriminate || reflexivity.
  - split; [exact Hc|]. split; [reflexivity|].
    exact (Hr cbs 0%nat (set_item (Some sharedfunc) PortalInternal_zero) 1%nat (world 0 0) (world 0 0) eq_refl eq_refl).
Defined.

Lemma handleMessage_dispatches_witness :
  MMURequest_handleMessage tab cbs 0 3 (-1) (world 0 0) = Ok 0 (world 0 5).
Proof.
  apply (handleMessage_dispatches tab cbs 0 (set_item (Some sharedfunc) PortalInternal_zero)
           (IdReturn 5) (-1) 1 (world 0 0) (world 0 0)).
  - reflexivity.
  - vm_compute. split; discriminate || reflexivity.
  - reflexivity.
  - reflexivity.
Defined.

Lemma handleMessage_unknown_witness :
  MMURequest_handleMessage tab cbs 0 9 0 (world 11 0) = Exit (-1) (world 12 0).
Proof.
  apply (handleMessage_unknown tab cbs 0 (set_item (Some sharedfunc) PortalInternal_zero)
           9 0 NULL (world 11 0) (world 11 0)).
  - reflexivity.
  - lia.
  - reflexivity.
Defined.
End CodecDemo.
