(* ===== verification/SharedRpc.v ===== *)
(** Requests over the shared-memory ring: the generated code of
    [PortalCodec] run on the transport of [PortalShared].

    - [busywait_shared] waits until the ring has room, and terminates when the
      reader keeps reading;
    - a proxy call appends exactly its message to the ring;
    - delivering the first message with [MMURequest_handleMessage] as the
      handler calls the callback with the arguments the caller passed. *)

From stdpp Require Import base gmap list fin_maps.
From Stdlib Require Import ZArith Lia.
From S2P Require Import Prelude PortalTypes PortalCore PortalShared PortalCodec.

Section SharedRpc.
Context {K : Type} `{!Device K} `{!PortalOs K}.
Local Abbreviation W := (World K).
Implicit Types (w : W) (x : PortalInternal).

(** Portal [p] is open on the ring in block [b], whose unread messages are [q]. *)
Record ring_portal (b : nat) (L Rw : Z) (p : nat) (w : W) x (r wr : Z) (q : list msg) : Prop := {
  rp_pint : w_pints w !! p = Some x;
  rp_base : map_base x = Pblk b 0;
  rp_Rw : shared_reqwords x = Rw;
  rp_item : item x = Some sharedfunc;
  rp_ring : ring_ok b L Rw (w_mem w) r wr q
}.

(** * Waiting for room *)

Lemma busywait_loop_ready fuel p w x b L Rw r wr q :
  ring_portal b L Rw p w x r wr q -> room L r wr > 2 * Rw ->
  busywait_loop fuel p L Rw w = Ok 0 w.
Proof.
  intros [Hp Hb _ _ HR] Hroom.
  pose proof HR as [_ Hw Hr _ HL HRw (Hr1 & Hr2 & _) (Hw1 & Hw2 & _) _].
  destruct fuel; cbn [busywait_loop];
    rewrite (bind_ok _ _ _ _ _ (mb_load_ok _ _ _ _ _ _ Hp Hb Hw));
    rewrite (bind_ok _ _ _ _ _ (mb_load_ok _ _ _ _ _ _ Hp Hb Hr));
    unfold room, SHARED_START in *; rewrite (s32_small wr), (s32_small r) by lia;
    rewrite (decide_True (P := (if decide (wr >= r) then _ else _) > _)); try done;
    case_decide; rewrite s32_small; lia.
Qed.

Lemma busywait_shared_ready p a w x b L Rw r wr q :
  ring_portal b L Rw p w x r wr q -> room L r wr > 2 * Rw ->
  busywait_shared p a w = Ok 0 w.
Proof.
  intros HP Hroom. pose proof HP as [Hp Hb HRw _ HR]. unfold busywait_shared.
  rewrite (bind_ok _ _ _ _ _ (get_pint_ok _ _ _ Hp)).
  rewrite (bind_ok _ _ _ _ _ (mb_load_ok _ _ _ _ _ _ Hp Hb (rk_limit _ _ _ _ _ _ _ HR))).
  unfold mbind at 1, M_bind at 1, getW. rewrite HRw, s32_small.
  - eapply busywait_loop_ready; eauto.
  - pose proof (rk_L _ _ _ _ _ _ _ HR). pose proof (rk_r _ _ _ _ _ _ _ HR).
    unfold SHARED_START in *. pose proof (rk_Rw _ _ _ _ _ _ _ HR). lia.
Qed.

(** The stores of a reader that takes the messages [q] one at a time. *)
Fixpoint reader_sched (b : nat) (L Rw r : Z) (q : list msg) : list (list (nat * Z * Z)) :=
  match q with
  | [] => []
  | m :: q => let r' := next_index L Rw (r + msg_size m) in
              [(b, SHARED_READ, r')] :: reader_sched b L Rw r' q
  end.

(** A turn in which the reader takes the first message. *)
Lemma await_reader p w x b L Rw r wr m q rest :
  ring_portal b L Rw p w x r wr (m :: q) ->
  w_sched w = reader_sched b L Rw r (m :: q) ++ rest ->
  exists w', await w = Ok tt w' /\
    ring_portal b L Rw p w' x (next_index L Rw (r + msg_size m)) wr q /\
    w_sched w' = reader_sched b L Rw (next_index L Rw (r + msg_size m)) q ++ rest.
Proof.
  intros [Hp Hb HRw Hi HR] Hs. unfold await. rewrite Hs. cbn.
  pose proof (ring_head _ _ _ _ _ _ _ _ HR) as ((_ & Hsz & _) & _).
  pose proof HR as [_ _ Hr _ HL HR0 (? & ? & _) _ _]. rewrite Hr.
  eexists. split; [done|]. split; [|done]. split; try done. cbn.
  eapply ring_dequeue; [exact HR| |].
  - rewrite lookup_insert_eq, u32_small; [done|]. pose proof (msg_size_bounds m).
    unfold next_index, SHARED_START in *. case_decide; lia.
  - intros a Ha. apply lookup_insert_ne. congruence.
Qed.

Lemma room_empty L Rw r : L > 2 * Rw + 4 -> room L r r > 2 * Rw.
Proof. intros H. unfold room. rewrite decide_True; lia. Qed.

(** The loop ends while the reader reads: at the latest when the ring is drained. *)
Lemma busywait_loop_drains p x b L Rw wr rest q : forall fuel r w,
  ring_portal b L Rw p w x r wr q -> L > 2 * Rw + 4 ->
  w_sched w = reader_sched b L Rw r q ++ rest -> (length q <= fuel)%nat ->
  exists j r' w', busywait_loop fuel p L Rw w = Ok 0 w' /\
    ring_portal b L Rw p w' x r' wr (drop j q) /\ room L r' wr > 2 * Rw.
Proof.
  induction q as [|m q IH]; intros fuel r w HP HL Hs Hf.
  - exists O, r, w. rewrite drop_nil. assert (Hroom : room L r wr > 2 * Rw).
    { destruct (proj1 (ring_empty _ _ _ _ _ _) (rp_ring _ _ _ _ _ _ _ _ _ HP)) as [_ ->].
      by apply room_empty. }
    split_and!; [by eapply busywait_loop_ready|done|done].
  - destruct (decide (room L r wr > 2 * Rw)) as [Hroom|Hroom].
    { exists O, r, w. split_and!; [by eapply busywait_loop_ready|done|done]. }
    destruct fuel as [|fuel]; [cbn in Hf; lia|].
    destruct (await_reader _ _ _ _ _ _ _ _ _ _ _ HP Hs) as (w1 & Hw1 & HP1 & Hs1).
    destruct (IH fuel _ w1 HP1 HL Hs1) as (j & r' & w' & Hrun & HP' & Hroom'); [cbn in Hf; lia|].
    exists (S j), r', w'. split_and!; [|done|done].
    destruct HP as [Hp Hb _ _ HR].
    pose proof HR as [_ Hw Hr _ HLb HRw (Hr1 & Hr2 & _) (Hw1' & Hw2 & _) _].
    cbn [busywait_loop].
    rewrite (bind_ok _ _ _ _ _ (mb_load_ok _ _ _ _ _ _ Hp Hb Hw)).
    rewrite (bind_ok _ _ _ _ _ (mb_load_ok _ _ _ _ _ _ Hp Hb Hr)).
    unfold room, SHARED_START in *. rewrite (s32_small wr), (s32_small r) by lia.
    rewrite (decide_False (P := (if decide (wr >= r) then _ else _) > _)).
    + by rewrite (bind_ok _ _ _ _ _ Hw1).
    + repeat case_decide; rewrite s32_small; lia.
Qed.

Lemma length_reader_sched b L Rw r q : length (reader_sched b L Rw r q) = length q.
Proof. revert r. induction q as [|m q IH]; intros r; cbn; [done|]. by rewrite IH. Qed.

Lemma busywait_shared_drains p a x b L Rw r wr rest q w :
  ring_portal b L Rw p w x r wr q -> L > 2 * Rw + 4 ->
  w_sched w = reader_sched b L Rw r q ++ rest ->
  exists j r' w', busywait_shared p a w = Ok 0 w' /\
    ring_portal b L Rw p w' x r' wr (drop j q) /\ room L r' wr > 2 * Rw.
Proof.
  intros HP HL Hs. pose proof HP as [Hp Hb HRw _ HR].
  destruct (busywait_loop_drains p x b L Rw wr rest q (length (w_sched w)) r w)
    as (j & r' & w' & Hrun & HP' & Hroom); try done.
  { rewrite Hs, length_app, length_reader_sched. lia. }
  exists j, r', w'. split_and!; [|done|done]. unfold busywait_shared.
  rewrite (bind_ok _ _ _ _ _ (get_pint_ok _ _ _ Hp)).
  rewrite (bind_ok _ _ _ _ _ (mb_load_ok _ _ _ _ _ _ Hp Hb (rk_limit _ _ _ _ _ _ _ HR))).
  unfold mbind at 1, M_bind at 1, getW. rewrite HRw, s32_small; [done|].
  pose proof (rk_L _ _ _ _ _ _ _ HR). pose proof (rk_Rw _ _ _ _ _ _ _ HR). lia.
Qed.

(** * Marshalling into memory *)

Definition arg_word (a : arg) : Z := u32 (arg_val a).

Lemma write_args_mem (it : PortalItemFunctions K) p b l : forall o w,
  it_write it = write_portal_memory -> it_writefd it = write_fd_portal_memory ->
  (forall a, o <= a < o + Z.of_nat (length l) -> is_Some (w_mem w !! (b, a))) ->
  exists mem', write_args it p (Pblk b o) l w =
      Ok (Pblk b (o + Z.of_nat (length l))) (set_w_mem mem' w) /\
    words_at b mem' o (map arg_word l) /\
    (forall b' a, ~ (b' = b /\ o <= a < o + Z.of_nat (length l)) ->
       mem' !! (b', a) = w_mem w !! (b', a)) /\
    (forall k, is_Some (w_mem w !! k) -> is_Some (mem' !! k)).
Proof.
  intros o w Hw Hwf. revert o w. induction l as [|v l IH]; intros o w Hal.
  - exists (w_mem w). cbn. split_and!; try done.
    + unfold mret, M_ret. f_equal; [f_equal; lia|by destruct w].
  - destruct (Hal o) as [v0 Hv0]; [cbn; lia|].
    destruct (IH (o + 1) (set_w_mem (<[(b, o) := arg_word v]> (w_mem w)) w))
      as (mem' & Hrun & Hws & Hf & Hk).
    { intros a Ha. cbn. apply is_Some_insert, Hal. cbn. lia. }
    exists mem'. cbn [length]. rewrite Nat2Z.inj_succ. split_and!.
    + replace (o + Z.succ (Z.of_nat (length l))) with (o + 1 + Z.of_nat (length l)) by lia.
      destruct v; cbn [write_args]; rewrite ?Hw, ?Hwf;
        unfold write_portal_memory, write_fd_portal_memory; rewrite bind_assoc;
        rewrite (bind_ok _ _ _ _ _ (store_blk _ _ _ _ _ Hv0)), bind_ret; exact Hrun.
    + intros [|i] u Hu; cbn in Hu.
      * injection Hu as <-. rewrite Hf by (cbn; lia). cbn. rewrite Z.add_0_r. apply lookup_insert_eq.
      * replace (o + Z.of_nat (S i)) with (o + 1 + Z.of_nat i) by lia. by apply Hws.
    + intros b' a Ha. rewrite Hf by lia. cbn. apply lookup_insert_ne. intros [= -> ->]. lia.
    + intros k Hk'. apply Hk. cbn. by apply is_Some_insert.
Qed.

Lemma read_words_mem (it : PortalItemFunctions K) p b w l : forall o,
  it_read it = read_portal_memory -> words_at b (w_mem w) o l ->
  read_words it p (Pblk b o) (length l) w = Ok l w.
Proof.
  intros o Hr. revert o. induction l as [|v l IH]; intros o Hl; [done|].
  cbn. rewrite Hr. unfold read_portal_memory. rewrite bind_assoc.
  assert (Hv : w_mem w !! (b, o) = Some v) by (rewrite <- (Z.add_0_r o); by apply (Hl O)).
  rewrite (bind_ok _ _ _ _ _ (load_blk _ _ _ _ Hv)), bind_ret.
  cbn [ptr_add]. rewrite (bind_ok _ _ _ l w); [done|]. apply IH.
  intros i u Hu. replace (o + 1 + Z.of_nat i) with (o + Z.of_nat (S i)) by lia. by apply Hl.
Qed.

(** * Sending and receiving over the ring *)

Variable tab : ItemId -> PortalItemFunctions K.
Variable hcall : nat -> nat -> Z -> Z -> M W Z.
Variable dma_reference : nat -> Z -> M W Z.
Variable dma_setInterface : nat -> Z -> Z -> M W unit.
Hypothesis Htab : tab sharedfunc = sharedfunc_table hcall dma_reference dma_setInterface.

Lemma item_shared x : item x = Some sharedfunc ->
  item_of tab x = sharedfunc_table hcall dma_reference dma_setInterface.
Proof. intros H. unfold item_of. by rewrite H. Qed.

Lemma hdr_lor chan (l : list arg) :
  0 <= chan -> 1 + Z.of_nat (length l) < 65536 ->
  Z.lor (Z.shiftl chan 16) (1 + Z.of_nat (length l)) = msg_hdr (chan, map arg_word l).
Proof.
  intros Hc Hl. rewrite lor_shiftl_add by lia.
  unfold msg_hdr, msg_words. cbn. rewrite length_map. lia.
Qed.

(** With room in the ring, a call appends its message and changes nothing else
    than words of the ring's block. *)
Lemma portal_send_shared p chan l fd w x b L Rw r wr q :
  ring_portal b L Rw p w x r wr q -> room L r wr > 2 * Rw ->
  0 <= chan < 65535 -> msg_size (chan, map arg_word l) <= Rw ->
  exists mem', portal_send tab p chan l fd w = Ok tt (set_w_mem mem' w) /\
    ring_portal b L Rw p (set_w_mem mem' w) x r
      (next_index L Rw (wr + msg_size (chan, map arg_word l))) (q ++ [(chan, map arg_word l)]) /\
    (forall b' a, b' <> b -> mem' !! (b', a) = w_mem w !! (b', a)).
Proof.
  intros HP Hroom Hc Hsz. set (m := (chan, map arg_word l)) in *.
  pose proof HP as [Hp Hb HRw Hi HR].
  pose proof HR as [_ Hw _ Hal HLb HRb _ (Hw1 & Hw2 & _) _].
  pose proof (msg_size_bounds m) as Hms. unfold msg_words in Hms. cbn in Hms.
  rewrite length_map in Hms. unfold SHARED_START in *.
  destruct (write_args_mem (sharedfunc_table hcall dma_reference dma_setInterface) p b l (wr + 1) w)
    as (m1 & Hrun1 & Hws & Hf1 & Hk1); try done.
  { intros a Ha. apply Hal. lia. }
  assert (Hok : msg_ok Rw m).
  { split; [done|]. split; [done|]. unfold m. cbn. apply Forall_map, Forall_true.
    intros a. apply u32_in. }
  assert (HR1 : ring_ok b L (shared_reqwords x) m1 r wr q).
  { rewrite HRw. eapply ring_free; [exact HR|done| |auto]. intros a Ha. apply Hf1. lia. }
  rewrite <- HRw in Hroom, Hok.
  destruct (send_shared_ok p x b L r wr q m (Pblk b (wr + 1)) fd (set_w_mem m1 w))
    as (m2 & Hrun2 & HR2 & Hf2); try done.
  exists m2. split_and!.
  - unfold portal_send. rewrite (bind_ok _ _ _ _ _ (get_pint_ok _ _ _ Hp)).
    rewrite (item_shared _ Hi).
    rewrite (bind_ok _ _ _ (Pblk b (wr + 1)) w).
    2:{ cbn. unfold mapchannel_sharedReq. rewrite (bind_ok _ _ _ _ _ (get_pint_ok _ _ _ Hp)).
        rewrite (bind_ok _ _ _ _ _ (mb_load_ok _ _ _ _ _ _ Hp Hb Hw)), Hb, u32_small by lia.
        done. }
    rewrite (bind_ok _ _ _ 0 w).
    2:{ cbn. eapply busywait_shared_ready; [exact HP|]. by rewrite <- HRw. }
    rewrite decide_False by lia. rewrite (bind_ok _ _ _ _ _ Hrun1).
    rewrite hdr_lor by lia. cbn. fold m. rewrite Hrun2. done.
  - split; try done. cbn. by rewrite <- HRw.
  - intros b' a Hb'. rewrite Hf2 by done. cbn. apply Hf1. tauto.
Qed.

(** The words of the message being delivered. *)
Lemma portal_recv_shared p w x b L Rw r wr m q :
  ring_portal b L Rw p w x r wr (m :: q) ->
  portal_recv tab p (fst m) (length (snd m)) w = Ok (snd m) w.
Proof.
  intros [Hp Hb HRw Hi HR]. destruct (ring_head _ _ _ _ _ _ _ _ HR) as (_ & [_ Hws] & _).
  pose proof HR as [_ _ Hr _ HLb HRb (? & ? & _) _ _]. unfold SHARED_START in *.
  unfold portal_recv. rewrite (bind_ok _ _ _ _ _ (get_pint_ok _ _ _ Hp)), (item_shared _ Hi).
  rewrite (bind_ok _ _ _ (Pblk b (r + 1)) w).
  2:{ cbn. unfold mapchannel_sharedInd. rewrite (bind_ok _ _ _ _ _ (get_pint_ok _ _ _ Hp)).
      rewrite (bind_ok _ _ _ _ _ (mb_load_ok _ _ _ _ _ _ Hp Hb Hr)), Hb, u32_small by lia.
      done. }
  cbn. unfold recv_portal_null. rewrite bind_ret. by apply read_words_mem.
Qed.

(** * Requests over the ring *)

(** The message of a request. *)
Definition req_msg (rq : MMUReq) : msg := (req_chan rq, map arg_word (encode rq)).

Lemma req_msg_chan rq : 0 <= fst (req_msg rq) < 65535.
Proof. by destruct rq. Qed.

Lemma arg_word_encode rq : map arg_word (encode rq) = map arg_val (encode rq).
Proof.
  apply map_ext_Forall. pose proof (encode_in_u32 rq) as H. rewrite Forall_map in H.
  eapply Forall_impl; [exact H|]. intros a Ha. by apply u32_small.
Qed.

Lemma req_msg_decode rq : req_ok rq ->
  decode (fst (req_msg rq)) (snd (req_msg rq)) 0 = Some (as_delivered rq).
Proof.
  intros H. cbn. rewrite arg_word_encode. pose proof (decode_encode _ H) as Hd.
  destruct rq; try exact Hd. done.
Qed.

(** The room [busywait_shared] and [increment_shared] reserve for a portal of
    [MMURequest_reqsize] bytes is enough for every request. *)
Lemma req_msg_fits x rq :
  reqsize x = MMURequest_reqsize -> msg_size (req_msg rq) <= shared_reqwords x.
Proof. intros H. unfold shared_reqwords. rewrite H. by destruct rq. Qed.

Variable mmu_cb : ptr -> MMURequestCb (K := K).
Variable h : nat.
Hypothesis Hh : forall p c fd w,
  hcall h p c fd w = MMURequest_handleMessage tab mmu_cb p c fd w.

Lemma mmu_call_shared p rq w x b L Rw r wr q :
  ring_portal b L Rw p w x r wr q -> room L r wr > 2 * Rw ->
  msg_size (req_msg rq) <= Rw ->
  exists mem', mmu_call tab p rq w = Ok tt (set_w_mem mem' w) /\
    ring_portal b L Rw p (set_w_mem mem' w) x r
      (next_index L Rw (wr + msg_size (req_msg rq))) (q ++ [req_msg rq]) /\
    (forall b' a, b' <> b -> mem' !! (b', a) = w_mem w !! (b', a)).
Proof.
  intros HP Hroom Hsz. rewrite mmu_call_send.
  apply (portal_send_shared p (req_chan rq) (encode rq)); try done. apply req_msg_chan.
Qed.

(** The handler, on the first message of the ring, is the callback of the request. *)
Lemma handle_shared p fd w x b L Rw r wr rq q :
  ring_portal b L Rw p w x r wr (req_msg rq :: q) -> req_ok rq -> fd = 0 ->
  hcall h p (fst (req_msg rq)) fd w = (mmu_dispatch mmu_cb x p (as_delivered rq) ;; mret 0) w.
Proof.
  intros HP Hok ->. rewrite Hh. eapply handleMessage_recv.
  - by destruct HP.
  - exact (portal_recv_shared _ _ _ _ _ _ _ _ _ _ HP).
  - destruct (ring_head _ _ _ _ _ _ _ _ (rp_ring _ _ _ _ _ _ _ _ _ HP)) as ((_ & _ & H) & _). done.
  - by apply req_msg_decode.
Qed.

(** ** A sender and a receiver *)

(** The abstract ring: the indices, the requests in flight, the requests
    delivered so far. *)
Record rpc_state : Type := {
  st_read : Z; st_write : Z; st_queue : list MMUReq; st_log : list MMUReq }.

Inductive rpc_op : Type := OpSend (rq : MMUReq) | OpDeliver.

Definition abs_op (L Rw : Z) (o : rpc_op) (s : rpc_state) : option rpc_state :=
  match o with
  | OpSend rq =>
      if decide (room L (st_read s) (st_write s) > 2 * Rw) then
        Some {| st_read := st_read s;
                st_write := next_index L Rw (st_write s + msg_size (req_msg rq));
                st_queue := st_queue s ++ [rq]; st_log := st_log s |}
      else None
  | OpDeliver =>
      match st_queue s with
      | [] => Some s
      | rq :: q =>
          Some {| st_read := next_index L Rw (st_read s + msg_size (req_msg rq));
                  st_write := st_write s; st_queue := q;
                  st_log := st_log s ++ [as_delivered rq] |}
      end
  end.

Fixpoint abs_run (L Rw : Z) (ops : list rpc_op) (s : rpc_state) : option rpc_state :=
  match ops with
  | [] => Some s
  | o :: ops => s ← abs_op L Rw o s; abs_run L Rw ops s
  end.

(** The program: the sender calls proxies on [ps], the receiver polls [pr]. *)
Definition run_op (ps pr : nat) (o : rpc_op) : M W unit :=
  match o with
  | OpSend rq => mmu_call tab ps rq
  | OpDeliver => event_shared hcall pr ;; mret tt
  end.

Fixpoint run_ops (ps pr : nat) (ops : list rpc_op) : M W unit :=
  match ops with
  | [] => mret tt
  | o :: ops => run_op ps pr o ;; run_ops ps pr ops
  end.

Definition sent (ops : list rpc_op) : list MMUReq :=
  omap (fun o => match o with OpSend rq => Some rq | OpDeliver => None end) ops.

(** FIFO: what was delivered, followed by what is in flight, is what was sent. *)
Lemma abs_run_fifo L Rw ops : forall s s',
  abs_run L Rw ops s = Some s' ->
  st_log s' ++ map as_delivered (st_queue s') =
  (st_log s ++ map as_delivered (st_queue s)) ++ map as_delivered (sent ops).
Proof.
  induction ops as [|o ops IH]; intros s s'; cbn.
  - intros [= <-]. by rewrite app_nil_r.
  - intros (s1 & Hs1 & H%IH)%bind_Some. rewrite H. unfold sent. destruct o as [rq|]; cbn in *.
    + case_decide; [|done]. injection Hs1 as <-. cbn. rewrite map_app, <- !app_assoc. done.
    + destruct (st_queue s) eqn:Hq; injection Hs1 as <-; cbn; [by rewrite Hq|].
      by rewrite <- !app_assoc.
Qed.

(** The callbacks append the request to a log kept outside the program. *)
Variable log : K -> list MMUReq.
Variable push : MMUReq -> K -> K.
Hypothesis Hlog : forall rq k, log (push rq k) = log k ++ [rq].
Hypothesis Hcb : forall x p rq w, mmu_dispatch mmu_cb x p rq w = Ok tt (set_w_kern (push rq (w_kern w)) w).

(** The concrete world represents the abstract state. *)
Record rpc_rel (b : nat) (L Rw : Z) (ps pr : nat) xs xr (w : W) (s : rpc_state) : Prop := {
  rr_send : ring_portal b L Rw ps w xs (st_read s) (st_write s) (map req_msg (st_queue s));
  rr_recv : ring_portal b L Rw pr w xr (st_read s) (st_write s) (map req_msg (st_queue s));
  rr_handler : handler xr = Some h;
  rr_size : reqsize xs = MMURequest_reqsize;
  rr_ok : Forall req_ok (st_queue s);
  rr_log : log (w_kern w) = st_log s
}.

Definition op_ok (o : rpc_op) : Prop := match o with OpSend rq => req_ok rq | OpDeliver => True end.

Lemma rpc_step b L Rw ps pr xs xr w s o s' :
  rpc_rel b L Rw ps pr xs xr w s -> op_ok o -> abs_op L Rw o s = Some s' ->
  exists w', run_op ps pr o w = Ok tt w' /\ rpc_rel b L Rw ps pr xs xr w' s'.
Proof.
  intros [HS HR Hhd Hsz Hok Hlg] Hop Ha. destruct o as [rq|]; cbn in *.
  - case_decide as Hroom; [|done]. injection Ha as <-.
    destruct (mmu_call_shared ps rq w xs b L Rw _ _ _ HS Hroom) as (mem' & Hrun & HS' & _).
    { rewrite <- (rp_Rw _ _ _ _ _ _ _ _ _ HS). by apply req_msg_fits. }
    eexists. split; [exact Hrun|]. destruct HR, HS'. split; cbn in *;
      rewrite ?map_app, ?Forall_app; cbn; auto; split; auto.
  - destruct (st_queue s) as [|rq q] eqn:Hq.
    + injection Ha as <-. exists w. rewrite (bind_ok _ _ _ (-1) w).
      * split; [done|]. split; rewrite ?Hq; done.
      * destruct HR as [? ? <- ? ?]. eapply event_shared_empty; eauto.
    + injection Ha as <-. inversion Hok as [|? ? Hrq Hok']; subst. cbn in HR, HS.
      destruct HS as [Hps ? ? ? ?].
      destruct (event_shared_ok hcall pr xr b L (st_read s) (st_write s) (req_msg rq)
                  (map req_msg q) h 0 xr (st_write s) (map req_msg q) w
                  (set_w_kern (push (as_delivered rq) (w_kern w)) w))
        as (mem' & Hrun & HR' & _).
      all: try (destruct HR as [? ? <- ? ?]; done).
      { rewrite (handle_shared _ _ _ _ _ _ _ _ _ _ _ HR Hrq eq_refl).
        by rewrite (bind_ok _ _ _ _ _ (Hcb _ _ _ _)). }
      eexists. rewrite (bind_ok _ _ _ _ _ Hrun). split; [done|].
      destruct HR as [? ? HRw ? ?]. rewrite HRw in HR'.
      split; cbn; try done. by rewrite Hlog, Hlg.
Qed.

Lemma rpc_run b L Rw ps pr xs xr ops : forall w s s',
  rpc_rel b L Rw ps pr xs xr w s -> Forall op_ok ops -> abs_run L Rw ops s = Some s' ->
  exists w', run_ops ps pr ops w = Ok tt w' /\ rpc_rel b L Rw ps pr xs xr w' s'.
Proof.
  induction ops as [|o ops IH]; intros w s s' Hrel Hops; cbn.
  - intros [= <-]. exists w. done.
  - intros (s1 & Hs1 & Hrun)%bind_Some. inversion Hops; subst.
    destruct (rpc_step _ _ _ _ _ _ _ _ _ _ _ Hrel ltac:(done) Hs1) as (w1 & Hw1 & Hrel1).
    destruct (IH _ _ _ Hrel1 ltac:(done) Hrun) as (w2 & Hw2 & Hrel2).
    exists w2. rewrite (bind_ok _ _ _ _ _ Hw1). done.
Qed.

(** * Properties *)

(** C1: Requests over the shared ring are delivered exactly once, unchanged and
    in order: every sequence of proxy calls and receiver polls for which the
    ring has room when a call is made runs to completion, implements the
    abstract queue, and the requests passed to the callbacks so far followed by
    those still in the ring are the requests sent, in order. *)
Theorem shared_ring_fifo b L Rw ps pr xs xr ops w s s' :
  rpc_rel b L Rw ps pr xs xr w s -> Forall op_ok ops -> abs_run L Rw ops s = Some s' ->
  exists w', run_ops ps pr ops w = Ok tt w' /\ rpc_rel b L Rw ps pr xs xr w' s' /\
    log (w_kern w') ++ map as_delivered (st_queue s') =
    log (w_kern w) ++ map as_delivered (st_queue s ++ sent ops).
Proof.
  intros Hrel Hops Hrun. destruct (rpc_run _ _ _ _ _ _ _ _ _ _ _ Hrel Hops Hrun) as (w' & Hw & Hrel').
  exists w'. split_and!; [done|done|].
  rewrite (rr_log _ _ _ _ _ _ _ _ _ Hrel), (rr_log _ _ _ _ _ _ _ _ _ Hrel').
  rewrite (abs_run_fifo _ _ _ _ _ Hrun), map_app, app_assoc. done.
Qed.

(** C16: [event_shared] with an unread request calls its callback with the
    arguments the proxy was called with (the descriptor of [idRequest] apart,
    which arrives as 0), in the world before the poll, and then moves the read
    index past the message; messages appended meanwhile are kept. *)
Theorem event_shared_delivers p x b L Rw r wr rq q w w' x' wr' q' :
  ring_portal b L Rw p w x r wr (req_msg rq :: q) -> handler x = Some h -> req_ok rq ->
  mmu_dispatch mmu_cb x p (as_delivered rq) w = Ok tt w' ->
  ring_portal b L Rw p w' x' r wr' (req_msg rq :: q') -> reqsize x' = reqsize x ->
  exists w'', event_shared hcall p w = Ok (-1) w'' /\
    ring_portal b L Rw p w'' x' (next_index L Rw (r + msg_size (req_msg rq))) wr' q'.
Proof.
  intros HP Hhd Hok Hd HP' Hsz. pose proof HP as [Hp Hb HRw Hi HR].
  pose proof HP' as [Hp' Hb' HRw' Hi' HR'].
  destruct (event_shared_ok hcall p x b L r wr (req_msg rq) q h 0 x' wr' q' w w')
    as (mem' & Hrun & HR'' & _); try (rewrite ?HRw; done).
  { rewrite (handle_shared _ _ _ _ _ _ _ _ _ _ _ HP Hok eq_refl). by rewrite (bind_ok _ _ _ _ _ Hd). }
  eexists. split; [exact Hrun|]. rewrite HRw in HR''. by split.
Qed.

End SharedRpc.

(** C17: [busywait_shared] terminates: while the reader of the ring takes one
    message per turn, the wait ends at the latest when the ring is drained, and
    it ends in a state with more than twice the space of a message free. *)
Theorem busywait_shared_returns {K} `{!Device K} p a x b L Rw r wr rest q (w : World K) :
  ring_portal b L Rw p w x r wr q -> L > 2 * Rw + 4 ->
  w_sched w = reader_sched b L Rw r q ++ rest ->
  exists j r' w', busywait_shared p a w = Ok 0 w' /\
    ring_portal b L Rw p w' x r' wr (drop j q) /\ room L r' wr > 2 * Rw.
Proof. apply busywait_shared_drains. Qed.

(** C13: [send_shared] on a ring with the room [busywait_shared] waits for appends
    the message whose words lie behind the write index: no unread message is
    overwritten, the indices stay inside the block, a message of odd length is
    padded, and no other block of memory changes. *)
Theorem send_shared_enqueues {K} `{!Device K} p x b L r wr q m buff fd (w : World K) :
  w_pints w !! p = Some x -> map_base x = Pblk b 0 ->
  ring_ok b L (shared_reqwords x) (w_mem w) r wr q ->
  room L r wr > 2 * shared_reqwords x -> msg_ok (shared_reqwords x) m ->
  words_at b (w_mem w) (wr + 1) (snd m) ->
  exists mem', send_shared p buff (msg_hdr m) fd w = Ok tt (set_w_mem mem' w) /\
    ring_ok b L (shared_reqwords x) mem' r
      (next_index L (shared_reqwords x) (wr + msg_size m)) (q ++ [m]) /\
    (forall b' a, b' <> b -> mem' !! (b', a) = w_mem w !! (b', a)).
Proof. apply send_shared_ok. Qed.

(** [init_shared] leaves an empty, well-formed ring of [size / 4] words in the
    mapped block, with both indices at [SHARED_START]. *)
Theorem init_shared_ring {K} `{!Device K} `{!PortalOs K}
    (dma_reference : nat -> Z -> M (World K) Z) (dma_setInterface : nat -> Z -> Z -> M (World K) unit)
    p x b dma size fd k (w w1 : World K) :
  portalAlloc size w = Ok fd w1 ->
  os_mmap fd size (w_kern w1) = (Pblk b 0, k) ->
  w_pints w1 !! p = Some x ->
  (forall o, 0 <= o < size / 4 -> is_Some (w_mem w1 !! (b, o))) ->
  0 <= shared_reqwords x < 65536 -> SHARED_START + shared_reqwords x < size / 4 < 2 ^ 31 ->
  returns_keeping p b (dma_reference dma fd) ->
  (forall id ref, returns_keeping p b (dma_setInterface dma id ref)) ->
  exists w', init_shared dma_reference dma_setInterface p (SharedParam dma size) w = Ok 0 w' /\
    w_pints w' !! p = Some (set_map_base (Pblk b 0) x) /\
    ring_ok b (size / 4) (shared_reqwords x) (w_mem w') SHARED_START SHARED_START [].
Proof. apply init_shared_ok. Qed.

(** * A concrete instance

    A sender (portal 0) and a receiver (portal 1) on a ring of 64 words in
    block 1; the outside world is the list of delivered requests. *)
Module SharedDemo.

#[local] Instance dev : Device (list MMUReq) :=
  {| mmio_read := fun _ k => (0, k); mmio_write := fun _ _ k => k; dev_tick := fun k => k |}.
#[local] Instance os : PortalOs (list MMUReq) :=
  {| os_open_portal := fun _ k => (3, k); os_open_portalmem := fun k => (4, k);
     os_pa_malloc := fun _ _ k => (5, k); os_mmap := fun _ _ k => (Pblk 1 0, k);
     os_errno := fun _ => 0 |}.
Local Abbreviation W := (World (list MMUReq)).

Definition push (rq : MMUReq) (k : list MMUReq) : list MMUReq := k ++ [rq].
Definition record (rq : MMUReq) : M W unit := modifyW (fun w => set_w_kern (push rq (w_kern w)) w).
Definition cbs (_ : ptr) : MMURequestCb :=
  {| cb_sglist := fun _ i y a l => record (Sglist i y a l);
     cb_region := fun _ i b8 i8 b4 i4 b0 i0 => record (Region i b8 i8 b4 i4 b0 i0);
     cb_idRequest := fun _ fd => record (IdRequest fd);
     cb_idReturn := fun _ i => record (IdReturn i);
     cb_setInterface := fun _ f i => record (SetInterface f i) |}.

Definition dref (_ : nat) (_ : Z) : M W Z := mret 9.
Definition dset (_ : nat) (_ _ : Z) : M W unit := mret tt.

(** The receiving operations do not call handlers, so a table without
    handlers serves to define the handler. *)
Definition tab0 (i : ItemId) : PortalItemFunctions (list MMUReq) :=
  match i with sharedfunc => sharedfunc_table (fun _ _ _ _ => fault) dref dset | _ => no_item end.
Definition hcall (h p : nat) (c fd : Z) : M W Z := MMURequest_handleMessage tab0 cbs p c fd.
Definition tab (i : ItemId) : PortalItemFunctions (list MMUReq) :=
  match i with sharedfunc => sharedfunc_table hcall dref dset | _ => no_item end.

Lemma hcall_eq p c fd w : hcall 7 p c fd w = MMURequest_handleMessage tab cbs p c fd w.
Proof. unfold hcall. apply handleMessage_ext; intros []; reflexivity. Qed.

Lemma cbs_log x p rq w : mmu_dispatch cbs x p rq w = Ok tt (set_w_kern (push rq (w_kern w)) w).
Proof. by destruct rq. Qed.

Definition pint : PortalInternal :=
  set_handler (Some 7%nat) (set_reqsize 44 (set_item (Some sharedfunc)
    (set_map_base (Pblk 1 0) PortalInternal_zero))).

Definition mem0 : gmap (nat * Z) Z := fresh_words 1 (fun _ => 0) 64 ∅.
Definition mem : gmap (nat * Z) Z :=
  <[(1%nat, 2) := 4]> (<[(1%nat, 1) := 4]> (<[(1%nat, 0) := 64]> mem0)).
Definition world (m : gmap (nat * Z) Z) (sched : list (list (nat * Z * Z))) : W :=
  set_w_mem m (set_w_sched sched
    (set_w_pints (<[0%nat := pint]> (<[1%nat := pint]> ∅)) (start_world []))).

Lemma mem0_alloc o : 0 <= o < 64 -> is_Some (mem0 !! (1%nat, o)).
Proof. intros Ho. unfold mem0. rewrite fresh_words_lookup by lia. eauto. Qed.

Lemma ring : ring_ok 1 64 12 mem 4 4 [].
Proof.
  apply ring_fresh; try (unfold SHARED_START; lia); try reflexivity.
  intros o Ho. unfold mem. do 3 apply is_Some_insert. by apply mem0_alloc.
Qed.

Lemma portal_ok p sched : p = 0%nat \/ p = 1%nat ->
  ring_portal 1 64 12 p (world mem sched) pint 4 4 [].
Proof. intros [-> | ->]; split; try reflexivity; exact ring. Qed.

Definition s0 : rpc_state := {| st_read := 4; st_write := 4; st_queue := []; st_log := [] |}.

Lemma rel0 : rpc_rel 7 (fun k : list MMUReq => k) 1 64 12 0 1 pint pint (world mem []) s0.
Proof. split; try done; apply portal_ok; auto. Qed.

(** Two requests are sent and the first is delivered. *)
Lemma shared_ring_fifo_witness :
  exists w' s', run_ops tab hcall 0 1
      [OpSend (Sglist 1 0 0x123456789 4096); OpSend (IdReturn 7); OpDeliver]
      (world mem []) = Ok tt w' /\
    st_queue s' = [IdReturn 7] /\
    w_kern w' ++ map as_delivered (st_queue s') = [Sglist 1 0 0x123456789 4096; IdReturn 7].
Proof.
  destruct (shared_ring_fifo tab hcall dref dset eq_refl cbs 7 hcall_eq (fun k => k) push
      (fun _ _ => eq_refl) cbs_log 1 64 12 0 1 pint pint
      [OpSend (Sglist 1 0 0x123456789 4096); OpSend (IdReturn 7); OpDeliver]
      (world mem []) s0
      {| st_read := 10; st_write := 12; st_queue := [IdReturn 7];
         st_log := [Sglist 1 0 0x123456789 4096] |})
    as (w' & Hrun & _ & Hl).
  - exact rel0.
  - repeat constructor; cbn; unfold in_u32, in_u64; lia.
  - reflexivity.
  - exists w', {| st_read := 10; st_write := 12; st_queue := [IdReturn 7];
                  st_log := [Sglist 1 0 0x123456789 4096] |}.
    split; [exact Hrun|]. split; [reflexivity|exact Hl].
Defined.

(** After one call the ring holds the request, and polling delivers it. *)
Lemma event_shared_delivers_witness :
  exists w1 w2, mmu_call tab 0 (SetInterface 3 4) (world mem []) = Ok tt w1 /\
    event_shared hcall 1 w1 = Ok (-1) w2 /\ ring_portal 1 64 12 1 w2 pint 8 8 [].
Proof.
  destruct (rpc_step tab hcall dref dset eq_refl cbs 7 hcall_eq (fun k => k) push
    (fun _ _ => eq_refl) cbs_log 1 64 12 0 1 pint pint (world mem []) s0 (OpSend (SetInterface 3 4))
    {| st_read := 4; st_write := 8; st_queue := [SetInterface 3 4]; st_log := [] |} rel0)
    as (w1 & Hrun & [_ HR _ _ _ _]); [repeat split; lia|reflexivity|].
  exists w1.
  destruct (event_shared_delivers tab hcall dref dset eq_refl cbs 7 hcall_eq 1 pint 1 64 12 4 8
      (SetInterface 3 4) [] w1 (set_w_kern (push (SetInterface 3 4) (w_kern w1)) w1) pint 8 [])
    as (w2 & Hev & HP).
  - exact HR.
  - reflexivity.
  - repeat split; lia.
  - apply cbs_log.
  - destruct HR as [H1 H2 H3 H4 H5]. split; [exact H1|exact H2|exact H3|exact H4|exact H5].
  - reflexivity.
  - exists w2. split; [exact Hrun|]. split; [exact Hev|exact HP].
Defined.

(** Six requests fill the ring: there is no room for another until one is read. *)
Definition fill_reqs : list MMUReq := replicate 6 (Sglist 1 0 0x123456789 4096).

Lemma busywait_shared_returns_witness :
  exists w1, run_ops tab hcall 0 1 (map OpSend fill_reqs) (world mem []) = Ok tt w1 /\
    room 64 4 40 = 24 /\
    let w1' := set_w_sched (reader_sched 1 64 12 4 (map req_msg fill_reqs)) w1 in
    length (w_sched w1') = 6%nat /\
    exists j r' w', busywait_shared 0 NULL w1' = Ok 0 w' /\
      ring_portal 1 64 12 0 w' pint r' 40 (drop j (map req_msg fill_reqs)) /\ room 64 r' 40 > 24.
Proof.
  destruct (rpc_run tab hcall dref dset eq_refl cbs 7 hcall_eq (fun k => k) push
      (fun _ _ => eq_refl) cbs_log 1 64 12 0 1 pint pint (map OpSend fill_reqs) (world mem []) s0
      {| st_read := 4; st_write := 40; st_queue := fill_reqs; st_log := [] |} rel0)
    as (w1 & Hrun & [HR _ _ _ _ _]).
  - repeat constructor; cbn; unfold in_u32, in_u64; lia.
  - reflexivity.
  - exists w1. split; [exact Hrun|]. split; [reflexivity|]. split; [reflexivity|].
    apply (busywait_shared_returns 0 NULL pint 1 64 12 4 40 [] (map req_msg fill_reqs)).
    + destruct HR as [H1 H2 H3 H4 H5]. split; [exact H1|exact H2|exact H3|exact H4|exact H5].
    + lia.
    + by rewrite app_nil_r.
Defined.

Lemma send_shared_enqueues_witness :
  exists mem', send_shared 0 NULL (msg_hdr (3, [])) (-1) (world mem []) =
      Ok tt (set_w_mem mem' (world mem [])) /\
    ring_ok 1 64 12 mem' 4 6 [(3, [])] /\
    (forall b' a, b' <> 1%nat -> mem' !! (b', a) = mem !! (b', a)).
Proof.
  apply (send_shared_enqueues 0 pint 1 64 4 4 [] (3, []) NULL (-1) (world mem [])).
  - reflexivity.
  - reflexivity.
  - exact ring.
  - reflexivity.
  - split; [cbn; lia|]. split; [vm_compute; discriminate|apply Forall_nil_2].
  - intros i v Hv. done.
Defined.

Lemma init_shared_ring_witness :
  exists w', init_shared dref dset 0 (SharedParam 0 256) (world mem0 []) = Ok 0 w' /\
    w_pints w' !! 0%nat = Some (set_map_base (Pblk 1 0) pint) /\
    ring_ok 1 (256 / 4) 12 (w_mem w') 4 4 [].
Proof.
  apply (init_shared_ring dref dset 0 pint 1 0 256 5 [] (world mem0 [])
    (set_w_glob (set_global_pa_fd 4 (w_glob (world mem0 []))) (world mem0 []))).
  - reflexivity.
  - reflexivity.
  - reflexivity.
  - intros o Ho. apply mem0_alloc. exact Ho.
  - vm_compute. split; discriminate || reflexivity.
  - vm_compute. split; reflexivity.
  - intros w. exists 9, w. split; [reflexivity|]. split; reflexivity.
  - intros id ref w. exists tt, w. split; [reflexivity|]. split; reflexivity.
Defined.

End SharedDemo.
