(* ===== verification/HardwareRpc.v ===== *)
(** The hardware transport at work: the memory-mapped register operations of
    [cpp/portal.c] on an arbitrary device, the bounded wait of
    [busy_hardware], the cycle counter, requests written to a request FIFO,
    and the delivery of all pending indications by [portalCheckIndication]. *)

From stdpp Require Import base gmap list fin_maps.
From Stdlib Require Import ZArith Lia.
From S2P Require Import Prelude PortalTypes PortalCore PortalCodec.

Section HardwareRpc.
Context {K : Type} `{!Device K} `{!PortalOs K}.
Local Abbreviation W := (World K).
Implicit Types (w : W) (x : PortalInternal) (k : K).

(** The operations of a table call the operations of the table the portal
    points to: [tab] is the table called from outside, [tab'] the same table as
    called from inside its operations. *)
Variables tab tab' : ItemId -> PortalItemFunctions K.
Variable hcall : nat -> nat -> Z -> Z -> M W Z.
Variable efuel : nat.
Hypothesis Htab : tab hardwarefunc = hardwarefunc_table tab' hcall efuel.
Hypothesis Hread' : it_read (tab' hardwarefunc) = read_hardware.

(** Portal [p] is open on the registers mapped at [base]. *)
Record hw_portal (p : nat) (base : Z) w x : Prop := {
  hp_pint : w_pints w !! p = Some x;
  hp_item : item x = Some hardwarefunc;
  hp_base : map_base x = Pio base
}.

Lemma item_hw x : item x = Some hardwarefunc -> item_of tab x = hardwarefunc_table tab' hcall efuel.
Proof. intros H. unfold item_of. by rewrite H. Qed.

(** [n] successive reads of register [a]. *)
Fixpoint mmio_reads (a : Z) (n : nat) k : list Z * K :=
  match n with
  | O => ([], k)
  | S n => let (v, k1) := mmio_read a k in
           let (l, k2) := mmio_reads a n k1 in (u32 v :: l, k2)
  end.

(** Successive writes to register [a]. *)
Fixpoint mmio_writes (a : Z) (l : list Z) k : K :=
  match l with [] => k | v :: l => mmio_writes a l (mmio_write a (u32 v) k) end.

Lemma load_io a w v k : mmio_read a (w_kern w) = (v, k) -> load (Pio a) w = Ok (u32 v) (set_w_kern k w).
Proof. intros H. cbn. by rewrite H. Qed.

Lemma set_w_kern_kern k w : w_kern (set_w_kern k w) = k.
Proof. done. Qed.

Lemma set_w_kern_twice k k' w : set_w_kern k (set_w_kern k' w) = set_w_kern k w.
Proof. done. Qed.

Lemma set_w_kern_id w : set_w_kern (w_kern w) w = w.
Proof. by destruct w. Qed.

Lemma hw_portal_kern p base w x k : hw_portal p base w x -> hw_portal p base (set_w_kern k w) x.
Proof. by intros []. Qed.

Lemma mmio_reads_S a n k :
  mmio_reads a (S n) k =
  (u32 (fst (mmio_read a k)) :: fst (mmio_reads a n (snd (mmio_read a k))),
   snd (mmio_reads a n (snd (mmio_read a k)))).
Proof.
  cbn. destruct (mmio_read a k) as [v k1]. cbn. by destruct (mmio_reads a n k1).
Qed.

Lemma read_hardware_io p a w :
  read_hardware p (Pio a) w =
    Ok (u32 (fst (mmio_read a (w_kern w))), Pio a) (set_w_kern (snd (mmio_read a (w_kern w))) w).
Proof.
  unfold read_hardware. erewrite bind_ok by (apply load_io; apply surjective_pairing). done.
Qed.

Lemma read_hw p base w x a :
  hw_portal p base w x ->
  it_read (item_of tab x) p (Pio a) w =
    Ok (u32 (fst (mmio_read a (w_kern w))), Pio a) (set_w_kern (snd (mmio_read a (w_kern w))) w).
Proof. intros [_ Hi _]. rewrite (item_hw _ Hi). apply read_hardware_io. Qed.

Lemma read_hw' p base w x a :
  hw_portal p base w x ->
  it_read (item_of tab' x) p (Pio a) w =
    Ok (u32 (fst (mmio_read a (w_kern w))), Pio a) (set_w_kern (snd (mmio_read a (w_kern w))) w).
Proof. intros [_ Hi _]. unfold item_of. rewrite Hi, Hread'. apply read_hardware_io. Qed.

(** * Waiting for room in a request FIFO *)

(** The loop of [busy_hardware]: [n] zero reads, then a read of [v]. *)
Lemma busy_loop_hw p base x a n : forall count w v,
  hw_portal p base w x -> (n <= count)%nat ->
  fst (mmio_reads a (S n) (w_kern w)) = replicate n 0 ++ [v] ->
  (v <> 0 -> busy_loop tab' p count (Pio a) w =
     Ok (Z.of_nat (count - n)) (set_w_kern (snd (mmio_reads a (S n) (w_kern w))) w)) /\
  (v = 0 -> count = n -> busy_loop tab' p count (Pio a) w =
     Ok (-1) (set_w_kern (snd (mmio_reads a (S n) (w_kern w))) w)).
Proof.
  induction n as [|n IH]; intros count w v HP Hn Hr; pose proof HP as [Hp Hi Hb];
    rewrite mmio_reads_S in Hr |- *; cbn [fst snd replicate app] in Hr |- *.
  - injection Hr as Hr. rewrite Nat.sub_0_r. cbn [mmio_reads snd].
    split; intros Hv; [|intros Hc]; destruct count; try lia; cbn [busy_loop];
      rewrite (bind_ok _ _ _ _ _ (get_pint_ok _ _ _ Hp)), (bind_ok _ _ _ _ _ (read_hw' _ _ _ _ _ HP)), Hr;
      case_decide; done.
  - injection Hr as Hr0 Hr. destruct count as [|count]; [lia|].
    destruct (IH count (set_w_kern (snd (mmio_read a (w_kern w))) w) v) as [IH1 IH2].
    { by apply hw_portal_kern. } { lia. } { done. }
    cbn [Nat.sub]. cbn [busy_loop].
    rewrite (bind_ok _ _ _ _ _ (get_pint_ok _ _ _ Hp)), (bind_ok _ _ _ _ _ (read_hw' _ _ _ _ _ HP)), Hr0.
    rewrite decide_False by lia. split; intros Hv.
    + by rewrite IH1.
    + intros Hc. rewrite IH2 by lia. done.
Qed.

Lemma busy_ready p base x a n v w :
  hw_portal p base w x -> (n < 50)%nat ->
  fst (mmio_reads (a + 4) (S n) (w_kern w)) = replicate n 0 ++ [v] -> v <> 0 ->
  busy_hardware tab' p (Pio a) w = Ok 0 (set_w_kern (snd (mmio_reads (a + 4) (S n) (w_kern w))) w).
Proof.
  intros HP Hn Hr Hv. unfold busy_hardware. cbn [ptr_add].
  destruct (busy_loop_hw p base x (a + 4) n 50 w v HP ltac:(lia) Hr) as [H _].
  change (a + 4 * 1) with (a + 4). rewrite (bind_ok _ _ _ _ _ (H Hv)). by rewrite decide_False by lia.
Qed.

Lemma busy_gives_up p base x a v w :
  hw_portal p base w x ->
  fst (mmio_reads (a + 4) 51 (w_kern w)) = replicate 50 0 ++ [v] ->
  busy_hardware tab' p (Pio a) w = Ok 1 (set_w_kern (snd (mmio_reads (a + 4) 51 (w_kern w))) w).
Proof.
  intros HP Hr. unfold busy_hardware. cbn [ptr_add]. change (a + 4 * 1) with (a + 4).
  destruct (busy_loop_hw p base x (a + 4) 50 50 w v HP ltac:(lia) Hr) as [H1 H2].
  destruct (decide (v = 0)) as [Hv|Hv];
    [rewrite (bind_ok _ _ _ _ _ (H2 Hv eq_refl))|rewrite (bind_ok _ _ _ _ _ (H1 Hv))];
    by rewrite decide_True by lia.
Qed.

(** * Requests written to the hardware *)

(** The byte address of the FIFO of a channel. *)
Definition fifo_addr (base chan : Z) : Z := base + 4 * PORTAL_REQ_FIFO chan.

Lemma write_args_hw p base x a l : forall w,
  hw_portal p base w x ->
  write_args (item_of tab x) p (Pio a) l w =
    Ok (Pio a) (set_w_kern (mmio_writes a (map arg_val l) (w_kern w)) w).
Proof.
  induction l as [|v l IH]; intros w HP.
  - cbn. by rewrite set_w_kern_id.
  - pose proof HP as [_ Hi _]. cbn [map mmio_writes].
    destruct v; cbn [write_args]; rewrite (item_hw _ Hi); cbn [it_write it_writefd hardwarefunc_table];
      unfold write_hardware, write_fd_hardware; rewrite bind_assoc;
      (rewrite (bind_ok _ _ _ tt (set_w_kern (mmio_write a (u32 v) (w_kern w)) w)) by done);
      rewrite bind_ret, <- (item_hw _ Hi), IH by (by apply hw_portal_kern); done.
Qed.

Lemma portal_send_prefix p base x chan l fd w :
  hw_portal p base w x ->
  portal_send tab p chan l fd w =
  (rc ← busy_hardware tab' p (Pio (fifo_addr base chan));
   if decide (rc <> 0) then mret tt
   else write_args (item_of tab x) p (Pio (fifo_addr base chan)) l ;; mret tt) w.
Proof.
  intros [Hp Hi Hb]. unfold portal_send. rewrite (bind_ok _ _ _ _ _ (get_pint_ok _ _ _ Hp)).
  rewrite (item_hw _ Hi).
  rewrite (bind_ok _ _ _ (Pio (fifo_addr base chan)) w); [done|].
  cbn. unfold mapchannel_hardware. by rewrite (bind_ok _ _ _ _ _ (get_pint_ok _ _ _ Hp)), Hb.
Qed.

(** A request on a hardware portal whose FIFO reports room within 50 reads
    stores the words of the marshalled arguments to the FIFO register of its
    channel, in order, and touches nothing else. *)
Theorem hardware_request_written p base x rq n v w :
  hw_portal p base w x -> (n < 50)%nat ->
  fst (mmio_reads (fifo_addr base (req_chan rq) + 4) (S n) (w_kern w)) = replicate n 0 ++ [v] ->
  v <> 0 ->
  mmu_call tab p rq w =
  Ok tt (set_w_kern
    (mmio_writes (fifo_addr base (req_chan rq)) (map arg_val (encode rq))
      (snd (mmio_reads (fifo_addr base (req_chan rq) + 4) (S n) (w_kern w)))) w).
Proof.
  intros HP Hn Hr Hv. rewrite mmu_call_send, (portal_send_prefix _ _ _ _ _ _ _ HP).
  rewrite (bind_ok _ _ _ _ _ (busy_ready _ _ _ _ _ _ _ HP Hn Hr Hv)).
  rewrite decide_False by lia.
  by rewrite (bind_ok _ _ _ _ _ (write_args_hw _ _ _ _ _ _ (hw_portal_kern _ _ _ _ _ HP))).
Qed.

(** A request on a hardware portal whose FIFO stays full for 50 reads is
    dropped: the proxy returns with no word written. *)
Theorem hardware_request_dropped p base x rq v w :
  hw_portal p base w x ->
  fst (mmio_reads (fifo_addr base (req_chan rq) + 4) 51 (w_kern w)) = replicate 50 0 ++ [v] ->
  mmu_call tab p rq w =
  Ok tt (set_w_kern (snd (mmio_reads (fifo_addr base (req_chan rq) + 4) 51 (w_kern w))) w).
Proof.
  intros HP Hr. rewrite mmu_call_send, (portal_send_prefix _ _ _ _ _ _ _ HP).
  rewrite (bind_ok _ _ _ _ _ (busy_gives_up _ _ _ _ _ _ HP Hr)). by rewrite decide_True by lia.
Qed.

(** [busy_hardware] on registers: if among its first 50 reads of the status
    word behind [addr] the first non-zero one comes after [n] zero reads, it
    reports the channel ready and has read the register [n + 1] times. *)
Theorem busy_hardware_ready p base x a n v w :
  hw_portal p base w x -> (n < 50)%nat ->
  fst (mmio_reads (a + 4) (S n) (w_kern w)) = replicate n 0 ++ [v] -> v <> 0 ->
  busy_hardware tab' p (Pio a) w = Ok 0 (set_w_kern (snd (mmio_reads (a + 4) (S n) (w_kern w))) w).
Proof. apply busy_ready. Qed.

(** [busy_hardware] gives up when the first 50 reads are zero: it reads the
    register a 51st time and reports the channel busy even when that read is
    not zero (the count is then 0, and [count <= 0] is the failure test). *)
Theorem busy_hardware_gives_up p base x a v w :
  hw_portal p base w x ->
  fst (mmio_reads (a + 4) 51 (w_kern w)) = replicate 50 0 ++ [v] ->
  busy_hardware tab' p (Pio a) w = Ok 1 (set_w_kern (snd (mmio_reads (a + 4) 51 (w_kern w))) w).
Proof. apply busy_gives_up. Qed.

(** * The cycle counter *)

(** [portalCycleCount] with a hardware utility portal reads the high register,
    then the low one, and returns their 64-bit concatenation. *)
Theorem portalCycleCount_hw u base x w hi k1 lo k2 :
  utility_portal (w_glob w) = Some u -> hw_portal u base w x -> hw_once (w_glob w) <> 0 ->
  mmio_read (base + 24) (w_kern w) = (hi, k1) -> mmio_read (base + 28) k1 = (lo, k2) ->
  portalCycleCount tab w = Ok (join64 (u32 hi) (u32 lo)) (set_w_kern k2 w).
Proof.
  intros Hu HP Ho Hhi Hlo. pose proof HP as [Hp _ Hb]. unfold portalCycleCount.
  unfold mbind at 1, M_bind at 1, get_glob. rewrite Hu.
  rewrite (bind_ok _ _ _ tt w).
  2:{ unfold init_portal_hw, mbind, M_bind, get_glob. by rewrite decide_True. }
  rewrite (bind_ok _ _ _ _ _ (get_pint_ok _ _ _ Hp)), Hb. cbn zeta.
  change (ptr_add (Pio base) PORTAL_CTRL_REG_COUNTER_MSB) with (Pio (base + 24)).
  change (ptr_add (Pio base) PORTAL_CTRL_REG_COUNTER_LSB) with (Pio (base + 28)).
  rewrite (bind_ok _ _ _ _ _ (read_hw _ _ _ _ _ HP)), Hhi. cbn [fst snd].
  erewrite bind_ok by (eapply read_hw, hw_portal_kern, HP).
  rewrite set_w_kern_kern, Hlo. cbn [fst snd]. pose proof (u32_bound hi). pose proof (u32_bound lo).
  unfold mret, M_ret, join64. f_equal.
  rewrite u64_small by (rewrite Z.shiftl_mul_pow2; lia). by apply lor_shiftl_add.
Qed.

(** * Delivery of indications *)

(** What the hardware promises: [pending] are the indications it holds; the
    status register of the portal at [base] reads as the channel of the first
    one plus one, or 0 when there is none, and reading it changes nothing;
    the FIFO register of that channel delivers the words of the first
    indication, after which the others remain. *)
Class IndicationDevice (base : Z) (pending : K -> list MMUReq) : Prop := {
  status_reg : forall k, mmio_read (base + 12) k =
    (match pending k with [] => 0 | rq :: _ => req_chan rq + 1 end, k);
  fifo_reg : forall k rq q, pending k = rq :: q ->
    fst (mmio_reads (fifo_addr base (req_chan rq)) (length (encode rq)) k) = map arg_val (encode rq) /\
    pending (snd (mmio_reads (fifo_addr base (req_chan rq)) (length (encode rq)) k)) = q
}.

Lemma read_words_hw p base x a n : forall w,
  hw_portal p base w x ->
  read_words (item_of tab x) p (Pio a) n w =
    Ok (fst (mmio_reads a n (w_kern w))) (set_w_kern (snd (mmio_reads a n (w_kern w))) w).
Proof.
  induction n as [|n IH]; intros w HP.
  - cbn. by rewrite set_w_kern_id.
  - cbn [read_words]. rewrite (bind_ok _ _ _ _ _ (read_hw _ _ _ _ _ HP)).
    rewrite (bind_ok _ _ _ _ _ (IH _ (hw_portal_kern _ _ _ _ _ HP))).
    rewrite mmio_reads_S. done.
Qed.

Lemma portal_recv_hw p base x chan n w :
  hw_portal p base w x ->
  portal_recv tab p chan n w =
    Ok (fst (mmio_reads (fifo_addr base chan) n (w_kern w)))
       (set_w_kern (snd (mmio_reads (fifo_addr base chan) n (w_kern w))) w).
Proof.
  intros HP. pose proof HP as [Hp Hi Hb]. unfold portal_recv.
  rewrite (bind_ok _ _ _ _ _ (get_pint_ok _ _ _ Hp)).
  rewrite (bind_ok _ _ _ (Pio (fifo_addr base chan)) w).
  2:{ rewrite (item_hw _ Hi). cbn. unfold mapchannel_hardware.
      by rewrite (bind_ok _ _ _ _ _ (get_pint_ok _ _ _ Hp)), Hb. }
  rewrite (bind_ok _ _ _ (0, None) w) by (by rewrite (item_hw _ Hi)).
  by apply read_words_hw with (base := base).
Qed.

Variable mmu_cb : ptr -> MMURequestCb (K := K).
Variable h : nat.
Hypothesis Hh : forall p c fd w,
  hcall h p c fd w = MMURequest_handleMessage tab mmu_cb p c fd w.

(** The callbacks append to a log kept outside the program, and leave the
    device alone. *)
Variables (log pending : K -> list MMUReq) (push : MMUReq -> K -> K) (base : Z).
Hypothesis Hlog : forall rq k, log (push rq k) = log k ++ [rq].
Hypothesis Hreads : forall a n k, log (snd (mmio_reads a n k)) = log k.
Hypothesis Hpend : forall rq k, pending (push rq k) = pending k.
Hypothesis Hcb : forall x p rq w, mmu_dispatch mmu_cb x p rq w = Ok tt (set_w_kern (push rq (w_kern w)) w).
Context `{!IndicationDevice base pending}.

Lemma handle_hw p x rq q w :
  hw_portal p base w x -> pending (w_kern w) = rq :: q -> req_ok rq ->
  exists k', hcall h p (req_chan rq) 0 w = Ok 0 (set_w_kern k' w) /\
    pending k' = q /\ log k' = log (w_kern w) ++ [as_delivered rq].
Proof.
  intros HP Hq Hok. pose proof (fifo_reg _ _ _ Hq) as [Hw Hq'].
  rewrite Hh. erewrite handleMessage_recv.
  2: by destruct HP. 2: exact (portal_recv_hw p base x (req_chan rq) (length (encode rq)) w HP).
  3:{ rewrite Hw. exact (decode_encode_nofd _ Hok). }
  2:{ rewrite Hw. apply encode_in_u32. }
  rewrite (bind_ok _ _ _ _ _ (Hcb _ _ _ _)). cbn [w_kern set_w_kern].
  eexists. split; [done|]. split; [by rewrite Hpend|]. by rewrite Hlog, Hreads.
Qed.

(** C35: [portalCheckIndication] delivers every pending indication of the portal,
    in order, to the callbacks, and then returns: with fuel for one more status
    read than there are indications the loop ends, with none pending. *)
Theorem portalCheckIndication_drains p x fuel w :
  hw_portal p base w x -> handler x = Some h ->
  Forall req_ok (pending (w_kern w)) -> (length (pending (w_kern w)) < fuel)%nat ->
  exists k', portalCheckIndication tab hcall fuel p w = Ok tt (set_w_kern k' w) /\
    pending k' = [] /\ log k' = log (w_kern w) ++ map as_delivered (pending (w_kern w)).
Proof.
  intros HP Hhd. pose proof HP as [Hp Hi Hb]. unfold portalCheckIndication.
  rewrite (bind_ok _ _ _ _ _ (get_pint_ok _ _ _ Hp)), Hb.
  change (ptr_add (Pio base) PORTAL_CTRL_REG_IND_QUEUE_STATUS) with (Pio (base + 12)).
  clear Hp. revert w HP. induction fuel as [|fuel IH]; [lia|]. intros w HP Hok Hf.
  pose proof HP as [Hp _ _]. cbn [portalCheckIndication_loop].
  rewrite (bind_ok _ _ _ _ _ (get_pint_ok _ _ _ Hp)), (bind_ok _ _ _ _ _ (read_hw _ _ _ _ _ HP)).
  rewrite status_reg. cbn [fst snd]. rewrite set_w_kern_id.
  destruct (pending (w_kern w)) as [|rq q] eqn:Hq.
  - rewrite decide_True by done. exists (w_kern w). rewrite set_w_kern_id, app_nil_r. done.
  - inversion Hok; subst. destruct (handle_hw p x rq q w HP Hq) as (k1 & Hrun & Hk1 & Hl1); [done|].
    assert (Hc : 0 <= req_chan rq <= 4) by (by destruct rq).
    rewrite u32_small by lia. rewrite decide_False by lia.
    rewrite Hhd. replace (u32 (req_chan rq + 1 - 1)) with (req_chan rq) by (rewrite u32_small; lia).
    rewrite (bind_ok _ _ _ _ _ Hrun).
    destruct (IH (set_w_kern k1 w)) as (k' & Hrun' & Hk' & Hl'); cbn [w_kern set_w_kern].
    { by apply hw_portal_kern. } { by rewrite Hk1. } { rewrite Hk1. cbn in Hf. lia. }
    exists k'. split; [exact Hrun'|]. split; [done|].
    rewrite Hl'. cbn [w_kern set_w_kern]. rewrite Hl1, Hk1, <- app_assoc. done.
Qed.

End HardwareRpc.

(** * Concrete devices *)

(** A world whose portal 0 is open on the registers at address 0. *)
Definition hw_pint : PortalInternal :=
  set_handler (Some 7%nat) (set_item (Some hardwarefunc) (set_map_base (Pio 0) PortalInternal_zero)).
Definition hw_world {K} (k : K) : World K :=
  set_w_pints (<[0%nat := hw_pint]> ∅)
    (set_w_glob (set_utility_portal (Some 0%nat) (set_hw_once 1 (w_glob (start_world k))))
      (start_world k)).

Lemma hw_world_ok {K} (k : K) : hw_portal 0 0 (hw_world k) hw_pint.
Proof. split; reflexivity. Qed.

#[local] Instance no_os {K} : PortalOs K :=
  {| os_open_portal := fun _ k => (-1, k); os_open_portalmem := fun k => (-1, k);
     os_pa_malloc := fun _ _ k => (-1, k); os_mmap := fun _ _ k => (MAP_FAILED, k);
     os_errno := fun _ => 0 |}.

(** Registers that record the stores made to them; a register reads as its
    address divided by 24, so the low ones read as 0. *)
Module HwRegs.
#[local] Instance dev : Device (list (Z * Z)) :=
  {| mmio_read := fun a k => (a / 24, k); mmio_write := fun a v k => k ++ [(a, v)];
     dev_tick := fun k => k |}.
Local Abbreviation W := (World (list (Z * Z))).
Definition hcall (_ _ : nat) (_ _ : Z) : M W Z := mret 0.
Definition inner (i : ItemId) : PortalItemFunctions (list (Z * Z)) :=
  match i with hardwarefunc => hardwarefunc_table (fun _ => no_item) hcall 8 | _ => no_item end.
Definition outer (i : ItemId) : PortalItemFunctions (list (Z * Z)) :=
  match i with hardwarefunc => hardwarefunc_table inner hcall 8 | _ => no_item end.

Lemma busy_hardware_ready_witness :
  busy_hardware inner 0 (Pio 256) (hw_world []) = Ok 0 (hw_world []).
Proof.
  apply (busy_hardware_ready inner eq_refl 0 0 hw_pint 256 0 10 (hw_world [])).
  - apply hw_world_ok.
  - lia.
  - reflexivity.
  - lia.
Defined.

Lemma busy_hardware_gives_up_witness :
  busy_hardware inner 0 (Pio 4) (hw_world []) = Ok 1 (hw_world []).
Proof.
  apply (busy_hardware_gives_up inner eq_refl 0 0 hw_pint 4 0 (hw_world [])).
  - apply hw_world_ok.
  - reflexivity.
Defined.

Lemma hardware_request_written_witness :
  mmu_call outer 0 (SetInterface 3 4) (hw_world []) =
  Ok tt (hw_world [(1280, 3); (1280, 4)]).
Proof.
  apply (hardware_request_written outer inner hcall 8 eq_refl eq_refl 0 0 hw_pint
           (SetInterface 3 4) 0 53 (hw_world [])).
  - apply hw_world_ok.
  - lia.
  - reflexivity.
  - lia.
Defined.

Lemma portalCycleCount_hw_witness :
  portalCycleCount outer (hw_world []) = Ok 4294967297 (hw_world []).
Proof.
  apply (portalCycleCount_hw outer inner hcall 8 eq_refl 0 0 hw_pint (hw_world []) 1 [] 1 []).
  - reflexivity.
  - apply hw_world_ok.
  - vm_compute. discriminate.
  - reflexivity.
  - reflexivity.
Defined.
End HwRegs.

(** A full FIFO: every register reads as 0. *)
Module HwFull.
#[local] Instance dev : Device (list (Z * Z)) :=
  {| mmio_read := fun a k => (0, k); mmio_write := fun a v k => k ++ [(a, v)];
     dev_tick := fun k => k |}.
Local Abbreviation W := (World (list (Z * Z))).
Definition hcall (_ _ : nat) (_ _ : Z) : M W Z := mret 0.
Definition inner (i : ItemId) : PortalItemFunctions (list (Z * Z)) :=
  match i with hardwarefunc => hardwarefunc_table (fun _ => no_item) hcall 8 | _ => no_item end.
Definition outer (i : ItemId) : PortalItemFunctions (list (Z * Z)) :=
  match i with hardwarefunc => hardwarefunc_table inner hcall 8 | _ => no_item end.

Lemma hardware_request_dropped_witness :
  mmu_call outer 0 (IdReturn 3) (hw_world []) = Ok tt (hw_world []).
Proof.
  apply (hardware_request_dropped outer inner hcall 8 eq_refl eq_refl 0 0 hw_pint
           (IdReturn 3) 0 (hw_world [])).
  - apply hw_world_ok.
  - reflexivity.
Defined.
End HwFull.

(** Hardware with indications to deliver: [cur] are the words left of the
    indication being read, [queue] the indications behind it. *)
Module HwInd.
Record ind_dev : Type := { cur : list Z; queue : list MMUReq; seen : list MMUReq }.

Definition pending (k : ind_dev) : list MMUReq := match cur k with [] => queue k | _ => [] end.
Definition push (rq : MMUReq) (k : ind_dev) : ind_dev :=
  {| cur := cur k; queue := queue k; seen := seen k ++ [rq] |}.

Definition next_word (k : ind_dev) : Z * ind_dev :=
  match cur k with
  | v :: c => (v, {| cur := c; queue := queue k; seen := seen k |})
  | [] => match queue k with
          | [] => (0, k)
          | rq :: q => match map arg_val (encode rq) with
                       | [] => (0, k)
                       | v :: c => (v, {| cur := c; queue := q; seen := seen k |})
                       end
          end
  end.

#[local] Instance dev : Device ind_dev :=
  {| mmio_read := fun a k =>
       if decide (a = 12) then (match pending k with [] => 0 | rq :: _ => req_chan rq + 1 end, k)
       else next_word k;
     mmio_write := fun _ _ k => k; dev_tick := fun k => k |}.
Local Abbreviation W := (World ind_dev).

Definition record (rq : MMUReq) : M W unit := modifyW (fun w => set_w_kern (push rq (w_kern w)) w).
Definition cbs (_ : ptr) : MMURequestCb :=
  {| cb_sglist := fun _ i y a l => record (Sglist i y a l);
     cb_region := fun _ i b8 i8 b4 i4 b0 i0 => record (Region i b8 i8 b4 i4 b0 i0);
     cb_idRequest := fun _ fd => record (IdRequest fd);
     cb_idReturn := fun _ i => record (IdReturn i);
     cb_setInterface := fun _ f i => record (SetInterface f i) |}.

Definition no_hcall (_ _ : nat) (_ _ : Z) : M W Z := fault.
Definition tab0 (i : ItemId) : PortalItemFunctions ind_dev :=
  match i with hardwarefunc => hardwarefunc_table (fun _ => no_item) no_hcall 8 | _ => no_item end.
Definition hcall (h p : nat) (c fd : Z) : M W Z := MMURequest_handleMessage tab0 cbs p c fd.
Definition outer (i : ItemId) : PortalItemFunctions ind_dev :=
  match i with hardwarefunc => hardwarefunc_table tab0 hcall 8 | _ => no_item end.

Lemma hw_hcall_eq p c fd w : hcall 7 p c fd w = MMURequest_handleMessage outer cbs p c fd w.
Proof.
  unfold hcall. apply handleMessage_ext; intros [];
    cbv [tab0 outer hardwarefunc_table it_read it_recv it_mapchannelInd]; reflexivity.
Qed.

Lemma seen_reads a n k : seen (snd (mmio_reads a n k)) = seen k.
Proof.
  revert k. induction n as [|n IH]; intros k; [done|]. rewrite mmio_reads_S. cbn [snd].
  rewrite IH. cbn. unfold next_word. repeat case_match; done.
Qed.

Lemma reads_cur a c q s : a <> 12 ->
  mmio_reads a (length c) {| cur := c; queue := q; seen := s |} =
  (map u32 c, {| cur := []; queue := q; seen := s |}).
Proof.
  intros Ha. induction c as [|v c IH]; [done|]. cbn [length]. rewrite mmio_reads_S.
  cbn [mmio_read dev]. rewrite decide_False by done. cbn [next_word cur queue seen fst snd].
  by rewrite IH.
Qed.

Lemma fifo_not_status rq : fifo_addr 0 (req_chan rq) <> 12.
Proof. by destruct rq. Qed.

#[local] Instance ind_ok : IndicationDevice 0 pending.
Proof.
  split; [done|]. intros [c q s] rq q' Hq. unfold pending in Hq. cbn in Hq.
  destruct c; [|done]. subst q. pose proof (fifo_not_status rq) as Ha.
  pose proof (encode_in_u32 rq) as Hl. rewrite <- (length_map arg_val).
  destruct (map arg_val (encode rq)) as [|v l] eqn:He; [by destruct rq|].
  cbn [length]. rewrite mmio_reads_S. cbn [mmio_read dev]. rewrite decide_False by done.
  unfold next_word. cbn [cur queue]. rewrite He. cbn [fst snd].
  rewrite reads_cur by done. split; [|done]. cbn [fst].
  inversion Hl as [|? ? Hv Hl']; subst. rewrite in_u32_id by done. f_equal.
  rewrite <- (map_id l) at 2. apply map_ext_Forall. eapply Forall_impl; [exact Hl'|].
  intros u Hu. by apply in_u32_id.
Qed.

Lemma portalCheckIndication_drains_witness :
  exists k', portalCheckIndication outer hcall 3 0
      (hw_world {| cur := []; queue := [IdReturn 5; Sglist 1 2 3 4]; seen := [] |}) =
      Ok tt (hw_world k') /\
    pending k' = [] /\ seen k' = [IdReturn 5; Sglist 1 2 3 4].
Proof.
  apply (portalCheckIndication_drains outer tab0 hcall 8 eq_refl cbs 7 hw_hcall_eq
    seen pending push 0 (fun _ _ => eq_refl) seen_reads (fun _ _ => eq_refl)
    (fun x p rq w => match rq with Sglist _ _ _ _ => eq_refl | Region _ _ _ _ _ _ _ => eq_refl
                     | IdRequest _ => eq_refl | IdReturn _ => eq_refl | SetInterface _ _ => eq_refl end)
    0 hw_pint 3 (hw_world {| cur := []; queue := [IdReturn 5; Sglist 1 2 3 4]; seen := [] |})).
  - apply hw_world_ok.
  - reflexivity.
  - repeat constructor; vm_compute; try discriminate; reflexivity.
  - cbn. lia.
Defined.
End HwInd.
