(* ===== verification/SocketRpc.v ===== *)
(** Requests over the socket transports: the generated code of [PortalCodec]
    on [socketfuncInit]/[socketfuncResp], over any kernel whose stream sockets
    behave as documented ([StreamSockets]). *)

From stdpp Require Import base gmap list fin_maps.
From Stdlib Require Import ZArith Lia.
From S2P Require Import Prelude PortalTypes PortalCore Poller PortalSocket PortalShared PortalCodec SharedRpc.

(** * Stream sockets

    [inbox k f] are the segments waiting at descriptor [f]: the bytes of one
    [sendmsg], or what is left of them, with the descriptor it carries;
    [peer f] is the descriptor at the other end of the connection of [f].  A
    descriptor passed over the socket is named by the file it refers to. *)
Class StreamSockets (K : Type) `{!SockOs K} (inbox : K -> Z -> list (list Z * option Z)) (peer : Z -> Z)
    : Prop := {
  stream_send : forall f l c k, l <> [] -> exists k', sk_sendmsg f l c k = (Z.of_nat (length l), k') /\
    inbox k' (peer f) = inbox k (peer f) ++ [(l, c)] /\
    (forall g, g <> peer f -> inbox k' g = inbox k g);
  stream_recv : forall f n k l c q, inbox k f = (l, c) :: q -> 0 < n <= Z.of_nat (length l) ->
    exists k', sk_recvmsg f n k = (RData (take (Z.to_nat n) l) (ScmRights <$> c), k') /\
      inbox k' f = (match drop (Z.to_nat n) l with [] => q | r => (r, None) :: q end) /\
      (forall g, g <> f -> inbox k' g = inbox k g);
  stream_empty : forall f n k, inbox k f = [] -> exists k', sk_recvmsg f n k = (RErr, k') /\
    sk_errno k' = EAGAIN /\ (forall g, inbox k' g = inbox k g)
}.

Section SocketRpc.
Context {K : Type} `{!Device K} `{!PortalOs K} `{!PollOs K} `{!SockOs K}.
Local Abbreviation W := (World K).
Implicit Types (w : W) (x : PortalInternal).
Variables (inbox : K -> Z -> list (list Z * option Z)) (peer : Z -> Z).
Context `{!StreamSockets K inbox peer}.

(** * Bytes and words of a buffer *)

Lemma le_bytes_4 v : exists a b c d, le_bytes v = [a; b; c; d] /\
  is_byte a /\ is_byte b /\ is_byte c /\ is_byte d.
Proof.
  pose proof (le_bytes_byte v) as Hv. unfold le_bytes in *.
  repeat (apply Forall_cons in Hv as [? Hv]). eauto 10.
Qed.

Lemma set_byte_4 v a b c d : is_byte a -> is_byte b -> is_byte c -> is_byte d ->
  set_byte (set_byte (set_byte (set_byte v 0 a) 1 b) 2 c) 3 d = of_bytes [a; b; c; d].
Proof.
  intros Ha Hb Hc Hd. unfold set_byte.
  destruct (le_bytes_4 v) as (v0 & v1 & v2 & v3 & -> & H0 & H1 & H2 & H3).
  cbn [insert list_insert]. rewrite le_of_bytes by done. cbn [insert list_insert].
  rewrite le_of_bytes by done. cbn [insert list_insert]. rewrite le_of_bytes by done. done.
Qed.

Lemma set_byte_u32 v i b : is_byte b -> 0 <= set_byte v i b < 4294967296.
Proof.
  intros Hb. unfold set_byte.
  destruct (le_bytes_4 v) as (v0 & v1 & v2 & v3 & -> & H0 & H1 & H2 & H3). unfold is_byte in *.
  destruct i as [|[|[|[|i]]]]; cbn [insert list_insert of_bytes]; try lia. destruct i; cbn; lia.
Qed.

(** Storing the bytes of words at a word boundary stores the words. *)
Lemma store_words b ws : forall o j w,
  Forall in_u32 ws ->
  (forall a, o + Z.of_nat j <= a < o + Z.of_nat j + Z.of_nat (length ws) -> is_Some (w_mem w !! (b, a))) ->
  exists mem', store_bytes (Pblk b o) (4 * j) (words_bytes ws) w = Ok tt (set_w_mem mem' w) /\
    words_at b mem' (o + Z.of_nat j) ws /\
    (forall b' a, ~ (b' = b /\ o + Z.of_nat j <= a < o + Z.of_nat j + Z.of_nat (length ws)) ->
       mem' !! (b', a) = w_mem w !! (b', a)) /\
    (forall k, is_Some (w_mem w !! k) -> is_Some (mem' !! k)).
Proof.
  induction ws as [|v ws IH]; intros o j w Hws Hal.
  - exists (w_mem w). cbn. split_and!; try done. unfold mret, M_ret. f_equal. by destruct w.
  - inversion Hws as [|? ? Hv Hws']; subst. cbn [length] in *.
    destruct (Hal (o + Z.of_nat j)) as [v0 Hv0]; [lia|].
    set (w1 := set_w_mem (<[(b, o + Z.of_nat j) := v]> (w_mem w)) w).
    destruct (IH o (S j) w1 Hws') as (mem' & Hr & Hwa & Hf & Hk).
    { intros a Ha. cbn. apply is_Some_insert, Hal. lia. }
    exists mem'. split_and!.
    + replace (4 * S j)%nat with (S (S (S (S (4 * j))))) in Hr by lia.
      change (words_bytes (v :: ws)) with (le_bytes v ++ words_bytes ws). unfold le_bytes at 1.
      pose proof (le_bytes_byte v) as Hb. unfold le_bytes in Hb.
      repeat (apply Forall_cons in Hb as [? Hb]).
      assert (Hq : forall i, (i < 4)%nat -> ((i + 4 * j) / 4 = j /\ (i + 4 * j) mod 4 = i)%nat).
      { intros i Hi. split; [symmetry; apply (Nat.div_unique _ _ _ i)|symmetry; apply (Nat.mod_unique _ _ j)]; lia. }
      assert (Hstep : forall i by_ l (m : gmap (nat * Z) Z) u, (i < 4)%nat -> is_byte by_ ->
        m !! (b, o + Z.of_nat j) = Some u ->
        store_bytes (Pblk b o) (i + 4 * j) (by_ :: l) (set_w_mem m w) =
        store_bytes (Pblk b o) (S (i + 4 * j)) l
          (set_w_mem (<[(b, o + Z.of_nat j) := set_byte u i by_]> m) w)).
      { intros i by_ l m u Hi Hby Hu. cbn [store_bytes]. destruct (Hq i Hi) as [-> ->]. cbn [ptr_add].
        rewrite (bind_ok _ _ _ _ _ (load_blk b _ u (set_w_mem m w) Hu)).
        rewrite (bind_ok _ _ _ _ _ (store_blk b _ (set_byte u i by_) u (set_w_mem m w) Hu)).
        rewrite u32_small by (by apply set_byte_u32). done. }
      cbn [app]. replace (4 * j)%nat with (0 + 4 * j)%nat by lia.
      replace w with (set_w_mem (w_mem w) w) at 1 by (by destruct w).
      rewrite (Hstep 0%nat _ _ _ v0) by (done || lia). change (S (0 + 4 * j)) with (1 + 4 * j)%nat.
      erewrite (Hstep 1%nat) by (first [lia | done | apply lookup_insert_eq]). change (S (1 + 4 * j)) with (2 + 4 * j)%nat.
      erewrite (Hstep 2%nat) by (first [lia | done | apply lookup_insert_eq]). change (S (2 + 4 * j)) with (3 + 4 * j)%nat.
      erewrite (Hstep 3%nat) by (first [lia | done | apply lookup_insert_eq]).
      rewrite !insert_insert_eq, set_byte_4 by done.
      change (of_bytes _) with (of_bytes (le_bytes v)). rewrite of_le_bytes by done. exact Hr.
    + intros [|i] u Hu; cbn in Hu.
      * injection Hu as <-. change (Z.of_nat 0) with 0. rewrite Z.add_0_r, Hf by lia. apply lookup_insert_eq.
      * replace (o + Z.of_nat j + Z.of_nat (S i)) with (o + Z.of_nat (S j) + Z.of_nat i) by lia. by apply Hwa.
    + intros b' a Ha. rewrite Hf by lia. cbn. apply lookup_insert_ne. intros [= ? ?]; subst. lia.
    + intros k Hk'. apply Hk. cbn. by apply is_Some_insert.
Qed.

Lemma load_words_ok b w ws : forall o, words_at b (w_mem w) o ws ->
  load_words (Pblk b o) (length ws) w = Ok ws w.
Proof.
  induction ws as [|v ws IH]; intros o H; [done|]. cbn [length load_words].
  assert (Hv : w_mem w !! (b, o) = Some v) by (rewrite <- (Z.add_0_r o); by apply (H O)).
  rewrite (bind_ok _ _ _ _ _ (load_blk _ _ _ _ Hv)). cbn [ptr_add].
  rewrite (bind_ok _ _ _ ws w); [done|]. apply IH. intros i u Hu.
  replace (o + 1 + Z.of_nat i) with (o + Z.of_nat (S i)) by lia. by apply H.
Qed.

Lemma length_words_bytes ws : length (words_bytes ws) = (4 * length ws)%nat.
Proof.
  induction ws as [|v ws IH]; [done|].
  change (words_bytes (v :: ws)) with (le_bytes v ++ words_bytes ws). rewrite length_app, IH. cbn. lia.
Qed.

Lemma load_bytes_ok b o w ws : words_at b (w_mem w) o ws ->
  load_bytes (Pblk b o) (4 * Z.of_nat (length ws)) w = Ok (words_bytes ws) w.
Proof.
  intros H. unfold load_bytes. rewrite Z.mul_comm, Z.div_mul, Nat2Z.id by lia.
  by rewrite (bind_ok _ _ _ _ _ (load_words_ok _ _ _ _ H)).
Qed.

(** * Sending *)

Variable tab : ItemId -> PortalItemFunctions K.
Variable hcall : nat -> nat -> Z -> Z -> M W Z.
Hypothesis HtabI : tab socketfuncInit = socketfuncInit_table hcall.
Hypothesis HtabR : tab socketfuncResp = socketfuncResp_table hcall.

(** Portal [p] uses a socket transport with a message buffer of [n] words in block [b]. *)
Record sock_portal (b : nat) (n : Z) (p : nat) w x : Prop := {
  sp_pint : w_pints w !! p = Some x;
  sp_base : map_base x = Pblk b 0;
  sp_item : item x = Some socketfuncInit \/ item x = Some socketfuncResp;
  sp_buf : forall a, 0 <= a < n -> is_Some (w_mem w !! (b, a))
}.

Lemma sock_item x : item x = Some socketfuncInit \/ item x = Some socketfuncResp ->
  it_read (item_of tab x) = read_portal_memory /\ it_write (item_of tab x) = write_portal_memory /\
  it_writefd (item_of tab x) = write_fd_portal_memory /\
  it_mapchannelInd (item_of tab x) = mapchannel_socket /\
  it_mapchannelReq (item_of tab x) = mapchannel_socket /\
  it_busywait (item_of tab x) = busy_portal_null /\
  it_recv (item_of tab x) = recv_socket /\ it_send (item_of tab x) = send_socket hcall.
Proof. unfold item_of. intros [-> | ->]; [rewrite HtabI|rewrite HtabR]; done. Qed.

Definition fd_opt (fd : Z) : option Z := if decide (fd >= 0) then Some fd else None.

Lemma portalSendFd_ok f b o ws fd w :
  words_at b (w_mem w) o ws -> ws <> [] ->
  exists k', portalSendFd f (Pblk b o) (4 * Z.of_nat (length ws)) fd w = Ok tt (set_w_kern k' w) /\
    inbox k' (peer f) = inbox (w_kern w) (peer f) ++ [(words_bytes ws, fd_opt fd)] /\
    (forall g, g <> peer f -> inbox k' g = inbox (w_kern w) g).
Proof.
  intros Hws Hne. destruct (stream_send f (words_bytes ws) (fd_opt fd) (w_kern w)) as (k' & Hs & Hi & Ho).
  { intros H. apply (f_equal length) in H. rewrite length_words_bytes in H. destruct ws; cbn in H; [done|lia]. }
  exists k'. split; [|done]. unfold portalSendFd, sock_fd_write.
  rewrite bind_assoc, (bind_ok _ _ _ _ _ (load_bytes_ok _ _ _ _ Hws)), bind_assoc.
  rewrite (bind_ok _ _ _ (Z.of_nat (length (words_bytes ws))) (set_w_kern k' w)).
  2:{ unfold kcall. fold (fd_opt fd). by rewrite Hs. }
  rewrite length_words_bytes, !decide_False by lia. rewrite bind_ret. by rewrite decide_False by lia.
Qed.

Lemma portal_send_sock p chan l fd w x b n f :
  sock_portal b n p w x -> client_fd_number x <> 0 ->
  znth (client_fd x) (request_index x) = Some f ->
  0 <= chan < 65536 -> 1 + Z.of_nat (length l) <= n -> n < 65536 ->
  exists mem' k', portal_send tab p chan l fd w = Ok tt (set_w_kern k' (set_w_mem mem' w)) /\
    inbox k' (peer f) = inbox (w_kern w) (peer f) ++
      [(words_bytes (msg_hdr (chan, map arg_word l) :: map arg_word l), fd_opt fd)] /\
    (forall g, g <> peer f -> inbox k' g = inbox (w_kern w) g) /\
    (forall b' a, b' <> b -> mem' !! (b', a) = w_mem w !! (b', a)) /\
    (forall k, is_Some (w_mem w !! k) -> is_Some (mem' !! k)).
Proof.
  intros [Hp Hb Hi Hbuf] Hcl Hf Hc Hl Hn.
  destruct (sock_item _ Hi) as (_ & HW & HWF & _ & HMR & HB & _ & HS).
  set (hdr := msg_hdr (chan, map arg_word l)).
  assert (Hhdr : 0 <= hdr < 4294967296).
  { unfold hdr, msg_hdr, msg_words. cbn. rewrite length_map. lia. }
  destruct (write_args_mem (item_of tab x) p b l 1 w HW HWF) as (m1 & Hr1 & Hwa & Hf1 & Hk1).
  { intros a Ha. apply Hbuf. lia. }
  set (m2 := <[(b, 0) := hdr]> m1).
  assert (Hws : words_at b m2 0 (hdr :: map arg_word l)).
  { intros [|i] u Hu; cbn in Hu; unfold m2.
    - injection Hu as <-. apply lookup_insert_eq.
    - rewrite lookup_insert_ne by (intros [=]; lia).
      replace (0 + Z.of_nat (S i)) with (1 + Z.of_nat i) by lia. by apply Hwa. }
  destruct (portalSendFd_ok f b 0 (hdr :: map arg_word l) fd (set_w_mem m2 w) Hws)
    as (k' & Hs & Hin & Hot); [done|].
  exists m2, k'. split; [|split_and!; [exact Hin|exact Hot|..]].
  - unfold portal_send. rewrite (bind_ok _ _ _ _ _ (get_pint_ok _ _ _ Hp)).
    rewrite HMR, HB, HS. unfold mapchannel_socket. rewrite bind_assoc.
    rewrite (bind_ok _ _ _ _ _ (get_pint_ok _ _ _ Hp)), bind_ret, Hb. cbn [ptr_add].
    unfold busy_portal_null. rewrite bind_ret, decide_False by lia.
    change (0 + 1) with 1. rewrite (bind_ok _ _ _ _ _ Hr1).
    rewrite hdr_lor by lia. fold hdr. unfold send_socket. cbn [ptr_add]. change (1 + -1) with 0.
    destruct (Hk1 (b, 0)) as [v0 Hv0]; [apply Hbuf; lia|].
    rewrite (bind_ok _ _ _ _ _ (store_blk b 0 hdr v0 (set_w_mem m1 w) Hv0)), u32_small by done.
    change (set_w_mem (<[(b, 0) := hdr]> (w_mem (set_w_mem m1 w))) (set_w_mem m1 w)) with (set_w_mem m2 w).
    unfold mbind at 1, M_bind at 1, getW.
    assert (Hg : get_pint p (set_w_mem m2 w) = Ok x (set_w_mem m2 w)) by (by apply get_pint_ok).
    rewrite (bind_ok _ _ _ tt (set_w_mem m2 w)).
    2:{ destruct (length (w_sched _)); cbn [wait_client]; rewrite (bind_ok _ _ _ _ _ Hg);
          by rewrite decide_False. }
    rewrite (bind_ok _ _ _ _ _ Hg), Hf, bind_defined.
    assert (Hlen : Z.land hdr 0xffff * 4 = 4 * Z.of_nat (length (hdr :: map arg_word l))).
    { unfold hdr at 1. rewrite msg_hdr_words; unfold msg_words; cbn; rewrite length_map; lia. }
    rewrite Hlen. exact Hs.
  - intros b' a Hb'. unfold m2. rewrite lookup_insert_ne by congruence. apply Hf1. tauto.
  - intros k Hk. unfold m2. apply is_Some_insert. auto.
Qed.

(** * Receiving *)

(** Receiving exactly [ws] words that start the first segment. *)
Lemma portalRecvFd_ok f b o ws rest c q w :
  inbox (w_kern w) f = (words_bytes (ws ++ rest), c) :: q -> ws <> [] -> Forall in_u32 ws ->
  (forall a, o <= a < o + Z.of_nat (length ws) -> is_Some (w_mem w !! (b, a))) ->
  exists mem' k',
    portalRecvFd f (Pblk b o) (4 * Z.of_nat (length ws)) w =
      Ok (4 * Z.of_nat (length ws), default (-1) c) (set_w_mem mem' (set_w_kern k' w)) /\
    words_at b mem' o ws /\
    inbox k' f = match rest with [] => q | _ => (words_bytes rest, None) :: q end /\
    (forall g, g <> f -> inbox k' g = inbox (w_kern w) g) /\
    (forall b' a, ~ (b' = b /\ o <= a < o + Z.of_nat (length ws)) -> mem' !! (b', a) = w_mem w !! (b', a)) /\
    (forall k, is_Some (w_mem w !! k) -> is_Some (mem' !! k)).
Proof.
  intros Hin Hne Hws Hal.
  assert (Happ : words_bytes (ws ++ rest) = words_bytes ws ++ words_bytes rest).
  { unfold words_bytes. rewrite map_app. apply join_app. }
  assert (Hlen : Z.to_nat (4 * Z.of_nat (length ws)) = length (words_bytes ws)).
  { rewrite length_words_bytes. lia. }
  destruct (stream_recv f (4 * Z.of_nat (length ws)) (w_kern w) _ _ _ Hin) as (k' & Hr & Hi & Ho).
  { rewrite Happ, length_app, !length_words_bytes. destruct ws; [done|cbn; lia]. }
  rewrite Hlen, Happ, take_app_length in Hr. rewrite Hlen, Happ, drop_app_length in Hi.
  destruct (store_words b ws o 0 (set_w_kern k' w) Hws) as (mem' & Hst & Hwa & Hf & Hk).
  { intros a Ha. apply Hal. lia. }
  rewrite Z.add_0_r in Hwa, Hf.
  exists mem', k'. split_and!; [|exact Hwa| |exact Ho|exact Hf|exact Hk].
  - unfold portalRecvFd, sock_fd_read.
    rewrite (bind_ok _ _ _ (RData (words_bytes ws) (ScmRights <$> c)) (set_w_kern k' w)).
    2:{ unfold kcall. by rewrite Hr. }
    rewrite (bind_ok _ _ _ _ _ Hst), length_words_bytes.
    replace (Z.of_nat (4 * length ws)) with (4 * Z.of_nat (length ws)) by lia. by destruct c.
  - destruct rest; [exact Hi|]. rewrite Hi. done.
Qed.

Lemma portal_recv_sock p chan w x b n f ws q c :
  sock_portal b n p w x -> znth (client_fd x) (indication_index x) = Some f ->
  inbox (w_kern w) f = (words_bytes ws, c) :: q -> ws <> [] -> Forall in_u32 ws ->
  1 + Z.of_nat (length ws) <= n ->
  exists mem' k', portal_recv tab p chan (length ws) w = Ok ws (set_w_mem mem' (set_w_kern k' w)) /\
    inbox k' f = q /\ (forall g, g <> f -> inbox k' g = inbox (w_kern w) g) /\
    (forall b' a, b' <> b -> mem' !! (b', a) = w_mem w !! (b', a)) /\
    (forall k, is_Some (w_mem w !! k) -> is_Some (mem' !! k)).
Proof.
  intros [Hp Hb Hi Hbuf] Hf Hin Hne Hws Hn.
  destruct (sock_item _ Hi) as (HR & _ & _ & HMI & _ & _ & HRV & _).
  rewrite <- (app_nil_r ws) in Hin.
  destruct (portalRecvFd_ok f b 1 ws [] c q w Hin Hne Hws) as (mem' & k' & Hr & Hwa & Hi' & Ho & Hfr & Hk).
  { intros a Ha. apply Hbuf. lia. }
  exists mem', k'. split; [|split_and!; [exact Hi'|exact Ho| |exact Hk]].
  - unfold portal_recv. rewrite (bind_ok _ _ _ _ _ (get_pint_ok _ _ _ Hp)), HMI, HRV.
    unfold mapchannel_socket. rewrite bind_assoc, (bind_ok _ _ _ _ _ (get_pint_ok _ _ _ Hp)), bind_ret, Hb.
    cbn [ptr_add]. change (0 + 1) with 1. unfold recv_socket. rewrite bind_assoc.
    rewrite (bind_ok _ _ _ _ _ (get_pint_ok _ _ _ Hp)), Hf, bind_assoc, bind_defined, bind_assoc.
    rewrite Z.mul_comm, (bind_ok _ _ _ _ _ Hr), bind_ret. by apply read_words_mem.
  - intros b' a Hb'. apply Hfr. tauto.
Qed.

(** Clients with nothing to read are passed over. *)
Lemma event_clients_skip p x d : forall turns j w,
  w_pints w !! p = Some x -> (d < turns)%nat -> j + Z.of_nat d < client_fd_number x ->
  (forall i, j <= i < j + Z.of_nat d ->
     exists f, znth (client_fd x) i = Some f /\ inbox (w_kern w) f = []) ->
  exists k', (forall g, inbox k' g = inbox (w_kern w) g) /\
    event_clients hcall turns p j w =
    event_clients hcall (turns - d) p (j + Z.of_nat d) (set_w_kern k' w).
Proof.
  induction d as [|d IH]; intros turns j w Hp Ht Hj Hidle.
  - exists (w_kern w). split; [done|]. rewrite Nat.sub_0_r, Z.add_0_r.
    replace (set_w_kern (w_kern w) w) with w by (by destruct w). done.
  - destruct (Hidle j) as (f & Hf & Hin); [lia|].
    destruct (stream_empty f 4 (w_kern w) Hin) as (k1 & Hr & He & Hk1).
    destruct turns as [|turns]; [lia|].
    destruct (IH turns (j + 1) (set_w_kern k1 w)) as (k' & Hk' & Hrun); [done|lia|lia| |].
    { intros i Hi. destruct (Hidle i) as (g & Hg & Hg'); [lia|]. exists g. split; [done|].
      cbn. by rewrite Hk1. }
    exists k'. split; [intros g; rewrite Hk'; apply Hk1|].
    replace (S turns - S d)%nat with (turns - d)%nat by lia.
    replace (j + Z.of_nat (S d)) with (j + 1 + Z.of_nat d) by lia.
    cbn [event_clients]. rewrite (bind_ok _ _ _ _ _ (get_pint_ok _ _ _ Hp)), decide_True by lia.
    rewrite Hf, bind_defined.
    rewrite (bind_ok _ _ _ (-1, -1) (set_w_kern k1 w)).
    2:{ unfold portalRecvFd, sock_fd_read, mbind, M_bind, kcall. by rewrite Hr. }
    rewrite (bind_ok _ _ _ EAGAIN (set_w_kern k1 w)) by (unfold errno; cbn; by rewrite He).
    rewrite decide_True by done. rewrite Hrun. done.
Qed.

(** The first client with something to read gets its header read and its message
    handled, with the descriptor that came with it. *)
Lemma event_clients_data p x b n h d f hdr ws c q w :
  sock_portal b n p w x -> handler x = Some h ->
  Z.of_nat d < client_fd_number x ->
  (forall i, 0 <= i < Z.of_nat d ->
     exists g, znth (client_fd x) i = Some g /\ inbox (w_kern w) g = []) ->
  znth (client_fd x) (Z.of_nat d) = Some f ->
  inbox (w_kern w) f = (words_bytes (hdr :: ws), c) :: q -> in_u32 hdr -> 0 < n ->
  exists mem1 k1,
    let w1 := set_w_pints (<[p := set_indication_index (Z.of_nat d) x]> (w_pints w))
                (set_w_mem mem1 (set_w_kern k1 w)) in
    event_clients hcall (Z.to_nat (client_fd_number x)) p 0 w =
      (hcall h p (Z.shiftr hdr 16) (default (-1) c) ;; mret tt) w1 /\
    sock_portal b n p w1 (set_indication_index (Z.of_nat d) x) /\
    inbox k1 f = match ws with [] => q | _ => (words_bytes ws, None) :: q end /\
    (forall g, g <> f -> inbox k1 g = inbox (w_kern w) g) /\
    (forall b' a, b' <> b -> mem1 !! (b', a) = w_mem w !! (b', a)).
Proof.
  intros [Hp Hb Hi Hbuf] Hh Hd Hidle Hf Hin Hhdr Hn.
  destruct (event_clients_skip p x d (Z.to_nat (client_fd_number x)) 0 w Hp)
    as (k0 & Hk0 & Hrun); [lia|lia|exact Hidle|].
  rewrite Hrun. change (0 + Z.of_nat d) with (Z.of_nat d).
  destruct (portalRecvFd_ok f b 0 [hdr] ws c q (set_w_kern k0 w)) as (m1 & k1 & Hr & Hwa & Hi1 & Ho & Hfr & Hk).
  { cbn. rewrite Hk0. exact Hin. } { done. } { by constructor. }
  { intros a Ha. cbn in Ha. apply Hbuf. lia. }
  exists m1, k1. cbn zeta. split.
  - destruct (Z.to_nat (client_fd_number x) - d)%nat as [|t] eqn:Ht; [lia|].
    cbn [event_clients]. rewrite (bind_ok _ _ _ _ _ (get_pint_ok p x (set_w_kern k0 w) Hp)).
    rewrite decide_True by lia. rewrite Hf, bind_defined, Hb.
    rewrite (bind_ok _ _ _ _ _ Hr). cbn [length Z.of_nat Pos.of_succ_nat].
    unfold mbind at 1, M_bind at 1, errno.
    rewrite decide_False by lia. rewrite !decide_False by lia. rewrite bind_ret.
    rewrite (bind_ok _ _ _ _ _ (upd_pint_ok p x _ (set_w_mem m1 (set_w_kern k1 (set_w_kern k0 w))) Hp)).
    set (x1 := set_indication_index _ x).
    rewrite (bind_ok _ _ _ x1 _) by (apply get_pint_ok, lookup_insert_eq).
    change (handler x1) with (handler x). change (map_base x1) with (map_base x). rewrite Hh, Hb.
    assert (Hl : m1 !! (b, 0) = Some hdr) by exact (Hwa 0%nat hdr eq_refl).
    rewrite (bind_ok _ _ _ hdr _) by (apply load_blk; exact Hl). done.
  - split_and!.
    + split; cbn; [apply lookup_insert_eq|done|done|]. intros a Ha. apply Hk, Hbuf, Ha.
    + exact Hi1.
    + intros g Hg. rewrite (Ho g Hg). apply Hk0.
    + intros b' a Hb'. apply Hfr. tauto.
Qed.

Lemma msg_hdr_chan m : 0 <= fst m < 65536 -> msg_words m < 65536 -> Z.shiftr (msg_hdr m) 16 = fst m.
Proof.
  intros Hc Hl. pose proof (msg_size_bounds m). rewrite Z.shiftr_div_pow2 by lia.
  unfold msg_hdr. change (2 ^ 16) with 65536. zlia.
Qed.

(** * Properties *)

(** The segment of a request. *)
Definition seg_of (rq : MMUReq) : list Z * option Z :=
  (words_bytes (msg_hdr (req_msg rq) :: snd (req_msg rq)), fd_opt (req_fd rq)).

Definition fd_ok (rq : MMUReq) : Prop := match rq with IdRequest fd => 0 <= fd | _ => True end.

Lemma req_msg_words rq : msg_words (req_msg rq) <= 11 /\ snd (req_msg rq) <> [].
Proof. destruct rq; done. Qed.

Lemma req_msg_u32 rq : Forall in_u32 (snd (req_msg rq)).
Proof. cbn. rewrite arg_word_encode. apply encode_in_u32. Qed.

Lemma req_hdr_u32 rq : in_u32 (msg_hdr (req_msg rq)).
Proof. destruct rq; unfold in_u32; vm_compute; split; discriminate || reflexivity. Qed.

(** A proxy call on a connected socket portal sends one segment to the peer:
    the header word and the argument words of the request, little-endian, with
    the descriptor of the request when it has one; no other connection and no
    memory but the portal's own buffer is touched. *)
Theorem socket_request_sent p rq w x b n f :
  sock_portal b n p w x -> 11 <= n < 65536 -> client_fd_number x <> 0 ->
  znth (client_fd x) (request_index x) = Some f ->
  exists mem' k', mmu_call tab p rq w = Ok tt (set_w_kern k' (set_w_mem mem' w)) /\
    inbox k' (peer f) = inbox (w_kern w) (peer f) ++ [seg_of rq] /\
    (forall g, g <> peer f -> inbox k' g = inbox (w_kern w) g) /\
    (forall b' a, b' <> b -> mem' !! (b', a) = w_mem w !! (b', a)).
Proof.
  intros HP Hn Hcl Hf. rewrite mmu_call_send.
  pose proof (req_msg_chan rq). destruct (req_msg_words rq) as [Hw _].
  unfold msg_words in Hw. cbn in Hw. rewrite length_map in Hw.
  destruct (portal_send_sock p (req_chan rq) (encode rq) (req_fd rq) w x b n f HP Hcl Hf)
    as (m & k & H1 & H2 & H3 & H4 & _); [cbn in *; lia|lia|lia|]. eauto 10.
Qed.

Variable mmu_cb : ptr -> MMURequestCb (K := K).
Variable h : nat.
Hypothesis Hh : forall p c fd w,
  hcall h p c fd w = MMURequest_handleMessage tab mmu_cb p c fd w.

(** C18: [event_socket] on a portal with a client whose first segment is a request
    (the clients before it having nothing to read) takes that segment off the
    connection, makes the callback of the request with the arguments and the
    descriptor that were sent, and then looks for a new client. *)
Theorem socket_event_delivers p x b n d f rq q w :
  sock_portal b n p w x -> 11 <= n -> handler x = Some h ->
  0 <= Z.of_nat d < client_fd_number x ->
  (forall i, 0 <= i < Z.of_nat d ->
     exists g, znth (client_fd x) i = Some g /\ inbox (w_kern w) g = []) ->
  znth (client_fd x) (Z.of_nat d) = Some f ->
  inbox (w_kern w) f = seg_of rq :: q -> req_ok rq -> fd_ok rq ->
  exists w2, event_socket hcall p w =
      (mmu_dispatch mmu_cb (set_indication_index (Z.of_nat d) x) p rq ;; event_accept p) w2 /\
    sock_portal b n p w2 (set_indication_index (Z.of_nat d) x) /\
    inbox (w_kern w2) f = q /\ (forall g, g <> f -> inbox (w_kern w2) g = inbox (w_kern w) g) /\
    (forall b' a, b' <> b -> w_mem w2 !! (b', a) = w_mem w !! (b', a)).
Proof.
  intros HP Hn Hhd Hd Hidle Hf Hin Hok Hfd. unfold seg_of in Hin.
  destruct (req_msg_words rq) as [Hw Hne]. pose proof (req_msg_chan rq) as Hc.
  destruct (event_clients_data p x b n h d f (msg_hdr (req_msg rq)) (snd (req_msg rq))
              (fd_opt (req_fd rq)) q w HP Hhd (proj2 Hd) Hidle Hf Hin (req_hdr_u32 rq) ltac:(lia))
    as (m1 & k1 & Hrun & HP1 & Hi1 & Ho1 & Hm1).
  rewrite msg_hdr_chan in Hrun by lia.
  set (x1 := set_indication_index (Z.of_nat d) x) in *.
  set (w1 := set_w_pints _ _) in *.
  destruct (portal_recv_sock p (req_chan rq) w1 x1 b n f (snd (req_msg rq)) q None HP1 Hf)
    as (m2 & k2 & Hrv & Hi2 & Ho2 & Hm2 & Hk2); [|done|apply req_msg_u32| |].
  { cbn [w_kern w1 set_w_pints set_w_mem set_w_kern]. rewrite Hi1. by destruct (snd (req_msg rq)). }
  { unfold msg_words in Hw. lia. }
  exists (set_w_mem m2 (set_w_kern k2 w1)). split_and!.
  - unfold event_socket. rewrite (bind_ok _ _ _ _ _ (get_pint_ok _ _ _ (sp_pint _ _ _ _ _ HP))).
    unfold mbind, M_bind. rewrite Hrun. unfold mbind, M_bind. rewrite Hh.
    rewrite (handleMessage_recv tab mmu_cb p x1 _ _ _ _ rq w1 _ (sp_pint _ _ _ _ _ HP1) Hrv (req_msg_u32 rq)).
    2:{ cbn [fst snd req_msg]. rewrite arg_word_encode. pose proof (decode_encode _ Hok) as Hdec.
        destruct rq as [| |fd| |]; try exact Hdec. assert (0 <= fd) by exact Hfd.
        cbn [req_fd]. unfold fd_opt. by rewrite decide_True by lia. }
    unfold mbind, M_bind. by destruct (mmu_dispatch _ _ _ _ _).
  - destruct HP1 as [? ? ? Hb1]. split; try done. intros a Ha. apply Hk2, Hb1, Ha.
  - exact Hi2.
  - intros g Hg. cbn. rewrite Ho2 by done. cbn. by apply Ho1.
  - intros b' a Hb'. cbn. rewrite Hm2 by done. cbn. by apply Hm1.
Qed.

End SocketRpc.

Section SocketLife.
Context {K : Type} `{!Device K} `{!PortalOs K} `{!PollOs K} `{!SockOs K}.
Local Abbreviation W := (World K).
Implicit Types (w : W) (x : PortalInternal).

(** * Connecting *)

(** The kernel before the [i]-th attempt, when the ones before it failed. *)
Fixpoint attempt (sockfd : Z) (a : sockaddr) (i : nat) (k : K) : K :=
  match i with
  | O => k
  | S i => attempt sockfd a i (sk_sleep 1 (snd (sk_connect sockfd a k)))
  end.

Lemma connect_loop_step n sockfd a w :
  fst (sk_connect sockfd a (w_kern w)) = -1 ->
  connect_loop (S n) sockfd a w =
  connect_loop n sockfd a (set_w_kern (sk_sleep 1 (snd (sk_connect sockfd a (w_kern w)))) w).
Proof.
  intros H. cbn [connect_loop]. unfold mbind at 1, M_bind at 1, kcall.
  destruct (sk_connect sockfd a (w_kern w)) as [rc k]. cbn in H. subst rc.
  rewrite decide_True by done. done.
Qed.

Lemma connect_loop_ok i : forall n sockfd a w rc k,
  (i <= n)%nat ->
  (forall j, (j < i)%nat -> fst (sk_connect sockfd a (attempt sockfd a j (w_kern w))) = -1) ->
  sk_connect sockfd a (attempt sockfd a i (w_kern w)) = (rc, k) ->
  (rc <> -1 -> connect_loop n sockfd a w = Ok tt (set_w_kern k w)) /\
  (rc = -1 -> i = n -> connect_loop n sockfd a w = Exit 1 (set_w_kern k w)).
Proof.
  induction i as [|i IH]; intros n sockfd a w rc k Hn Hfail Hc.
  - cbn in Hc. split; intros Hrc; [|intros <-];
      [destruct n|]; cbn [connect_loop]; unfold mbind at 1, M_bind at 1, kcall; rewrite Hc;
      case_decide; done.
  - destruct n as [|n]; [lia|]. rewrite connect_loop_step by (apply (Hfail 0%nat); lia).
    destruct (IH n sockfd a (set_w_kern (sk_sleep 1 (snd (sk_connect sockfd a (w_kern w)))) w) rc k)
      as [H1 H2]; [lia| |exact Hc|].
    { intros j Hj. apply (Hfail (S j)). lia. }
    split; [exact H1|]. intros Hrc Hin. apply H2; [done|lia].
Qed.

(** [init_connecting] retries once a second: it returns the socket when one of
    the first 18 attempts succeeds, and exits with status 1 when all 18 fail. *)
Theorem init_connecting_retries name param w s k0 i rc k :
  sk_socket (w_kern w) = (s, k0) -> s <> -1 -> (i <= 17)%nat ->
  (forall j, (j < i)%nat -> fst (sk_connect s (addr_of name param) (attempt s (addr_of name param) j k0)) = -1) ->
  sk_connect s (addr_of name param) (attempt s (addr_of name param) i k0) = (rc, k) ->
  rc <> -1 \/ i = 17%nat ->
  init_connecting name param w =
    if decide (rc = -1) then Exit 1 (set_w_kern k w) else Ok s (set_w_kern k w).
Proof.
  intros Hs Hs1 Hi Hfail Hc Hend. unfold init_connecting.
  rewrite (bind_ok _ _ _ s (set_w_kern k0 w)) by (unfold kcall; by rewrite Hs).
  rewrite decide_False by done.
  destruct (connect_loop_ok i 17 s (addr_of name param) (set_w_kern k0 w) rc k Hi Hfail Hc) as [H1 H2].
  case_decide as Hrc.
  - unfold mbind, M_bind. rewrite H2; [done|done|]. tauto.
  - by rewrite (bind_ok _ _ _ _ _ (H1 Hrc)).
Qed.

(** * Clients that come and go *)

(** A listening portal that already has [MAX_CLIENT_FD] clients writes behind
    the end of [client_fd] when an eleventh connects: the code does not check
    the bound, and the access is undefined. *)
Theorem event_accept_overflow p x w s k :
  w_pints w !! p = Some x -> client_fd_number x = Z.of_nat MAX_CLIENT_FD ->
  length (client_fd x) = MAX_CLIENT_FD -> fpga_fd x <> -1 ->
  sk_accept (fpga_fd x) (w_kern w) = (s, k) -> s <> -1 ->
  event_accept p w = Fault.
Proof.
  intros Hp Hn Hl Hfd Ha Hs. unfold event_accept.
  rewrite (bind_ok _ _ _ _ _ (get_pint_ok _ _ _ Hp)), decide_True by done.
  unfold mbind at 1, M_bind at 1. rewrite (bind_ok _ _ _ s (set_w_kern k w)).
  2:{ unfold accept_socket, kcall, mbind, M_bind. rewrite Ha. by rewrite decide_False. }
  rewrite decide_True by done. unfold mbind at 1, M_bind at 1, push_client.
  rewrite (bind_ok _ _ _ _ _ (get_pint_ok p x (set_w_kern k w) Hp)), Hn.
  unfold zupd. rewrite Hl, decide_False by lia. done.
Qed.

Variable hcall : nat -> nat -> Z -> Z -> M W Z.

(** When the first client of a portal closes its connection, the client is
    removed and its descriptor closed, but the handler is still called, with
    descriptor -1 and the channel of whatever header the buffer holds from an
    earlier message. *)
Theorem event_clients_eof p x h f rest t b hdr w k :
  w_pints w !! p = Some x -> handler x = Some h -> client_fd x = f :: rest ->
  length (client_fd x) = MAX_CLIENT_FD ->
  0 < client_fd_number x <= Z.of_nat MAX_CLIENT_FD -> map_base x = Pblk b 0 ->
  sk_recvmsg f 4 (w_kern w) = (REof, k) -> w_mem w !! (b, 0) = Some hdr ->
  exists x', client_fd_number x' = client_fd_number x - 1 /\
    take (Z.to_nat (client_fd_number x')) (client_fd x') =
      take (Z.to_nat (client_fd_number x')) rest /\
    event_clients hcall (S t) p 0 w =
      (hcall h p (Z.shiftr hdr 16) (-1) ;; mret tt)
        (set_w_pints (<[p := x']> (w_pints w)) (set_w_kern (os_close f k) w)).
Proof.
  intros Hp Hh Hcl Hlen Hn Hb Hr Hm.
  assert (Hgap : exists l', close_gap (Z.to_nat (client_fd_number x - 1)) (client_fd_number x - 1)
             (client_fd x) 0 = Some l' /\
             take (Z.to_nat (client_fd_number x - 1)) l' = take (Z.to_nat (client_fd_number x - 1)) rest).
  { destruct (shift_down_spec (Z.to_nat (client_fd_number x)) (Z.to_nat (client_fd_number x - 1)) 0 (client_fd x))
      as (l' & Hs & _ & Ht & _); [lia|lia|].
    exists l'. split.
    - assert (Heq : forall turns l j, close_gap turns (client_fd_number x - 1) l j =
                shift_down turns (client_fd_number x) l j).
      { induction turns as [|turns IH]; intros l j; [done|]. cbn [close_gap shift_down].
        case_decide; [|done]. destruct (znth l (j + 1)); [|done]. cbn.
        destruct (zupd l j z); [|done]. cbn. apply IH. }
      rewrite Heq. rewrite Z2Nat.id in Hs by lia. exact Hs.
    - replace (Z.to_nat (client_fd_number x - 1)) with (Z.to_nat (client_fd_number x) - 1)%nat by lia.
      rewrite Ht by lia. rewrite Hcl. destruct (Z.to_nat (client_fd_number x)) eqn:E; [lia|].
      cbn. by rewrite Nat.sub_0_r. }
  destruct Hgap as (l' & Hg & Ht).
  set (x1 := set_client_fd l' (set_client_fd_number (client_fd_number x - 1) x)).
  exists (set_indication_index 0 x1). split_and!; [done|exact Ht|].
  cbn [event_clients]. rewrite (bind_ok _ _ _ _ _ (get_pint_ok _ _ _ Hp)), decide_True by lia.
  rewrite Hcl. change (znth (f :: rest) 0) with (Some f). rewrite bind_defined, <- Hcl.
  rewrite (bind_ok _ _ _ (0, -1) (set_w_kern k w)).
  2:{ unfold portalRecvFd, sock_fd_read, mbind, M_bind, kcall. by rewrite Hr. }
  unfold mbind at 1, M_bind at 1, errno. rewrite decide_False by lia. rewrite decide_False by lia.
  rewrite decide_True by done. rewrite Hg.
  rewrite (bind_ok _ _ _ tt (set_w_pints (<[p := x1]> (w_pints w)) (set_w_kern (os_close f k) w))) by done.
  assert (Hp1 : forall y, w_pints (set_w_pints (<[p := y]> (w_pints w)) (set_w_kern (os_close f k) w)) !! p = Some y)
    by (intros y; apply lookup_insert_eq).
  rewrite (bind_ok _ _ _ _ _ (upd_pint_ok p x1 _ _ (Hp1 x1))). cbn [w_pints set_w_pints].
  rewrite insert_insert_eq.
  rewrite (bind_ok _ _ _ _ _ (get_pint_ok p (set_indication_index 0 x1)
    (set_w_pints (<[p := set_indication_index 0 x1]> (w_pints w)) (set_w_kern (os_close f k) w)) (Hp1 _))).
  change (handler _) with (handler x). change (map_base _) with (map_base x). rewrite Hh, Hb.
  rewrite (bind_ok _ _ _ hdr _) by (apply load_blk; exact Hm). done.
Qed.

End SocketLife.

Section Mux.
Context {K : Type} `{!Device K} `{!PortalOs K} `{!PollOs K} `{!SockOs K}.
Local Abbreviation W := (World K).
Implicit Types (w : W) (x : PortalInternal).
Variable tab tab' : ItemId -> PortalItemFunctions K.
Variable hcall : nat -> nat -> Z -> Z -> M W Z.
Hypothesis Htab : tab muxfunc = muxfunc_table tab'.
Hypothesis HtabI : it_send (tab' socketfuncInit) = send_socket hcall.
Hypothesis HtabR : it_send (tab' socketfuncResp) = send_socket hcall.

(** Every request sent through the multiplexer over a socket transport writes
    one word in front of the portal's buffer: [send_mux] passes the start of
    the block it got from [malloc] where [send_socket] expects the word behind
    the header, so [send_socket] stores the outer header at index -1. *)
Theorem mux_send_underflow p m x mx b n chan l fd w :
  w_pints w !! p = Some x -> item x = Some muxfunc -> mux x = Some m -> p <> m ->
  map_base x = Pblk b 0 -> (forall a, 0 <= a < n -> is_Some (w_mem w !! (b, a))) ->
  w_mem w !! (b, -1) = None ->
  w_pints w !! m = Some mx -> item mx = Some socketfuncInit \/ item mx = Some socketfuncResp ->
  1 + Z.of_nat (length l) <= n ->
  portal_send tab p chan l fd w = Fault.
Proof.
  intros Hp Hi Hm Hpm Hb Hbuf Hneg Hmx Him Hn.
  assert (Hit : item_of tab x = muxfunc_table tab') by (unfold item_of; by rewrite Hi).
  unfold portal_send. rewrite (bind_ok _ _ _ _ _ (get_pint_ok _ _ _ Hp)), Hit.
  cbn [it_mapchannelReq it_busywait it_send muxfunc_table]. unfold mapchannel_socket.
  rewrite bind_assoc, (bind_ok _ _ _ _ _ (get_pint_ok _ _ _ Hp)), bind_ret, Hb. cbn [ptr_add].
  change (0 + 1) with 1. unfold busy_portal_null. rewrite bind_ret, decide_False by lia.
  destruct (write_args_mem (muxfunc_table tab') p b l 1 w) as (m1 & Hr1 & _ & Hf1 & Hk1); try done.
  { intros a Ha. apply Hbuf. lia. }
  rewrite (bind_ok _ _ _ _ _ Hr1). unfold send_mux. cbn [ptr_add]. change (1 + -1) with 0.
  destruct (Hk1 (b, 0)) as [v0 Hv0]; [apply Hbuf; lia|].
  rewrite (bind_ok _ _ _ _ _ (store_blk b 0 _ v0 (set_w_mem m1 w) Hv0)).
  set (w2 := set_w_mem _ (set_w_mem m1 w)).
  rewrite (bind_ok _ _ _ _ _ (get_pint_ok p x w2 Hp)), Hm, bind_defined.
  rewrite (bind_ok _ _ _ _ _ (upd_pint_ok m mx _ w2 Hmx)).
  set (mx' := set_request_index _ mx).
  rewrite (bind_ok _ _ _ mx' _) by (apply get_pint_ok, lookup_insert_eq).
  assert (Hs : it_send (item_of tab' mx') = send_socket hcall).
  { unfold item_of. destruct Him as [Him|Him]; change (item mx') with (item mx); rewrite Him; done. }
  rewrite Hs. unfold send_socket. cbn [ptr_add]. change (0 + -1) with (-1).
  unfold mbind at 1, M_bind at 1. unfold store. cbn [w_mem set_w_pints w2 set_w_mem].
  rewrite lookup_insert_ne by (intros [=]). rewrite Hf1, Hneg by lia. done.
Qed.
End Mux.

(** * A concrete kernel *)
Module SocketDemo.
Record net : Type := { box : Z -> list (list Z * option Z); seen : list MMUReq }.

Definition upd_box (f : Z) (l : list (list Z * option Z)) (k : net) : net :=
  {| box := fun g => if decide (g = f) then l else box k g; seen := seen k |}.
Definition peer (f : Z) : Z := f + 1.

#[local] Instance dev : Device net :=
  {| mmio_read := fun _ k => (0, k); mmio_write := fun _ _ k => k; dev_tick := fun k => k |}.
#[local] Instance os : PortalOs net :=
  {| os_open_portal := fun _ k => (3, k); os_open_portalmem := fun k => (4, k);
     os_pa_malloc := fun _ _ k => (5, k); os_mmap := fun _ _ k => (NULL, k); os_errno := fun _ => 0 |}.
#[local] Instance polls : PollOs net := {| os_poll := fun _ _ k => (0, k); os_close := fun _ k => k |}.
#[local] Instance sock : SockOs net :=
  {| sk_socket := fun k => (5, k); sk_connect := fun _ _ k => (0, k); sk_unlink := fun _ k => k;
     sk_bind := fun _ _ k => (0, k); sk_listen := fun _ _ k => (0, k);
     sk_accept := fun _ k => (12, k); sk_nonblock := fun _ k => k; sk_sleep := fun _ k => k;
     sk_sendmsg := fun f l c k => (Z.of_nat (length l), upd_box (peer f) (box k (peer f) ++ [(l, c)]) k);
     sk_recvmsg := fun f n k =>
       match box k f with
       | [] => (RErr, k)
       | (l, c) :: q =>
           (RData (take (Z.to_nat n) l) (ScmRights <$> c),
            upd_box f (match drop (Z.to_nat n) l with [] => q | r => (r, None) :: q end) k)
       end;
     sk_errno := fun _ => EAGAIN |}.

#[local] Instance streams : StreamSockets net box peer.
Proof.
  split.
  - intros f l c k _. eexists. split; [reflexivity|]. split; cbn; [by rewrite decide_True|].
    intros g Hg. by rewrite decide_False.
  - intros f n k l c q Hq Hn. cbn. rewrite Hq. eexists. split; [reflexivity|].
    split; cbn; [by rewrite decide_True|]. intros g Hg. by rewrite decide_False.
  - intros f n k Hq. cbn. rewrite Hq. exists k. done.
Qed.

Local Abbreviation W := (World net).
Definition record (rq : MMUReq) : M W unit :=
  modifyW (fun w => set_w_kern {| box := box (w_kern w); seen := seen (w_kern w) ++ [rq] |} w).
Definition cbs (_ : ptr) : MMURequestCb :=
  {| cb_sglist := fun _ i y a l => record (Sglist i y a l);
     cb_region := fun _ i b8 i8 b4 i4 b0 i0 => record (Region i b8 i8 b4 i4 b0 i0);
     cb_idRequest := fun _ fd => record (IdRequest fd);
     cb_idReturn := fun _ i => record (IdReturn i);
     cb_setInterface := fun _ f i => record (SetInterface f i) |}.
Definition no_hcall (_ _ : nat) (_ _ : Z) : M W Z := fault.
Definition table (hc : nat -> nat -> Z -> Z -> M W Z) (i : ItemId) : PortalItemFunctions net :=
  match i with
  | socketfuncInit => socketfuncInit_table hc
  | socketfuncResp => socketfuncResp_table hc
  | _ => no_item
  end.
Definition hcall (h p : nat) (c fd : Z) : M W Z := MMURequest_handleMessage (table no_hcall) cbs p c fd.

Lemma sock_hcall_eq p c fd w : hcall 7 p c fd w = MMURequest_handleMessage (table hcall) cbs p c fd w.
Proof.
  unfold hcall. apply handleMessage_ext; intros [];
    cbv [table socketfuncInit_table socketfuncResp_table it_read it_recv it_mapchannelInd];
    reflexivity.
Qed.

Definition pint : PortalInternal :=
  set_handler (Some 7%nat) (set_item (Some socketfuncInit) (set_map_base (Pblk 1 0)
    (set_client_fd_number 1 (set_client_fd (5 :: replicate 9 0) (set_fpga_fd (-1) PortalInternal_zero))))).
Definition world (x : PortalInternal) (k : net) : W :=
  set_w_mem (fresh_words 1 (fun _ => 0) 11 ∅) (set_w_pints (<[0%nat := x]> ∅) (start_world k)).
Definition quiet : net := {| box := fun _ => []; seen := [] |}.

Lemma sock_portal_ok x k : map_base x = Pblk 1 0 -> item x = Some socketfuncInit ->
  sock_portal 1 11 0 (world x k) x.
Proof.
  intros Hb Hi. split; [reflexivity|exact Hb|by left|].
  intros a Ha. cbn [w_mem world set_w_mem]. rewrite fresh_words_lookup by lia. eauto.
Qed.

Lemma socket_request_sent_witness :
  exists mem' k', mmu_call (table hcall) 0 (IdRequest 9) (world pint quiet) =
      Ok tt (set_w_kern k' (set_w_mem mem' (world pint quiet))) /\
    box k' 6 = [seg_of (IdRequest 9)] /\
    (forall g, g <> 6 -> box k' g = []) /\
    (forall b' a, b' <> 1%nat -> mem' !! (b', a) = fresh_words 1 (fun _ => 0) 11 ∅ !! (b', a)).
Proof.
  apply (socket_request_sent box peer (table hcall) hcall eq_refl eq_refl 0 (IdRequest 9)
           (world pint quiet) pint 1 11 5).
  - apply sock_portal_ok; reflexivity.
  - lia.
  - discriminate.
  - reflexivity.
Defined.

Definition waiting : net := {| box := fun f => if decide (f = 5) then [seg_of (IdRequest 9)] else []; seen := [] |}.

Lemma socket_event_delivers_witness :
  exists w2, event_socket hcall 0 (world pint waiting) =
      (mmu_dispatch cbs (set_indication_index 0 pint) 0 (IdRequest 9) ;; event_accept 0) w2 /\
    sock_portal 1 11 0 w2 (set_indication_index 0 pint) /\
    box (w_kern w2) 5 = [] /\ (forall g, g <> 5 -> box (w_kern w2) g = box waiting g) /\
    (forall b' a, b' <> 1%nat -> w_mem w2 !! (b', a) = fresh_words 1 (fun _ => 0) 11 ∅ !! (b', a)).
Proof.
  apply (socket_event_delivers box peer (table hcall) hcall eq_refl eq_refl cbs 7 sock_hcall_eq
           0 pint 1 11 0 5 (IdRequest 9) [] (world pint waiting)).
  - apply sock_portal_ok; reflexivity.
  - lia.
  - reflexivity.
  - cbn. lia.
  - intros i Hi. lia.
  - reflexivity.
  - reflexivity.
  - cbn. lia.
  - cbn. lia.
Defined.

Lemma init_connecting_retries_witness :
  init_connecting (SWSOCK 1) NoParam (world pint quiet) = Ok 5 (world pint quiet).
Proof.
  apply (init_connecting_retries (SWSOCK 1) NoParam (world pint quiet) 5 quiet 0 0 quiet).
  - reflexivity.
  - discriminate.
  - lia.
  - intros j Hj. lia.
  - reflexivity.
  - left. discriminate.
Defined.

Definition full : PortalInternal :=
  set_client_fd_number 10 (set_fpga_fd 3 pint).

Lemma event_accept_overflow_witness : event_accept 0 (world full quiet) = Fault.
Proof.
  apply (event_accept_overflow 0 full (world full quiet) 12 quiet).
  - reflexivity.
  - reflexivity.
  - reflexivity.
  - discriminate.
  - reflexivity.
  - discriminate.
Defined.

Definition mpint : PortalInternal := set_item (Some muxfunc) (set_mux (Some 2%nat) pint).
Definition mux_table (i : ItemId) : PortalItemFunctions net :=
  match i with muxfunc => muxfunc_table (table hcall) | _ => table hcall i end.
Definition mux_world : W :=
  set_w_pints (<[0%nat := mpint]> (<[2%nat := pint]> ∅)) (world pint quiet).

Lemma mux_send_underflow_witness : portal_send mux_table 0 3 [AWord 5] (-1) mux_world = Fault.
Proof.
  apply (mux_send_underflow mux_table (table hcall) hcall eq_refl eq_refl eq_refl 0 2 mpint pint 1 11 3 [AWord 5] (-1) mux_world).
  - reflexivity.
  - reflexivity.
  - reflexivity.
  - discriminate.
  - reflexivity.
  - intros a Ha. cbn [w_mem mux_world world set_w_mem set_w_pints].
    rewrite fresh_words_lookup by lia. eauto.
  - reflexivity.
  - reflexivity.
  - left. reflexivity.
  - cbn. lia.
Defined.
End SocketDemo.

(** A peer that has closed its connections. *)
Module SocketEof.
#[local] Instance dev : Device nat :=
  {| mmio_read := fun _ k => (0, k); mmio_write := fun _ _ k => k; dev_tick := fun k => k |}.
#[local] Instance os : PortalOs nat :=
  {| os_open_portal := fun _ k => (3, k); os_open_portalmem := fun k => (4, k);
     os_pa_malloc := fun _ _ k => (5, k); os_mmap := fun _ _ k => (NULL, k); os_errno := fun _ => 0 |}.
#[local] Instance polls : PollOs nat := {| os_poll := fun _ _ k => (0, k); os_close := fun _ k => S k |}.
#[local] Instance sock : SockOs nat :=
  {| sk_socket := fun k => (5, k); sk_connect := fun _ _ k => (0, k); sk_unlink := fun _ k => k;
     sk_bind := fun _ _ k => (0, k); sk_listen := fun _ _ k => (0, k);
     sk_accept := fun _ k => (-1, k); sk_nonblock := fun _ k => k; sk_sleep := fun _ k => k;
     sk_sendmsg := fun f l c k => (-1, k); sk_recvmsg := fun f n k => (REof, k);
     sk_errno := fun _ => EAGAIN |}.
Definition hcall (_ _ : nat) (_ _ : Z) : M (World nat) Z := mret 0.
Definition world : World nat :=
  set_w_mem {[ (1%nat, 0) := 0x30002 ]} (set_w_pints {[ 0%nat := SocketDemo.pint ]} (start_world 0%nat)).

Lemma event_clients_eof_witness :
  exists x', client_fd_number x' = 1 - 1 /\
    take (Z.to_nat (client_fd_number x')) (client_fd x') =
      take (Z.to_nat (client_fd_number x')) (replicate 9 0) /\
    event_clients hcall 1 0 0 world =
      (hcall 7 0 (Z.shiftr 0x30002 16) (-1) ;; mret tt)
        (set_w_pints (<[0%nat := x']> (w_pints world)) (set_w_kern 1%nat world)).
Proof.
  destruct (event_clients_eof hcall 0 SocketDemo.pint 7 5 (replicate 9 0) 0 1 0x30002 world 0%nat)
    as (x' & H1 & H2 & H3).
  - reflexivity.
  - reflexivity.
  - reflexivity.
  - reflexivity.
  - vm_compute. split; discriminate || reflexivity.
  - reflexivity.
  - reflexivity.
  - reflexivity.
  - exists x'. split; [exact H1|]. split; [exact H2|]. exact H3.
Defined.
End SocketEof.
