(* ===== verification/SendFd.v ===== *)
(** Giving a memory object to the hardware: [send_fd_to_portal] of
    [cpp/dmaSendFd.h] in its three builds (kernel driver, user space,
    simulator), its copy [send_reference_to_portal] of
    [lib/cpp/userReference.h], and the DMA manager of [cpp/dmaManager.c] and
    [cpp/dmaManager.h] that calls it. *)

From stdpp Require Import base gmap list fin_maps.
From Stdlib Require Import ZArith Lia.
From S2P Require Import Prelude PortalTypes PortalCore PortalCodec.

(** * What the code asks of the portal memory driver *)
Class MemOs (K : Type) : Type := {
  mo_dma_count : Z -> Z -> K -> (Z * Z) * K;              (* PA_DMA_ADDRESSES with no room: rc, numEntries *)
  mo_dma_entries : Z -> Z -> Z -> K -> (Z * list (Z * Z)) * K; (* PA_DMA_ADDRESSES: rc, (dma_address, length) *)
  mo_element_size : Z -> Z -> Z -> K -> Z * K;            (* PA_ELEMENT_SIZE of fd, index *)
  mo_sg_table : Z -> K -> list (Z * Z);                   (* sg_phys and length of fd's sg_table *)
  mo_pcie_send_fd : Z -> Z -> Z -> K -> Z * K             (* ioctl(fpga_fd, PCIE_SEND_FD, {fd, id}) *)
}.

Inductive build : Type := KERNEL | USER | SIM.

Definition PAGE_SHIFT0 : Z := 12.
Definition PAGE_SHIFT4 : Z := 16.
Definition PAGE_SHIFT8 : Z := 20.
Definition shifts : list Z := [PAGE_SHIFT8; PAGE_SHIFT4; PAGE_SHIFT0; 0].

(** [for (j = 0; j < 3; j++) if (len == 1<<shifts[j]) ...]: the [j] found. *)
Fixpoint find_shift (ss : list Z) (j : nat) (len : Z) : option (nat * Z) :=
  match ss with
  | s :: ss => if decide (len = Z.shiftl 1 s) then Some (j, s) else find_shift ss (S j) len
  | [] => None
  end.

(** The counts of the three sizes after an entry, and the address sent for it. *)
Definition sg_step (regions : list Z) (addr len : Z) : list Z * Z :=
  match find_shift (take 3 shifts) 0 len with
  | Some (j, s) => (alter (fun r => u32 (r + 1)) j regions, Z.shiftr addr s)
  | None => (regions, addr)
  end.

(** The loop that computes the borders and index offsets of the three regions:
    [ds] are the differences of successive shifts. *)
Fixpoint region_loop (regions ds : list Z) (border entryCount : Z) : list (Z * Z) :=
  match regions, ds with
  | r :: regions, d :: ds =>
      let idxOffset := u8 (entryCount - border) in
      let entryCount := u8 (entryCount + r) in
      let border := u64 (border + r) in
      (border, idxOffset) :: region_loop regions ds (u64 (Z.shiftl border d)) entryCount
  | _, _ => []
  end.

Definition shift_diffs : list Z :=
  [PAGE_SHIFT8 - PAGE_SHIFT4; PAGE_SHIFT4 - PAGE_SHIFT0; PAGE_SHIFT0 - 0].

Section SendFd.
Context {K : Type} `{!Device K} `{!PortalOs K} `{!MemOs K}.
Local Abbreviation W := (World K).
Variable tab : ItemId -> PortalItemFunctions K.

Definition DMAsglist (dev : nat) (id i addr len : Z) : M W unit :=
  MMURequest_sglist tab dev (u32 id) (u32 i) (u64 addr) (u32 len).

(** The body of the [for] loop. *)
Definition send_entry (dev : nat) (id i addr len : Z) (regions : list Z) : M W (list Z) :=
  let '(regions, addr) := sg_step regions addr len in
  DMAsglist dev id i addr len ;; mret regions.

(** Entries known in advance (the kernel's scatter list, the array the driver filled). *)
Fixpoint send_entries (dev : nat) (id i : Z) (l : list (Z * Z)) (regions : list Z) : M W (list Z) :=
  match l with
  | [] => mret regions
  | (addr, len) :: l =>
      regions ← send_entry dev id i addr len regions;
      send_entries dev id (i + 1) l regions
  end.

(** The simulator's loop asks for the size of each element until it is 0; the
    address of an element is its offset, below the id.  The result is the
    counts and the index reached, or the error. *)
Fixpoint send_elements (fuel : nat) (dev : nat) (fd id pa_fd i size_accum : Z) (regions : list Z)
    : M W (Z + (list Z * Z)) :=
  match fuel with
  | O => block
  | S fuel =>
      len ← kcall (mo_element_size pa_fd fd i);
      if decide (len < 0) then mret (inl len)
      else if decide (len = 0) then mret (inr (regions, i))
      else
        let addr := s64 (Z.lor size_accum (Z.shiftl id 32)) in
        regions ← send_entry dev id i addr len regions;
        send_elements fuel dev fd id pa_fd (i + 1) (s32 (size_accum + len)) regions
  end.

(** The end of the list, the borders and the region message. *)
Definition send_tail (dev : nat) (id n : Z) (regions : list Z) : M W unit :=
  DMAsglist dev id n 0 0 ;;
  match region_loop regions shift_diffs 0 0 with
  | [(b8, i8); (b4, i4); (b0, i0)] => MMURequest_region tab dev (u32 id) b8 i8 b4 i4 b0 i0
  | _ => mret tt
  end.

Definition send_fd_to_portal (bld : build) (fuel : nat) (dev : nat) (fd id pa_fd : Z) : M W Z :=
  match bld with
  | KERNEL =>
      w ← getW;
      let l := mo_sg_table fd (w_kern w) in
      regions ← send_entries dev id 0 l [0; 0; 0];
      send_tail dev id (Z.of_nat (length l)) regions ;; mret id
  | USER =>
      '(rc, numEntries) ← kcall (mo_dma_count pa_fd fd);
      if decide (rc <> 0) then mret rc
      else
        '(rc, entries) ← kcall (mo_dma_entries pa_fd fd numEntries);
        if decide (rc <> 0) then mret rc
        else if decide (numEntries <= Z.of_nat (length entries)) then
          let l := take (Z.to_nat numEntries) entries in
          regions ← send_entries dev id 0 l [0; 0; 0];
          send_tail dev id (Z.of_nat (length l)) regions ;; mret id
        else fault
  | SIM =>
      r ← send_elements fuel dev fd id pa_fd 0 0 [0; 0; 0];
      match r with
      | inl rc => mret rc
      | inr (regions, n) => send_tail dev id n regions ;; mret id
      end
  end.

(** [userReference.h]: the same for a given array of areas. *)
Definition send_reference_to_portal (dev : nat) (numEntries : Z) (data : list (Z * Z)) (id : Z) : M W Z :=
  if decide (numEntries <= Z.of_nat (length data)) then
    let l := take (Z.to_nat numEntries) data in
    regions ← send_entries dev id 0 l [0; 0; 0];
    send_tail dev id (Z.of_nat (length l)) regions ;; mret id
  else fault.

(** * The requests sent *)

(** The counts after the entries [l]. *)
Definition sg_counts (l : list (Z * Z)) (regions : list Z) : list Z :=
  foldl (fun rs e => fst (sg_step rs (fst e) (snd e))) regions l.

Definition sg_addr (addr len : Z) : Z :=
  match find_shift (take 3 shifts) 0 len with Some (_, s) => Z.shiftr addr s | None => addr end.

Definition sg_request (id i : Z) (e : Z * Z) : MMUReq :=
  Sglist (u32 id) (u32 i) (u64 (sg_addr (fst e) (snd e))) (u32 (snd e)).

Fixpoint sg_list (id i : Z) (l : list (Z * Z)) : list MMUReq :=
  match l with [] => [] | e :: l => sg_request id i e :: sg_list id (i + 1) l end.

Definition sg_region (id : Z) (regions : list Z) : list MMUReq :=
  match region_loop regions shift_diffs 0 0 with
  | [(b8, i8); (b4, i4); (b0, i0)] => [Region (u32 id) b8 i8 b4 i4 b0 i0]
  | _ => []
  end.

Definition sg_requests (id : Z) (l : list (Z * Z)) : list MMUReq :=
  sg_list id 0 l ++
  Sglist (u32 id) (u32 (Z.of_nat (length l))) 0 0 :: sg_region id (sg_counts l [0; 0; 0]).

Fixpoint mmu_calls (dev : nat) (l : list MMUReq) : M W unit :=
  match l with [] => mret tt | r :: l => mmu_call tab dev r ;; mmu_calls dev l end.

Lemma mmu_calls_app dev l1 l2 w :
  mmu_calls dev (l1 ++ l2) w = (mmu_calls dev l1 ;; mmu_calls dev l2) w.
Proof.
  revert w. induction l1 as [|r l1 IH]; intros w; [done|]. cbn [app mmu_calls].
  rewrite bind_assoc. apply bind_ext. intros [] w'. apply IH.
Qed.

Lemma sg_step_spec regions addr len : snd (sg_step regions addr len) = sg_addr addr len.
Proof. unfold sg_step, sg_addr. by destruct (find_shift _ _ _) as [[]|]. Qed.

Lemma send_entries_calls dev id l : forall i regions w,
  send_entries dev id i l regions w =
  (mmu_calls dev (sg_list id i l) ;; mret (sg_counts l regions)) w.
Proof.
  induction l as [|[addr len] l IH]; intros i regions w; [done|].
  cbn [send_entries sg_list mmu_calls]. unfold send_entry.
  pose proof (sg_step_spec regions addr len) as Hs.
  destruct (sg_step regions addr len) as [rs a] eqn:E. cbn in Hs. subst a.
  rewrite !bind_assoc. apply bind_ext. intros [] w'. rewrite bind_ret, IH.
  unfold sg_counts. cbn [foldl fst snd]. by rewrite E.
Qed.

Lemma region_loop_3 r0 r1 r2 : exists b8 i8 b4 i4 b0 i0,
  region_loop [r0; r1; r2] shift_diffs 0 0 = [(b8, i8); (b4, i4); (b0, i0)].
Proof. cbn. eauto 10. Qed.

Lemma sg_counts_3 l : forall r0 r1 r2, exists s0 s1 s2, sg_counts l [r0; r1; r2] = [s0; s1; s2].
Proof.
  induction l as [|[a n] l IH]; intros r0 r1 r2; [cbn; eauto|].
  unfold sg_counts. cbn [foldl fst snd]. unfold sg_step. cbn [take shifts find_shift].
  repeat case_decide; cbn; apply IH.
Qed.

Lemma send_tail_calls dev id n regions w : (exists s0 s1 s2, regions = [s0; s1; s2]) ->
  send_tail dev id n regions w =
  mmu_calls dev (Sglist (u32 id) (u32 n) 0 0 :: sg_region id regions) w.
Proof.
  intros (s0 & s1 & s2 & ->). unfold send_tail, sg_region.
  destruct (region_loop_3 s0 s1 s2) as (b8 & i8 & b4 & i4 & b0 & i0 & ->).
  cbn [mmu_calls]. apply bind_ext. intros [] w'.
  unfold mbind, M_bind, mret, M_ret. cbn [mmu_call]. by destruct (MMURequest_region _ _ _ _ _ _ _ _ _ _) as [[]| | | |].
Qed.

(** Everything after the entries are known is the list of requests. *)
Lemma send_all_calls dev id l w :
  (regions ← send_entries dev id 0 l [0; 0; 0];
   send_tail dev id (Z.of_nat (length l)) regions ;; mret id) w =
  (mmu_calls dev (sg_requests id l) ;; mret id) w.
Proof.
  unfold sg_requests. rewrite (bind_eq_l _ _ _ _ (send_entries_calls dev id l 0 [0; 0; 0] w)).
  rewrite (bind_eq_l _ _ _ _ (mmu_calls_app dev _ _ w)), !bind_assoc.
  apply bind_ext. intros [] w'. rewrite bind_ret.
  apply bind_eq_l, send_tail_calls, sg_counts_3.
Qed.

Lemma send_fd_cases fuel dev fd id pa_fd w n l k1 k2 rc1 rc2 :
  mo_dma_count pa_fd fd (w_kern w) = ((rc1, n), k1) ->
  mo_dma_entries pa_fd fd n k1 = ((rc2, l), k2) ->
  0 <= n -> length l = Z.to_nat n ->
  (rc1 <> 0 -> send_fd_to_portal USER fuel dev fd id pa_fd w = Ok rc1 (set_w_kern k1 w)) /\
  (rc1 = 0 -> rc2 <> 0 -> send_fd_to_portal USER fuel dev fd id pa_fd w = Ok rc2 (set_w_kern k2 w)) /\
  (rc1 = 0 -> rc2 = 0 -> send_fd_to_portal USER fuel dev fd id pa_fd w =
     (mmu_calls dev (sg_requests id l) ;; mret id) (set_w_kern k2 w)) /\
  send_fd_to_portal KERNEL fuel dev fd id pa_fd w =
     (mmu_calls dev (sg_requests id (mo_sg_table fd (w_kern w))) ;; mret id) w.
Proof.
  intros H1 H2 Hn Hl.
  assert (E1 : kcall (mo_dma_count pa_fd fd) w = Ok (rc1, n) (set_w_kern k1 w)).
  { unfold kcall. by rewrite H1. }
  assert (E2 : kcall (mo_dma_entries pa_fd fd n) (set_w_kern k1 w) = Ok (rc2, l) (set_w_kern k2 w)).
  { unfold kcall. cbn [w_kern set_w_kern]. by rewrite H2. }
  unfold send_fd_to_portal. split_and!.
  - intros Hr. rewrite (bind_ok _ _ _ _ _ E1). by rewrite decide_True.
  - intros -> Hr. rewrite (bind_ok _ _ _ _ _ E1), decide_False by lia.
    rewrite (bind_ok _ _ _ _ _ E2). by rewrite decide_True.
  - intros -> ->. rewrite (bind_ok _ _ _ _ _ E1), decide_False by lia.
    rewrite (bind_ok _ _ _ _ _ E2), decide_False by lia. rewrite decide_True by lia.
    rewrite take_ge by lia. apply send_all_calls.
  - apply send_all_calls.
Qed.

(** [send_fd_to_portal] in user space asks the driver twice, returns the
    driver's error without sending anything when either call fails, and
    otherwise sends exactly the list entries, the end marker and the region
    message of the areas the driver reported, and returns the id; the kernel
    build does the same for the scatter list of the buffer. *)
Theorem send_fd_requests fuel dev fd id pa_fd w n l k1 k2 rc1 rc2 :
  mo_dma_count pa_fd fd (w_kern w) = ((rc1, n), k1) ->
  mo_dma_entries pa_fd fd n k1 = ((rc2, l), k2) ->
  0 <= n -> length l = Z.to_nat n ->
  (rc1 <> 0 -> send_fd_to_portal USER fuel dev fd id pa_fd w = Ok rc1 (set_w_kern k1 w)) /\
  (rc1 = 0 -> rc2 <> 0 -> send_fd_to_portal USER fuel dev fd id pa_fd w = Ok rc2 (set_w_kern k2 w)) /\
  (rc1 = 0 -> rc2 = 0 -> send_fd_to_portal USER fuel dev fd id pa_fd w =
     (mmu_calls dev (sg_requests id l) ;; mret id) (set_w_kern k2 w)) /\
  send_fd_to_portal KERNEL fuel dev fd id pa_fd w =
     (mmu_calls dev (sg_requests id (mo_sg_table fd (w_kern w))) ;; mret id) w.
Proof. apply send_fd_cases. Qed.

End SendFd.
