(* ===== verification/Mmu.v ===== *)
(** The address translation of the DMA engine ([mkMMU] of [bsv/MMU.bsv]) and the
    theorem that ties it to the software: programmed with the messages of
    [send_fd_to_portal], it translates every offset of the memory object to the
    physical address of that byte. *)

From stdpp Require Import base gmap list fin_maps.
From Stdlib Require Import ZArith Lia.
From S2P Require Import Prelude PortalTypes PortalCore PortalCodec SendFd.

(** * The hardware *)

(** [Region]: barrier and index offset of the three page sizes. *)
Record region : Type := {
  barrier8 : Z; idxOffset8 : Z; barrier4 : Z; idxOffset4 : Z; barrier0 : Z; idxOffset0 : Z }.

(** The two block memories: [pages], addressed by list id and index, and [regall]. *)
Record mmu : Type := { pages : gmap (Z * Z) Z; regall : gmap Z region }.

Definition set_page (k : Z * Z) (v : Z) (m : mmu) : mmu :=
  {| pages := <[k := v]> (pages m); regall := regall m |}.

(** [MaxNumSGLists] is 32, [IndexWidth] 8, a [Page0] has 44 - 12 = 32 bits. *)
Definition list_idx (p : Z) : Z := p mod 32.
Definition index_bits (i : Z) : Z := i mod 256.
Definition page0_bits (a : Z) : Z := a mod 2 ^ 32.

(** The methods of [MMURequest]; [sglist] stops a simulation whose MMU has another id. *)
Definition mmu_request (iid : Z) (r : MMUReq) (m : mmu) : option mmu :=
  match r with
  | Sglist pointer pointerIndex addr len =>
      if decide (Z.shiftr pointer 16 = iid) then
        Some (set_page (list_idx pointer, index_bits pointerIndex) (page0_bits addr) m)
      else None
  | Region pointer barr8 index8 barr4 index4 barr0 index0 =>
      Some {| pages := pages m;
              regall := <[list_idx pointer :=
                {| barrier8 := page0_bits barr8; idxOffset8 := index_bits index8;
                   barrier4 := page0_bits barr4; idxOffset4 := index_bits index4;
                   barrier0 := page0_bits barr0; idxOffset0 := index_bits index0 |}]> (regall m) |}
  | IdReturn sglId => Some {| pages := pages m; regall := delete (list_idx sglId) (regall m) |}
  | IdRequest _ | SetInterface _ _ => Some m
  end.

Fixpoint mmu_requests (iid : Z) (l : list MMUReq) (m : mmu) : option mmu :=
  match l with [] => Some m | r :: l => m ← mmu_request iid r m; mmu_requests iid l m end.

Inductive trans : Type :=
| TransAddr (a : Z)
| DmaErrorSGLIdInvalid
| DmaErrorOffsetOutOfRange.

(** Stages 2 and 3: the region of an offset: its shift, and the base index and
    index offset of the entry. *)
Definition select (r : region) (off : Z) : option (Z * Z * Z) :=
  let off0 := Z.shiftr off 12 mod 2 ^ 32 in
  let off4 := Z.shiftr off 16 mod 2 ^ 28 in
  let off8 := Z.shiftr off 20 mod 2 ^ 24 in
  if decide (off8 < barrier8 r mod 2 ^ 24) then Some (20, index_bits (Z.shiftr off 20), idxOffset8 r)
  else if decide (off4 < barrier4 r mod 2 ^ 28) then Some (16, index_bits (Z.shiftr off 16), idxOffset4 r)
  else if decide (off0 < barrier0 r) then Some (12, index_bits (Z.shiftr off 12), idxOffset0 r)
  else None.

(** [response.get]: in a simulation a physical address carries the number of the
    MMU in its three upper bits. *)
Definition response_get (bsim : bool) (addrWidth iid rv : Z) : Z :=
  if bsim then Z.lor rv (Z.shiftl (iid mod 2 ^ addrWidth) (addrWidth - 3) mod 2 ^ addrWidth) else rv.

(** Stages 4 and 5: the page, with the low bits of the offset below it, cut to
    the width of a physical address. *)
Definition translate (bsim : bool) (addrWidth iid : Z) (m : mmu) (id off : Z) : trans :=
  match regall m !! list_idx id with
  | None => DmaErrorSGLIdInvalid
  | Some r =>
      match select r off with
      | None => DmaErrorOffsetOutOfRange
      | Some (s, pbase, idxOffset) =>
          let p := index_bits (pbase + idxOffset) in
          let page := default 0 (pages m !! (list_idx id, p)) in
          let rv := Z.lor (Z.shiftl (page mod 2 ^ (44 - s)) s) (off mod 2 ^ s) in
          TransAddr (response_get bsim addrWidth iid (rv mod 2 ^ addrWidth))
      end
  end.

(** * Memory objects *)

(** The physical address of byte [off] of the object with areas [l]. *)
Fixpoint phys (l : list (Z * Z)) (off : Z) : option Z :=
  match l with
  | [] => None
  | (a, len) :: l => if decide (off < len) then Some (a + off) else phys l (off - len)
  end.

Fixpoint total (l : list (Z * Z)) : Z :=
  match l with [] => 0 | (_, len) :: l => len + total l end.

(** Areas of [2 ^ s] bytes, aligned, within physical addresses of [aw] bits. *)
Definition areas (aw s : Z) (l : list (Z * Z)) : Prop :=
  Forall (fun e => snd e = 2 ^ s /\ 0 <= fst e < 2 ^ aw /\ fst e mod 2 ^ s = 0) l.

(** The widths of the builds are 32 and 40; the MMU's own limit is 44. *)
Definition width_ok (aw : Z) : Prop := 20 <= aw <= 44.

Lemma total_areas aw s l : areas aw s l -> total l = Z.of_nat (length l) * 2 ^ s.
Proof.
  induction 1 as [|[a n] l (Hn & _ & _) _ IH]; cbn [total length fst snd] in *; [lia|].
  rewrite Nat2Z.inj_succ. lia.
Qed.

Lemma total_app a b : total (a ++ b) = total a + total b.
Proof. induction a as [|[? ?] a IH]; cbn [app total]; [lia|]. rewrite IH. lia. Qed.

Lemma phys_app_l l1 l2 : forall off,
  Forall (fun e => 0 < snd e) l1 -> 0 <= off < total l1 -> phys (l1 ++ l2) off = phys l1 off.
Proof.
  induction l1 as [|[a n] l1 IH]; intros off H Ho; cbn [app phys total] in *; [lia|].
  inversion H; subst. case_decide; [done|]. apply IH; [done|lia].
Qed.

Lemma phys_app_r l1 l2 : forall off,
  Forall (fun e => 0 < snd e) l1 -> total l1 <= off -> phys (l1 ++ l2) off = phys l2 (off - total l1).
Proof.
  induction l1 as [|[a n] l1 IH]; intros off H Ho; cbn [app phys total] in *.
  - f_equal. lia.
  - inversion H as [|? ? Hn Hl]; subst. cbn in Hn.
    assert (0 <= total l1).
    { clear -Hl. induction Hl as [|[? ?] ? ? ? IH']; cbn in *; lia. }
    rewrite decide_False by lia. rewrite IH by (done || lia). f_equal. lia.
Qed.

Lemma areas_pos aw s l : 0 <= s -> areas aw s l -> Forall (fun e => 0 < snd e) l.
Proof.
  intros Hs H. eapply Forall_impl; [exact H|]. intros e (-> & _). apply Z.pow_pos_nonneg; lia.
Qed.

(** In areas of one size, byte [off] is in area [off / 2 ^ s]. *)
Lemma phys_areas aw s l : 0 <= s -> areas aw s l -> forall off, 0 <= off < total l ->
  exists e, l !! Z.to_nat (off / 2 ^ s) = Some e /\ phys l off = Some (fst e + off mod 2 ^ s).
Proof.
  intros Hs H. assert (Hp : 0 < 2 ^ s) by (apply Z.pow_pos_nonneg; lia).
  induction H as [|[a n] l (Hn & _ & _) Hl IH]; intros off Ho; cbn [total phys snd fst] in *; [lia|].
  subst n. case_decide as Hlt.
  - exists (a, 2 ^ s). rewrite Z.div_small, Z.mod_small by lia. done.
  - destruct (IH (off - 2 ^ s)) as (e & He & Hph); [lia|].
    exists e. rewrite Hph. replace off with (off - 2 ^ s + 1 * 2 ^ s) at 1 3 by lia.
    rewrite Z.div_add, Z.mod_add by lia. split; [|done].
    rewrite Z2Nat.inj_add by (first [lia | apply Z.div_pos; lia]).
    rewrite Nat.add_comm. exact He.
Qed.

(** * The tables the software writes *)

Definition id_ok (iid id : Z) : Prop := 0 <= id < 2 ^ 32 /\ Z.shiftr id 16 = iid.

(** The entries written from index [i] on, in order. *)
Lemma sg_list_pages iid id l : id_ok iid id -> forall i m, 0 <= i -> i + Z.of_nat (length l) <= 256 ->
  exists m', mmu_requests iid (sg_list id i l) m = Some m' /\ regall m' = regall m /\
    (forall j e, l !! j = Some e ->
       pages m' !! (list_idx id, i + Z.of_nat j) = Some (page0_bits (u64 (sg_addr (fst e) (snd e))))) /\
    (forall k, ~ (i <= k < i + Z.of_nat (length l)) ->
       pages m' !! (list_idx id, k) = pages m !! (list_idx id, k)).
Proof.
  intros [Hid Hi]. induction l as [|e l IH]; intros i m H0 H1.
  - exists m. done.
  - cbn [sg_list mmu_requests length] in *. unfold sg_request at 1.
    set (m1 := set_page (list_idx id, i) (page0_bits (u64 (sg_addr (fst e) (snd e)))) m).
    assert (Hr : mmu_request iid (sg_request id i e) m = Some m1).
    { unfold sg_request, mmu_request. rewrite (u32_small id), (u32_small i), decide_True by lia.
      unfold index_bits. rewrite Z.mod_small by lia. done. }
    unfold sg_request in Hr. rewrite Hr. cbn [mbind option_bind].
    destruct (IH (i + 1) m1) as (m' & Hm' & Hreg & Hin & Hout); [lia|lia|].
    exists m'. split_and!; [done|by rewrite Hreg| |].
    + intros [|j] e' He'; cbn in He'.
      * injection He' as <-. change (Z.of_nat 0) with 0. rewrite Z.add_0_r, Hout by lia.
        apply lookup_insert_eq.
      * replace (i + Z.of_nat (S j)) with (i + 1 + Z.of_nat j) by lia. by apply Hin.
    + intros k Hk. rewrite Hout by lia. cbn. apply lookup_insert_ne. intros [=]. lia.
Qed.

Lemma find_shift_areas s len : s = 20 \/ s = 16 \/ s = 12 -> len = 2 ^ s ->
  find_shift (take 3 shifts) 0 len =
    Some (if decide (s = 20) then 0%nat else if decide (s = 16) then 1%nat else 2%nat, s).
Proof. intros [-> | [-> | ->]] ->; reflexivity. Qed.

Lemma sg_addr_areas s e : s = 20 \/ s = 16 \/ s = 12 ->
  snd e = 2 ^ s /\ 0 <= fst e < 2 ^ 44 /\ fst e mod 2 ^ s = 0 ->
  page0_bits (u64 (sg_addr (fst e) (snd e))) = fst e / 2 ^ s /\ 0 <= fst e / 2 ^ s < 2 ^ (44 - s).
Proof.
  intros Hs (Hl & Ha & _). unfold sg_addr. rewrite (find_shift_areas s) by done.
  rewrite Z.shiftr_div_pow2 by lia.
  assert (0 <= fst e / 2 ^ s < 2 ^ (44 - s)).
  { split; [apply Z.div_pos; lia|]. apply Z.div_lt_upper_bound; [lia|].
    rewrite <- Z.pow_add_r by lia. replace (s + (44 - s)) with 44 by lia. lia. }
  split; [|done]. assert (2 ^ (44 - s) <= 2 ^ 32) by (apply Z.pow_le_mono_r; lia).
  unfold page0_bits. rewrite u64_small, Z.mod_small by lia. done.
Qed.

Lemma sg_counts_app l1 l2 rs : sg_counts (l1 ++ l2) rs = sg_counts l2 (sg_counts l1 rs).
Proof. unfold sg_counts. by rewrite foldl_app. Qed.

Lemma sg_counts_areas aw s l j : s = 20 \/ s = 16 \/ s = 12 -> areas aw s l ->
  j = (if decide (s = 20) then 0%nat else if decide (s = 16) then 1%nat else 2%nat) ->
  forall rs r, rs !! j = Some r -> 0 <= r -> r + Z.of_nat (length l) < 2 ^ 32 ->
  sg_counts l rs = <[j := r + Z.of_nat (length l)]> rs.
Proof.
  intros Hs H Hj. induction H as [|[a n] l (Hn & _) Hl IH]; intros rs r Hr H0 H1.
  - cbn. rewrite Z.add_0_r. by rewrite list_insert_id.
  - unfold sg_counts. cbn [foldl fst snd] in *. unfold sg_step.
    rewrite (find_shift_areas s), <- Hj by done. cbn [fst]. fold (sg_counts l).
    change (foldl _ ?x l) with (sg_counts l x).
    assert (Halt : alter (fun r => u32 (r + 1)) j rs = <[j := r + 1]> rs).
    { apply list_eq. intros i. destruct (decide (i = j)) as [->|].
      - rewrite list_lookup_alter_eq, Hr, list_lookup_insert_eq by (by eapply lookup_lt_Some).
        cbn. rewrite u32_small; [done|]. cbn [length] in H1. lia.
      - by rewrite list_lookup_alter_ne, list_lookup_insert_ne by done. }
    rewrite Halt. cbn [length] in H1.
    rewrite (IH _ (r + 1)); [|by apply list_lookup_insert_eq; eapply lookup_lt_Some|lia|lia].
    rewrite list_insert_insert_eq. f_equal. cbn [length]. lia.
Qed.

(** The region message of [n8], [n4] and [n0] areas of the three sizes. *)
Lemma region_loop_counts n8 n4 n0 : 0 <= n8 -> 0 <= n4 -> 0 <= n0 -> n8 + n4 + n0 <= 255 ->
  region_loop [n8; n4; n0] shift_diffs 0 0 =
  [(n8, 0); (16 * n8 + n4, u8 (n8 - 16 * n8));
   (16 * (16 * n8 + n4) + n0, u8 (n8 + n4 - 16 * (16 * n8 + n4)))].
Proof.
  intros. unfold shift_diffs, PAGE_SHIFT8, PAGE_SHIFT4, PAGE_SHIFT0. cbn [region_loop].
  change (20 - 16) with 4. change (16 - 12) with 4. change (12 - 0) with 12.
  rewrite !Z.add_0_l. rewrite (u8_small n8), (u64_small n8) by lia.
  rewrite !Z.shiftl_mul_pow2 by lia. change (2 ^ 4) with 16.
  rewrite (u64_small (n8 * 16)) by lia. rewrite (u8_small (n8 + n4)) by lia.
  rewrite (u64_small (n8 * 16 + n4)) by lia. rewrite (u64_small ((n8 * 16 + n4) * 16)) by lia.
  rewrite (u64_small _) by lia.
  replace (n8 * 16) with (16 * n8) by lia. replace ((16 * n8 + n4) * 16) with (16 * (16 * n8 + n4)) by lia.
  done.
Qed.

Lemma requests_app iid l1 l2 m : mmu_requests iid (l1 ++ l2) m = m ← mmu_requests iid l1 m; mmu_requests iid l2 m.
Proof.
  revert m. induction l1 as [|r l1 IH]; intros m; [done|]. cbn [app mmu_requests].
  destruct (mmu_request iid r m); cbn; [apply IH|done].
Qed.

Section Translate.
Variables (bsim : bool) (aw iid id : Z) (l8 l4 l0 : list (Z * Z)).
Hypothesis Haw : width_ok aw.
Hypothesis Hid : id_ok iid id.
Hypothesis H8 : areas aw 20 l8.
Hypothesis H4 : areas aw 16 l4.
Hypothesis H0 : areas aw 12 l0.

Let l := l8 ++ l4 ++ l0.
Let n8 := Z.of_nat (length l8).
Let n4 := Z.of_nat (length l4).
Let n0 := Z.of_nat (length l0).
Hypothesis Hn : n8 + n4 + n0 <= 255.

Definition prog_region : region :=
  {| barrier8 := n8; idxOffset8 := 0;
     barrier4 := 16 * n8 + n4; idxOffset4 := u8 (n8 - 16 * n8);
     barrier0 := 16 * (16 * n8 + n4) + n0; idxOffset0 := u8 (n8 + n4 - 16 * (16 * n8 + n4)) |}.

Lemma counts_l : sg_counts l [0; 0; 0] = [n8; n4; n0].
Proof.
  unfold l. rewrite !sg_counts_app.
  rewrite (sg_counts_areas aw 20 l8 0 ltac:(auto) H8 eq_refl _ 0) by (done || lia). cbn [insert list_insert].
  rewrite (sg_counts_areas aw 16 l4 1 ltac:(auto) H4 eq_refl _ 0) by (done || lia). cbn [insert list_insert].
  rewrite (sg_counts_areas aw 12 l0 2 ltac:(auto) H0 eq_refl _ 0) by (done || lia). cbn [insert list_insert].
  done.
Qed.

Lemma length_l : Z.of_nat (length l) = n8 + n4 + n0.
Proof. unfold l, n8, n4, n0. rewrite !length_app. lia. Qed.

(** What the messages leave in the block memories. *)
Lemma programmed m0 : exists m, mmu_requests iid (sg_requests id l) m0 = Some m /\
  regall m !! list_idx id = Some prog_region /\
  (forall j e, l !! j = Some e ->
     pages m !! (list_idx id, Z.of_nat j) = Some (page0_bits (u64 (sg_addr (fst e) (snd e))))).
Proof.
  pose proof length_l as Hl. pose proof Hid as [Hid1 Hid2].
  destruct (sg_list_pages iid id l Hid 0 m0) as (m1 & Hm1 & Hr1 & Hin & Hout); [lia|lia|].
  unfold sg_requests, sg_region. rewrite counts_l, region_loop_counts by lia.
  rewrite requests_app, Hm1. cbn [mbind option_bind mmu_requests].
  cbn [mmu_request]. rewrite (u32_small id) by lia. rewrite decide_True by done.
  cbn [mbind option_bind]. eexists. split; [done|]. cbn [regall pages set_page]. split.
  - rewrite lookup_insert_eq. unfold prog_region, page0_bits, index_bits. f_equal.
    pose proof (u8_bound (n8 - 16 * n8)). pose proof (u8_bound (n8 + n4 - 16 * (16 * n8 + n4))).
    rewrite !Z.mod_small by lia. done.
  - intros j e He. pose proof (lookup_lt_Some _ _ _ He). rewrite lookup_insert_ne.
    + by apply (Hin j).
    + intros [=]. unfold index_bits in *. rewrite u32_small, Z.mod_small in * by lia. lia.
Qed.

(** Reading the table of one region. *)
Lemma page_addr s e off : s = 20 \/ s = 16 \/ s = 12 ->
  snd e = 2 ^ s /\ 0 <= fst e < 2 ^ aw /\ fst e mod 2 ^ s = 0 ->
  Z.lor (Z.shiftl (page0_bits (u64 (sg_addr (fst e) (snd e))) mod 2 ^ (44 - s)) s) (off mod 2 ^ s) mod 2 ^ aw =
  fst e + off mod 2 ^ s.
Proof.
  intros Hs (Hl & Ha & Hal). unfold width_ok in Haw. pose proof (Z.pow_le_mono_r 2 aw 44 ltac:(lia) ltac:(lia)).
  destruct (sg_addr_areas s e Hs) as [-> Hb]; [split_and!; [done|lia|lia|done]|].
  pose proof (Z.mod_pos_bound off (2 ^ s) ltac:(apply Z.pow_pos_nonneg; lia)) as Ho.
  rewrite (Z.mod_small (fst e / 2 ^ s)) by exact Hb.
  rewrite lor_shiftl_add by lia. pose proof (Z.div_mod (fst e) (2 ^ s) ltac:(apply Z.pow_nonzero; lia)) as Hd.
  rewrite Hal in Hd. replace (fst e / 2 ^ s * 2 ^ s) with (fst e) by lia.
  apply Z.mod_small. assert (Hp : 2 ^ aw = 2 ^ (aw - s) * 2 ^ s) by (rewrite <- Z.pow_add_r by lia; f_equal; lia).
  rewrite Hp in *. assert (fst e / 2 ^ s < 2 ^ (aw - s)) by (apply Z.div_lt_upper_bound; lia). nia.
Qed.

Lemma select_8 off : 0 <= off < n8 * 2 ^ 20 ->
  select prog_region off = Some (20, off / 2 ^ 20, 0).
Proof.
  intros Ho. unfold select, prog_region, index_bits. cbn [barrier8 idxOffset8].
  rewrite Z.shiftr_div_pow2 by lia.
  assert (0 <= off / 2 ^ 20 < n8) by zlia.
  rewrite !(Z.mod_small (off / 2 ^ 20)) by lia. rewrite (Z.mod_small n8) by lia.
  by rewrite decide_True by lia.
Qed.

Lemma select_4 off : n8 * 2 ^ 20 <= off < n8 * 2 ^ 20 + n4 * 2 ^ 16 ->
  select prog_region off = Some (16, index_bits (off / 2 ^ 16), u8 (n8 - 16 * n8)).
Proof.
  intros Ho. unfold select, prog_region. cbn [barrier8 idxOffset8 barrier4 idxOffset4].
  rewrite !Z.shiftr_div_pow2 by lia.
  assert (n8 <= off / 2 ^ 20 < 2 ^ 12) by zlia.
  assert (0 <= off / 2 ^ 16 < 16 * n8 + n4) by zlia.
  rewrite (Z.mod_small (off / 2 ^ 20)), (Z.mod_small n8), decide_False by lia.
  rewrite (Z.mod_small (off / 2 ^ 16)), (Z.mod_small (16 * n8 + n4)), decide_True by lia. done.
Qed.

Lemma select_0 off :
  n8 * 2 ^ 20 + n4 * 2 ^ 16 <= off < n8 * 2 ^ 20 + n4 * 2 ^ 16 + n0 * 2 ^ 12 ->
  select prog_region off = Some (12, index_bits (off / 2 ^ 12), u8 (n8 + n4 - 16 * (16 * n8 + n4))).
Proof.
  intros Ho. unfold select, prog_region. cbn [barrier8 barrier4 barrier0 idxOffset0].
  rewrite !Z.shiftr_div_pow2 by lia.
  assert (n8 <= off / 2 ^ 20 < 2 ^ 12) by zlia.
  assert (16 * n8 + n4 <= off / 2 ^ 16 < 2 ^ 16) by zlia.
  assert (0 <= off / 2 ^ 12 < 16 * (16 * n8 + n4) + n0) by zlia.
  rewrite (Z.mod_small (off / 2 ^ 20)), (Z.mod_small n8), decide_False by lia.
  rewrite (Z.mod_small (off / 2 ^ 16)), (Z.mod_small (16 * n8 + n4)), decide_False by lia.
  rewrite (Z.mod_small (off / 2 ^ 12)), decide_True by lia. done.
Qed.

Lemma select_out off :
  n8 * 2 ^ 20 + n4 * 2 ^ 16 + n0 * 2 ^ 12 <= off < 2 ^ 44 -> select prog_region off = None.
Proof.
  intros Ho. unfold select, prog_region. cbn [barrier8 barrier4 barrier0].
  rewrite !Z.shiftr_div_pow2 by lia.
  assert (n8 <= off / 2 ^ 20 < 2 ^ 24) by zlia.
  assert (16 * n8 + n4 <= off / 2 ^ 16 < 2 ^ 28) by zlia.
  assert (16 * (16 * n8 + n4) + n0 <= off / 2 ^ 12 < 2 ^ 32) by zlia.
  rewrite (Z.mod_small (off / 2 ^ 20)), (Z.mod_small n8), decide_False by lia.
  rewrite (Z.mod_small (off / 2 ^ 16)), (Z.mod_small (16 * n8 + n4)), decide_False by lia.
  rewrite (Z.mod_small (off / 2 ^ 12)), decide_False by lia. done.
Qed.

(** The 8-bit sum of the base index and the index offset. *)
Lemma index_sum a b k : 0 <= k < 256 -> (a - k) mod 256 = (- b) mod 256 ->
  index_bits (index_bits a + u8 b) = k.
Proof. intros Hk H. unfold index_bits, u8, wrap. change (2 ^ 8) with 256. zlia. Qed.

Lemma translate_entry m s off pbase idx k e :
  regall m !! list_idx id = Some prog_region ->
  (forall j e, l !! j = Some e ->
     pages m !! (list_idx id, Z.of_nat j) = Some (page0_bits (u64 (sg_addr (fst e) (snd e))))) ->
  s = 20 \/ s = 16 \/ s = 12 -> snd e = 2 ^ s /\ 0 <= fst e < 2 ^ aw /\ fst e mod 2 ^ s = 0 ->
  select prog_region off = Some (s, pbase, idx) -> index_bits (pbase + idx) = Z.of_nat k ->
  l !! k = Some e ->
  translate bsim aw iid m id off = TransAddr (response_get bsim aw iid (fst e + off mod 2 ^ s)).
Proof.
  intros Hreg Hpg Hs He Hsel Hk Hlk. unfold translate. rewrite Hreg, Hsel. cbn zeta.
  rewrite Hk, (Hpg _ _ Hlk). unfold from_option, Datatypes.id. by rewrite page_addr.
Qed.

Lemma translate_total m off :
  regall m !! list_idx id = Some prog_region ->
  (forall j e, l !! j = Some e ->
     pages m !! (list_idx id, Z.of_nat j) = Some (page0_bits (u64 (sg_addr (fst e) (snd e))))) ->
  0 <= off < total l -> exists a, phys l off = Some a /\ translate bsim aw iid m id off = TransAddr (response_get bsim aw iid a).
Proof.
  intros Hreg Hpg Ho.
  pose proof (total_areas _ _ _ H8) as T8. pose proof (total_areas _ _ _ H4) as T4.
  pose proof (total_areas _ _ _ H0) as T0. fold n8 in T8. fold n4 in T4. fold n0 in T0.
  assert (Ht : total l = total l8 + total l4 + total l0).
  { unfold l. rewrite !total_app. lia. }
  pose proof (areas_pos aw 20 l8 ltac:(lia) H8) as P8. pose proof (areas_pos aw 16 l4 ltac:(lia) H4) as P4.
  destruct (decide (off < total l8)) as [C8|C8].
  { destruct (phys_areas aw 20 l8 ltac:(lia) H8 off) as (e & He & Hph); [lia|].
    exists (fst e + off mod 2 ^ 20). split; [unfold l; by rewrite phys_app_l by (done || lia)|].
    assert (0 <= off / 2 ^ 20 < n8) by zlia.
    apply (translate_entry m 20 off (off / 2 ^ 20) 0 (Z.to_nat (off / 2 ^ 20)) e); try done.
    - auto.
    - exact (Forall_lookup_1 _ _ _ _ H8 He).
    - apply select_8. lia.
    - unfold index_bits. rewrite Z.add_0_r, Z.mod_small, Z2Nat.id by lia. done.
    - unfold l. by apply lookup_app_l_Some. }
  destruct (decide (off < total l8 + total l4)) as [C4|C4].
  { destruct (phys_areas aw 16 l4 ltac:(lia) H4 (off - total l8)) as (e & He & Hph); [lia|].
    assert (Hd : (off - total l8) / 2 ^ 16 = off / 2 ^ 16 - 16 * n8) by zlia.
    assert (Hm : (off - total l8) mod 2 ^ 16 = off mod 2 ^ 16) by zlia.
    exists (fst e + off mod 2 ^ 16). split.
    { unfold l. rewrite phys_app_r, phys_app_l by (done || lia). by rewrite Hph, Hm. }
    assert (0 <= off / 2 ^ 16 - 16 * n8 < n4) by zlia.
    apply (translate_entry m 16 off (index_bits (off / 2 ^ 16)) (u8 (n8 - 16 * n8))
             (length l8 + Z.to_nat (off / 2 ^ 16 - 16 * n8))%nat e); try done.
    - auto.
    - exact (Forall_lookup_1 _ _ _ _ H4 He).
    - apply select_4. lia.
    - apply index_sum; [lia|]. f_equal. unfold n8 in *. lia.
    - unfold l. rewrite lookup_app_r by lia. apply lookup_app_l_Some. rewrite <- He, Hd. f_equal. lia. }
  destruct (phys_areas aw 12 l0 ltac:(lia) H0 (off - total l8 - total l4)) as (e & He & Hph); [lia|].
  assert (Hd : (off - total l8 - total l4) / 2 ^ 12 = off / 2 ^ 12 - 16 * (16 * n8 + n4)) by zlia.
  assert (Hm : (off - total l8 - total l4) mod 2 ^ 12 = off mod 2 ^ 12) by zlia.
  exists (fst e + off mod 2 ^ 12). split.
  { unfold l. rewrite !phys_app_r by (done || lia). by rewrite Hph, Hm. }
  assert (0 <= off / 2 ^ 12 - 16 * (16 * n8 + n4) < n0) by zlia.
  apply (translate_entry m 12 off (index_bits (off / 2 ^ 12)) (u8 (n8 + n4 - 16 * (16 * n8 + n4)))
           (length l8 + length l4 + Z.to_nat (off / 2 ^ 12 - 16 * (16 * n8 + n4)))%nat e); try done.
  - auto.
  - exact (Forall_lookup_1 _ _ _ _ H0 He).
  - apply select_0. lia.
  - apply index_sum; [lia|]. f_equal. unfold n8, n4 in *. lia.
  - unfold l. rewrite app_assoc, lookup_app_r by (rewrite length_app; lia).
    rewrite <- He, Hd. f_equal. rewrite length_app. lia.
Qed.

Lemma translates m0 : exists m, mmu_requests iid (sg_requests id l) m0 = Some m /\
  (forall off, 0 <= off < total l -> exists a, phys l off = Some a /\ translate bsim aw iid m id off = TransAddr (response_get bsim aw iid a)) /\
  (forall off, total l <= off < 2 ^ 44 -> translate bsim aw iid m id off = DmaErrorOffsetOutOfRange).
Proof.
  destruct (programmed m0) as (m & Hm & Hreg & Hpg). exists m. split_and!; [done| |].
  - intros off Ho. by apply translate_total.
  - intros off Ho. unfold translate. rewrite Hreg, select_out; [done|].
    pose proof (total_areas _ _ _ H8) as T8. pose proof (total_areas _ _ _ H4) as T4.
    pose proof (total_areas _ _ _ H0) as T0.
    unfold l in Ho. rewrite !total_app in Ho. unfold n8, n4, n0. lia.
Qed.

(** C4: Programmed with the messages [send_fd_to_portal] sends for a memory object
    of at most 255 areas, the 1 MB areas first, then the 64 KB and the 4 KB
    ones, all within the [aw]-bit physical addresses of the build, the MMU
    translates every offset below the size of the object to the physical
    address of that byte (in a simulation with the number of the MMU in the
    upper bits), and reports every offset behind it. *)
Theorem mmu_translates m0 : exists m, mmu_requests iid (sg_requests id l) m0 = Some m /\
  (forall off, 0 <= off < total l -> exists a, phys l off = Some a /\ translate bsim aw iid m id off = TransAddr (response_get bsim aw iid a)) /\
  (forall off, total l <= off < 2 ^ 44 -> translate bsim aw iid m id off = DmaErrorOffsetOutOfRange).
Proof. apply translates. Qed.

End Translate.

(** C38: The code does not bound the number of areas: with 256 of them the end
    marker, written at index 256, lands on index 0 of the 8-bit table, and the
    first page of the object is translated to physical page 0. *)
Theorem mmu_256_areas bsim aw iid id l m0 : width_ok aw ->
  id_ok iid id -> areas aw 12 l -> length l = 256%nat ->
  exists m, mmu_requests iid (sg_requests id l) m0 = Some m /\
    forall off, 0 <= off < 4096 -> translate bsim aw iid m id off = TransAddr (response_get bsim aw iid off).
Proof.
  intros Haw Hid Hl Hlen. pose proof Hid as [Hid1 Hid2].
  destruct (sg_list_pages iid id l Hid 0 m0) as (m1 & Hm1 & _ & _ & _); [lia|lia|].
  unfold sg_requests, sg_region.
  rewrite (sg_counts_areas aw 12 l 2 ltac:(auto) Hl eq_refl _ 0) by (done || lia).
  rewrite Hlen. cbn [insert list_insert]. rewrite requests_app, Hm1.
  change (region_loop _ _ _ _) with [(0, 0); (0, 0); (256, 0)].
  cbn [mbind option_bind mmu_requests mmu_request]. rewrite (u32_small id) by lia.
  rewrite decide_True by done. cbn [mbind option_bind]. eexists. split; [done|].
  intros off Ho. unfold translate. cbn [regall pages set_page]. rewrite lookup_insert_eq.
  unfold select. cbn [barrier8 barrier4 barrier0 idxOffset0].
  rewrite !Z.shiftr_div_pow2 by lia.
  rewrite (Z.div_small off (2 ^ 12)), (Z.div_small off (2 ^ 16)), (Z.div_small off (2 ^ 20)) by lia.
  change (0 mod 2 ^ 24 < page0_bits 0 mod 2 ^ 24) with (0 < 0). rewrite decide_False by lia.
  change (0 mod 2 ^ 28 < page0_bits 0 mod 2 ^ 28) with (0 < 0). rewrite decide_False by lia.
  change (0 mod 2 ^ 32 < page0_bits 256) with (0 < 256). rewrite decide_True by lia.
  change (index_bits (index_bits 0 + index_bits 0)) with 0.
  change (index_bits (u32 (Z.of_nat 256))) with 0. rewrite lookup_insert_eq.
  unfold from_option, Datatypes.id. change (Z.shiftl (page0_bits 0 mod 2 ^ (44 - 12)) 12) with 0.
  rewrite Z.lor_0_l, (Z.mod_small off) by lia. unfold width_ok in Haw.
  assert (2 ^ 12 <= 2 ^ aw) by (apply Z.pow_le_mono_r; lia). by rewrite (Z.mod_small off) by lia.
Qed.

(** * A concrete object: one area of each size *)
Module MmuDemo.
Definition l8 : list (Z * Z) := [(0x40000000, 0x100000)].
Definition l4 : list (Z * Z) := [(0x50010000, 0x10000)].
Definition l0 : list (Z * Z) := [(0x60003000, 0x1000)].
Definition empty : mmu := {| pages := ∅; regall := ∅ |}.

Lemma mmu_translates_witness :
  exists m, mmu_requests 1 (sg_requests 0x10002 (l8 ++ l4 ++ l0)) empty = Some m /\
    (forall off, 0 <= off < 0x111000 -> exists a,
       phys (l8 ++ l4 ++ l0) off = Some a /\ translate false 32 1 m 0x10002 off = TransAddr a) /\
    (forall off, 0x111000 <= off < 2 ^ 44 -> translate false 32 1 m 0x10002 off = DmaErrorOffsetOutOfRange).
Proof.
  apply (mmu_translates false 32 1 0x10002 l8 l4 l0).
  - unfold width_ok. lia.
  - split; [lia|reflexivity].
  - repeat constructor; cbn; lia.
  - repeat constructor; cbn; lia.
  - repeat constructor; cbn; lia.
  - cbn. lia.
Defined.

Lemma mmu_256_areas_witness :
  exists m, mmu_requests 0 (sg_requests 3 (replicate 256 (0x7000, 0x1000))) empty = Some m /\
    forall off, 0 <= off < 4096 -> translate false 40 0 m 3 off = TransAddr off.
Proof.
  apply (mmu_256_areas false 40 0 3 (replicate 256 (0x7000, 0x1000)) empty).
  - unfold width_ok. lia.
  - split; [lia|reflexivity].
  - apply Forall_replicate. repeat split; cbn; lia.
  - reflexivity.
Defined.
End MmuDemo.
