(* ===== verification/DmaManager.v ===== *)
(** The DMA manager of [cpp/dmaManager.c] and [cpp/dmaManager.h], the indication
    classes of [cpp/StdDmaIndication.h] that wake it up, and the software MMU
    server of [cpp/MMUServer.h]. *)

From stdpp Require Import base gmap list fin_maps.
From Stdlib Require Import ZArith Lia.
From S2P Require Import Prelude PortalTypes PortalCore PortalCodec HardwareRpc SendFd Mmu.

Section DmaManager.
Context {K : Type} `{!Device K} `{!PortalOs K} `{!MemOs K}.
Local Abbreviation W := (World K).
Variable tab : ItemId -> PortalItemFunctions K.
Variable bld : build.

(** What the other threads do while this one is blocked. *)
Variable env : M W unit.

Definition upd_dma (d : nat) (f : DmaManagerPrivate -> DmaManagerPrivate) : M W unit :=
  x ← get_dma d; put_dma d (f x).

Definition DmaManagerPrivate_zero : DmaManagerPrivate :=
  {| confSem := 0; sglIdSem := 0; sglId := 0; dmaDevice := None; sglDevice := None; pa_fd := 0 |}.

Definition DmaManager_init (d : nat) (dma sgl : option nat) : M W unit :=
  put_dma d DmaManagerPrivate_zero ;;
  upd_dma d (set_dmaDevice dma) ;;
  upd_dma d (set_sglDevice sgl) ;;
  init_portal_memory ;;
  upd_dma d (set_sglIdSem 0) ;;
  upd_dma d (set_confSem 0).

(** [sem_wait]: the other threads run until the count is positive. *)
Fixpoint sem_wait (fuel : nat) (d : nat) (get : DmaManagerPrivate -> Z)
    (set : Z -> DmaManagerPrivate -> DmaManagerPrivate) : M W unit :=
  x ← get_dma d;
  if decide (get x > 0) then put_dma d (set (get x - 1) x)
  else match fuel with
       | O => block
       | S fuel => env ;; sem_wait fuel d get set
       end.

Definition DmaManager_dereference (d : nat) (ref : Z) : M W unit :=
  x ← get_dma d;
  dev ← defined (sglDevice x);
  MMURequest_idReturn tab dev (u32 ref).

Definition DmaManager_reference (fuel : nat) (d : nat) (fd : Z) : M W Z :=
  init_portal_memory ;;
  x ← get_dma d;
  dev ← defined (sglDevice x);
  MMURequest_idRequest tab dev fd ;;
  sem_wait fuel d sglIdSem set_sglIdSem ;;
  x ← get_dma d;
  let id := s32 (sglId x) in
  match bld with
  | USER =>
      dx ← get_pint dev;
      rc ← kcall (mo_pcie_send_fd (fpga_fd dx) fd id);
      (if decide (rc = 0) then sem_wait fuel d confSem set_confSem else mret tt) ;;
      mret id
  | _ =>
      g ← get_glob;
      rc ← send_fd_to_portal tab bld fuel dev fd id (global_pa_fd g);
      (if decide (rc <= 0) then sem_wait fuel d confSem set_confSem else mret tt) ;;
      mret rc
  end.

(** The methods of [class DmaManager] called by indications. *)
Definition sglIdResp (d : nat) (id : Z) : M W unit :=
  upd_dma d (set_sglId id) ;;
  upd_dma d (fun x => set_sglIdSem (sglIdSem x + 1) x).
Definition confResp (d : nat) (channelId : Z) : M W unit :=
  upd_dma d (fun x => set_confSem (confSem x + 1) x).

(** ** [class MMUIndication] and [class MemServerIndication]

    The static error limits and the members are threaded explicitly. *)
Definition MMUIndication_configResp (d : nat) (pointer : Z) : M W unit := confResp d pointer.
Definition MMUIndication_idResponse (d : nat) (id : Z) : M W unit := sglIdResp d id.
Definition MMUIndication_error (mmu_error_limit : Z) : M W Z :=
  let limit := s32 (mmu_error_limit - 1) in
  if decide (limit < 0) then exit (-1) else mret limit.

Record MemServerIndication : Type := { mtSem : Z; mtCnt : Z; has_proxy : bool }.

(** [init] leaves [mtCnt] as it was, [cnt]. *)
Definition MemServerIndication_init (proxy : bool) (cnt : Z) : MemServerIndication :=
  {| mtSem := 0; mtCnt := cnt; has_proxy := proxy |}.
Definition reportMemoryTraffic (words : Z) (m : MemServerIndication) : MemServerIndication :=
  {| mtSem := mtSem m + 1; mtCnt := words; has_proxy := has_proxy m |}.
Definition MemServerIndication_error (mem_error_limit : Z) : M W Z :=
  let limit := s32 (mem_error_limit - 1) in
  if decide (limit < 0) then exit (-1) else mret limit.

(** [sem_wait(&mtSem); return mtCnt;] with the reports [others] delivers meanwhile. *)
Fixpoint receiveMemoryTraffic (others : list Z) (m : MemServerIndication) : M W (Z * MemServerIndication) :=
  if decide (mtSem m > 0) then
    mret (mtCnt m, {| mtSem := mtSem m - 1; mtCnt := mtCnt m; has_proxy := has_proxy m |})
  else match others with
       | [] => block
       | words :: others => receiveMemoryTraffic others (reportMemoryTraffic words m)
       end.

(** [memoryTraffic] is the request of the proxy. *)
Definition getMemoryTraffic (memoryTraffic : Z -> M W unit) (rc : Z) (others : list Z)
    (m : MemServerIndication) : M W (Z * MemServerIndication) :=
  assert (has_proxy m) ;;
  memoryTraffic rc ;;
  receiveMemoryTraffic others m.

(** ** [class MMUServer] *)

Definition MAX_SERVER_AREAS : nat := 20.
Record memoryArea : Type := { ma_fd : Z; ma_ptr : ptr; ma_len : Z }.
Record MMUServer : Type := {
  memoryAreas : list memoryArea;
  memoryAreasIndex : Z;
  ifcarr : list (option nat)
}.

(** The constructor: the arrays have unspecified contents. *)
Definition MMUServer_new (areas : list memoryArea) (ifcs : list (option nat)) : MMUServer :=
  {| memoryAreas := areas; memoryAreasIndex := 1; ifcarr := ifcs |}.

Definition set_area (s : MMUServer) (i : Z) (a : memoryArea) : M W MMUServer :=
  l ← defined (zupd (memoryAreas s) i a);
  mret {| memoryAreas := l; memoryAreasIndex := memoryAreasIndex s; ifcarr := ifcarr s |}.

(** The indications the server sends. *)
Variables (ind_configResp ind_idResponse : Z -> M W unit).

Definition MMUServer_sglist (s : MMUServer) (id sglIndex addr len : Z) : M W MMUServer :=
  a ← defined (znth (memoryAreas s) id);
  set_area s id {| ma_fd := ma_fd a; ma_ptr := ma_ptr a; ma_len := s32 (ma_len a + len) |}.

Definition MMUServer_region (s : MMUServer) (id barr8 index8 barr4 index4 barr0 index0 : Z) : M W MMUServer :=
  a ← defined (znth (memoryAreas s) id);
  p ← portalMmap (ma_fd a) (ma_len a);
  s ← set_area s id {| ma_fd := ma_fd a; ma_ptr := p; ma_len := ma_len a |};
  ind_configResp 0 ;;
  mret s.

Definition MMUServer_idRequest (s : MMUServer) (fd : Z) : M W MMUServer :=
  s ← set_area s (memoryAreasIndex s) {| ma_fd := fd; ma_ptr := NULL; ma_len := 0 |};
  if decide (fd <= 0) then exit 1
  else
    ind_idResponse (memoryAreasIndex s) ;;
    mret {| memoryAreas := memoryAreas s; memoryAreasIndex := memoryAreasIndex s + 1;
            ifcarr := ifcarr s |}.

Definition MMUServer_setInterface (s : MMUServer) (interfaceId id : Z) : M W MMUServer :=
  ifc ← defined (znth (ifcarr s) interfaceId);
  p ← defined ifc;
  a ← defined (znth (memoryAreas s) id);
  upd_pint p (set_map_base (ma_ptr a)) ;;
  mret s.

Definition MMUServer_idReturn (s : MMUServer) (id : Z) : M W MMUServer := mret s.

Definition MMUServer_getPtr (s : MMUServer) (id : Z) : M W ptr :=
  a ← defined (znth (memoryAreas s) id); mret (ma_ptr a).

Definition MMUServer_registerInterface (s : MMUServer) (interfaceId : Z) (p : nat) : M W MMUServer :=
  l ← defined (zupd (ifcarr s) interfaceId (Some p));
  mret {| memoryAreas := memoryAreas s; memoryAreasIndex := memoryAreasIndex s; ifcarr := l |}.

(** The callback of a request. *)
Definition MMUServer_handle (s : MMUServer) (r : MMUReq) : M W MMUServer :=
  match r with
  | Sglist i x a n => MMUServer_sglist s i x a n
  | Region i b8 i8 b4 i4 b0 i0 => MMUServer_region s i b8 i8 b4 i4 b0 i0
  | IdRequest fd => MMUServer_idRequest s fd
  | IdReturn i => MMUServer_idReturn s i
  | SetInterface f i => MMUServer_setInterface s f i
  end.

Fixpoint MMUServer_handle_all (s : MMUServer) (l : list MMUReq) : M W MMUServer :=
  match l with [] => mret s | r :: l => s ← MMUServer_handle s r; MMUServer_handle_all s l end.

End DmaManager.

Section DmaFacts.
Context {K : Type} `{!Device K} `{!PortalOs K} `{!MemOs K}.
Local Abbreviation W := (World K).
Implicit Types (w : W).
Variable tab : ItemId -> PortalItemFunctions K.
Variable env : M W unit.

Lemma get_dma_ok d x w : w_dmas w !! d = Some x -> get_dma d w = Ok x w.
Proof. intros H. unfold get_dma. by rewrite H. Qed.

Lemma upd_dma_ok d x f w : w_dmas w !! d = Some x ->
  upd_dma d f w = Ok tt (set_w_dmas (<[d := f x]> (w_dmas w)) w).
Proof. intros H. unfold upd_dma. by rewrite (bind_ok _ _ _ _ _ (get_dma_ok _ _ _ H)). Qed.

Lemma set_dmas_twice d x y w :
  set_w_dmas (<[d := x]> (w_dmas (set_w_dmas (<[d := y]> (w_dmas w)) w)))
    (set_w_dmas (<[d := y]> (w_dmas w)) w) = set_w_dmas (<[d := x]> (w_dmas w)) w.
Proof. destruct w. cbn. by rewrite insert_insert_eq. Qed.

(** [w] with the manager [d] in state [x]. *)
Definition with_dma (d : nat) (x : DmaManagerPrivate) w : W := set_w_dmas (<[d := x]> (w_dmas w)) w.

Lemma with_dma_get d x w : w_dmas (with_dma d x w) !! d = Some x.
Proof. apply lookup_insert_eq. Qed.

Lemma with_dma_twice d x y w : with_dma d x (with_dma d y w) = with_dma d x w.
Proof. apply set_dmas_twice. Qed.

(** A wait in which the other threads post once. *)
Lemma sem_wait_posted fuel d get set x y w w1 :
  w_dmas w !! d = Some x -> get x = 0 -> env w = Ok tt w1 ->
  w_dmas w1 !! d = Some y -> get y > 0 -> (0 < fuel)%nat ->
  sem_wait env fuel d get set w = Ok tt (with_dma d (set (get y - 1) y) w1).
Proof.
  intros Hx H0 He Hy H1 Hf. destruct fuel as [|fuel]; [lia|]. cbn [sem_wait].
  rewrite (bind_ok _ _ _ _ _ (get_dma_ok _ _ _ Hx)), decide_False by lia.
  rewrite (bind_ok _ _ _ _ _ He).
  destruct fuel; cbn [sem_wait]; rewrite (bind_ok _ _ _ _ _ (get_dma_ok _ _ _ Hy)), decide_True by lia; done.
Qed.

(** A wait for a semaphore nobody posts never returns. *)
Lemma sem_wait_blocks d get set (P : W -> Prop) :
  (forall w, P w -> exists x w', w_dmas w !! d = Some x /\ get x = 0 /\ env w = Ok tt w' /\ P w') ->
  forall fuel w, P w -> exists w', sem_wait env fuel d get set w = Block w'.
Proof.
  intros HP. induction fuel as [|fuel IH]; intros w Hw;
    destruct (HP w Hw) as (x & w1 & Hx & H0 & He & Hw1); cbn [sem_wait];
    rewrite (bind_ok _ _ _ _ _ (get_dma_ok _ _ _ Hx)), decide_False by lia.
  - by exists w.
  - rewrite (bind_ok _ _ _ _ _ He). by apply IH.
Qed.

(** The common part of [DmaManager_reference]: the id arrives. *)
Lemma reference_prefix bld fuel d fd id x dev w w0 w1 :
  init_portal_memory w = Ok tt w0 ->
  w_dmas w0 !! d = Some x -> sglDevice x = Some dev -> sglIdSem x = 0 ->
  MMURequest_idRequest tab dev fd w0 = Ok tt w1 -> w_dmas w1 !! d = Some x ->
  env w1 = sglIdResp d id w1 -> (0 < fuel)%nat ->
  let w2 := with_dma d (set_sglId id x) w1 in
  DmaManager_reference tab bld env fuel d fd w =
  match bld with
  | USER =>
      (dx ← get_pint dev;
       rc ← kcall (mo_pcie_send_fd (fpga_fd dx) fd (s32 id));
       (if decide (rc = 0) then sem_wait env fuel d confSem set_confSem else mret tt) ;;
       mret (s32 id)) w2
  | _ =>
      (g ← get_glob;
       rc ← send_fd_to_portal tab bld fuel dev fd (s32 id) (global_pa_fd g);
       (if decide (rc <= 0) then sem_wait env fuel d confSem set_confSem else mret tt) ;;
       mret rc) w2
  end.
Proof.
  intros H0 Hx Hdev Hsem Hreq Hx1 Henv Hf w2. unfold DmaManager_reference.
  rewrite (bind_ok _ _ _ _ _ H0), (bind_ok _ _ _ _ _ (get_dma_ok _ _ _ Hx)), Hdev, bind_defined.
  rewrite (bind_ok _ _ _ _ _ Hreq).
  set (y := set_sglIdSem (sglIdSem x + 1) (set_sglId id x)).
  assert (He : env w1 = Ok tt (with_dma d y w1)).
  { rewrite Henv. unfold sglIdResp. rewrite (bind_ok _ _ _ _ _ (upd_dma_ok d x _ w1 Hx1)).
    rewrite (upd_dma_ok d (set_sglId id x)) by apply with_dma_get. fold (with_dma d (set_sglId id x) w1).
    change (set_w_dmas _ ?v) with (with_dma d y v). by rewrite with_dma_twice. }
  rewrite (bind_ok _ _ _ tt w2).
  2:{ rewrite (sem_wait_posted fuel d _ _ x y w1 (with_dma d y w1)); try done.
      - rewrite with_dma_twice. f_equal. unfold w2. f_equal. unfold y. cbn. rewrite Hsem.
        destruct x. cbn in *. by subst.
      - apply with_dma_get.
      - unfold y. cbn. lia. }
  rewrite (bind_ok _ _ _ _ _ (get_dma_ok _ _ _ (with_dma_get d (set_sglId id x) w1))). by destruct bld.
Qed.

(** C34: [DmaManager_reference] (the user-space build) requests an id and passes
    the descriptor with the id it got to the driver. When the driver accepts it,
    the call waits for the confirmation: it returns the id, with both semaphores
    down, once that has come, and never returns while nobody confirms. When the
    driver refuses it, the call returns the id at once. *)
Theorem DmaManager_reference_returns fuel d fd id x dev dx w w0 w1 rc k3 :
  init_portal_memory w = Ok tt w0 ->
  w_dmas w0 !! d = Some x -> sglDevice x = Some dev -> sglIdSem x = 0 -> confSem x = 0 ->
  MMURequest_idRequest tab dev fd w0 = Ok tt w1 -> w_dmas w1 !! d = Some x ->
  env w1 = sglIdResp d id w1 -> (0 < fuel)%nat ->
  w_pints w1 !! dev = Some dx ->
  mo_pcie_send_fd (fpga_fd dx) fd (s32 id) (w_kern w1) = (rc, k3) ->
  let w3 := with_dma d (set_sglId id x) (set_w_kern k3 w1) in
  (rc = 0 -> env w3 = confResp d id w3 -> DmaManager_reference tab USER env fuel d fd w = Ok (s32 id) w3) /\
  (rc = 0 -> forall P : W -> Prop, P w3 ->
    (forall w, P w -> exists x w', w_dmas w !! d = Some x /\ confSem x = 0 /\ env w = Ok tt w' /\ P w') ->
    exists w', DmaManager_reference tab USER env fuel d fd w = Block w') /\
  (rc <> 0 -> DmaManager_reference tab USER env fuel d fd w = Ok (s32 id) w3).
Proof.
  intros H0 Hx Hdev Hsem Hconf Hreq Hx1 Henv Hf Hdx Hk w3.
  rewrite (reference_prefix USER fuel d fd id x dev w w0 w1) by done.
  rewrite (bind_ok _ _ _ dx (with_dma d (set_sglId id x) w1)) by (by apply get_pint_ok).
  rewrite (bind_ok _ _ _ rc w3).
  2:{ unfold kcall. cbn [w_kern with_dma set_w_dmas]. by rewrite Hk. }
  split_and!.
  - intros -> Henv2. rewrite decide_True by done. set (y := set_confSem 1 (set_sglId id x)).
    rewrite (bind_ok _ _ _ tt w3); [done|].
    rewrite (sem_wait_posted fuel d confSem set_confSem (set_sglId id x) y w3 (with_dma d y w3)); try done.
    + unfold w3. rewrite !with_dma_twice. f_equal. f_equal. unfold y. cbn. destruct x. cbn in *. by subst.
    + apply with_dma_get.
    + rewrite Henv2. unfold confResp.
      rewrite (upd_dma_ok d (set_sglId id x)) by apply with_dma_get.
      unfold with_dma. do 3 f_equal. unfold y. cbn. by rewrite Hconf.
    + apply with_dma_get.
  - intros -> P HP Hblk. rewrite decide_True by done.
    destruct (sem_wait_blocks d confSem set_confSem P Hblk fuel w3 HP) as [w' Hw'].
    exists w'. unfold mbind, M_bind. by rewrite Hw'.
  - intros Hrc. by rewrite decide_False by done.
Qed.

(** In the builds that program the MMU themselves the test for waiting is
    inverted: when [send_fd_to_portal] succeeds with a positive id, the manager
    returns without waiting for the confirmation; when it fails, the manager
    waits for a confirmation nobody sends. *)
Theorem DmaManager_reference_wait_inverted bld fuel d fd id x dev w w0 w1 rc w3 (P : W -> Prop) :
  bld <> USER ->
  init_portal_memory w = Ok tt w0 ->
  w_dmas w0 !! d = Some x -> sglDevice x = Some dev -> sglIdSem x = 0 ->
  MMURequest_idRequest tab dev fd w0 = Ok tt w1 -> w_dmas w1 !! d = Some x ->
  env w1 = sglIdResp d id w1 -> (0 < fuel)%nat ->
  send_fd_to_portal tab bld fuel dev fd (s32 id) (global_pa_fd (w_glob w1))
    (with_dma d (set_sglId id x) w1) = Ok rc w3 ->
  (rc > 0 -> DmaManager_reference tab bld env fuel d fd w = Ok rc w3) /\
  (rc < 0 -> P w3 ->
   (forall w, P w -> exists x w', w_dmas w !! d = Some x /\ confSem x = 0 /\ env w = Ok tt w' /\ P w') ->
   exists w', DmaManager_reference tab bld env fuel d fd w = Block w').
Proof.
  intros Hb H0 Hx Hdev Hsem Hreq Hx1 Henv Hf Hsend.
  rewrite (reference_prefix bld fuel d fd id x dev w w0 w1) by done.
  split.
  - intros Hrc. destruct bld; [|done|]; unfold mbind at 1, M_bind at 1, get_glob;
      rewrite (bind_ok _ _ _ _ _ Hsend); by rewrite decide_False by lia.
  - intros Hrc HP Hblk. destruct (sem_wait_blocks d confSem set_confSem P Hblk fuel w3 HP) as [w' Hw'].
    exists w'. destruct bld; [|done|]; unfold mbind at 1, M_bind at 1, get_glob;
      rewrite (bind_ok _ _ _ _ _ Hsend); rewrite decide_True by lia;
      unfold mbind, M_bind; by rewrite Hw'.
Qed.

End DmaFacts.

(** * The software MMU *)
Section ServerFacts.
Context {K : Type} `{!Device K} `{!PortalOs K}.
Local Abbreviation W := (World K).
Implicit Types (w : W) (s : MMUServer).
Variables (ind_configResp ind_idResponse : Z -> M W unit).
Local Abbreviation handle_all := (MMUServer_handle_all ind_configResp ind_idResponse).

(** [s] with area [i] replaced. *)
Definition with_area (i : Z) (a : memoryArea) s : MMUServer :=
  {| memoryAreas := <[Z.to_nat i := a]> (memoryAreas s);
     memoryAreasIndex := memoryAreasIndex s; ifcarr := ifcarr s |}.
Definition in_areas (i : Z) s : Prop := 0 <= i < Z.of_nat (length (memoryAreas s)).

Lemma with_area_in j i a s : in_areas j s -> in_areas j (with_area i a s).
Proof. unfold in_areas. cbn. by rewrite length_insert. Qed.
Lemma with_area_get i a s : in_areas i s -> znth (memoryAreas (with_area i a s)) i = Some a.
Proof. intros H. apply (znth_zupd_eq (memoryAreas s)). by apply zupd_Some. Qed.
Lemma with_area_twice i a b s : with_area i a (with_area i b s) = with_area i a s.
Proof. unfold with_area. cbn. by rewrite list_insert_insert_eq. Qed.
Lemma set_area_ok i a s w : in_areas i s -> set_area s i a w = Ok (with_area i a s) w.
Proof. intros H. unfold set_area. by rewrite (zupd_Some _ _ _ H). Qed.

Lemma handle_all_app l1 l2 s w :
  handle_all s (l1 ++ l2) w = (s ← handle_all s l1; handle_all s l2) w.
Proof.
  revert s w. induction l1 as [|r l1 IH]; intros s w; [done|]. cbn [app MMUServer_handle_all].
  rewrite bind_assoc. apply bind_ext. intros s' w'. apply IH.
Qed.

Definition len_ok (e : Z * Z) : Prop := 0 <= snd e < 2 ^ 31.

Lemma total_nonneg l : Forall len_ok l -> 0 <= total l.
Proof. unfold len_ok. induction 1 as [|[a n] l Hn _ IH]; cbn in *; lia. Qed.

(** The list entries add up their lengths. *)
Lemma server_sg_list id l : forall i n s w fd,
  0 <= id < 2 ^ 32 -> in_areas id s -> Forall len_ok l -> 0 <= n -> n + total l < 2 ^ 31 ->
  handle_all (with_area id {| ma_fd := fd; ma_ptr := NULL; ma_len := n |} s) (sg_list id i l) w =
  Ok (with_area id {| ma_fd := fd; ma_ptr := NULL; ma_len := n + total l |} s) w.
Proof.
  induction l as [|[a len] l IH]; intros i n s w fd Hid Hin Hl Hn Ht; cbn [sg_list MMUServer_handle_all total].
  - rewrite Z.add_0_r. done.
  - inversion Hl as [|? ? Hlen Hl']; subst. unfold len_ok in Hlen. cbn [snd total] in Hlen, Ht.
    pose proof (total_nonneg _ Hl'). unfold sg_request. cbn [MMUServer_handle fst snd].
    unfold MMUServer_sglist. rewrite (u32_small id), (u32_small len) by lia.
    rewrite bind_assoc, with_area_get, bind_defined by done. cbn [ma_fd ma_ptr ma_len].
    rewrite s32_small by lia. rewrite (bind_ok _ _ _ _ _ (set_area_ok _ _ _ _ (with_area_in _ _ _ _ Hin))).
    rewrite with_area_twice, IH by (done || lia). do 3 f_equal. lia.
Qed.

(** The software MMU gives a new memory object the next free area, answers
    with its number, sums up the lengths of the list entries, and on the region
    message maps the object with exactly that length and confirms. *)
Theorem server_maps_total fd l p s w w1 w2 w3 :
  0 < fd -> in_areas (memoryAreasIndex s) s -> memoryAreasIndex s < 2 ^ 31 ->
  Forall len_ok l -> total l < 2 ^ 31 ->
  ind_idResponse (memoryAreasIndex s) w = Ok tt w1 ->
  portalMmap fd (total l) w1 = Ok p w2 ->
  ind_configResp 0 w2 = Ok tt w3 ->
  handle_all s (IdRequest fd :: sg_requests (memoryAreasIndex s) l) w =
  Ok {| memoryAreas := <[Z.to_nat (memoryAreasIndex s) :=
                          {| ma_fd := fd; ma_ptr := p; ma_len := total l |}]> (memoryAreas s);
        memoryAreasIndex := memoryAreasIndex s + 1; ifcarr := ifcarr s |} w3.
Proof.
  intros Hfd Hin Hi Hl Ht H1 H2 H3. cbn [MMUServer_handle_all MMUServer_handle]. unfold MMUServer_idRequest.
  rewrite bind_assoc, (bind_ok _ _ _ _ _ (set_area_ok _ _ _ _ Hin)). rewrite decide_False by lia.
  cbn [memoryAreasIndex with_area]. rewrite bind_assoc, (bind_ok _ _ _ _ _ H1), bind_ret.
  set (i := memoryAreasIndex s) in *.
  set (s1 := {| memoryAreas := memoryAreas s; memoryAreasIndex := i + 1; ifcarr := ifcarr s |}).
  match goal with |- handle_all ?t _ _ = _ =>
    change t with (with_area i {| ma_fd := fd; ma_ptr := NULL; ma_len := 0 |} s1) end.
  assert (Hin1 : in_areas i s1) by exact Hin. pose proof (proj1 Hin).
  unfold sg_requests. rewrite handle_all_app.
  rewrite (bind_ok _ _ _ _ _ (server_sg_list i l 0 0 s1 w1 fd ltac:(lia) Hin1 Hl ltac:(lia) ltac:(lia))).
  pose proof (total_nonneg _ Hl). rewrite Z.add_0_l.
  cbn [MMUServer_handle_all MMUServer_handle]. unfold MMUServer_sglist. rewrite (u32_small i) by lia.
  rewrite bind_assoc, with_area_get, bind_defined by done. cbn [ma_fd ma_ptr ma_len].
  rewrite Z.add_0_r, s32_small by lia.
  rewrite (bind_ok _ _ _ _ _ (set_area_ok _ _ _ _ (with_area_in _ _ _ _ Hin1))), with_area_twice.
  unfold sg_region. destruct (sg_counts_3 l 0 0 0) as (s0 & s2 & s3 & ->).
  destruct (region_loop_3 s0 s2 s3) as (b8 & i8 & b4 & i4 & b0 & i0 & ->).
  cbn [MMUServer_handle_all MMUServer_handle]. unfold MMUServer_region. rewrite (u32_small i) by lia.
  rewrite bind_assoc, with_area_get, bind_defined by done. cbn [ma_fd ma_ptr ma_len].
  rewrite bind_assoc, (bind_ok _ _ _ _ _ H2).
  rewrite bind_assoc, (bind_ok _ _ _ _ _ (set_area_ok _ _ _ _ (with_area_in _ _ _ _ Hin1))), with_area_twice.
  by rewrite bind_assoc, (bind_ok _ _ _ _ _ H3).
Qed.
End ServerFacts.

(** * A concrete manager over a hardware portal *)
Module DmaDemo.
Local Abbreviation K := (list (Z * Z)).
Local Abbreviation W := (World K).

(** Registers as in [HwRegs]; ioctls are recorded under the addresses -1 and -2. *)
#[local] Instance dev : Device K := HwRegs.dev.
#[local] Instance os : PortalOs K :=
  {| os_open_portal := fun _ k => (-1, k); os_open_portalmem := fun k => (3, k);
     os_pa_malloc := fun _ _ k => (4, k); os_mmap := fun fd size k => (Pint fd, k);
     os_errno := fun _ => 0 |}.
#[local] Instance mem_os : MemOs K :=
  {| mo_dma_count := fun _ _ k => ((0, 1), k);
     mo_dma_entries := fun _ _ _ k => ((0, [(0x7000, 0x1000)]), k);
     mo_element_size := fun _ _ _ k => (-22, k ++ [(-2, 0)]);
     mo_sg_table := fun _ _ => [(0x7000, 0x1000)];
     mo_pcie_send_fd := fun _ fd id k => (0, k ++ [(-1, id)]) |}.

(** The event thread: answers the id request with 5 and [PCIE_SEND_FD] with a confirmation. *)
Definition env : M W unit :=
  w ← getW;
  match last (w_kern w) with
  | Some (-1, _) => confResp 0 5
  | Some (-2, _) => mret tt
  | _ => sglIdResp 0 5
  end.

Definition dma0 : DmaManagerPrivate := set_sglDevice (Some 0%nat) DmaManagerPrivate_zero.
Definition dma5 : DmaManagerPrivate := set_sglId 5 dma0.
Definition world0 (k : K) : W :=
  set_w_dmas (<[0%nat := dma0]> ∅)
    (set_w_glob (set_global_pa_fd 3 (w_glob (hw_world k))) (hw_world k)).
Definition sent : K := [(768, 8)].

(** An event thread that never confirms. *)
Definition env_silent : M W unit :=
  w ← getW; match last (w_kern w) with Some (-1, _) => mret tt | _ => sglIdResp 0 5 end.

Lemma DmaManager_reference_returns_witness :
  DmaManager_reference HwRegs.outer USER env 1 0 8 (world0 []) =
    Ok 5 (with_dma 0 dma5 (world0 (sent ++ [(-1, 5)]))) /\
  exists w', DmaManager_reference HwRegs.outer USER env_silent 7 0 8 (world0 []) = Block w'.
Proof.
  split.
  - destruct (DmaManager_reference_returns HwRegs.outer env 1 0 8 5 dma0 0%nat hw_pint
      (world0 []) (world0 []) (world0 sent) 0 (sent ++ [(-1, 5)])) as (Hret & _ & _);
      [reflexivity || lia..|].
    by apply Hret.
  - destruct (DmaManager_reference_returns HwRegs.outer env_silent 7 0 8 5 dma0 0%nat hw_pint
      (world0 []) (world0 []) (world0 sent) 0 (sent ++ [(-1, 5)])) as (_ & Hblk & _);
      [reflexivity || lia..|].
    apply (Hblk eq_refl (fun w => w = with_dma 0 (set_sglId 5 dma0) (set_w_kern (sent ++ [(-1, 5)]) (world0 sent))));
      [reflexivity|]. intros w ->. by eexists _, _.
Defined.

(** The stores that program one page, and the failure of the simulator's ioctl. *)
Definition programmed_regs : K :=
  sent ++ map (pair 256) [5; 0; 0; 7; 0x1000; 5; 1; 0; 0; 0] ++
  map (pair 512) [5; 0; 0; 0; 0; 0; 0; 0; 1; 0].

Lemma send_fd_requests_witness :
  send_fd_to_portal HwRegs.outer USER 0 0 8 5 3 (world0 sent) = Ok 5 (world0 programmed_regs).
Proof.
  destruct (send_fd_requests HwRegs.outer 0 0 8 5 3 (world0 sent) 1 [(0x7000, 0x1000)] sent sent 0 0)
    as (_ & _ & H & _); [reflexivity|reflexivity|lia|reflexivity|].
  rewrite (H eq_refl eq_refl). vm_compute. reflexivity.
Defined.

Definition server0 : MMUServer :=
  MMUServer_new (replicate MAX_SERVER_AREAS {| ma_fd := 0; ma_ptr := NULL; ma_len := 0 |})
    (replicate MAX_SERVER_AREAS None).

Lemma server_maps_total_witness :
  MMUServer_handle_all (fun _ => mret tt) (fun _ => mret tt) server0
    (IdRequest 9 :: sg_requests 1 [(0, 0x10000); (0x10000, 0x1000)]) (world0 []) =
  Ok {| memoryAreas := <[1%nat := {| ma_fd := 9; ma_ptr := Pint 9; ma_len := 0x11000 |}]>
                         (memoryAreas server0);
        memoryAreasIndex := 2; ifcarr := ifcarr server0 |} (world0 []).
Proof.
  apply (server_maps_total (fun _ => mret tt) (fun _ => mret tt) 9
           [(0, 0x10000); (0x10000, 0x1000)] (Pint 9) server0 (world0 []) (world0 []) (world0 []) (world0 []));
    try reflexivity; unfold in_areas; cbn; try lia.
  repeat constructor; cbn; lia.
Defined.

Lemma DmaManager_reference_wait_inverted_witness :
  DmaManager_reference HwRegs.outer KERNEL env 1 0 8 (world0 []) =
    Ok 5 (with_dma 0 dma5 (world0 programmed_regs)) /\
  exists w', DmaManager_reference HwRegs.outer SIM env 1 0 8 (world0 []) = Block w'.
Proof.
  split.
  - apply (DmaManager_reference_wait_inverted HwRegs.outer env KERNEL 1 0 8 5 dma0 0%nat
             (world0 []) (world0 []) (world0 sent) 5 (with_dma 0 dma5 (world0 programmed_regs))
             (fun _ => False)); reflexivity || lia || discriminate.
  - apply (DmaManager_reference_wait_inverted HwRegs.outer env SIM 1 0 8 5 dma0 0%nat
             (world0 []) (world0 []) (world0 sent) (-22) (with_dma 0 dma5 (world0 (sent ++ [(-2, 0)])))
             (eq (with_dma 0 dma5 (world0 (sent ++ [(-2, 0)]))))); try (reflexivity || lia || discriminate).
    intros w <-. eexists _, _. split_and!; reflexivity.
Defined.
End DmaDemo.
