(* ===== verification/Bsim.v ===== *)
(** The simulator transport [bsimfunc] of [cpp/portalSocket.c]: every register
    access of an application becomes a message on the socket to the simulator,
    and a read waits for the response.  The messages are the bytes of
    [struct memrequest] and [struct memresponse] on a 64-bit machine. *)

From stdpp Require Import base gmap list fin_maps.
From Stdlib Require Import ZArith Lia.
From S2P Require Import Prelude PortalTypes PortalCore Poller PortalSocket.

(** * The bytes of the messages *)

(** The value of a pointer that is an integer. *)
Definition ptr_int (p : ptr) : option Z := match p with Pint a => Some a | _ => None end.

(** [struct memrequest] has 24 bytes, the last 4 of them padding. *)
Definition memrequest_size : Z := 24.
Definition memrequest_bytes (portal flag addr data pad : Z) : list Z :=
  words_bytes [u32 portal; u32 flag; u32 addr; u32 (Z.shiftr addr 32); u32 data; u32 pad].

Definition memresponse_size : Z := 12.
Definition memresponse_bytes (r : memresponse) : list Z :=
  words_bytes [u32 (mresp_portal r); u32 (mresp_data r); u32 (mresp_tag r)].

Fixpoint bytes_words (l : list Z) : list Z :=
  match l with
  | a :: b :: c :: d :: l => of_bytes [a; b; c; d] :: bytes_words l
  | _ => []
  end.

Definition memresponse_of (l : list Z) : memresponse :=
  match bytes_words l with
  | [p; d; t] => {| mresp_portal := s32 p; mresp_data := d; mresp_tag := t |}
  | _ => {| mresp_portal := 0; mresp_data := 0; mresp_tag := 0 |}
  end.

Definition memrequest_of (l : list Z) : memrequest :=
  match bytes_words l with
  | [p; f; lo; hi; d; _] =>
      {| mreq_portal := s32 p; mreq_write_flag := s32 f; mreq_addr := Pint (lo + Z.shiftl hi 32);
         mreq_data_or_tag := d |}
  | _ => {| mreq_portal := 0; mreq_write_flag := 0; mreq_addr := Pint 0; mreq_data_or_tag := 0 |}
  end.

(** A structure after [l] was received into its first bytes. *)
Definition overlay (l old : list Z) : list Z := l ++ drop (length l) old.

Section Bsim.
Context {K : Type} `{!Device K} `{!PortalOs K} `{!PollOs K} `{!SockOs K}.
Local Abbreviation W := (World K).
Variable tab : ItemId -> PortalItemFunctions K.
Variable hcall : nat -> nat -> Z -> Z -> M W Z.
Variable BSIM : bool.

(** [portalSendFd] and [portalRecvFd] for a structure that is a variable: the
    first is given its bytes, the second returns the bytes it has afterwards. *)
Definition send_object (fd : Z) (l : list Z) (sendFd : Z) : M W unit :=
  rc ← kcall (sk_sendmsg fd l (if decide (sendFd >= 0) then Some sendFd else None));
  if decide (rc <> Z.of_nat (length l)) then exit 1 else mret tt.

Definition recv_object (fd : Z) (old : list Z) : M W (Z * Z * list Z) :=
  r ← kcall (sk_recvmsg fd (Z.of_nat (length old)));
  match r with
  | REof => mret (0, -1, old)
  | RErr => mret (-1, -1, old)
  | RData l c =>
      match c with
      | None => mret (Z.of_nat (length l), -1, overlay l old)
      | Some (ScmRights f) => mret (Z.of_nat (length l), f, overlay l old)
      | Some OtherCmsg => exit 1
      end
  end.

Definition upd_bsim (f : BsimState -> BsimState) : M W unit := b ← get_bsim; put_bsim (f b).

Definition poll_response (id : Z) : M W bool :=
  b ← get_bsim;
  (if decide (shared_response_valid b = 0) then
     g ← get_glob;
     '(rc, _, l) ← recv_object (global_sockfd g) (memresponse_bytes (shared_response b));
     upd_bsim (set_shared_response (memresponse_of l)) ;;
     b ← get_bsim;
     if decide (rc = memresponse_size) then
       if decide (mresp_portal (shared_response b) = MAGIC_PORTAL_FOR_SENDING_INTERRUPT) then
         upd_bsim (set_interrupt_value (mresp_data (shared_response b)))
       else upd_bsim (set_shared_response_valid 1)
     else mret tt
   else mret tt) ;;
  b ← get_bsim;
  mret (bool_decide (shared_response_valid b <> 0) && bool_decide (mresp_portal (shared_response b) = id)).

Definition bsim_poll_interrupt : M W Z :=
  g ← get_glob;
  if decide (global_sockfd g = -1) then mret 0
  else poll_response (-1) ;; b ← get_bsim; mret (interrupt_value b).

(** [while (!poll_response(...)) select(...)]: the simulator runs during the [select]. *)
Fixpoint wait_response (fuel : nat) (id : Z) : M W unit :=
  ok ← poll_response id;
  if (ok : bool) then mret tt
  else match fuel with
       | O => block
       | S fuel => await ;; wait_response fuel id
       end.

(** [read_portal_bsim] of a structure with [fpga_number] [n]. *)
Definition read_bsim (n : Z) (addr : ptr) : M W (Z * ptr) :=
  a ← defined (ptr_int addr);
  b ← get_bsim;
  upd_bsim (set_tag_counter (u32 (tag_counter b + 1))) ;;
  g ← get_glob;
  w ← getW;
  send_object (global_sockfd g) (memrequest_bytes n 0 a (tag_counter b) (w_fill w 0)) (-1) ;;
  wait_response (length (w_sched w)) n ;;
  b ← get_bsim;
  upd_bsim (set_shared_response_valid 0) ;;
  mret (mresp_data (shared_response b), addr).

Definition read_portal_bsim (p : nat) (addr : ptr) : M W (Z * ptr) :=
  x ← get_pint p; read_bsim (fpga_number x) addr.

Definition write_portal_bsim (p : nat) (addr : ptr) (v : Z) : M W ptr :=
  x ← get_pint p;
  a ← defined (ptr_int addr);
  g ← get_glob;
  w ← getW;
  send_object (global_sockfd g) (memrequest_bytes (fpga_number x) 1 a v (w_fill w 0)) (-1) ;;
  mret addr.

Definition write_portal_fd_bsim (p : nat) (addr : ptr) (v : Z) : M W ptr :=
  x ← get_pint p;
  a ← defined (ptr_int addr);
  g ← get_glob;
  w ← getW;
  send_object (global_sockfd g) (memrequest_bytes (fpga_number x) 1 a v (w_fill w 0)) (s32 v) ;;
  mret addr.

(** The loop of [connect_to_bsim]; [turns] is [32 - idx]. *)
Fixpoint discover (turns : nat) (idx : Z) : M W unit :=
  match turns with
  | O => mret tt
  | S turns =>
      let ptr := Pint (idx * PORTAL_BASE_OFFSET) in
      '(id, _) ← read_bsim idx (ptr_add ptr PORTAL_CTRL_REG_PORTAL_ID);
      '(last, _) ← read_bsim idx (ptr_add ptr PORTAL_CTRL_REG_TOP);
      assert (bool_decide (id < MAX_BSIM_PORTAL_ID)) ;;
      b ← get_bsim;
      l ← defined (zupd (bsim_fpga_map b) idx {| bme_name := id; bme_offset := idx; bme_valid := 1 |});
      put_bsim (set_bsim_fpga_map l b) ;;
      if decide (last = 0) then discover turns (idx + 1) else mret tt
  end.

Definition connect_to_bsim : M W unit :=
  g ← get_glob;
  if decide (global_sockfd g <> -1) then mret tt
  else
    f ← init_connecting SOCKET_NAME NoParam;
    g ← get_glob;
    put_glob (set_global_sockfd f g) ;;
    discover 32 0.

(** The search of [init_bsim]; it leaves the array when every entry is valid. *)
Fixpoint find_portal (l : list bsim_fpga_map_entry) (n : Z) : M W (option Z) :=
  match l with
  | [] => fault
  | e :: l =>
      if decide (bme_valid e = 0) then mret None
      else if decide (bme_name e = n) then mret (Some (bme_offset e))
      else find_portal l n
  end.

Definition init_bsim (p : nat) (param : ItemParam) : M W Z :=
  if BSIM then
    connect_to_bsim ;;
    x ← get_pint p;
    assert (bool_decide (fpga_number x < MAX_BSIM_PORTAL_ID)) ;;
    b ← get_bsim;
    found ← find_portal (bsim_fpga_map b) (fpga_number x);
    match found with
    | None => assert false ;; mret 0
    | Some off =>
        upd_pint p (set_fpga_number off) ;;
        x ← get_pint p;
        upd_pint p (set_map_base (Pint (fpga_number x * PORTAL_BASE_OFFSET))) ;;
        x ← get_pint p;
        it_enableint (item_of tab x) p 1 ;;
        mret 0
    end
  else mret 0.

Definition event_portal_bsim (fuel : nat) (p : nat) : M W Z :=
  if BSIM then
    x ← get_pint p;
    v ← (if decide (fpga_fd x = -1) then bsim_poll_interrupt else mret 1);
    if decide (v = 0) then mret (-1) else event_hardware tab hcall fuel p
  else event_hardware tab hcall fuel p.

(** [PortalItemFunctions bsimfunc] *)
Definition bsimfunc_table (fuel : nat) : PortalItemFunctions K :=
  {| it_init := init_bsim; it_read := read_portal_bsim; it_write := write_portal_bsim;
     it_writefd := write_portal_fd_bsim; it_mapchannelInd := mapchannel_hardware;
     it_mapchannelReq := mapchannel_hardware; it_send := send_portal_null;
     it_recv := recv_portal_null; it_busywait := busy_hardware tab;
     it_enableint := enableint_hardware tab; it_event := event_portal_bsim fuel |}.

End Bsim.
