(* ===== verification/BsimCtrl.v ===== *)
(** The simulator's side of the socket: [cpp/BsimCtrl.cxx], the functions the
    simulated design imports to fetch register accesses and to answer them, the
    methods of [bsv/BsimTop.bsv] that call them, each from a rule of its own,
    with the FIFO of the words written, and the composition with the
    application's side in [Bsim]: the design, which is a parameter, sees the
    register accesses of the application once and in order. *)

From stdpp Require Import base gmap list fin_maps.
From Stdlib Require Import ZArith Lia.
From S2P Require Import Prelude PortalTypes PortalCore Poller PortalSocket Bsim.

Definition MAX_FD_ARRAY : nat := 10.

(** The static variables; [int_respitem] is the one local to [interruptLevel]. *)
Record Ctrl : Type := {
  head_req : memrequest;
  head_sockfd : Z;
  head_valid : Z;
  head_inflight : Z;
  respitem : memresponse;
  int_respitem : memresponse;
  fd_array : list Z;
  fd_array_index : Z
}.

Definition set_head_req (v : memrequest) (c : Ctrl) : Ctrl :=
  {| head_req := v; head_sockfd := head_sockfd c; head_valid := head_valid c;
     head_inflight := head_inflight c; respitem := respitem c; int_respitem := int_respitem c;
     fd_array := fd_array c; fd_array_index := fd_array_index c |}.
Definition set_head_sockfd (v : Z) (c : Ctrl) : Ctrl :=
  {| head_req := head_req c; head_sockfd := v; head_valid := head_valid c;
     head_inflight := head_inflight c; respitem := respitem c; int_respitem := int_respitem c;
     fd_array := fd_array c; fd_array_index := fd_array_index c |}.
Definition set_head_valid (v : Z) (c : Ctrl) : Ctrl :=
  {| head_req := head_req c; head_sockfd := head_sockfd c; head_valid := v;
     head_inflight := head_inflight c; respitem := respitem c; int_respitem := int_respitem c;
     fd_array := fd_array c; fd_array_index := fd_array_index c |}.
Definition set_head_inflight (v : Z) (c : Ctrl) : Ctrl :=
  {| head_req := head_req c; head_sockfd := head_sockfd c; head_valid := head_valid c;
     head_inflight := v; respitem := respitem c; int_respitem := int_respitem c;
     fd_array := fd_array c; fd_array_index := fd_array_index c |}.
Definition set_respitem (v : memresponse) (c : Ctrl) : Ctrl :=
  {| head_req := head_req c; head_sockfd := head_sockfd c; head_valid := head_valid c;
     head_inflight := head_inflight c; respitem := v; int_respitem := int_respitem c;
     fd_array := fd_array c; fd_array_index := fd_array_index c |}.
Definition set_int_respitem (v : memresponse) (c : Ctrl) : Ctrl :=
  {| head_req := head_req c; head_sockfd := head_sockfd c; head_valid := head_valid c;
     head_inflight := head_inflight c; respitem := respitem c; int_respitem := v;
     fd_array := fd_array c; fd_array_index := fd_array_index c |}.
Definition set_fds (l : list Z) (n : Z) (c : Ctrl) : Ctrl :=
  {| head_req := head_req c; head_sockfd := head_sockfd c; head_valid := head_valid c;
     head_inflight := head_inflight c; respitem := respitem c; int_respitem := int_respitem c;
     fd_array := l; fd_array_index := n |}.

Definition memresponse_zero : memresponse := {| mresp_portal := 0; mresp_data := 0; mresp_tag := 0 |}.
Definition memrequest_zero : memrequest :=
  {| mreq_portal := 0; mreq_write_flag := 0; mreq_addr := NULL; mreq_data_or_tag := 0 |}.
Definition Ctrl_start : Ctrl :=
  {| head_req := memrequest_zero; head_sockfd := 0; head_valid := 0; head_inflight := 0;
     respitem := memresponse_zero; int_respitem := memresponse_zero;
     fd_array := replicate MAX_FD_ARRAY 0; fd_array_index := 0 |}.

Definition mreq_bytes (r : memrequest) : list Z :=
  memrequest_bytes (mreq_portal r) (mreq_write_flag r)
    (match mreq_addr r with Pint a => a | _ => 0 end) (mreq_data_or_tag r) 0.

Section Ctrl.
Context {K : Type} `{!SockOs K}.

(** The simulator's process: its variables and the kernel. *)
Local Abbreviation S := (Ctrl * K)%type.

Definition upd (f : Ctrl -> Ctrl) : M S unit := modifyW (fun s => (f (fst s), snd s)).
Definition ctrl : M S Ctrl := fun s => Ok (fst s) s.
Definition sys {A} (f : K -> A * K) : M S A := fun s =>
  let '(a, k) := f (snd s) in Ok a (fst s, k).

(** [portalSendFd(fd, &obj, sizeof(obj), -1)] *)
Definition ctl_send (fd : Z) (l : list Z) : M S unit :=
  rc ← sys (sk_sendmsg fd l None);
  if decide (rc <> Z.of_nat (length l)) then exit 1 else mret tt.

(** [portalRecvFd]: the result, [recvfd], and the bytes of the object. *)
Definition ctl_recv (fd : Z) (old : list Z) : M S (Z * Z * list Z) :=
  r ← sys (sk_recvmsg fd (Z.of_nat (length old)));
  match r with
  | REof => mret (0, -1, old)
  | RErr => mret (-1, -1, old)
  | RData l None => mret (Z.of_nat (length l), -1, overlay l old)
  | RData l (Some (ScmRights f)) => mret (Z.of_nat (length l), f, overlay l old)
  | RData l (Some OtherCmsg) => exit 1
  end.

(** A turn of the loop of [pthread_worker]. *)
Definition worker_accept (listening_socket : Z) : M S unit :=
  sockfd ← sys (sk_accept listening_socket);
  if decide (sockfd = -1) then exit 1
  else
    c ← ctrl;
    l ← defined (zupd (fd_array c) (fd_array_index c) sockfd);
    upd (set_fds l (fd_array_index c + 1)).

Fixpoint send_all (fds : list Z) (l : list Z) : M S unit :=
  match fds with [] => mret tt | f :: fds => ctl_send f l ;; send_all fds l end.

Definition interruptLevel (ivalue : Z) : M S unit :=
  c ← ctrl;
  if decide (ivalue <> mresp_data (int_respitem c)) then
    let r := {| mresp_portal := MAGIC_PORTAL_FOR_SENDING_INTERRUPT; mresp_data := ivalue;
                mresp_tag := mresp_tag (int_respitem c) |} in
    upd (set_int_respitem r) ;;
    send_all (take (Z.to_nat (fd_array_index c)) (fd_array c)) (memresponse_bytes r)
  else mret tt.

(** The [for] loop of [checkForRequest] over the clients. *)
Fixpoint check_clients (fds : list Z) : M S unit :=
  match fds with
  | [] => mret tt
  | f :: fds =>
      upd (set_head_sockfd f) ;;
      c ← ctrl;
      '(rv, recvfd, l) ← ctl_recv f (mreq_bytes (head_req c));
      upd (set_head_req (memrequest_of l)) ;;
      if decide (rv > 0) then
        assert (bool_decide (rv = memrequest_size)) ;;
        c ← ctrl;
        upd (set_respitem {| mresp_portal := mreq_portal (head_req c); mresp_data := mresp_data (respitem c);
                             mresp_tag := mresp_tag (respitem c) |}) ;;
        upd (set_head_valid 1) ;;
        upd (set_head_inflight 1) ;;
        if decide (recvfd <> -1) then
          upd (set_head_req {| mreq_portal := mreq_portal (head_req c);
                               mreq_write_flag := mreq_write_flag (head_req c);
                               mreq_addr := mreq_addr (head_req c); mreq_data_or_tag := u32 recvfd |})
        else mret tt
      else check_clients fds
  end.

Definition checkForRequest (rr : Z) : M S bool :=
  c ← ctrl;
  (if decide (head_valid c = 0) then
     check_clients (take (Z.to_nat (fd_array_index c)) (fd_array c))
   else mret tt) ;;
  c ← ctrl;
  mret (bool_decide (head_valid c <> 0) && bool_decide (head_inflight c = 1) &&
        bool_decide (mreq_write_flag (head_req c) = s32 rr)).

Definition getRequest32 (rr : Z) : M S Z :=
  (if decide (rr <> 0) then upd (set_head_valid 0) else mret tt) ;;
  upd (set_head_inflight 0) ;;
  c ← ctrl;
  a ← defined (ptr_int (mreq_addr (head_req c)));
  mret (Z.lor (Z.shiftl (mreq_data_or_tag (head_req c)) 32) (u64 a)).

Definition readResponse32 (data tag : Z) : M S unit :=
  upd (set_head_valid 0) ;;
  c ← ctrl;
  upd (set_respitem {| mresp_portal := mresp_portal (respitem c); mresp_data := data; mresp_tag := tag |}) ;;
  c ← ctrl;
  ctl_send (head_sockfd c) (memresponse_bytes (respitem c)).

End Ctrl.

(** * Messages come back as they were sent *)

Lemma bytes_words_bytes ws : Forall in_u32 ws -> bytes_words (words_bytes ws) = ws.
Proof.
  induction 1 as [|v ws Hv _ IH]; [done|]. unfold words_bytes in *. cbn [map mjoin].
  change (bytes_words (le_bytes v ++ mjoin (map le_bytes ws)) = v :: ws).
  cbn [le_bytes app bytes_words]. rewrite IH. f_equal. by apply (of_le_bytes v).
Qed.

Lemma in_u32_u32 z : in_u32 (u32 z).
Proof. apply u32_bound. Qed.

Lemma s32_u32 z : -2147483648 <= z < 2147483648 -> s32 (u32 z) = z.
Proof. intros H. unfold s32, swrap, u32, wrap. change (2 ^ (32 - 1)) with 2147483648. change (2 ^ 32) with 4294967296. zlia. Qed.

Lemma memrequest_of_bytes n f a d pad :
  -2147483648 <= n < 2147483648 -> -2147483648 <= f < 2147483648 -> 0 <= a < 2 ^ 64 ->
  memrequest_of (memrequest_bytes n f a d pad) =
  {| mreq_portal := n; mreq_write_flag := f; mreq_addr := Pint a; mreq_data_or_tag := u32 d |}.
Proof.
  intros Hn Hf Ha. unfold memrequest_of, memrequest_bytes.
  rewrite bytes_words_bytes by (repeat constructor; apply u32_bound).
  rewrite !s32_u32 by done. f_equal. f_equal.
  rewrite Z.shiftl_mul_pow2, Z.shiftr_div_pow2 by lia. rewrite (u32_small (a / 2 ^ 32)) by zlia.
  unfold u32, wrap. zlia.
Qed.

Lemma memresponse_of_bytes r :
  -2147483648 <= mresp_portal r < 2147483648 -> in_u32 (mresp_data r) -> in_u32 (mresp_tag r) ->
  memresponse_of (memresponse_bytes r) = r.
Proof.
  intros Hp Hd Ht. unfold memresponse_of, memresponse_bytes.
  rewrite bytes_words_bytes by (repeat constructor; apply u32_bound).
  rewrite s32_u32 by done. destruct r. cbn in *. unfold in_u32 in *. by rewrite !u32_small by lia.
Qed.

Lemma overlay_full (l old : list Z) : length l = length old -> overlay l old = l.
Proof. intros H. unfold overlay. rewrite drop_ge by lia. apply app_nil_r. Qed.

(** * An application connected to a simulator *)

(** The methods of [mkBsimCtrlReadWrite] a rule of the simulated design calls;
    [Internal] stands for a rule that calls none of them. *)
Inductive method : Type :=
  | GetReadReq | PutReadData (d tag : Z) | GetWriteReq | GetWriteData | Internal.

(** What the design sees: a request or a data word it got, the answer it gave,
    or a turn in which no method was called or the called one was not ready. *)
Inductive event : Type :=
  | ReadReq (a tag : Z) | ReadData (d tag : Z) | WriteReq (a : Z) | WriteData (d : Z) | Idle.

(** A simulated design: the method its scheduler tries next and its state after
    an event; [sd_reads] and [sd_writes] count the read requests it has not
    answered and the write requests whose data it has not taken. *)
Class SimDesign (H : Type) : Type := {
  sd_next : H -> method;
  sd_step : event -> H -> H;
  sd_reads : H -> nat;
  sd_writes : H -> nat
}.

Fixpoint idles {H} `{!SimDesign H} (k : nat) (h : H) : H :=
  match k with O => h | S k => idles k (sd_step Idle h) end.

(** The protocol of a slave of the bus: it answers only reads it took, a busy
    slave completes something and a free one looks for requests of either
    kind, within [B] turns in which nothing happens. *)
Class SimLaws (H : Type) `{!SimDesign H} (B : nat) : Prop := {
  sd_counts : forall e h,
    match e with
    | ReadReq _ _ => sd_reads (sd_step e h) = S (sd_reads h) /\ sd_writes (sd_step e h) = sd_writes h
    | ReadData _ _ => sd_reads (sd_step e h) = pred (sd_reads h) /\ sd_writes (sd_step e h) = sd_writes h
    | WriteReq _ => sd_reads (sd_step e h) = sd_reads h /\ sd_writes (sd_step e h) = S (sd_writes h)
    | WriteData _ => sd_reads (sd_step e h) = sd_reads h /\ sd_writes (sd_step e h) = pred (sd_writes h)
    | Idle => sd_reads (sd_step e h) = sd_reads h /\ sd_writes (sd_step e h) = sd_writes h
    end;
  sd_answers : forall h d tag, sd_next h = PutReadData d tag -> sd_reads h <> O;
  sd_busy : forall h, (sd_reads h <> O \/ sd_writes h <> O) ->
    exists k, (k <= B)%nat /\
      ((exists d tag, sd_next (idles k h) = PutReadData d tag) \/
       (sd_next (idles k h) = GetWriteData /\ sd_writes h <> O));
  sd_free : forall h, sd_reads h = O -> sd_writes h = O -> forall m, (m = GetReadReq \/ m = GetWriteReq) ->
    exists k, (k <= B)%nat /\ sd_next (idles k h) = m
}.

Section Composed.
Context {H : Type} `{!SimDesign H}.

(** The simulator's side of the connection: messages to the simulator with the
    descriptor they carry, messages to the application, the write-data FIFO of
    [mkBsimCtrlReadWrite] (it holds one word), the design, and the events the
    design has seen. *)
Record Side : Type := {
  to_sim : list (list Z * option Z);
  to_app : list (list Z);
  wf_data : option Z;
  design : H;
  events : list event
}.

Definition set_to_sim v k := {| to_sim := v; to_app := to_app k; wf_data := wf_data k; design := design k; events := events k |}.
Definition set_to_app v k := {| to_sim := to_sim k; to_app := v; wf_data := wf_data k; design := design k; events := events k |}.
Definition set_wf_data v k := {| to_sim := to_sim k; to_app := to_app k; wf_data := v; design := design k; events := events k |}.

(** The simulator's process and its side are the application's environment. *)
Definition Link : Type := Ctrl * Side.

#[global] Instance side_sock : SockOs Side :=
  {| sk_socket := fun k => (-1, k); sk_connect := fun _ _ k => (-1, k); sk_unlink := fun _ k => k;
     sk_bind := fun _ _ k => (-1, k); sk_listen := fun _ _ k => (-1, k); sk_accept := fun _ k => (-1, k);
     sk_nonblock := fun _ k => k; sk_sleep := fun _ k => k;
     sk_sendmsg := fun _ l _ k => (Z.of_nat (length l), set_to_app (to_app k ++ [l]) k);
     sk_recvmsg := fun _ n k =>
       match to_sim k with
       | [] => (RErr, k)
       | (l, f) :: q => (RData l (ScmRights <$> f), set_to_sim q k)
       end;
     sk_errno := fun _ => EAGAIN |}.

Definition MemTagSize : Z := 6.

(** The design sees [e]; only the events that are not [Idle] are recorded. *)
Definition emit (e : event) : M Link unit :=
  sys (fun k => (tt, {| to_sim := to_sim k; to_app := to_app k; wf_data := wf_data k; design := sd_step e (design k);
                        events := events k ++ match e with Idle => [] | _ => [e] end |})).

(** [readReq.get], ready when [checkForRequest(0)]. *)
Definition readReq_get : M Link unit :=
  r ← checkForRequest 0;
  if (r : bool) then
    ra ← getRequest32 0;
    emit (ReadReq (u32 ra) (wrap MemTagSize (Z.shiftr ra 32)))
  else emit Idle.

(** [readData.put] *)
Definition readData_put (d tag : Z) : M Link unit :=
  readResponse32 (u32 d) (wrap MemTagSize tag) ;;
  emit (ReadData (u32 d) (wrap MemTagSize tag)).

(** [writeReq.get], ready when [checkForRequest(1)] and the FIFO [wf] has room. *)
Definition writeReq_get : M Link unit :=
  r ← checkForRequest 1;
  f ← sys (fun k => (wf_data k, k));
  match r, f with
  | true, None =>
      wd ← getRequest32 1;
      sys (fun k => (tt, set_wf_data (Some (u32 (Z.shiftr wd 32))) k)) ;;
      emit (WriteReq (u32 wd))
  | _, _ => emit Idle
  end.

(** [writeData.get], ready when [wf] holds a word. *)
Definition writeData_get : M Link unit :=
  f ← sys (fun k => (wf_data k, k));
  match f with
  | Some d => sys (fun k => (tt, set_wf_data None k)) ;; emit (WriteData d)
  | None => emit Idle
  end.

(** A turn of the simulation: a rule of the design calls its method if that is ready. *)
Definition sim_turn : M Link unit :=
  h ← sys (fun k => (design k, k));
  match sd_next h with
  | GetReadReq => readReq_get
  | PutReadData d tag => readData_put d tag
  | GetWriteReq => writeReq_get
  | GetWriteData => writeData_get
  | Internal => emit Idle
  end.

#[global] Instance link_dev : Device Link :=
  {| mmio_read := fun _ k => (0, k); mmio_write := fun _ _ k => k;
     dev_tick := fun k => match sim_turn k with Ok _ k' => k' | _ => k end |}.

(** The application's end of the socket. *)
#[global] Instance link_sock : SockOs Link :=
  {| sk_socket := fun k => (5, k); sk_connect := fun _ _ k => (0, k); sk_unlink := fun _ k => k;
     sk_bind := fun _ _ k => (-1, k); sk_listen := fun _ _ k => (-1, k); sk_accept := fun _ k => (-1, k);
     sk_nonblock := fun _ k => k; sk_sleep := fun _ k => k;
     sk_sendmsg := fun _ l f k => (Z.of_nat (length l), (fst k, set_to_sim (to_sim (snd k) ++ [(l, f)]) (snd k)));
     sk_recvmsg := fun _ n k =>
       match to_app (snd k) with
       | [] => (RErr, k)
       | l :: q => (RData l None, (fst k, set_to_app q (snd k)))
       end;
     sk_errno := fun _ => EAGAIN |}.

Local Abbreviation W := (World Link).
Implicit Types (w : W).

(** ** Specification: a queue of requests in front of the design *)

Inductive request : Type := Read (a tag : Z) | Write (a v : Z).

(** The requests not taken yet, whether the last request taken is an
    unanswered read, and the answers on their way to the application. *)
Record Bus : Type := {
  b_queue : list request;
  b_reading : bool;
  b_wf : option Z;
  b_out : list (Z * Z);
  b_design : H;
  b_events : list event
}.

Definition see (e : event) (q : list request) (rd : bool) (f : option Z) (out : list (Z * Z)) (b : Bus) : Bus :=
  {| b_queue := q; b_reading := rd; b_wf := f; b_out := out; b_design := sd_step e (b_design b);
     b_events := b_events b ++ match e with Idle => [] | _ => [e] end |}.

(** The method [m], when it is ready. *)
Definition fire (m : method) (b : Bus) : option Bus :=
  match m, b_reading b, b_queue b, b_wf b with
  | GetReadReq, false, Read a t :: q, f => Some (see (ReadReq a (wrap MemTagSize t)) q true f (b_out b) b)
  | PutReadData d t, true, q, f =>
      Some (see (ReadData (u32 d) (wrap MemTagSize t)) q false f (b_out b ++ [(u32 d, wrap MemTagSize t)]) b)
  | GetWriteReq, false, Write a v :: q, None => Some (see (WriteReq a) q false (Some (u32 v)) (b_out b) b)
  | GetWriteData, rd, q, Some d => Some (see (WriteData d) q rd None (b_out b) b)
  | _, _, _, _ => None
  end.

Definition idled (b : Bus) : Bus := see Idle (b_queue b) (b_reading b) (b_wf b) (b_out b) b.
Definition bus_turn (b : Bus) : Bus := default (idled b) (fire (sd_next (b_design b)) b).

(** ** The simulator implements the queue *)

Definition int32 (n : Z) : Prop := -2147483648 <= n < 2147483648.

Definition msg (n pad : Z) (x : request) : list Z * option Z :=
  match x with
  | Read a t => (memrequest_bytes n 0 a t pad, None)
  | Write a v => (memrequest_bytes n 1 a v pad, None)
  end.
Definition req_of (n : Z) (x : request) : memrequest :=
  match x with
  | Read a t => {| mreq_portal := n; mreq_write_flag := 0; mreq_addr := Pint a; mreq_data_or_tag := u32 t |}
  | Write a v => {| mreq_portal := n; mreq_write_flag := 1; mreq_addr := Pint a; mreq_data_or_tag := u32 v |}
  end.
Definition request_ok (x : request) : Prop :=
  match x with Read a t => in_u32 a /\ in_u32 t | Write a _ => in_u32 a end.
Definition answer_bytes (n : Z) (x : Z * Z) : list Z :=
  memresponse_bytes {| mresp_portal := n; mresp_data := fst x; mresp_tag := snd x |}.

(** The head of the queue may have been received already: it is then in [head_req]. *)
Definition head_at (n pad : Z) (b : Bus) (c : Ctrl) (msgs : list (list Z * option Z)) : Prop :=
  if b_reading b then
    head_valid c = 1 /\ head_inflight c = 0 /\ mresp_portal (respitem c) = n /\ msgs = map (msg n pad) (b_queue b)
  else
    (head_valid c = 0 /\ msgs = map (msg n pad) (b_queue b)) \/
    (head_valid c = 1 /\ head_inflight c = 1 /\ mresp_portal (respitem c) = n /\
     exists x q, b_queue b = x :: q /\ head_req c = req_of n x /\ msgs = map (msg n pad) q).

Definition implements (n pad : Z) (b : Bus) (lk : Link) : Prop :=
  let '(c, k) := lk in
  fd_array_index c = 1 /\ (exists f l, fd_array c = f :: l) /\
  head_at n pad b c (to_sim k) /\
  (to_app k = map (answer_bytes n) (b_out b) /\ wf_data k = b_wf b /\
   design k = b_design b /\ events k = b_events b) /\
  Forall request_ok (b_queue b) /\
  sd_reads (b_design b) = (if b_reading b then 1%nat else O) /\
  sd_writes (b_design b) = length (option_list (b_wf b)).

(** The controller holds request [x], and [q] is still in the socket. *)
Definition loaded (n pad : Z) (x : request) (q : list request) (c : Ctrl) (msgs : list (list Z * option Z)) : Prop :=
  head_valid c = 1 /\ head_inflight c = 1 /\ mresp_portal (respitem c) = n /\
  head_req c = req_of n x /\ msgs = map (msg n pad) q.

Definition one_client (c : Ctrl) : Prop := fd_array_index c = 1 /\ exists f l, fd_array c = f :: l.

(** [c] after receiving [r]. *)
Definition served (f : Z) (r : memrequest) (c : Ctrl) : Ctrl :=
  set_head_inflight 1 (set_head_valid 1
    (set_respitem {| mresp_portal := mreq_portal r; mresp_data := mresp_data (respitem c);
                     mresp_tag := mresp_tag (respitem c) |}
      (set_head_req r (set_head_sockfd f c)))).

Lemma msg_length n pad x : length (fst (msg n pad x)) = 24%nat.
Proof. by destruct x. Qed.

Lemma msg_req n pad x : int32 n -> request_ok x -> memrequest_of (fst (msg n pad x)) = req_of n x.
Proof.
  intros Hn Hx. destruct x; cbn [msg fst req_of request_ok] in *; unfold in_u32, int32 in *;
    apply memrequest_of_bytes; lia.
Qed.

Lemma ctl_recv_msg f l old c k rest : length l = length old -> to_sim k = (l, None) :: rest ->
  ctl_recv f old (c, k) = Ok (Z.of_nat (length l), -1, l) (c, set_to_sim rest k).
Proof. intros Hl Hk. unfold ctl_recv, mbind, M_bind, sys. cbn. rewrite Hk. cbn. by rewrite overlay_full. Qed.

Lemma ctl_recv_none f old c k : to_sim k = [] -> ctl_recv f old (c, k) = Ok (-1, -1, old) (c, k).
Proof. intros Hk. unfold ctl_recv, mbind, M_bind, sys. cbn. by rewrite Hk. Qed.

Definition flag (x : request) : Z := match x with Read _ _ => 0 | Write _ _ => 1 end.

(** A request in the socket is received. *)
Lemma check_receives rr n pad x q c k : int32 n -> request_ok x -> one_client c ->
  head_valid c = 0 -> to_sim k = map (msg n pad) (x :: q) ->
  exists c', checkForRequest rr (c, k) = Ok (bool_decide (flag x = s32 rr)) (c', set_to_sim (map (msg n pad) q) k) /\
    one_client c' /\ loaded n pad x q c' (map (msg n pad) q).
Proof.
  intros Hn Hx (Hi & f & l0 & Hf) Hv Hk. exists (served f (req_of n x) c).
  split; [|split; [by split; [|exists f, l0]|split_and!; try done; by destruct x]].
  unfold checkForRequest. unfold mbind at 1, M_bind at 1, ctrl at 1. cbn [fst].
  rewrite Hv, Hi, Hf, decide_True by done. change (take (Z.to_nat 1) (f :: l0)) with [f].
  rewrite (bind_ok _ _ _ tt (served f (req_of n x) c, set_to_sim (map (msg n pad) q) k)); [by destruct x|].
  cbn [check_clients]. unfold mbind at 1, M_bind at 1, upd at 1, modifyW. cbn [fst snd].
  unfold mbind at 1, M_bind at 1, ctrl at 1. cbn [fst].
  cbn [map] in Hk. rewrite (surjective_pairing (msg n pad x)) in Hk.
  replace (snd (msg n pad x)) with (@None Z) in Hk by (by destruct x).
  rewrite (bind_ok _ _ _ _ _ (ctl_recv_msg f (fst (msg n pad x)) (mreq_bytes _) _ k _ (msg_length n pad x) Hk)).
  rewrite msg_length, msg_req by done. reflexivity.
Qed.

(** With nothing in the socket, or a request held already, nothing is received. *)
Lemma check_holds rr n pad x q c (k : Side) : loaded n pad x q c (to_sim k) ->
  checkForRequest rr (c, k) = Ok (bool_decide (flag x = s32 rr)) (c, k).
Proof.
  intros (Hv & Hi & _ & Hr & _). unfold checkForRequest, mbind, M_bind, ctrl. cbn [fst].
  rewrite (decide_False _ _ (P := head_valid c = 0)) by lia. cbn. rewrite Hv, Hi, Hr. by destruct x.
Qed.

Lemma check_reading rr c (k : Side) : head_valid c = 1 -> head_inflight c = 0 ->
  checkForRequest rr (c, k) = Ok false (c, k).
Proof.
  intros Hv Hi. unfold checkForRequest, mbind, M_bind, ctrl. cbn [fst].
  rewrite (decide_False _ _ (P := head_valid c = 0)) by lia. cbn. by rewrite Hv, Hi.
Qed.

Lemma check_empty rr c (k : Side) : one_client c -> head_valid c = 0 -> to_sim k = [] ->
  exists c', checkForRequest rr (c, k) = Ok false (c', k) /\ one_client c' /\ head_valid c' = 0.
Proof.
  intros (Hi & f & l0 & Hf) Hv Hk.
  eexists. split.
  { unfold checkForRequest. unfold mbind at 1, M_bind at 1, ctrl at 1. cbn [fst].
    rewrite Hv, Hi, Hf, decide_True by done. change (take (Z.to_nat 1) (f :: l0)) with [f].
    cbn [check_clients]. unfold mbind, M_bind, upd, modifyW, ctrl. cbn [fst snd].
    rewrite ctl_recv_none by done. unfold mret, M_ret.
    cbn [fst snd decide]. rewrite decide_False by lia. cbn -[memrequest_of]. rewrite Hv. reflexivity. }
  split; [by split; [|exists f, l0]|done].
Qed.

Lemma req_addr d a : in_u32 d -> in_u32 a ->
  u32 (Z.lor (Z.shiftl d 32) (u64 a)) = a /\ Z.shiftr (Z.lor (Z.shiftl d 32) (u64 a)) 32 = d.
Proof.
  unfold in_u32. intros Hd Ha. rewrite u64_small, lor_shiftl_add by lia. rewrite Z.shiftr_div_pow2 by lia.
  unfold u32, wrap. split; zlia.
Qed.

Definition ready (rr : Z) (b : Bus) : bool :=
  negb (b_reading b) && match b_queue b with x :: _ => bool_decide (flag x = s32 rr) | [] => false end.

Lemma implements_recv n pad b c k c' ms : implements n pad b (c, k) ->
  one_client c' -> head_at n pad b c' ms -> implements n pad b (c', set_to_sim ms k).
Proof.
  intros (_ & _ & _ & Hk & Hrest) [Hi Hf] Hh. unfold implements. split_and!; try done; try apply Hk; apply Hrest.
Qed.

Lemma loaded_head n pad b c x q ms : b_reading b = false -> b_queue b = x :: q ->
  loaded n pad x q c ms -> head_at n pad b c ms.
Proof.
  intros Hr Hq (? & ? & ? & ? & ?). unfold head_at. rewrite Hr. right. split_and!; try done. by exists x, q.
Qed.

(** The guard of a method: the request at the head of the queue is of its kind,
    and the controller then holds it. *)
Lemma check_ready rr n pad b c k : int32 n -> implements n pad b (c, k) ->
  exists c' ms, checkForRequest rr (c, k) = Ok (ready rr b) (c', set_to_sim ms k) /\
    one_client c' /\ head_at n pad b c' ms /\
    (forall x q, b_reading b = false -> b_queue b = x :: q -> loaded n pad x q c' ms).
Proof.
  intros Hn (Hi & Hf & Hh & _ & Hok & _). unfold ready.
  assert (Hsame : set_to_sim (to_sim k) k = k) by (by destruct k).
  destruct (b_reading b) eqn:Erd; cbn [negb andb].
  { pose proof Hh as Hh'. unfold head_at in Hh. rewrite Erd in Hh. destruct Hh as (Hv & Hfl & Hp & Hm).
    exists c, (to_sim k). by rewrite Hsame, check_reading by done. }
  pose proof Hh as Hh'. unfold head_at in Hh. rewrite Erd in Hh.
  destruct Hh as [[Hv Hm]|(Hv & Hfl & Hp & x & q & Hq & Hr & Hm)].
  - destruct (b_queue b) as [|x q] eqn:Eq.
    + destruct (check_empty rr c k (conj Hi Hf) Hv Hm) as (c' & Hrun & Hc' & Hv').
      exists c', (to_sim k). rewrite Hsame. split_and!; try done; try apply Hc'.
      unfold head_at. rewrite Erd, Eq. by left.
    + apply Forall_cons in Hok as [Hx Hok'].
      destruct (check_receives rr n pad x q c k Hn Hx (conj Hi Hf) Hv Hm) as (c' & Hrun & Hc' & Hl).
      exists c', (map (msg n pad) q). split_and!; try done; [apply Hc'..|by apply (loaded_head _ _ _ _ x q)|].
      by intros x' q' _ [= <- <-].
  - assert (Hl : loaded n pad x q c (to_sim k)) by done.
    exists c, (to_sim k). rewrite Hsame, (check_holds rr n pad x q c k Hl), Hq. split_and!; try done.
    by intros x' q' _ [= <- <-].
Qed.

Section Laws.
Context {B : nat} `{!SimLaws H B}.

Lemma emit_idle n pad b lk : implements n pad b lk ->
  exists lk', emit Idle lk = Ok tt lk' /\ implements n pad (idled b) lk'.
Proof.
  destruct lk as [c k]. intros (Hi & Hf & Hh & Hk & Hok & Hrd & Hwr). eexists. split; [reflexivity|].
  pose proof (sd_counts Idle (b_design b)) as [Hr Hw].
  destruct Hk as (Hk1 & Hk2 & Hk3 & Hk4).
  split_and!; try done; cbn in *; try by rewrite ?Hk3, ?Hr, ?Hw. by rewrite !app_nil_r.
Qed.

(** The head request, taken. *)
Lemma take_request (rr : Z) n pad x q c ms (k : Side) : request_ok x -> loaded n pad x q c ms ->
  exists wd, getRequest32 rr (c, k) =
    Ok wd (set_head_inflight 0 (if decide (rr <> 0) then set_head_valid 0 c else c), k) /\
    match x with
    | Read a t => u32 wd = a /\ Z.shiftr wd 32 = t
    | Write a v => u32 wd = a /\ Z.shiftr wd 32 = u32 v
    end.
Proof.
  intros Hx (Hv & Hfl & Hp & Hr & _). exists (match x with
    Read a d | Write a d => Z.lor (Z.shiftl (u32 d) 32) (u64 a) end).
  split.
  - unfold getRequest32. destruct (decide (rr <> 0)); unfold mbind, M_bind, upd, modifyW, ctrl; cbn;
      rewrite Hr; by destruct x.
  - destruct x as [a t|a v]; cbn in Hx.
    + destruct Hx as [Ha Ht]. rewrite (u32_small t) by done. by apply req_addr.
    + apply req_addr; [apply u32_bound|done].
Qed.

Lemma turn_read_req n pad b c k : int32 n -> implements n pad b (c, k) ->
  exists lk', readReq_get (c, k) = Ok tt lk' /\ implements n pad (default (idled b) (fire GetReadReq b)) lk'.
Proof.
  intros Hn Hb. unfold readReq_get.
  destruct (check_ready 0 n pad b c k Hn Hb) as (c' & ms & Hrun & Hc' & Hh & Hl).
  rewrite (bind_ok _ _ _ _ _ Hrun). pose proof (implements_recv _ _ _ _ _ _ _ Hb Hc' Hh) as Hb'.
  unfold ready, fire. destruct (b_reading b) eqn:Erd; [by apply emit_idle|].
  destruct (b_queue b) as [|[a t|a v] q] eqn:Eq; try by apply emit_idle.
  rewrite bool_decide_eq_true_2 by done. cbn [negb andb].
  specialize (Hl _ _ eq_refl eq_refl). destruct Hb' as (Hi & Hf & _ & (Hk1 & Hk2 & Hk3 & Hk4) & Hok & Hrd & Hwr).
  rewrite Eq in Hok. apply Forall_cons in Hok as [Hx Hok].
  destruct (take_request 0 n pad _ q c' ms (set_to_sim ms k) Hx Hl) as (wd & Hget & Ha & Ht).
  rewrite (bind_ok _ _ _ _ _ Hget), Ha, Ht. eexists. split; [reflexivity|].
  destruct (sd_counts (ReadReq a (wrap MemTagSize t)) (b_design b)) as [Hr Hw].
  destruct Hl as (Hv & Hfl & Hp & Hreq & Hms).
  split_and!; try done; cbn in *; [by rewrite Hk3|by rewrite Hk4|by rewrite Hr, Hrd, Erd|by rewrite Hw].
Qed.

Lemma turn_write_req n pad b c k : int32 n -> implements n pad b (c, k) ->
  exists lk', writeReq_get (c, k) = Ok tt lk' /\ implements n pad (default (idled b) (fire GetWriteReq b)) lk'.
Proof.
  intros Hn Hb. unfold writeReq_get.
  destruct (check_ready 1 n pad b c k Hn Hb) as (c' & ms & Hrun & Hc' & Hh & Hl).
  rewrite (bind_ok _ _ _ _ _ Hrun). pose proof (implements_recv _ _ _ _ _ _ _ Hb Hc' Hh) as Hb'.
  assert (Hwf : wf_data k = b_wf b) by (apply Hb).
  unfold mbind at 1, M_bind at 1, sys at 1. cbn [fst snd set_to_sim wf_data]. rewrite Hwf.
  unfold ready, fire. destruct (b_reading b) eqn:Erd; [by apply emit_idle|].
  destruct (b_queue b) as [|[a t|a v] q] eqn:Eq; try by apply emit_idle.
  rewrite bool_decide_eq_true_2 by done. cbn [negb andb].
  destruct (b_wf b) as [d|] eqn:Ewf; [by apply emit_idle|].
  specialize (Hl _ _ eq_refl eq_refl). destruct Hb' as (Hi & Hf & _ & (Hk1 & Hk2 & Hk3 & Hk4) & Hok & Hrd & Hwr).
  rewrite Eq in Hok. apply Forall_cons in Hok as [Hx Hok].
  destruct (take_request 1 n pad _ q c' ms (set_to_sim ms k) Hx Hl) as (wd & Hget & Ha & Ht).
  rewrite (bind_ok _ _ _ _ _ Hget), Ha, Ht. eexists. split; [reflexivity|].
  destruct (sd_counts (WriteReq a) (b_design b)) as [Hr Hw].
  destruct Hl as (Hv & Hfl & Hp & Hreq & Hms).
  split_and!; try done; cbn in *.
  - by left.
  - by rewrite (u32_small (u32 v)) by apply u32_bound.
  - by rewrite Hk3.
  - by rewrite Hk4.
  - by rewrite Hr, Hrd, Erd.
  - by rewrite Hw, Hwr, Ewf.
Qed.

Lemma turn_write_data n pad b c k : implements n pad b (c, k) ->
  exists lk', writeData_get (c, k) = Ok tt lk' /\ implements n pad (default (idled b) (fire GetWriteData b)) lk'.
Proof.
  intros Hb. unfold writeData_get.
  assert (Hwf : wf_data k = b_wf b) by (apply Hb).
  unfold mbind at 1, M_bind at 1, sys at 1. cbn [fst snd]. rewrite Hwf. unfold fire.
  destruct (b_wf b) as [d|] eqn:Ewf.
  2:{ destruct (b_reading b), (b_queue b) as [|[]]; by apply emit_idle. }
  destruct Hb as (Hi & Hf & Hh & (Hk1 & Hk2 & Hk3 & Hk4) & Hok & Hrd & Hwr). unfold head_at in Hh.
  destruct (sd_counts (WriteData d) (b_design b)) as [Hr Hw]. eexists. split; [reflexivity|].
  cbn [default]. unfold implements. cbn [fst snd].
  split_and!; try done; cbn in *.
  - by rewrite Hk3.
  - by rewrite Hk4.
  - by rewrite Hr, Hrd.
  - by rewrite Hw, Hwr, Ewf.
Qed.

Lemma turn_read_data n pad b c k d tag : b_reading b = true -> implements n pad b (c, k) ->
  exists lk', readData_put d tag (c, k) = Ok tt lk' /\
    implements n pad (default (idled b) (fire (PutReadData d tag) b)) lk'.
Proof.
  intros Erd (Hi & Hf & Hh & (Hk1 & Hk2 & Hk3 & Hk4) & Hok & Hrd & Hwr). unfold head_at in Hh. rewrite Erd in Hh.
  destruct Hh as (Hv & Hfl & Hp & Hm). unfold fire. rewrite Erd. cbn [default from_option].
  destruct (sd_counts (ReadData (u32 d) (wrap MemTagSize tag)) (b_design b)) as [Hr Hw].
  eexists. split; [reflexivity|]. split_and!; try done; cbn in *.
  - by left.
  - rewrite Hk1, map_app. cbn. unfold answer_bytes. cbn. by rewrite Hp.
  - by rewrite Hk3.
  - by rewrite Hk4.
  - by rewrite Hr, Hrd, Erd.
  - by rewrite Hw.
Qed.

(** A turn of the simulator is a turn of the queue. *)
Lemma turn_implements n pad b lk : int32 n -> implements n pad b lk ->
  exists lk', sim_turn lk = Ok tt lk' /\ implements n pad (bus_turn b) lk'.
Proof.
  intros Hn Hb. destruct lk as [c k]. unfold sim_turn, bus_turn.
  assert (Hd : design k = b_design b) by (apply Hb).
  unfold mbind at 1, M_bind at 1, sys at 1. cbn [fst snd]. rewrite Hd.
  destruct (sd_next (b_design b)) as [|d tag| | |] eqn:En.
  - by apply turn_read_req.
  - apply turn_read_data; [|done]. destruct Hb as (_ & _ & _ & _ & _ & Hrd & _).
    apply sd_answers in En. by destruct (b_reading b).
  - by apply turn_write_req.
  - by apply turn_write_data.
  - by apply emit_idle.
Qed.

(** ** Every request is taken *)

Definition size (b : Bus) : nat :=
  (2 * length (b_queue b) + (if b_reading b then 1 else 0) + length (option_list (b_wf b)))%nat.

Fixpoint fires_in (i : nat) (b : Bus) : Prop :=
  is_Some (fire (sd_next (b_design b)) b) \/
  match i with O => False | S i => fires_in i (idled b) end.

Lemma fire_size m b b' : fire m b = Some b' -> size b = S (size b').
Proof.
  unfold fire, size. intros Hf.
  destruct m, (b_reading b), (b_queue b) as [|[] ?], (b_wf b); simplify_eq; cbn; lia.
Qed.

Lemma fire_idled m b : is_Some (fire m (idled b)) <-> is_Some (fire m b).
Proof.
  unfold fire, idled. cbn [see b_reading b_queue b_wf].
  destruct m, (b_reading b), (b_queue b) as [|[] ?], (b_wf b); split; intros [? ?]; done || by eexists.
Qed.

Lemma fires_within k : forall i b, (k <= i)%nat -> is_Some (fire (sd_next (idles k (b_design b))) b) -> fires_in i b.
Proof.
  induction k as [|k IH]; intros i b Hi Hf.
  - destruct i; by left.
  - destruct i as [|i]; [lia|]. right. apply IH; [lia|]. by apply fire_idled.
Qed.

Definition counted (b : Bus) : Prop :=
  sd_reads (b_design b) = (if b_reading b then 1%nat else O) /\
  sd_writes (b_design b) = length (option_list (b_wf b)).

Lemma progress b : counted b -> size b <> O -> fires_in B b.
Proof.
  intros [Hr Hw] Hs. unfold size in Hs.
  destruct (decide (sd_reads (b_design b) = O /\ sd_writes (b_design b) = O)) as [[Hr0 Hw0]|Hbusy].
  - rewrite Hr0 in Hr. rewrite Hw0 in Hw. destruct (b_reading b) eqn:Erd; [done|].
    destruct (b_wf b) eqn:Ewf; [done|]. cbn in Hs.
    destruct (b_queue b) as [|x q] eqn:Eq; [cbn in Hs; lia|].
    destruct (sd_free (b_design b) Hr0 Hw0 (match x with Read _ _ => GetReadReq | _ => GetWriteReq end))
      as (k & Hk & Hn); [destruct x; auto|].
    apply (fires_within k); [done|]. rewrite Hn. unfold fire. rewrite Erd, Ewf, Eq.
    destruct x; by eexists.
  - destruct (sd_busy (b_design b)) as (k & Hk & Hcase); [lia|].
    apply (fires_within k); [done|]. unfold fire. destruct Hcase as [(d & tag & Hn)|[Hn Hw1]]; rewrite Hn.
    + assert (Hrk : forall k h, sd_reads (idles k h) = sd_reads h).
      { clear -SimLaws0. induction k; intros h; cbn; [done|]. rewrite IHk. apply (sd_counts Idle). }
      apply sd_answers in Hn. rewrite Hrk in Hn. rewrite Hr in Hn. destruct (b_reading b); [|done]. by eexists.
    + rewrite Hw in Hw1. destruct (b_wf b); [|done]. by destruct (b_reading b), (b_queue b) as [|[]]; eexists.
Qed.

(** ** What the design has seen or will see *)

(** Requests and answers, without tags; and the words written. *)
Definition control (e : event) : list event :=
  match e with
  | ReadReq a _ => [ReadReq a 0] | ReadData d _ => [ReadData d 0] | WriteReq a => [WriteReq a] | _ => []
  end.
Definition data (e : event) : list Z := match e with WriteData d => [d] | _ => [] end.
Definition requested (x : request) : event :=
  match x with Read a _ => ReadReq a 0 | Write a _ => WriteReq a end.
Definition carried (x : request) : list Z := match x with Write _ v => [u32 v] | Read _ _ => [] end.

Definition issued (b : Bus) : list event := (b_events b ≫= control) ++ map requested (b_queue b).
Definition written (b : Bus) : list Z :=
  (b_events b ≫= data) ++ option_list (b_wf b) ++ (b_queue b ≫= carried).

Definition is_write (x : request) : Prop := match x with Write _ _ => True | Read _ _ => False end.

(** A read is the last request, and is not answered yet. *)
Definition pending_read (b : Bus) : Prop :=
  b_out b = [] /\
  ((b_reading b = true /\ b_queue b = []) \/
   (b_reading b = false /\ exists ws a t, b_queue b = ws ++ [Read a t] /\ Forall is_write ws)).

(** The answer is on its way. *)
Definition answered (d t : Z) (b : Bus) : Prop :=
  b_out b = [(d, t)] /\ b_reading b = false /\ b_queue b = [] /\ in_u32 d /\ in_u32 t.

Lemma fire_pending m b b' : pending_read b -> fire m b = Some b' ->
  written b' = written b /\
  ((pending_read b' /\ issued b' = issued b) \/
   exists d t, answered d t b' /\ issued b' = issued b ++ [ReadData d 0]).
Proof.
  intros (Ho & Hcase) Hf. unfold fire in Hf. unfold written, issued, pending_read, answered.
  destruct Hcase as [[Hrd Hq]|(Hrd & ws & a & t & Hq & Hws)]; rewrite Hrd, Hq in *.
  - destruct m, (b_wf b) as [v|] eqn:Ef; simplify_eq; cbn [see b_events b_queue b_wf b_out b_reading];
      rewrite ?bind_app, ?Ho; cbn; rewrite ?app_nil_r, <- ?app_assoc; cbn; (split; [done|]); auto 6.
    all: right; eexists _, _; split_and!; try done; try apply u32_bound;
      pose proof (wrap_bound MemTagSize tag); unfold in_u32, MemTagSize in *; lia.
  - destruct ws as [|[|wa wv] ws]; [|by inversion Hws|apply Forall_cons in Hws as [_ Hws']]; cbn [app] in Hf;
      destruct m, (b_wf b) as [v|] eqn:Ef; simplify_eq; cbn [see b_events b_queue b_wf b_out b_reading];
      rewrite ?bind_app, ?Ho; cbn; rewrite ?app_nil_r, <- ?app_assoc; cbn;
      (split; [first [done|by rewrite ?bind_app; cbn; rewrite ?app_nil_r]|]); left; (split; [|done]);
      (split; [done|]); first [by left|right; (split; [done|])].
    + by exists [], a, t.
    + by exists ws, a, t.
    + by exists (Write wa wv :: ws), a, t; split; [|constructor].
Qed.
End Laws.

(** ** The application's side *)

(** [w] with another simulator state, environment and schedule. *)
Definition world_at (b : BsimState) (k : Link) (sch : list (list (nat * Z * Z))) w : W :=
  set_w_sched sch (set_w_kern k (set_w_bsim b w)).

Definition resp_ok (r : memresponse) : Prop :=
  int32 (mresp_portal r) /\ in_u32 (mresp_data r) /\ in_u32 (mresp_tag r).

Lemma resp_bytes r : resp_ok r -> memresponse_of (memresponse_bytes r) = r.
Proof. intros (? & ? & ?). by apply memresponse_of_bytes. Qed.

Lemma recv_none fd old w : to_app (snd (w_kern w)) = [] -> recv_object fd old w = Ok (-1, -1, old) w.
Proof.
  intros Ha. unfold recv_object, kcall, mbind, M_bind. cbn [sk_recvmsg link_sock]. rewrite Ha. by destruct w.
Qed.

Lemma recv_msg fd old l q w : to_app (snd (w_kern w)) = l :: q -> length l = length old ->
  recv_object fd old w =
  Ok (Z.of_nat (length l), -1, l) (set_w_kern (fst (w_kern w), set_to_app q (snd (w_kern w))) w).
Proof.
  intros Ha Hl. unfold recv_object, kcall, mbind, M_bind. cbn [sk_recvmsg link_sock]. rewrite Ha.
  by rewrite overlay_full.
Qed.

Lemma upd_bsim_ok f w : upd_bsim f w = Ok tt (set_w_bsim (f (w_bsim w)) w).
Proof. done. Qed.

Lemma poll_none n w :
  shared_response_valid (w_bsim w) = 0 -> resp_ok (shared_response (w_bsim w)) ->
  to_app (snd (w_kern w)) = [] -> poll_response n w = Ok false w.
Proof.
  intros Hv Hr Ha. unfold poll_response. unfold mbind at 1, M_bind at 1, get_bsim at 1.
  rewrite Hv, decide_True by done.
  rewrite (bind_ok _ _ _ tt w).
  { unfold mbind, M_bind, get_bsim. by rewrite Hv. }
  unfold mbind at 1, M_bind at 1, get_glob. rewrite (bind_ok _ _ _ _ _ (recv_none _ _ _ Ha)).
  rewrite (bind_ok _ _ _ _ _ (upd_bsim_ok _ _)), resp_bytes by done.
  unfold mbind, M_bind, get_bsim. rewrite decide_False by done.
  destruct w as [? ? ? ? ? ? ? []]; cbn in *. by subst.
Qed.

Lemma poll_resp n r q w :
  shared_response_valid (w_bsim w) = 0 -> resp_ok r -> mresp_portal r <> MAGIC_PORTAL_FOR_SENDING_INTERRUPT ->
  to_app (snd (w_kern w)) = memresponse_bytes r :: q ->
  poll_response n w =
  Ok (bool_decide (mresp_portal r = n))
    (world_at (set_shared_response_valid 1 (set_shared_response r (w_bsim w)))
      (fst (w_kern w), set_to_app q (snd (w_kern w))) (w_sched w) w).
Proof.
  intros Hv Hr Hn Ha. unfold poll_response. unfold mbind at 1, M_bind at 1, get_bsim at 1.
  rewrite Hv, decide_True by done. set (w' := world_at _ _ _ w).
  rewrite (bind_ok _ _ _ tt w').
  { unfold mbind, M_bind, get_bsim. done. }
  unfold mbind at 1, M_bind at 1, get_glob. rewrite (bind_ok _ _ _ _ _ (recv_msg _ (memresponse_bytes (shared_response (w_bsim w))) _ _ _ Ha eq_refl)).
  rewrite (bind_ok _ _ _ _ _ (upd_bsim_ok _ _)), resp_bytes by done.
  unfold mbind at 1, M_bind at 1, get_bsim at 1. rewrite decide_True by done.
  cbn [w_bsim set_w_bsim shared_response set_shared_response]. rewrite decide_False by done.
  rewrite upd_bsim_ok. unfold w'. by destruct w.
Qed.

Lemma await_tick sch k w : w_sched w = [] :: sch -> sim_turn (w_kern w) = Ok tt k ->
  await w = Ok tt (world_at (w_bsim w) k sch w).
Proof. intros Hs Hk. unfold await. rewrite Hs. cbn [dev_tick link_dev foldl]. rewrite Hk. by destruct w. Qed.

(** The answer is taken off the socket. *)
Definition consumed (b : Bus) : Bus :=
  {| b_queue := b_queue b; b_reading := b_reading b; b_wf := b_wf b; b_out := [];
     b_design := b_design b; b_events := b_events b |}.

Lemma implements_consumed n pad b c k : implements n pad b (c, k) ->
  implements n pad (consumed b) (c, set_to_app [] k).
Proof. intros (Hi & Hf & Hh & (_ & Hk) & Hrest). by split_and!; try apply Hk; try apply Hrest. Qed.

Section Live.
Context {B : nat} `{!SimLaws H B}.

(** A read returns what the design answers: every turn in which the design does
    something brings the answer nearer, and the design does something every
    [B + 1] turns. *)
Lemma wait_read n pad : int32 n -> n <> MAGIC_PORTAL_FOR_SENDING_INTERRUPT ->
  forall T b i m fuel w, pending_read b -> fires_in i b -> (S B * pred (size b) + S i <= T)%nat ->
  implements n pad b (w_kern w) ->
  shared_response_valid (w_bsim w) = 0 -> resp_ok (shared_response (w_bsim w)) ->
  w_sched w = replicate m [] -> (T <= m)%nat -> (T <= fuel)%nat ->
  exists d t b' k' j, (j + S B * S (size b') <= S B * size b + S i)%nat /\ (j <= m)%nat /\
    answered d t b' /\ issued b' = issued b ++ [ReadData d 0] /\ written b' = written b /\
    implements n pad (consumed b') k' /\
    wait_response fuel n w =
    Ok tt (world_at (set_shared_response_valid 1
             (set_shared_response {| mresp_portal := n; mresp_data := d; mresp_tag := t |} (w_bsim w)))
             k' (replicate (m - j) []) w).
Proof.
  intros Hn Hm. induction T as [|T IH]; intros b i m fuel w Hp Hfi HT Himp Hv Hr Hs HTm HTf; [nia|].
  destruct m as [|m]; [lia|]. destruct fuel as [|fuel]; [lia|].
  destruct (turn_implements n pad b (w_kern w) Hn Himp) as (k1 & Hturn & Himp1).
  assert (Ha : to_app (snd (w_kern w)) = []).
  { destruct (w_kern w) as [c k]. destruct Himp as (_ & _ & _ & (Hk & _) & _). cbn. by rewrite Hk, (proj1 Hp). }
  cbn [wait_response]. rewrite (bind_ok _ _ _ _ _ (poll_none n w Hv Hr Ha)).
  rewrite (bind_ok _ _ _ _ _ (await_tick (replicate m []) _ w Hs Hturn)). unfold bus_turn in Himp1.
  set (w1 := world_at _ _ _ w). destruct (fire (sd_next (b_design b)) b) as [b1|] eqn:Ef.
  - change (default (idled b) (Some b1)) with b1 in Himp1.
    pose proof (fire_size _ _ _ Ef) as Hsz. destruct (fire_pending _ _ _ Hp Ef) as (Hwr & [[Hp1 His]|(d & t & Hans & His)]).
    + assert (Hs1 : size b1 <> O).
      { unfold size. destruct Hp1 as (_ & [[-> _]|(_ & ws & a & t & -> & _)]); [lia|]. rewrite length_app. cbn. lia. }
      assert (Hc : counted b1) by (destruct k1; split; apply Himp1).
      destruct (IH b1 B m fuel w1) as (d & t & b' & k' & j & Hj & Hjm & Hans & His' & Hwr' & Himp' & Hrun);
        try done; try lia; [by apply progress|rewrite Hsz in HT; destruct (size b1); [done|cbn [pred] in *; nia]|].
      exists d, t, b', k', (S j). rewrite Hrun, His', His, Hwr', Hwr, Hsz. by split_and!; try done; try nia.
    + exists d, t, b1, (fst k1, set_to_app [] (snd k1)), 1%nat. rewrite Nat.sub_succ, Nat.sub_0_r.
      rewrite Hsz. split_and!; try done; try nia.
      * apply implements_consumed. by destruct k1.
      * destruct Hans as (Ho & _ & _ & Hd & Ht).
        set (r := {| mresp_portal := n; mresp_data := d; mresp_tag := t |}).
        assert (Hrok : resp_ok r) by done.
        assert (Ha1 : to_app (snd (w_kern w1)) = [memresponse_bytes r]).
        { destruct k1 as [c k]. destruct Himp1 as (_ & _ & _ & (Hk & _) & _). unfold w1, world_at.
          cbn [w_kern set_w_kern set_w_sched snd]. by rewrite Hk, Ho. }
        destruct fuel; cbn [wait_response]; rewrite (bind_ok _ _ _ _ _ (poll_resp n r [] w1 Hv Hrok Hm Ha1));
          rewrite bool_decide_eq_true_2 by done; by destruct w.
  - destruct i as [|i]; (destruct Hfi as [[? Hfi]|Hfi]; [by rewrite Ef in Hfi|]); [done|].
    assert (Hsz : size (idled b) = size b) by done.
    destruct (IH (idled b) i m fuel w1) as (d & t & b' & k' & j & Hj & Hjm & Hans & His' & Hwr' & Himp' & Hrun);
      rewrite ?Hsz in *; try done; try lia.
    exists d, t, b', k', (S j). rewrite Hrun, His', Hwr'. unfold issued, written.
    cbn [idled see b_events b_queue b_wf]. rewrite app_nil_r.
    by split_and!; try done; try lia.
Qed.
End Live.

(** ** Programs that access registers *)

(** [Turn] lets the simulator run a turn between two accesses. *)
Inductive access : Type := Rd (a : Z) | Wr (a v : Z) | Turn.
Definition access_ok (x : access) : Prop := match x with Rd a => in_u32 a | Wr a _ => in_u32 a | Turn => True end.

Fixpoint run_bsim (p : nat) (l : list access) : M W (list Z) :=
  match l with
  | [] => mret []
  | Rd a :: l => '(v, _) ← read_portal_bsim p (Pint a); vs ← run_bsim p l; mret (v :: vs)
  | Wr a v :: l => write_portal_bsim p (Pint a) v ;; run_bsim p l
  | Turn :: l => await ;; run_bsim p l
  end.

(** What the design should see of the program when its reads return [vs]: a
    request per access, each read answered before the next access is made ... *)
Fixpoint program_events (l : list access) (vs : list Z) : list event :=
  match l, vs with
  | Rd a :: l, v :: vs => ReadReq a 0 :: ReadData v 0 :: program_events l vs
  | Rd a :: l, [] => []
  | Wr a _ :: l, vs => WriteReq a :: program_events l vs
  | Turn :: l, vs => program_events l vs
  | [], _ => []
  end.
(** ... and the words written. *)
Definition program_data (l : list access) : list Z :=
  l ≫= fun x => match x with Wr _ v => [u32 v] | _ => [] end.
Definition program_reads (l : list access) : nat :=
  length (l ≫= fun x => match x with Rd a => [a] | _ => [] end).

(** The state between two accesses of portal [p]: [m] turns are scheduled, and
    only writes are on their way. *)
Definition linked (p : nat) (n : Z) (m : nat) w (b : Bus) : Prop :=
  (exists x, w_pints w !! p = Some x /\ fpga_number x = n) /\
  shared_response_valid (w_bsim w) = 0 /\ resp_ok (shared_response (w_bsim w)) /\
  in_u32 (tag_counter (w_bsim w)) /\ w_sched w = replicate m [] /\
  implements n (w_fill w 0) b (w_kern w) /\
  b_out b = [] /\ b_reading b = false /\ Forall is_write (b_queue b).

Definition push (x : request) (b : Bus) : Bus :=
  {| b_queue := b_queue b ++ [x]; b_reading := b_reading b; b_wf := b_wf b; b_out := b_out b;
     b_design := b_design b; b_events := b_events b |}.

Lemma implements_push n pad x b c k : request_ok x -> implements n pad b (c, k) ->
  implements n pad (push x b) (c, set_to_sim (to_sim k ++ [msg n pad x]) k).
Proof.
  intros Hx (Hi & Hf & Hh & Hk & Hok & Hrest). split_and!; try done; try apply Hk; try apply Hrest.
  - unfold head_at in *. cbn. destruct (b_reading b).
    + destruct Hh as (? & ? & ? & ->). split_and!; try done. by rewrite map_app.
    + destruct Hh as [[? ->]|(? & ? & ? & y & q & Hq & ? & ->)]; [left|right].
      * by rewrite map_app.
      * split_and!; try done. exists y, (q ++ [x]). rewrite Hq, map_app. done.
  - cbn. by apply Forall_app_2; [|constructor].
Qed.

Lemma push_ledger x b : issued (push x b) = issued b ++ [requested x] /\ written (push x b) = written b ++ carried x /\
  size (push x b) = (2 + size b)%nat.
Proof.
  unfold issued, written, size, push. cbn [b_events b_queue b_wf b_reading]. rewrite map_app, bind_app, length_app.
  cbn. rewrite app_nil_r, !app_assoc. split_and!; [done..|lia].
Qed.

Lemma send_object_ok fd l f w :
  send_object fd l f w = Ok tt (set_w_kern (fst (w_kern w),
    set_to_sim (to_sim (snd (w_kern w)) ++ [(l, if decide (f >= 0) then Some f else None)]) (snd (w_kern w))) w).
Proof. unfold send_object, kcall, mbind, M_bind. cbn. by rewrite decide_False by lia. Qed.

Lemma bsim_write_step p n m w b a v : linked p n m w b -> in_u32 a ->
  exists w', write_portal_bsim p (Pint a) v w = Ok (Pint a) w' /\ linked p n m w' (push (Write a v) b).
Proof.
  intros ((x & Hx & Hxn) & Hv & Hr & Ht & Hs & Himp & Ho & Hrd & Hw) Ha.
  unfold write_portal_bsim. rewrite (bind_ok _ _ _ _ _ (get_pint_ok _ _ _ Hx)), Hxn.
  change (ptr_int (Pint a)) with (Some a). rewrite bind_defined.
  unfold mbind at 1, M_bind at 1, get_glob at 1. unfold mbind at 1, M_bind at 1, getW at 1.
  rewrite (bind_ok _ _ _ _ _ (send_object_ok _ _ _ _)). rewrite decide_False by lia.
  eexists. split; [reflexivity|]. destruct (w_kern w) as [c k] eqn:Ek. split_and!; try done.
  - by exists x.
  - by apply (implements_push n (w_fill w 0) (Write a v)).
  - cbn. by apply Forall_app_2; [|constructor].
Qed.

Section Runs.
Context {B : nat} `{!SimLaws H B}.

(** A turn between two accesses. *)
Lemma bsim_turn_step p n m w b : int32 n -> linked p n (S m) w b ->
  exists w' b', await w = Ok tt w' /\ linked p n m w' b' /\
    issued b' = issued b /\ written b' = written b /\ (size b' <= size b)%nat.
Proof.
  intros Hn (Hx & Hv & Hr & Ht & Hs & Himp & Ho & Hrd & Hw).
  destruct (turn_implements n _ b (w_kern w) Hn Himp) as (k1 & Hturn & Himp1).
  exists (world_at (w_bsim w) k1 (replicate m []) w), (bus_turn b).
  assert (Hq : issued (bus_turn b) = issued b /\ written (bus_turn b) = written b /\
    (size (bus_turn b) <= size b)%nat /\ b_out (bus_turn b) = [] /\ b_reading (bus_turn b) = false /\
    Forall is_write (b_queue (bus_turn b))).
  { clear Himp1. unfold bus_turn. destruct (fire _ b) as [b1|] eqn:Ef.
    2:{ unfold issued, written. cbn. by rewrite !app_nil_r. }
    change (default (idled b) (Some b1)) with b1. pose proof (fire_size _ _ _ Ef). revert Ef. unfold fire, issued, written.
    rewrite Hrd. destruct (sd_next (b_design b)), (b_queue b) as [|[|wa wv] q] eqn:Eq, (b_wf b) eqn:Ewf; intros [= <-];
      try (apply Forall_cons in Hw as [Hw1 Hw]; try done); cbn [see b_events b_queue b_wf b_out b_reading];
      rewrite !bind_app; cbn; rewrite ?app_nil_r, <- ?app_assoc; split_and!; try done;
      first [by constructor|unfold size in *; cbn in *; lia]. }
  destruct Hq as (? & ? & ? & ? & ? & ?).
  rewrite (await_tick (replicate m []) _ w Hs Hturn). by split_and!; try done; split_and!.
Qed.

Lemma bsim_read_step p n m w b a :
  linked p n m w b -> int32 n -> n <> MAGIC_PORTAL_FOR_SENDING_INTERRUPT -> in_u32 a ->
  (S B * (2 + size b) <= m)%nat ->
  exists v w' b' m', read_portal_bsim p (Pint a) w = Ok (v, Pint a) w' /\ linked p n m' w' b' /\
    issued b' = issued b ++ [ReadReq a 0; ReadData v 0] /\ written b' = written b /\
    (m + S B * size b' <= m' + S B * (2 + size b))%nat.
Proof.
  intros ((x & Hx & Hxn) & Hv & Hr & Ht & Hs & Himp & Ho & Hrd & Hw) Hn Hm Ha Hlt.
  unfold read_portal_bsim. rewrite (bind_ok _ _ _ _ _ (get_pint_ok _ _ _ Hx)), Hxn. unfold read_bsim.
  change (ptr_int (Pint a)) with (Some a). rewrite bind_defined.
  unfold mbind at 1, M_bind at 1, get_bsim at 1. rewrite (bind_ok _ _ _ _ _ (upd_bsim_ok _ _)).
  unfold mbind at 1, M_bind at 1, get_glob at 1. unfold mbind at 1, M_bind at 1, getW at 1.
  rewrite (bind_ok _ _ _ _ _ (send_object_ok _ _ _ _)). cbn [w_kern set_w_bsim w_fill w_sched].
  rewrite decide_False by lia. rewrite Hs, length_replicate.
  set (tag := tag_counter (w_bsim w)) in *. set (b1 := push (Read a tag) b).
  match goal with |- context [(wait_response m n ≫= _) ?u] => set (w1 := u) end.
  destruct (push_ledger (Read a tag) b) as (Hi1 & Hw1 & Hsz). fold b1 in Hi1, Hw1, Hsz.
  assert (Himp1 : implements n (w_fill w 0) b1 (w_kern w1)).
  { unfold w1. cbn [w_kern set_w_kern]. destruct (w_kern w) as [c k]. by apply implements_push. }
  destruct (wait_read n (w_fill w 0) Hn Hm (S B * size b1) b1 B m m w1)
    as (d & t & b' & k' & j & Hj & Hjm & Hans & His & Hwr & Himp' & Hrun); try done; try lia.
  - split; [done|]. right. split; [done|]. by exists (b_queue b), a, tag.
  - apply progress; [|lia]. destruct (w_kern w1); split; apply Himp1.
  - exists d. rewrite (bind_ok _ _ _ _ _ Hrun). eexists _, (consumed b'), (m - j)%nat. split; [reflexivity|].
    destruct Hans as (Ho' & Hrd' & Hq' & Hd & Ht').
    assert (Hc : issued (consumed b') = issued b' /\ written (consumed b') = written b' /\ size (consumed b') = size b')
      by done. destruct Hc as (-> & -> & ->). rewrite His, Hwr, Hi1, Hw1. cbn [requested carried].
    rewrite <- !app_assoc, app_nil_r. split_and!; try done; [|lia].
    split_and!; try done; [by exists x|apply u32_bound|cbn; by rewrite Hq'].
Qed.

(** C2: A program that reads and writes registers through the simulator transport runs to its
    end, whenever the simulated design takes its requests: every read returns, and the design
    sees exactly the accesses of the program, each once, in program order, every read answered
    before the next access reaches it, with the value the program got; the words written arrive
    in order too, but through a FIFO of one word of their own, so a write may have been requested
    while its word is still on the way. Writes still under way at the end are the only
    difference. *)
Theorem bsim_design_sees_program p n l : forall m w b,
  linked p n m w b -> int32 n -> n <> MAGIC_PORTAL_FOR_SENDING_INTERRUPT ->
  Forall access_ok l -> (S B * (size b + 2 * length l) <= m)%nat ->
  exists vs w' b' m', run_bsim p l w = Ok vs w' /\ linked p n m' w' b' /\
    length vs = program_reads l /\
    issued b' = issued b ++ program_events l vs /\
    written b' = written b ++ program_data l.
Proof.
  induction l as [|[a|a v|] l IH]; intros m w b Hl Hn Hm Hok Hlen.
  { exists [], w, b, m. by rewrite !app_nil_r. }
  all: apply Forall_cons in Hok as [Ha Hok]; cbn [run_bsim length] in *.
  - destruct (bsim_read_step p n m w b a Hl Hn Hm Ha ltac:(nia)) as (v & w1 & b1 & m1 & Hrun & Hl1 & Hi1 & Hw1 & Hb1).
    destruct (IH m1 w1 b1 Hl1 Hn Hm Hok ltac:(nia)) as (vs & w2 & b2 & m2 & Hrun2 & Hl2 & Hlv & Hi2 & Hw2).
    exists (v :: vs), w2, b2, m2. rewrite (bind_ok _ _ _ _ _ Hrun), (bind_ok _ _ _ _ _ Hrun2).
    split_and!; try done; [cbn; unfold program_reads in *; cbn; by rewrite Hlv| |by rewrite Hw2, Hw1].
    by rewrite Hi2, Hi1, <- app_assoc.
  - destruct (bsim_write_step p n m w b a v Hl Ha) as (w1 & Hrun & Hl1).
    destruct (push_ledger (Write a v) b) as (Hi1 & Hw1 & Hsz).
    destruct (IH m w1 _ Hl1 Hn Hm Hok ltac:(rewrite Hsz; lia)) as (vs & w2 & b2 & m2 & Hrun2 & Hl2 & Hlv & Hi2 & Hw2).
    exists vs, w2, b2, m2. rewrite (bind_ok _ _ _ _ _ Hrun), Hrun2.
    split_and!; try done; [by rewrite Hi2, Hi1, <- app_assoc|by rewrite Hw2, Hw1, <- app_assoc].
  - destruct m as [|m]; [nia|].
    destruct (bsim_turn_step p n m w b Hn Hl) as (w1 & b1 & Hrun & Hl1 & Hi1 & Hw1 & Hsz).
    destruct (IH m w1 b1 Hl1 Hn Hm Hok ltac:(nia)) as (vs & w2 & b2 & m2 & Hrun2 & Hl2 & Hlv & Hi2 & Hw2).
    exists vs, w2, b2, m2. rewrite (bind_ok _ _ _ _ _ Hrun), Hrun2.
    split_and!; try done; [by rewrite Hi2, Hi1|by rewrite Hw2, Hw1].
Qed.
End Runs.
End Composed.

(** * A concrete design: registers behind a round-robin scheduler *)
Module BsimDemo.

Inductive phase : Type := AtWriteReq | AtReadReq | AtReadData | AtWriteData.
Definition next_phase (f : phase) : phase :=
  match f with AtWriteReq => AtReadReq | AtReadReq => AtReadData | AtReadData => AtWriteData | AtWriteData => AtWriteReq end.

(** The registers, the reads to answer and the addresses of the writes whose
    words have not come. *)
Record Regs : Type := { r_phase : phase; r_reads : list (Z * Z); r_writes : list Z; r_regs : gmap Z Z }.

#[local] Instance regs_design : SimDesign Regs :=
  {| sd_next := fun h =>
       match r_phase h, r_reads h with
       | AtWriteReq, _ => GetWriteReq | AtReadReq, _ => GetReadReq
       | AtReadData, (a, t) :: _ => PutReadData (default 0 (r_regs h !! a)) t
       | AtReadData, [] => Internal | AtWriteData, _ => GetWriteData
       end;
     sd_step := fun e h =>
       let f := next_phase (r_phase h) in
       match e with
       | ReadReq a t => {| r_phase := f; r_reads := r_reads h ++ [(a, t)]; r_writes := r_writes h; r_regs := r_regs h |}
       | ReadData _ _ => {| r_phase := f; r_reads := tail (r_reads h); r_writes := r_writes h; r_regs := r_regs h |}
       | WriteReq a => {| r_phase := f; r_reads := r_reads h; r_writes := r_writes h ++ [a]; r_regs := r_regs h |}
       | WriteData d => {| r_phase := f; r_reads := r_reads h; r_writes := tail (r_writes h);
                           r_regs := match r_writes h with a :: _ => <[a := d]> (r_regs h) | [] => r_regs h end |}
       | Idle => {| r_phase := f; r_reads := r_reads h; r_writes := r_writes h; r_regs := r_regs h |}
       end;
     sd_reads := fun h => length (r_reads h);
     sd_writes := fun h => length (r_writes h) |}.

#[local] Instance regs_laws : SimLaws Regs 3.
Proof.
  split.
  - intros [] h; cbn; rewrite ?length_app; cbn; destruct (r_reads h), (r_writes h); cbn; lia.
  - intros [[] [|[] ?] ? ?] d t; cbn; done.
  - intros [f [|[a t] rs] [|x ws] g] [Hh|Hh]; try done; destruct f;
      [exists 3%nat|exists 2%nat|exists 1%nat|exists 0%nat|exists 2%nat|exists 1%nat|exists 0%nat|exists 3%nat
      |exists 2%nat|exists 1%nat|exists 0%nat|exists 3%nat|exists 2%nat|exists 1%nat|exists 0%nat|exists 3%nat];
      (split; [lia|]); cbn; eauto.
  - intros [f rs ws g] _ _ m [-> | ->]; destruct f;
      [exists 1%nat|exists 0%nat|exists 3%nat|exists 2%nat|exists 0%nat|exists 3%nat|exists 2%nat|exists 1%nat];
      (split; [lia|]); by destruct rs as [|[]].
Qed.

Definition c0 : Ctrl := set_fds (<[0%nat := 7]> (fd_array Ctrl_start)) 1 Ctrl_start.
Definition h0 : Regs := {| r_phase := AtWriteReq; r_reads := []; r_writes := []; r_regs := ∅ |}.
Definition w0 (m : nat) : World (Link (H := Regs)) :=
  set_w_sched (replicate m [])
    (set_w_pints (<[0%nat := set_fpga_number 2 PortalInternal_zero]> ∅)
      (start_world (c0, {| to_sim := []; to_app := []; wf_data := None; design := h0; events := [] |}))).
Definition b0 : Bus (H := Regs) :=
  {| b_queue := []; b_reading := false; b_wf := None; b_out := []; b_design := h0; b_events := [] |}.

Lemma w0_linked m : linked 0 2 m (w0 m) b0.
Proof.
  split_and!; try done; [by eexists|]. split_and!; try done; [by exists 7, (replicate 9 0)|by left].
Qed.

(** The requests are in order, yet a read may be answered before the word of an
    earlier write has been taken: here it returns 0 and then 5. *)
Example read_overtakes_write :
  match run_bsim 0 [Wr 16 5; Rd 16; Rd 16] (w0 24) with Ok vs _ => vs | _ => [] end = [0; 5].
Proof. vm_compute. reflexivity. Qed.

Definition prog : list access := [Wr 16 5; Turn; Wr 20 6; Rd 16; Wr 16 8].

Lemma bsim_design_sees_program_witness :
  match run_bsim 0 prog (w0 40) with Ok vs _ => vs | _ => [] end = [5] /\
  exists vs w' b' m', run_bsim 0 prog (w0 40) = Ok vs w' /\ linked 0 2 m' w' b' /\
    length vs = program_reads prog /\
    issued b' = issued b0 ++ program_events prog vs /\
    written b' = written b0 ++ program_data prog.
Proof.
  split; [vm_compute; reflexivity|]. apply (bsim_design_sees_program (B := 3) 0 2 prog 40 (w0 40) b0).
  - exact (w0_linked 40).
  - split; lia.
  - discriminate.
  - repeat constructor; cbn; unfold in_u32; lia.
  - cbn. lia.
Defined.
End BsimDemo.
