(* ===== verification/BsimDma.v ===== *)
(** The memory the simulated design reads and writes: [cpp/BsimDma.cxx].  A
    table of memory objects by port and handle, programmed by the MMU of the
    design ([bsv/MMU.bsv], [pareff_initfd] and [pareff_init]), and the accesses
    of the simulated memory bus. *)

From stdpp Require Import base gmap list fin_maps.
From Stdlib Require Import ZArith Lia.
From S2P Require Import Prelude PortalTypes PortalCodec SendFd Mmu.

Definition MAX_DMA_PORTS : nat := 4.
Definition MAX_DMA_IDS : nat := 32.

(** [buffer] is the object mapped and how many of its bytes are mapped, [None]
    the null pointer. *)
Record dma_entry : Type := { de_fd : Z; buffer : option (Z * Z); buffer_len : Z; size_accum : Z }.

Definition set_de_fd (v : Z) (e : dma_entry) : dma_entry :=
  {| de_fd := v; buffer := buffer e; buffer_len := buffer_len e; size_accum := size_accum e |}.
Definition set_buffer (v : option (Z * Z)) (e : dma_entry) : dma_entry :=
  {| de_fd := de_fd e; buffer := v; buffer_len := buffer_len e; size_accum := size_accum e |}.
Definition set_buffer_len (v : Z) (e : dma_entry) : dma_entry :=
  {| de_fd := de_fd e; buffer := buffer e; buffer_len := v; size_accum := size_accum e |}.
Definition set_size_accum (v : Z) (e : dma_entry) : dma_entry :=
  {| de_fd := de_fd e; buffer := buffer e; buffer_len := buffer_len e; size_accum := v |}.

(** The static array, and the bytes of the memory objects. *)
Record DmaSim : Type := { dma_info : list (list dma_entry); objs : gmap Z (list Z) }.

Definition dma_entry_zero : dma_entry := {| de_fd := 0; buffer := None; buffer_len := 0; size_accum := 0 |}.
Definition DmaSim_start (m : gmap Z (list Z)) : DmaSim :=
  {| dma_info := replicate MAX_DMA_PORTS (replicate MAX_DMA_IDS dma_entry_zero); objs := m |}.

(** [dma_info[id][pref]] *)
Definition get_entry (id pref : Z) : M DmaSim dma_entry :=
  s ← getW; row ← defined (znth (dma_info s) id); defined (znth row pref).
Definition upd_entry (id pref : Z) (f : dma_entry -> dma_entry) : M DmaSim unit :=
  s ← getW;
  row ← defined (znth (dma_info s) id);
  e ← defined (znth row pref);
  row ← defined (zupd row pref (f e));
  l ← defined (zupd (dma_info s) id row);
  putW {| dma_info := l; objs := objs s |}.

(** * Little-endian values in a buffer *)
Fixpoint le (n : nat) (v : Z) : list Z :=
  match n with O => [] | S n => v mod 256 :: le n (v / 256) end.
Fixpoint of_le (l : list Z) : Z :=
  match l with [] => 0 | b :: l => b + 256 * of_le l end.

(** [*(T * )&buffer[offset] = data] for an [n]-byte type; the bytes must lie in
    the [len] bytes that are mapped and in the object. *)
Definition write_bytes (n : nat) (obj len offset data : Z) : M DmaSim unit :=
  s ← getW;
  l ← defined (objs s !! obj);
  let o := Z.to_nat offset in
  if decide (0 <= offset /\ offset + Z.of_nat n <= len /\ (o + n <= length l)%nat) then
    putW {| dma_info := dma_info s; objs := <[obj := take o l ++ le n data ++ drop (o + n) l]> (objs s) |}
  else fault.
Definition read_bytes (n : nat) (obj len offset : Z) : M DmaSim Z :=
  s ← getW;
  l ← defined (objs s !! obj);
  let o := Z.to_nat offset in
  if decide (0 <= offset /\ offset + Z.of_nat n <= len /\ (o + n <= length l)%nat) then mret (of_le (take n (drop o l))) else fault.

(** * The functions the design imports *)
Definition write_pareff (n : nat) (pref offset data : Z) : M DmaSim unit :=
  let id := Z.shiftr pref 5 in
  let pref := u32 (pref - Z.shiftl id 5) in
  e ← get_entry id pref;
  '(obj, len) ← defined (buffer e);
  write_bytes n obj len offset data.
Definition read_pareff (n : nat) (pref offset : Z) : M DmaSim Z :=
  let id := Z.shiftr pref 5 in
  let pref := u32 (pref - Z.shiftl id 5) in
  e ← get_entry id pref;
  '(obj, len) ← defined (buffer e);
  read_bytes n obj len offset.

Definition write_pareff32 : Z -> Z -> Z -> M DmaSim unit := write_pareff 4.
Definition read_pareff32 : Z -> Z -> M DmaSim Z := read_pareff 4.
Definition write_pareff64 : Z -> Z -> Z -> M DmaSim unit := write_pareff 8.
Definition read_pareff64 : Z -> Z -> M DmaSim Z := read_pareff 8.

Definition pareff_initfd (aid fd : Z) : M DmaSim unit :=
  let id := Z.shiftr aid 16 in
  let pref := Z.land aid 0xffff in
  upd_entry id pref (set_de_fd (s32 fd)).

Section Init.
(** [mmap(0, size, ..., fd, 0)]: the object mapped, [None] for [MAP_FAILED]. *)
Variable mmap : Z -> Z -> option Z.

Definition pareff_init (id pref size : Z) : M DmaSim unit :=
  assert (bool_decide (pref < Z.of_nat MAX_DMA_IDS)) ;;
  upd_entry id pref (fun e => set_size_accum (s32 (size_accum e + size)) e) ;;
  if decide (size = 0) then
    e ← get_entry id pref;
    match mmap (de_fd e) (size_accum e) with
    | None => exit (-1)
    | Some obj =>
        upd_entry id pref (set_buffer (Some (obj, size_accum e))) ;;
        upd_entry id pref (fun e => set_buffer_len (u32 (size_accum e)) e)
    end
  else mret tt.

(** What the MMU of the design does with the requests it gets in a simulation. *)
Definition mmu_import (r : MMUReq) : M DmaSim unit :=
  match r with
  | Sglist pointer _ _ len => pareff_init (Z.shiftr pointer 16) (Z.land pointer 0xffff) len
  | _ => mret tt
  end.
Fixpoint mmu_imports (l : list MMUReq) : M DmaSim unit :=
  match l with [] => mret tt | r :: l => mmu_import r ;; mmu_imports l end.
End Init.

(** * Facts *)

Definition ent (s : DmaSim) (id pref : Z) : option dma_entry :=
  row ← znth (dma_info s) id; znth row pref.

Lemma get_entry_ok id pref e s : ent s id pref = Some e -> get_entry id pref s = Ok e s.
Proof.
  unfold ent, get_entry, mbind, option_bind, M_bind, getW. destruct (znth _ id) as [row|]; [|done].
  cbn. by intros ->.
Qed.

Lemma upd_entry_ok id pref f e s : ent s id pref = Some e ->
  exists s', upd_entry id pref f s = Ok tt s' /\ objs s' = objs s /\
    (forall i p, ent s' i p = if decide (i = id /\ p = pref) then Some (f e) else ent s i p).
Proof.
  unfold ent at 1, upd_entry. unfold mbind at 1, option_bind. destruct (znth _ id) as [row|] eqn:Hrow; [|done].
  intros He. pose proof (znth_Some _ _ _ Hrow) as Hi. pose proof (znth_Some _ _ _ He) as Hp.
  pose proof (zupd_Some row pref (f e) Hp) as Hu.
  pose proof (zupd_Some (dma_info s) id (<[Z.to_nat pref := f e]> row) Hi) as Hu'.
  eexists. split_and!.
  - unfold mbind, M_bind, getW. rewrite Hrow. cbn. rewrite He. cbn. rewrite Hu. cbn. rewrite Hu'. reflexivity.
  - done.
  - intros i p. unfold ent. cbn [dma_info]. case_decide as Hd.
    + destruct Hd as [-> ->]. rewrite (znth_zupd_eq _ _ _ _ Hu'). cbn. by rewrite (znth_zupd_eq _ _ _ _ Hu).
    + destruct (decide (i = id)) as [->|Hne].
      * rewrite (znth_zupd_eq _ _ _ _ Hu'). cbn. rewrite (znth_zupd_ne _ _ _ _ _ Hu) by (intros ->; tauto).
        by rewrite Hrow.
      * by rewrite (znth_zupd_ne _ _ _ _ _ Hu') by congruence.
Qed.

Lemma length_le n v : length (le n v) = n.
Proof. revert v. induction n as [|n IH]; intros v; [done|]. cbn. by rewrite IH. Qed.

Lemma of_le_le n v : of_le (le n v) = wrap (8 * Z.of_nat n) v.
Proof.
  revert v. induction n as [|n IH]; intros v.
  - cbn. unfold wrap. change (2 ^ 0) with 1. by rewrite Z.mod_1_r.
  - cbn [le of_le]. rewrite IH. unfold wrap.
    replace (8 * Z.of_nat (S n)) with (8 + 8 * Z.of_nat n) by lia.
    rewrite Z.pow_add_r by lia. change (2 ^ 8) with 256.
    rewrite (Z.rem_mul_r v 256) by lia. done.
Qed.

(** [n] bytes at [offset] of a list. *)
Lemma splice_same (l x : list Z) (o n : nat) :
  length x = n -> (o + n <= length l)%nat -> take n (drop o (take o l ++ x ++ drop (o + n) l)) = x.
Proof.
  intros Hx Hl. rewrite drop_app_length' by (rewrite length_take; lia).
  rewrite take_app_le by lia. by rewrite take_ge by lia.
Qed.

Lemma splice_other (l x : list Z) (o n o' n' : nat) :
  length x = n -> (o + n <= length l)%nat -> (o' + n' <= o)%nat \/ (o + n <= o')%nat ->
  take n' (drop o' (take o l ++ x ++ drop (o + n) l)) = take n' (drop o' l).
Proof.
  intros Hx Hl Hd. apply list_eq. intros i. rewrite !lookup_take. case_decide as Hi; [|done].
  rewrite !lookup_drop. destruct Hd as [Hd|Hd].
  - rewrite lookup_app_l by (rewrite length_take; lia). by rewrite lookup_take_lt by lia.
  - rewrite lookup_app_r by (rewrite length_take; lia). rewrite lookup_app_r by (rewrite length_take; lia).
    rewrite lookup_drop. f_equal. rewrite length_take. lia.
Qed.

Lemma length_splice (l x : list Z) (o n : nat) :
  length x = n -> (o + n <= length l)%nat -> length (take o l ++ x ++ drop (o + n) l) = length l.
Proof. intros Hx Hl. rewrite !length_app, length_take, length_drop. lia. Qed.

(** Handle [h] of the memory bus is mapped to the first [len] bytes of the object. *)
Definition mapped (s : DmaSim) (h obj len : Z) : Prop :=
  exists e, ent s (Z.shiftr h 5) (u32 (h - Z.shiftl (Z.shiftr h 5) 5)) = Some e /\ buffer e = Some (obj, len).

Lemma read_pareff_ok n h off obj len l s :
  mapped s h obj len -> objs s !! obj = Some l -> 0 <= off -> off + Z.of_nat n <= len ->
  (Z.to_nat off + n <= length l)%nat ->
  read_pareff n h off s = Ok (of_le (take n (drop (Z.to_nat off) l))) s.
Proof.
  intros (e & He & Hb) Hl Ho Hlen Hn. unfold read_pareff.
  rewrite (bind_ok _ _ _ _ _ (get_entry_ok _ _ _ _ He)), Hb, bind_defined.
  unfold read_bytes, mbind, M_bind, getW. rewrite Hl. cbn. by rewrite decide_True.
Qed.

Lemma write_pareff_ok n h off obj len l v s :
  mapped s h obj len -> objs s !! obj = Some l -> 0 <= off -> off + Z.of_nat n <= len ->
  (Z.to_nat off + n <= length l)%nat ->
  write_pareff n h off v s =
  Ok tt {| dma_info := dma_info s;
           objs := <[obj := take (Z.to_nat off) l ++ le n v ++ drop (Z.to_nat off + n) l]> (objs s) |}.
Proof.
  intros (e & He & Hb) Hl Ho Hlen Hn. unfold write_pareff.
  rewrite (bind_ok _ _ _ _ _ (get_entry_ok _ _ _ _ He)), Hb, bind_defined.
  unfold write_bytes, mbind, M_bind, getW. rewrite Hl. cbn. by rewrite decide_True.
Qed.

(** An access behind what is mapped is a fault. *)
Lemma read_pareff_beyond n h off obj len s : mapped s h obj len -> len < off + Z.of_nat n ->
  read_pareff n h off s = Fault.
Proof.
  intros (e & He & Hb) Hlen. unfold read_pareff.
  rewrite (bind_ok _ _ _ _ _ (get_entry_ok _ _ _ _ He)), Hb, bind_defined.
  unfold read_bytes, mbind, M_bind, getW, defined. destruct (objs s !! obj); [|done]. cbn. rewrite decide_False; [done|lia].
Qed.

(** C33: A value the simulated design stores in a memory object is read back, at
    its width, through every handle that maps those bytes of the object (through
    one with a shorter mapping the read faults), and a read of other bytes of
    the object through any handle returns what it did before. *)
Theorem dma_write_read n h off obj len l v s :
  mapped s h obj len -> objs s !! obj = Some l -> 0 <= off -> off + Z.of_nat n <= len ->
  (Z.to_nat off + n <= length l)%nat ->
  exists s', write_pareff n h off v s = Ok tt s' /\
    forall h' len', mapped s h' obj len' ->
      read_pareff n h' off s' =
        (if decide (off + Z.of_nat n <= len') then Ok (wrap (8 * Z.of_nat n) v) s' else Fault) /\
      forall n' off' r, 0 <= off' -> off' + Z.of_nat n' <= off \/ off + Z.of_nat n <= off' ->
        read_pareff n' h' off' s = Ok r s -> read_pareff n' h' off' s' = Ok r s'.
Proof.
  intros Hm Hl Ho Hlen Hn. eexists. split; [by eapply write_pareff_ok|].
  set (s' := {| dma_info := dma_info s |}).
  assert (Hl' : objs s' !! obj = Some (take (Z.to_nat off) l ++ le n v ++ drop (Z.to_nat off + n) l))
    by apply lookup_insert_eq.
  intros h' len' Hm'. assert (Hms : mapped s' h' obj len') by exact Hm'. split.
  - case_decide; [|eapply read_pareff_beyond; [done|lia]].
    erewrite read_pareff_ok by (eauto; rewrite length_splice; rewrite ?length_le; lia).
    by rewrite splice_same, of_le_le by (rewrite ?length_le; lia).
  - intros n' off' r Ho' Hd Hr.
    assert (Hin : off' + Z.of_nat n' <= len' /\ (Z.to_nat off' + n' <= length l)%nat).
    { destruct Hm' as (e & He & Hb). unfold read_pareff in Hr.
      rewrite (bind_ok _ _ _ _ _ (get_entry_ok _ _ _ _ He)), Hb, bind_defined in Hr.
      unfold read_bytes, mbind, M_bind, getW in Hr. rewrite Hl in Hr. cbn in Hr. case_decide; [tauto|done]. }
    rewrite (read_pareff_ok n' h' off' obj len' l) in Hr by (done || tauto). injection Hr as <-.
    erewrite read_pareff_ok by (eauto; try tauto; rewrite length_splice; rewrite ?length_le; lia).
    rewrite splice_other by (rewrite ?length_le; lia). done.
Qed.

(** ** Programming the table *)
Section Programs.
Variable mmap : Z -> Z -> option Z.

Lemma pareff_init_adds id pref size e s :
  pref < 32 -> size <> 0 -> ent s id pref = Some e ->
  exists s', pareff_init mmap id pref size s = Ok tt s' /\ objs s' = objs s /\
    ent s' id pref = Some (set_size_accum (s32 (size_accum e + size)) e).
Proof.
  intros Hp Hsz He. unfold pareff_init.
  destruct (upd_entry_ok id pref (fun e => set_size_accum (s32 (size_accum e + size)) e) e s He)
    as (s1 & Hrun & Ho & Hent).
  exists s1. split_and!; [|done|].
  - unfold mbind at 1, M_bind at 1, assert. rewrite bool_decide_eq_true_2 by done.
    rewrite (bind_ok _ _ _ _ _ Hrun). by rewrite decide_False.
  - rewrite Hent. by rewrite decide_True.
Qed.

Lemma pareff_init_maps id pref e s obj :
  pref < 32 -> ent s id pref = Some e -> 0 <= size_accum e < 2 ^ 31 ->
  mmap (de_fd e) (size_accum e) = Some obj ->
  exists s', pareff_init mmap id pref 0 s = Ok tt s' /\ objs s' = objs s /\
    ent s' id pref = Some {| de_fd := de_fd e; buffer := Some (obj, size_accum e); buffer_len := size_accum e;
                            size_accum := size_accum e |}.
Proof.
  intros Hp He Hb Hmap. unfold pareff_init.
  destruct (upd_entry_ok id pref (fun e => set_size_accum (s32 (size_accum e + 0)) e) e s He)
    as (s1 & Hrun & Ho & Hent).
  assert (He1 : ent s1 id pref = Some e).
  { rewrite Hent, decide_True, Z.add_0_r, s32_small by (done || lia). by destruct e. }
  destruct (upd_entry_ok id pref (set_buffer (Some (obj, size_accum e))) e s1 He1) as (s2 & Hrun2 & Ho2 & Hent2).
  assert (He2 : ent s2 id pref = Some (set_buffer (Some (obj, size_accum e)) e)) by (by rewrite Hent2, decide_True).
  destruct (upd_entry_ok id pref (fun e => set_buffer_len (u32 (size_accum e)) e) _ s2 He2) as (s3 & Hrun3 & Ho3 & Hent3).
  exists s3. split_and!; [|congruence|].
  - unfold mbind at 1, M_bind at 1, assert. rewrite bool_decide_eq_true_2 by done.
    rewrite (bind_ok _ _ _ _ _ Hrun), decide_True by done.
    rewrite (bind_ok _ _ _ _ _ (get_entry_ok _ _ _ _ He1)), Hmap. by rewrite (bind_ok _ _ _ _ _ Hrun2).
  - rewrite Hent3, decide_True by done. cbn. rewrite u32_small by lia. done.
Qed.

Lemma imports_app l1 l2 s : mmu_imports mmap (l1 ++ l2) s = (mmu_imports mmap l1 ;; mmu_imports mmap l2) s.
Proof.
  revert s. induction l1 as [|r l1 IH]; intros s; [done|]. cbn [app mmu_imports].
  rewrite bind_assoc. apply bind_ext. intros [] s'. apply IH.
Qed.

Definition seg_ok (e : Z * Z) : Prop := 0 < snd e < 2 ^ 31.

Lemma seg_total l : Forall seg_ok l -> 0 <= total l.
Proof. unfold seg_ok. induction 1 as [|[a n] l Hn _ IH]; cbn in *; lia. Qed.

Lemma imports_list port tag id l : forall i e s,
  0 <= id < 2 ^ 32 -> Z.shiftr id 16 = port -> Z.land id 0xffff = tag -> tag < 32 ->
  Forall seg_ok l -> ent s port tag = Some e -> 0 <= size_accum e -> size_accum e + total l < 2 ^ 31 ->
  exists s', mmu_imports mmap (sg_list id i l) s = Ok tt s' /\ objs s' = objs s /\
    ent s' port tag = Some (set_size_accum (size_accum e + total l) e).
Proof.
  induction l as [|[a n] l IH]; intros i e s Hid Hp Ht Htag Hl He Ha Hsum; cbn [sg_list mmu_imports total] in *.
  - exists s. split_and!; [done..|]. rewrite Z.add_0_r, He. by destruct e.
  - inversion Hl as [|? ? Hn Hl']; subst. unfold seg_ok in Hn. cbn [snd] in Hn. pose proof (seg_total _ Hl').
    destruct (pareff_init_adds (Z.shiftr id 16) (Z.land id 0xffff) n e s Htag ltac:(lia) He) as (s1 & Hrun & Ho & He1).
    rewrite s32_small in He1 by lia.
    destruct (IH (i + 1) _ s1 Hid eq_refl eq_refl Htag Hl' He1) as (s2 & Hrun2 & Ho2 & He2); cbn; [lia..|].
    exists s2. split_and!; [|congruence|].
    + unfold sg_request. cbn [mmu_import snd]. rewrite (u32_small id), (u32_small n) by lia.
      by rewrite (bind_ok _ _ _ _ _ Hrun).
    + rewrite He2. unfold set_size_accum. cbn [de_fd buffer buffer_len size_accum]. by rewrite Z.add_assoc.
Qed.

(** The list entries and the end marker the software sends for an object map
    the descriptor announced before with [pareff_initfd], with a length that is
    the sum of the list, added to what the handle had accumulated before: a
    handle that is used for a second object maps too much. *)
Theorem pareff_maps_sum port tag id fd l e obj s :
  0 <= id < 2 ^ 32 -> Z.shiftr id 16 = port -> Z.land id 0xffff = tag -> tag < 32 -> -2147483648 <= fd < 2147483648 ->
  Forall seg_ok l -> ent s port tag = Some e -> 0 <= size_accum e -> size_accum e + total l < 2 ^ 31 ->
  mmap fd (size_accum e + total l) = Some obj ->
  exists s', (pareff_initfd id fd ;; mmu_imports mmap (sg_requests id l)) s = Ok tt s' /\ objs s' = objs s /\
    ent s' port tag = Some {| de_fd := fd; buffer := Some (obj, size_accum e + total l); buffer_len := size_accum e + total l;
                              size_accum := size_accum e + total l |}.
Proof.
  intros Hid Hp Ht Htag Hfd Hl He Ha Hsum Hmap. unfold pareff_initfd. rewrite Hp, Ht.
  destruct (upd_entry_ok port tag (set_de_fd (s32 fd)) e s He) as (s1 & Hrun & Ho & Hent).
  assert (He1 : ent s1 port tag = Some (set_de_fd fd e)).
  { rewrite Hent, decide_True, s32_small by (done || lia). done. }
  destruct (imports_list port tag id l 0 _ s1 Hid Hp Ht Htag Hl He1) as (s2 & Hrun2 & Ho2 & He2); [cbn; lia..|].
  pose proof (seg_total _ Hl).
  destruct (pareff_init_maps port tag _ s2 obj Htag He2) as (s3 & Hrun3 & Ho3 & He3); [cbn; lia|done|].
  exists s3. split_and!; [|congruence|done].
  rewrite (bind_ok _ _ _ _ _ Hrun). unfold sg_requests. rewrite imports_app, (bind_ok _ _ _ _ _ Hrun2).
  cbn [mmu_imports mmu_import]. rewrite (u32_small id), Hp, Ht by lia. rewrite (bind_ok _ _ _ _ _ Hrun3).
  unfold sg_region. destruct (sg_counts_3 l 0 0 0) as (a0 & a1 & a2 & ->).
  by destruct (region_loop_3 a0 a1 a2) as (b8 & i8 & b4 & i4 & b0 & i0 & ->).
Qed.
End Programs.

(** * A concrete table *)
Module DmaSimDemo.
Definition mmap (fd size : Z) : option Z := Some fd.
Definition s0 : DmaSim := DmaSim_start {[ 9 := replicate 16 0 ]}.

Lemma pareff_maps_sum_witness : exists s',
  (pareff_initfd 0x10003 9 ;; mmu_imports mmap (sg_requests 0x10003 [(0, 0x1000); (0x1000, 0x1000)])) s0 = Ok tt s' /\
  objs s' = objs s0 /\
  ent s' 1 3 = Some {| de_fd := 9; buffer := Some (9, 0x2000); buffer_len := 0x2000; size_accum := 0x2000 |}.
Proof.
  apply (pareff_maps_sum mmap 1 3 0x10003 9 [(0, 0x1000); (0x1000, 0x1000)] dma_entry_zero 9 s0);
    try reflexivity; try (cbn; lia).
  repeat constructor; cbn; lia.
Defined.

(** Handle 0 maps 16 bytes of object 9, handle 1 the first six. *)
Definition s1 : DmaSim :=
  {| dma_info := [[{| de_fd := 9; buffer := Some (9, 16); buffer_len := 16; size_accum := 16 |};
                   {| de_fd := 9; buffer := Some (9, 6); buffer_len := 6; size_accum := 6 |}]];
     objs := {[ 9 := replicate 16 0 ]} |}.

Lemma dma_write_read_witness : exists s', write_pareff32 0 4 (-2) s1 = Ok tt s' /\
  read_pareff32 0 4 s' = Ok 0xfffffffe s' /\ read_pareff64 0 8 s' = Ok 0 s' /\
  read_pareff32 1 4 s' = Fault /\ read_pareff32 1 0 s' = Ok 0 s'.
Proof.
  destruct (dma_write_read 4 0 4 9 16 (replicate 16 0) (-2) s1) as (s' & Hw & Hr); [by eexists|done|lia|lia|cbn; lia|].
  exists s'. split; [exact Hw|]. destruct (Hr 0 16) as [H1 H2]; [by eexists|].
  destruct (Hr 1 6) as [H3 H4]; [by eexists|]. split; [exact H1|]. split; [|split; [exact H3|]].
  - apply (H2 8%nat 8 0); [lia|lia|reflexivity].
  - apply (H4 4%nat 0 0); [lia|lia|reflexivity].
Defined.
End DmaSimDemo.
