(* ===== verification/Timer.v ===== *)
(** Interval timers over the cycle counter of the hardware: [cpp/timer.c].  The
    static variables are a record passed through the operations, which read
    the counter with [portalCycleCount]. *)

From stdpp Require Import base gmap list fin_maps.
From Stdlib Require Import ZArith Lia.
From S2P Require Import Prelude PortalTypes PortalCore.

Definition MAX_TIMER_COUNT : Z := 16.

Record PORTAL_TIMETYPE : Type := { tt_total : Z; tt_min : Z; tt_max : Z; tt_over : Z }.

Record Timers : Type := {
  c_start : list Z;
  lap_timer_temp : Z;
  timers : list PORTAL_TIMETYPE
}.

Definition NO_MIN : Z := Z.shiftl 1 63.

Section Timer.
Context {W : Type}.
(** [portalCycleCount()] *)
Variable portalCycleCount : M W Z.

Definition portalTimerStart (i : Z) (t : Timers) : M W Timers :=
  assert (bool_decide (i < MAX_TIMER_COUNT)) ;;
  n ← portalCycleCount;
  l ← defined (zupd (c_start t) i n);
  mret {| c_start := l; lap_timer_temp := lap_timer_temp t; timers := timers t |}.

Definition portalTimerLap (i : Z) (t : Timers) : M W (Z * Timers) :=
  temp ← portalCycleCount;
  assert (bool_decide (i < MAX_TIMER_COUNT)) ;;
  s ← defined (znth (c_start t) i);
  mret (u64 (temp - s), {| c_start := c_start t; lap_timer_temp := temp; timers := timers t |}).

(** The loop writes [min] of each of the [MAX_TIMERS] entries. *)
Definition portalTimerInit (t : Timers) : Timers :=
  {| c_start := c_start t; lap_timer_temp := lap_timer_temp t;
     timers := replicate (Z.to_nat MAX_TIMERS)
                 {| tt_total := 0; tt_min := NO_MIN; tt_max := 0; tt_over := 0 |} |}.

(** The four updates of an entry for a measured [val]. *)
Definition catch_val (val : Z) (e : PORTAL_TIMETYPE) : PORTAL_TIMETYPE :=
  {| tt_total := u64 (tt_total e + val);
     tt_min := if decide (val < tt_min e) then val else tt_min e;
     tt_max := if decide (val > tt_max e) then val else tt_max e;
     tt_over := if decide (val = 0) then u64 (tt_over e + 1) else tt_over e |}.

Definition portalTimerCatch (i : Z) (t : Timers) : M W (Z * Timers) :=
  '(val, t) ← portalTimerLap 0 t;
  if decide (i >= MAX_TIMERS) then mret (0, t)
  else
    e ← defined (znth (timers t) i);
    l ← defined (zupd (timers t) i (catch_val val e));
    mret (lap_timer_temp t,
          {| c_start := c_start t; lap_timer_temp := lap_timer_temp t; timers := l |}).

(** The rows printed: index, average, minimum, maximum, zero intervals. *)
Fixpoint print_rows (i : Z) (l : list PORTAL_TIMETYPE) (loops : Z) : M W (list (Z * Z * Z * Z * Z)) :=
  match l with
  | [] => mret []
  | e :: l =>
      r ← (if decide (tt_min e <> NO_MIN) then
             if decide (u64 loops = 0) then fault
             else mret [(i, tt_total e / u64 loops, tt_min e, tt_max e, tt_over e)]
           else mret []);
      rs ← print_rows (i + 1) l loops;
      mret (r ++ rs)
  end.

Definition portalTimerPrint (loops : Z) (t : Timers) : M W (list (Z * Z * Z * Z * Z)) :=
  print_rows 0 (timers t) loops.

(** * What an entry accumulates *)

Definition zeros (vs : list Z) : Z := Z.of_nat (length (filter (fun v => v = 0) vs)).

Lemma catch_all vs : forall e,
  Forall (fun v => 0 <= v) vs ->
  0 <= tt_total e -> 0 <= tt_over e ->
  tt_total e + foldr Z.add 0 vs < 2 ^ 64 -> tt_over e + Z.of_nat (length vs) < 2 ^ 64 ->
  foldl (fun e v => catch_val v e) e vs =
  {| tt_total := tt_total e + foldr Z.add 0 vs;
     tt_min := foldr Z.min (tt_min e) vs;
     tt_max := foldr Z.max (tt_max e) vs;
     tt_over := tt_over e + zeros vs |}.
Proof.
  unfold zeros. induction vs as [|v vs IH]; intros e Hv Ht Ho Hs Hl; cbn [foldl foldr length] in *.
  - rewrite filter_nil, !Z.add_0_r. by destruct e.
  - inversion Hv as [|? ? Hv0 Hvs]; subst.
    assert (Hnn : 0 <= foldr Z.add 0 vs).
    { clear -Hvs. induction Hvs; cbn; lia. }
    assert (Hsum : u64 (tt_total e + v) = tt_total e + v) by (apply u64_small; lia).
    assert (Hmin : forall m, foldr Z.min (if decide (v < m) then v else m) vs = Z.min v (foldr Z.min m vs)).
    { intros m. clear. induction vs as [|a vs IH]; cbn; [case_decide; lia|]. rewrite IH. lia. }
    assert (Hmax : forall m, foldr Z.max (if decide (v > m) then v else m) vs = Z.max v (foldr Z.max m vs)).
    { intros m. clear. induction vs as [|a vs IH]; cbn; [case_decide; lia|]. rewrite IH. lia. }
    assert (Hov : tt_over (catch_val v e) + zeros vs = tt_over e + zeros (v :: vs)).
    { unfold zeros. cbn [catch_val tt_over]. rewrite filter_cons. case_decide; [|done].
      rewrite u64_small by lia. cbn [length]. lia. }
    assert (0 <= tt_over (catch_val v e) <= tt_over e + 1).
    { cbn [catch_val tt_over]. case_decide; [rewrite u64_small by lia|]; lia. }
    rewrite IH; cbn [catch_val tt_total] in *; rewrite ?Hsum; try done; try lia.
    unfold zeros in Hov. cbn [catch_val tt_min tt_max]. rewrite Hmin, Hmax, Hov. f_equal. lia.
Qed.

(** A series of [portalTimerCatch(i)] calls, in which the counter shows [ns]. *)
Fixpoint catches (i : Z) (n : nat) (t : Timers) : M W Timers :=
  match n with O => mret t | S n => '(_, t) ← portalTimerCatch i t; catches i n t end.

Inductive counter_shows : W -> list Z -> W -> Prop :=
| shows_nil w : counter_shows w [] w
| shows_cons w n w1 ns w2 : portalCycleCount w = Ok n w1 -> counter_shows w1 ns w2 -> counter_shows w (n :: ns) w2.

Lemma portalTimerCatch_ok i s n e w w1 t :
  portalCycleCount w = Ok n w1 -> znth (c_start t) 0 = Some s -> 0 <= i < MAX_TIMERS ->
  znth (timers t) i = Some e ->
  portalTimerCatch i t w =
  Ok (n, {| c_start := c_start t; lap_timer_temp := n;
            timers := <[Z.to_nat i := catch_val (u64 (n - s)) e]> (timers t) |}) w1.
Proof.
  intros Hc Hs Hi He. pose proof (zupd_Some _ _ (catch_val (u64 (n - s)) e) (znth_Some _ _ _ He)) as Hu.
  unfold portalTimerCatch.
  rewrite (bind_ok _ _ _ (u64 (n - s), {| c_start := c_start t; lap_timer_temp := n; timers := timers t |}) w1).
  - rewrite decide_False by lia. cbn [timers c_start lap_timer_temp].
    by rewrite He, bind_defined, Hu, bind_defined.
  - unfold portalTimerLap. rewrite (bind_ok _ _ _ _ _ Hc). unfold mbind at 1, M_bind at 1, assert.
    rewrite bool_decide_eq_true_2 by done. by rewrite Hs, bind_defined.
Qed.

Lemma catches_entry i s w ns w' : counter_shows w ns w' -> forall t,
  0 <= i < MAX_TIMERS -> znth (c_start t) 0 = Some s -> length (timers t) = Z.to_nat MAX_TIMERS ->
  exists t', catches i (length ns) t w = Ok t' w' /\ c_start t' = c_start t /\
    (forall e, znth (timers t) i = Some e ->
       znth (timers t') i = Some (foldl (fun e v => catch_val v e) e (map (fun n => u64 (n - s)) ns))) /\
    (forall j, j <> i -> znth (timers t') j = znth (timers t) j).
Proof.
  induction 1 as [w|w n w1 ns w2 Hc _ IH]; intros t Hi Hs Hlen.
  - exists t. split_and!; try done.
  - assert (Hr : 0 <= i < Z.of_nat (length (timers t))) by (rewrite Hlen; unfold MAX_TIMERS in *; lia).
    destruct (znth_in_range (timers t) i Hr) as [e He].
    pose proof (zupd_Some (timers t) i (catch_val (u64 (n - s)) e) Hr) as Hu.
    cbn [length catches map].
    rewrite (bind_ok _ _ _ _ _ (portalTimerCatch_ok i s n e w w1 t Hc Hs Hi He)).
    set (t1 := {| c_start := c_start t |}).
    destruct (IH t1) as (t' & Hrun & Hc' & Hent & Hoth); [done|done|cbn; by rewrite length_insert|].
    exists t'. split_and!; [done|done| |].
    + intros e' He'. assert (e' = e) as -> by congruence. cbn [foldl]. apply Hent. exact (znth_zupd_eq _ _ _ _ Hu).
    + intros j Hj. rewrite Hoth by done. apply (znth_zupd_ne _ _ _ _ _ Hu). congruence.
Qed.

(** After [portalTimerInit] and a series of [portalTimerCatch] calls for timer
    [i], the entry holds the sum, the minimum, the maximum and the number of
    zero intervals of the times since [portalTimerStart(0)], and no other
    timer has changed; the minimum starts at [2^63]. *)
Theorem timer_statistics i s t w ns w' :
  counter_shows w ns w' -> 0 <= i < MAX_TIMERS -> znth (c_start t) 0 = Some s ->
  let vs := map (fun n => u64 (n - s)) ns in
  foldr Z.add 0 vs < 2 ^ 64 -> Z.of_nat (length ns) < 2 ^ 64 ->
  exists t', catches i (length ns) (portalTimerInit t) w = Ok t' w' /\
    znth (timers t') i = Some {| tt_total := foldr Z.add 0 vs; tt_min := foldr Z.min (2 ^ 63) vs;
                                 tt_max := foldr Z.max 0 vs; tt_over := zeros vs |} /\
    forall j, j <> i -> znth (timers t') j = znth (timers (portalTimerInit t)) j.
Proof.
  intros Hc Hi Hs vs Hsum Hlen.
  destruct (catches_entry i s w ns w' Hc (portalTimerInit t)) as (t' & Hrun & _ & Hent & Hoth);
    [done|done|cbn; by rewrite length_replicate|].
  exists t'. split_and!; [done| |done].
  set (e0 := {| tt_total := 0; tt_min := NO_MIN; tt_max := 0; tt_over := 0 |}).
  rewrite (Hent e0).
  - fold vs. rewrite (catch_all vs e0); cbn [e0 tt_total tt_min tt_max tt_over]; try lia; [done| |].
    + apply Forall_map, Forall_true. intros n. apply u64_bound.
    + unfold vs. rewrite length_map. lia.
  - unfold znth. rewrite decide_True by lia. cbn [timers portalTimerInit].
    apply lookup_replicate_2. unfold MAX_TIMERS in *. lia.
Qed.

End Timer.

(** * A counter that advances by 5 *)
Module TimerDemo.
Definition counter : M Z Z := fun w => Ok w (w + 5).

Lemma timer_statistics_witness : exists t',
  catches counter 3 2 (portalTimerInit {| c_start := replicate 16 10; lap_timer_temp := 0; timers := [] |}) 10 = Ok t' 20 /\
  znth (timers t') 3 = Some {| tt_total := 5; tt_min := 0; tt_max := 5; tt_over := 1 |} /\
  znth (timers t') 4 = Some {| tt_total := 0; tt_min := NO_MIN; tt_max := 0; tt_over := 0 |}.
Proof.
  destruct (timer_statistics counter 3 10 {| c_start := replicate 16 10; lap_timer_temp := 0; timers := [] |}
              10 [10; 15] 20) as (t' & H1 & H2 & H3).
  - repeat econstructor.
  - unfold MAX_TIMERS. lia.
  - reflexivity.
  - vm_compute. reflexivity.
  - cbn. lia.
  - exists t'. split_and!; [exact H1|exact H2|]. rewrite H3 by lia. reflexivity.
Defined.
End TimerDemo.
