(* ===== verification/PortalMem.v ===== *)
(** The memory driver [drivers/portalmem/portalmem.c]: allocation of memory
    objects from page blocks of three sizes, their mapping into user and kernel
    address spaces, and the ioctls that report their areas.

    The file's state is the table of buffers and the descriptors that denote
    them; the kernel services it calls are the class [PageOs]. *)

From stdpp Require Import base gmap list fin_maps.
From Stdlib Require Import ZArith Lia.
From S2P Require Import Prelude PortalTypes PortalCore PortalCodec SendFd Mmu.

Definition PAGE_SIZE : Z := 4096.
Definition ENOMEM : Z := 12.
Definition EFAULT : Z := 14.
Definition ENOTTY : Z := 25.

(** The result of [vmap]: an address, the null pointer, or an error pointer. *)
Inductive vmap_result : Type := VAddr (a : Z) | VNull | VErr (e : Z).

(** The kernel: allocation of objects and page blocks, [sg_alloc_table],
    [dma_buf_export] (whether it succeeds), [dma_buf_fd], [vmalloc] and [vmap]. *)
Class PageOs (K : Type) : Type := {
  po_kmalloc : K -> bool * K;
  po_alloc_pages : Z -> K -> option Z * K;
  po_sg_alloc_table : Z -> K -> Z * K;
  po_export : K -> bool * K;
  po_dma_buf_fd : K -> Z * K;
  po_vmalloc : K -> bool * K;
  po_vmap : list Z -> K -> vmap_result * K
}.

(** [struct pa_buffer]: a scatter list entry is the physical address and the
    length of a page block; [pb_vaddr] is 0 for the null pointer. *)
Record pa_buffer : Type := { pb_size : Z; pb_kmap_cnt : Z; pb_vaddr : Z; pb_sg : list (Z * Z) }.

Record MemDrv {K : Type} : Type := {
  md_bufs : gmap nat pa_buffer;    (* the live buffers *)
  md_next : nat;
  md_files : gmap Z nat;           (* the buffer of a descriptor *)
  md_kern : K
}.
Arguments MemDrv K : clear implicits.

Section PortalMem.
Context {K : Type} `{!PageOs K}.
Local Abbreviation W := (MemDrv K).

Definition set_bufs (v : gmap nat pa_buffer) (w : W) : W :=
  {| md_bufs := v; md_next := md_next w; md_files := md_files w; md_kern := md_kern w |}.
Definition set_files (v : gmap Z nat) (w : W) : W :=
  {| md_bufs := md_bufs w; md_next := md_next w; md_files := v; md_kern := md_kern w |}.
Definition set_kern (v : K) (w : W) : W :=
  {| md_bufs := md_bufs w; md_next := md_next w; md_files := md_files w; md_kern := v |}.
Definition mcall {A} (f : K -> A * K) : M W A := fun w =>
  let '(a, k) := f (md_kern w) in Ok a (set_kern k w).

(** A buffer through a pointer: a freed one is not there. *)
Definition get_buf (b : nat) : M W pa_buffer := fun w =>
  match md_bufs w !! b with Some x => Ok x w | None => Fault end.
Definition put_buf (b : nat) (x : pa_buffer) : M W unit :=
  modifyW (fun w => set_bufs (<[b := x]> (md_bufs w)) w).
(** [((struct dma_buf * )fget(fd)->private_data)->priv] *)
Definition buf_of_fd (fd : Z) : M W nat := fun w =>
  match md_files w !! fd with Some b => Ok b w | None => Fault end.

(** [pa_buffer_free]: the pages are not given back ([free_buffer_page] is empty). *)
Definition pa_buffer_free (b : nat) : M W Z :=
  get_buf b ;; modifyW (fun w => set_bufs (delete b (md_bufs w)) w) ;; mret 0.

Definition pa_dma_buf_release (b : nat) : M W unit := pa_buffer_free b ;; mret tt.

Definition portalmem_dmabuffer_destroy (fd : Z) : M W Z :=
  b ← buf_of_fd fd; pa_dma_buf_release b ;; mret 0.

(** ** Allocation *)

Definition orders : list Z := [8; 4; 0].
Definition order_size (o : Z) : Z := Z.shiftl PAGE_SIZE o.

(** The inner [for] loop: the page block and its order, [None] when none was found. *)
Fixpoint try_orders (os : list Z) (size_remaining max_order : Z) : M W (option (Z * Z)) :=
  match os with
  | [] => mret None
  | o :: os =>
      if decide (size_remaining >= order_size o /\ max_order >= o) then
        page ← mcall (po_alloc_pages o);
        match page with
        | Some p => ok ← mcall po_kmalloc; if (ok : bool) then mret (Some (p, o)) else fault
        | None => try_orders os size_remaining max_order
        end
      else try_orders os size_remaining max_order
  end.

(** The [while] loop: whether [info] is not null at its end, and the list of blocks. *)
Fixpoint alloc_loop (fuel : nat) (size_remaining max_order : Z) (info : bool) (pages : list (Z * Z))
    : M W (bool * list (Z * Z)) :=
  match fuel with
  | O => block
  | S fuel =>
      if decide (size_remaining > 0) then
        r ← try_orders orders size_remaining max_order;
        match r with
        | None => mret (false, pages)
        | Some (p, o) => alloc_loop fuel (size_remaining - Z.shiftl 1 o * PAGE_SIZE) o true (pages ++ [(p, o)])
        end
      else mret (info, pages)
  end.

(** The kernel's macros, the second for a type of [n] bits. *)
Definition round_up (len align : Z) : Z := u64 (Z.lor (u64 (len - 1)) (align - 1) + 1).
Definition PAGE_ALIGN (n x : Z) : Z := Z.land (wrap n (x + (PAGE_SIZE - 1))) (Z.lnot (PAGE_SIZE - 1)).

(** The list of the error path is walked with [list_for_each_entry], which reads
    the link of an element that [kfree] has released. *)
Definition cleanup (pages : list (Z * Z)) : M W unit :=
  match pages with [] => mret tt | _ => fault end.

Definition portalmem_dmabuffer_create (len : Z) : M W Z :=
  let len := PAGE_ALIGN 64 (round_up len 4096) in
  let size_remaining := s64 len in
  ok ← mcall po_kmalloc;
  if negb ok then mret (- ENOMEM)
  else
    ok ← mcall po_kmalloc;
    if negb ok then mret (- ENOMEM)
    else
      '(info, pages) ← alloc_loop (S (Z.to_nat (len / PAGE_SIZE))) size_remaining 8 false [];
      ret ← (if (info : bool) then mcall (po_sg_alloc_table (Z.of_nat (length pages))) else mret (-1));
      if decide (info = true /\ ret = 0) then
        w ← getW;
        let b := md_next w in
        putW {| md_bufs := <[b := {| pb_size := len; pb_kmap_cnt := 0; pb_vaddr := 0;
                                     pb_sg := map (fun e => (fst e, Z.shiftl 1 (snd e) * PAGE_SIZE)) pages |}]>
                             (md_bufs w);
                md_next := S b; md_files := md_files w; md_kern := md_kern w |} ;;
        ok ← mcall po_export;
        if negb ok then pa_buffer_free b ;; fault
        else
          return_fd ← mcall po_dma_buf_fd;
          if decide (return_fd < 0) then pa_dma_buf_release b ;; mret return_fd
          else modifyW (fun w => set_files (<[return_fd := b]> (md_files w)) w) ;; mret return_fd
      else cleanup pages ;; mret (- ENOMEM).

(** ** Access *)

Definition pa_dma_buf_map (b : nat) : M W (list (Z * Z)) := x ← get_buf b; mret (pb_sg x).

(** The loop of [custom_vma_access]: the address of a block and the offset in it. *)
Fixpoint find_block (l : list (Z * Z)) (maddr : option Z) (offset : Z) : option Z * Z :=
  match l with
  | [] => (maddr, offset)
  | (a, len) :: l =>
      if decide (u32 offset < len) then (Some a, offset) else find_block l (Some a) (s32 (offset - len))
  end.

(** The physical address [custom_vma_access] copies from or to; [-EFAULT] without a buffer. *)
Definition custom_vma_access (b : option nat) (vm_start addr : Z) : M W (Z + Z) :=
  match b with
  | None => mret (inl (- EFAULT))
  | Some b =>
      x ← get_buf b;
      let '(maddr, offset) := find_block (pb_sg x) None (s32 (addr - vm_start)) in
      a ← defined maddr;
      mret (inr (a + offset))
  end.

(** The [remap_pfn_range] calls of [pa_dma_buf_mmap]: address, page frame, length. *)
Fixpoint remaps (l : list (Z * Z)) (addr offset vm_end : Z) : list (Z * Z * Z) :=
  match l with
  | [] => []
  | (a, length) :: l =>
      let remainder := u64 (vm_end - addr) in
      if decide (offset >= length) then remaps l addr (offset - length) vm_end
      else
        let page := a / PAGE_SIZE + (if decide (offset <> 0) then offset / PAGE_SIZE else 0) in
        let len := if decide (offset <> 0) then length - offset else length in
        let len := u32 (Z.min len remainder) in
        let addr' := u64 (addr + len) in
        (addr, page, len) :: (if decide (addr' >= vm_end) then [] else remaps l addr' 0 vm_end)
  end.

Definition pa_dma_buf_mmap (b : nat) (vm_start vm_end vm_pgoff : Z) : M W (list (Z * Z * Z) * Z) :=
  x ← get_buf b;
  mret (remaps (pb_sg x) vm_start (u64 (vm_pgoff * PAGE_SIZE)) vm_end, 0).

Definition pa_dma_buf_kmap (b : nat) (offset : Z) : M W Z :=
  x ← get_buf b; mret (pb_vaddr x + offset * PAGE_SIZE).

(** [int npages = PAGE_ALIGN(x) / PAGE_SIZE] *)
Definition npages (n x : Z) : Z := s32 (PAGE_ALIGN n x / PAGE_SIZE).

Fixpoint frames (page : Z) (n : nat) : list Z :=
  match n with O => [] | S n => page :: frames (page + 1) n end.

(** The array of page frames; [BUG_ON(i >= npages)] stops the kernel. *)
Fixpoint fill_pages (l : list (Z * Z)) (i n : Z) (pages : list Z) : M W (list Z) :=
  match l with
  | [] => mret pages
  | (a, len) :: l =>
      assert (bool_decide (i < n)) ;;
      fill_pages l (i + 1) n (pages ++ frames (a / PAGE_SIZE) (Z.to_nat (npages 32 len)))
  end.

Definition pa_dma_buf_begin_cpu_access (b : nat) : M W Z :=
  x ← get_buf b;
  vaddr ← (if decide (pb_kmap_cnt x = 0) then
             let n := npages 64 (pb_size x) in
             ok ← mcall po_vmalloc;
             if (ok : bool) then
               pages ← fill_pages (pb_sg x) 0 n [];
               (* stores behind the array are undefined, unset entries are garbage *)
               if decide (Z.of_nat (length pages) = n) then mcall (po_vmap pages) else fault
             else mret (if decide (pb_vaddr x = 0) then VNull else VAddr (pb_vaddr x))
           else mret (if decide (pb_vaddr x = 0) then VNull else VAddr (pb_vaddr x)));
  match vaddr with
  | VAddr a =>
      put_buf b {| pb_size := pb_size x; pb_kmap_cnt := s32 (pb_kmap_cnt x + 1); pb_vaddr := a; pb_sg := pb_sg x |} ;;
      mret 0
  | VErr e => mret e
  | VNull => mret (- ENOMEM)
  end.

Definition pa_dma_buf_end_cpu_access (b : nat) : M W unit :=
  x ← get_buf b;
  let cnt := s32 (pb_kmap_cnt x - 1) in
  put_buf b {| pb_size := pb_size x; pb_kmap_cnt := cnt;
               pb_vaddr := if decide (cnt = 0) then 0 else pb_vaddr x; pb_sg := pb_sg x |}.

Definition pa_dma_buf_vmap (b : nat) : M W Z :=
  pa_dma_buf_begin_cpu_access b ;; x ← get_buf b; mret (pb_vaddr x).

(** ** The ioctls *)

Inductive pa_cmd : Type :=
| PA_DMA_ADDRESSES (fd numEntries : Z)
| PA_MALLOC (size : Z)
| PA_ELEMENT_SIZE (fd index : Z)
| PA_OTHER.

(** The result, the new [numEntries] and the entries stored behind the header;
    [user] says whether the process can be read and written. *)
Definition pa_dma_addresses (user : bool) (fd numEntries : Z) : M W (Z * Z * list (Z * Z)) :=
  if negb user then mret (- EFAULT, numEntries, [])
  else
    b ← buf_of_fd fd;
    x ← get_buf b;
    let entries := if decide (numEntries > 0) then pb_sg x else [] in
    mret (0, Z.of_nat (length (pb_sg x)), entries).

Definition pa_element_size (user : bool) (fd index : Z) : M W Z :=
  if negb user then mret (- EFAULT)
  else
    b ← buf_of_fd fd;
    x ← get_buf b;
    mret (match znth (pb_sg x) index with Some (_, len) => s32 len | None => 0 end).

Definition pa_unlocked_ioctl (user : bool) (cmd : pa_cmd) : M W Z :=
  match cmd with
  | PA_DMA_ADDRESSES fd n => '(rc, _, _) ← pa_dma_addresses user fd n; mret rc
  | PA_MALLOC size => portalmem_dmabuffer_create size
  | PA_ELEMENT_SIZE fd i => pa_element_size user fd i
  | PA_OTHER => mret (- ENOTTY)
  end.

End PortalMem.

(** * Rounding *)

Lemma land_lnot_page x : Z.land x (Z.lnot (PAGE_SIZE - 1)) = x - x mod 4096.
Proof. apply (land_lnot_ones x 12). lia. Qed.

Lemma lor_page x : Z.lor x 4095 = x - x mod 4096 + 4095.
Proof.
  pose proof (Z.mod_pos_bound x 4096 ltac:(lia)).
  assert (E : x = Z.lor (Z.shiftl (x / 4096) 12) (x mod 4096)).
  { rewrite lor_shiftl_add by lia. change (2 ^ 12) with 4096. zlia. }
  rewrite E at 1.
  rewrite <- Z.lor_assoc. replace (Z.lor (x mod 4096) 4095) with 4095.
  - rewrite lor_shiftl_add by lia. change (2 ^ 12) with 4096. zlia.
  - symmetry. apply Z.bits_inj'. intros i Hi. rewrite Z.lor_spec.
    destruct (decide (i < 12)).
    + change 4095 with (Z.ones 12). rewrite Z.ones_spec_low by lia. apply orb_true_r.
    + change 4096 with (2 ^ 12). rewrite Z.mod_pow2_bits_high by lia. done.
Qed.

(** The size of an object of [len] bytes. *)
Definition object_size (len : Z) : Z := (len + 4095) / 4096 * 4096.

Lemma create_size len : 0 <= len < 2 ^ 63 - 8192 -> PAGE_ALIGN 64 (round_up len 4096) = object_size len.
Proof.
  intros H. unfold PAGE_ALIGN, round_up, object_size, PAGE_SIZE. rewrite land_lnot_page.
  change (4096 - 1) with 4095. rewrite lor_page. fold (u64 (u64 (u64 (len - 1) - u64 (len - 1) mod 4096 + 4095 + 1) + 4095)).
  destruct (decide (len = 0)) as [->|]; [reflexivity|].
  rewrite (u64_small (len - 1)) by lia. rewrite (u64_small (len - 1 - _ + 4095 + 1)) by zlia.
  rewrite u64_small by zlia. zlia.
Qed.

(** * Allocation *)

(** The buddy allocator aligns a block to its size; the memory of the machine
    has physical addresses of [aw] bits. *)
Class PageOsLaws (K : Type) `{!PageOs K} (aw : Z) : Prop := {
  alloc_pages_ok : forall o k p k', o = 8 \/ o = 4 \/ o = 0 ->
    po_alloc_pages o k = (Some p, k') -> 0 <= p < 2 ^ aw /\ p mod 2 ^ (12 + o) = 0
}.

Definition sg_of (e : Z * Z) : Z * Z := (fst e, Z.shiftl 1 (snd e) * PAGE_SIZE).

Section AllocFacts.
Context {K : Type} `{!PageOs K} {aw : Z} `{!PageOsLaws K aw}.
Local Abbreviation W := (MemDrv K).
Implicit Types (w : W).

(** The driver's tables are untouched. *)
Definition same_tables w w' : Prop :=
  md_bufs w' = md_bufs w /\ md_next w' = md_next w /\ md_files w' = md_files w.

#[global] Instance same_tables_refl : Reflexive same_tables.
Proof. by intros w. Qed.
#[global] Instance same_tables_trans : Transitive same_tables.
Proof. unfold same_tables. intros w1 w2 w3 (? & ? & ?) (? & ? & ?). split_and!; congruence. Qed.

Lemma mcall_same {A} (f : K -> A * K) w a w' : mcall f w = Ok a w' -> same_tables w w'.
Proof. unfold mcall. destruct (f (md_kern w)). by intros [= <- <-]. Qed.

(** The areas of the blocks allocated so far, when the last block had order [o]. *)
Definition blocks_ok (aw o : Z) (sg : list (Z * Z)) : Prop :=
  exists l8 l4 l0, sg = l8 ++ l4 ++ l0 /\ areas aw 20 l8 /\ areas aw 16 l4 /\ areas aw 12 l0 /\
    ((o = 8 /\ l4 = [] /\ l0 = []) \/ (o = 4 /\ l0 = []) \/ o = 0).

Lemma areas_snoc o l p : (o = 8 \/ o = 4 \/ o = 0) -> areas aw (12 + o) l ->
  0 <= p < 2 ^ aw -> p mod 2 ^ (12 + o) = 0 -> areas aw (12 + o) (l ++ [sg_of (p, o)]).
Proof.
  intros Ho Hl Hp Ha. apply Forall_app_2; [done|]. apply Forall_singleton. split; [|split; [exact Hp|exact Ha]].
  by destruct Ho as [-> | [-> | ->]].
Qed.

Lemma blocks_ok_snoc m o sg p : (o = 8 \/ o = 4 \/ o = 0) -> o <= m -> blocks_ok aw m sg ->
  0 <= p < 2 ^ aw -> p mod 2 ^ (12 + o) = 0 -> blocks_ok aw o (sg ++ [sg_of (p, o)]).
Proof.
  intros Ho Hm (l8 & l4 & l0 & -> & H8 & H4 & H0 & Hc) Hp Ha.
  destruct Ho as [-> | [-> | ->]].
  - destruct Hc as [(_ & -> & ->) | [[-> _] | ->]]; [|lia|lia]. rewrite !app_nil_r.
    exists (l8 ++ [sg_of (p, 8)]), [], []. rewrite !app_nil_r. split_and!; [done| |constructor|constructor|by left].
    apply (areas_snoc 8); auto.
  - assert (l0 = []) as -> by (destruct Hc as [(_ & _ & ->) | [[_ ->] | ->]]; [done|done|lia]). rewrite app_nil_r.
    exists l8, (l4 ++ [sg_of (p, 4)]), []. rewrite app_nil_r, <- !app_assoc.
    split_and!; [done|done| |constructor|by right; left].
    apply (areas_snoc 4); auto.
  - exists l8, l4, (l0 ++ [sg_of (p, 0)]). rewrite <- !app_assoc.
    split_and!; [done|done|done| |by right; right].
    apply (areas_snoc 0); auto.
Qed.

Lemma try_orders_spec os rem m w : Forall (fun o => o = 8 \/ o = 4 \/ o = 0) os ->
  match try_orders os rem m w with
  | Ok None w' => same_tables w w'
  | Ok (Some (p, o)) w' => same_tables w w' /\ (o = 8 \/ o = 4 \/ o = 0) /\ o <= m /\
      order_size o <= rem /\ 0 <= p < 2 ^ aw /\ p mod 2 ^ (12 + o) = 0
  | Fault => True
  | _ => False
  end.
Proof.
  intros Hos. revert w. induction Hos as [|o os Ho _ IH]; intros w; cbn [try_orders]; [by cbn|].
  case_decide as Hd; [|apply IH].
  unfold mbind at 1, M_bind at 1. destruct (mcall (po_alloc_pages o) w) as [pg w1| | | |] eqn:E1;
    [|unfold mcall in E1; by destruct (po_alloc_pages _ _)..].
  pose proof (mcall_same _ _ _ _ E1) as S1. destruct pg as [p|].
  - unfold mbind, M_bind. destruct (mcall po_kmalloc w1) as [ok w2| | | |] eqn:E2;
      [|unfold mcall in E2; by destruct (po_kmalloc _)..].
    pose proof (mcall_same _ _ _ _ E2) as S2. destruct ok; [|done]. cbn.
    assert (Hlaw : 0 <= p < 2 ^ aw /\ p mod 2 ^ (12 + o) = 0).
    { unfold mcall in E1. destruct (po_alloc_pages o (md_kern w)) as [? k] eqn:E. simplify_eq.
      by apply (alloc_pages_ok o (md_kern w) p k). }
    split_and!; [by etrans| done | lia | lia | apply Hlaw ..].
  - specialize (IH w1). destruct (try_orders os rem m w1) as [[[p' o']|] w2| | | |]; try done.
    + destruct IH as (S2 & IH). split; [by etrans|done].
    + by etrans.
Qed.

(** The loop ends within its fuel; when it found all blocks they make up the size. *)
Lemma alloc_loop_spec size : forall fuel rem m info pages w,
  0 <= rem -> rem mod 4096 = 0 -> rem / 4096 < Z.of_nat fuel -> (m = 8 \/ m = 4 \/ m = 0) ->
  blocks_ok aw m (map sg_of pages) -> total (map sg_of pages) + rem = size ->
  match alloc_loop fuel rem m info pages w with
  | Ok (i, pages') w' => same_tables w w' /\
      (i = true -> exists m', blocks_ok aw m' (map sg_of pages') /\ total (map sg_of pages') = size) /\
      (rem = 0 -> i = info)
  | Fault => True
  | _ => False
  end.
Proof.
  induction fuel as [|fuel IH]; intros rem m info pages w Hr Hal Hf Hm Hb Ht; [zlia|].
  cbn [alloc_loop]. case_decide as Hd.
  - unfold mbind, M_bind. pose proof (try_orders_spec orders rem m w ltac:(repeat constructor; lia)) as Hs.
    destruct (try_orders orders rem m w) as [[[p o]|] w1| | | |] eqn:E; try done.
    2:{ cbn. split_and!; [done|done|lia]. }
    destruct Hs as (S1 & Ho & Hom & Hsz & Hp & Hpa).
    assert (Hsize : Z.shiftl 1 o * PAGE_SIZE = order_size o) by (destruct Ho as [-> | [-> | ->]]; reflexivity).
    assert (Hmod : order_size o mod 4096 = 0 /\ 4096 <= order_size o)
      by (destruct Ho as [-> | [-> | ->]]; split; vm_compute; done).
    specialize (IH (rem - Z.shiftl 1 o * PAGE_SIZE) o true (pages ++ [(p, o)]) w1).
    rewrite map_app in IH. cbn [map] in IH.
    destruct (alloc_loop fuel _ o true _ w1) as [[i pages'] w2| | | |].
    all: try (apply IH; rewrite ?Hsize; try zlia; try done;
      [by apply (blocks_ok_snoc m)|rewrite total_app; cbn [total sg_of fst snd]; rewrite Hsize; lia]).
    destruct IH as (S2 & IHt & IHi).
    1,2,3: rewrite Hsize; zlia.
    + done.
    + by apply (blocks_ok_snoc m).
    + rewrite total_app. cbn [total sg_of fst snd]. lia.
    + split_and!; [by etrans|done|lia].
  - cbn. split_and!; [done| |done]. intros ->. exists m. split; [done|lia].
Qed.
End AllocFacts.

(** * What [portalmem_dmabuffer_create] promises *)
Section CreateFacts.
Context {K : Type} `{!PageOs K} {aw : Z} `{!PageOsLaws K aw}.
Local Abbreviation W := (MemDrv K).
Implicit Types (w : W).

(** A buffer made up of 1 MB, then 64 KB, then 4 KB blocks that add up to its size. *)
Definition buffer_ok (aw : Z) (x : pa_buffer) : Prop :=
  (exists m, blocks_ok aw m (pb_sg x)) /\ total (pb_sg x) = pb_size x.

Definition created (aw len fd : Z) (w w' : W) : Prop :=
  exists x, md_files w' = <[fd := md_next w]> (md_files w) /\
    md_bufs w' = <[md_next w := x]> (md_bufs w) /\
    pb_size x = object_size len /\ pb_kmap_cnt x = 0 /\ pb_vaddr x = 0 /\ buffer_ok aw x.

Lemma mcall_ok {A} (f : K -> A * K) w : exists a w', mcall f w = Ok a w' /\ same_tables w w'.
Proof. unfold mcall. destruct (f (md_kern w)) as [a k]. by exists a, (set_kern k w). Qed.

Ltac do_mcall w a w' S :=
  match goal with |- context [(mcall ?f ≫= _) w] =>
    let E := fresh "E" in
    destruct (mcall_ok f w) as (a & w' & E & S); rewrite (bind_ok _ _ _ _ _ E); clear E
  end.

(** The end of the function, for blocks that make up the object. *)
Lemma create_export len pages w w0 :
  same_tables w0 w -> (exists m, blocks_ok aw m (map sg_of pages)) -> total (map sg_of pages) = object_size len ->
  match
    (u ← getW;
     putW {| md_bufs := <[md_next u := {| pb_size := object_size len; pb_kmap_cnt := 0; pb_vaddr := 0;
                                     pb_sg := map (fun e => (fst e, Z.shiftl 1 (snd e) * PAGE_SIZE)) pages |}]>
                             (md_bufs u);
             md_next := S (md_next u); md_files := md_files u; md_kern := md_kern u |} ;;
     ok ← mcall po_export;
     if negb ok then pa_buffer_free (md_next u) ;; fault
     else
       return_fd ← mcall po_dma_buf_fd;
       if decide (return_fd < 0) then pa_dma_buf_release (md_next u) ;; mret return_fd
       else modifyW (fun w => set_files (<[return_fd := md_next u]> (md_files w)) w) ;; mret return_fd) w
  with
  | Ok r w' => (r < 0 /\ md_files w' = md_files w0) \/ (0 <= r /\ created aw len r w0 w')
  | Fault => True
  | _ => False
  end.
Proof.
  intros (Sb & Sn & Sf) Hb Ht. unfold mbind at 1, M_bind at 1, getW.
  match goal with |- context [putW ?u] => set (w1 := u) end. set (b := md_next w) in *.
  unfold mbind at 1, M_bind at 1, putW. do_mcall w1 ok w2 S2. destruct S2 as (Sb2 & Sn2 & Sf2).
  destruct ok; cbn [negb].
  2:{ unfold pa_buffer_free, get_buf, mbind, M_bind, modifyW, fault. by destruct (md_bufs w2 !! b). }
  do_mcall w2 nfd w3 S3. destruct S3 as (Sb3 & Sn3 & Sf3). case_decide.
  - unfold pa_dma_buf_release, pa_buffer_free, get_buf, mbind, M_bind, modifyW.
    destruct (md_bufs w3 !! b); [|done]. cbn. left. split; [lia|]. rewrite Sf3, Sf2. exact Sf.
  - unfold mbind, M_bind, modifyW. cbn. right. split; [lia|].
    eexists. cbn [md_files set_files md_bufs]. rewrite Sf3, Sf2, Sb3, Sb2. unfold w1, b. cbn [md_files md_bufs].
    unfold b in Sn. rewrite Sb, Sn, Sf. split_and!; try reflexivity. split; [exact Hb|exact Ht].
Qed.

(** [portalmem_dmabuffer_create] always ends.  When it returns a descriptor,
    that descriptor denotes a new buffer whose size is the length rounded up to
    pages and whose scatter list is made up of aligned 1 MB, then 64 KB, then
    4 KB blocks that add up to this size; when it returns an error no
    descriptor was created.  (The undefined executions are those in which the
    kernel runs out of memory, see [create_oom_fault].) *)
Lemma create_cases len w : 0 <= len < 2 ^ 63 - 8192 ->
  match portalmem_dmabuffer_create len w with
  | Ok r w' => (r < 0 /\ md_files w' = md_files w) \/ (0 <= r /\ 0 < len /\ created aw len r w w')
  | Fault => True
  | _ => False
  end.
Proof.
  intros Hlen. unfold portalmem_dmabuffer_create. rewrite create_size by done.
  assert (Ho : 0 <= object_size len < 2 ^ 63 /\ object_size len mod 4096 = 0 /\ (object_size len = 0 <-> len = 0))
    by (unfold object_size; zlia).
  rewrite s64_small by lia.
  do_mcall w ok w1 S1. destruct ok; cbn [negb]; [|left; split; [done|by destruct S1 as (_ & _ & ->)]].
  do_mcall w1 ok w2 S2. assert (S2' : same_tables w w2) by (by etrans).
  destruct ok; cbn [negb]; [|left; split; [done|by destruct S2' as (_ & _ & ->)]].
  pose proof (alloc_loop_spec (object_size len) (S (Z.to_nat (object_size len / PAGE_SIZE))) (object_size len) 8 false [] w2) as Hs.
  unfold mbind at 1, M_bind at 1.
  destruct (alloc_loop _ _ _ _ _ w2) as [[i pages] w3| | | |] eqn:E.
  2,3,5: exfalso; apply Hs; unfold PAGE_SIZE; try (by auto); try zlia; by exists [], [], []; split_and!; try constructor; auto.
  2: done.
  destruct Hs as (S3 & Hi & Hz); unfold PAGE_SIZE; try (by auto); try zlia.
  { exists [], [], []. split_and!; try constructor; auto. }
  assert (S3' : same_tables w w3) by (by etrans).
  destruct i.
  - do_mcall w3 ret w4 S4. assert (S4' : same_tables w w4) by (by etrans). destruct (Hi eq_refl) as (m' & Hb & Ht).
    case_decide as Hret.
    + pose proof (create_export len pages w4 w S4' (ex_intro _ m' Hb) Ht) as Hx.
      cbv zeta. unfold PAGE_SIZE in Hx. revert Hx. match goal with |- match ?u with _ => _ end -> _ => destruct u as [r w5| | | |] end; try done.
      intros [?|[? ?]]; [by left|right].
      split_and!; [done| |done]. destruct (decide (len = 0)) as [->|]; [|lia]. discriminate (Hz eq_refl).
    + destruct pages; cbn; [|done]. left. split; [done|by destruct S4' as (_ & _ & ->)].
  - unfold mbind at 1, M_bind at 1. cbn [mret M_ret]. rewrite decide_False by (by intros [? _]).
    destruct pages; cbn; [|done]. left. split; [done|by destruct S3' as (_ & _ & ->)].
Qed.

(** When the kernel runs out of memory after the driver got some blocks, the
    execution is undefined: the error path walks the list of blocks with a
    macro that reads each element after it was released. *)
Theorem create_oom_fault len w k1 k2 w3 e pages : 0 <= len < 2 ^ 63 - 8192 ->
  po_kmalloc (md_kern w) = (true, k1) -> po_kmalloc k1 = (true, k2) ->
  alloc_loop (S (Z.to_nat (object_size len / PAGE_SIZE))) (object_size len) 8 false [] (set_kern k2 w) =
    Ok (false, e :: pages) w3 ->
  portalmem_dmabuffer_create len w = Fault.
Proof.
  intros Hlen H1 H2 Hl. unfold portalmem_dmabuffer_create. rewrite create_size by done.
  rewrite s64_small by (unfold object_size; zlia).
  rewrite (bind_ok _ _ _ true (set_kern k1 w)) by (unfold mcall; by rewrite H1). cbn [negb].
  rewrite (bind_ok _ _ _ true (set_kern k2 w)) by (unfold mcall; cbn; by rewrite H2). cbn [negb].
  by rewrite (bind_ok _ _ _ _ _ Hl).
Qed.

(** ** A kernel with memory *)
Section Reliable.
Hypothesis kmalloc_works : forall k, fst (po_kmalloc k) = true.
Hypothesis pages_left : forall k, exists p k', po_alloc_pages 0 k = (Some p, k').
Hypothesis table_works : forall n k, fst (po_sg_alloc_table n k) = 0.
Hypothesis export_works : forall k, fst (po_export k) = true.
Hypothesis fds_left : forall k, 0 <= fst (po_dma_buf_fd k).

Lemma mcall_fst {A} (f : K -> A * K) a w : fst (f (md_kern w)) = a -> exists w', mcall f w = Ok a w' /\ same_tables w w'.
Proof. unfold mcall. destruct (f (md_kern w)) as [a' k]. cbn. intros <-. by exists (set_kern k w). Qed.

Lemma try_orders_works os rem m w : PAGE_SIZE <= rem -> 0 <= m -> In 0 os ->
  exists p o w', try_orders os rem m w = Ok (Some (p, o)) w'.
Proof.
  intros Hr Hm. revert w. induction os as [|o os IH]; intros w Hin; [done|]. cbn [try_orders].
  assert (Hnext : forall w, (o <> 0 \/ In 0 os) -> exists p o' w', try_orders os rem m w = Ok (Some (p, o')) w').
  { intros w' H. apply IH. destruct Hin as [->|]; [|done]. by destruct H. }
  case_decide as Hd.
  - destruct (po_alloc_pages o (md_kern w)) as [pg k] eqn:E.
    rewrite (bind_ok _ _ _ pg (set_kern k w)) by (unfold mcall; by rewrite E). destruct pg as [p|].
    + destruct (mcall_fst po_kmalloc true (set_kern k w) (kmalloc_works _)) as (w' & E' & _).
      exists p, o, w'. by rewrite (bind_ok _ _ _ _ _ E').
    + apply Hnext. left. intros ->. destruct (pages_left (md_kern w)) as (p & k' & E'). congruence.
  - apply Hnext. left. intros ->. apply Hd. unfold order_size. change (Z.shiftl PAGE_SIZE 0) with PAGE_SIZE. lia.
Qed.

Lemma alloc_loop_works : forall fuel rem m info pages w,
  0 <= rem -> rem mod 4096 = 0 -> rem / 4096 < Z.of_nat fuel -> (m = 8 \/ m = 4 \/ m = 0) ->
  (0 < rem \/ info = true) ->
  exists pages' w', alloc_loop fuel rem m info pages w = Ok (true, pages') w'.
Proof.
  induction fuel as [|fuel IH]; intros rem m info pages w Hr Hal Hf Hm Hi; [zlia|]. cbn [alloc_loop]. case_decide.
  - destruct (try_orders_works orders rem m w) as (p & o & w1 & E); [unfold PAGE_SIZE; zlia|lia|cbn; tauto|].
    pose proof (try_orders_spec orders rem m w ltac:(repeat constructor; lia)) as Hs. rewrite E in Hs.
    destruct Hs as (_ & Ho & _ & Hsz & _). rewrite (bind_ok _ _ _ _ _ E).
    assert (Hsize : Z.shiftl 1 o * PAGE_SIZE = order_size o) by (destruct Ho as [-> | [-> | ->]]; reflexivity).
    assert (Hmod : order_size o mod 4096 = 0 /\ 4096 <= order_size o)
      by (destruct Ho as [-> | [-> | ->]]; split; vm_compute; done).
    rewrite Hsize. apply IH; try zlia; auto.
  - destruct Hi as [?| ->]; [lia|]. by eexists _, _.
Qed.

(** C20: With a kernel that has memory left, [portalmem_dmabuffer_create] succeeds
    for every positive length: it returns a descriptor of a new buffer of
    that size. *)
Theorem create_succeeds len w : 0 < len < 2 ^ 63 - 8192 ->
  exists fd w', portalmem_dmabuffer_create len w = Ok fd w' /\ 0 <= fd /\ created aw len fd w w'.
Proof.
  intros Hlen. pose proof (create_cases len w ltac:(lia)) as Hs.
  cut (exists fd w', portalmem_dmabuffer_create len w = Ok fd w' /\ 0 <= fd).
  { intros (fd & w' & E & Hfd). rewrite E in Hs. exists fd, w'. destruct Hs as [[? _]|(_ & _ & ?)]; [lia|done]. }
  clear Hs. unfold portalmem_dmabuffer_create. rewrite create_size by lia.
  assert (Ho : 0 < object_size len < 2 ^ 63 /\ object_size len mod 4096 = 0) by (unfold object_size; zlia).
  rewrite s64_small by lia.
  destruct (mcall_fst po_kmalloc true w (kmalloc_works _)) as (w1 & E1 & _). rewrite (bind_ok _ _ _ _ _ E1). cbn [negb].
  destruct (mcall_fst po_kmalloc true w1 (kmalloc_works _)) as (w2 & E2 & _). rewrite (bind_ok _ _ _ _ _ E2). cbn [negb].
  destruct (alloc_loop_works (S (Z.to_nat (object_size len / PAGE_SIZE))) (object_size len) 8 false [] w2)
    as (pages & w3 & E3); [lia|lia|unfold PAGE_SIZE; zlia|auto|left; lia|].
  rewrite (bind_ok _ _ _ _ _ E3).
  destruct (mcall_fst (po_sg_alloc_table (Z.of_nat (length pages))) 0 w3 (table_works _ _)) as (w4 & E4 & _).
  rewrite (bind_ok _ _ _ _ _ E4), decide_True by done.
  unfold mbind at 1, M_bind at 1, getW. unfold mbind at 1, M_bind at 1, putW.
  match goal with |- context [(mcall po_export ≫= _) ?u] =>
    destruct (mcall_fst po_export true u (export_works _)) as (w5 & E5 & _) end.
  rewrite (bind_ok _ _ _ _ _ E5). cbn [negb].
  destruct (mcall_fst po_dma_buf_fd _ w5 eq_refl) as (w6 & E6 & _).
  rewrite (bind_ok _ _ _ _ _ E6). rewrite decide_False by (pose proof (fds_left (md_kern w5)); lia).
  eexists _, _. split; [reflexivity|]. apply fds_left.
Qed.
End Reliable.

(** ** From the driver to the hardware *)

(** C3: Whenever [portalmem_dmabuffer_create] returns a descriptor, the buffer
    behind it, given to the hardware with the messages of [send_fd_to_portal],
    is translated by the MMU byte for byte over the length asked for, rounded
    up to pages, and nothing behind it is, provided its scatter list has at
    most 255 blocks (the bound the code does not check) and the machine's
    memory lies within the physical addresses of the build. *)
Theorem created_buffer_translated bsim len fd w w' iid id m0 : width_ok aw ->
  0 <= len < 2 ^ 63 - 8192 -> portalmem_dmabuffer_create len w = Ok fd w' -> 0 <= fd -> id_ok iid id ->
  exists x, (b ← md_files w' !! fd; md_bufs w' !! b) = Some x /\
    ((length (pb_sg x) <= 255)%nat ->
     exists m, mmu_requests iid (sg_requests id (pb_sg x)) m0 = Some m /\
       (forall off, 0 <= off < object_size len -> exists a,
          phys (pb_sg x) off = Some a /\ translate bsim aw iid m id off = TransAddr (response_get bsim aw iid a)) /\
       (forall off, object_size len <= off < 2 ^ 44 ->
          translate bsim aw iid m id off = DmaErrorOffsetOutOfRange)).
Proof.
  intros Haw Hlen Hrun Hfd Hid. pose proof (create_cases len w Hlen) as Hc. rewrite Hrun in Hc.
  destruct Hc as [[? _]|(_ & _ & x & Hf & Hb & Hsz & _ & _ & (m' & l8 & l4 & l0 & Hsg & H8 & H4 & H0 & _) & Ht)]; [lia|].
  exists x. split.
  - rewrite Hf, lookup_insert_eq. cbn. by rewrite Hb, lookup_insert_eq.
  - intros Hn. rewrite <- Hsz, <- Ht, Hsg in *. apply translates; try done.
    rewrite !length_app in Hn. lia.
Qed.
End CreateFacts.

(** * Mapping into a process *)

Definition page_blocks (l : list (Z * Z)) : Prop :=
  Forall (fun e => 0 <= fst e /\ fst e mod 4096 = 0 /\ 0 < snd e < 2 ^ 32 /\ snd e mod 4096 = 0) l.

Lemma blocks_ok_page_blocks aw m l : blocks_ok aw m l -> page_blocks l.
Proof.
  intros (l8 & l4 & l0 & -> & H8 & H4 & H0 & _). unfold page_blocks. rewrite !Forall_app. split_and!.
  - eapply Forall_impl; [exact H8|]. intros [a n] (Hn & Ha & Hm). cbn in *. change (2 ^ 20) with 1048576 in *. zlia.
  - eapply Forall_impl; [exact H4|]. intros [a n] (Hn & Ha & Hm). cbn in *. change (2 ^ 16) with 65536 in *. zlia.
  - eapply Forall_impl; [exact H0|]. intros [a n] (Hn & Ha & Hm). cbn in *. change (2 ^ 12) with 4096 in *. zlia.
Qed.

Lemma remaps_spec vm_end v : forall l addr offset,
  page_blocks l -> 0 <= addr <= v -> v < vm_end < 2 ^ 63 -> 0 <= offset -> offset mod 4096 = 0 ->
  offset + (v - addr) < total l ->
  exists s pfn n, In (s, pfn, n) (remaps l addr offset vm_end) /\ s <= v < s + n /\
    phys l (offset + (v - addr)) = Some (pfn * 4096 + (v - s)).
Proof.
  induction l as [|[a len] l IH]; intros addr offset Hl Hv Hend Ho Hom Ht; cbn [total] in Ht; [lia|].
  inversion Hl as [|? ? (Ha & Ham & Hn & Hnm) Hl']; subst. cbn [fst snd] in *. cbn [remaps phys].
  case_decide as Hd.
  - destruct (IH addr (offset - len) Hl') as (s & pfn & n & Hin & Hs & Hp); [lia|lia|lia|zlia|lia|].
    exists s, pfn, n. split_and!; [done|lia|lia|]. rewrite decide_False by lia.
    rewrite <- Hp. f_equal. lia.
  - rewrite (u64_small (vm_end - addr)) by lia.
    replace (if decide (offset <> 0) then len - offset else len) with (len - offset) by (case_decide; lia).
    replace (if decide (offset <> 0) then offset / PAGE_SIZE else 0) with (offset / 4096)
      by (unfold PAGE_SIZE; case_decide as Hz; [done|]; replace offset with 0 by lia; done).
    rewrite u32_small by lia. set (n := Z.min (len - offset) (vm_end - addr)).
    rewrite u64_small by lia.
    destruct (decide (v < addr + n)) as [Hin|Hout].
    + exists addr, (a / PAGE_SIZE + offset / 4096), n. split_and!; [by left|lia|lia|].
      rewrite decide_True by lia. f_equal. unfold PAGE_SIZE. zlia.
    + assert (Hn' : n = len - offset) by lia. rewrite decide_False by lia.
      destruct (IH (addr + n) 0 Hl') as (s & pfn & n' & Hin & Hs & Hp); [lia|lia|lia|done|lia|].
      exists s, pfn, n'. split_and!; [by right|lia|lia|]. rewrite decide_False by lia.
      rewrite <- Hp. f_equal. lia.
Qed.

Section MapFacts.
Context {K : Type} `{!PageOs K}.
Local Abbreviation W := (MemDrv K).
Implicit Types (w : W).

(** After [pa_dma_buf_mmap] every address of the mapping that lies in the
    buffer is backed by the physical address of that byte of the buffer,
    counted from the offset of the mapping. *)
Theorem mmap_backs_buffer aw b x vm_start vm_end vm_pgoff v w :
  md_bufs w !! b = Some x -> buffer_ok aw x ->
  0 <= vm_start <= v -> v < vm_end < 2 ^ 63 -> 0 <= vm_pgoff < 2 ^ 50 ->
  vm_pgoff * 4096 + (v - vm_start) < pb_size x ->
  exists calls s pfn n, pa_dma_buf_mmap b vm_start vm_end vm_pgoff w = Ok (calls, 0) w /\
    In (s, pfn, n) calls /\ s <= v < s + n /\
    phys (pb_sg x) (vm_pgoff * 4096 + (v - vm_start)) = Some (pfn * 4096 + (v - s)).
Proof.
  intros Hx ((m & Hb) & Ht) Hv Hend Hpg Hlt.
  destruct (remaps_spec vm_end v (pb_sg x) vm_start (vm_pgoff * 4096)) as (s & pfn & n & Hin & Hs & Hp);
    [by eapply blocks_ok_page_blocks|lia|lia|lia|zlia|lia|].
  exists (remaps (pb_sg x) vm_start (vm_pgoff * 4096) vm_end), s, pfn, n. split_and!; [|done|lia|lia|done].
  unfold pa_dma_buf_mmap, get_buf, mbind, M_bind. rewrite Hx. unfold PAGE_SIZE. by rewrite u64_small by lia.
Qed.

(** ** Mapping into the kernel *)

Lemma length_frames p n : length (frames p n) = n.
Proof. revert p. induction n as [|n IH]; intros p; [done|]. cbn. by rewrite IH. Qed.

Lemma frames_lookup p n i : (i < n)%nat -> frames p n !! i = Some (p + Z.of_nat i).
Proof.
  revert p i. induction n as [|n IH]; intros p [|i] Hi; [lia|lia|cbn; f_equal; lia|].
  cbn [frames lookup list_lookup]. change (frames (p + 1) n !! i = Some (p + Z.of_nat (S i))).
  rewrite IH by lia. f_equal. lia.
Qed.

Lemma npages_block len : 0 < len < 2 ^ 31 -> len mod 4096 = 0 -> npages 32 len = len / 4096.
Proof.
  intros H Hm. unfold npages, PAGE_ALIGN. rewrite land_lnot_page. unfold PAGE_SIZE.
  rewrite wrap_small by lia. rewrite s32_small by zlia. zlia.
Qed.

Definition small_blocks (l : list (Z * Z)) : Prop := Forall (fun e => snd e < 2 ^ 31) l.

Fixpoint frame_list (l : list (Z * Z)) : list Z :=
  match l with [] => [] | (a, len) :: l => frames (a / 4096) (Z.to_nat (len / 4096)) ++ frame_list l end.

Lemma length_frame_list l : page_blocks l -> Z.of_nat (length (frame_list l)) = total l / 4096 /\
  total l mod 4096 = 0 /\ 0 <= total l /\ Z.of_nat (length l) <= total l / 4096.
Proof.
  induction 1 as [|[a n] l (Ha & Ham & Hn & Hnm) _ IH]; [done|]. cbn [frame_list total length fst snd] in *.
  rewrite length_app, length_frames. zlia.
Qed.

Lemma fill_pages_spec n l : forall i acc w,
  page_blocks l -> small_blocks l -> 0 <= i -> i + Z.of_nat (length l) <= n ->
  fill_pages l i n acc w = Ok (acc ++ frame_list l) w.
Proof.
  induction l as [|[a len] l IH]; intros i acc w Hl Hs Hi Hn; cbn [fill_pages frame_list]; [by rewrite app_nil_r|].
  inversion Hl as [|? ? (Ha & Ham & Hlen & Hlm) Hl']; inversion Hs as [|? ? Hsm Hs']; subst. cbn [fst snd length] in *.
  unfold mbind, M_bind, assert. rewrite bool_decide_eq_true_2 by lia.
  rewrite IH by (done || lia). rewrite npages_block by lia. unfold PAGE_SIZE. by rewrite <- app_assoc.
Qed.

(** The frames are the pages of the buffer in order. *)
Lemma frame_list_phys l i : page_blocks l -> 0 <= i < total l / 4096 ->
  exists f, frame_list l !! Z.to_nat i = Some f /\ phys l (i * 4096) = Some (f * 4096).
Proof.
  intros Hl. revert i. induction Hl as [|[a n] l (Ha & Ham & Hn & Hnm) Hl IH]; intros i Hi; cbn [total] in Hi.
  { change (0 / 4096) with 0 in Hi. lia. }
  cbn [frame_list phys fst snd] in *. pose proof (length_frame_list l Hl) as (Hll & Htm & Ht0 & _).
  case_decide as Hd.
  - exists (a / 4096 + i). split.
    + rewrite lookup_app_l by (rewrite length_frames; zlia). rewrite frames_lookup by zlia. f_equal. lia.
    + f_equal. zlia.
  - destruct (IH (i - n / 4096)) as (f & Hf & Hp); [zlia|]. exists f. split.
    + rewrite lookup_app_r by (rewrite length_frames; zlia). rewrite length_frames, <- Hf. f_equal. zlia.
    + rewrite <- Hp. f_equal. zlia.
Qed.

Lemma npages_size x : 0 <= x < 2 ^ 42 -> x mod 4096 = 0 -> npages 64 x = x / 4096.
Proof.
  intros H Hm. unfold npages, PAGE_ALIGN. rewrite land_lnot_page. unfold PAGE_SIZE.
  rewrite wrap_small by lia. rewrite s32_small by zlia. zlia.
Qed.

Lemma get_buf_ok b x w : md_bufs w !! b = Some x -> get_buf b w = Ok x w.
Proof. intros H. unfold get_buf. by rewrite H. Qed.

Definition with_buf (b : nat) (x : pa_buffer) (w : W) : W := set_bufs (<[b := x]> (md_bufs w)) w.
Definition mapped_buf (cnt va : Z) (x : pa_buffer) : pa_buffer :=
  {| pb_size := pb_size x; pb_kmap_cnt := cnt; pb_vaddr := va; pb_sg := pb_sg x |}.

Lemma with_buf_twice b x y w : with_buf b x (with_buf b y w) = with_buf b x w.
Proof. unfold with_buf, set_bufs. cbn. by rewrite insert_insert_eq. Qed.

Fixpoint begins (n : nat) (b : nat) : M W unit :=
  match n with O => mret tt | S n => rc ← pa_dma_buf_begin_cpu_access b; assert (bool_decide (rc = 0)) ;; begins n b end.
Fixpoint ends (n : nat) (b : nat) : M W unit :=
  match n with O => mret tt | S n => pa_dma_buf_end_cpu_access b ;; ends n b end.

Lemma begins_mapped n : forall b x cnt va w, md_bufs w !! b = Some (mapped_buf cnt va x) -> va <> 0 ->
  1 <= cnt -> cnt + Z.of_nat n < 2 ^ 31 ->
  begins n b w = Ok tt (with_buf b (mapped_buf (cnt + Z.of_nat n) va x) w).
Proof.
  induction n as [|n IH]; intros b x cnt va w Hb Hva Hc Hn; cbn [begins].
  - unfold with_buf, set_bufs. rewrite Z.add_0_r. rewrite insert_id by done. by destruct w.
  - erewrite bind_ok. 2:{ unfold pa_dma_buf_begin_cpu_access. rewrite (bind_ok _ _ _ _ _ (get_buf_ok _ _ _ Hb)).
      cbn [mapped_buf pb_kmap_cnt pb_vaddr]. rewrite decide_False by lia. rewrite decide_False by done. reflexivity. }
    unfold mbind, M_bind, assert. rewrite bool_decide_eq_true_2 by done.
    change (set_bufs _ w) with (with_buf b (mapped_buf (s32 (cnt + 1)) va x) w). rewrite s32_small by lia.
    rewrite (IH b x (cnt + 1) va) by (try apply lookup_insert_eq; done || lia).
    rewrite with_buf_twice. do 3 f_equal. lia.
Qed.

Lemma end_access_ok b x cnt va w : md_bufs w !! b = Some (mapped_buf cnt va x) -> 1 <= cnt < 2 ^ 31 ->
  pa_dma_buf_end_cpu_access b w =
  Ok tt (with_buf b (mapped_buf (cnt - 1) (if decide (cnt - 1 = 0) then 0 else va) x) w).
Proof.
  intros Hb Hc. unfold pa_dma_buf_end_cpu_access. rewrite (bind_ok _ _ _ _ _ (get_buf_ok _ _ _ Hb)).
  cbn [mapped_buf pb_kmap_cnt pb_vaddr pb_size pb_sg]. by rewrite s32_small by lia.
Qed.

Lemma ends_mapped n : forall b x va w, md_bufs w !! b = Some (mapped_buf (Z.of_nat (S n)) va x) ->
  Z.of_nat (S n) < 2 ^ 31 -> ends (S n) b w = Ok tt (with_buf b (mapped_buf 0 0 x) w).
Proof.
  induction n as [|n IH]; intros b x va w Hb Hn.
  - cbn [ends]. by rewrite (bind_ok _ _ _ _ _ (end_access_ok _ _ _ _ _ Hb ltac:(lia))).
  - change (ends (S (S n)) b) with (pa_dma_buf_end_cpu_access b ;; ends (S n) b).
    rewrite (bind_ok _ _ _ _ _ (end_access_ok _ _ _ _ _ Hb ltac:(lia))). rewrite decide_False by lia.
    replace (Z.of_nat (S (S n)) - 1) with (Z.of_nat (S n)) by lia.
    rewrite (IH b x va) by (try apply lookup_insert_eq; lia). by rewrite with_buf_twice.
Qed.

(** The first of [n + 1] nested CPU accesses maps the buffer into the kernel,
    with exactly its pages in order and one call of [vmap]; the others reuse
    the mapping, and as many ends leave the buffer unmapped as before. *)
Theorem cpu_access_maps_once aw n b x k1 k2 va w :
  md_bufs w !! b = Some x -> buffer_ok aw x -> small_blocks (pb_sg x) -> pb_size x < 2 ^ 42 ->
  pb_kmap_cnt x = 0 -> pb_vaddr x = 0 -> Z.of_nat (S n) < 2 ^ 31 ->
  po_vmalloc (md_kern w) = (true, k1) -> po_vmap (frame_list (pb_sg x)) k1 = (VAddr va, k2) -> va <> 0 ->
  begins (S n) b w = Ok tt (with_buf b (mapped_buf (Z.of_nat (S n)) va x) (set_kern k2 w)) /\
  (begins (S n) b ;; ends (S n) b) w = Ok tt (set_kern k2 w) /\
  (forall i, 0 <= i < pb_size x / 4096 -> exists f,
     frame_list (pb_sg x) !! Z.to_nat i = Some f /\ phys (pb_sg x) (i * 4096) = Some (f * 4096)).
Proof.
  intros Hx ((m & Hbl) & Ht) Hsm Hsz Hc Hva0 Hn H1 H2 Hva. pose proof (blocks_ok_page_blocks _ _ _ Hbl) as Hpb.
  pose proof (length_frame_list _ Hpb) as (Hfl & Htm & Ht0 & Hle). rewrite Ht in *.
  set (w1 := with_buf b (mapped_buf 1 va x) (set_kern k2 w)).
  assert (Hbeg : begins (S n) b w = Ok tt (with_buf b (mapped_buf (Z.of_nat (S n)) va x) (set_kern k2 w))).
  { cbn [begins]. rewrite (bind_ok _ _ _ 0 w1).
    - unfold mbind, M_bind, assert. rewrite bool_decide_eq_true_2 by done.
      rewrite (begins_mapped n b x 1 va) by (try apply lookup_insert_eq; done || lia).
      unfold w1. rewrite with_buf_twice. do 3 f_equal. lia.
    - unfold pa_dma_buf_begin_cpu_access. rewrite (bind_ok _ _ _ _ _ (get_buf_ok _ _ _ Hx)), Hc, decide_True by done.
      rewrite npages_size by lia.
      rewrite (bind_ok _ _ _ (VAddr va) (set_kern k2 w)); [done|].
      rewrite (bind_ok _ _ _ true (set_kern k1 w)) by (unfold mcall; by rewrite H1).
      erewrite bind_ok by (apply fill_pages_spec; done || lia). cbn [app]. rewrite decide_True by done.
      unfold mcall. cbn. by rewrite H2. }
  split_and!; [exact Hbeg| |].
  - rewrite (bind_ok _ _ _ _ _ Hbeg).
    rewrite (ends_mapped n b x va) by (try apply lookup_insert_eq; lia). rewrite with_buf_twice.
    unfold with_buf, set_bufs. cbn. f_equal. rewrite insert_id; [by destruct w|].
    rewrite Hx. f_equal. destruct x. cbn in *. by subst.
  - intros i Hi. apply frame_list_phys; [done|by rewrite Ht].
Qed.
End MapFacts.

(** * The driver behind [send_fd_to_portal] *)
Section DriverSend.
Context {K : Type} `{!PageOs K} `{!Device (MemDrv K)} `{!PortalOs (MemDrv K)}.

Definition run_ioctl {A} (d : A) (m : M (MemDrv K) A) (k : MemDrv K) : A * MemDrv K :=
  match m k with Ok a k' => (a, k') | _ => (d, k) end.

(** The ioctls of the memory driver; [PCIE_SEND_FD] belongs to another driver. *)
Variable pcie_send_fd : Z -> Z -> Z -> MemDrv K -> Z * MemDrv K.

Definition portalmem_os : MemOs (MemDrv K) :=
  {| mo_dma_count := fun _ fd k =>
       let '(r, k) := run_ioctl (- EFAULT, 0, []) (pa_dma_addresses true fd 0) k in ((fst (fst r), snd (fst r)), k);
     mo_dma_entries := fun _ fd n k =>
       let '(r, k) := run_ioctl (- EFAULT, 0, []) (pa_dma_addresses true fd n) k in ((fst (fst r), snd r), k);
     mo_element_size := fun _ fd i k => run_ioctl (- EFAULT) (pa_element_size true fd i) k;
     mo_sg_table := fun fd k => fst (run_ioctl [] (b ← buf_of_fd fd; pa_dma_buf_map b) k);
     mo_pcie_send_fd := pcie_send_fd |}.

Lemma dma_addresses_ok fd n b x (k : MemDrv K) : md_files k !! fd = Some b -> md_bufs k !! b = Some x ->
  pa_dma_addresses true fd n k =
  Ok (0, Z.of_nat (length (pb_sg x)), if decide (n > 0) then pb_sg x else []) k.
Proof.
  intros Hf Hb. unfold pa_dma_addresses. cbn [negb]. unfold buf_of_fd, get_buf, mbind, M_bind. by rewrite Hf, Hb.
Qed.

Lemma sg_table_ok fd b x (k : MemDrv K) : md_files k !! fd = Some b -> md_bufs k !! b = Some x ->
  fst (run_ioctl [] (b ← buf_of_fd fd; pa_dma_buf_map b) k) = pb_sg x.
Proof.
  intros Hf Hb. unfold run_ioctl, pa_dma_buf_map, buf_of_fd, get_buf, mbind, M_bind. by rewrite Hf, Hb.
Qed.

(** C22: [send_fd_to_portal] on a descriptor of the memory driver, in user space
    through its ioctls and in the kernel through its scatter list, sends the
    messages for exactly the blocks of the buffer. *)
Theorem driver_send_fd tab fuel dev fd id pa_fd b x (w : World (MemDrv K)) :
  md_files (w_kern w) !! fd = Some b -> md_bufs (w_kern w) !! b = Some x -> pb_sg x <> [] ->
  send_fd_to_portal (MemOs0 := portalmem_os) tab USER fuel dev fd id pa_fd w =
    (mmu_calls tab dev (sg_requests id (pb_sg x)) ;; mret id) w /\
  send_fd_to_portal (MemOs0 := portalmem_os) tab KERNEL fuel dev fd id pa_fd w =
    (mmu_calls tab dev (sg_requests id (pb_sg x)) ;; mret id) w.
Proof.
  intros Hf Hb Hne.
  assert (Hpos : Z.of_nat (length (pb_sg x)) > 0) by (destruct (pb_sg x); [done|cbn; lia]).
  assert (Hid : set_w_kern (w_kern w) w = w) by (by destruct w).
  destruct (send_fd_cases (MemOs0 := portalmem_os) tab fuel dev fd id pa_fd w (Z.of_nat (length (pb_sg x)))
    (pb_sg x) (w_kern w) (w_kern w) 0 0) as (_ & _ & HU & HK).
  - cbn [mo_dma_count portalmem_os]. unfold run_ioctl. by rewrite (dma_addresses_ok fd 0 b x).
  - cbn [mo_dma_entries portalmem_os]. unfold run_ioctl. rewrite (dma_addresses_ok fd _ b x) by done.
    by rewrite decide_True.
  - lia.
  - by rewrite Nat2Z.id.
  - split.
    + rewrite HU by done. by rewrite Hid.
    + rewrite HK. cbn [mo_sg_table portalmem_os]. by rewrite (sg_table_ok fd b x).
Qed.
End DriverSend.

(** * A concrete kernel: 1024 blocks of 1 MB, given out in turn *)
Module MemDemo.
#[local] Instance kern : PageOs Z :=
  {| po_kmalloc := fun k => (true, k);
     po_alloc_pages := fun _ k => (Some ((k mod 1024) * 2 ^ 20), k + 1);
     po_sg_alloc_table := fun _ k => (0, k); po_export := fun k => (true, k);
     po_dma_buf_fd := fun k => (5, k); po_vmalloc := fun k => (true, k);
     po_vmap := fun _ k => (VAddr 0x10000, k) |}.
#[local] Instance kern_laws : PageOsLaws Z 40.
Proof.
  split. intros o k p k' Ho [= <- _]. pose proof (Z.mod_pos_bound k 1024). split; [lia|].
  destruct Ho as [-> | [-> | ->]]; cbn [Z.add Pos.add Pos.succ Pos.add_carry];
    change (2 ^ 20) with 1048576; change (2 ^ 16) with 65536; change (2 ^ 12) with 4096; zlia.
Qed.
Definition w0 : MemDrv Z := {| md_bufs := ∅; md_next := 0; md_files := ∅; md_kern := 1 |}.

Lemma create_succeeds_witness :
  exists fd w', portalmem_dmabuffer_create 0x11800 w0 = Ok fd w' /\ 0 <= fd /\ created 40 0x11800 fd w0 w'.
Proof.
  apply (create_succeeds (K := Z)); try done.
  intros k. by eexists _, _.
Defined.

(** 70 KB: one 64 KB block and two pages. *)
Definition buf : pa_buffer :=
  {| pb_size := 0x12000; pb_kmap_cnt := 0; pb_vaddr := 0;
     pb_sg := [(0x100000, 0x10000); (0x200000, 0x1000); (0x300000, 0x1000)] |}.
Definition w1 : MemDrv Z := {| md_bufs := {[ 0%nat := buf ]}; md_next := 1; md_files := {[ 5 := 0%nat ]}; md_kern := 4 |}.

Lemma buf_ok : buffer_ok 40 buf.
Proof.
  split; [|reflexivity]. exists 0, [], [(0x100000, 0x10000)], [(0x200000, 0x1000); (0x300000, 0x1000)].
  split_and!; [done| | | |auto]; repeat constructor; cbn; lia.
Qed.

Lemma created_buffer_translated_witness :
  portalmem_dmabuffer_create 0x11800 w0 = Ok 5 w1 /\
  exists x, (b ← md_files w1 !! 5; md_bufs w1 !! b) = Some x /\
    ((length (pb_sg x) <= 255)%nat ->
     exists m, mmu_requests 0 (sg_requests 3 (pb_sg x)) {| pages := ∅; regall := ∅ |} = Some m /\
       (forall off, 0 <= off < object_size 0x11800 -> exists a,
          phys (pb_sg x) off = Some a /\ translate false 40 0 m 3 off = TransAddr a) /\
       (forall off, object_size 0x11800 <= off < 2 ^ 44 ->
          translate false 40 0 m 3 off = DmaErrorOffsetOutOfRange)).
Proof.
  split; [vm_compute; reflexivity|].
  apply (created_buffer_translated (aw := 40) false 0x11800 5 w0 w1 0 3 {| pages := ∅; regall := ∅ |}).
  - unfold width_ok. lia.
  - lia.
  - vm_compute. reflexivity.
  - lia.
  - split; [lia|reflexivity].
Defined.

Lemma mmap_backs_buffer_witness :
  exists calls s pfn n, pa_dma_buf_mmap 0 0x7f0000 0x802000 1 w1 = Ok (calls, 0) w1 /\
    In (s, pfn, n) calls /\ s <= 0x7ff123 < s + n /\
    phys (pb_sg buf) (1 * 4096 + (0x7ff123 - 0x7f0000)) = Some (pfn * 4096 + (0x7ff123 - s)).
Proof.
  apply (mmap_backs_buffer 40 0 buf 0x7f0000 0x802000 1 0x7ff123 w1 eq_refl buf_ok); cbn; lia.
Defined.

Lemma cpu_access_maps_once_witness :
  (begins 3 0 ;; ends 3 0) w1 = Ok tt (set_kern 4 w1).
Proof.
  apply (cpu_access_maps_once 40 2 0 buf 4 4 0x10000 w1 eq_refl buf_ok); try reflexivity; try (cbn; lia).
  repeat constructor; cbn; lia.
Defined.

#[local] Instance dev : Device (MemDrv Z) :=
  {| mmio_read := fun _ k => (0, k); mmio_write := fun _ _ k => k; dev_tick := fun k => k |}.
#[local] Instance os : PortalOs (MemDrv Z) :=
  {| os_open_portal := fun _ k => (-1, k); os_open_portalmem := fun k => (3, k);
     os_pa_malloc := fun _ size k => run_ioctl (- EFAULT) (pa_unlocked_ioctl true (PA_MALLOC size)) k;
     os_mmap := fun _ _ k => (MAP_FAILED, k); os_errno := fun _ => 0 |}.
Definition no_send (_ _ _ : Z) (k : MemDrv Z) : Z * MemDrv Z := (0, k).
Definition dw : World (MemDrv Z) := set_w_pints {[ 0%nat := set_item (Some hardwarefunc) PortalInternal_zero ]} (start_world w1).
Definition tab (i : ItemId) : PortalItemFunctions (MemDrv Z) :=
  {| it_init := fun _ _ => mret 0; it_read := fun _ a => mret (0, a); it_write := fun _ a _ => mret a;
     it_writefd := fun _ a _ => mret a; it_mapchannelInd := fun _ _ => mret NULL;
     it_mapchannelReq := fun _ _ => mret NULL; it_send := fun _ _ _ _ => mret tt;
     it_recv := fun _ _ _ => mret (0, None); it_busywait := fun _ _ => mret 0;
     it_enableint := fun _ _ => mret tt; it_event := fun _ => mret 0 |}.

Lemma driver_send_fd_witness :
  send_fd_to_portal (MemOs0 := portalmem_os no_send) tab USER 0 0 5 3 3 dw = Ok 3 dw.
Proof.
  destruct (driver_send_fd no_send tab 0 0 5 3 3 0%nat buf dw eq_refl eq_refl) as [H _]; [discriminate|].
  rewrite H. vm_compute. reflexivity.
Defined.

(** A kernel that has one block only. *)
Module Oom.
#[local] Instance kern1 : PageOs Z :=
  {| po_kmalloc := fun k => (true, k);
     po_alloc_pages := fun _ k => if decide (k = 0) then (Some 0x100000, 1) else (None, k);
     po_sg_alloc_table := fun _ k => (0, k); po_export := fun k => (true, k);
     po_dma_buf_fd := fun k => (5, k); po_vmalloc := fun k => (true, k);
     po_vmap := fun _ k => (VNull, k) |}.
Definition w : MemDrv Z := {| md_bufs := ∅; md_next := 0; md_files := ∅; md_kern := 0 |}.

Lemma create_oom_fault_witness : portalmem_dmabuffer_create 0x2000 w = Fault.
Proof.
  apply (create_oom_fault 0x2000 w 0 0 (set_kern 1 w) (0x100000, 0) []); [lia|reflexivity|reflexivity|].
  vm_compute. reflexivity.
Defined.
End Oom.
End MemDemo.
