(* ===== verification/PcieDriver.v ===== *)
(** The PCIe driver [drivers/pcieportal/pcieportal.c]: bringing a board up and
    down, its device files, and the ioctls; and the transport table the driver
    uses for the board's MMU, [cpp/portalKernel.h].

    What the kernel holds for the driver (the enabled device, regions, mappings,
    interrupts, device nodes, ...) is a record of its own, so that the theorems
    can say what is released. *)

From stdpp Require Import base gmap list fin_maps.
From Stdlib Require Import ZArith Lia.
From S2P Require Import Prelude PortalTypes PortalCore PortalCodec SendFd.

Definition BLUESPEC_VENDOR_ID : Z := 0x1be7.
Definition CONNECTAL_DEVICE_ID : Z := 0xc100.
Definition CSR_ID : Z := 0.
Definition CSR_TLPDATAFIFO_DEQ : Z := Z.shiftl 768 2.
Definition CSR_TLPTRACELENGTHREG : Z := Z.shiftl 774 2.
Definition CSR_TLPTRACINGREG : Z := Z.shiftl 775 2.
(** [CSR_TLPDATABRAMRESPONSESLICE0] .. [5] *)
Definition CSR_TLPDATABRAMRESPONSESLICE (i : Z) : Z := Z.shiftl (776 + i) 2.
Definition CSR_TLPPCIEWRADDRREG : Z := Z.shiftl 792 2.
Definition CSR_MSIX_MSG_DATA : Z := Z.shiftl 1026 2.
Definition CSR_MSIX_MASKED : Z := Z.shiftl 1027 2.
Definition PCR_IID_OFFSET : Z := 0x010.
Definition PCR_TOP_OFFSET : Z := 0x014.
Definition NUM_BOARDS : Z := 1.
Definition MAX_NUM_PORTALS : Z := 16.

(** 'B' 'l' 'u' 'e' 's' 'p' 'e' 'c', the first character in the lowest byte. *)
Definition expected_magic : Z :=
  Z.lor 0x42 (Z.lor (Z.shiftl 0x6c 8) (Z.lor (Z.shiftl 0x75 16) (Z.lor (Z.shiftl 0x65 24)
  (Z.lor (Z.shiftl 0x73 32) (Z.lor (Z.shiftl 0x70 40) (Z.lor (Z.shiftl 0x65 48) (Z.shiftl 0x63 56))))))).

Definition ENXIO : Z := 6.
Definition EAGAIN : Z := 11.
Definition EBUSY : Z := 16.
Definition EFAULT : Z := 14.
Definition EINVAL : Z := 22.
Definition EIO : Z := 5.
Definition ENOTTY : Z := 25.

(** * Data *)

(** [tPortal]: [board] and [extra] are pointers that are null or not. *)
Record tPortal : Type := {
  portal_number : Z; device_name : Z; has_board : bool; virt : option Z; regs : option Z; extra : bool }.

(** [tBoard]; mapped registers are byte addresses. *)
Record tBoard : Type := {
  bar0io : option Z; bar1io : option Z; bar2io : option Z;
  pci_dev : bool;
  portal : list tPortal;
  board_number : Z;
  num_portals : Z;
  irq_num : Z;
  open_count : Z
}.

Definition tPortal_zero : tPortal :=
  {| portal_number := 0; device_name := 0; has_board := false; virt := None; regs := None; extra := false |}.
Definition tBoard_zero : tBoard :=
  {| bar0io := None; bar1io := None; bar2io := None; pci_dev := false;
     portal := replicate (Z.to_nat MAX_NUM_PORTALS) tPortal_zero;
     board_number := 0; num_portals := 0; irq_num := 0; open_count := 0 |}.

Definition set_bars (b0 b1 b2 : option Z) (b : tBoard) : tBoard :=
  {| bar0io := b0; bar1io := b1; bar2io := b2; pci_dev := pci_dev b; portal := portal b;
     board_number := board_number b; num_portals := num_portals b; irq_num := irq_num b;
     open_count := open_count b |}.
Definition set_pci_dev (v : bool) (b : tBoard) : tBoard :=
  {| bar0io := bar0io b; bar1io := bar1io b; bar2io := bar2io b; pci_dev := v; portal := portal b;
     board_number := board_number b; num_portals := num_portals b; irq_num := irq_num b;
     open_count := open_count b |}.
Definition set_portal (v : list tPortal) (b : tBoard) : tBoard :=
  {| bar0io := bar0io b; bar1io := bar1io b; bar2io := bar2io b; pci_dev := pci_dev b; portal := v;
     board_number := board_number b; num_portals := num_portals b; irq_num := irq_num b;
     open_count := open_count b |}.
Definition set_num_portals (v : Z) (b : tBoard) : tBoard :=
  {| bar0io := bar0io b; bar1io := bar1io b; bar2io := bar2io b; pci_dev := pci_dev b; portal := portal b;
     board_number := board_number b; num_portals := v; irq_num := irq_num b; open_count := open_count b |}.
Definition set_irq_num (v : Z) (b : tBoard) : tBoard :=
  {| bar0io := bar0io b; bar1io := bar1io b; bar2io := bar2io b; pci_dev := pci_dev b; portal := portal b;
     board_number := board_number b; num_portals := num_portals b; irq_num := v; open_count := open_count b |}.
Definition set_open_count (v : Z) (b : tBoard) : tBoard :=
  {| bar0io := bar0io b; bar1io := bar1io b; bar2io := bar2io b; pci_dev := pci_dev b; portal := portal b;
     board_number := board_number b; num_portals := num_portals b; irq_num := irq_num b; open_count := v |}.

(** What the kernel holds for a device. *)
Record Held : Type := {
  h_enabled : bool;        (* pci_enable_device *)
  h_regions : list Z;      (* pci_request_region *)
  h_maps : list Z;         (* pci_iomap, by address *)
  h_msix : bool;           (* pci_enable_msix *)
  h_irqs : list Z;         (* request_irq *)
  h_master : bool;         (* pci_set_master *)
  h_cdevs : list Z;        (* cdev_add, by minor offset *)
  h_nodes : list Z;        (* device_create *)
  h_drvdata : bool         (* pci_set_drvdata *)
}.
Definition nothing_held : Held :=
  {| h_enabled := false; h_regions := []; h_maps := []; h_msix := false; h_irqs := []; h_master := false;
     h_cdevs := []; h_nodes := []; h_drvdata := false |}.

(** [traceInfo], without the copy of [resource[2].start]. *)
Record tTraceInfo : Type := { ti_base : Z; ti_trace : Z; ti_traceLength : Z; ti_intval : list Z; ti_name : list Z }.

(** The device: its identity and the start of BAR 2. *)
Record pci_device : Type := { vendor : Z; device : Z; bar2_start : Z }.

(** The kernel services; 0 is success for those that return a status. *)
Class PciOs (K : Type) : Type := {
  pk_enable : K -> Z * K;
  pk_request_region : Z -> K -> Z * K;
  pk_iomap : Z -> Z -> K -> option Z * K;
  pk_set_dma_mask : K -> Z * K;
  pk_enable_msix : K -> (Z * Z) * K;     (* status, first vector *)
  pk_request_irq : Z -> K -> Z * K;
  pk_disable_irq : Z -> K -> unit * K;   (* waits for a running handler *)
  pk_cdev_add : Z -> K -> Z * K;
  pk_dma_alloc : Z -> K -> (option Z * Z) * K;  (* address, dma handle *)
  pk_remap : Z -> Z -> K -> Z * K        (* io_remap_pfn_range of a frame and a length *)
}.

Record Drv {K : Type} : Type := {
  d_board : tBoard;              (* board_map[0], the only board *)
  d_held : Held;
  d_trace : tTraceInfo;
  d_trace_index : Z;
  d_dma_handle : list Z;         (* of extra_portal_info *)
  d_kern : K
}.
Arguments Drv K : clear implicits.

Section Pcie.
Context {K : Type} `{!Device K} `{!PciOs K}.
Local Abbreviation W := (Drv K).

Definition dupd_board (f : tBoard -> tBoard) : M W unit := modifyW (fun w =>
  {| d_board := f (d_board w); d_held := d_held w; d_trace := d_trace w; d_trace_index := d_trace_index w;
     d_dma_handle := d_dma_handle w; d_kern := d_kern w |}).
Definition dupd_held (f : Held -> Held) : M W unit := modifyW (fun w =>
  {| d_board := d_board w; d_held := f (d_held w); d_trace := d_trace w; d_trace_index := d_trace_index w;
     d_dma_handle := d_dma_handle w; d_kern := d_kern w |}).
Definition dput_trace (t : tTraceInfo) (i : Z) : M W unit := modifyW (fun w =>
  {| d_board := d_board w; d_held := d_held w; d_trace := t; d_trace_index := i;
     d_dma_handle := d_dma_handle w; d_kern := d_kern w |}).
Definition dcall {A} (f : K -> A * K) : M W A := fun w =>
  let '(a, k) := f (d_kern w) in
  Ok a {| d_board := d_board w; d_held := d_held w; d_trace := d_trace w; d_trace_index := d_trace_index w;
          d_dma_handle := d_dma_handle w; d_kern := k |}.
Definition dboard : M W tBoard := fun w => Ok (d_board w) w.

(** [ioread32] and [iowrite32] at an offset of a mapped BAR. *)
Definition ioread32 (bar : option Z) (off : Z) : M W Z :=
  a ← defined bar; v ← dcall (mmio_read (a + off)); mret (u32 v).
Definition iowrite32 (v : Z) (bar : option Z) (off : Z) : M W unit :=
  a ← defined bar; dcall (fun k => (tt, mmio_write (a + off) (u32 v) k)).

(** ** Acquiring and releasing *)
Definition pci_enable_device : M W Z :=
  rc ← dcall pk_enable;
  (if decide (rc = 0) then dupd_held (fun h =>
     {| h_enabled := true; h_regions := h_regions h; h_maps := h_maps h; h_msix := h_msix h; h_irqs := h_irqs h;
        h_master := h_master h; h_cdevs := h_cdevs h; h_nodes := h_nodes h; h_drvdata := h_drvdata h |})
   else mret tt) ;; mret rc.
Definition pci_disable_device : M W unit := dupd_held (fun h =>
  {| h_enabled := false; h_regions := h_regions h; h_maps := h_maps h; h_msix := h_msix h; h_irqs := h_irqs h;
     h_master := h_master h; h_cdevs := h_cdevs h; h_nodes := h_nodes h; h_drvdata := h_drvdata h |}).
Definition set_regions (v : list Z) (h : Held) : Held :=
  {| h_enabled := h_enabled h; h_regions := v; h_maps := h_maps h; h_msix := h_msix h; h_irqs := h_irqs h;
     h_master := h_master h; h_cdevs := h_cdevs h; h_nodes := h_nodes h; h_drvdata := h_drvdata h |}.
Definition pci_request_region (bar : Z) : M W Z :=
  rc ← dcall (pk_request_region bar);
  (if decide (rc = 0) then dupd_held (fun h => set_regions (h_regions h ++ [bar]) h) else mret tt) ;; mret rc.
Definition pci_release_regions : M W unit := dupd_held (set_regions []).
Definition set_maps (v : list Z) (h : Held) : Held :=
  {| h_enabled := h_enabled h; h_regions := h_regions h; h_maps := v; h_msix := h_msix h; h_irqs := h_irqs h;
     h_master := h_master h; h_cdevs := h_cdevs h; h_nodes := h_nodes h; h_drvdata := h_drvdata h |}.
Definition pci_iomap (bar maxlen : Z) : M W (option Z) :=
  a ← dcall (pk_iomap bar maxlen);
  match a with
  | Some v => dupd_held (fun h => set_maps (h_maps h ++ [v]) h) ;; mret a
  | None => mret a
  end.
(** [if (bar) pci_iounmap(dev, bar);] *)
Definition pci_iounmap (a : option Z) : M W unit :=
  match a with
  | Some v => dupd_held (fun h => set_maps (filter (fun u => u <> v) (h_maps h)) h)
  | None => mret tt
  end.
Definition set_msix (v : bool) (h : Held) : Held :=
  {| h_enabled := h_enabled h; h_regions := h_regions h; h_maps := h_maps h; h_msix := v; h_irqs := h_irqs h;
     h_master := h_master h; h_cdevs := h_cdevs h; h_nodes := h_nodes h; h_drvdata := h_drvdata h |}.
Definition pci_enable_msix : M W (Z * Z) :=
  r ← dcall pk_enable_msix;
  (if decide (fst r = 0) then dupd_held (set_msix true) else mret tt) ;; mret r.
Definition set_irqs (v : list Z) (h : Held) : Held :=
  {| h_enabled := h_enabled h; h_regions := h_regions h; h_maps := h_maps h; h_msix := h_msix h; h_irqs := v;
     h_master := h_master h; h_cdevs := h_cdevs h; h_nodes := h_nodes h; h_drvdata := h_drvdata h |}.
Definition request_irq (irq : Z) : M W Z :=
  rc ← dcall (pk_request_irq irq);
  (if decide (rc = 0) then dupd_held (fun h => set_irqs (h_irqs h ++ [irq]) h) else mret tt) ;; mret rc.
Definition free_irq (irq : Z) : M W unit :=
  dupd_held (fun h => set_irqs (filter (fun i => i <> irq) (h_irqs h)) h).
Definition disable_irq (irq : Z) : M W unit := dcall (pk_disable_irq irq).
Definition set_master (v : bool) (h : Held) : Held :=
  {| h_enabled := h_enabled h; h_regions := h_regions h; h_maps := h_maps h; h_msix := h_msix h; h_irqs := h_irqs h;
     h_master := v; h_cdevs := h_cdevs h; h_nodes := h_nodes h; h_drvdata := h_drvdata h |}.
Definition set_cdevs (v : list Z) (h : Held) : Held :=
  {| h_enabled := h_enabled h; h_regions := h_regions h; h_maps := h_maps h; h_msix := h_msix h; h_irqs := h_irqs h;
     h_master := h_master h; h_cdevs := v; h_nodes := h_nodes h; h_drvdata := h_drvdata h |}.
Definition set_nodes (v : list Z) (h : Held) : Held :=
  {| h_enabled := h_enabled h; h_regions := h_regions h; h_maps := h_maps h; h_msix := h_msix h; h_irqs := h_irqs h;
     h_master := h_master h; h_cdevs := h_cdevs h; h_nodes := v; h_drvdata := h_drvdata h |}.
Definition set_drvdata (v : bool) (h : Held) : Held :=
  {| h_enabled := h_enabled h; h_regions := h_regions h; h_maps := h_maps h; h_msix := h_msix h; h_irqs := h_irqs h;
     h_master := h_master h; h_cdevs := h_cdevs h; h_nodes := h_nodes h; h_drvdata := v |}.

(** ** The labels of [board_activate], last first *)
Definition err_exit (err : Z) : M W Z :=
  dupd_board (set_pci_dev false) ;; dupd_held (set_drvdata false) ;; mret err.
Definition PCI_DEV_ENABLED_label (err : Z) : M W Z := pci_disable_device ;; err_exit err.
Definition BARS_ALLOCATED_label (err : Z) : M W Z := pci_release_regions ;; PCI_DEV_ENABLED_label err.
Definition BARS_MAPPED_label (err : Z) : M W Z :=
  b ← dboard;
  pci_iounmap (bar0io b) ;; pci_iounmap (bar1io b) ;; pci_iounmap (bar2io b) ;;
  BARS_ALLOCATED_label err.
Definition MSI_ENABLED_label (err : Z) : M W Z := dupd_held (set_msix false) ;; BARS_MAPPED_label err.

(** [while (fpn < num_portals)]: the nodes and devices are removed; [n] turns. *)
Fixpoint remove_portals (n : nat) (board fpn : Z) : M W unit :=
  match n with
  | O => mret tt
  | S n =>
      let number := board * MAX_NUM_PORTALS + fpn in
      dupd_held (fun h => set_nodes (filter (fun i => i <> number) (h_nodes h)) h) ;;
      dupd_held (fun h => set_cdevs (filter (fun i => i <> number) (h_cdevs h)) h) ;;
      remove_portals n board (fpn + 1)
  end.
Fixpoint free_irqs (n : nat) (irq : Z) : M W unit :=
  match n with O => mret tt | S n => free_irq irq ;; free_irqs n (irq + 1) end.

Definition deactivate (err : Z) : M W Z :=
  b ← dboard;
  remove_portals (Z.to_nat (num_portals b)) (board_number b) 0 ;;
  dupd_held (set_master false) ;;
  iowrite32 1 (bar0io b) CSR_MSIX_MASKED ;;
  disable_irq (irq_num b) ;;
  free_irqs (Z.to_nat MAX_NUM_PORTALS) (irq_num b) ;;
  MSI_ENABLED_label err.

(** ** Activation *)

(** The loop that requests the interrupts: [true] when all were granted. *)
Fixpoint request_irqs (n : nat) (irq : Z) : M W bool :=
  match n with
  | O => mret true
  | S n => rc ← request_irq irq; if decide (rc <> 0) then mret false else request_irqs n (irq + 1)
  end.

(** [this_board->portal[fpn]] of the discovery loop. *)
Definition portal_at (fpn iid bar2 : Z) (p : tPortal) : tPortal :=
  {| portal_number := fpn; device_name := iid; has_board := true; virt := virt p;
     regs := Some (bar2 + 0x10000 * fpn + 0xc000); extra := extra p |}.

(** The discovery loop: [err] and [fpn] at its end; [turns] is [MAX_NUM_PORTALS - fpn]. *)
Fixpoint discover_portals (turns : nat) (top err fpn : Z) : M W (Z * Z) :=
  match turns with
  | O => mret (err, fpn)
  | S turns =>
      if decide (top = 0 /\ err >= 0 /\ fpn < MAX_NUM_PORTALS) then
        b ← dboard;
        bar2 ← defined (bar2io b);
        iid ← ioread32 (bar2io b) (fpn * PORTAL_BASE_OFFSET + PCR_IID_OFFSET);
        top ← ioread32 (bar2io b) (fpn * PORTAL_BASE_OFFSET + PCR_TOP_OFFSET);
        intval ← ioread32 (bar0io b) (CSR_MSIX_MSG_DATA + 16 * fpn);
        w ← getW;
        iv ← defined (zupd (ti_intval (d_trace w)) fpn intval);
        nm ← defined (zupd (ti_name (d_trace w)) fpn iid);
        dput_trace {| ti_base := ti_base (d_trace w); ti_trace := ti_trace (d_trace w);
                      ti_traceLength := ti_traceLength (d_trace w); ti_intval := iv; ti_name := nm |}
          (d_trace_index w) ;;
        p ← defined (znth (portal b) fpn);
        ps ← defined (zupd (portal b) fpn (portal_at fpn iid bar2 p));
        dupd_board (set_portal ps) ;;
        let number := board_number b * MAX_NUM_PORTALS + fpn in
        rc ← dcall (pk_cdev_add number);
        err ← (if decide (rc <> 0) then mret (- EFAULT)
               else dupd_held (fun h => set_cdevs (h_cdevs h ++ [number]) h) ;;
                    dupd_held (fun h => set_nodes (h_nodes h ++ [number]) h) ;; mret err);
        let fpn := fpn + 1 in
        if decide (fpn >= MAX_NUM_PORTALS) then mret (- EFAULT, fpn)
        else discover_portals turns top err fpn
      else mret (err, fpn)
  end.

(** The parts of [board_activate] from the last to the first: the portals, ... *)
Definition start_portals (bar0 : option Z) : M W Z :=
  iowrite32 0 bar0 CSR_MSIX_MASKED ;;
  dupd_held (set_master true) ;;
  '(err, fpn) ← discover_portals (Z.to_nat MAX_NUM_PORTALS) 0 0 0;
  dupd_board (set_num_portals fpn) ;;
  dupd_held (set_drvdata true) ;;
  if decide (err = 0) then mret err else deactivate err.

(** ... the DMA mask and the interrupts, ... *)
Definition start_irqs (bar0 : option Z) : M W Z :=
  rc ← dcall pk_set_dma_mask;
  if decide (rc <> 0) then BARS_MAPPED_label (- EIO)
  else
    '(rc, vector) ← pci_enable_msix;
    if decide (rc <> 0) then BARS_MAPPED_label (- EFAULT)
    else
      dupd_board (set_irq_num vector) ;;
      ok ← request_irqs (Z.to_nat MAX_NUM_PORTALS) vector;
      if negb ok then MSI_ENABLED_label (- EBUSY) else start_portals bar0.

(** ... the identification of the board, ... *)
Definition check_board (bar0 : option Z) : M W Z :=
  iowrite32 0 bar0 CSR_TLPPCIEWRADDRREG ;;
  iowrite32 1 bar0 CSR_TLPTRACINGREG ;;
  hi ← ioread32 bar0 (CSR_ID + 4);
  lo ← ioread32 bar0 CSR_ID;
  if decide (Z.lor (Z.shiftl hi 32) lo <> expected_magic) then BARS_MAPPED_label (- EINVAL)
  else start_irqs bar0.

(** ... the registers, ... *)
Definition map_bars : M W Z :=
  pci_request_region 1 ;;
  pci_request_region 2 ;;
  bar0 ← pci_iomap 0 0;
  bar1 ← pci_iomap 1 0;
  bar2 ← pci_iomap 2 0;
  bar1 ← (match bar1 with Some _ => mret bar1 | None => pci_iomap 1 8192 end);
  dupd_board (set_bars bar0 bar1 bar2) ;;
  match bar0, bar2 with
  | Some _, Some _ => check_board bar0
  | _, _ => BARS_ALLOCATED_label (- EFAULT)
  end.

(** ... and the device. *)
Definition board_activate (dev : pci_device) (activate : bool) : M W Z :=
  b ← dboard;
  if negb (forallb extra (portal b)) then err_exit (- EFAULT)
  else if activate then
    dupd_board (fun b => set_portal (map (fun p =>
      {| portal_number := portal_number p; device_name := u32 (-1); has_board := has_board p; virt := virt p;
         regs := regs p; extra := extra p |}) (portal b)) b) ;;
    dupd_board (set_pci_dev true) ;;
    rc ← pci_enable_device;
    if decide (rc <> 0) then err_exit (- EFAULT)
    else
      w ← getW;
      dput_trace {| ti_base := bar2_start dev; ti_trace := ti_trace (d_trace w);
                    ti_traceLength := ti_traceLength (d_trace w); ti_intval := ti_intval (d_trace w);
                    ti_name := ti_name (d_trace w) |} (d_trace_index w) ;;
      rc ← pci_request_region 0;
      if decide (rc <> 0) then PCI_DEV_ENABLED_label (- EBUSY) else map_bars
  else deactivate 0.

(** ** Probe and remove *)
Definition pcieportal_probe (dev : pci_device) : M W Z :=
  if decide (vendor dev <> BLUESPEC_VENDOR_ID \/ device dev <> CONNECTAL_DEVICE_ID) then mret (- EINVAL)
  else
    b ← dboard;
    if (pci_dev b : bool) then mret (- EBUSY)
    else
      dupd_board (fun _ => set_portal (replicate (Z.to_nat MAX_NUM_PORTALS)
        {| portal_number := 0; device_name := 0; has_board := false; virt := None; regs := None; extra := true |})
        tBoard_zero) ;;
      board_activate dev true.

Definition pcieportal_remove (dev : pci_device) : M W unit :=
  w ← getW;
  if h_drvdata (d_held w) then board_activate dev false ;; mret tt else mret tt.

(** ** Device files; a file is the number of its portal *)

Definition pcieportal_open (minor : Z) : M W Z :=
  let this_board_number := Z.shiftr minor 4 in
  let this_portal_number := Z.land minor 0xF in
  if decide (this_board_number = 0) then
    b ← dboard;
    p ← defined (znth (portal b) this_portal_number);
    if extra p then dupd_board (set_open_count (u32 (open_count b + 1))) ;; mret 0
    else fault
  else fault.

Definition pcieportal_release (pn : Z) : M W Z :=
  b ← dboard;
  p ← defined (znth (portal b) pn);
  if negb (extra p && has_board p) then fault
  else dupd_board (set_open_count (u32 (open_count b - 1))) ;; mret 0.

Definition POLLIN_RDNORM : Z := Z.lor 0x1 0x40.

Definition pcieportal_poll (pn : Z) : M W Z :=
  b ← dboard;
  p ← defined (znth (portal b) pn);
  intr_status ← (match regs p with
                 | Some a => v ← dcall (mmio_read a); mret (u32 v)
                 | None => mret 0
                 end);
  mret (if decide (intr_status <> 0) then POLLIN_RDNORM else 0).

(** [portal_mmap]: the frame and the length remapped, and the result. *)
Definition portal_mmap (dev : pci_device) (pn vm_pgoff len : Z) : M W Z :=
  b ← dboard;
  p ← defined (znth (portal b) pn);
  if decide (vm_pgoff > Z.shiftr (2 ^ 64 - 1) 12) then mret (- EINVAL)
  else
    off ← (if decide (vm_pgoff < 16) then mret (s64 (bar2_start dev + PORTAL_BASE_OFFSET * portal_number p))
           else
             (match virt p with
              | Some _ => mret tt
              | None =>
                  '(v, h) ← dcall (pk_dma_alloc len);
                  ps ← defined (zupd (portal b) pn {| portal_number := portal_number p; device_name := device_name p;
                                   has_board := has_board p; virt := v; regs := regs p; extra := extra p |});
                  dupd_board (set_portal ps) ;;
                  w ← getW;
                  l ← defined (zupd (d_dma_handle w) pn h);
                  putW {| d_board := d_board w; d_held := d_held w; d_trace := d_trace w;
                          d_trace_index := d_trace_index w; d_dma_handle := l; d_kern := d_kern w |}
              end) ;;
             w ← getW; defined (znth (d_dma_handle w) pn));
    rc ← dcall (pk_remap (Z.shiftr off 12) len);
    mret (if decide (rc <> 0) then - EAGAIN else 0).

(** ** ioctls *)

Inductive bnoc_cmd : Type :=
| BNOC_GET_TLP
| BNOC_TRACE
| BNOC_ENABLE_TRACE
| PCIE_SEND_FD (fd id : Z)
| BNOC_OTHER.

(** What an ioctl stores in the caller's memory. *)
Inductive bnoc_out : Type := NoData | Tlp (words : list Z) | Trace (t : tTraceInfo).

(** [user]: the caller's memory can be accessed.  [send_fd fd id] is
    [send_fd_to_portal] for the portal's registers. *)
Definition pcieportal_ioctl (user : bool) (send_fd : Z -> Z -> M W Z) (cmd : bnoc_cmd) : M W (Z * bnoc_out) :=
  let fin (err : Z) (o : bnoc_out) : M W (Z * bnoc_out) :=
    mret (if decide (err <> 0) then (- EFAULT, NoData) else (0, o)) in
  match cmd with
  | BNOC_OTHER => mret (- ENOTTY, NoData)
  | _ =>
    if negb user then mret (- EFAULT, NoData)
    else
      b ← dboard;
      match cmd with
      | BNOC_GET_TLP =>
          t5 ← ioread32 (bar0io b) (CSR_TLPDATABRAMRESPONSESLICE 5);
          t0 ← ioread32 (bar0io b) (CSR_TLPDATABRAMRESPONSESLICE 0);
          t4 ← ioread32 (bar0io b) (CSR_TLPDATABRAMRESPONSESLICE 4);
          t1 ← ioread32 (bar0io b) (CSR_TLPDATABRAMRESPONSESLICE 1);
          t3 ← ioread32 (bar0io b) (CSR_TLPDATABRAMRESPONSESLICE 3);
          t2 ← ioread32 (bar0io b) (CSR_TLPDATABRAMRESPONSESLICE 2);
          w ← getW;
          iowrite32 (d_trace_index w) (bar0io b) CSR_TLPDATAFIFO_DEQ ;;
          dput_trace (d_trace w) (s32 (d_trace_index w + 1)) ;;
          fin 0 (Tlp [t0; t1; t2; t3; t4; t5])
      | BNOC_TRACE =>
          iowrite32 0 (bar0io b) CSR_TLPPCIEWRADDRREG ;;
          tr ← ioread32 (bar0io b) CSR_TLPTRACINGREG;
          len ← ioread32 (bar0io b) CSR_TLPTRACELENGTHREG;
          let len := if decide (len = 0xbad0add0) then 2048 else len in
          iowrite32 0 (bar0io b) CSR_TLPTRACINGREG ;;
          w ← getW;
          let t := {| ti_base := ti_base (d_trace w); ti_trace := tr; ti_traceLength := len;
                      ti_intval := ti_intval (d_trace w); ti_name := ti_name (d_trace w) |} in
          iowrite32 0 (bar0io b) CSR_TLPDATAFIFO_DEQ ;;
          dput_trace t 1 ;;
          fin 0 (Trace t)
      | BNOC_ENABLE_TRACE =>
          tr ← ioread32 (bar0io b) CSR_TLPTRACINGREG;
          w ← getW;
          dput_trace {| ti_base := ti_base (d_trace w); ti_trace := tr; ti_traceLength := ti_traceLength (d_trace w);
                        ti_intval := ti_intval (d_trace w); ti_name := ti_name (d_trace w) |} (d_trace_index w) ;;
          iowrite32 1 (bar0io b) CSR_TLPTRACINGREG ;;
          fin 0 NoData
      | PCIE_SEND_FD fd id =>
          err ← send_fd fd id;
          fin (if decide (err < 0) then err else 0) NoData
      | BNOC_OTHER => mret (- ENOTTY, NoData)
      end
  end.

End Pcie.

(** * The transport table of the drivers: [kernelfunc] of [cpp/portalKernel.h] *)
Section KernelTransport.
Context {K : Type} `{!Device K}.
Local Abbreviation W := (World K).
Variable tab : ItemId -> PortalItemFunctions K.

Definition init_portal_kernel (p : nat) (param : ItemParam) : M W Z := mret 0.
Definition mapchannel_portal_kernel (p : nat) (v : Z) : M W ptr :=
  x ← get_pint p; mret (ptr_add (map_base x) (PORTAL_IND_FIFO v)).
Definition busy_portal_kernel (p : nat) (addr : ptr) : M W Z :=
  count ← busy_loop tab p 50 (ptr_add addr 1);
  if decide (count <= 0) then mret 1 else mret 0.
Definition enableint_portal_kernel (p : nat) (val : Z) : M W unit :=
  x ← get_pint p;
  it_write (item_of tab x) p (ptr_add (map_base x) PORTAL_CTRL_REG_INTERRUPT_ENABLE) val ;;
  mret tt.
Definition event_portal_kernel (p : nat) : M W Z := mret (-1).
Definition read_portal_kernel (p : nat) (addr : ptr) : M W (Z * ptr) := v ← load addr; mret (v, addr).
Definition write_portal_kernel (p : nat) (addr : ptr) (v : Z) : M W ptr := store addr v ;; mret addr.
Definition write_fd_portal_kernel (p : nat) (addr : ptr) (v : Z) : M W ptr := store addr v ;; mret addr.

Definition kernelfunc_table : PortalItemFunctions K :=
  {| it_init := init_portal_kernel; it_read := read_portal_kernel; it_write := write_portal_kernel;
     it_writefd := write_fd_portal_kernel; it_mapchannelInd := mapchannel_portal_kernel;
     it_mapchannelReq := mapchannel_portal_kernel; it_send := send_portal_null; it_recv := recv_portal_null;
     it_busywait := busy_portal_kernel; it_enableint := enableint_portal_kernel; it_event := event_portal_kernel |}.
End KernelTransport.

(** * What the operations do to the board and to what is held *)
Section PcieFacts.
Context {K : Type} `{!Device K} `{!PciOs K}.
Local Abbreviation W := (Drv K).
Implicit Types (w : W).

(** The board and what is held. *)
Definition obs w : tBoard * Held := (d_board w, d_held w).

Lemma dcall_obs {A} (f : K -> A * K) w a w' : dcall f w = Ok a w' -> obs w' = obs w.
Proof. unfold dcall. destruct (f (d_kern w)). by intros [= <- <-]. Qed.
Lemma dupd_board_obs f w a w' : dupd_board f w = Ok a w' -> obs w' = (f (d_board w), d_held w).
Proof. by intros [= <- <-]. Qed.
Lemma dupd_held_obs f w a w' : dupd_held f w = Ok a w' -> obs w' = (d_board w, f (d_held w)).
Proof. by intros [= <- <-]. Qed.
Lemma dput_trace_obs t i w a w' : dput_trace t i w = Ok a w' -> obs w' = obs w.
Proof. by intros [= <- <-]. Qed.
Lemma getW_obs w v w' : getW w = Ok v w' -> v = w /\ w' = w.
Proof. by intros [= <- <-]. Qed.
Lemma dboard_obs w b w' : dboard w = Ok b w' -> b = d_board w /\ w' = w.
Proof. by intros [= <- <-]. Qed.
Lemma defined_obs {A} (o : option A) w a w' : defined o w = Ok a w' -> o = Some a /\ w' = w.
Proof. destruct o; [|done]. by intros [= -> <-]. Qed.

Lemma ioread32_obs b o w v w' : ioread32 b o w = Ok v w' -> obs w' = obs w.
Proof.
  unfold ioread32. intros (a & w1 & [_ ->]%defined_obs & H)%bind_ok_inv.
  apply bind_ok_inv in H as (u & w2 & H1%dcall_obs & H2). apply ret_inv in H2 as [_ <-]. done.
Qed.
Lemma iowrite32_obs v b o w a w' : iowrite32 v b o w = Ok a w' -> obs w' = obs w.
Proof. unfold iowrite32. intros (u & w1 & [_ ->]%defined_obs & H%dcall_obs)%bind_ok_inv. done. Qed.

(** The effect of a call that acquires something when it returns 0. *)
Lemma acquire_obs (f : K -> Z * K) (g : Held -> Held) w rc w' :
  (rc ← dcall f; (if decide (rc = 0) then dupd_held g else mret tt) ;; mret rc) w = Ok rc w' ->
  obs w' = (d_board w, if decide (rc = 0) then g (d_held w) else d_held w).
Proof.
  intros (rc' & w1 & H1%dcall_obs & H)%bind_ok_inv. apply bind_ok_inv in H as ([] & w2 & H2 & H3).
  apply ret_inv in H3 as [-> ->]. unfold obs in *. case_decide.
  - apply dupd_held_obs in H2. unfold obs in H2. congruence.
  - apply ret_inv in H2 as [_ <-]. congruence.
Qed.

Lemma pci_iomap_obs bar n w a w' : pci_iomap bar n w = Ok a w' ->
  obs w' = (d_board w, match a with Some v => set_maps (h_maps (d_held w) ++ [v]) (d_held w) | None => d_held w end).
Proof.
  unfold pci_iomap. intros (o & w1 & H1%dcall_obs & H)%bind_ok_inv. unfold obs in *. destruct o as [v|].
  - apply bind_ok_inv in H as ([] & w2 & H2%dupd_held_obs & H3). apply ret_inv in H3 as [<- ->].
    unfold obs in H2. rewrite H2. congruence.
  - apply ret_inv in H as [<- ->]. done.
Qed.

Lemma pci_enable_msix_obs w r w' : pci_enable_msix w = Ok r w' ->
  obs w' = (d_board w, if decide (fst r = 0) then set_msix true (d_held w) else d_held w).
Proof.
  unfold pci_enable_msix. intros (r' & w1 & H1%dcall_obs & H)%bind_ok_inv.
  apply bind_ok_inv in H as ([] & w2 & H2 & H3). apply ret_inv in H3 as [-> ->]. unfold obs in *. case_decide.
  - apply dupd_held_obs in H2. unfold obs in H2. congruence.
  - apply ret_inv in H2 as [_ <-]. congruence.
Qed.

Definition unmap (o : option Z) (l : list Z) : list Z :=
  match o with Some v => filter (fun u => u <> v) l | None => l end.

Lemma pci_iounmap_obs o w a w' : pci_iounmap o w = Ok a w' ->
  obs w' = (d_board w, set_maps (unmap o (h_maps (d_held w))) (d_held w)).
Proof.
  unfold pci_iounmap. destruct o; [intros H%dupd_held_obs; exact H|]. intros H%ret_inv. destruct H as [_ <-].
  unfold obs. cbn. by destruct (d_held w).
Qed.
End PcieFacts.

(** Inverting a run: the head operation of [H] is split off. *)
Ltac minv H :=
  lazymatch type of H with
  | (mret _) _ = Ok _ _ => apply ret_inv in H as [? ?]
  | (_ ≫= _) _ = Ok _ _ =>
      let a := fresh "a" in let w := fresh "w" in let Ha := fresh "Hm" in
      apply bind_ok_inv in H as (a & w & Ha & H)
  end.

(** An equation [obs w = (b, h)] as rewrite rules. *)
Ltac obs_in H := let H1 := fresh "Eb" in let H2 := fresh "Eh" in
  unfold obs in *; injection H as H1 H2; rewrite ?H1, ?H2 in *.

Ltac obs_goal := repeat match goal with
  | H : d_board ?w = _ |- context [d_board ?w] => rewrite H
  | H : d_held ?w = _ |- context [d_held ?w] => rewrite H
  end.

(** [board_activate] up to the interrupts: the device, its regions and mappings. *)
Definition mapped_held (regions maps : list Z) : Held :=
  {| h_enabled := true; h_regions := regions; h_maps := maps; h_msix := false; h_irqs := []; h_master := false;
     h_cdevs := []; h_nodes := []; h_drvdata := false |}.

Ltac held_simp :=
  cbn [h_enabled h_regions h_maps h_msix h_irqs h_master h_cdevs h_nodes h_drvdata
       bar0io bar1io bar2io pci_dev portal board_number num_portals irq_num open_count
       set_irqs set_maps set_msix set_master set_cdevs set_nodes set_drvdata set_regions
       set_bars set_pci_dev set_portal set_num_portals set_irq_num nothing_held mapped_held].

Section Labels.
Context {K : Type} `{!Device K} `{!PciOs K}.
Local Abbreviation W := (Drv K).
Implicit Types (w : W).

Definition set_enabled (v : bool) (h : Held) : Held :=
  {| h_enabled := v; h_regions := h_regions h; h_maps := h_maps h; h_msix := h_msix h; h_irqs := h_irqs h;
     h_master := h_master h; h_cdevs := h_cdevs h; h_nodes := h_nodes h; h_drvdata := h_drvdata h |}.

Lemma err_exit_obs e w r w' : err_exit e w = Ok r w' ->
  r = e /\ obs w' = (set_pci_dev false (d_board w), set_drvdata false (d_held w)).
Proof.
  unfold err_exit. intros H. minv H. minv H. minv H. subst.
  apply dupd_board_obs in Hm. apply dupd_held_obs in Hm0. obs_in Hm. split; [done|]. rewrite Hm0. done.
Qed.

Lemma dev_enabled_obs e w r w' : PCI_DEV_ENABLED_label e w = Ok r w' -> r = e /\
  obs w' = (set_pci_dev false (d_board w), set_drvdata false (set_enabled false (d_held w))).
Proof.
  unfold PCI_DEV_ENABLED_label, pci_disable_device. intros H. minv H.
  apply dupd_held_obs in Hm. apply err_exit_obs in H as [-> H]. obs_in Hm. split; [done|]. exact H.
Qed.

Lemma bars_allocated_obs e w r w' : BARS_ALLOCATED_label e w = Ok r w' -> r = e /\
  obs w' = (set_pci_dev false (d_board w), set_drvdata false (set_enabled false (set_regions [] (d_held w)))).
Proof.
  unfold BARS_ALLOCATED_label, pci_release_regions. intros H. minv H.
  apply dupd_held_obs in Hm. apply dev_enabled_obs in H as [-> H]. obs_in Hm. split; [done|]. exact H.
Qed.

Lemma bars_mapped_obs e w r w' : BARS_MAPPED_label e w = Ok r w' -> r = e /\
  obs w' = (set_pci_dev false (d_board w),
    set_drvdata false (set_enabled false (set_regions []
      (set_maps (unmap (bar2io (d_board w)) (unmap (bar1io (d_board w)) (unmap (bar0io (d_board w))
        (h_maps (d_held w))))) (d_held w))))).
Proof.
  unfold BARS_MAPPED_label. intros H. minv H. apply dboard_obs in Hm as [-> ->]. minv H. minv H. minv H.
  apply pci_iounmap_obs in Hm, Hm0, Hm1. apply bars_allocated_obs in H as [-> H].
  obs_in Hm. obs_in Hm0. obs_in Hm1. split; [done|]. rewrite H. by destruct (d_held w).
Qed.

Lemma msi_enabled_obs e w r w' : MSI_ENABLED_label e w = Ok r w' -> r = e /\
  obs w' = (set_pci_dev false (d_board w),
    set_drvdata false (set_enabled false (set_regions []
      (set_maps (unmap (bar2io (d_board w)) (unmap (bar1io (d_board w)) (unmap (bar0io (d_board w))
        (h_maps (d_held w))))) (set_msix false (d_held w)))))).
Proof.
  unfold MSI_ENABLED_label. intros H. minv H. apply dupd_held_obs in Hm. apply bars_mapped_obs in H as [-> H].
  obs_in Hm. split; [done|]. exact H.
Qed.

(** Removing the portals [fpn] .. [fpn + n - 1] of board 0. *)
Definition drop_range (n : nat) (i : Z) (l : list Z) : list Z := filter (fun x => ~ (i <= x < i + Z.of_nat n)) l.

Lemma drop_range_S n i l : drop_range n (i + 1) (filter (fun x => x <> i) l) = drop_range (S n) i l.
Proof.
  unfold drop_range. rewrite list_filter_filter. apply list_filter_iff. intros x. lia.
Qed.

Lemma drop_range_0 i l : drop_range 0 i l = l.
Proof.
  unfold drop_range. induction l as [|x l IH]; [done|]. rewrite filter_cons_True by lia. by rewrite IH.
Qed.

Lemma remove_portals_obs n : forall fpn w a w', remove_portals n 0 fpn w = Ok a w' ->
  obs w' = (d_board w, set_cdevs (drop_range n fpn (h_cdevs (d_held w)))
                         (set_nodes (drop_range n fpn (h_nodes (d_held w))) (d_held w))).
Proof.
  induction n as [|n IH]; intros fpn w a w' H; cbn [remove_portals] in H.
  - minv H. subst. rewrite !drop_range_0. unfold obs. by destruct (d_held w').
  - minv H. minv H. apply IH in H. apply dupd_held_obs in Hm, Hm0. obs_in Hm. obs_in Hm0. rewrite H.
    unfold set_cdevs, set_nodes. cbn [h_enabled h_regions h_maps h_msix h_irqs h_master h_cdevs h_nodes h_drvdata].
    rewrite !Z.add_0_l. rewrite !drop_range_S. done.
Qed.

Lemma free_irqs_obs n : forall irq w a w', free_irqs n irq w = Ok a w' ->
  obs w' = (d_board w, set_irqs (drop_range n irq (h_irqs (d_held w))) (d_held w)).
Proof.
  induction n as [|n IH]; intros irq w a w' H; cbn [free_irqs] in H.
  - minv H. subst. rewrite drop_range_0. unfold obs. by destruct (d_held w').
  - minv H. apply IH in H. apply dupd_held_obs in Hm. obs_in Hm. rewrite H.
    unfold set_irqs. cbn [h_enabled h_regions h_maps h_msix h_irqs h_master h_cdevs h_nodes h_drvdata].
    by rewrite drop_range_S.
Qed.

Lemma deactivate_obs e w r w' : board_number (d_board w) = 0 -> deactivate e w = Ok r w' -> r = e /\
  exists b, obs w' = (b,
   let n := Z.to_nat (num_portals (d_board w)) in
   let h := d_held w in
   {| h_enabled := false; h_regions := [];
      h_maps := unmap (bar2io (d_board w)) (unmap (bar1io (d_board w)) (unmap (bar0io (d_board w)) (h_maps h)));
      h_msix := false; h_irqs := drop_range 16 (irq_num (d_board w)) (h_irqs h); h_master := false;
      h_cdevs := drop_range n 0 (h_cdevs h); h_nodes := drop_range n 0 (h_nodes h); h_drvdata := false |}).
Proof.
  intros Hbn H. unfold deactivate in H. minv H. apply dboard_obs in Hm as [-> ->]. rewrite Hbn in H.
  minv H. apply remove_portals_obs in Hm. minv H. apply dupd_held_obs in Hm0. minv H. apply iowrite32_obs in Hm1.
  minv H. apply dcall_obs in Hm2. minv H. apply free_irqs_obs in Hm3. apply msi_enabled_obs in H as [-> H].
  obs_in Hm. obs_in Hm0. obs_in Hm1. obs_in Hm2. obs_in Hm3. split; [done|]. eexists. rewrite H. reflexivity.
Qed.
End Labels.

Section Activation.
Context {K : Type} `{!Device K} `{!PciOs K}.
Local Abbreviation W := (Drv K).
Implicit Types (w : W).

Fixpoint zseq (i : Z) (n : nat) : list Z := match n with O => [] | S n => i :: zseq (i + 1) n end.

Lemma zseq_range i n : Forall (fun x => i <= x < i + Z.of_nat n) (zseq i n).
Proof.
  revert i. induction n as [|n IH]; intros i; constructor; [lia|].
  eapply Forall_impl; [apply IH|]. intros x. cbn. lia.
Qed.

Lemma drop_range_all n i l : Forall (fun x => i <= x < i + Z.of_nat n) l -> drop_range n i l = [].
Proof.
  unfold drop_range. induction 1 as [|x l Hx _ IH]; [done|]. rewrite filter_cons_False by (intros H; by apply H). done.
Qed.

Lemma unmap_all b0 b1 b2 l :
  Forall (fun x => b0 = Some x \/ b1 = Some x \/ b2 = Some x) l -> unmap b2 (unmap b1 (unmap b0 l)) = [].
Proof.
  intros H. destruct (unmap b2 (unmap b1 (unmap b0 l))) as [|x l'] eqn:E; [done|].
  assert (Hx : x ∈ unmap b2 (unmap b1 (unmap b0 l))) by (rewrite E; left).
  assert (Hin : forall o y l0, y ∈ unmap o l0 -> o <> Some y /\ y ∈ l0).
  { intros [v|] y l0 Hy; cbn in Hy; [|done]. apply list_elem_of_filter in Hy as [? ?]. split; [congruence|done]. }
  apply Hin in Hx as [H2 Hx]. apply Hin in Hx as [H1 Hx]. apply Hin in Hx as [H0 Hx].
  rewrite Forall_forall in H. destruct (H x Hx) as [?|[?|?]]; congruence.
Qed.

Lemma request_irqs_obs n : forall irq w ok w', request_irqs n irq w = Ok ok w' ->
  exists k, (k <= n)%nat /\ (ok = true -> k = n) /\ (ok = false -> (k < n)%nat) /\
    obs w' = (d_board w, set_irqs (h_irqs (d_held w) ++ zseq irq k) (d_held w)).
Proof.
  induction n as [|n IH]; intros irq w ok w' H; cbn [request_irqs] in H.
  - minv H. subst. exists 0%nat. split_and!; [lia|done|done|]. rewrite app_nil_r. unfold obs. by destruct (d_held w').
  - minv H. apply acquire_obs in Hm. case_decide as Hrc.
    + minv H. subst. exists 0%nat. split_and!; [lia|done|lia|]. rewrite Hm, decide_False by done. rewrite app_nil_r.
      by destruct (d_held w).
    + apply IH in H as (k & Hk & Hok & Hno & H). exists (S k).
      split_and!; [lia|intros E; rewrite (Hok E); done|intros E; specialize (Hno E); lia|].
      rewrite decide_True in Hm by lia. obs_in Hm. rewrite H. cbn [zseq].
      unfold set_irqs. cbn [h_enabled h_regions h_maps h_msix h_irqs h_master h_cdevs h_nodes h_drvdata].
      by rewrite <- app_assoc.
Qed.

Lemma discover_obs turns : forall top err fpn w e n w',
  0 <= fpn -> fpn + Z.of_nat turns = 16 -> err = 0 \/ err = - EFAULT -> board_number (d_board w) = 0 ->
  discover_portals turns top err fpn w = Ok (e, n) w' ->
  exists ps l, obs w' = (set_portal ps (d_board w),
      set_nodes (h_nodes (d_held w) ++ l) (set_cdevs (h_cdevs (d_held w) ++ l) (d_held w))) /\
    Forall (fun x => fpn <= x < n) l /\ fpn <= n <= 16 /\ (e = 0 \/ e = - EFAULT) /\
    (e = 0 -> err = 0 /\ l = zseq fpn (Z.to_nat (n - fpn)) /\ (fpn < 16 -> n < 16)).
Proof.
  induction turns as [|turns IH]; intros top err fpn w e n w' Hf Ht He Hbn H; cbn [discover_portals] in H.
  - minv H. simplify_eq. exists (portal (d_board w')), []. rewrite !app_nil_r. split_and!; [|done|lia|lia|done|].
    + unfold obs. by destruct (d_board w'), (d_held w').
    + intros ->. split_and!; [done|by rewrite Z.sub_diag|lia].
  - case_decide as Hd.
    2:{ minv H. simplify_eq. exists (portal (d_board w')), []. rewrite !app_nil_r. split_and!; [|done|lia|lia|done|].
        + unfold obs. by destruct (d_board w'), (d_held w').
        + intros ->. split_and!; [done|by rewrite Z.sub_diag|lia]. }
    minv H. apply dboard_obs in Hm as [-> ->]. minv H. apply defined_obs in Hm as [Hbar2 ->].
    minv H. apply ioread32_obs in Hm. minv H. apply ioread32_obs in Hm0. minv H. apply ioread32_obs in Hm1.
    minv H. apply getW_obs in Hm2 as [-> ->]. minv H. apply defined_obs in Hm2 as [_ ->].
    minv H. apply defined_obs in Hm2 as [_ ->]. minv H. apply dput_trace_obs in Hm2.
    minv H. apply defined_obs in Hm3 as [_ ->]. minv H. apply defined_obs in Hm3 as [_ ->].
    minv H. apply dupd_board_obs in Hm3. rewrite Hbn, Z.add_0_l in H. minv H. apply dcall_obs in Hm4. minv H.
    assert (Ew : exists ps, obs w5 = (set_portal ps (d_board w), d_held w)).
    { eexists. obs_in Hm. obs_in Hm0. obs_in Hm1. obs_in Hm2. obs_in Hm3. rewrite Hm4. reflexivity. }
    destruct Ew as [ps Ew]. clear Hm Hm0 Hm1 Hm2 Hm3 Hm4.
    assert (Hacq : exists l, obs w6 = (set_portal ps (d_board w),
                     set_nodes (h_nodes (d_held w) ++ l) (set_cdevs (h_cdevs (d_held w) ++ l) (d_held w))) /\
                   ((a10 = err /\ l = [fpn]) \/ (a10 = - EFAULT /\ l = []))).
    { clear H. case_decide.
      - minv Hm5. subst. exists []. rewrite !app_nil_r. split; [|by right]. rewrite Ew. by destruct (d_held w).
      - minv Hm5. minv Hm5. minv Hm5. apply dupd_held_obs in Hm, Hm0. subst. exists [fpn]. split; [|by left].
        obs_in Ew. obs_in Hm. obs_in Hm0. reflexivity. }
    destruct Hacq as (l & Ew6 & Hl). clear Hm5.
    assert (Hl' : Forall (fun x => fpn <= x < fpn + 1) l) by (destruct Hl as [[_ ->]|[_ ->]]; repeat constructor; lia).
    case_decide as Hlast.
    + minv H. simplify_eq. exists ps, l. split_and!; try lia; try done; try (by right).
    + apply IH in H as (ps' & l' & Hobs & Hr & Hn & He' & Hz); try lia.
      * exists ps', (l ++ l'). obs_in Ew6. split_and!.
        -- rewrite Hobs. unfold set_nodes, set_cdevs, set_portal. cbn. by rewrite !app_assoc.
        -- apply Forall_app_2; eapply Forall_impl; try done; cbn; lia.
        -- lia.
        -- lia.
        -- done.
        -- intros E. destruct (Hz E) as (-> & -> & Hlt). destruct Hl as [[<- ->]|[? ->]]; [|done].
           split_and!; [done| |unfold MAX_NUM_PORTALS in *; lia]. cbn [app]. replace (Z.to_nat (n - fpn)) with (S (Z.to_nat (n - (fpn + 1)))) by lia.
           done.
      * obs_in Ew6. done.
Qed.

(** What a probe that failed with [r] leaves behind.  Interrupts: the first [k]
    vectors of the board, when the request for the next one was refused.
    Mappings: those of the board's register windows, when the window of BAR 0
    or of BAR 2 could not be mapped.  Nothing else. *)
Definition released (r : Z) (w : W) : Prop :=
  exists maps k, let b := d_board w in
    d_held w = set_irqs (zseq (irq_num b) k) (set_maps maps nothing_held) /\
    (k <> 0%nat -> r = - EBUSY /\ (k < 16)%nat) /\
    (maps <> [] -> r = - EFAULT /\ (bar0io b = None \/ bar2io b = None)) /\
    Forall (fun x => bar0io b = Some x \/ bar1io b = Some x \/ bar2io b = Some x) maps.

(** What an active board holds. *)
Definition active (w : W) : Prop :=
  exists n regions maps, let b := d_board w in
    d_held w = {| h_enabled := true; h_regions := regions; h_maps := maps; h_msix := true;
                  h_irqs := zseq (irq_num b) 16; h_master := true;
                  h_cdevs := zseq 0 n; h_nodes := zseq 0 n; h_drvdata := true |} /\
    num_portals b = Z.of_nat n /\ (n < 16)%nat /\ pci_dev b = true /\ board_number b = 0 /\
    bar0io b <> None /\ forallb extra (portal b) = true /\
    Forall (fun x => bar0io b = Some x \/ bar1io b = Some x \/ bar2io b = Some x) maps.

Lemma released_nil r w : d_held w = nothing_held -> released r w.
Proof. intros H. exists [], 0%nat. cbv zeta. rewrite H. done. Qed.

Lemma map_bars_obs w b0 b1 b2 b1' w1 w2 w3 w4 :
  pci_iomap 0 0 w = Ok b0 w1 -> pci_iomap 1 0 w1 = Ok b1 w2 -> pci_iomap 2 0 w2 = Ok b2 w3 ->
  (match b1 with Some _ => mret b1 | None => pci_iomap 1 8192 end) w3 = Ok b1' w4 ->
  h_maps (d_held w) = [] ->
  exists maps, obs w4 = (d_board w, set_maps maps (d_held w)) /\
    Forall (fun x => b0 = Some x \/ b1' = Some x \/ b2 = Some x) maps.
Proof.
  intros H0%pci_iomap_obs H1%pci_iomap_obs H2%pci_iomap_obs H3 Hm.
  assert (H3' : (b1' = b1 /\ b1 <> None /\ obs w4 = obs w3) \/
    (b1 = None /\ obs w4 = (d_board w3, match b1' with Some v => set_maps (h_maps (d_held w3) ++ [v]) (d_held w3) | None => d_held w3 end))).
  { destruct b1; [left; minv H3; by subst|right; by apply pci_iomap_obs in H3]. }
  clear H3. obs_in H0. obs_in H1. obs_in H2.
  destruct (d_held w) as [en rg mp mx iq ms cd nd dd]. cbn in Hm. subst mp.
  destruct H3' as [(-> & Hb1 & H3)|[-> H3]]; rewrite H3;
    destruct b0, b2; try destruct b1; try destruct b1'; try done; cbn;
    (eexists; split; [reflexivity|]; repeat (constructor; [by auto|]); constructor).
Qed.

Definition covers (b : tBoard) (maps : list Z) : Prop :=
  Forall (fun x => bar0io b = Some x \/ bar1io b = Some x \/ bar2io b = Some x) maps.

Definition outcome_ok (r : Z) (w' : W) : Prop := (r = 0 /\ active w') \/ (r <> 0 /\ released r w').

Lemma released_maps r w b maps k : covers b maps -> (k <> 0%nat -> r = - EBUSY /\ (k < 16)%nat) ->
  d_held w = set_irqs (zseq (irq_num (d_board w)) k)
    (set_maps (unmap (bar2io b) (unmap (bar1io b) (unmap (bar0io b) maps))) nothing_held) ->
  released r w.
Proof. intros H Hk Hh. rewrite unmap_all in Hh by done. exists [], k. done. Qed.

Lemma forallb_insert {A} (f : A -> bool) l i x : forallb f l = true -> f x = true -> forallb f (<[i := x]> l) = true.
Proof.
  revert i. induction l as [|y l IH]; intros [|i] Hl Hx; cbn in *; [done|done| |];
    apply andb_true_iff in Hl as [Hy Hl]; apply andb_true_iff; split; auto.
Qed.
Lemma forallb_lookup {A} (f : A -> bool) l i x : forallb f l = true -> l !! i = Some x -> f x = true.
Proof.
  revert i. induction l as [|y l IH]; intros [|i] Hl Hx; cbn in *; simplify_eq;
    apply andb_true_iff in Hl as [Hy Hl]; [done|]. by eapply IH.
Qed.

Lemma discover_extra turns : forall top err fpn w e n w',
  forallb extra (portal (d_board w)) = true ->
  discover_portals turns top err fpn w = Ok (e, n) w' -> forallb extra (portal (d_board w')) = true.
Proof.
  induction turns as [|turns IH]; intros top err fpn w e n w' Hx H; cbn [discover_portals] in H.
  - minv H. by subst.
  - case_decide as Hd; [|minv H; by subst].
    minv H. apply dboard_obs in Hm as [-> ->]. minv H. apply defined_obs in Hm as [Hbar2 ->].
    minv H. apply ioread32_obs in Hm. minv H. apply ioread32_obs in Hm0. minv H. apply ioread32_obs in Hm1.
    minv H. apply getW_obs in Hm2 as [-> ->]. minv H. apply defined_obs in Hm2 as [_ ->].
    minv H. apply defined_obs in Hm2 as [_ ->]. minv H. apply dput_trace_obs in Hm2.
    minv H. apply defined_obs in Hm3 as [Hp ->]. minv H. apply defined_obs in Hm3 as [Hu ->].
    minv H. apply dupd_board_obs in Hm3. minv H. apply dcall_obs in Hm4. minv H.
    assert (Hx' : forallb extra (portal (d_board w6)) = true).
    { assert (E : d_board w6 = d_board w5).
      { clear H. case_decide; [minv Hm5; by subst|]. minv Hm5. minv Hm5. minv Hm5. subst.
        apply dupd_held_obs in Hm6, Hm7. obs_in Hm6. obs_in Hm7. done. }
      rewrite E. clear E H Hm5. obs_in Hm4. obs_in Hm3. cbn [portal set_portal].
      unfold zupd in Hu. case_decide; [|done]. simplify_eq. apply forallb_insert; [done|]. cbn.
      unfold znth in Hp. case_decide; [|done]. by eapply forallb_lookup. }
    case_decide; [minv H; by subst|]. by eapply IH.
Qed.

Lemma start_portals_cases bar0 w r w' regions maps irqs : irqs = zseq (irq_num (d_board w)) 16 ->
  start_portals bar0 w = Ok r w' -> board_number (d_board w) = 0 -> pci_dev (d_board w) = true ->
  bar0io (d_board w) = bar0 -> bar0 <> None -> covers (d_board w) maps ->
  forallb extra (portal (d_board w)) = true ->
  d_held w = set_irqs irqs (set_msix true (mapped_held regions maps)) ->
  outcome_ok r w'.
Proof.
  intros Hirq H Hbn Hpd Hb0 Hb0s Hc Hx Hh. unfold start_portals in H.
  minv H. apply iowrite32_obs in Hm. minv H. apply dupd_held_obs in Hm0. minv H. destruct a1 as [err fpn].
  obs_in Hm. pose proof (discover_extra _ _ _ _ _ _ _ _ ltac:(obs_in Hm0; exact Hx) Hm1) as Hx'.
  apply discover_obs in Hm1 as (ps & l & Hobs & Hl & Hf & He & Hz);
    [|lia|done|by left|by obs_in Hm0]. obs_in Hm0. rewrite ?Hh in *.
  minv H. apply dupd_board_obs in Hm. minv H. apply dupd_held_obs in Hm0.
  obs_in Hobs. obs_in Hm. obs_in Hm0. case_decide as Hd.
  - apply ret_inv in H as [<- <-]. destruct (Hz Hd) as (_ & -> & Hlt). left. split; [done|].
    exists (Z.to_nat fpn), regions, maps. cbv zeta. obs_goal.
    held_simp. rewrite ?Z.sub_0_r, <- Hirq.
    split_and!; try lia; try assumption; try reflexivity. by rewrite Hb0.
  - apply deactivate_obs in H as [-> [b Hobs]]; [|by obs_goal]. right. split; [done|].
    obs_in Hobs. apply (released_maps err w' (d_board w) maps 0); [done|done|]. obs_goal. held_simp.
    rewrite !drop_range_all; [done| |].
    + eapply Forall_impl; [exact Hl|]. cbn. intros x ?. lia.
    + rewrite Hirq. apply (zseq_range _ 16).
Qed.

Lemma start_irqs_cases bar0 w r w' regions maps :
  start_irqs bar0 w = Ok r w' -> board_number (d_board w) = 0 -> pci_dev (d_board w) = true ->
  bar0io (d_board w) = bar0 -> bar0 <> None -> covers (d_board w) maps ->
  forallb extra (portal (d_board w)) = true -> d_held w = mapped_held regions maps ->
  outcome_ok r w'.
Proof.
  intros H Hbn Hpd Hb0 Hb0s Hc Hx Hh. unfold start_irqs in H.
  minv H. apply dcall_obs in Hm. obs_in Hm. case_decide.
  { apply bars_mapped_obs in H as [-> H]. right. split; [done|]. obs_in H. obs_goal.
    apply (released_maps (- EIO) w' (d_board w) maps 0); [done|done|by obs_goal]. }
  minv H. destruct a0 as [rc vector]. apply pci_enable_msix_obs in Hm. cbn [fst] in Hm. case_decide.
  { rewrite decide_False in Hm by done. obs_in Hm. apply bars_mapped_obs in H as [-> H]. right. split; [done|].
    obs_in H. obs_goal. apply (released_maps (- EFAULT) w' (d_board w) maps 0); [done|done|by obs_goal]. }
  rewrite decide_True in Hm by lia. obs_in Hm. minv H. apply dupd_board_obs in Hm. obs_in Hm.
  minv H. apply request_irqs_obs in Hm as (k & Hk & Hok & Hno & Hobs). destruct a1; cbn [negb] in H.
  - rewrite (Hok eq_refl) in Hobs. obs_in Hobs. rewrite ?Hh, ?Eb in *.
    apply (start_portals_cases bar0 w3 r w' regions maps (zseq vector 16)); obs_goal; held_simp; try assumption; reflexivity.
  - obs_in Hobs. apply msi_enabled_obs in H as [-> H]. right. split; [done|]. obs_in H. obs_goal.
    apply (released_maps (- EBUSY) w' (d_board w) maps k); [done|auto|by obs_goal].
Qed.

Lemma check_board_cases bar0 w r w' regions maps :
  check_board bar0 w = Ok r w' -> board_number (d_board w) = 0 -> pci_dev (d_board w) = true ->
  bar0io (d_board w) = bar0 -> bar0 <> None -> covers (d_board w) maps ->
  forallb extra (portal (d_board w)) = true -> d_held w = mapped_held regions maps ->
  outcome_ok r w'.
Proof.
  intros H Hbn Hpd Hb0 Hb0s Hc Hx Hh. unfold check_board in H.
  minv H. apply iowrite32_obs in Hm. minv H. apply iowrite32_obs in Hm0.
  minv H. apply ioread32_obs in Hm1. minv H. apply ioread32_obs in Hm2.
  obs_in Hm. obs_in Hm0. obs_in Hm1. obs_in Hm2. case_decide.
  - apply bars_mapped_obs in H as [-> H]. right. split; [done|]. obs_in H. obs_goal.
    apply (released_maps (- EINVAL) w' (d_board w) maps 0); [done|done|by obs_goal].
  - eapply (start_irqs_cases bar0 _ r w' regions maps); try done; obs_goal; try done.
Qed.

Lemma map_bars_cases w r w' regions :
  map_bars w = Ok r w' -> board_number (d_board w) = 0 -> pci_dev (d_board w) = true ->
  forallb extra (portal (d_board w)) = true -> d_held w = mapped_held regions [] -> outcome_ok r w'.
Proof.
  intros H Hbn Hpd Hx Hh. unfold map_bars in H.
  minv H. apply acquire_obs in Hm. minv H. apply acquire_obs in Hm0.
  assert (Hreg : exists rg, obs w1 = (d_board w, mapped_held rg [])).
  { obs_in Hm. rewrite Hm0. rewrite Hh. repeat case_decide; eexists; reflexivity. }
  clear Hm Hm0. destruct Hreg as [rg Hreg]. obs_in Hreg.
  minv H. minv H. minv H. minv H. destruct (map_bars_obs w1 a1 a2 a3 a4 w2 w3 w4 w5) as (maps & Hobs & Hc); try done.
  { by rewrite Eh. }
  rewrite Eb, Eh in Hobs. clear Hm Hm0 Hm1 Hm2. minv H. apply dupd_board_obs in Hm. obs_in Hobs. obs_in Hm.
  assert (Hfail : a1 = None \/ a3 = None -> BARS_ALLOCATED_label (- EFAULT) w6 = Ok r w' -> outcome_ok r w').
  { intros Hnone [-> H']%bars_allocated_obs. right. split; [done|]. obs_in H'. exists maps, 0%nat. cbv zeta. obs_goal. held_simp. split_and!; [done|done| |done]. by intros _. }
  destruct a1 as [b0|]; [|by apply Hfail; [left|]]. destruct a3 as [b2|]; [|by apply Hfail; [right|]].
  apply (check_board_cases (Some b0) w6 r w' rg maps H); obs_goal; held_simp; try assumption; done.
Qed.

Lemma board_activate_cases dev w r w' :
  board_activate dev true w = Ok r w' -> d_held w = nothing_held -> board_number (d_board w) = 0 ->
  outcome_ok r w'.
Proof.
  intros H Hh Hbn. unfold board_activate in H. minv H. apply dboard_obs in Hm as [-> ->].
  destruct (forallb extra (portal (d_board w))) eqn:Hex; cbn [negb] in H.
  2:{ apply err_exit_obs in H as [-> H]. right. split; [done|]. obs_in H. apply released_nil. by obs_goal. }
  minv H. apply dupd_board_obs in Hm. minv H. apply dupd_board_obs in Hm0. minv H. apply acquire_obs in Hm1.
  obs_in Hm. obs_in Hm0. rewrite Hh in *. case_decide as Hrc.
  { rewrite decide_False in Hm1 by done. apply err_exit_obs in H as [-> H]. right. split; [done|].
    obs_in Hm1. obs_in H. apply released_nil. by obs_goal. }
  rewrite decide_True in Hm1 by lia. obs_in Hm1. clear Hrc.
  minv H. apply getW_obs in Hm as [-> ->]. minv H. apply dput_trace_obs in Hm. obs_in Hm.
  minv H. apply acquire_obs in Hm. case_decide as Hrc.
  { rewrite decide_False in Hm by done. apply dev_enabled_obs in H as [-> H]. right. split; [done|].
    obs_in Hm. obs_in H. apply released_nil. by obs_goal. }
  rewrite decide_True in Hm by lia. obs_in Hm.
  apply (map_bars_cases _ r w' [0] H); obs_goal; held_simp; try done.
  rewrite forallb_forall. intros q (q0 & <- & Hq)%in_map_iff. cbn [extra].
  rewrite forallb_forall in Hex. exact (Hex q0 Hq).
Qed.

(** ** Runs that return *)
Definition runs {A} (m : M W A) w : Prop := exists a w', m w = Ok a w'.

Lemma runs_bind {A B} (m : M W A) (k : A -> M W B) w :
  runs m w -> (forall a w', m w = Ok a w' -> runs (k a) w') -> runs (m ≫= k) w.
Proof.
  intros (a & w1 & H1) H2. destruct (H2 a w1 H1) as (b & w2 & H3). exists b, w2. by rewrite (bind_ok _ _ _ _ _ H1).
Qed.
Lemma runs_ret {A} (a : A) w : runs (mret a) w.
Proof. by eexists _, _. Qed.
Lemma runs_dcall {A} (f : K -> A * K) w : runs (dcall f) w.
Proof. unfold runs, dcall. destruct (f (d_kern w)). by eexists _, _. Qed.
Lemma runs_modify f w : runs (modifyW f : M W unit) w.
Proof. by eexists _, _. Qed.
Lemma runs_iowrite v a o w : runs (iowrite32 v (Some a) o) w.
Proof. unfold iowrite32. apply runs_dcall. Qed.
Lemma runs_ioread a o w : runs (ioread32 (Some a) o) w.
Proof. unfold ioread32. change (runs (v ← dcall (mmio_read (a + o)); mret (u32 v)) w). apply runs_bind; [apply runs_dcall|]. intros. apply runs_ret. Qed.
Lemma runs_remove n : forall f w, runs (remove_portals n 0 f) w.
Proof.
  induction n as [|n IH]; intros f w; cbn [remove_portals]; [apply runs_ret|].
  apply runs_bind; [apply runs_modify|]. intros _ w1 _. apply runs_bind; [apply runs_modify|]. intros _ w2 _. apply IH.
Qed.
Lemma runs_free n : forall i w, runs (free_irqs n i) w.
Proof.
  induction n as [|n IH]; intros i w; cbn [free_irqs]; [apply runs_ret|].
  apply runs_bind; [apply runs_modify|]. intros _ w1 _. apply IH.
Qed.
Lemma runs_iounmap o w : runs (pci_iounmap o) w.
Proof. destruct o; [apply runs_modify|apply runs_ret]. Qed.

Lemma runs_deactivate e w : board_number (d_board w) = 0 -> bar0io (d_board w) <> None -> runs (deactivate e) w.
Proof.
  intros Hbn Hb0. unfold deactivate. apply runs_bind; [by eexists _, _|]. intros b w0 [-> ->]%dboard_obs. rewrite Hbn.
  apply runs_bind; [apply runs_remove|]. intros _ w1 _. apply runs_bind; [apply runs_modify|]. intros _ w2 _.
  destruct (bar0io (d_board w)) as [a|]; [|done]. apply runs_bind; [apply runs_iowrite|]. intros _ w3 _.
  apply runs_bind; [apply runs_dcall|]. intros _ w3' _. apply runs_bind; [apply runs_free|]. intros _ w4 _. unfold MSI_ENABLED_label, BARS_MAPPED_label.
  apply runs_bind; [apply runs_modify|]. intros _ w5 _. apply runs_bind; [by eexists _, _|]. intros b w6 _.
  do 3 (apply runs_bind; [apply runs_iounmap|]; intros _ ? _). by eexists _, _.
Qed.

(** C29: Bringing a board up and removing it gives everything back: after a probe
    that returned 0 the driver holds the device, its interrupts and a device
    node per portal, [pcieportal_remove] returns, and afterwards the driver
    holds nothing and the board is free for the next probe. *)
Theorem probe_remove dev w w1 :
  pcieportal_probe dev w = Ok 0 w1 -> d_held w = nothing_held ->
  active w1 /\ exists w2, pcieportal_remove dev w1 = Ok tt w2 /\
    d_held w2 = nothing_held /\ pci_dev (d_board w2) = false.
Proof.
  intros H Hh. unfold pcieportal_probe in H. case_decide; [minv H; done|].
  minv H. apply dboard_obs in Hm as [-> ->]. destruct (pci_dev (d_board w)); [minv H; done|].
  minv H. apply dupd_board_obs in Hm. obs_in Hm.
  apply board_activate_cases in H as [[_ Ha]|[? _]]; [|done|by obs_goal|by obs_goal].
  split; [done|]. destruct Ha as (n & rg & maps & Heq & Hn & Hn16 & Hpd & Hbn & Hb0 & Hx & Hc).
  unfold pcieportal_remove. unfold mbind at 1, M_bind at 1, getW. rewrite Heq. cbn [h_drvdata].
  assert (Hact : board_activate dev false w1 = deactivate 0 w1).
  { unfold board_activate. unfold mbind at 1, M_bind at 1, dboard at 1. by rewrite Hx. }
  destruct (runs_deactivate 0 w1 Hbn Hb0) as (r & w2 & Hrun). exists w2. split_and!.
  - unfold mbind, M_bind. by rewrite Hact, Hrun.
  - apply deactivate_obs in Hrun as [_ [b Hobs]]; [|done]. obs_in Hobs. rewrite Heq. held_simp.
    rewrite unmap_all by exact Hc. rewrite Hn, Nat2Z.id, !drop_range_all; [done| |].
    + apply (zseq_range 0 n).
    + apply (zseq_range _ 16).
  - unfold deactivate in Hrun. do 6 minv Hrun.
    apply msi_enabled_obs in Hrun as [_ Hrun]. obs_in Hrun. done.
Qed.

End Activation.

(** * Polling *)
Section Poll.
Context {K : Type} `{!Device K} `{!PciOs K}.
Implicit Types (w : Drv K).

(** [pcieportal_poll] reads the register at offset 0xc000 of the portal; by the
    register map of [portal.h] that is the FIFO register of channel 191, and not
    the interrupt status register, which is at offset 0. *)
Theorem poll_reads_fifo_register pn iid bar2 p w v k :
  znth (portal (d_board w)) pn = Some (portal_at pn iid bar2 p) ->
  mmio_read (bar2 + pn * PORTAL_BASE_OFFSET + 4 * PORTAL_IND_FIFO 191) (d_kern w) = (v, k) ->
  exists w', pcieportal_poll pn w = Ok (if decide (u32 v <> 0) then POLLIN_RDNORM else 0) w' /\ d_kern w' = k /\
    PORTAL_IND_FIFO 191 <> PORTAL_CTRL_REG_INTERRUPT_STATUS.
Proof.
  intros Hp Hr. eexists. split_and!; [| |done].
  - unfold pcieportal_poll. unfold mbind at 1, M_bind at 1, dboard. rewrite Hp, bind_defined. cbn [regs portal_at].
    unfold mbind, M_bind, dcall.
    replace (bar2 + 0x10000 * pn + 0xc000) with (bar2 + pn * PORTAL_BASE_OFFSET + 4 * PORTAL_IND_FIFO 191).
    + rewrite Hr. reflexivity.
    + change (4 * PORTAL_IND_FIFO 191) with 0xc000. unfold PORTAL_BASE_OFFSET. change (Z.shiftl 1 16) with 0x10000. lia.
  - done.
Qed.
End Poll.

(** * A concrete board: [portals] portals, and a kernel that grants [irqs] interrupts *)
Module PcieDemo.
Record kern : Type := { irqs : Z; portals : Z }.

#[local] Instance dev : Device kern :=
  {| mmio_read := fun a k =>
       (if decide (a = 0x1000) then 0x65756c42
        else if decide (a = 0x1004) then 0x63657073
        else if decide (a mod 0x10000 = 0x14 /\ a / 0x10000 - 16 = portals k - 1) then 1
        else if decide (a mod 0x10000 = 0x10) then a / 0x10000 else 0, k);
     mmio_write := fun _ _ k => k; dev_tick := fun k => k |}.
#[local] Instance os : PciOs kern :=
  {| pk_enable := fun k => (0, k); pk_request_region := fun _ k => (0, k);
     pk_iomap := fun bar _ k => (Some (match bar with 0 => 0x1000 | 1 => 0x8000 | _ => 0x100000 end), k);
     pk_set_dma_mask := fun k => (0, k); pk_enable_msix := fun k => ((0, 40), k);
     pk_request_irq := fun _ k => if decide (irqs k > 0) then (0, {| irqs := irqs k - 1; portals := portals k |}) else (-16, k);
     pk_disable_irq := fun _ k => (tt, k);
     pk_cdev_add := fun _ k => (0, k); pk_dma_alloc := fun _ k => ((None, 0), k);
     pk_remap := fun _ _ k => (0, k) |}.

Definition board_dev : pci_device :=
  {| vendor := BLUESPEC_VENDOR_ID; device := CONNECTAL_DEVICE_ID; bar2_start := 0xf0000000 |}.
Definition start (i n : Z) : Drv kern :=
  {| d_board := tBoard_zero; d_held := nothing_held;
     d_trace := {| ti_base := 0; ti_trace := 0; ti_traceLength := 0; ti_intval := replicate 16 0; ti_name := replicate 16 0 |};
     d_trace_index := 0; d_dma_handle := replicate 16 0; d_kern := {| irqs := i; portals := n |} |}.
Definition result (i n : Z) : option (Z * Held) :=
  match pcieportal_probe board_dev (start i n) with Ok r w => Some (r, d_held w) | _ => None end.

(** The driver serves boards with 1 to 15 portals; a board with 16 is
    refused, although [MAX_NUM_PORTALS] is 16. *)
Lemma portal_count_limit :
  (forall n, 1 <= n <= 15 -> fst <$> result 16 n = Some 0) /\ result 16 16 = Some (- EFAULT, nothing_held).
Proof.
  split; [|vm_compute; reflexivity]. intros n Hn.
  assert (Hin : In n (zseq 1 15)) by (cbn; lia).
  assert (Hall : Forall (fun n => fst <$> result 16 n = Some 0) (zseq 1 15)) by (repeat constructor).
  rewrite List.Forall_forall in Hall. by apply Hall.
Qed.

(** When a request for an interrupt is refused, the [i] granted before it stay
    with the driver, which has no board any more. *)
Lemma irq_refused_leaks i : 0 <= i < 16 ->
  result i 4 = Some (- EBUSY, set_irqs (zseq 40 (Z.to_nat i)) nothing_held).
Proof.
  intros Hi. assert (Hin : In i (zseq 0 16)) by (cbn; lia).
  assert (Hall : Forall (fun i => result i 4 = Some (- EBUSY, set_irqs (zseq 40 (Z.to_nat i)) nothing_held)) (zseq 0 16))
    by (repeat constructor).
  rewrite List.Forall_forall in Hall. by apply Hall.
Qed.

Definition up : Drv kern :=
  match pcieportal_probe board_dev (start 16 4) with Ok _ w => w | _ => start 0 0 end.

Lemma probe_remove_witness : active up /\ exists w2, pcieportal_remove board_dev up = Ok tt w2 /\
  d_held w2 = nothing_held /\ pci_dev (d_board w2) = false.
Proof. apply (probe_remove board_dev (start 16 4) up); vm_compute; reflexivity. Defined.



Lemma poll_reads_fifo_register_witness : exists w', pcieportal_poll 2 up = Ok 0 w' /\ d_kern w' = d_kern up /\
  PORTAL_IND_FIFO 191 <> PORTAL_CTRL_REG_INTERRUPT_STATUS.
Proof.
  apply (poll_reads_fifo_register 2 18 0x100000
    {| portal_number := 0; device_name := 0; has_board := false; virt := None; regs := None; extra := true |} up 0 (d_kern up));
    vm_compute; reflexivity.
Defined.
End PcieDemo.
