(* ===== verification/MorrisPratt.v ===== *)
(** The string search of [lib/strstr/cpp/mp.h]: the Morris-Pratt tables
    [compute_borders] and [compute_MP_next] and the matcher [MP].  A C array is
    a list read and written by a checked index, and [None] is an access out of
    its bounds.  The tables are compared with the borders of the needle's
    prefixes, the matcher, called as the programs call it,
    with the automaton it implements and with the search for occurrences. *)

From stdpp Require Import base list option.
From Stdlib Require Import ZArith Lia.
From S2P Require Import Prelude.

(** * The code *)

(** [while ((j>=0) && (x[i] != x[j+1])) j = border[j];]
    The fuel is the number of tests the loop may make. *)
Fixpoint border_while (fuel : nat) (x border : list Z) (i j : Z) : option Z :=
  match fuel with
  | O => None
  | S fuel =>
      if decide (j >= 0) then
        a ← znth x i;
        b ← znth x (j + 1);
        if decide (a <> b) then
          j ← znth border j;
          border_while fuel x border i j
        else Some j
      else Some j
  end.

(** The iterations of the [for] loop from [i] on, [todo] of them. *)
Fixpoint border_for (todo : nat) (x border : list Z) (i : Z) : option (list Z) :=
  match todo with
  | O => Some border
  | S todo =>
      j ← znth border (i - 1);
      j ← border_while (S (Z.to_nat i)) x border i j;
      border ← zupd border i (j + 1);
      border_for todo x border (i + 1)
  end.

Definition compute_borders (x border : list Z) (m : Z) : option (list Z) :=
  border ← zupd border 0 (-1);
  border_for (Z.to_nat m) x border 1.

(** [while ((j>0) && (x[i] != x[j])) j = MP_next[j];] *)
Fixpoint next_while (fuel : nat) (x MP_next : list Z) (i j : Z) : option Z :=
  match fuel with
  | O => None
  | S fuel =>
      if decide (j > 0) then
        a ← znth x i;
        b ← znth x j;
        if decide (a <> b) then
          j ← znth MP_next j;
          next_while fuel x MP_next i j
        else Some j
      else Some j
  end.

Fixpoint next_for (todo : nat) (x MP_next : list Z) (i j : Z) : option (list Z) :=
  match todo with
  | O => Some MP_next
  | S todo =>
      j ← next_while (S (Z.to_nat i)) x MP_next i j;
      let j := j + 1 in
      MP_next ← zupd MP_next (i + 1) j;
      next_for todo x MP_next (i + 1) j
  end.

Definition compute_MP_next (x MP_next : list Z) (m : Z) : option (list Z) :=
  MP_next ← zupd MP_next 1 0;
  next_for (Z.to_nat m) x MP_next 1 0.

(** [while ((i==m+1) || ((i>0) && (x[i-1] != t[j-1]))) i = MP_next[i];] *)
Fixpoint mp_while (fuel : nat) (x t MP_next : list Z) (m i j : Z) : option Z :=
  match fuel with
  | O => None
  | S fuel =>
      again ← (if decide (i = m + 1) then Some true
               else if decide (i > 0) then
                 a ← znth x (i - 1);
                 b ← znth t (j - 1);
                 Some (bool_decide (a <> b))
               else Some false);
      if (again : bool) then
        i ← znth MP_next i;
        mp_while fuel x t MP_next m i j
      else Some i
  end.

(** The outer loop.  The result is the list of the positions printed and the
    value of [*match_cnt]. *)
Fixpoint mp_loop (fuel : nat) (x t MP_next : list Z) (m n i j match_cnt : Z)
    : option (list Z * Z) :=
  if decide (j <= n) then
    match fuel with
    | O => None
    | S fuel =>
        i ← mp_while (Z.to_nat m + 2) x t MP_next m i j;
        let i := i + 1 in
        let j := j + 1 in
        if decide (i = m + 1) then
          '(l, c) ← mp_loop fuel x t MP_next m n 1 j (match_cnt + 1);
          Some (j - i :: l, c)
        else mp_loop fuel x t MP_next m n i j match_cnt
    end
  else Some ([], match_cnt).

Definition MP (x t MP_next : list Z) (m n match_cnt : Z) : option (list Z * Z) :=
  mp_loop (Z.to_nat n) x t MP_next m n 1 1 match_cnt.

(** * References *)

(** The positions, from [s] on, at which [x] occurs in the text [t] of which
    [s] characters are gone; after an occurrence the search goes on behind it. *)
Fixpoint occurrences (fuel : nat) (x t : list Z) (s : Z) : list Z :=
  match fuel with
  | O => []
  | S fuel =>
      if decide (length t < length x)%nat then []
      else if decide (take (length x) t = x) then
        s :: occurrences fuel x (drop (length x) t) (s + Z.of_nat (length x))
      else occurrences fuel x (drop 1 t) (s + 1)
  end.

Definition search (x t : list Z) : list Z := occurrences (length t) x t 0.

(** The automaton that goes back to the start of the needle at a mismatch:
    [q] characters are matched, [s] characters of the text are gone. *)
Fixpoint restart_scan (x t : list Z) (q : nat) (s : Z) : list Z :=
  match t with
  | [] => []
  | a :: t =>
      let q := if decide (x !! q = Some a) then S q
               else if decide (x !! 0%nat = Some a) then 1%nat else 0%nat in
      if decide (q = length x) then
        s + 1 - Z.of_nat (length x) :: restart_scan x t 0 (s + 1)
      else restart_scan x t q (s + 1)
  end.

Example search_ex : search [1;2;1] [1;2;1;2;1;0;1;2;1] = [0; 6].
Proof. reflexivity. Qed.

Example MP_ex :
  (tb ← compute_MP_next [0;1;1;2] (replicate 10 0) 3; MP [1;1;2] [1;1;1;2;1;1;2] tb 3 7 0)
    = Some ([1; 4], 2).
Proof. reflexivity. Qed.

Example MP_ex2 :
  (tb ← compute_MP_next [1;1;2;0] (replicate 10 0) 3; MP [1;1;2] [1;1;1;2;1;1;2] tb 3 7 0)
    = Some ([4], 1).
Proof. reflexivity. Qed.

(** * Borders of a string

    [c] is the string, read from position 1.  [XB p k] says that [k] is the
    length of a border of the prefix of length [p] that is shorter than the
    prefix, with [-1] as the border below all others. *)

Section Borders.
Variable c : Z -> Z.

Definition border_of (p k : Z) : Prop :=
  0 <= k < p /\ forall d, 1 <= d <= k -> c d = c (p - k + d).

Definition XB (p k : Z) : Prop := k = -1 \/ border_of p k.

Definition longest (p k : Z) : Prop := XB p k /\ forall k', XB p k' -> k' <= k.

(** [k] is the longest border of the prefix that the character [a] extends. *)
Definition best (p a k : Z) : Prop :=
  XB p k /\ (k = -1 \/ c (k + 1) = a) /\
  forall k', XB p k' -> k' = -1 \/ c (k' + 1) = a -> k' <= k.

Lemma XB_range p k : XB p k -> -1 <= k /\ (k = -1 \/ k < p).
Proof. intros [-> | [? _]]; lia. Qed.

Lemma longest_unique p k k' : longest p k -> longest p k' -> k = k'.
Proof. intros [H1 H2] [H3 H4]. specialize (H2 _ H3). specialize (H4 _ H1). lia. Qed.

Lemma longest_0 : longest 0 (-1).
Proof. split; [by left|]. intros k' [-> | [? _]]; lia. Qed.

Lemma border_trans p j k : border_of p j -> border_of j k -> border_of p k.
Proof.
  intros [H1 H2] [H3 H4]. split; [lia|]. intros d Hd.
  rewrite (H4 d Hd), (H2 (j - k + d)) by lia. f_equal. lia.
Qed.

Lemma border_sub p j k : border_of p j -> border_of p k -> k < j -> border_of j k.
Proof.
  intros [H1 H2] [H3 H4] Hk. split; [lia|]. intros d Hd.
  rewrite (H4 d Hd), (H2 (j - k + d)) by lia. f_equal. lia.
Qed.

(** Falling back from a border to its own longest border skips no border. *)
Lemma fall_step p j j' :
  XB p j -> 0 <= j -> longest j j' ->
  XB p j' /\ -1 <= j' < j /\ forall k, XB p k -> k < j -> k <= j'.
Proof.
  intros Hj H0 [H1 H2]. destruct Hj as [-> | Hj]; [lia|]. repeat split.
  - destruct H1 as [-> | H1]; [by left|]. right. by eapply border_trans.
  - by apply XB_range in H1 as [? _].
  - apply XB_range in H1. lia.
  - intros k [-> | Hk] Hlt; [apply XB_range in H1; lia|].
    apply H2. right. by eapply border_sub.
Qed.

(** The same for a whole chain: what is skipped does not extend by [a]. *)
Lemma fall_keeps p a j j' :
  XB p j -> 0 <= j -> longest j j' -> c (j + 1) <> a ->
  (forall k, XB p k -> k = -1 \/ c (k + 1) = a -> k <= j) ->
  XB p j' /\ -1 <= j' < j /\ forall k, XB p k -> k = -1 \/ c (k + 1) = a -> k <= j'.
Proof.
  intros Hj H0 Hl Hne Hmax. destruct (fall_step p j j' Hj H0 Hl) as (H1 & H2 & H3).
  split; [done|]. split; [done|]. intros k Hk Ha. apply H3; [done|].
  specialize (Hmax k Hk Ha). destruct (decide (k = j)) as [-> | ]; [|lia].
  destruct Ha; [lia|done].
Qed.

Lemma longest_succ p k : 0 <= p -> best p (c (p + 1)) k -> longest (p + 1) (k + 1).
Proof.
  intros Hp (H1 & H2 & H3). split.
  - right. pose proof (XB_range _ _ H1) as Hr. split; [lia|]. intros d Hd.
    destruct H1 as [-> | [H1 H4]]; [lia|]. destruct (decide (d = k + 1)) as [-> | ].
    + destruct H2 as [-> | H2]; [lia|]. rewrite H2. f_equal. lia.
    + rewrite H4 by lia. f_equal. lia.
  - intros k' [-> | [Hk' Hd]]; [apply XB_range in H1; lia|].
    destruct (decide (k' = 0)) as [-> | ]; [apply XB_range in H1; lia|].
    enough (k' - 1 <= k) by lia. apply H3.
    + right. split; [lia|]. intros d Hd'. rewrite Hd by lia. f_equal. lia.
    + right. replace (k' - 1 + 1) with k' by lia. rewrite Hd by lia. f_equal. lia.
Qed.
End Borders.

(** * The tables *)

Definition ch (x : list Z) (i : Z) : Z := default 0 (znth x i).

Lemma znth_ch x i : 0 <= i < Z.of_nat (length x) -> znth x i = Some (ch x i).
Proof. intros H. unfold ch. by destruct (znth_in_range x i H) as [a ->]. Qed.

Lemma ch_nat x (i : nat) : ch x (Z.of_nat i) = default 0 (x !! i).
Proof. unfold ch, znth. rewrite decide_True by lia. by rewrite Nat2Z.id. Qed.

Lemma ch_cons a x i : 1 <= i -> ch (a :: x) i = ch x (i - 1).
Proof.
  intros H. unfold ch, znth. rewrite !decide_True by lia.
  replace (Z.to_nat i) with (S (Z.to_nat (i - 1))) by lia. done.
Qed.

(** Rows [0..p] of a border table, and the rows [1..p+1] of a [MP_next] table,
    which hold one more than the border of the prefix before the row. *)
Definition border_tab (c : Z -> Z) (b : list Z) (p : Z) : Prop :=
  forall q, 0 <= q <= p -> exists k, znth b q = Some k /\ longest c q k.
Definition next_tab (c : Z -> Z) (nx : list Z) (p : Z) : Prop :=
  forall q, 0 <= q <= p -> exists k, znth nx (q + 1) = Some (k + 1) /\ longest c q k.

Lemma border_tab_upd c b b' p k :
  border_tab c b p -> zupd b (p + 1) k = Some b' -> longest c (p + 1) k ->
  border_tab c b' (p + 1).
Proof.
  intros H Hu Hl q Hq. destruct (decide (q = p + 1)) as [-> | ].
  - exists k. split; [by eapply znth_zupd_eq|done].
  - rewrite (znth_zupd_ne b b' (p + 1) q k) by (done || lia). apply H. lia.
Qed.

Lemma next_tab_upd c nx nx' p k :
  next_tab c nx p -> zupd nx (p + 2) (k + 1) = Some nx' -> longest c (p + 1) k ->
  next_tab c nx' (p + 1).
Proof.
  intros H Hu Hl q Hq. destruct (decide (q = p + 1)) as [-> | ].
  - exists k. split; [|done]. replace (p + 1 + 1) with (p + 2) by lia.
    by eapply znth_zupd_eq.
  - rewrite (znth_zupd_ne nx nx' (p + 2) (q + 1) (k + 1)) by (done || lia). apply H. lia.
Qed.

Lemma border_while_best x b i fuel : forall j,
  1 <= i < Z.of_nat (length x) -> border_tab (ch x) b (i - 1) ->
  XB (ch x) (i - 1) j -> (Z.to_nat (j + 1) < fuel)%nat ->
  (forall k, XB (ch x) (i - 1) k -> k = -1 \/ ch x (k + 1) = ch x i -> k <= j) ->
  exists k, border_while fuel x b i j = Some k /\ best (ch x) (i - 1) (ch x i) k.
Proof.
  induction fuel as [|fuel IH]; intros j Hi Ht Hj Hf Hmax; [lia|]. cbn [border_while].
  pose proof (XB_range _ _ _ Hj) as Hr. case_decide as Hj0.
  - rewrite !(znth_ch x) by lia. cbn. case_decide as Hne.
    + destruct (Ht j) as (j' & Hb & Hl); [lia|]. rewrite Hb. cbn.
      destruct (fall_keeps (ch x) (i - 1) (ch x i) j j') as (H1 & H2 & H3); [done|lia|done|congruence|done|].
      apply IH; try done. lia.
    + exists j. split; [done|]. split; [done|]. split; [|done]. right.
      destruct (decide (ch x (j + 1) = ch x i)); [done|congruence].
  - exists j. split; [done|]. split; [done|]. split; [left; lia|done].
Qed.

Lemma next_while_best x nx i fuel : forall j,
  1 <= i < Z.of_nat (length x) -> next_tab (ch x) nx (i - 1) ->
  XB (ch x) (i - 1) (j - 1) -> (Z.to_nat j < fuel)%nat ->
  (forall k, XB (ch x) (i - 1) k -> k = -1 \/ ch x (k + 1) = ch x i -> k <= j - 1) ->
  exists k, next_while fuel x nx i j = Some (k + 1) /\ best (ch x) (i - 1) (ch x i) k.
Proof.
  induction fuel as [|fuel IH]; intros j Hi Ht Hj Hf Hmax; [lia|]. cbn [next_while].
  pose proof (XB_range _ _ _ Hj) as Hr. case_decide as Hj0.
  - rewrite !(znth_ch x) by lia. cbn. case_decide as Hne.
    + destruct (Ht (j - 1)) as (j' & Hb & Hl); [lia|].
      replace (j - 1 + 1) with j in Hb by lia. rewrite Hb. cbn.
      destruct (fall_keeps (ch x) (i - 1) (ch x i) (j - 1) j') as (H1 & H2 & H3);
        [done|lia|done|replace (j - 1 + 1) with j by lia; congruence|done|].
      apply IH; try done; try lia; replace (j' + 1 - 1) with j' by lia; done.
    + exists (j - 1). split; [f_equal; lia|]. split; [done|]. split; [|done]. right.
      replace (j - 1 + 1) with j by lia. destruct (decide (ch x j = ch x i)); [done|congruence].
  - exists (j - 1). split; [f_equal; lia|]. split; [done|]. split; [left; lia|done].
Qed.

Lemma border_for_tab x todo : forall b i,
  1 <= i -> i - 1 + Z.of_nat todo < Z.of_nat (length x) ->
  i - 1 + Z.of_nat todo < Z.of_nat (length b) -> border_tab (ch x) b (i - 1) ->
  exists b', border_for todo x b i = Some b' /\ border_tab (ch x) b' (i - 1 + Z.of_nat todo).
Proof.
  induction todo as [|todo IH]; intros b i Hi Hx Hb Ht; cbn [border_for].
  { exists b. split; [done|]. by replace (i - 1 + Z.of_nat 0) with (i - 1) by lia. }
  destruct (Ht (i - 1)) as (j & Hj & Hl); [lia|]. rewrite Hj. cbn.
  destruct (border_while_best x b i (S (Z.to_nat i)) j) as (k & Hw & Hbest); try done; [lia|apply Hl| | |].
  { destruct Hl as [H%XB_range _]. lia. }
  { intros k Hk _. by apply Hl. }
  cbn in Hw. rewrite Hw. cbn. rewrite zupd_Some by lia. cbn.
  replace (i - 1 + Z.of_nat (S todo)) with (i + 1 - 1 + Z.of_nat todo) by lia.
  apply IH; [lia|lia|rewrite length_insert; lia|].
  replace (i + 1 - 1) with (i - 1 + 1) by lia.
  apply (border_tab_upd _ b _ _ (k + 1) Ht).
  - replace (i - 1 + 1) with i by lia. apply zupd_Some. lia.
  - apply longest_succ; [lia|]. by replace (i - 1 + 1) with i by lia.
Qed.

Lemma next_for_tab x todo : forall nx i j,
  1 <= i -> i - 1 + Z.of_nat todo < Z.of_nat (length x) ->
  i + Z.of_nat todo < Z.of_nat (length nx) -> next_tab (ch x) nx (i - 1) ->
  longest (ch x) (i - 1) (j - 1) ->
  exists nx', next_for todo x nx i j = Some nx' /\ next_tab (ch x) nx' (i - 1 + Z.of_nat todo).
Proof.
  induction todo as [|todo IH]; intros nx i j Hi Hx Hb Ht Hl; cbn [next_for].
  { exists nx. split; [done|]. by replace (i - 1 + Z.of_nat 0) with (i - 1) by lia. }
  destruct (next_while_best x nx i (S (Z.to_nat i)) j) as (k & Hw & Hbest); try done; [lia|apply Hl| | |].
  { destruct Hl as [H%XB_range _]. lia. }
  { intros k Hk _. by apply Hl. }
  cbn [next_while] in Hw |- *. rewrite Hw. cbn. rewrite zupd_Some by lia. cbn.
  assert (Hs : longest (ch x) (i - 1 + 1) (k + 1)).
  { apply longest_succ; [lia|]. by replace (i - 1 + 1) with i by lia. }
  replace (i - 1 + Z.of_nat (S todo)) with (i + 1 - 1 + Z.of_nat todo) by lia.
  apply IH; [lia|lia|rewrite length_insert; lia| |].
  - replace (i + 1 - 1) with (i - 1 + 1) by lia.
    apply (next_tab_upd _ nx _ _ (k + 1) Ht); [|done].
    replace (i - 1 + 2) with (i + 1) by lia. apply zupd_Some. lia.
  - replace (i + 1 - 1) with (i - 1 + 1) by lia. by replace (k + 1 + 1 - 1) with (k + 1) by lia.
Qed.

Lemma compute_borders_tab x b m :
  0 <= m < Z.of_nat (length x) -> m < Z.of_nat (length b) ->
  exists b', compute_borders x b m = Some b' /\ border_tab (ch x) b' m.
Proof.
  intros Hx Hb. unfold compute_borders. rewrite zupd_Some by lia. cbn.
  destruct (border_for_tab x (Z.to_nat m) (<[Z.to_nat 0:=-1]> b) 1) as (b' & H1 & H2);
    [lia|lia|rewrite length_insert; lia| |
     exists b'; split; [done|]; by replace (1 - 1 + Z.of_nat (Z.to_nat m)) with m in H2 by lia].
  intros q Hq. exists (-1). replace q with 0 by lia. split; [|apply longest_0].
  apply (znth_zupd_eq b). apply zupd_Some. lia.
Qed.

Lemma compute_MP_next_tab x nx m :
  0 <= m < Z.of_nat (length x) -> m + 1 < Z.of_nat (length nx) ->
  exists nx', compute_MP_next x nx m = Some nx' /\ next_tab (ch x) nx' m.
Proof.
  intros Hx Hb. unfold compute_MP_next. rewrite zupd_Some by lia. cbn.
  destruct (next_for_tab x (Z.to_nat m) (<[Z.to_nat 1:=0]> nx) 1 0) as (b' & H1 & H2);
    [lia|lia|rewrite length_insert; lia| |apply longest_0|
     exists b'; split; [done|]; by replace (1 - 1 + Z.of_nat (Z.to_nat m)) with m in H2 by lia].
  intros q Hq. exists (-1). replace q with 0 by lia. split; [|apply longest_0].
  apply (znth_zupd_eq nx). apply zupd_Some. lia.
Qed.

(** for a needle whose characters are stored from index 1, both table
    computations end without leaving their arrays; row [i] of [compute_borders]
    is the longest proper border of the prefix of [i] characters, and the
    tables satisfy the relation [MP_next[i] == border[i-1]+1] that the callers
    assert. *)
Theorem tables_hold_borders x border MP_next m :
  0 <= m < Z.of_nat (length x) ->
  m < Z.of_nat (length border) -> m + 1 < Z.of_nat (length MP_next) ->
  exists b n, compute_borders x border m = Some b /\ compute_MP_next x MP_next m = Some n /\
    (forall i, 1 <= i <= m -> exists k, znth b i = Some k /\ border_of (ch x) i k /\
       forall k', border_of (ch x) i k' -> k' <= k) /\
    znth n 1 = Some 0 /\
    (forall i, 1 <= i <= m + 1 -> exists k, znth b (i - 1) = Some k /\ znth n i = Some (k + 1)).
Proof.
  intros Hx Hb Hn. destruct (compute_borders_tab x border m) as (b & H1 & H2); [done..|].
  destruct (compute_MP_next_tab x MP_next m) as (n & H3 & H4); [done..|].
  exists b, n. repeat split; [done|done| | |].
  - intros i Hi. destruct (H2 i) as (k & Hk & Hl & Hmax); [lia|]. exists k.
    assert (0 <= k). { apply Hmax. right. split; [lia|]. intros d Hd. lia. }
    split; [done|]. split; [destruct Hl; [lia|done]|]. intros k' Hk'. apply Hmax. by right.
  - destruct (H4 0) as (k & Hk & Hl); [lia|].
    by rewrite <- (longest_unique _ _ _ _ (longest_0 _) Hl) in Hk.
  - intros i Hi. destruct (H2 (i - 1)) as (k & Hk & Hl); [lia|].
    destruct (H4 (i - 1)) as (k' & Hk' & Hl'); [lia|]. exists k. split; [done|].
    rewrite (longest_unique _ _ _ _ Hl Hl'). by replace (i - 1 + 1) with i in Hk' by lia.
Qed.

Lemma tables_hold_borders_witness :
  exists b n, compute_borders [0;1;1;2] (replicate 4 0) 3 = Some b /\
    compute_MP_next [0;1;1;2] (replicate 5 0) 3 = Some n /\
    znth n 1 = Some 0 /\ znth b 2 = Some 1 /\ znth n 3 = Some 2.
Proof.
  destruct (tables_hold_borders [0;1;1;2] (replicate 4 0) (replicate 5 0) 3)
    as (b & n & H1 & H2 & _ & H3 & _); [cbn; lia..|].
  exists b, n. vm_compute in H1, H2. simplify_eq. repeat split; reflexivity.
Defined.

(** * The reference search *)

Lemma occurrences_short fuel x t s : (length t < length x)%nat -> occurrences fuel x t s = [].
Proof. intros H. destruct fuel; [done|]. cbn. by rewrite decide_True. Qed.

Lemma occurrences_fuel x fuel : forall fuel' t s,
  (1 <= length x)%nat -> (length t <= fuel)%nat -> (length t <= fuel')%nat ->
  occurrences fuel x t s = occurrences fuel' x t s.
Proof.
  induction fuel as [|fuel IH]; intros fuel' t s Hx H1 H2.
  { rewrite !occurrences_short by lia. done. }
  destruct fuel' as [|fuel']; [rewrite !occurrences_short by lia; done|].
  cbn [occurrences]. case_decide; [done|]. case_decide.
  - f_equal. apply IH; [done|rewrite length_drop; lia..].
  - apply IH; [done|rewrite length_drop; lia..].
Qed.

Lemma occurrences_hit fuel x t s :
  take (length x) t = x ->
  occurrences (S fuel) x t s
    = s :: occurrences fuel x (drop (length x) t) (s + Z.of_nat (length x)).
Proof.
  intros H. cbn. pose proof (f_equal length H) as E. rewrite length_take in E.
  rewrite decide_False by lia. by rewrite decide_True.
Qed.

Lemma occurrences_miss fuel x t s :
  (length x <= length t)%nat -> take (length x) t <> x ->
  occurrences (S fuel) x t s = occurrences fuel x (drop 1 t) (s + 1).
Proof. intros H1 H2. cbn. rewrite decide_False by lia. by rewrite decide_False. Qed.

Section Search.
Variables (x t : list Z).
Hypothesis x_nonempty : (1 <= length x)%nat.
Local Abbreviation m := (Z.of_nat (length x)).
Local Abbreviation n := (Z.of_nat (length t)).

(** The needle's characters, counted from 1. *)
Definition nc (k : Z) : Z := ch x (k - 1).

Definition occurs_at (p : nat) : Prop := take (length x) (drop p t) = x.

Definition occ_from (p : Z) : list Z :=
  occurrences (length t) x (drop (Z.to_nat p) t) p.

Lemma occ_from_hit p :
  0 <= p -> occurs_at (Z.to_nat p) -> occ_from p = p :: occ_from (p + m).
Proof.
  intros Hp Ho. unfold occ_from.
  assert (Hl : (length x <= length (drop (Z.to_nat p) t))%nat).
  { pose proof (f_equal length Ho) as E. rewrite length_take in E. lia. }
  pose proof Hl as Hl'. rewrite length_drop in Hl'.
  destruct (length t) as [|f] eqn:Hf; [lia|]. rewrite occurrences_hit by done. f_equal.
  rewrite drop_drop. replace (Z.to_nat p + length x)%nat with (Z.to_nat (p + m)) by lia.
  apply occurrences_fuel; [done|rewrite length_drop; lia..].
Qed.

Lemma occ_from_skip1 p :
  0 <= p -> ~ occurs_at (Z.to_nat p) -> occ_from p = occ_from (p + 1).
Proof.
  intros Hp Ho. unfold occ_from.
  destruct (decide (length (drop (Z.to_nat p) t) < length x)%nat) as [Hs|Hs].
  { rewrite !occurrences_short; [done| |done]. rewrite length_drop in *. lia. }
  pose proof Hs as Hs'. rewrite length_drop in Hs'.
  destruct (length t) as [|f] eqn:Hf; [lia|]. rewrite occurrences_miss by (done || lia).
  rewrite drop_drop. replace (Z.to_nat p + 1)%nat with (Z.to_nat (p + 1)) by lia.
  apply (occurrences_fuel x f (S f)); [done|rewrite length_drop; lia..].
Qed.

Lemma occ_from_skip (a b : Z) :
  0 <= a <= b -> (forall p, a <= p < b -> ~ occurs_at (Z.to_nat p)) -> occ_from a = occ_from b.
Proof.
  intros Hab H. remember (Z.to_nat (b - a)) as k eqn:Hk. revert a Hab H Hk.
  induction k as [|k IH]; intros a Hab H Hk; [replace b with a by lia; done|].
  rewrite occ_from_skip1; [|lia|apply H; lia]. apply IH; [lia| |lia].
  intros p Hp. apply H. lia.
Qed.

Lemma occ_from_tail p : 0 <= p -> n - m < p -> occ_from p = [].
Proof. intros Hp H. apply occurrences_short. rewrite length_drop. lia. Qed.

(** An occurrence, character by character. *)
Lemma occurs_chars p :
  0 <= p -> occurs_at (Z.to_nat p) <->
  p + m <= n /\ forall d, 1 <= d <= m -> nc d = ch t (p + d - 1).
Proof.
  intros Hp. unfold occurs_at, nc. split.
  - intros H. split.
    + assert (Hl := f_equal length H). rewrite length_take, length_drop in Hl. lia.
    + intros d Hd. replace (d - 1) with (Z.of_nat (Z.to_nat (d - 1))) by lia.
      replace (p + d - 1) with (Z.of_nat (Z.to_nat p + Z.to_nat (d - 1))) by lia.
      rewrite !ch_nat, <- H, lookup_take_lt, lookup_drop by lia. done.
  - intros [Hl H]. apply list_eq_same_length with (n := length x); [done| |].
    + rewrite length_take, length_drop. lia.
    + intros i a b Hi. rewrite lookup_take_lt, lookup_drop by lia. intros Ha Hb.
      specialize (H (Z.of_nat i + 1) ltac:(lia)).
      replace (Z.of_nat i + 1 - 1) with (Z.of_nat i) in H by lia.
      replace (p + (Z.of_nat i + 1) - 1) with (Z.of_nat (Z.to_nat p + i)) in H by lia.
      rewrite !ch_nat, Ha, Hb in H. done.
Qed.

(** ** The matcher, for a table that makes each round right *)

Variables (rest nx : list Z).
Local Abbreviation xs := (x ++ rest).

(** The last [q] of the [J] characters read are the first [q] of the needle. *)
Definition matched (J q : Z) : Prop := forall d, 1 <= d <= q -> nc d = ch t (J - q + d - 1).

Lemma znth_xs k : 0 <= k < m -> znth xs k = Some (nc (k + 1)).
Proof.
  intros Hk. unfold nc. replace (k + 1 - 1) with k by lia. rewrite <- znth_ch by lia.
  unfold znth. rewrite !decide_True by lia. apply lookup_app_l. lia.
Qed.

(** A round that reads character [J] extends the match of [k <= q] characters
    (or starts over, [k = -1]) and passes over no occurrence. *)
Definition round_ok : Prop := forall q J,
  0 <= q < m -> q <= J < n -> matched J q ->
  exists k, mp_while (Z.to_nat m + 2) xs t nx m (q + 1) (J + 1) = Some (k + 1) /\
    -1 <= k <= q /\ (0 <= k -> matched J k /\ nc (k + 1) = ch t J) /\
    forall p, J - q <= p < J - k -> ~ occurs_at (Z.to_nat p).

Lemma matched_succ J k :
  -1 <= k -> (0 <= k -> matched J k /\ nc (k + 1) = ch t J) -> matched (J + 1) (k + 1).
Proof.
  intros Hk H d Hd. destruct (decide (k = -1)) as [-> | ]; [lia|]. destruct H as [H1 H2]; [lia|].
  destruct (decide (d = k + 1)) as [-> | ].
  - rewrite H2. f_equal. lia.
  - rewrite H1 by lia. f_equal. lia.
Qed.

Lemma mp_loop_search : round_ok -> forall fuel q J mc,
  0 <= q < m -> q <= J <= n -> matched J q -> n - J <= Z.of_nat fuel ->
  mp_loop fuel xs t nx m n (q + 1) (J + 1) mc
    = Some (occ_from (J - q), mc + Z.of_nat (length (occ_from (J - q)))).
Proof.
  intros Hround. induction fuel as [|fuel IH]; intros q J mc Hq HJ Hm Hf; cbn [mp_loop].
  { rewrite decide_False by lia. rewrite occ_from_tail by lia. cbn. do 2 f_equal. lia. }
  destruct (decide (J + 1 <= n)); cycle 1.
  { rewrite occ_from_tail by lia. cbn. do 2 f_equal. lia. }
  destruct (Hround q J Hq) as (k & Hw & Hk & Hext & Hno); [lia|done|]. rewrite Hw. cbn [mbind option_bind].
  rewrite (occ_from_skip (J - q) (J - k)) by (lia || done).
  pose proof (matched_succ J k ltac:(lia) Hext) as Hm'. case_decide as Hi.
  - assert (Hk' : k + 1 = m) by lia. rewrite Hk' in Hm'.
    rewrite (IH 0 (J + 1)); [|lia|lia| |lia].
    2: { intros d Hd. lia. }
    rewrite (occ_from_hit (J - k)); [|lia|].
    2: { apply occurs_chars; [lia|]. split; [lia|]. intros d Hd. rewrite Hm' by lia. f_equal. lia. }
    replace (J + 1 - 0) with (J - k + m) by lia. cbn [mbind option_bind length].
    replace (J + 1 + 1 - (k + 1 + 1)) with (J - k) by lia. do 2 f_equal. lia.
  - rewrite (IH (k + 1) (J + 1)) by (done || lia).
    by replace (J + 1 - (k + 1)) with (J - k) by lia.
Qed.

Lemma MP_search mc : round_ok ->
  MP xs t nx m n mc = Some (search x t, mc + Z.of_nat (length (search x t))).
Proof.
  intros Hr. unfold MP, search. apply (mp_loop_search Hr (Z.to_nat n) 0 0 mc); [lia..| |lia].
  intros d Hd. lia.
Qed.

(** One test of the inner loop. *)
Lemma mp_while_stop fuel i J :
  1 <= i <= m -> 0 <= J < n -> nc i = ch t J -> mp_while (S fuel) xs t nx m i (J + 1) = Some i.
Proof.
  intros Hi HJ Hc. cbn [mp_while]. rewrite decide_False, decide_True by lia.
  rewrite znth_xs by lia. replace (i - 1 + 1) with i by lia.
  replace (J + 1 - 1) with J by lia. rewrite (znth_ch t) by lia. cbn.
  by rewrite bool_decide_eq_false_2 by congruence.
Qed.

Lemma mp_while_fall fuel i i' J :
  1 <= i <= m -> 0 <= J < n -> nc i <> ch t J -> znth nx i = Some i' ->
  mp_while (S fuel) xs t nx m i (J + 1) = mp_while fuel xs t nx m i' (J + 1).
Proof.
  intros Hi HJ Hc Hx. cbn [mp_while]. rewrite decide_False, decide_True by lia.
  rewrite znth_xs by lia. replace (i - 1 + 1) with i by lia.
  replace (J + 1 - 1) with J by lia. rewrite (znth_ch t) by lia. cbn.
  rewrite bool_decide_eq_true_2 by congruence. by rewrite Hx.
Qed.

Lemma mp_while_zero fuel J : mp_while (S fuel) xs t nx m 0 (J + 1) = Some 0.
Proof. cbn [mp_while]. rewrite decide_False by lia. done. Qed.

(** ** With the table of the needle itself *)

Lemma mp_while_best q J fuel : forall k,
  next_tab nc nx m -> 0 <= q < m -> 0 <= J < n ->
  XB nc q k -> (Z.to_nat (k + 1) < fuel)%nat ->
  (forall k', XB nc q k' -> k' = -1 \/ nc (k' + 1) = ch t J -> k' <= k) ->
  exists k', mp_while fuel xs t nx m (k + 1) (J + 1) = Some (k' + 1) /\ best nc q (ch t J) k'.
Proof.
  induction fuel as [|fuel IH]; intros k Ht Hq HJ Hk Hf Hmax; [lia|].
  pose proof (XB_range _ _ _ Hk) as Hr. destruct (decide (k = -1)) as [-> | Hk1].
  { exists (-1). rewrite mp_while_zero. split; [done|]. split; [done|]. split; [by left|done]. }
  destruct (decide (nc (k + 1) = ch t J)) as [E|E].
  - exists k. rewrite mp_while_stop by (done || lia). split; [done|].
    split; [done|]. split; [by right|done].
  - destruct (Ht k) as (k' & Hn & Hl); [lia|]. rewrite (mp_while_fall _ _ (k' + 1)) by (done || lia).
    destruct (fall_keeps nc q (ch t J) k k') as (H1 & H2 & H3); [done|lia|done..|].
    apply IH; try done. lia.
Qed.

Lemma round_ok_table : next_tab nc nx m -> round_ok.
Proof.
  intros Ht q J Hq HJ Hm. destruct (decide (nc (q + 1) = ch t J)) as [E|E].
  { exists q. replace (Z.to_nat m + 2)%nat with (S (Z.to_nat m + 1)) by lia.
    rewrite mp_while_stop by (done || lia). repeat split; [lia|lia|done|done|]. intros p Hp. lia. }
  destruct (Ht q) as (j & Hn & Hl); [lia|].
  destruct (mp_while_best q J (Z.to_nat m + 1) j) as (k & Hw & Hb & Hc & Hmax); try done; [lia|apply Hl| | |].
  { destruct Hl as [H%XB_range _]. lia. }
  { intros k' Hk' _. by apply Hl. }
  pose proof (XB_range _ _ _ Hb) as Hr.
  exists k. replace (Z.to_nat m + 2)%nat with (S (Z.to_nat m + 1)) by lia.
  rewrite (mp_while_fall _ _ (j + 1)) by (done || lia). split; [done|]. split; [lia|]. split.
  - intros Hk. destruct Hb as [-> | [_ Hb]]; [lia|]. split; [|by destruct Hc as [-> | Hc]; [lia|]].
    intros d Hd. rewrite Hb by lia. rewrite Hm by lia. f_equal. lia.
  - intros p Hp [Hl1 Ho]%occurs_chars; [|lia].
    destruct (decide (p = J - q)) as [-> | ].
    { apply E. rewrite Ho by lia. f_equal. lia. }
    assert (J - p <= k); [|lia]. apply Hmax.
    + right. split; [lia|]. intros d Hd. rewrite Ho, Hm by lia. f_equal. lia.
    + right. rewrite Ho by lia. f_equal. lia.
Qed.

(** ** With the table of the string that starts one character later *)

Lemma mp_while_shifted q J fuel : forall k,
  next_tab (fun d => nc (d + 1)) nx (m - 1) -> 0 <= q < m -> 0 <= J < n -> nc (q + 1) <> ch t J ->
  XB (fun d => nc (d + 1)) q k -> 0 <= k -> (Z.to_nat (k + 2) <= fuel)%nat ->
  mp_while fuel xs t nx m (k + 1) (J + 1) = Some (if decide (nc 1 = ch t J) then 1 else 0).
Proof.
  induction fuel as [|fuel IH]; intros k Ht Hq HJ Hne Hk Hk0 Hf; [lia|].
  pose proof (XB_range _ _ _ Hk) as Hr. destruct (Ht k) as (k' & Hn & Hl); [lia|].
  destruct (decide (k = 0)) as [-> | ].
  - case_decide as E; [by apply mp_while_stop; [lia..|]|].
    rewrite (longest_unique _ _ _ _ Hl (longest_0 _)) in Hn.
    rewrite (mp_while_fall _ _ 0) by (done || lia).
    destruct fuel; [lia|]. apply mp_while_zero.
  - assert (E : nc (k + 1) = nc (q + 1)).
    { destruct Hk as [-> | [_ Hk]]; [lia|]. rewrite (Hk k) by lia. f_equal. lia. }
    rewrite (mp_while_fall _ _ (k' + 1)) by (congruence || lia || done).
    destruct (fall_step _ q k k' Hk ltac:(lia) Hl) as (H1 & H2 & _).
    apply IH; try done; [|lia]. apply Hl. right. split; [lia|]. intros d Hd. lia.
Qed.

(** The round with that table: at a mismatch, back to the first character. *)
Lemma shifted_round q J :
  next_tab (fun d => nc (d + 1)) nx (m - 1) -> 0 <= q < m -> 0 <= J < n ->
  mp_while (Z.to_nat m + 2) xs t nx m (q + 1) (J + 1)
    = Some (if decide (nc (q + 1) = ch t J) then q + 1
            else if decide (nc 1 = ch t J) then 1 else 0).
Proof.
  intros Ht Hq HJ. replace (Z.to_nat m + 2)%nat with (S (Z.to_nat m + 1)) by lia.
  case_decide as E; [apply mp_while_stop; (done || lia)|].
  destruct (Ht q) as (k & Hn & Hl); [lia|]. rewrite (mp_while_fall _ _ (k + 1)) by (done || lia).
  destruct (decide (q = 0)) as [-> | ].
  - rewrite (longest_unique _ _ _ _ Hl (longest_0 _)), decide_False by done.
    replace (Z.to_nat m + 1)%nat with (S (Z.to_nat m)) by lia. apply mp_while_zero.
  - pose proof (XB_range _ _ _ (proj1 Hl)) as Hr. apply (mp_while_shifted q); try done; [apply Hl| |].
    + apply Hl. right. split; [lia|]. intros d Hd. lia.
    + lia.
Qed.

Lemma nc_lookup (q : nat) J :
  (q < length x)%nat -> 0 <= J < n ->
  nc (Z.of_nat q + 1) = ch t J <-> x !! q = Some (ch t J).
Proof.
  intros Hq HJ. unfold nc. replace (Z.of_nat q + 1 - 1) with (Z.of_nat q) by lia.
  rewrite (ch_nat x). destruct (lookup_lt_is_Some_2 x q Hq) as [a ->]. cbn.
  split; congruence.
Qed.

Lemma mp_loop_restart : next_tab (fun d => nc (d + 1)) nx (m - 1) -> forall fuel (q : nat) J mc,
  (q < length x)%nat -> 0 <= J <= n -> n - J <= Z.of_nat fuel ->
  let r := restart_scan x (drop (Z.to_nat J) t) q J in
  mp_loop fuel xs t nx m n (Z.of_nat q + 1) (J + 1) mc = Some (r, mc + Z.of_nat (length r)).
Proof.
  intros Ht. induction fuel as [|fuel IH]; intros q J mc Hq HJ Hf; cbn [mp_loop].
  { rewrite decide_False by lia. rewrite drop_ge by lia. cbn. do 2 f_equal. lia. }
  destruct (decide (J + 1 <= n)); cycle 1.
  { rewrite drop_ge by lia. cbn. do 2 f_equal. lia. }
  rewrite shifted_round by (done || lia). cbn [mbind option_bind].
  assert (HtJ : t !! Z.to_nat J = Some (ch t J)).
  { rewrite <- (znth_ch t J) by lia. unfold znth. by rewrite decide_True by lia. }
  rewrite (drop_S t (ch t J) (Z.to_nat J)) by done. cbn [restart_scan].
  replace (S (Z.to_nat J)) with (Z.to_nat (J + 1)) by lia.
  pose proof (nc_lookup q J Hq ltac:(lia)) as Eq.
  pose proof (nc_lookup 0 J ltac:(lia) ltac:(lia)) as E0. change (Z.of_nat 0 + 1) with 1 in E0.
  set (q' := if decide (x !! q = Some (ch t J)) then S q
             else if decide (x !! 0%nat = Some (ch t J)) then 1%nat else 0%nat).
  replace (if decide (nc (Z.of_nat q + 1) = ch t J) then Z.of_nat q + 1
           else if decide (nc 1 = ch t J) then 1 else 0) with (Z.of_nat q')
    by (subst q'; repeat case_decide; tauto || lia).
  assert (Hq' : (q' <= length x)%nat) by (subst q'; repeat case_decide; lia).
  destruct (decide (q' = length x)) as [E|E].
  - rewrite decide_True by lia. pose proof (IH 0%nat (J + 1) (mc + 1) ltac:(lia) ltac:(lia) ltac:(lia)) as IH0.
    change (Z.of_nat 0 + 1) with 1 in IH0. rewrite IH0.
    cbn [mbind option_bind length]. rewrite E.
    replace (J + 1 + 1 - (m + 1)) with (J + 1 - m) by lia. do 2 f_equal. lia.
  - rewrite decide_False by lia. apply IH; lia.
Qed.

(** A needle whose first character does not come again: no occurrence is missed. *)
Lemma round_ok_shifted :
  next_tab (fun d => nc (d + 1)) nx (m - 1) ->
  (forall d, 2 <= d <= m -> nc d <> nc 1) -> round_ok.
Proof.
  intros Ht Hu q J Hq HJ Hm. pose proof (shifted_round q J Ht Hq ltac:(lia)) as Hw.
  destruct (decide (nc (q + 1) = ch t J)) as [E|E].
  { exists q. repeat split; [done|lia|lia|done|done|]. intros p Hp. lia. }
  assert (Hno : forall p, J - q <= p < J -> ~ occurs_at (Z.to_nat p)).
  { intros p Hp [Hl Ho]%occurs_chars; [|lia]. destruct (decide (p = J - q)) as [-> | ].
    - apply E. rewrite Ho by lia. f_equal. lia.
    - apply (Hu (p - (J - q) + 1)); [lia|].
      rewrite (Ho 1), (Hm (p - (J - q) + 1)) by lia. f_equal. lia. }
  destruct (decide (nc 1 = ch t J)) as [E1|E1].
  - exists 0. repeat split; [done|lia|lia| |done|].
    + intros d Hd. lia.
    + intros p Hp. apply Hno. lia.
  - exists (-1). split; [done|]. split; [lia|]. split; [lia|].
    intros p Hp. destruct (decide (p = J)) as [-> | ]; [|apply Hno; lia].
    intros [Hl Ho]%occurs_chars; [|lia]. apply E1. rewrite Ho by lia. f_equal. lia.
Qed.
End Search.

Lemma border_of_ext c c' p k :
  (forall d, 1 <= d <= p -> c d = c' d) -> border_of c p k -> border_of c' p k.
Proof. intros H [H1 H2]. split; [done|]. intros d Hd. rewrite <- !H by lia. auto. Qed.

Lemma next_tab_ext c c' nx p p' :
  p' <= p -> (forall d, 1 <= d <= p' -> c d = c' d) -> next_tab c nx p -> next_tab c' nx p'.
Proof.
  intros Hp H Ht q Hq. destruct (Ht q) as (k & Hk & Hl & Hmax); [lia|]. exists k.
  split; [done|]. split.
  - destruct Hl as [-> | Hl]; [by left|]. right. eapply border_of_ext; [|done].
    intros d Hd. apply H. lia.
  - intros k' [-> | Hk']; apply Hmax; [by left|]. right. eapply border_of_ext; [|done].
    intros d Hd. symmetry. apply H. lia.
Qed.

Lemma ch_app x y i : 0 <= i < Z.of_nat (length x) -> ch (x ++ y) i = ch x i.
Proof.
  intros H. unfold ch, znth. rewrite !decide_True by lia. by rewrite lookup_app_l by lia.
Qed.

Lemma restart_sound x t : forall q s pre,
  (q < length x)%nat -> s = Z.of_nat (length pre) -> (exists a, pre = a ++ take q x) ->
  forall p, p ∈ restart_scan x t q s -> take (length x) (drop (Z.to_nat p) (pre ++ t)) = x.
Proof.
  induction t as [|a t IH]; intros q s pre Hq Hs [b Hb] p; cbn [restart_scan]; [by intros ?%elem_of_nil|].
  set (q' := if decide (x !! q = Some a) then S q
             else if decide (x !! 0%nat = Some a) then 1%nat else 0%nat).
  assert (Hq' : (q' <= length x)%nat) by (subst q'; repeat case_decide; lia).
  assert (Hpre : exists b', pre ++ [a] = b' ++ take q' x).
  { subst q'. case_decide as E1; [|case_decide as E2].
    - exists b. by rewrite (take_S_r x q a E1), Hb, app_assoc.
    - exists pre. by rewrite (take_S_r x 0 a E2).
    - exists (pre ++ [a]). by rewrite app_nil_r. }
  replace (pre ++ a :: t) with ((pre ++ [a]) ++ t) by (by rewrite <- app_assoc).
  assert (Hs' : s + 1 = Z.of_nat (length (pre ++ [a]))) by (rewrite length_app; cbn; lia).
  case_decide as E.
  - intros [-> | Hp]%elem_of_cons.
    + destruct Hpre as [b' Hb']. rewrite Hb', E, firstn_all. rewrite Hs', Hb', E, firstn_all, length_app.
      replace (Z.to_nat (Z.of_nat (length b' + length x) - Z.of_nat (length x))) with (length b') by lia.
      rewrite <- app_assoc, drop_app_length. by rewrite take_app_length.
    + apply (IH 0%nat (s + 1)); try done; [lia|]. exists (pre ++ [a]). by rewrite app_nil_r.
  - intros Hp. apply (IH q' (s + 1)); try done. lia.
Qed.

(** * The claims *)

(** with the table computed for the needle the way the pseudo-code of the
    header comment counts its characters (from index 1, which is the memory one
    element before the pointer that [MP] is given), the matcher ends for every
    needle and text, reads nothing out of bounds, prints exactly the positions
    the search at every position finds (each search going on behind the
    previous occurrence), and adds their number to [*match_cnt]. *)
Theorem MP_finds_occurrences (x t : list Z) (z : Z) (rest MP_next : list Z) (match_cnt : Z) :
  let m := Z.of_nat (length x) in
  1 <= m -> m + 1 < Z.of_nat (length MP_next) ->
  exists nx, compute_MP_next (z :: x ++ rest) MP_next m = Some nx /\
    MP (x ++ rest) t nx m (Z.of_nat (length t)) match_cnt
      = Some (search x t, match_cnt + Z.of_nat (length (search x t))).
Proof.
  intros m Hm Hn. destruct (compute_MP_next_tab (z :: x ++ rest) MP_next m) as (nx & H1 & H2).
  { cbn. rewrite length_app. lia. } { lia. }
  exists nx. split; [done|]. apply MP_search; [lia|]. apply round_ok_table; [lia|].
  eapply next_tab_ext; [|clear; intros d Hd|exact H2]; [lia|].
  unfold nc. rewrite ch_cons, ch_app by lia. done.
Qed.

Lemma MP_finds_occurrences_witness :
  exists nx, compute_MP_next ([0] ++ [1;1;2] ++ [0]) (replicate 8 0) 3 = Some nx /\
    MP ([1;1;2] ++ [0]) [1;1;1;2;1;1;2] nx 3 7 0 = Some ([1; 4], 2).
Proof. apply (MP_finds_occurrences [1;1;2] [1;1;1;2;1;1;2] 0 [0] (replicate 8 0) 0); cbn; lia. Defined.

(** C31: the way the table and the matcher are called by the programs (both with the same
    pointer, so the table is that of the needle without its first character
    and with the one behind its end), a mismatch sends the matcher back to the
    first character of the needle: it prints what [restart_scan] finds.  Every
    position printed is an occurrence, and when the needle's first character does
    not come again in the needle the positions are those of the search that goes
    on behind each occurrence. *)
Theorem MP_as_called (x t : list Z) (z : Z) (rest MP_next : list Z) (match_cnt : Z) :
  let m := Z.of_nat (length x) in
  1 <= m -> m + 1 < Z.of_nat (length MP_next) ->
  exists nx, compute_MP_next (x ++ z :: rest) MP_next m = Some nx /\
    MP (x ++ z :: rest) t nx m (Z.of_nat (length t)) match_cnt
      = Some (restart_scan x t 0 0, match_cnt + Z.of_nat (length (restart_scan x t 0 0))) /\
    (forall p, p ∈ restart_scan x t 0 0 -> take (length x) (drop (Z.to_nat p) t) = x) /\
    ((forall i, (1 <= i < length x)%nat -> x !! i <> x !! 0%nat) ->
      restart_scan x t 0 0 = search x t).
Proof.
  intros m Hm Hn. destruct (compute_MP_next_tab (x ++ z :: rest) MP_next m) as (nx & H1 & H2).
  { rewrite length_app. cbn. lia. } { lia. }
  assert (Ht : next_tab (fun d => nc x (d + 1)) nx (m - 1)).
  { eapply next_tab_ext; [|clear; intros d Hd|exact H2]; [lia|].
    unfold nc. rewrite ch_app by lia. f_equal. lia. }
  pose proof (mp_loop_restart x t ltac:(lia) (z :: rest) nx Ht (length t) 0 0 match_cnt
                ltac:(lia) ltac:(lia) ltac:(lia)) as Hloop.
  change (Z.of_nat 0 + 1) with 1 in Hloop. change (Z.to_nat 0) with 0%nat in Hloop.
  change (0 + 1) with 1 in Hloop. rewrite drop_0 in Hloop.
  exists nx. split; [done|]. split; [unfold MP; by rewrite Nat2Z.id|]. split.
  - apply (restart_sound x t 0 0 []); [lia|done|]. by exists [].
  - intros Hu. assert (Hr : round_ok x t (z :: rest) nx).
    { apply round_ok_shifted; [lia|done|]. intros d Hd E. apply (Hu (Z.to_nat (d - 1))); [lia|].
      unfold nc in E. replace (d - 1) with (Z.of_nat (Z.to_nat (d - 1))) in E by lia.
      change (1 - 1) with (Z.of_nat 0) in E. rewrite !ch_nat in E.
      destruct (lookup_lt_is_Some_2 x (Z.to_nat (d - 1))) as [a Ha]; [lia|].
      destruct (lookup_lt_is_Some_2 x 0) as [b Hb]; [lia|].
      rewrite Ha, Hb in E |- *. cbn in E. by f_equal. }
    pose proof (MP_search x t ltac:(lia) (z :: rest) nx match_cnt Hr) as HMP.
    unfold MP in HMP. rewrite Nat2Z.id in HMP. rewrite Hloop in HMP. by injection HMP.
Qed.

Lemma MP_as_called_witness :
  exists nx, compute_MP_next ([1;2;3] ++ 0 :: []) (replicate 8 0) 3 = Some nx /\
    MP ([1;2;3] ++ 0 :: []) [1;1;2;3;1;2;1;2;3] nx 3 9 0 = Some ([1; 6], 2).
Proof.
  destruct (MP_as_called [1;2;3] [1;1;2;3;1;2;1;2;3] 0 [] (replicate 8 0) 0) as (nx & H1 & H2 & _);
    [cbn; lia..|].
  by exists nx.
Defined.

(** the table as the callers compute it makes the matcher miss
    occurrences: in the text [aaab] it does not find the needle [aab]. *)
Theorem MP_misses_occurrence :
  (nx ← compute_MP_next [97;97;98;0] (replicate 8 0) 3;
   MP [97;97;98;0] [97;97;97;98] nx 3 4 0) = Some ([], 0) /\
  search [97;97;98] [97;97;97;98] = [1].
Proof. split; reflexivity. Qed.
