(* ===== verification/Edid.v ===== *)
(** The monitor description block of [lib/cpp/edid.h]: [parseEdid] reads the
    four 18-byte descriptors of a 256-byte block.  The encoding of a detailed
    timing is written out as a specification and parsing is shown to invert
    it. *)

From stdpp Require Import base list option.
From Stdlib Require Import ZArith Lia.
From S2P Require Import Prelude.

Record edid_detailed_timing : Type := {
  pixclk : Z; npixels : Z; bpixels : Z; nlines : Z; blines : Z;
  hsyncoff : Z; hsyncwidth : Z; vsyncoff : Z; vsyncwidth : Z;
  widthmm : Z; heightmm : Z; hborderpxls : Z; vborderpxls : Z; features : Z
}.

(** [memset(&edid.timing[i], 0, sizeof(edid.timing[i]))] *)
Definition zero_timing : edid_detailed_timing :=
  {| pixclk := 0; npixels := 0; bpixels := 0; nlines := 0; blines := 0; hsyncoff := 0;
     hsyncwidth := 0; vsyncoff := 0; vsyncwidth := 0; widthmm := 0; heightmm := 0;
     hborderpxls := 0; vborderpxls := 0; features := 0 |}.

(** The lines printed; a string ends at its first zero byte. *)
Inductive edid_line : Type :=
| SerialNumber (s : list Z)
| MonitorText (s : list Z)
| MonitorName (s : list Z)
| StandardTimings
| TimingLines (t : edid_detailed_timing).

Definition byte_at (rec : list Z) (i : nat) : Z := default 0 (rec !! i).

Fixpoint c_string (max : nat) (l : list Z) : list Z :=
  match max, l with
  | S max, a :: l => if decide (a = 0) then [] else a :: c_string max l
  | _, _ => []
  end.

(** The little-endian 16-bit word at [rec]. *)
Definition first_short (rec : list Z) : Z := byte_at rec 0 + 256 * byte_at rec 1.

(** The lines of the [switch] on the type of a descriptor that is no timing. *)
Definition descriptor_lines (rec : list Z) : list edid_line :=
  let descriptor_type := byte_at rec 3 in
  if decide (descriptor_type = 0xFF) then [SerialNumber (c_string 13 (drop 5 rec))]
  else if decide (descriptor_type = 0xFE) then [MonitorText (c_string 13 (drop 5 rec))]
  else if decide (descriptor_type = 0xFC) then [MonitorName (c_string 13 (drop 5 rec))]
  else if decide (descriptor_type = 0xFA) then [StandardTimings]
  else [].

(** The assignments to [edid.timing[i]]. *)
Definition parse_timing (rec : list Z) : edid_detailed_timing :=
  let r := byte_at rec in
  {| pixclk := first_short rec;
     npixels := Z.lor (r 2%nat) (Z.shiftl (Z.shiftr (r 4%nat) 4) 8);
     bpixels := Z.lor (r 3%nat) (Z.shiftl (Z.land (r 4%nat) 0xF) 8);
     nlines := Z.lor (r 5%nat) (Z.shiftl (Z.shiftr (r 7%nat) 4) 8);
     blines := Z.lor (r 6%nat) (Z.shiftl (Z.land (r 7%nat) 0xF) 8);
     hsyncoff := Z.lor (r 8%nat) (Z.shiftl (Z.shiftr (r 11%nat) 6) 8);
     hsyncwidth := Z.lor (r 9%nat) (Z.shiftl (Z.shiftr (Z.land (r 11%nat) 0x30) 4) 8);
     vsyncoff := Z.lor (Z.shiftr (r 10%nat) 4) (Z.shiftl (Z.shiftr (Z.land (r 11%nat) 0x0c) 2) 4);
     vsyncwidth := Z.lor (Z.land (r 10%nat) 0xf) (Z.shiftl (Z.shiftr (Z.land (r 11%nat) 0x03) 0) 4);
     widthmm := Z.lor (r 12%nat) (Z.shiftl (Z.shiftr (r 14%nat) 4) 8);
     heightmm := Z.lor (r 13%nat) (Z.shiftl (Z.land (r 14%nat) 0xf) 8);
     hborderpxls := r 15%nat;
     vborderpxls := r 16%nat;
     features := r 17%nat |}.

(** The body of the first loop for [rec = &edid.raw[54+18*i]]. *)
Definition parse_record (rec : list Z) : edid_detailed_timing * list edid_line :=
  if decide (first_short rec = 0) then (zero_timing, descriptor_lines rec)
  else (parse_timing rec, []).

Definition record_of (raw : list Z) (i : nat) : list Z := take 18 (drop (54 + 18 * i) raw).

(** The timings stored and the lines printed. *)
Definition parseEdid (raw : list Z) : list edid_detailed_timing * list edid_line :=
  let rs := (fun i => parse_record (record_of raw i)) <$> seq 0 4 in
  (fst <$> rs,
   concat (snd <$> rs) ++
   concat ((fun t => if decide (pixclk t <> 0) then [TimingLines t] else []) <$> (fst <$> rs))).

(** * The encoding of a descriptor *)

Definition timing_ok (t : edid_detailed_timing) : Prop :=
  0 < pixclk t < 65536 /\
  0 <= npixels t < 4096 /\ 0 <= bpixels t < 4096 /\ 0 <= nlines t < 4096 /\ 0 <= blines t < 4096 /\
  0 <= hsyncoff t < 1024 /\ 0 <= hsyncwidth t < 1024 /\
  0 <= vsyncoff t < 64 /\ 0 <= vsyncwidth t < 64 /\
  0 <= widthmm t < 4096 /\ 0 <= heightmm t < 4096 /\
  0 <= hborderpxls t < 256 /\ 0 <= vborderpxls t < 256 /\ 0 <= features t < 256.

(** Low bytes, and the high bits gathered in bytes 4, 7, 11 and 14. *)
Definition encode_timing (t : edid_detailed_timing) : list Z :=
  [ pixclk t mod 256; pixclk t / 256;
    npixels t mod 256; bpixels t mod 256; npixels t / 256 * 16 + bpixels t / 256;
    nlines t mod 256; blines t mod 256; nlines t / 256 * 16 + blines t / 256;
    hsyncoff t mod 256; hsyncwidth t mod 256;
    vsyncoff t mod 16 * 16 + vsyncwidth t mod 16;
    hsyncoff t / 256 * 64 + hsyncwidth t / 256 * 16 + vsyncoff t / 16 * 4 + vsyncwidth t / 16;
    widthmm t mod 256; heightmm t mod 256; widthmm t / 256 * 16 + heightmm t / 256;
    hborderpxls t; vborderpxls t; features t ].

Inductive descriptor : Type :=
| DTiming (t : edid_detailed_timing)
| DOther (bytes : list Z).

(** A descriptor that is no timing starts with two zero bytes. *)
Definition encode (d : descriptor) : list Z :=
  match d with DTiming t => encode_timing t | DOther l => 0 :: 0 :: l end.

Definition descriptor_ok (d : descriptor) : Prop :=
  match d with DTiming t => timing_ok t | DOther l => length l = 16%nat end.

(** The bytes of a record, the values a byte can hold. *)
Definition bytes18 (rec : list Z) : Prop :=
  length rec = 18%nat /\ Forall (fun b => 0 <= b < 256) rec.

Lemma lor_byte_high lo hi n : 0 <= n -> 0 <= lo < 2 ^ n -> Z.lor lo (Z.shiftl hi n) = hi * 2 ^ n + lo.
Proof. intros Hn H. rewrite Z.lor_comm. by apply lor_shiftl_add. Qed.

Lemma shr_div z n : 0 <= n -> Z.shiftr z n = z / 2 ^ n.
Proof. apply Z.shiftr_div_pow2. Qed.

(** A field of bits in the middle of a byte. *)
Lemma field_bits z w n : 0 <= n -> 0 <= w ->
  Z.shiftr (Z.land z (Z.shiftl (2 ^ w - 1) n)) n = (z / 2 ^ n) mod 2 ^ w.
Proof.
  intros Hn Hw. rewrite Z.shiftr_land, Z.shiftr_shiftl_l by lia. rewrite Z.sub_diag, Z.shiftl_0_r.
  by rewrite land_ones_mod, shr_div by lia.
Qed.

(** The fields as arithmetic on the bytes. *)
Lemma parse_timing_arith rec :
  bytes18 rec ->
  let r := byte_at rec in
  parse_timing rec =
  {| pixclk := r 0%nat + 256 * r 1%nat;
     npixels := r 4%nat / 16 * 256 + r 2%nat; bpixels := r 4%nat mod 16 * 256 + r 3%nat;
     nlines := r 7%nat / 16 * 256 + r 5%nat; blines := r 7%nat mod 16 * 256 + r 6%nat;
     hsyncoff := r 11%nat / 64 * 256 + r 8%nat;
     hsyncwidth := (r 11%nat / 16) mod 4 * 256 + r 9%nat;
     vsyncoff := (r 11%nat / 4) mod 4 * 16 + r 10%nat / 16;
     vsyncwidth := r 11%nat mod 4 * 16 + r 10%nat mod 16;
     widthmm := r 14%nat / 16 * 256 + r 12%nat; heightmm := r 14%nat mod 16 * 256 + r 13%nat;
     hborderpxls := r 15%nat; vborderpxls := r 16%nat; features := r 17%nat |}.
Proof.
  intros [Hl Hb] r.
  assert (Hr : forall i, 0 <= r i < 256).
  { intros i. unfold r, byte_at. destruct (rec !! i) eqn:E; cbn; [|lia].
    by apply (Forall_lookup_1 _ _ _ _ Hb E). }
  unfold parse_timing. fold r.
  pose proof (Hr 10%nat) as H10.
  assert (Hf : forall z, Z.land z 0xF = z mod 16) by (intros z; apply (land_ones_mod z 4); lia).
  rewrite !Hf.
  rewrite (field_bits (r 11%nat) 2 4 ltac:(lia) ltac:(lia) : Z.shiftr (Z.land (r 11%nat) 0x30) 4 = _).
  rewrite (field_bits (r 11%nat) 2 2 ltac:(lia) ltac:(lia) : Z.shiftr (Z.land (r 11%nat) 0x0c) 2 = _).
  rewrite (field_bits (r 11%nat) 2 0 ltac:(lia) ltac:(lia) : Z.shiftr (Z.land (r 11%nat) 0x03) 0 = _).
  rewrite !shr_div by lia.
  rewrite !lor_byte_high by (try apply Hr; try lia; change (2 ^ 4) with 16; zlia).
  rewrite Z.div_1_r. reflexivity.
Qed.

Lemma timing_ok_pixclk t : timing_ok t -> first_short (encode_timing t) = pixclk t.
Proof. intros H. unfold first_short, byte_at. cbn. zlia. Qed.

Lemma encode_bytes t : timing_ok t -> bytes18 (encode_timing t).
Proof.
  intros H. split; [done|]. unfold timing_ok in H. destruct_and! H.
  unfold encode_timing. repeat (apply Forall_cons_2; [zlia|]). by apply Forall_nil.
Qed.

Lemma parse_encode t : timing_ok t -> parse_record (encode_timing t) = (t, []).
Proof.
  intros H. unfold parse_record. rewrite timing_ok_pixclk by done.
  pose proof (encode_bytes t H) as Hb. pose proof (timing_ok_pixclk t H) as Hp.
  unfold timing_ok in H. rewrite decide_False by lia. f_equal.
  rewrite parse_timing_arith by done. destruct t; cbn in *. f_equal; zlia.
Qed.

Lemma encode_parse rec :
  bytes18 rec -> first_short rec <> 0 ->
  timing_ok (parse_timing rec) /\ encode_timing (parse_timing rec) = rec.
Proof.
  intros Hb Hf. rewrite parse_timing_arith by done. destruct Hb as [Hl Hb].
  do 18 (destruct rec as [|? rec]; [done|]). destruct rec; [|done].
  rewrite !Forall_cons_iff in Hb. destruct_and! Hb. unfold first_short, byte_at in *.
  cbn -[Z.mul Z.add Z.div Z.modulo] in *.
  split; [unfold timing_ok; cbn -[Z.mul Z.add Z.div Z.modulo]; split_and!; zlia|].
  unfold encode_timing. cbn -[Z.mul Z.add Z.div Z.modulo]. repeat (apply (f_equal2 cons); [zlia|]). done.
Qed.

(** * The block *)

(** A block: 54 bytes, four descriptors, the rest. *)
Definition block_of (head : list Z) (ds : list descriptor) (tail : list Z) : list Z :=
  head ++ concat (encode <$> ds) ++ tail.

(** What is stored for a descriptor. *)
Definition stored (d : descriptor) : edid_detailed_timing :=
  match d with DTiming t => t | DOther _ => zero_timing end.

Lemma encode_length d : descriptor_ok d -> length (encode d) = 18%nat.
Proof. destruct d as [t|l]; [done|]. cbn. intros ->. done. Qed.

Lemma parse_descriptor d : descriptor_ok d -> fst (parse_record (encode d)) = stored d.
Proof.
  destruct d as [t|l]; intros H; cbn [encode stored].
  - by rewrite parse_encode.
  - unfold parse_record, first_short, byte_at. cbn. by rewrite decide_True.
Qed.

Lemma record_of_block head ds tail i d :
  length head = 54%nat -> Forall descriptor_ok ds -> ds !! i = Some d ->
  record_of (block_of head ds tail) i = encode d.
Proof.
  intros Hh Hds Hi. unfold record_of, block_of.
  rewrite <- drop_drop, drop_app_length' by done. clear Hh.
  revert i Hi. induction Hds as [|e ds He Hds IH]; intros i Hi; [done|].
  pose proof (encode_length e He) as Hl. cbn [fmap list_fmap concat]. rewrite <- app_assoc.
  destruct i as [|i]; cbn in Hi.
  - simplify_eq. rewrite Nat.mul_0_r, drop_0. by rewrite take_app_length'.
  - replace (18 * S i)%nat with (18 + 18 * i)%nat by lia.
    rewrite <- drop_drop, drop_app_length' by done. by apply IH.
Qed.

Lemma parseEdid_timings head ds tail :
  length head = 54%nat -> length ds = 4%nat -> Forall descriptor_ok ds ->
  fst (parseEdid (block_of head ds tail)) = stored <$> ds.
Proof.
  intros Hh Hn Hds. unfold parseEdid. cbn [fst]. rewrite <- list_fmap_compose.
  apply list_eq_same_length with (n := 4%nat); [by rewrite length_fmap| done|].
  intros i a b Hi. rewrite !list_lookup_fmap, lookup_seq_lt by lia.
  destruct (lookup_lt_is_Some_2 ds i) as [d Hd]; [lia|]. rewrite Hd.
  cbn [fmap option_fmap option_map compose Nat.add].
  rewrite (record_of_block _ _ _ _ d) by done.
  rewrite parse_descriptor by (by eapply Forall_lookup_1). congruence.
Qed.

(** [parseEdid] stores the timing of every detailed-timing descriptor of a
    well-formed block, field by field, and zeros for every other descriptor;
    and a record of 18 bytes that it takes for a timing is the encoding of the
    timing it stores, so no bit is lost or put in two fields. *)
Theorem parseEdid_roundtrip head ds tail :
  length head = 54%nat -> length ds = 4%nat -> Forall descriptor_ok ds ->
  fst (parseEdid (block_of head ds tail)) = stored <$> ds /\
  (forall rec, bytes18 rec -> first_short rec <> 0 ->
     exists t, parse_record rec = (t, []) /\ timing_ok t /\ encode_timing t = rec).
Proof.
  intros Hh Hn Hds. split; [by apply parseEdid_timings|].
  intros rec Hb Hf. exists (parse_timing rec). unfold parse_record. rewrite decide_False by done.
  split; [done|]. by apply encode_parse.
Qed.

Definition full_hd : edid_detailed_timing :=
  {| pixclk := 14850; npixels := 1920; bpixels := 280; nlines := 1080; blines := 45;
     hsyncoff := 88; hsyncwidth := 44; vsyncoff := 4; vsyncwidth := 5;
     widthmm := 531; heightmm := 299; hborderpxls := 0; vborderpxls := 0; features := 30 |}.

Lemma parseEdid_roundtrip_witness :
  fst (parseEdid (block_of (replicate 54 0)
         [DTiming full_hd; DOther (replicate 16 1); DTiming full_hd; DOther (replicate 16 0)]
         (replicate 130 0)))
    = [full_hd; zero_timing; full_hd; zero_timing].
Proof.
  apply parseEdid_roundtrip; [done|done|].
  repeat (apply Forall_cons_2; [try done; unfold descriptor_ok, timing_ok; cbn; lia|]).
  by apply Forall_nil.
Defined.
