(* ===== verification/I2cHdmi.v ===== *)
(** Programming the HDMI transmitter over I2C: [lib/cpp/i2chdmi.h].  The I2C
    adapter of the operating system is a class of operations; the theorems say
    what is written to it, in which order and where an error stops it. *)

From stdpp Require Import base gmap list option fin_maps.
From Stdlib Require Import ZArith Lia.
From S2P Require Import Prelude.

(** The adapter: [open], [ioctl(fd, I2C_SLAVE, device)] and
    [ioctl(fd, I2C_SMBUS, &args)] for a byte written and a byte read. *)
Class I2cOs (K : Type) : Type := {
  i2c_open : K -> Z * K;
  i2c_slave : Z -> Z -> K -> Z * K;
  i2c_smbus_write : Z -> Z -> Z -> K -> Z * K;     (* fd, command, byte *)
  i2c_smbus_read : Z -> Z -> K -> (Z * option Z) * K (* fd, command; the byte stored, if any *)
}.

Section I2c.
Context {K : Type} `{!I2cOs K}.

Definition os {A} (f : K -> A * K) : M K A := fun k => let '(a, k) := f k in Ok a k.

(** [while (size) ... size -= 2]: [datap] is what is left of the array; reading
    behind its end is undefined. *)
Fixpoint write_loop (fuel : nat) (fd : Z) (datap : list Z) (size : Z) : M K Z :=
  if decide (size = 0) then mret 0
  else match fuel with
  | O => block
  | S fuel =>
      match datap with
      | command :: byte :: datap =>
          status ← os (i2c_smbus_write fd command byte);
          if decide (status <> 0) then mret (-1)
          else write_loop fuel fd datap (size - 2)
      | _ => fault
      end
  end.

(** Every round takes two bytes, so the array's length bounds the rounds. *)
Definition i2c_write_array (fd device : Z) (datap : list Z) (size : Z) : M K Z :=
  status ← os (i2c_slave fd device);
  if decide (status <> 0) then mret (-1)
  else write_loop (S (length datap)) fd datap size.

Definition i2c_read_reg (fd device reg : Z) : M K Z :=
  os (i2c_slave fd device) ;;
  '(_, byte) ← os (i2c_smbus_read fd reg);
  mret (default 0 byte).

Definition muxdata : list Z := [2; 2].

Definition hdmidata : list Z := [
    0x41; 0x10;
    0xD6; 0xC0;
    0x15; 0x01;   0x16; 0x38;
    0x18; 0xAB;   0x19; 0x37;
    0x1A; 0x08;   0x1B; 0x00;   0x1C; 0x00;   0x1D; 0x00;
    0x1E; 0x1A;   0x1F; 0x86;   0x20; 0x1A;   0x21; 0x49;
    0x22; 0x08;   0x23; 0x00;   0x24; 0x1D;   0x25; 0x3F;
    0x26; 0x04;   0x27; 0x22;   0x28; 0x00;   0x29; 0x00;
    0x2A; 0x08;   0x2B; 0x00;   0x2C; 0x0E;   0x2D; 0x2D;
    0x2E; 0x19;   0x2F; 0x14;
    0x48; 0x08;
    0x55; 0x00;   0x56; 0x28;
    0x98; 0x03;  0x9A; 0xE0;  0x9C; 0x30;  0x9D; 0x61;
    0xA2; 0xA4;  0xA3; 0xA4;  0xAF; 0x04;  0xE0; 0xD0;  0xF9; 0x00].

Definition hdmidata_rgb24 : list Z := [
    0x41; 0x10;  0xD6; 0xC0;  0x15; 0x00;  0x16; 0x38;
    0x18; 0xAB;  0x19; 0x37;  0x1A; 0x08;  0x1B; 0x00;
    0x1C; 0x00;  0x1D; 0x00;  0x1E; 0x1A;  0x1F; 0x86;
    0x20; 0x1A;  0x21; 0x49;  0x22; 0x08;  0x23; 0x00;
    0x24; 0x1D;  0x25; 0x3F;  0x26; 0x04;  0x27; 0x22;
    0x28; 0x00;  0x29; 0x00;  0x2A; 0x08;  0x2B; 0x00;
    0x2C; 0x0E;  0x2D; 0x2D;  0x2E; 0x19;  0x2F; 0x14;
    0x48; 0x08;  0x55; 0x00;  0x56; 0x28;  0x98; 0x03;
    0x9A; 0xE0;  0x9C; 0x30;  0x9D; 0x61;  0xA2; 0xA4;
    0xA3; 0xA4;  0xAF; 0x04;  0xE0; 0xD0;  0xF9; 0x00].

(** The results of the writes are only printed. *)
Definition init_i2c_hdmi (BOARD_zedboard : bool) : M K unit :=
  fd ← os i2c_open;
  (if BOARD_zedboard then mret tt
   else i2c_write_array fd 0x74 muxdata (Z.of_nat (length muxdata)) ;; mret tt) ;;
  i2c_write_array fd 0x39 hdmidata (Z.of_nat (length hdmidata)) ;;
  mret tt.

Definition init_i2c_hdmi_rgb24 : M K unit :=
  fd ← os i2c_open;
  i2c_write_array fd 0x74 muxdata (Z.of_nat (length muxdata)) ;;
  i2c_write_array fd 0x39 hdmidata_rgb24 (Z.of_nat (length hdmidata_rgb24)) ;;
  mret tt.

(** * Reference: the pairs written one after the other *)

Fixpoint write_pairs (fd : Z) (l : list (Z * Z)) : M K Z :=
  match l with
  | [] => mret 0
  | (command, byte) :: l =>
      status ← os (i2c_smbus_write fd command byte);
      if decide (status <> 0) then mret (-1) else write_pairs fd l
  end.

Fixpoint pairs (l : list Z) : list (Z * Z) :=
  match l with a :: b :: l => (a, b) :: pairs l | _ => [] end.

Definition flat (l : list (Z * Z)) : list Z := concat ((fun p => [fst p; snd p]) <$> l).

Lemma flat_length l : length (flat l) = (2 * length l)%nat.
Proof.
  induction l as [|[a b] l IH]; [done|].
  change (flat ((a, b) :: l)) with (a :: b :: flat l). cbn [length]. lia.
Qed.

Lemma write_loop_pairs fd l : forall fuel k,
  (length l < fuel)%nat ->
  write_loop fuel fd (flat l) (Z.of_nat (length (flat l))) k = write_pairs fd l k.
Proof.
  induction l as [|[a b] l IH]; intros fuel k Hf.
  { destruct fuel; done. }
  cbn in Hf. destruct fuel as [|fuel]; [lia|]. cbn [write_loop write_pairs].
  rewrite decide_False by (cbn; lia). change (flat ((a, b) :: l)) with (a :: b :: flat l).
  apply bind_ext. intros status k'. case_decide; [done|].
  cbn [length]. replace (Z.of_nat (S (S (length (flat l)))) - 2) with (Z.of_nat (length (flat l))) by lia.
  apply IH. lia.
Qed.

Lemma write_array_pairs fd device l k :
  i2c_write_array fd device (flat l) (Z.of_nat (length (flat l))) k =
  (status ← os (i2c_slave fd device);
   if decide (status <> 0) then mret (-1) else write_pairs fd l) k.
Proof.
  unfold i2c_write_array. apply bind_ext. intros status k'. case_decide; [done|].
  apply write_loop_pairs. rewrite flat_length. lia.
Qed.

(** An odd size is never counted down to zero: the loop leaves the array
    unless a write fails first. *)
Lemma write_loop_odd (P : K -> Prop) fd l a :
  (forall c b k, P k -> exists k', i2c_smbus_write fd c b k = (0, k') /\ P k') ->
  forall fuel k, P k -> (length l < fuel)%nat ->
  write_loop fuel fd (flat l ++ [a]) (Z.of_nat (length (flat l ++ [a]))) k = Fault.
Proof.
  intros Hos. induction l as [|[c b] l IH]; intros fuel k Hk Hf;
    (destruct fuel as [|fuel]; [cbn in Hf; lia|]); [done|].
  cbn in Hf. cbn [write_loop]. rewrite decide_False by (cbn; lia).
  change (flat ((c, b) :: l) ++ [a]) with (c :: b :: (flat l ++ [a])).
  destruct (Hos c b k Hk) as (k' & Hw & Hk').
  rewrite (bind_ok _ _ k 0 k') by (unfold os; by rewrite Hw).
  rewrite decide_False by lia. cbn [length].
  replace (Z.of_nat (S (S (length (flat l ++ [a])))) - 2)
    with (Z.of_nat (length (flat l ++ [a]))) by lia.
  apply IH; [done|lia].
Qed.
End I2c.

(** * A bus with register devices *)

(** The registers of the devices on the bus and the device selected; [acks]
    says how many more writes are acknowledged ([None]: all of them). *)
Record Bus : Type := { selected : Z; regs : gmap (Z * Z) Z; acks : option nat }.

#[global] Instance bus_os : I2cOs Bus := {
  i2c_open := fun b => (3, b);
  i2c_slave := fun _ device b => (0, {| selected := device; regs := regs b; acks := acks b |});
  i2c_smbus_write := fun _ c v b =>
    match acks b with
    | Some O => (-1, b)
    | a => (0, {| selected := selected b; regs := <[(selected b, c) := v]> (regs b);
                  acks := pred <$> a |})
    end;
  i2c_smbus_read := fun _ c b => ((0, regs b !! (selected b, c)), b)
}.

(** The registers after a list of writes to the device. *)
Definition written (device : Z) (l : list (Z * Z)) (m : gmap (Z * Z) Z) : gmap (Z * Z) Z :=
  foldl (fun m p => <[(device, fst p) := snd p]> m) m l.

Lemma write_pairs_all fd l : forall b,
  acks b = None ->
  write_pairs fd l b = Ok 0 {| selected := selected b; regs := written (selected b) l (regs b);
                               acks := None |}.
Proof.
  induction l as [|[c v] l IH]; intros b Hb; [destruct b; cbn in *; by subst|].
  cbn [write_pairs]. unfold mbind, M_bind, os. cbn. rewrite Hb. cbn. by rewrite IH.
Qed.

Lemma write_pairs_some fd l : forall b n,
  acks b = Some n ->
  write_pairs fd l b =
    Ok (if decide (length l <= n)%nat then 0 else -1)
       {| selected := selected b; regs := written (selected b) (take n l) (regs b);
          acks := Some (n - length l)%nat |}.
Proof.
  induction l as [|[c v] l IH]; intros b n Hb.
  { rewrite decide_True by (cbn; lia). rewrite take_nil, Nat.sub_0_r. destruct b; cbn in *; by subst. }
  cbn [write_pairs]. unfold mbind, M_bind, os. cbn [i2c_smbus_write bus_os]. rewrite Hb.
  destruct n as [|n]; [destruct b; cbn in *; by subst|]. cbn [decide].
  cbn. rewrite (IH _ n) by done. cbn. repeat case_decide; (done || lia).
Qed.

Lemma written_lookup device l : forall m d r,
  NoDup (fst <$> l) ->
  written device l m !! (d, r) =
    match (if decide (d = device) then list_to_map (M := gmap Z Z) l !! r else None) with
    | Some v => Some v
    | None => m !! (d, r)
    end.
Proof.
  induction l as [|[c v] l IH]; intros m d r Hnd; cbn [fmap list_fmap fst] in Hnd.
  { cbn. case_decide; done. }
  apply NoDup_cons in Hnd as [Hc Hnd]. cbn [written foldl fst snd].
  change (foldl _ _ l) with (written device l (<[(device, c) := v]> m)). rewrite IH by done.
  case_decide as Hd; [subst d|by rewrite lookup_insert_ne by congruence].
  cbn. destruct (decide (r = c)) as [-> | Hr].
  - rewrite lookup_insert_eq. rewrite (not_elem_of_list_to_map_1 (M := gmap Z)) by done.
    by rewrite lookup_insert_eq.
  - rewrite (lookup_insert_ne (M := gmap Z)) by done. by rewrite lookup_insert_ne by congruence.
Qed.

(** [i2c_write_array] selects the device and writes the pairs of the array
    in order, as many as are acknowledged; it returns 0 when all of them are
    and -1 after the first one that is not, with nothing written behind it.
    An array of odd length makes the loop read behind its end. *)
Theorem write_array_spec fd device l b n :
  acks b = Some n ->
  i2c_write_array fd device (flat l) (Z.of_nat (length (flat l))) b =
    Ok (if decide (length l <= n)%nat then 0 else -1)
       {| selected := device; regs := written device (take n l) (regs b);
          acks := Some (n - length l)%nat |} /\
  (forall a b', acks b' = None ->
     i2c_write_array fd device (flat l ++ [a]) (Z.of_nat (length (flat l ++ [a]))) b' = Fault).
Proof.
  intros Hb. split.
  - rewrite write_array_pairs. unfold mbind, M_bind, os. cbn.
    by rewrite (write_pairs_some fd l _ n) by done.
  - intros a b' Hb'. unfold i2c_write_array.
    rewrite (bind_ok _ _ b' 0 {| selected := device; regs := regs b'; acks := acks b' |}) by done.
    rewrite decide_False by lia.
    apply (write_loop_odd (fun b => acks b = None)); [|done|rewrite length_app, flat_length; lia].
    intros c v k Hk. cbn. rewrite Hk. eauto.
Qed.

Definition dark : Bus := {| selected := 0; regs := ∅; acks := Some 1%nat |}.

Lemma write_array_spec_witness :
  i2c_write_array 3 0x74 [2;2; 3;4] 4 dark =
    Ok (-1) {| selected := 0x74; regs := {[ (0x74, 2) := 2 ]}; acks := Some 0%nat |}.
Proof. exact (proj1 (write_array_spec 3 0x74 [(2,2); (3,4)] dark 1 eq_refl)). Defined.

Lemma hdmi_flat : hdmidata = flat (pairs hdmidata) /\ hdmidata_rgb24 = flat (pairs hdmidata_rgb24)
  /\ muxdata = flat (pairs muxdata).
Proof. done. Qed.

Lemma write_array_all fd device l b : acks b = None ->
  i2c_write_array fd device (flat l) (Z.of_nat (length (flat l))) b =
    Ok 0 {| selected := device; regs := written device l (regs b); acks := None |}.
Proof.
  intros Hb. rewrite write_array_pairs.
  rewrite (bind_ok _ _ b 0 {| selected := device; regs := regs b; acks := acks b |}) by done.
  rewrite decide_False by lia. by rewrite write_pairs_all.
Qed.

Lemma init_hdmi_writes zed b : acks b = None ->
  init_i2c_hdmi zed b = Ok tt {| selected := 0x39; acks := None;
    regs := written 0x39 (pairs hdmidata)
              (if zed then regs b else written 0x74 (pairs muxdata) (regs b)) |}.
Proof.
  intros Hb. unfold init_i2c_hdmi. destruct hdmi_flat as (-> & _ & ->).
  rewrite (bind_ok _ _ b 3 b) by done. destruct zed.
  - rewrite bind_ret. by rewrite (bind_ok _ _ _ _ _ (write_array_all 3 0x39 (pairs hdmidata) b Hb)).
  - rewrite bind_assoc, (bind_ok _ _ _ _ _ (write_array_all 3 0x74 (pairs muxdata) b Hb)), bind_ret.
    by erewrite bind_ok by (apply write_array_all; reflexivity).
Qed.

Lemma init_rgb24_writes b : acks b = None ->
  init_i2c_hdmi_rgb24 b = Ok tt {| selected := 0x39; acks := None;
    regs := written 0x39 (pairs hdmidata_rgb24) (written 0x74 (pairs muxdata) (regs b)) |}.
Proof.
  intros Hb. unfold init_i2c_hdmi_rgb24. destruct hdmi_flat as (_ & -> & ->).
  rewrite (bind_ok _ _ b 3 b) by done.
  rewrite (bind_ok _ _ _ _ _ (write_array_all 3 0x74 (pairs muxdata) b Hb)).
  by erewrite bind_ok by (apply write_array_all; reflexivity).
Qed.

Lemma hdmi_keys : NoDup (fst <$> pairs hdmidata) /\ NoDup (fst <$> pairs hdmidata_rgb24).
Proof. split; (eapply bool_decide_unpack; vm_compute; exact I). Qed.

(** on a bus that acknowledges every write, [init_i2c_hdmi] leaves each
    register of its table with the table's value in the transmitter (device
    0x39), selects the multiplexer's channel (register 2 of device 0x74) unless
    the board is a zedboard, and changes no other register; the RGB24 variant
    leaves the same state except for register 0x15, the video input mode. *)
Theorem init_i2c_hdmi_registers zed b : acks b = None ->
  exists b' b'',
    init_i2c_hdmi zed b = Ok tt b' /\ init_i2c_hdmi_rgb24 b = Ok tt b'' /\
    (forall r v, (r, v) ∈ pairs hdmidata -> regs b' !! (0x39, r) = Some v) /\
    (forall r, r ∉ fst <$> pairs hdmidata -> regs b' !! (0x39, r) = regs b !! (0x39, r)) /\
    regs b' !! (0x74, 2) = (if zed then regs b !! (0x74, 2) else Some 2) /\
    (forall d r, d <> 0x39 -> d <> 0x74 -> regs b' !! (d, r) = regs b !! (d, r)) /\
    regs b'' !! (0x39, 0x15) = Some 0 /\
    (forall d r, zed = false -> (d, r) <> (0x39, 0x15) -> regs b'' !! (d, r) = regs b' !! (d, r)).
Proof.
  intros Hb. rewrite init_hdmi_writes, init_rgb24_writes by done.
  eexists _, _. split; [done|]. split; [done|]. cbn [regs].
  destruct hdmi_keys as [H1 H2]. assert (H3 : NoDup (fst <$> pairs muxdata)) by (apply NoDup_singleton).
  split_and!.
  - intros r v Hr. rewrite written_lookup, decide_True by done.
    by rewrite (elem_of_list_to_map_1 (M := gmap Z) _ r v) by done.
  - intros r Hr. rewrite written_lookup, decide_True by done.
    rewrite (not_elem_of_list_to_map_1 (M := gmap Z)) by done.
    destruct zed; [done|]. by rewrite written_lookup, decide_False.
  - rewrite written_lookup, decide_False by done. destruct zed; [done|].
    by rewrite written_lookup, decide_True.
  - intros d r Hd Hd'. rewrite written_lookup, decide_False by done.
    destruct zed; [done|]. by rewrite written_lookup, decide_False by done.
  - by rewrite written_lookup, decide_True.
  - intros d r -> Hne. rewrite !(written_lookup 0x39) by done.
    destruct (decide (d = 57)) as [-> | ]; [|done].
    assert (E : list_to_map (M := gmap Z Z) (pairs hdmidata_rgb24)
                = <[0x15 := 0]> (list_to_map (pairs hdmidata))).
    { apply (bool_decide_unpack _). vm_compute. exact I. }
    rewrite E, (lookup_insert_ne (M := gmap Z)) by congruence. done.
Qed.

Lemma init_i2c_hdmi_registers_witness :
  exists b' b'', init_i2c_hdmi false {| selected := 0; regs := ∅; acks := None |} = Ok tt b' /\
    init_i2c_hdmi_rgb24 {| selected := 0; regs := ∅; acks := None |} = Ok tt b'' /\
    regs b' !! (0x74, 2) = Some 2 /\ regs b'' !! (0x39, 0x15) = Some 0.
Proof.
  destruct (init_i2c_hdmi_registers false {| selected := 0; regs := ∅; acks := None |} eq_refl)
    as (b' & b'' & H1 & H2 & _ & _ & H3 & _ & H4 & _).
  exists b', b''. split; [exact H1|]. split; [exact H2|]. split; [exact H3|exact H4].
Defined.
