(* ===== verification/ZynqDriver.v ===== *)
(** The Zynq driver [drivers/zynqportal/zynqportal.c]: discovery of the portals
    from a work queue, their device files, interrupts and ioctls, and what is
    released when the device is opened again or removed.

    The arrays of [portal_data] live in a heap of their own, so that the
    pointers kept in [connectal_data], in the work structure and in
    [directory_virt] can alias and dangle; what the kernel holds for the driver
    (device files, interrupts, mappings) is part of the state. *)

From stdpp Require Import base gmap list fin_maps.
From Stdlib Require Import ZArith Lia.
From S2P Require Import Prelude PortalTypes.

Definition IID_OFFSET : Z := 0x010.
Definition TOP_OFFSET : Z := 0x014.
Definition MSB_OFFSET : Z := 0x018.
Definition LSB_OFFSET : Z := 0x01C.
Definition MAX_NUM_PORTALS : Z := 16.

Definition EAGAIN : Z := 11.
Definition EFAULT : Z := 14.
Definition ENODEV : Z := 19.
Definition EINVAL : Z := 22.
Definition ENOTTY : Z := 25.

(** [sizeof(long)] and [~0UL] on the Zynq's 32-bit processors. *)
Definition SIZEOF_LONG : Z := 4.
Definition ULONG_MAX : Z := 2 ^ 32 - 1.

(** * Data *)

(** [struct portal_data]; [wait_queue] says whether the queue was woken since
    it was initialised, [name] is the number printed into the name. *)
Record portal_data : Type := {
  wait_queue : bool;
  dev_base_phys : Z; interrupt_virt : option Z; mask_virt : option Z; map_base : option Z;
  portal_irq : Z; irq_is_registered : bool; top : Z; name : Z }.

(** An element of the array [kzalloc] returns. *)
Definition portal_data_zero : portal_data :=
  {| wait_queue := false; dev_base_phys := 0; interrupt_virt := None; mask_virt := None; map_base := None;
     portal_irq := 0; irq_is_registered := false; top := 0; name := 0 |}.

Definition set_wait_queue (v : bool) (r : portal_data) : portal_data :=
  {| wait_queue := v; dev_base_phys := dev_base_phys r; interrupt_virt := interrupt_virt r;
     mask_virt := mask_virt r; map_base := map_base r; portal_irq := portal_irq r;
     irq_is_registered := irq_is_registered r; top := top r; name := name r |}.
Definition set_interrupt_virt (v : option Z) (r : portal_data) : portal_data :=
  {| wait_queue := wait_queue r; dev_base_phys := dev_base_phys r; interrupt_virt := v;
     mask_virt := mask_virt r; map_base := map_base r; portal_irq := portal_irq r;
     irq_is_registered := irq_is_registered r; top := top r; name := name r |}.
Definition set_mask_virt (v : option Z) (r : portal_data) : portal_data :=
  {| wait_queue := wait_queue r; dev_base_phys := dev_base_phys r;
     interrupt_virt := interrupt_virt r; mask_virt := v; map_base := map_base r;
     portal_irq := portal_irq r; irq_is_registered := irq_is_registered r; top := top r;
     name := name r |}.
Definition set_map_base (v : option Z) (r : portal_data) : portal_data :=
  {| wait_queue := wait_queue r; dev_base_phys := dev_base_phys r;
     interrupt_virt := interrupt_virt r; mask_virt := mask_virt r; map_base := v;
     portal_irq := portal_irq r; irq_is_registered := irq_is_registered r; top := top r;
     name := name r |}.
Definition set_portal_irq (v : Z) (r : portal_data) : portal_data :=
  {| wait_queue := wait_queue r; dev_base_phys := dev_base_phys r;
     interrupt_virt := interrupt_virt r; mask_virt := mask_virt r; map_base := map_base r;
     portal_irq := v; irq_is_registered := irq_is_registered r; top := top r; name := name r |}.
Definition set_irq_is_registered (v : bool) (r : portal_data) : portal_data :=
  {| wait_queue := wait_queue r; dev_base_phys := dev_base_phys r;
     interrupt_virt := interrupt_virt r; mask_virt := mask_virt r; map_base := map_base r;
     portal_irq := portal_irq r; irq_is_registered := v; top := top r; name := name r |}.

(** The kernel services; 0 is success for those that return a status.  A mapped
    register is its physical address. *)
Class ZynqOs (K : Type) : Type := {
  zk_misc_register : Z -> K -> Z * K;
  zk_request_irq : Z -> K -> Z * K;
  zk_ioremap : Z -> Z -> K -> option Z * K;
  zk_remap_pfn : Z -> Z -> K -> Z * K;
  zk_clk_get_sys : Z -> K -> bool * K;
  zk_clk_round_rate : Z -> Z -> K -> Z * K;
  zk_clk_set_rate : Z -> Z -> K -> Z * K;
  zk_sg_table : Z -> K -> option (list (Z * Z));  (* sg_phys and length of fd's table *)
  zk_outer_clean_range : Z -> Z -> K -> K;
  zk_outer_inv_range : Z -> Z -> K -> K;
  zk_heap_word : nat -> Z -> K -> Z               (* a word of the array [drvdata] *)
}.

(** The state of the driver.  [z_misc] and [z_irqs] are the device files and
    interrupts registered, by array and index; [z_cdata] is [connectal_data]
    when the device was probed, with its pointer [portal_data]. *)
Record Zynq {K : Type} : Type := {
  z_heap : gmap nat (list portal_data);
  z_next : nat;
  z_misc : list (nat * Z);
  z_irqs : list (nat * Z);
  z_remaps : list Z;                (* ioremap_nocache, by address *)
  z_cdata : option (option nat);
  directory_virt : option nat;
  inttime : Z * Z;
  ws_drvdata : option nat;
  z_wq : option bool;               (* the pointer wq, and whether the queue still exists *)
  z_pending : bool;                 (* connectal_work is queued *)
  z_kern : K }.
Arguments Zynq K : clear implicits.

Section Zynq.
Context {K : Type} `{!Device K} `{!ZynqOs K}.
Local Abbreviation W := (Zynq K).
(** The memory and interrupt resources of the platform device. *)
Variables (reg_start irq_start : Z).

Definition set_z_heap (v : gmap nat (list portal_data)) (r : W) : W :=
  {| z_heap := v; z_next := z_next r; z_misc := z_misc r; z_irqs := z_irqs r;
     z_remaps := z_remaps r; z_cdata := z_cdata r; directory_virt := directory_virt r;
     inttime := inttime r; ws_drvdata := ws_drvdata r; z_wq := z_wq r;
     z_pending := z_pending r; z_kern := z_kern r |}.
Definition set_z_next (v : nat) (r : W) : W :=
  {| z_heap := z_heap r; z_next := v; z_misc := z_misc r; z_irqs := z_irqs r;
     z_remaps := z_remaps r; z_cdata := z_cdata r; directory_virt := directory_virt r;
     inttime := inttime r; ws_drvdata := ws_drvdata r; z_wq := z_wq r;
     z_pending := z_pending r; z_kern := z_kern r |}.
Definition set_z_misc (v : list (nat * Z)) (r : W) : W :=
  {| z_heap := z_heap r; z_next := z_next r; z_misc := v; z_irqs := z_irqs r;
     z_remaps := z_remaps r; z_cdata := z_cdata r; directory_virt := directory_virt r;
     inttime := inttime r; ws_drvdata := ws_drvdata r; z_wq := z_wq r;
     z_pending := z_pending r; z_kern := z_kern r |}.
Definition set_z_irqs (v : list (nat * Z)) (r : W) : W :=
  {| z_heap := z_heap r; z_next := z_next r; z_misc := z_misc r; z_irqs := v;
     z_remaps := z_remaps r; z_cdata := z_cdata r; directory_virt := directory_virt r;
     inttime := inttime r; ws_drvdata := ws_drvdata r; z_wq := z_wq r;
     z_pending := z_pending r; z_kern := z_kern r |}.
Definition set_z_remaps (v : list Z) (r : W) : W :=
  {| z_heap := z_heap r; z_next := z_next r; z_misc := z_misc r; z_irqs := z_irqs r;
     z_remaps := v; z_cdata := z_cdata r; directory_virt := directory_virt r;
     inttime := inttime r; ws_drvdata := ws_drvdata r; z_wq := z_wq r;
     z_pending := z_pending r; z_kern := z_kern r |}.
Definition set_z_cdata (v : option (option nat)) (r : W) : W :=
  {| z_heap := z_heap r; z_next := z_next r; z_misc := z_misc r; z_irqs := z_irqs r;
     z_remaps := z_remaps r; z_cdata := v; directory_virt := directory_virt r;
     inttime := inttime r; ws_drvdata := ws_drvdata r; z_wq := z_wq r;
     z_pending := z_pending r; z_kern := z_kern r |}.
Definition set_directory_virt (v : option nat) (r : W) : W :=
  {| z_heap := z_heap r; z_next := z_next r; z_misc := z_misc r; z_irqs := z_irqs r;
     z_remaps := z_remaps r; z_cdata := z_cdata r; directory_virt := v; inttime := inttime r;
     ws_drvdata := ws_drvdata r; z_wq := z_wq r; z_pending := z_pending r; z_kern := z_kern r |}.
Definition set_inttime (v : Z * Z) (r : W) : W :=
  {| z_heap := z_heap r; z_next := z_next r; z_misc := z_misc r; z_irqs := z_irqs r;
     z_remaps := z_remaps r; z_cdata := z_cdata r; directory_virt := directory_virt r;
     inttime := v; ws_drvdata := ws_drvdata r; z_wq := z_wq r; z_pending := z_pending r;
     z_kern := z_kern r |}.
Definition set_ws_drvdata (v : option nat) (r : W) : W :=
  {| z_heap := z_heap r; z_next := z_next r; z_misc := z_misc r; z_irqs := z_irqs r;
     z_remaps := z_remaps r; z_cdata := z_cdata r; directory_virt := directory_virt r;
     inttime := inttime r; ws_drvdata := v; z_wq := z_wq r; z_pending := z_pending r;
     z_kern := z_kern r |}.
Definition set_z_wq (v : option bool) (r : W) : W :=
  {| z_heap := z_heap r; z_next := z_next r; z_misc := z_misc r; z_irqs := z_irqs r;
     z_remaps := z_remaps r; z_cdata := z_cdata r; directory_virt := directory_virt r;
     inttime := inttime r; ws_drvdata := ws_drvdata r; z_wq := v; z_pending := z_pending r;
     z_kern := z_kern r |}.
Definition set_z_pending (v : bool) (r : W) : W :=
  {| z_heap := z_heap r; z_next := z_next r; z_misc := z_misc r; z_irqs := z_irqs r;
     z_remaps := z_remaps r; z_cdata := z_cdata r; directory_virt := directory_virt r;
     inttime := inttime r; ws_drvdata := ws_drvdata r; z_wq := z_wq r; z_pending := v;
     z_kern := z_kern r |}.
Definition set_z_kern (v : K) (r : W) : W :=
  {| z_heap := z_heap r; z_next := z_next r; z_misc := z_misc r; z_irqs := z_irqs r;
     z_remaps := z_remaps r; z_cdata := z_cdata r; directory_virt := directory_virt r;
     inttime := inttime r; ws_drvdata := ws_drvdata r; z_wq := z_wq r;
     z_pending := z_pending r; z_kern := v |}.

Definition zcall {A} (f : K -> A * K) : M W A := fun w =>
  let '(a, k) := f (z_kern w) in Ok a (set_z_kern k w).

(** A [portal_data] behind a pointer: the array [t], index [i]. *)
Definition get_pd (t : nat) (i : Z) : M W portal_data :=
  w ← getW; l ← defined (z_heap w !! t); defined (znth l i).
Definition upd_pd (t : nat) (i : Z) (f : portal_data -> portal_data) : M W unit :=
  w ← getW;
  l ← defined (z_heap w !! t);
  p ← defined (znth l i);
  l ← defined (zupd l i (f p));
  putW (set_z_heap (<[t := l]> (z_heap w)) w).

Definition readl (a : option Z) (off : Z) : M W Z :=
  a ← defined a; v ← zcall (mmio_read (a + off)); mret (u32 v).
Definition writel (v : Z) (a : option Z) : M W unit :=
  a ← defined a; zcall (fun k => (tt, mmio_write a (u32 v) k)).
(** [readl(directory_virt + off)]: [directory_virt] points to an array of [portal_data]. *)
Definition read_directory (off : Z) : M W Z :=
  w ← getW;
  t ← defined (directory_virt w);
  defined (z_heap w !! t) ;;
  mret (u32 (zk_heap_word t off (z_kern w))).

Definition ioremap_nocache (phys len : Z) : M W (option Z) :=
  a ← zcall (zk_ioremap phys len);
  match a with
  | Some v => modifyW (fun w => set_z_remaps (z_remaps w ++ [v]) w) ;; mret a
  | None => mret a
  end.

Definition misc_register (t : nat) (i iid : Z) : M W Z :=
  rc ← zcall (zk_misc_register iid);
  (if decide (rc = 0) then modifyW (fun w => set_z_misc (z_misc w ++ [(t, i)]) w) else mret tt) ;;
  mret rc.
(** A device that is not registered is not in a list it could be removed from. *)
Definition misc_deregister (t : nat) (i : Z) : M W unit :=
  w ← getW;
  if decide ((t, i) ∈ z_misc w) then putW (set_z_misc (filter (fun d => d <> (t, i)) (z_misc w)) w)
  else fault.
Definition request_irq (irq : Z) (t : nat) (i : Z) : M W Z :=
  rc ← zcall (zk_request_irq irq);
  (if decide (rc = 0) then modifyW (fun w => set_z_irqs (z_irqs w ++ [(t, i)]) w) else mret tt) ;;
  mret rc.
Definition free_irq (t : nat) (i : Z) : M W unit :=
  modifyW (fun w => set_z_irqs (filter (fun d => d <> (t, i)) (z_irqs w)) w).

(** * The interrupt handler *)

Definition IRQ_NONE : Z := 0.
Definition IRQ_HANDLED : Z := 1.

Definition portal_isr (t : nat) (i : Z) : M W Z :=
  p ← get_pd t i;
  s ← readl (interrupt_virt p) 0;
  if decide (s <> 0) then
    msb ← read_directory MSB_OFFSET;
    lsb ← read_directory LSB_OFFSET;
    modifyW (set_inttime (msb, lsb)) ;;
    writel 0 (mask_virt p) ;;
    upd_pd t i (set_wait_queue true) ;;
    mret IRQ_HANDLED
  else mret IRQ_NONE.

(** * The device file of a portal *)

Definition portal_open (t : nat) (i : Z) : M W Z :=
  upd_pd t i (set_wait_queue false) ;; mret 0.

Inductive portal_cmd : Type :=
| PORTAL_SET_FCLK_RATE (clknum requested_rate : Z)
| PORTAL_ENABLE_INTERRUPT (interrupt_offset mask_offset : Z)
| PORTAL_SEND_FD (fd id : Z)
| PORTAL_DCACHE_FLUSH_INVAL (fd : Z)
| PORTAL_DIRECTORY_READ (arg : Z)
| PORTAL_INTERRUPT_TIME
| PORTAL_OTHER.

(** What an ioctl stores in the caller's memory. *)
Inductive portal_out : Type := NoData | ActualRate (rate : Z) | Time (msb lsb : Z).

(** [if (!p->x) p->x = ioremap_nocache(...)] *)
Definition map_once (o : option Z) (phys len : Z) : M W (option Z) :=
  match o with Some _ => mret o | None => ioremap_nocache phys len end.

Definition enable_interrupt (t : nat) (i interrupt_offset mask_offset : Z) : M W Z :=
  p ← get_pd t i;
  a ← map_once (interrupt_virt p) (dev_base_phys p + interrupt_offset) SIZEOF_LONG;
  upd_pd t i (set_interrupt_virt a) ;;
  a ← map_once (mask_virt p) (dev_base_phys p + mask_offset) SIZEOF_LONG;
  upd_pd t i (set_mask_virt a) ;;
  a ← map_once (map_base p) (dev_base_phys p) PORTAL_BASE_OFFSET;
  upd_pd t i (set_map_base a) ;;
  p ← get_pd t i;
  if irq_is_registered p then mret 0
  else
    readl (interrupt_virt p) 0 ;;
    readl (mask_virt p) 0 ;;
    rc ← request_irq (portal_irq p) t i;
    if decide (rc <> 0) then upd_pd t i (set_portal_irq 0) ;; mret (- EFAULT)
    else upd_pd t i (set_irq_is_registered true) ;; mret 0.

(** The loop over the scatter list. *)
Fixpoint flush_ranges (l : list (Z * Z)) : M W unit :=
  match l with
  | [] => mret tt
  | (start_addr, len) :: l =>
      let end_addr := start_addr + len in
      zcall (fun k => (tt, zk_outer_clean_range start_addr end_addr k)) ;;
      zcall (fun k => (tt, zk_outer_inv_range start_addr end_addr k)) ;;
      flush_ranges l
  end.

(** [user_in], [user_out]: the caller's memory can be read, written.
    [send_fd map_base fd id] is [send_fd_to_portal] for those registers. *)
Definition portal_unlocked_ioctl (user_in user_out : bool) (send_fd : option Z -> Z -> Z -> M W Z)
    (t : nat) (i : Z) (cmd : portal_cmd) : M W (Z * portal_out) :=
  let err (e : Z) : M W (Z * portal_out) := mret (- e, NoData) in
  match cmd with
  | PORTAL_SET_FCLK_RATE clknum requested_rate =>
      if negb user_in then err EFAULT
      else
        fclk ← zcall (zk_clk_get_sys clknum);
        if negb fclk then err ENODEV
        else
          actual_rate ← zcall (zk_clk_round_rate clknum requested_rate);
          status ← zcall (zk_clk_set_rate clknum actual_rate);
          if decide (status <> 0) then mret (status, NoData)
          else if negb user_out then err EFAULT else mret (0, ActualRate actual_rate)
  | PORTAL_ENABLE_INTERRUPT interrupt_offset mask_offset =>
      if negb user_in then err EFAULT
      else rc ← enable_interrupt t i interrupt_offset mask_offset; mret (rc, NoData)
  | PORTAL_SEND_FD fd id =>
      p ← get_pd t i;
      if negb user_in then err ENODEV
      else
        e ← send_fd (map_base p) fd id;
        if decide (e < 0) then err ENODEV else mret (0, NoData)
  | PORTAL_DCACHE_FLUSH_INVAL fd =>
      w ← getW;
      l ← defined (zk_sg_table fd (z_kern w));
      flush_ranges l ;;
      mret (0, NoData)
  | PORTAL_DIRECTORY_READ arg =>
      v ← read_directory arg; mret (v, NoData)
  | PORTAL_INTERRUPT_TIME =>
      w ← getW;
      if negb user_out then err EFAULT else mret (0, Time (fst (inttime w)) (snd (inttime w)))
  | PORTAL_OTHER => err ENOTTY
  end.

Definition portal_mmap (t : nat) (i vm_pgoff len : Z) : M W Z :=
  p ← get_pd t i;
  if decide (vm_pgoff > Z.shiftr ULONG_MAX 12) then mret (- EINVAL)
  else
    rc ← zcall (zk_remap_pfn (Z.shiftr (dev_base_phys p) 12) len);
    mret (if decide (rc <> 0) then - EAGAIN else 0).

Definition POLLIN_RDNORM : Z := Z.lor 0x1 0x40.

Definition portal_poll (t : nat) (i : Z) : M W Z :=
  p ← get_pd t i;
  int_status ← (match interrupt_virt p with Some a => readl (Some a) 0 | None => mret 0 end);
  mret (if decide (int_status <> 0) then POLLIN_RDNORM else 0).

Definition portal_release (t : nat) (i : Z) : M W Z :=
  p ← get_pd t i;
  (if irq_is_registered p then writel 0 (interrupt_virt p) ;; free_irq t i else mret tt) ;;
  upd_pd t i (set_irq_is_registered false) ;;
  upd_pd t i (set_wait_queue false) ;;
  mret 0.

(** * The device of the board *)

(** [while(!top)]: [turns] is [MAX_NUM_PORTALS - fpn]. *)
Fixpoint remove_loop (turns : nat) (t : nat) (fpn : Z) : M W unit :=
  match turns with
  | O => mret tt
  | S turns =>
      pdata ← get_pd t fpn;
      (if irq_is_registered pdata then free_irq t fpn else mret tt) ;;
      misc_deregister t fpn ;;
      let fpn := fpn + 1 in
      if decide (fpn >= MAX_NUM_PORTALS) then mret tt
      else if decide (top pdata = 0) then remove_loop turns t fpn else mret tt
  end.

Definition remove_portal_devices (t : nat) : M W Z :=
  remove_loop (Z.to_nat MAX_NUM_PORTALS) t 0 ;;
  modifyW (fun w => set_z_heap (delete t (z_heap w)) w) ;;
  mret 0.

(** What the discovery stores for the portal at [bar]. *)
Definition found (bar iid top : Z) (p : portal_data) : portal_data :=
  {| wait_queue := wait_queue p; dev_base_phys := bar; interrupt_virt := interrupt_virt p;
     mask_virt := mask_virt p; map_base := map_base p; portal_irq := irq_start;
     irq_is_registered := irq_is_registered p; top := top; name := iid |}.

Fixpoint work_loop (turns : nat) (t : nat) (fpn : Z) : M W unit :=
  match turns with
  | O => mret tt
  | S turns =>
      let bar := reg_start + fpn * PORTAL_BASE_OFFSET in
      foo ← ioremap_nocache bar SIZEOF_LONG;
      iid ← readl foo IID_OFFSET;
      top ← readl foo TOP_OFFSET;
      upd_pd t fpn (found bar iid top) ;;
      misc_register t fpn iid ;;
      let fpn := fpn + 1 in
      if decide (fpn >= MAX_NUM_PORTALS) then mret tt
      else if decide (top = 0) then work_loop turns t fpn else mret tt
  end.

(** The work item runs when it is queued and the queue exists. *)
Definition connectal_work_handler : M W unit :=
  w ← getW;
  if (z_pending w : bool) then
    modifyW (set_z_pending false) ;;
    t ← defined (ws_drvdata w);
    work_loop (Z.to_nat MAX_NUM_PORTALS) t 0
  else mret tt.

(** [resources]: the platform device has its memory and interrupt;
    [can_create]: a work queue can be created.  Queueing on a destroyed work
    queue is undefined. *)
Definition connectal_open (resources can_create : bool) : M W Z :=
  w ← getW;
  cd ← defined (z_cdata w);
  (match cd with Some t => remove_portal_devices t ;; mret tt | None => mret tt end) ;;
  w ← getW;
  let t := z_next w in
  modifyW (fun w => set_z_heap (<[t := replicate (Z.to_nat MAX_NUM_PORTALS) portal_data_zero]> (z_heap w)) w) ;;
  modifyW (set_z_next (S t)) ;;
  if negb resources then mret (- ENODEV)
  else
    modifyW (set_ws_drvdata (Some t)) ;;
    (match z_wq w with
     | Some _ => mret tt
     | None => modifyW (set_z_wq (if can_create then Some true else None))
     end) ;;
    w ← getW;
    (match z_wq w with
     | Some true => modifyW (set_z_pending true)
     | Some false => fault
     | None => mret tt
     end) ;;
    modifyW (set_z_cdata (Some (Some t))) ;;
    modifyW (set_directory_virt (Some t)) ;;
    mret 0.

Definition connectal_read : M W Z := mret 0.

(** [has_name]: the device tree node has the property [device-name]. *)
Definition connectal_of_probe (has_name : bool) : M W Z :=
  if negb has_name then mret (- EINVAL)
  else modifyW (set_z_cdata (Some None)) ;; mret 0.

Definition connectal_of_remove : M W Z :=
  w ← getW;
  cd ← defined (z_cdata w);
  (match cd with Some t => remove_portal_devices t ;; mret tt | None => mret tt end) ;;
  modifyW (set_z_cdata None) ;;
  w ← getW;
  (match z_wq w with
   | Some true => modifyW (set_z_pending false) ;; modifyW (set_z_wq (Some false))
   | Some false => fault
   | None => mret tt
   end) ;;
  mret 0.
End Zynq.

(** * Running the operations *)
Section ZynqFacts.
Context {K : Type} `{!Device K} `{!ZynqOs K}.
Local Abbreviation W := (Zynq K).
Implicit Types (w : W).

Lemma zcall_ok {A} (f : K -> A * K) w : exists k, zcall f w = Ok (fst (f (z_kern w))) (set_z_kern k w).
Proof. unfold zcall. destruct (f (z_kern w)) as [a k]. by exists k. Qed.

Lemma get_pd_ok t i w l p :
  z_heap w !! t = Some l -> znth l i = Some p -> get_pd t i w = Ok p w.
Proof.
  intros H1 H2. unfold get_pd. rewrite (bind_ok _ _ w w w) by done. rewrite H1, bind_defined. by rewrite H2.
Qed.

Lemma upd_pd_ok t i f w l p :
  z_heap w !! t = Some l -> znth l i = Some p ->
  upd_pd t i f w = Ok tt (set_z_heap (<[t := <[Z.to_nat i := f p]> l]> (z_heap w)) w).
Proof.
  intros H1 H2. unfold upd_pd. rewrite (bind_ok _ _ w w w) by done. rewrite H1, bind_defined.
  rewrite H2, bind_defined. apply znth_Some in H2. rewrite zupd_Some by lia. by rewrite bind_defined.
Qed.

Lemma readl_ok a off w : exists k,
  readl (Some a) off w = Ok (u32 (fst (mmio_read (a + off) (z_kern w)))) (set_z_kern k w).
Proof.
  unfold readl. rewrite bind_defined. destruct (zcall_ok (mmio_read (a + off)) w) as [k H].
  exists k. by rewrite (bind_ok _ _ _ _ _ H).
Qed.

(** The parts of the state that discovery does not touch. *)
Definition rest w :=
  (z_next w, z_irqs w, z_cdata w, directory_virt w, inttime w, ws_drvdata w, z_wq w, z_pending w).

Lemma znth_insert {A} (l : list A) i j x :
  0 <= i < Z.of_nat (length l) ->
  znth (<[Z.to_nat i := x]> l) j = if decide (j = i) then Some x else znth l j.
Proof.
  intros Hi. case_decide as E; [subst j|].
  - apply (znth_zupd_eq l). by apply zupd_Some.
  - apply (znth_zupd_ne l _ i j x); [by apply zupd_Some|done].
Qed.
End ZynqFacts.

(** * A board with [n] portals

    The identification registers are constant, the last portal has its [top]
    register set, the registers can be mapped and device files registered. *)
Class ZynqBoard (K : Type) `{!Device K} `{!ZynqOs K} (reg_start n : Z) (iid : Z -> Z) : Prop := {
  zb_n : 1 <= n <= MAX_NUM_PORTALS;
  zb_iid : forall i k, 0 <= i < n ->
    u32 (fst (mmio_read (reg_start + i * PORTAL_BASE_OFFSET + IID_OFFSET) k)) = iid i;
  zb_inner : forall i k, 0 <= i < n - 1 ->
    u32 (fst (mmio_read (reg_start + i * PORTAL_BASE_OFFSET + TOP_OFFSET) k)) = 0;
  zb_last : forall k, n < MAX_NUM_PORTALS ->
    u32 (fst (mmio_read (reg_start + (n - 1) * PORTAL_BASE_OFFSET + TOP_OFFSET) k)) <> 0;
  zb_map : forall a len k, fst (zk_ioremap a len k) = Some a;
  zb_misc : forall v k, fst (zk_misc_register v k) = 0
}.

Section ZynqBoardFacts.
Context {K : Type} `{!Device K} `{!ZynqOs K}.
Variables (reg_start irq_start n : Z) (iid : Z -> Z).
Context `{!ZynqBoard K reg_start n iid}.
Local Abbreviation W := (Zynq K).
Implicit Types (w : W).
Local Abbreviation bar i := (reg_start + i * PORTAL_BASE_OFFSET).

Lemma ioremap_ok a len w : exists k,
  ioremap_nocache a len w = Ok (Some a) (set_z_remaps (z_remaps w ++ [a]) (set_z_kern k w)).
Proof.
  unfold ioremap_nocache. destruct (zcall_ok (zk_ioremap a len) w) as [k H]. exists k.
  rewrite (bind_ok _ _ _ _ _ H), zb_map. done.
Qed.

Lemma misc_register_ok t i v w : exists k,
  misc_register t i v w = Ok 0 (set_z_misc (z_misc w ++ [(t, i)]) (set_z_kern k w)).
Proof.
  unfold misc_register. destruct (zcall_ok (zk_misc_register v) w) as [k H]. exists k.
  rewrite (bind_ok _ _ _ _ _ H), zb_misc, decide_True by done. done.
Qed.

(** [top] of portal [i] as the discovery reads it. *)
Definition top_ok (i v : Z) : Prop := (i < n - 1 -> v = 0) /\ (n < MAX_NUM_PORTALS -> i = n - 1 -> v <> 0).

(** One turn of the discovery. *)
Lemma work_turn t j w l p : 0 <= j < n -> z_heap w !! t = Some l -> znth l j = Some p ->
  exists w' v, top_ok j v /\
    (forall turns, work_loop reg_start irq_start (S turns) t j w =
      (if decide (j + 1 >= MAX_NUM_PORTALS) then mret tt
       else if decide (v = 0) then work_loop reg_start irq_start turns t (j + 1) else mret tt) w') /\
    rest w' = rest w /\ z_misc w' = z_misc w ++ [(t, j)] /\ z_remaps w' = z_remaps w ++ [bar j] /\
    z_heap w' = <[t := <[Z.to_nat j := found irq_start (bar j) (iid j) v p]> l]> (z_heap w).
Proof.
  intros Hj Hl Hp. destruct (ioremap_ok (bar j) SIZEOF_LONG w) as [k1 E1].
  match type of E1 with _ = Ok _ ?w1 => destruct (readl_ok (bar j) IID_OFFSET w1) as [k2 E2] end.
  match type of E2 with _ = Ok _ ?w2 => destruct (readl_ok (bar j) TOP_OFFSET w2) as [k3 E3] end.
  rewrite zb_iid in E2 by done.
  match type of E3 with _ = Ok ?v ?w3 => set (v' := v) in E3; set (w3' := w3) in E3 end.
  assert (Hv : top_ok j v').
  { split; intros; subst v'; [apply zb_inner; lia|]. subst j. by apply zb_last. }
  pose proof (upd_pd_ok t j (found irq_start (bar j) (iid j) v') w3' l p Hl Hp) as E4.
  match type of E4 with _ = Ok _ ?w4 => destruct (misc_register_ok t j (iid j) w4) as [k5 E5] end.
  eexists _, v'. split; [done|]. split.
  - intros turns. cbn [work_loop]. rewrite (bind_ok _ _ _ _ _ E1), (bind_ok _ _ _ _ _ E2),
      (bind_ok _ _ _ _ _ E3), (bind_ok _ _ _ _ _ E4), (bind_ok _ _ _ _ _ E5). reflexivity.
  - done.
Qed.

(** The entry of portal [i] after discovery; its interrupt number is cleared
    when the interrupt was refused. *)
Definition discovered (i : Z) (p : portal_data) : Prop :=
  dev_base_phys p = bar i /\ name p = iid i /\ (portal_irq p = irq_start \/ portal_irq p = 0) /\
  top_ok i (top p).

Definition range (a b : Z) : list Z := (fun i => a + Z.of_nat i) <$> seq 0 (Z.to_nat (b - a)).

Lemma range_cons a b : a < b -> range a b = a :: range (a + 1) b.
Proof.
  intros H. unfold range. replace (Z.to_nat (b - a)) with (S (Z.to_nat (b - (a + 1)))) by lia.
  cbn. f_equal; [lia|]. rewrite <- fmap_S_seq, <- list_fmap_compose. apply list_fmap_ext.
  intros i x _. cbn. lia.
Qed.

Lemma range_nil a : range a a = [].
Proof. unfold range. by rewrite Z.sub_diag. Qed.

Lemma elem_of_range a b x : x ∈ range a b <-> a <= x < b.
Proof.
  unfold range. rewrite list_elem_of_fmap. setoid_rewrite elem_of_seq. split.
  - intros (i & -> & Hi). lia.
  - intros H. exists (Z.to_nat (x - a)). lia.
Qed.

Lemma work_loop_spec t turns : forall j w l,
  0 <= j < n -> n - j <= Z.of_nat turns -> z_heap w !! t = Some l -> length l = 16%nat ->
  exists w' l', work_loop reg_start irq_start turns t j w = Ok tt w' /\
    rest w' = rest w /\ z_misc w' = z_misc w ++ (pair t <$> range j n) /\
    z_remaps w' = z_remaps w ++ ((fun i => bar i) <$> range j n) /\
    z_heap w' = <[t := l']> (z_heap w) /\ length l' = 16%nat /\
    forall i p, znth l i = Some p -> exists p', znth l' i = Some p' /\
      irq_is_registered p' = irq_is_registered p /\
      (j <= i < n -> discovered i p') /\ (~ j <= i < n -> p' = p).
Proof.
  induction turns as [|turns IH]; intros j w l Hj Ht Hl Hlen; [lia|]. pose proof zb_n as Hn.
  destruct (znth_in_range l j) as [p Hp]; [unfold MAX_NUM_PORTALS in *; lia|].
  destruct (work_turn t j w l p Hj Hl Hp) as (w1 & v & [Hv1 Hv2] & Hrun & Hrest & Hm & Hr & Hh).
  rewrite Hrun. clear Hrun. set (l1 := <[Z.to_nat j := found irq_start (bar j) (iid j) v p]> l) in *.
  assert (Hl1 : length l1 = 16%nat) by (unfold l1; by rewrite length_insert).
  assert (Hz : forall i, znth l1 i = if decide (i = j) then Some (found irq_start (bar j) (iid j) v p) else znth l i)
    by (intros i; apply znth_insert; unfold MAX_NUM_PORTALS in *; lia).
  destruct (decide (j = n - 1)) as [Hlast|Hlast].
  - assert (Hend : (if decide (j + 1 >= MAX_NUM_PORTALS) then mret tt
       else if decide (v = 0) then work_loop reg_start irq_start turns t (j + 1) else mret tt) w1 = Ok tt w1).
    { case_decide; [done|]. rewrite decide_False; [done|]. apply Hv2; lia. }
    exists w1, l1. rewrite range_cons by lia. replace (j + 1) with n in * by lia. rewrite range_nil.
    split; [done|]. split_and!; try done.
    clear Hend. intros i q Hq. rewrite Hz. destruct (decide (i = j)) as [Ei|Ei].
    + subst i. simplify_eq. eexists. split; [done|]. split; [done|]. split; [|lia].
      intros _. split_and!; try done; cbn; auto.
    + exists q. split; [done|]. split; [done|]. split; [lia|done].
  - rewrite decide_False by lia. rewrite decide_True by (apply Hv1; lia).
    destruct (IH (j + 1) w1 l1) as (w' & l' & E & Hrest' & Hm' & Hr' & Hh' & Hl' & Hz'); [lia|lia| |done|].
    { by rewrite Hh, lookup_insert_eq. }
    exists w', l'. rewrite range_cons by lia. split; [done|].
    split_and!; [congruence|rewrite Hm', Hm, <- app_assoc; done|rewrite Hr', Hr, <- app_assoc; done
      |rewrite Hh', Hh; by rewrite insert_insert_eq|done|].
    intros i q Hq. specialize (Hz i). destruct (decide (i = j)) as [Ei|Ei].
    + subst i. simplify_eq. destruct (Hz' j _ Hz) as (p' & Hp' & Hi' & _ & Hsame).
      exists p'. rewrite Hsame by lia. split; [by rewrite <- Hsame by lia|]. split; [done|].
      split; [|lia]. intros _. split_and!; try done; cbn; auto.
    + rewrite Hq in Hz. destruct (Hz' i _ Hz) as (p' & Hp' & Hi' & Hd & Hsame).
      exists p'. split; [done|]. split; [done|]. split; intros; [apply Hd; lia|apply Hsame; lia].
Qed.

Definition registered (l : list portal_data) (i : Z) : Prop :=
  exists p, znth l i = Some p /\ irq_is_registered p = true.

Lemma set_irqs_same w : set_z_irqs (z_irqs w) w = w.
Proof. by destruct w. Qed.

(** One turn of the removal. *)
Lemma remove_turn t j w l p : z_heap w !! t = Some l -> znth l j = Some p -> (t, j) ∈ z_misc w ->
  exists M I,
    (forall turns, remove_loop (S turns) t j w =
      (if decide (j + 1 >= MAX_NUM_PORTALS) then mret tt
       else if decide (top p = 0) then remove_loop turns t (j + 1) else mret tt)
        (set_z_misc M (set_z_irqs I w))) /\
    (forall d, d ∈ M <-> d ∈ z_misc w /\ d <> (t, j)) /\
    (forall d, d ∈ I <-> d ∈ z_irqs w /\ ~ (d = (t, j) /\ registered l j)).
Proof.
  intros Hl Hp Hm.
  set (I := if irq_is_registered p then filter (fun d => d <> (t, j)) (z_irqs w) else z_irqs w).
  exists (filter (fun d => d <> (t, j)) (z_misc w)), I. split_and!.
  - intros turns. cbn [remove_loop]. rewrite (bind_ok _ _ _ _ _ (get_pd_ok t j w l p Hl Hp)).
    rewrite (bind_ok _ _ w tt (set_z_irqs I w)).
    2: { unfold I. destruct (irq_is_registered p); [done|by rewrite set_irqs_same]. }
    erewrite bind_ok; [reflexivity|]. unfold misc_deregister.
    rewrite (bind_ok getW _ _ (set_z_irqs I w) (set_z_irqs I w)) by done.
    rewrite decide_True by done. reflexivity.
  - intros d. rewrite list_elem_of_filter. tauto.
  - intros d. unfold I. destruct (irq_is_registered p) eqn:E.
    + rewrite list_elem_of_filter. assert (registered l j) by (by exists p). tauto.
    + split; [|tauto]. intros H. split; [done|]. intros [_ (q & Hq & Hr)]. congruence.
Qed.

Lemma remove_loop_spec t l turns :
  length l = 16%nat -> (forall i p, 0 <= i < n -> znth l i = Some p -> top_ok i (top p)) ->
  forall j w, 0 <= j < n -> n - j <= Z.of_nat turns -> z_heap w !! t = Some l ->
  (forall i, j <= i < n -> (t, i) ∈ z_misc w) ->
  exists M I, remove_loop turns t j w = Ok tt (set_z_misc M (set_z_irqs I w)) /\
    (forall d, d ∈ M <-> d ∈ z_misc w /\ ~ (d.1 = t /\ j <= d.2 < n)) /\
    (forall d, d ∈ I <-> d ∈ z_irqs w /\ ~ (d.1 = t /\ j <= d.2 < n /\ registered l d.2)).
Proof.
  intros Hlen Htop. induction turns as [|turns IH]; intros j w Hj Ht Hl Hm; [lia|]. pose proof zb_n as Hn.
  destruct (znth_in_range l j) as [p Hp]; [unfold MAX_NUM_PORTALS in *; lia|].
  destruct (Htop j p Hj Hp) as [Hv1 Hv2].
  destruct (remove_turn t j w l p Hl Hp) as (M & I & Hrun & HM & HI); [apply Hm; lia|].
  rewrite Hrun. destruct (decide (j = n - 1)) as [Hlast|Hlast].
  - exists M, I. split.
    + case_decide; [done|]. rewrite decide_False; [done|]. apply Hv2; lia.
    + split; intros [s i]; [rewrite HM|rewrite HI]; cbn.
      * split; intros [H1 H2]; (split; [done|]); [intros [-> ?]; apply H2; f_equal; lia|].
        intros [= -> ->]. apply H2. lia.
      * split; intros [H1 H2]; (split; [done|]).
        -- intros (-> & ? & ?). apply H2. assert (i = j) as -> by lia. done.
        -- intros ([= -> ->] & ?). apply H2. split_and!; [done|lia|lia|done].
  - rewrite decide_False by lia. rewrite decide_True by (apply Hv1; lia).
    destruct (IH (j + 1) (set_z_misc M (set_z_irqs I w))) as (M' & I' & E & HM' & HI'); [lia|lia|done| |].
    { intros i Hi. cbn. apply HM. split; [apply Hm; lia|]. intros [= ?]. lia. }
    exists M', I'. split; [exact E|]. cbn in HM', HI'. split; intros [s i].
    + rewrite HM', HM. cbn. split.
      * intros [[H1 H2] H3]. split; [done|]. intros [-> Hi]. destruct (decide (i = j)) as [-> | ]; [done|].
        apply H3. lia.
      * intros [H1 H2]. split; [split; [done|]|]; [intros [= -> ->]; apply H2; lia|].
        intros [-> Hi]. apply H2. lia.
    + rewrite HI', HI. cbn. split.
      * intros [[H1 H2] H3]. split; [done|]. intros (-> & Hi & Hr).
        destruct (decide (i = j)) as [-> | ]; [by apply H2|]. apply H3. split_and!; (done || lia).
      * intros [H1 H2]. split; [split; [done|]|].
        -- intros [[= -> ->] Hr]. apply H2. split_and!; (done || lia).
        -- intros (-> & Hi & Hr). apply H2. split_and!; (done || lia).
Qed.

(** * The invariant of a device that is open *)

(** The array [t] is the only one, holds the [n] portals, each with its device
    file, and an interrupt is registered, once, exactly for the portals that
    say so. *)
Record up (t : nat) w (l : list portal_data) : Prop := {
  up_heap : z_heap w = {[ t := l ]};
  up_len : length l = 16%nat;
  up_disc : forall i p, 0 <= i < n -> znth l i = Some p -> discovered i p;
  up_misc : z_misc w = pair t <$> range 0 n;
  up_irqs : forall d, d ∈ z_irqs w <-> d.1 = t /\ 0 <= d.2 < n /\ registered l d.2;
  up_nodup : NoDup (z_irqs w);
  up_cdata : z_cdata w = Some (Some t);
  up_dir : directory_virt w = Some t;
  up_next : (t < z_next w)%nat;
  up_wq : z_wq w = Some true;
  up_pending : z_pending w = false
}.

(** Probed, not open yet. *)
Record idle w : Prop := {
  idle_heap : z_heap w = ∅;
  idle_misc : z_misc w = [];
  idle_irqs : z_irqs w = [];
  idle_cdata : z_cdata w = Some None;
  idle_wq : z_wq w = None \/ z_wq w = Some true;
  idle_pending : z_pending w = false
}.

Lemma elem_of_files (t : nat) i : (t, i) ∈ (pair t <$> range 0 n) <-> 0 <= i < n.
Proof.
  rewrite list_elem_of_fmap. split.
  - intros (j & [= ->] & Hj%elem_of_range). done.
  - intros H. exists i. split; [done|]. by apply elem_of_range.
Qed.

Lemma no_elem {A} (l : list A) : (forall x, x ∉ l) -> l = [].
Proof. destruct l as [|a l]; [done|]. intros H. destruct (H a). by left. Qed.

Lemma remove_releases t w l : up t w l ->
  remove_portal_devices t w = Ok 0 (set_z_heap ∅ (set_z_misc [] (set_z_irqs [] w))).
Proof.
  intros U. pose proof zb_n as Hn. destruct U. unfold remove_portal_devices.
  destruct (remove_loop_spec t l (Z.to_nat MAX_NUM_PORTALS)) with (j := 0) (w := w)
    as (M & I & E & HM & HI); try done.
  { intros i p Hi Hp. by apply up_disc0. }
  { lia. } { lia. }
  { by rewrite up_heap0, lookup_singleton_eq. }
  { intros i Hi. rewrite up_misc0. by apply elem_of_files. }
  rewrite (bind_ok _ _ _ _ _ E). assert (M = []) as ->.
  { apply no_elem. intros [s i] [H1 H2]%HM. apply H2. rewrite up_misc0 in H1.
    apply list_elem_of_fmap in H1 as (j & [= -> ->] & Hj%elem_of_range). done. }
  assert (I = []) as ->.
  { apply no_elem. intros [s i] [H1 H2]%HI. apply H2. by apply up_irqs0 in H1 as (? & ? & ?). }
  unfold modifyW, mret, M_ret, mbind, M_bind. cbn. rewrite up_heap0. by rewrite delete_singleton_eq.
Qed.

(** The second half of [connectal_open] and the work item, from a state in
    which nothing is left. *)
Lemma fresh_up w :
  z_heap w = ∅ -> z_misc w = [] -> z_irqs w = [] -> z_pending w = false ->
  let t := z_next w in
  let w0 := set_directory_virt (Some t) (set_z_cdata (Some (Some t)) (set_z_pending true
              (set_z_wq (Some true) (set_ws_drvdata (Some t) (set_z_next (S t)
              (set_z_heap (<[t := replicate 16 portal_data_zero]> (z_heap w)) w)))))) in
  exists w' l, connectal_work_handler reg_start irq_start w0 = Ok tt w' /\ up t w' l /\ z_irqs w' = [].
Proof.
  intros H1 H2 H3 H4 t w0. pose proof zb_n as Hn. unfold connectal_work_handler.
  rewrite (bind_ok getW _ w0 w0 w0) by done. cbn [z_pending w0 set_directory_virt set_z_cdata set_z_pending].
  rewrite (bind_ok (modifyW _) _ w0 tt (set_z_pending false w0)) by done.
  change (ws_drvdata w0) with (Some t). rewrite bind_defined.
  destruct (work_loop_spec t (Z.to_nat MAX_NUM_PORTALS) 0 (set_z_pending false w0)
              (replicate 16 portal_data_zero)) as (w' & l' & E & Hrest & Hm & _ & Hh & Hl & Hz);
    [lia|lia|by cbn; rewrite lookup_insert_eq|done|].
  exists w', l'. split; [done|]. unfold rest in Hrest. cbn in Hrest. simplify_eq.
  assert (Hirq : forall i p, znth l' i = Some p -> irq_is_registered p = false).
  { intros i p Hp. pose proof (znth_Some _ _ _ Hp) as Hi.
    destruct (znth_in_range (replicate 16 portal_data_zero) i) as [q Hq]; [rewrite length_replicate; lia|].
    destruct (Hz i q Hq) as (p' & Hp' & Hr & _). rewrite Hp in Hp'. simplify_eq. rewrite Hr.
    unfold znth in Hq. case_decide; [|done]. apply lookup_replicate in Hq as [-> _]. done. }
  split; [|congruence]. constructor; try congruence.
  - rewrite Hh. cbn. rewrite H1, insert_insert_eq. done.
  - intros i p Hi Hp. destruct (znth_in_range (replicate 16 portal_data_zero) i) as [q Hq];
      [rewrite length_replicate; unfold MAX_NUM_PORTALS in *; lia|].
    destruct (Hz i q Hq) as (p' & Hp' & _ & Hd & _). rewrite Hp in Hp'. simplify_eq. apply Hd. lia.
  - rewrite Hm. cbn. by rewrite H2.
  - intros d. assert (z_irqs w' = []) as -> by congruence. split; [by intros ?%elem_of_nil|].
    intros (_ & _ & p & Hp & Hr). by rewrite (Hirq _ _ Hp) in Hr.
  - assert (z_irqs w' = []) as -> by congruence. apply NoDup_nil_2.
  - lia.
Qed.

(** [connectal_open] and then the work item it queued. *)
Definition open_and_discover : M W unit :=
  connectal_open true true ;; connectal_work_handler reg_start irq_start.

Lemma open_up w : (idle w \/ exists t l, up t w l) ->
  exists w' l, open_and_discover w = Ok tt w' /\ up (z_next w) w' l /\ z_irqs w' = [].
Proof.
  intros H. unfold open_and_discover, connectal_open. rewrite bind_assoc.
  rewrite (bind_ok getW _ w w w) by done. rewrite bind_assoc.
  assert (Hc : exists cd w1, z_cdata w = Some cd /\
    (match cd with Some t => remove_portal_devices t ;; mret tt | None => mret tt end) w = Ok tt w1 /\
    z_heap w1 = ∅ /\ z_misc w1 = [] /\ z_irqs w1 = [] /\ z_pending w1 = false /\
    z_next w1 = z_next w /\ (z_wq w1 = None \/ z_wq w1 = Some true)).
  { destruct H as [[]|(t & l & U)].
    - exists None, w. split_and!; done.
    - pose proof (remove_releases t w l U) as E. destruct U.
      exists (Some t), (set_z_heap ∅ (set_z_misc [] (set_z_irqs [] w))).
      split_and!; try done; [by rewrite (bind_ok _ _ _ _ _ E)|by right]. }
  destruct Hc as (cd & w1 & -> & E & H1 & H2 & H3 & H4 & H5 & Hwq). rewrite bind_defined.
  rewrite bind_assoc, (bind_ok _ _ _ _ _ E). rewrite bind_assoc, (bind_ok getW _ w1 w1 w1) by done.
  destruct (fresh_up w1 H1 H2 H3 H4) as (w' & l & Ew & U & Hirq). rewrite H5 in *.
  exists w', l. split; [|done]. rewrite <- Ew. clear Hirq.
  destruct Hwq as [E1|E1]; unfold mbind, M_bind, modifyW, getW, mret, M_ret; cbn;
    rewrite ?E1; cbn; rewrite ?E1; [done|]. f_equal. destruct w1; cbn in *; by subst.
Qed.

(** * The operations on an open device *)

(** What the invariant looks at. *)
Definition core w :=
  (z_heap w, z_next w, z_misc w, z_irqs w, z_cdata w, directory_virt w, z_wq w, z_pending w).

Definition keeps {A} (m : M W A) : Prop := forall w a w', m w = Ok a w' -> core w' = core w.

Lemma up_core t w w' l : core w' = core w -> up t w l -> up t w' l.
Proof.
  intros H U. unfold core in H. destruct w, w'; cbn in *; simplify_eq.
  destruct U; constructor; assumption.
Qed.

Lemma keeps_ret {A} (a : A) : keeps (mret a).
Proof. by intros w b w' [= -> ->]. Qed.
Lemma keeps_bind {A B} (m : M W A) (k : A -> M W B) :
  keeps m -> (forall a, keeps (k a)) -> keeps (m ≫= k).
Proof. intros Hm Hk w b w' (a & w1 & H1 & H2)%bind_ok_inv. rewrite (Hk _ _ _ _ H2). by eapply Hm. Qed.
Lemma keeps_zcall {A} (f : K -> A * K) : keeps (zcall f).
Proof. intros w a w' H. unfold zcall in H. destruct (f (z_kern w)). by simplify_eq. Qed.
Lemma keeps_defined {A} (o : option A) : keeps (defined o).
Proof. intros w a w' H. destruct o; [|done]. by injection H as <- <-. Qed.
Lemma keeps_getW : keeps (getW (W := W)).
Proof. by intros w a w' [= -> ->]. Qed.
Lemma keeps_modify f : (forall w, core (f w) = core w) -> keeps (modifyW f).
Proof. by intros H w a w' [= <- <-]. Qed.

Definition pres {A} (m : M W A) : Prop :=
  forall t w l a w', up t w l -> m w = Ok a w' -> exists l', up t w' l'.

Lemma keeps_pres {A} (m : M W A) : keeps m -> pres m.
Proof. intros Hm t w l a w' U E. exists l. eapply up_core; [by eapply Hm|done]. Qed.
Lemma pres_bind {A B} (m : M W A) (k : A -> M W B) :
  pres m -> (forall a, pres (k a)) -> pres (m ≫= k).
Proof.
  intros Hm Hk t w l b w' U (a & w1 & H1 & H2)%bind_ok_inv.
  destruct (Hm _ _ _ _ _ U H1) as [l1 U1]. by eapply Hk.
Qed.

(** An update of an entry that changes nothing the invariant speaks about. *)
Definition benign (f : portal_data -> portal_data) : Prop := forall p,
  irq_is_registered (f p) = irq_is_registered p /\ forall i, discovered i p -> discovered i (f p).

Lemma upd_pd_inv t i f w a w' : upd_pd t i f w = Ok a w' ->
  exists l p, z_heap w !! t = Some l /\ znth l i = Some p /\
    w' = set_z_heap (<[t := <[Z.to_nat i := f p]> l]> (z_heap w)) w.
Proof.
  unfold upd_pd. intros H. rewrite (bind_ok getW _ w w w) in H by done.
  destruct (z_heap w !! t) as [l|] eqn:Hl; [|done]. rewrite bind_defined in H.
  destruct (znth l i) as [p|] eqn:Hp; [|done]. rewrite bind_defined in H.
  pose proof (znth_Some _ _ _ Hp). rewrite zupd_Some, bind_defined in H by lia.
  injection H as <- <-. eauto.
Qed.

(** An update of entry [i] and the interrupts that go with it. *)
Lemma up_upd t i f I w l p :
  up t w l -> znth l i = Some p -> (forall j, discovered j p -> discovered j (f p)) ->
  NoDup I ->
  (forall d, d ∈ I <-> d.1 = t /\ 0 <= d.2 < n /\
     if decide (d.2 = i) then irq_is_registered (f p) = true else d ∈ z_irqs w) ->
  up t (set_z_irqs I (set_z_heap (<[t := <[Z.to_nat i := f p]> l]> (z_heap w)) w)) (<[Z.to_nat i := f p]> l).
Proof.
  intros U Hp Hd Hnd HI. pose proof (znth_Some _ _ _ Hp) as Hi. destruct U. constructor; cbn; try done.
  - by rewrite up_heap0, insert_singleton_eq.
  - by rewrite length_insert.
  - intros j q Hj. rewrite znth_insert by lia. case_decide as E.
    + subst j. intros [= <-]. apply Hd. by apply up_disc0.
    + by apply up_disc0.
  - intros [s j]. rewrite HI. cbn. unfold registered. rewrite znth_insert by lia.
    destruct (decide (j = i)) as [-> | Hne].
    + split; intros (-> & Hj & H); (split; [done|]; split; [done|]); [by eexists|].
      destruct H as (q & [= <-] & ?). done.
    + rewrite (up_irqs0 (s, j)). cbn. unfold registered. tauto.
Qed.

Lemma set_irqs_heap w h : set_z_irqs (z_irqs w) (set_z_heap h w) = set_z_heap h w.
Proof. by destruct w. Qed.

Lemma pres_upd t i f : benign f -> pres (upd_pd t i f).
Proof.
  intros Hf s w l a w' U (l0 & p & Hl & Hp & ->)%upd_pd_inv.
  assert (s = t /\ l0 = l) as [-> ->].
  { rewrite (up_heap _ _ _ U) in Hl. by apply lookup_singleton_Some in Hl as [-> ->]. }
  eexists. rewrite <- set_irqs_heap. apply up_upd; [done|done|apply Hf|apply U|].
  intros [s j]. cbn. rewrite (up_irqs _ _ _ U (s, j)). cbn. case_decide as E; [subst j|rewrite (up_irqs _ _ _ U (s, j)); cbn; tauto].
  destruct (Hf p) as [-> _]. unfold registered. split.
  - intros (? & ? & q & Hq & ?). split_and!; try done; try lia. congruence.
  - intros (? & ? & ?). split; [done|]. split; [done|]. by exists p.
Qed.

Lemma keeps_get_pd t i : keeps (get_pd t i).
Proof. apply keeps_bind; [apply keeps_getW|]. intros w. apply keeps_bind; intros; apply keeps_defined. Qed.
Lemma keeps_readl a off : keeps (readl a off).
Proof.
  apply keeps_bind; [apply keeps_defined|]. intros b.
  apply keeps_bind; [apply keeps_zcall|]. intros; apply keeps_ret.
Qed.
Lemma keeps_writel v a : keeps (writel v a).
Proof. apply keeps_bind; [apply keeps_defined|]. intros; apply keeps_zcall. Qed.
Lemma keeps_directory off : keeps (read_directory off).
Proof.
  apply keeps_bind; [apply keeps_getW|]. intros w. apply keeps_bind; [apply keeps_defined|]. intros t.
  apply keeps_bind; [apply keeps_defined|]. intros; apply keeps_ret.
Qed.
Lemma keeps_ioremap a len : keeps (ioremap_nocache a len).
Proof.
  apply keeps_bind; [apply keeps_zcall|]. intros [v|]; [|apply keeps_ret].
  apply keeps_bind; [by apply keeps_modify|]. intros; apply keeps_ret.
Qed.
Lemma keeps_flush l : keeps (flush_ranges l).
Proof.
  induction l as [|[a len] l IH]; [apply keeps_ret|].
  apply keeps_bind; [apply keeps_zcall|]. intros _. apply keeps_bind; [apply keeps_zcall|]. by intros _.
Qed.
Lemma keeps_map_once o a len : keeps (map_once o a len).
Proof. destruct o; [apply keeps_ret|apply keeps_ioremap]. Qed.
Lemma keeps_set_inttime v : keeps (modifyW (set_inttime v)).
Proof. by apply keeps_modify. Qed.

Create HintDb zynq.
#[local] Hint Resolve keeps_ret keeps_bind keeps_zcall keeps_defined keeps_getW keeps_get_pd keeps_readl
  keeps_writel keeps_directory keeps_ioremap keeps_flush keeps_map_once keeps_set_inttime : zynq.
#[local] Hint Resolve pres_upd : zynq.

(** Walks through an operation: bindings, tests, and the steps of the database. *)
Ltac pres_tac :=
  repeat first
    [ progress intros
    | apply pres_upd; intros ?; split; [reflexivity|let H := fresh in intros ? H; exact H]
    | apply pres_bind
    | case_decide
    | match goal with |- pres (if ?b then _ else _) => destruct b end
    | solve [apply keeps_pres; eauto with zynq] ].

Lemma pres_isr t i : pres (portal_isr t i).
Proof. unfold portal_isr. pres_tac. Qed.
Lemma pres_open t i : pres (portal_open t i).
Proof. unfold portal_open. pres_tac. Qed.
Lemma pres_poll t i : pres (portal_poll t i).
Proof. unfold portal_poll. pres_tac. destruct (interrupt_virt _); pres_tac. Qed.
Lemma pres_mmap t i pg len : pres (portal_mmap t i pg len).
Proof. unfold portal_mmap. pres_tac. Qed.

(** Requesting the interrupt of a portal that has none and recording it. *)
Lemma pres_request t i irq : 0 <= i < n -> forall s w l a w',
  up s w l -> (forall q, znth l i = Some q -> t = s -> irq_is_registered q = false) ->
  (rc ← request_irq irq t i;
   if decide (rc <> 0) then upd_pd t i (set_portal_irq 0) ;; mret (- EFAULT)
   else upd_pd t i (set_irq_is_registered true) ;; mret 0) w = Ok a w' ->
  exists l', up s w' l'.
Proof.
  intros Hi s w l a w' U Hno (rc & w1 & H1 & H2)%bind_ok_inv. unfold request_irq in H1.
  apply bind_ok_inv in H1 as (rc' & w2 & Hz & H1). apply keeps_zcall in Hz.
  pose proof (up_core _ _ _ _ Hz U) as U2.
  apply bind_ok_inv in H1 as ([] & w3 & H3 & [<- <-]%ret_inv).
  destruct (decide (rc' = 0)) as [->|E].
  - rewrite decide_False in H2 by lia. injection H3 as <-. apply bind_ok_inv in H2 as ([] & w4 & Hu & [<- <-]%ret_inv).
    apply upd_pd_inv in Hu as (l0 & p & Hl & Hp & ->). cbn in Hl.
    rewrite (up_heap _ _ _ U2) in Hl. apply lookup_singleton_Some in Hl as [-> ->].
    eexists.
    refine (up_upd t i (set_irq_is_registered true) (z_irqs w2 ++ [(t, i)]) w2 _ p U2 Hp _ _ _).
    + done.
    + apply NoDup_app. split; [apply U2|]. split; [|apply NoDup_singleton].
      intros d Hd ->%list_elem_of_singleton. apply (up_irqs _ _ _ U2) in Hd as (_ & _ & q & Hq & Hr).
      rewrite (Hno q Hq eq_refl) in Hr. done.
    + intros [u j]. rewrite elem_of_app, list_elem_of_singleton. cbn. split.
      * intros [Hd|[= -> ->]]; [|rewrite decide_True by done; done].
        pose proof Hd as Hd'. apply (up_irqs _ _ _ U2) in Hd' as (? & ? & _). cbn in *.
        split; [done|]. split; [done|]. by case_decide.
      * intros (-> & Hj & H). case_decide; [subst; by right|by left].
  - rewrite decide_True in H2 by done. apply ret_inv in H3 as [_ <-]. apply bind_ok_inv in H2 as ([] & w4 & Hu & [<- <-]%ret_inv).
    eapply (pres_upd t i (set_portal_irq 0)); [|done..].
    intros p. split; [done|]. intros j (? & ? & _ & ?). split_and!; try done. by right.
Qed.

Lemma get_pd_up s t i w w1 l p : up s w l -> get_pd t i w = Ok p w1 ->
  w1 = w /\ s = t /\ znth l i = Some p.
Proof.
  intros U Hg. unfold get_pd in Hg. rewrite (bind_ok getW _ w w w) in Hg by done.
  rewrite (up_heap _ _ _ U) in Hg. destruct ({[s := l]} !! t) as [l0|] eqn:Hl; [|done].
  apply lookup_singleton_Some in Hl as [-> ->]. rewrite bind_defined in Hg.
  destruct (znth l0 i) eqn:?; [|done]. by injection Hg as -> ->.
Qed.

(** The end of [PORTAL_ENABLE_INTERRUPT]. *)
Lemma pres_enable_tail t i : 0 <= i < n -> pres (
  p ← get_pd t i;
  if irq_is_registered p then mret 0
  else
    readl (interrupt_virt p) 0 ;;
    readl (mask_virt p) 0 ;;
    rc ← request_irq (portal_irq p) t i;
    if decide (rc <> 0) then upd_pd t i (set_portal_irq 0) ;; mret (- EFAULT)
    else upd_pd t i (set_irq_is_registered true) ;; mret 0).
Proof.
  intros Hi s w l a w' U E.
  apply bind_ok_inv in E as (p & w1 & Hg & E).
  destruct (get_pd_up _ _ _ _ _ _ _ U Hg) as (-> & -> & Hp). rename l into l0.
  destruct (irq_is_registered p) eqn:Er.
  { apply ret_inv in E as [_ <-]. by exists l0. }
  apply bind_ok_inv in E as (v1 & w1 & H1%keeps_readl & E).
  apply bind_ok_inv in E as (v2 & w2 & H2%keeps_readl & E).
  pose proof (up_core _ _ _ _ H2 (up_core _ _ _ _ H1 U)) as U2.
  eapply (pres_request t i (portal_irq p) Hi); [exact U2| |exact E]. intros q Hq _. congruence.
Qed.

Lemma pres_enable t i io mo : 0 <= i < n -> pres (enable_interrupt t i io mo).
Proof.
  intros Hi. unfold enable_interrupt.
  do 7 (apply pres_bind; [pres_tac|intros ?]). by apply pres_enable_tail.
Qed.

Lemma filter_same {A} (P : A -> Prop) `{!forall x, Decision (P x)} (l : list A) :
  (forall x, x ∈ l -> P x) -> filter P l = l.
Proof.
  induction l as [|a l IH]; intros HP; [done|]. rewrite filter_cons_True by (apply HP; left).
  f_equal. apply IH. intros x Hx. apply HP. by right.
Qed.

Lemma pres_release t i : 0 <= i < n -> pres (portal_release t i).
Proof.
  intros Hi s w l a w' U E. unfold portal_release in E.
  apply bind_ok_inv in E as (p & w1 & Hg & E).
  destruct (get_pd_up _ _ _ _ _ _ _ U Hg) as (-> & -> & Hp).
  apply bind_ok_inv in E as (? & w2 & H2 & E). apply bind_ok_inv in E as (? & w3 & H3 & E).
  enough (exists l3, up t w3 l3) as [l3 U3].
  { eapply (pres_bind (upd_pd t i (set_wait_queue false)) (fun _ => mret 0)); [pres_tac..|exact U3|exact E]. }
  assert (exists v, core v = core w /\ w2 = set_z_irqs (filter (fun d => d <> (t, i)) (z_irqs v)) v)
    as (v & Hv & ->).
  { destruct (irq_is_registered p) eqn:Er.
    - apply bind_ok_inv in H2 as (? & w4 & Hw%keeps_writel & H2). injection H2 as <- <-. by exists w4.
    - apply ret_inv in H2 as [_ <-]. exists w. split; [done|].
      rewrite filter_same; [by destruct w|]. intros d Hd ->.
      apply (up_irqs _ _ _ U) in Hd as (_ & _ & q & Hq & Hr). cbn in *. congruence. }
  pose proof (up_core _ _ _ _ Hv U) as Uv. apply upd_pd_inv in H3 as (l0 & q & Hl & Hq & ->).
  cbn in Hl. rewrite (up_heap _ _ _ Uv) in Hl. apply lookup_singleton_Some in Hl as [_ ->].
  eexists.
  refine (up_upd t i (set_irq_is_registered false) (filter (fun d => d <> (t, i)) (z_irqs v)) v _ q Uv Hq _ _ _).
  - done.
  - apply NoDup_filter, Uv.
  - intros [u j]. rewrite list_elem_of_filter. cbn. split.
    + intros [Hne Hd]. pose proof Hd as Hd'. apply (up_irqs _ _ _ Uv) in Hd' as (Hu & Hj & _). cbn in *.
      split; [done|]. split; [done|]. case_decide; [subst; done|done].
    + intros (-> & Hj & H). case_decide; [done|]. split; [congruence|done].
Qed.

(** [send_fd_to_portal] only talks to the hardware. *)
Variable send_fd : option Z -> Z -> Z -> M W Z.
Hypothesis send_fd_keeps : forall a fd id, keeps (send_fd a fd id).

Lemma pres_ioctl ui uo t i cmd : 0 <= i < n -> pres (portal_unlocked_ioctl ui uo send_fd t i cmd).
Proof.
  intros Hi. destruct cmd; cbn [portal_unlocked_ioctl]; try (pres_tac; fail).
  destruct ui; cbn [negb]; [|pres_tac]. apply pres_bind; [by apply pres_enable|pres_tac].
Qed.

(** A step of the open device, with the files that are open: the file of a
    registered portal is opened; an operation on an open file, which may have
    been opened before the device was opened again, when its array is no longer
    there; an interrupt of a portal whose interrupt is registered; the device
    opened again with its portals found again.  A step whose operation touches
    memory that was given back is undefined and not a step. *)
Abbreviation F := (list (nat * Z)).
Inductive step : W * F -> W * F -> Prop :=
| step_open t i w fs r w' : (t, i) ∈ z_misc w -> portal_open t i w = Ok r w' -> step (w, fs) (w', (t, i) :: fs)
| step_ioctl ui uo cmd t i w fs r w' : (t, i) ∈ fs ->
    portal_unlocked_ioctl ui uo send_fd t i cmd w = Ok r w' -> step (w, fs) (w', fs)
| step_mmap pg len t i w fs r w' : (t, i) ∈ fs -> portal_mmap t i pg len w = Ok r w' -> step (w, fs) (w', fs)
| step_poll t i w fs r w' : (t, i) ∈ fs -> portal_poll t i w = Ok r w' -> step (w, fs) (w', fs)
| step_release t i w fs fs' r w' : fs ≡ₚ (t, i) :: fs' -> portal_release t i w = Ok r w' -> step (w, fs) (w', fs')
| step_isr t i w fs r w' : (t, i) ∈ z_irqs w -> portal_isr t i w = Ok r w' -> step (w, fs) (w', fs)
| step_reopen w fs w' : open_and_discover w = Ok tt w' -> step (w, fs) (w', fs).

(** The device is up and the open files are of its portals, now or before. *)
Definition open_up_files (x : W * F) : Prop :=
  (exists t l, up t x.1 l) /\ Forall (fun f => 0 <= f.2 < n) x.2.

Lemma step_up x y : step x y -> open_up_files x -> open_up_files y.
Proof.
  intros Hs [(s & l & U) Hfs]. unfold open_up_files.
  assert (Hf : forall t i, (t, i) ∈ z_misc x.1 -> 0 <= i < n).
  { intros t i H. rewrite (up_misc _ _ _ U) in H. apply list_elem_of_fmap in H as (j & [= -> ->] & Hj).
    by apply elem_of_range. }
  assert (Hi : forall t i, (t, i) ∈ x.2 -> 0 <= i < n).
  { intros t i H. rewrite Forall_forall in Hfs. exact (Hfs _ H). }
  destruct Hs as [t i w fs r w' H E|ui uo cmd t i w fs r w' H E|pg len t i w fs r w' H E|t i w fs r w' H E
    |t i w fs fs' r w' H E|t i w fs r w' H E|w fs w' E]; cbn [fst snd] in *.
  - split; [exists s; by eapply pres_open|]. constructor; [by eapply Hf|done].
  - split; [|done]. exists s. eapply pres_ioctl; [by eapply Hi|done|done].
  - split; [|done]. exists s. by eapply pres_mmap.
  - split; [|done]. exists s. by eapply pres_poll.
  - rewrite H in Hfs. apply Forall_cons in Hfs as [Hfi Hfs]. split; [|done]. exists s. by eapply pres_release.
  - split; [|done]. exists s. by eapply pres_isr.
  - split; [|done]. destruct (open_up w) as (w2 & l2 & E2 & U2 & _); [right; eauto|].
    rewrite E in E2. injection E2 as <-. eauto.
Qed.

Lemma steps_up x y : rtc step x y -> open_up_files x -> open_up_files y.
Proof. induction 1; [done|]. intros U. apply IHrtc. by eapply step_up. Qed.


Lemma remove_up t w l : up t w l ->
  connectal_of_remove w = Ok 0 (set_z_wq (Some false) (set_z_pending false (set_z_cdata None
    (set_z_heap ∅ (set_z_misc [] (set_z_irqs [] w)))))).
Proof.
  intros U. pose proof (remove_releases t w l U) as E. destruct U. unfold connectal_of_remove.
  rewrite (bind_ok getW _ w w w), up_cdata0, bind_defined by done.
  rewrite bind_assoc, (bind_ok _ _ _ _ _ E), bind_ret.
  unfold mbind, M_bind, modifyW, getW, mret, M_ret. cbn. by rewrite up_wq0.
Qed.

(** opening the board's device and running the work item it queues always
    succeeds on a board with [n] portals: afterwards exactly the [n] portals
    have a device file, the entry of each holds its identification number and
    the address of its 64 KB of registers, and no interrupt is registered. *)
Theorem zynq_open_discovers w : idle w ->
  exists w' l, open_and_discover w = Ok tt w' /\
    z_heap w' = {[ z_next w := l ]} /\
    z_misc w' = pair (z_next w) <$> range 0 n /\
    (forall i, 0 <= i < n -> exists p, znth l i = Some p /\ dev_base_phys p = bar i /\ name p = iid i) /\
    z_irqs w' = [] /\ z_cdata w' = Some (Some (z_next w)).
Proof.
  intros H. pose proof zb_n as Hn. destruct (open_up w (or_introl H)) as (w' & l & E & U & Hi).
  exists w', l. split; [done|]. destruct U. split_and!; try done.
  intros i Hr. destruct (znth_in_range l i) as [p Hp]; [unfold MAX_NUM_PORTALS in *; lia|].
  exists p. split; [done|]. by destruct (up_disc0 i p Hr Hp) as (? & ? & _).
Qed.


(** the work queue is destroyed when the device is removed but the pointer
    to it is kept: when the device is probed and opened again, the work is
    queued on the destroyed queue. *)
Theorem zynq_rebind_fault w0 w1 w2 fs can_create :
  idle w0 -> open_and_discover w0 = Ok tt w1 -> rtc step (w1, []) (w2, fs) ->
  (connectal_of_remove ;; connectal_of_probe true ;; connectal_open true can_create) w2 = Fault.
Proof.
  intros H0 H1 Hs. destruct (open_up w0 (or_introl H0)) as (w & l & E & U & _).
  rewrite H1 in E. injection E as <-.
  destruct (steps_up _ _ Hs) as [(t & l' & U2) _]; [split; [eauto|done]|]. cbn [fst] in U2.
  rewrite (bind_ok _ _ _ _ _ (remove_up t w2 l' U2)).
  unfold connectal_of_probe, connectal_open, mbind, M_bind, modifyW, getW, mret, M_ret. done.
Qed.
End ZynqBoardFacts.

(** the device files are registered by the work item, but opening the
    device again and removing it take them to be registered: before the work
    item has run, either deregisters a device that was never registered. *)
Theorem zynq_undiscovered_fault {K : Type} `{!Device K} `{!ZynqOs K} (w : Zynq K) (r c : bool) :
  idle w ->
  (connectal_open true true ;; connectal_open r c) w = Fault /\
  (connectal_open true true ;; connectal_of_remove) w = Fault.
Proof.
  intros []. assert (E : exists w', connectal_open true true w = Ok 0 w' /\ z_misc w' = [] /\
    z_cdata w' = Some (Some (z_next w)) /\ z_heap w' !! z_next w = Some (replicate 16 portal_data_zero)).
  { unfold connectal_open. rewrite (bind_ok getW _ w w w), idle_cdata0, bind_defined, bind_ret by done.
    rewrite (bind_ok getW _ w w w) by done.
    destruct idle_wq0 as [E|E]; unfold mbind, M_bind, modifyW, getW, mret, M_ret; cbn; rewrite ?E; cbn;
      rewrite ?E; (eexists; split; [reflexivity|]; split_and!; [done|done|by cbn; rewrite lookup_insert_eq]). }
  destruct E as (w' & E & Hm & Hc & Hh).
  assert (Hf : remove_portal_devices (z_next w) w' = Fault).
  { unfold remove_portal_devices. apply bind_fault. change (Z.to_nat MAX_NUM_PORTALS) with (S 15).
    cbn [remove_loop]. rewrite (bind_ok _ _ _ _ _ (get_pd_ok _ 0 w' _ portal_data_zero Hh eq_refl)).
    cbn [irq_is_registered portal_data_zero]. rewrite bind_ret. apply bind_fault.
    unfold misc_deregister. rewrite (bind_ok getW _ w' w' w'), Hm by done.
    rewrite decide_False; [done|]. apply not_elem_of_nil. }
  split; rewrite (bind_ok _ _ _ _ _ E).
  - unfold connectal_open. rewrite (bind_ok getW _ w' w' w'), Hc, bind_defined by done.
    by apply bind_fault, bind_fault.
  - unfold connectal_of_remove. rewrite (bind_ok getW _ w' w' w'), Hc, bind_defined by done.
    by apply bind_fault, bind_fault.
Qed.

(** * A board with two portals *)
Module ZynqDemo.
Inductive bench : Type := Bench.
Definition base : Z := 0x6e400000.

#[local] Instance bench_device : Device bench := {
  mmio_read := fun a k => ((if decide (a = base + IID_OFFSET) then 5
                            else if decide (a = base + PORTAL_BASE_OFFSET + IID_OFFSET) then 7
                            else if decide (a = base + PORTAL_BASE_OFFSET + TOP_OFFSET) then 1 else 0), k);
  mmio_write := fun _ _ k => k;
  dev_tick := fun k => k }.
#[local] Instance bench_os : ZynqOs bench := {
  zk_misc_register := fun _ k => (0, k);
  zk_request_irq := fun _ k => (0, k);
  zk_ioremap := fun a _ k => (Some a, k);
  zk_remap_pfn := fun _ _ k => (0, k);
  zk_clk_get_sys := fun _ k => (true, k);
  zk_clk_round_rate := fun _ r k => (r, k);
  zk_clk_set_rate := fun _ _ k => (0, k);
  zk_sg_table := fun _ _ => Some [];
  zk_outer_clean_range := fun _ _ k => k;
  zk_outer_inv_range := fun _ _ k => k;
  zk_heap_word := fun _ _ _ => 0 }.

Definition bench_iid (i : Z) : Z := if decide (i = 0) then 5 else 7.

#[local] Instance bench_board : ZynqBoard bench base 2 bench_iid.
Proof.
  constructor; try done.
  - intros i k Hi. assert (i = 0 \/ i = 1) as [-> | ->] by lia; reflexivity.
  - intros i k Hi. assert (i = 0) as -> by lia. reflexivity.
Qed.

Definition w0 : Zynq bench :=
  {| z_heap := ∅; z_next := 0; z_misc := []; z_irqs := []; z_remaps := []; z_cdata := Some None;
     directory_virt := None; inttime := (0, 0); ws_drvdata := None; z_wq := None; z_pending := false;
     z_kern := Bench |}.
Definition after {A} (m : M (Zynq bench) A) (w : Zynq bench) : Zynq bench :=
  match m w with Ok _ w' => w' | _ => w end.
Definition w1 : Zynq bench := Eval vm_compute in after (open_and_discover base 61) w0.
Definition no_fd : option Z -> Z -> Z -> M (Zynq bench) Z := fun _ _ _ => mret 0.
Definition enable (t : nat) : M (Zynq bench) (Z * portal_out) :=
  portal_unlocked_ioctl true true no_fd t 1 (PORTAL_ENABLE_INTERRUPT 0 4).

(** Portal 1 is opened and its interrupt enabled, the device is opened again,
    and the same done with the new file of the portal. *)
Definition w1a : Zynq bench := Eval vm_compute in after (portal_open 0 1) w1.
Definition w1b : Zynq bench := Eval vm_compute in after (enable 0) w1a.
Definition w1c : Zynq bench := Eval vm_compute in after (open_and_discover base 61) w1b.
Definition w1d : Zynq bench := Eval vm_compute in after (portal_open 1 1) w1c.
Definition w2 : Zynq bench := Eval vm_compute in after (enable 1) w1d.

Lemma w0_idle : idle w0.
Proof. constructor; cbn; auto. Qed.
Lemma w1_open : open_and_discover base 61 w0 = Ok tt w1.
Proof. vm_compute. reflexivity. Qed.
Lemma w2_steps : rtc (step base 61 no_fd) (w1, []) (w2, [(1%nat, 1); (0%nat, 1)]).
Proof.
  eapply rtc_l; [apply (step_open _ _ _ 0 1 w1 [] 0 w1a); [cbn; right; left|vm_compute; reflexivity]|].
  eapply rtc_l; [apply (step_ioctl _ _ _ true true (PORTAL_ENABLE_INTERRUPT 0 4) 0 1 w1a _ (0, NoData) w1b);
    [left|vm_compute; reflexivity]|].
  eapply rtc_l; [apply (step_reopen _ _ _ w1b _ w1c); vm_compute; reflexivity|].
  eapply rtc_l; [apply (step_open _ _ _ 1 1 w1c _ 0 w1d); [cbn; right; left|vm_compute; reflexivity]|].
  apply rtc_once. apply (step_ioctl _ _ _ true true (PORTAL_ENABLE_INTERRUPT 0 4) 1 1 w1d _ (0, NoData) w2);
    [left|vm_compute; reflexivity].
Qed.
Lemma no_fd_keeps a fd id : keeps (no_fd a fd id).
Proof. apply keeps_ret. Qed.

Lemma zynq_open_discovers_witness :
  exists w' l, open_and_discover base 61 w0 = Ok tt w' /\ z_heap w' = {[ 0%nat := l ]} /\
    z_misc w' = [(0%nat, 0); (0%nat, 1)] /\ exists p, znth l 1 = Some p /\ name p = 7.
Proof.
  destruct (zynq_open_discovers base 61 2 bench_iid w0 w0_idle) as (w' & l & H1 & H2 & H3 & H4 & _).
  exists w', l. split; [exact H1|]. split; [exact H2|]. split; [exact H3|].
  destruct (H4 1 ltac:(lia)) as (p & Hp & _ & Hn). by exists p.
Defined.


Lemma zynq_rebind_fault_witness :
  (connectal_of_remove ;; connectal_of_probe true ;; connectal_open true true) w2 = Fault.
Proof.
  exact (zynq_rebind_fault base 61 2 bench_iid no_fd no_fd_keeps w0 w1 w2 _ true w0_idle w1_open w2_steps).
Defined.

Lemma zynq_undiscovered_fault_witness :
  (connectal_open true true ;; connectal_open true true) w0 = Fault /\
  (connectal_open true true ;; connectal_of_remove) w0 = Fault.
Proof. exact (zynq_undiscovered_fault w0 true true w0_idle). Defined.
End ZynqDemo.
