(* ===== verification/Ring.v ===== *)
(** The command and status rings of [examples/ring/testring.cpp]: the host puts
    64-byte commands with a completion tag into a ring the hardware fetches
    from, and finds 64-byte status records with the tag in a second ring.

    The hardware works while the host polls: a schedule gives, for every poll,
    the actions it takes (fetching a command, writing a status record,
    answering a register access).  What the host relies on is written into the
    actions: the hardware fetches only commands it was told of, writes only
    into a status ring with room, and completes only commands it has fetched. *)

From stdpp Require Import base gmap list option fin_maps.
From Stdlib Require Import ZArith Lia.
From S2P Require Import Prelude.

Definition CMD_NOP : Z := 0.
Definition CMD_COPY : Z := 1.
Definition CMD_ECHO : Z := 2.
Definition CMD_FILL : Z := 3.

Definition REG_BASE : Z := 0.
Definition REG_END : Z := 1.
Definition REG_FIRST : Z := 2.
Definition REG_LASTFETCH : Z := 3.
Definition REG_MASK : Z := 4.
Definition REG_HANDLE : Z := 5.
Definition REG_LASTACK : Z := 6.

(** * Data *)

(** The functions a completion is given: [flag_finish] and [echo_finish]. *)
Inductive finish_fn : Type := FlagFinish | EchoFinish.

(** [struct Ring_Completion] without its link; pointers are numbers. *)
Record Ring_Completion : Type := {
  tag : Z; in_use : Z; finish : option finish_fn; arg : option Z }.

(** [struct SWRing] without [base]: the memory of a ring is part of the state. *)
Record SWRing : Type := {
  ref : Z; first : Z; last : Z; size : Z; slots : Z; cached_space : Z; ringid : Z }.

Record CompletionEvent : Type := {
  exp_a : Z; exp_b : Z; got_a : Z; got_b : Z; flag : Z }.

(** The eight words of 64 bytes of a ring. *)
Abbreviation slot := (list Z) (only parsing).

Inductive hw_reply : Type := SetReply (id reg v : Z) | GetReply (id reg : Z).
(** [HwComplete] writes any record for a running command; [HwEcho] is the echo
    engine, which writes back the command itself. *)
Inductive hw_action : Type := HwFetch | HwReply | HwComplete (ev : slot) | HwEcho.

(** The hardware: its copies of the pointers, the size of the rings, the
    register accesses not answered, the commands fetched, and the tags of those
    it has not completed. *)
Record Hw : Type := {
  hc_first : Z; hc_last : Z; hc_end : Z; hs_first : Z; hs_last : Z; hs_end : Z;
  h_replies : list hw_reply; h_fetched : list slot; h_running : list Z }.

(** The static variables, the memory of the rings, the flags and events that
    callbacks write, the hardware and its schedule. *)
Record R : Type := {
  completion : list Ring_Completion; freelist : list Z;
  setresult_flag : Z; getresult_flag : Z;
  cmd_ring : SWRing; status_ring : SWRing;
  cmd_mem : list slot; status_mem : list slot;
  ring_init_done : bool;
  flags : gmap Z Z; events : gmap Z CompletionEvent; totalCompletions : Z;
  hw : Hw; sched : list (list hw_action) }.

Definition set_first (v : Z) (r : SWRing) : SWRing :=
  {| ref := ref r; first := v; last := last r; size := size r; slots := slots r;
     cached_space := cached_space r; ringid := ringid r |}.
Definition set_last (v : Z) (r : SWRing) : SWRing :=
  {| ref := ref r; first := first r; last := v; size := size r; slots := slots r;
     cached_space := cached_space r; ringid := ringid r |}.
Definition set_cached_space (v : Z) (r : SWRing) : SWRing :=
  {| ref := ref r; first := first r; last := last r; size := size r; slots := slots r;
     cached_space := v; ringid := ringid r |}.

Definition set_in_use (v : Z) (r : Ring_Completion) : Ring_Completion :=
  {| tag := tag r; in_use := v; finish := finish r; arg := arg r |}.
Definition set_finish (v : option finish_fn) (r : Ring_Completion) : Ring_Completion :=
  {| tag := tag r; in_use := in_use r; finish := v; arg := arg r |}.
Definition set_arg (v : option Z) (r : Ring_Completion) : Ring_Completion :=
  {| tag := tag r; in_use := in_use r; finish := finish r; arg := v |}.

Definition set_hc_first (v : Z) (r : Hw) : Hw :=
  {| hc_first := v; hc_last := hc_last r; hc_end := hc_end r; hs_first := hs_first r;
     hs_last := hs_last r; hs_end := hs_end r; h_replies := h_replies r;
     h_fetched := h_fetched r; h_running := h_running r |}.
Definition set_hc_last (v : Z) (r : Hw) : Hw :=
  {| hc_first := hc_first r; hc_last := v; hc_end := hc_end r; hs_first := hs_first r;
     hs_last := hs_last r; hs_end := hs_end r; h_replies := h_replies r;
     h_fetched := h_fetched r; h_running := h_running r |}.
Definition set_hc_end (v : Z) (r : Hw) : Hw :=
  {| hc_first := hc_first r; hc_last := hc_last r; hc_end := v; hs_first := hs_first r;
     hs_last := hs_last r; hs_end := hs_end r; h_replies := h_replies r;
     h_fetched := h_fetched r; h_running := h_running r |}.
Definition set_hs_first (v : Z) (r : Hw) : Hw :=
  {| hc_first := hc_first r; hc_last := hc_last r; hc_end := hc_end r; hs_first := v;
     hs_last := hs_last r; hs_end := hs_end r; h_replies := h_replies r;
     h_fetched := h_fetched r; h_running := h_running r |}.
Definition set_hs_last (v : Z) (r : Hw) : Hw :=
  {| hc_first := hc_first r; hc_last := hc_last r; hc_end := hc_end r;
     hs_first := hs_first r; hs_last := v; hs_end := hs_end r; h_replies := h_replies r;
     h_fetched := h_fetched r; h_running := h_running r |}.
Definition set_hs_end (v : Z) (r : Hw) : Hw :=
  {| hc_first := hc_first r; hc_last := hc_last r; hc_end := hc_end r;
     hs_first := hs_first r; hs_last := hs_last r; hs_end := v; h_replies := h_replies r;
     h_fetched := h_fetched r; h_running := h_running r |}.
Definition set_h_replies (v : list hw_reply) (r : Hw) : Hw :=
  {| hc_first := hc_first r; hc_last := hc_last r; hc_end := hc_end r;
     hs_first := hs_first r; hs_last := hs_last r; hs_end := hs_end r; h_replies := v;
     h_fetched := h_fetched r; h_running := h_running r |}.
Definition set_h_fetched (v : list slot) (r : Hw) : Hw :=
  {| hc_first := hc_first r; hc_last := hc_last r; hc_end := hc_end r;
     hs_first := hs_first r; hs_last := hs_last r; hs_end := hs_end r;
     h_replies := h_replies r; h_fetched := v; h_running := h_running r |}.
Definition set_h_running (v : list Z) (r : Hw) : Hw :=
  {| hc_first := hc_first r; hc_last := hc_last r; hc_end := hc_end r;
     hs_first := hs_first r; hs_last := hs_last r; hs_end := hs_end r;
     h_replies := h_replies r; h_fetched := h_fetched r; h_running := v |}.

Definition set_completion (v : list Ring_Completion) (r : R) : R :=
  {| completion := v; freelist := freelist r; setresult_flag := setresult_flag r;
     getresult_flag := getresult_flag r; cmd_ring := cmd_ring r;
     status_ring := status_ring r; cmd_mem := cmd_mem r; status_mem := status_mem r;
     ring_init_done := ring_init_done r; flags := flags r; events := events r;
     totalCompletions := totalCompletions r; hw := hw r; sched := sched r |}.
Definition set_freelist (v : list Z) (r : R) : R :=
  {| completion := completion r; freelist := v; setresult_flag := setresult_flag r;
     getresult_flag := getresult_flag r; cmd_ring := cmd_ring r;
     status_ring := status_ring r; cmd_mem := cmd_mem r; status_mem := status_mem r;
     ring_init_done := ring_init_done r; flags := flags r; events := events r;
     totalCompletions := totalCompletions r; hw := hw r; sched := sched r |}.
Definition set_setresult_flag (v : Z) (r : R) : R :=
  {| completion := completion r; freelist := freelist r; setresult_flag := v;
     getresult_flag := getresult_flag r; cmd_ring := cmd_ring r;
     status_ring := status_ring r; cmd_mem := cmd_mem r; status_mem := status_mem r;
     ring_init_done := ring_init_done r; flags := flags r; events := events r;
     totalCompletions := totalCompletions r; hw := hw r; sched := sched r |}.
Definition set_getresult_flag (v : Z) (r : R) : R :=
  {| completion := completion r; freelist := freelist r; setresult_flag := setresult_flag r;
     getresult_flag := v; cmd_ring := cmd_ring r; status_ring := status_ring r;
     cmd_mem := cmd_mem r; status_mem := status_mem r; ring_init_done := ring_init_done r;
     flags := flags r; events := events r; totalCompletions := totalCompletions r;
     hw := hw r; sched := sched r |}.
Definition set_cmd_ring (v : SWRing) (r : R) : R :=
  {| completion := completion r; freelist := freelist r; setresult_flag := setresult_flag r;
     getresult_flag := getresult_flag r; cmd_ring := v; status_ring := status_ring r;
     cmd_mem := cmd_mem r; status_mem := status_mem r; ring_init_done := ring_init_done r;
     flags := flags r; events := events r; totalCompletions := totalCompletions r;
     hw := hw r; sched := sched r |}.
Definition set_status_ring (v : SWRing) (r : R) : R :=
  {| completion := completion r; freelist := freelist r; setresult_flag := setresult_flag r;
     getresult_flag := getresult_flag r; cmd_ring := cmd_ring r; status_ring := v;
     cmd_mem := cmd_mem r; status_mem := status_mem r; ring_init_done := ring_init_done r;
     flags := flags r; events := events r; totalCompletions := totalCompletions r;
     hw := hw r; sched := sched r |}.
Definition set_cmd_mem (v : list slot) (r : R) : R :=
  {| completion := completion r; freelist := freelist r; setresult_flag := setresult_flag r;
     getresult_flag := getresult_flag r; cmd_ring := cmd_ring r;
     status_ring := status_ring r; cmd_mem := v; status_mem := status_mem r;
     ring_init_done := ring_init_done r; flags := flags r; events := events r;
     totalCompletions := totalCompletions r; hw := hw r; sched := sched r |}.
Definition set_status_mem (v : list slot) (r : R) : R :=
  {| completion := completion r; freelist := freelist r; setresult_flag := setresult_flag r;
     getresult_flag := getresult_flag r; cmd_ring := cmd_ring r;
     status_ring := status_ring r; cmd_mem := cmd_mem r; status_mem := v;
     ring_init_done := ring_init_done r; flags := flags r; events := events r;
     totalCompletions := totalCompletions r; hw := hw r; sched := sched r |}.
Definition set_ring_init_done (v : bool) (r : R) : R :=
  {| completion := completion r; freelist := freelist r; setresult_flag := setresult_flag r;
     getresult_flag := getresult_flag r; cmd_ring := cmd_ring r;
     status_ring := status_ring r; cmd_mem := cmd_mem r; status_mem := status_mem r;
     ring_init_done := v; flags := flags r; events := events r;
     totalCompletions := totalCompletions r; hw := hw r; sched := sched r |}.
Definition set_flags (v : gmap Z Z) (r : R) : R :=
  {| completion := completion r; freelist := freelist r; setresult_flag := setresult_flag r;
     getresult_flag := getresult_flag r; cmd_ring := cmd_ring r;
     status_ring := status_ring r; cmd_mem := cmd_mem r; status_mem := status_mem r;
     ring_init_done := ring_init_done r; flags := v; events := events r;
     totalCompletions := totalCompletions r; hw := hw r; sched := sched r |}.
Definition set_events (v : gmap Z CompletionEvent) (r : R) : R :=
  {| completion := completion r; freelist := freelist r; setresult_flag := setresult_flag r;
     getresult_flag := getresult_flag r; cmd_ring := cmd_ring r;
     status_ring := status_ring r; cmd_mem := cmd_mem r; status_mem := status_mem r;
     ring_init_done := ring_init_done r; flags := flags r; events := v;
     totalCompletions := totalCompletions r; hw := hw r; sched := sched r |}.
Definition set_totalCompletions (v : Z) (r : R) : R :=
  {| completion := completion r; freelist := freelist r; setresult_flag := setresult_flag r;
     getresult_flag := getresult_flag r; cmd_ring := cmd_ring r;
     status_ring := status_ring r; cmd_mem := cmd_mem r; status_mem := status_mem r;
     ring_init_done := ring_init_done r; flags := flags r; events := events r;
     totalCompletions := v; hw := hw r; sched := sched r |}.
Definition set_hw (v : Hw) (r : R) : R :=
  {| completion := completion r; freelist := freelist r; setresult_flag := setresult_flag r;
     getresult_flag := getresult_flag r; cmd_ring := cmd_ring r;
     status_ring := status_ring r; cmd_mem := cmd_mem r; status_mem := status_mem r;
     ring_init_done := ring_init_done r; flags := flags r; events := events r;
     totalCompletions := totalCompletions r; hw := v; sched := sched r |}.
Definition set_sched (v : list (list hw_action)) (r : R) : R :=
  {| completion := completion r; freelist := freelist r; setresult_flag := setresult_flag r;
     getresult_flag := getresult_flag r; cmd_ring := cmd_ring r;
     status_ring := status_ring r; cmd_mem := cmd_mem r; status_mem := status_mem r;
     ring_init_done := ring_init_done r; flags := flags r; events := events r;
     totalCompletions := totalCompletions r; hw := hw r; sched := v |}.

(** * Memory *)

(** The slot at a byte offset; an offset that is no slot is not used. *)
Definition slot_at (m : list slot) (off : Z) : option slot :=
  if decide (off mod 64 = 0) then znth m (off / 64) else None.
Definition put_slot (m : list slot) (off : Z) (s : slot) : option (list slot) :=
  if decide (off mod 64 = 0) then zupd m (off / 64) s else None.
Definition word7 (s : slot) : Z := default 0 (s !! 7%nat).
Definition tag_of (s : slot) : Z := Z.land (word7 s) 0xffff.

(** * The completions *)

Definition completion_zero : Ring_Completion := {| tag := 0; in_use := 0; finish := None; arg := None |}.

(** The loop from [i], [todo] turns. *)
Fixpoint list_init (todo : nat) (i : Z) (w : R) : option R :=
  match todo with
  | O => Some w
  | S todo =>
      c ← zupd (completion w) i {| tag := i; in_use := 0; finish := None; arg := None |};
      list_init todo (i + 1) (set_freelist (freelist w ++ [i]) (set_completion c w))
  end.
Definition completion_list_init : M R unit := fun w =>
  match list_init 1023 1 (set_freelist [] w) with Some w => Ok tt w | None => Fault end.

Definition get_free_completion : M R (option Z) :=
  w ← getW;
  match freelist w with
  | [] => mret None
  | t :: l =>
      putW (set_freelist l w) ;;
      p ← defined (znth (completion w) t);
      assert (bool_decide (in_use p = 0)) ;;
      c ← defined (zupd (completion w) t (set_in_use 1 p));
      modifyW (set_completion c) ;;
      mret (Some t)
  end.

Definition flag_finish (a : option Z) (ev : slot) : M R unit :=
  a ← defined a;
  modifyW (fun w => set_flags (<[a := 1]> (flags w)) w).

Definition echo_finish (a : option Z) (ev : slot) : M R unit :=
  match a with
  | None => assert false
  | Some a =>
      w ← getW;
      p ← defined (events w !! a);
      ga ← defined (ev !! 1%nat);
      gb ← defined (ev !! 2%nat);
      putW (set_totalCompletions (totalCompletions w + 1) (set_events (<[a :=
        {| exp_a := exp_a p; exp_b := exp_b p; got_a := ga; got_b := gb; flag := 1 |}]> (events w)) w))
  end.

Definition run_finish (f : option finish_fn) (a : option Z) (ev : slot) : M R unit :=
  match f with
  | None => mret tt
  | Some FlagFinish => flag_finish a ev
  | Some EchoFinish => echo_finish a ev
  end.

(** [event] is the slot at [off] of the status ring. *)
Definition Ring_Handle_Completion (off : Z) : M R unit :=
  w ← getW;
  ev ← defined (slot_at (status_mem w) off);
  let t := tag_of ev in
  assert (bool_decide (t < 1024)) ;;
  p ← defined (znth (completion w) t);
  assert (bool_decide (in_use p = 1)) ;;
  c ← defined (zupd (completion w) t (set_in_use 0 p));
  modifyW (set_completion c) ;;
  run_finish (finish p) (arg p) ev ;;
  w ← getW;
  sm ← defined (put_slot (status_mem w) off (<[7%nat := 0]> ev));
  modifyW (set_status_mem sm) ;;
  modifyW (fun w => set_freelist (freelist w ++ [t]) w).

(** * Indications and requests *)

Definition setResult (cmd regist addr : Z) : M R unit := modifyW (set_setresult_flag 1).

Definition getResult (cmd regist addr : Z) : M R unit :=
  w ← getW;
  (if decide (cmd = ringid (cmd_ring w) /\ regist = REG_LASTACK)
   then modifyW (fun w => set_cmd_ring (set_last (u32 addr) (cmd_ring w)) w)
   else mret tt) ;;
  modifyW (set_getresult_flag 1).

Definition hw_upd (f : Hw -> Hw) : M R unit := modifyW (fun w => set_hw (f (hw w)) w).

(** [ring->set] and [ring->get]: the hardware answers later. *)
Definition ring_set (id reg v : Z) : M R unit :=
  hw_upd (fun h => set_h_replies (h_replies h ++ [SetReply id reg v]) h).
Definition ring_get (id reg : Z) : M R unit :=
  hw_upd (fun h => set_h_replies (h_replies h ++ [GetReply id reg]) h).
Definition setCmdFirst (v : Z) : M R unit := hw_upd (set_hc_first v).
Definition setCmdLast (v : Z) : M R unit := hw_upd (set_hc_last v).
Definition setStatusFirst (v : Z) : M R unit := hw_upd (set_hs_first v).
Definition setStatusLast (v : Z) : M R unit := hw_upd (set_hs_last v).

(** * The hardware *)

Definition advance (e off : Z) : Z := if decide (off + 64 >= e) then 0 else off + 64.

(** What the hardware answers: the pointer behind the last command fetched. *)
Definition hw_value (id reg : Z) (h : Hw) : Z :=
  if decide (id = 0 /\ reg = REG_LASTACK) then hc_last h else 0.

(** The status ring has room and the record is for a command that runs. *)
Definition can_complete (h : Hw) (ev : slot) : Prop :=
  advance (hs_end h) (hs_first h) <> hs_last h /\ length ev = 8%nat /\ tag_of ev ∈ h_running h.
#[global] Instance can_complete_dec h ev : Decision (can_complete h ev).
Proof. unfold can_complete. apply _. Defined.

(** A register write that sets the end of a ring. *)
Definition set_reg (id reg v : Z) (h : Hw) : Hw :=
  if decide (reg = REG_END) then (if decide (id = 0) then set_hc_end v h else set_hs_end v h) else h.

(** The engine a command is dispatched to, by the upper byte of its first word. *)
Definition engineselect (s : slot) : Z := Z.shiftr (default 0 (s !! 0%nat)) 56.

(** The command with tag [t] that runs: the last one fetched with this tag. *)
Definition command_of (h : Hw) (t : Z) : option slot :=
  snd <$> list_find (fun s => tag_of s = t) (reverse (h_fetched h)).

(** The oldest command in the FIFO of the echo engine. *)
Fixpoint echo_head (h : Hw) (running : list Z) : option slot :=
  match running with
  | [] => None
  | t :: l =>
      match command_of h t with
      | Some s => if decide (engineselect s = CMD_ECHO) then Some s else echo_head h l
      | None => echo_head h l
      end
  end.

(** A record is written behind those in the status ring. *)
Definition complete (ev : slot) : M R unit :=
  w ← getW;
  let h := hw w in
  if decide (can_complete h ev) then
    sm ← defined (put_slot (status_mem w) (hs_first h) ev);
    modifyW (set_status_mem sm) ;;
    hw_upd (fun h => set_hs_first (advance (hs_end h) (hs_first h))
              (set_h_running (filter (fun t => t <> tag_of ev) (h_running h)) h))
  else mret tt.

(** One action; what the hardware cannot do now it does not do. *)
Definition act (a : hw_action) : M R unit :=
  w ← getW;
  let h := hw w in
  match a with
  | HwFetch =>
      if decide (hc_last h = hc_first h) then mret tt
      else
        s ← defined (slot_at (cmd_mem w) (hc_last h));
        hw_upd (fun h => set_hc_last (advance (hc_end h) (hc_last h))
                  (set_h_fetched (h_fetched h ++ [s]) (set_h_running (h_running h ++ [tag_of s]) h)))
  | HwComplete ev => complete ev
  | HwEcho => match echo_head h (h_running h) with Some ev => complete ev | None => mret tt end
  | HwReply =>
      match h_replies h with
      | [] => mret tt
      | SetReply id reg v :: l =>
          hw_upd (fun h => set_reg id reg v (set_h_replies l h)) ;;
          setResult id reg v
      | GetReply id reg :: l =>
          hw_upd (set_h_replies l) ;; getResult id reg (hw_value id reg h)
      end
  end.

Fixpoint acts (l : list hw_action) : M R unit :=
  match l with [] => mret tt | a :: l => act a ;; acts l end.

(** The hardware's actions until the next poll. *)
Definition tick : M R unit :=
  w ← getW;
  match sched w with
  | [] => block
  | l :: s => putW (set_sched s w) ;; acts l
  end.

(** * The rings *)

(** The slot at [r->last], [None] while its last word is zero. *)
Definition ring_next : M R (option Z) :=
  w ← getW;
  s ← defined (slot_at (status_mem w) (last (status_ring w)));
  if decide (word7 s = 0) then mret None else mret (Some (last (status_ring w))).

(** [ring_pop(&status_ring)] *)
Definition ring_pop : M R unit :=
  w ← getW;
  let r := status_ring w in
  s ← defined (slot_at (status_mem w) (last r));
  sm ← defined (put_slot (status_mem w) (last r) (<[7%nat := 0]> s));
  modifyW (set_status_mem sm) ;;
  let l := u32 (last r + 64) in
  let l := if decide (l >= size r) then 0 else l in
  modifyW (fun w => set_status_ring (set_last l (status_ring w)) w) ;;
  if decide (l mod (Z.shiftr (size r) 2) = 0) then
    if decide (ringid r = 0) then setCmdLast l else setStatusLast l
  else mret tt.

(** The loop ends when no status record is left; the polls of the schedule bound it. *)
Fixpoint poll_ring_loop (fuel : nat) : M R unit :=
  match fuel with
  | O => block
  | S fuel =>
      msg ← ring_next;
      match msg with
      | None => mret tt
      | Some off => Ring_Handle_Completion off ;; ring_pop ;; tick ;; poll_ring_loop fuel
      end
  end.
Definition StatusPollRingOnly : M R unit :=
  w ← getW; poll_ring_loop (S (length (sched w))).

(** [StatusPoll] on the ring: the next status record, if there is one. *)
Definition poll_status : M R unit :=
  msg ← ring_next;
  match msg with
  | None => mret tt
  | Some off => Ring_Handle_Completion off ;; ring_pop
  end.

(** [portalExec_poll] and [portalExec_event] deliver what the hardware sends. *)
Definition StatusPoll : M R unit :=
  tick ;;
  w ← getW;
  if ring_init_done w then poll_status else mret tt.

(** Polling until the flag is set. *)
Fixpoint waitforflag (fuel : nat) (f : R -> Z) : M R unit :=
  w ← getW;
  if decide (f w <> 0) then mret tt
  else match fuel with O => block | S fuel => StatusPoll ;; waitforflag fuel f end.
Definition wait (f : R -> Z) : M R unit := w ← getW; waitforflag (length (sched w)) f.

Definition set_and_wait (id reg v : Z) : M R unit :=
  modifyW (set_setresult_flag 0) ;; ring_set id reg v ;; wait setresult_flag.

(** [ring_init]: the fields of the ring, then the registers of the hardware. *)
Definition ring_init (put : SWRing -> R -> R) (id rf sz : Z) : M R unit :=
  modifyW (put {| ref := rf; first := 0; last := 0; size := sz; slots := sz / 64;
                  cached_space := u32 (sz - 64); ringid := id |}) ;;
  set_and_wait id REG_BASE 0 ;;
  set_and_wait id REG_END sz ;;
  (if decide (id = 0) then setCmdFirst 0 ;; setCmdLast 0 else setStatusFirst 0 ;; setStatusLast 0) ;;
  set_and_wait id REG_MASK (sz - 1) ;;
  set_and_wait id REG_HANDLE rf.

(** The loop that asks for the space of the ring. *)
Fixpoint space_loop (fuel : nat) : M R unit :=
  w ← getW;
  let r := cmd_ring w in
  if decide (cached_space r mod (Z.shiftr (size r) 2) = 0) then
    match fuel with
    | O => block
    | S fuel =>
        modifyW (set_getresult_flag 0) ;;
        ring_get (ringid r) REG_LASTACK ;;
        wait getresult_flag ;;
        w ← getW;
        let r := cmd_ring w in
        let space := u32 (u64 (size r + last r - first r - 64) mod size r) in
        modifyW (fun w => set_cmd_ring (set_cached_space space (cmd_ring w)) w) ;;
        if decide (space <> 0) then mret tt else space_loop fuel
    end
  else mret tt.

(** [ring_send] once there is space: a completion is taken and the command put
    into the ring with its tag. *)
Definition ring_put (cmd : slot) (fp : option finish_fn) (a : option Z) : M R unit :=
  p ← get_free_completion;
  match p with
  | None => assert false
  | Some t =>
      w ← getW;
      e ← defined (znth (completion w) t);
      c ← defined (zupd (completion w) t (set_arg a (set_finish fp e)));
      modifyW (set_completion c) ;;
      let r := cmd_ring w in
      let cmd := <[7%nat := tag e]> cmd in
      m ← defined (put_slot (cmd_mem w) (first r) cmd);
      modifyW (set_cmd_mem m) ;;
      let next_first := u32 (first r + 64) in
      let next_first := if decide (next_first = size r) then 0 else next_first in
      modifyW (fun w => set_cmd_ring (set_first next_first (cmd_ring w)) w) ;;
      modifyW (fun w => set_cmd_ring (set_cached_space (u32 (cached_space r - 64)) (cmd_ring w)) w)
  end.

Definition ring_send (cmd : slot) (fp : option finish_fn) (a : option Z) : M R unit :=
  w ← getW;
  assert (bool_decide (first (cmd_ring w) < size (cmd_ring w))) ;;
  space_loop (S (length (sched w))) ;;
  ring_put cmd fp a.

(** [STARTRING()] *)
Definition STARTRING : M R unit := w ← getW; setCmdFirst (first (cmd_ring w)).

(** ** Commands

    [junk] are the words of the local array that are not set; [p] is the
    address of the local variable the callback writes. *)
Section Commands.
Variable junk : nat -> Z.

Definition cmd_word (c : Z) : Z := Z.shiftl c 56.
Definition echo_cmd (a b : Z) : slot := [cmd_word CMD_ECHO; a; b; junk 3; junk 4; junk 5; junk 6; junk 7].
Definition copy_cmd (scratch from to count : Z) : slot :=
  [cmd_word CMD_COPY; scratch; from; scratch; to; count; junk 6; junk 7].

Definition event_flag (p : Z) (w : R) : Z := default 0 (flag <$> events w !! p).
Definition flag_at (p : Z) (w : R) : Z := default 0 (flags w !! p).

Definition hw_echo (p a b : Z) : M R bool :=
  modifyW (fun w => set_events (<[p := {| exp_a := a; exp_b := b; got_a := 0; got_b := 0; flag := 0 |}]>
                                  (events w)) w) ;;
  ring_send (echo_cmd a b) (Some EchoFinish) (Some p) ;;
  STARTRING ;;
  wait (event_flag p) ;;
  w ← getW;
  e ← defined (events w !! p);
  mret (bool_decide (got_a e = a /\ got_b e = b)).

Definition hw_copy_nb (scratch from to count p : Z) : M R unit :=
  ring_send (copy_cmd scratch from to count) (Some FlagFinish) (Some p) ;; STARTRING.

Definition hw_copy (scratch from to count p : Z) : M R unit :=
  modifyW (fun w => set_flags (<[p := 0]> (flags w)) w) ;;
  hw_copy_nb scratch from to count p ;;
  wait (flag_at p).

Definition hw_nop : M R unit :=
  ring_send [cmd_word CMD_NOP; 17; 34; junk 3; junk 4; junk 5; junk 6; junk 7] None None ;; STARTRING.
End Commands.

(** ** The program *)

(** [main] up to the point where commands are issued, with rings of [sz] bytes. *)
Definition ring_start (cmd_ref status_ref sz : Z) : M R unit :=
  completion_list_init ;;
  ring_init set_cmd_ring 0 cmd_ref sz ;;
  ring_init set_status_ring 1 status_ref sz ;;
  modifyW (set_ring_init_done true).

(** The third pass of [main]: blocking echoes, [todo] of them from [i]. *)
Fixpoint echo_pass (junk : nat -> Z) (todo : nat) (i p : Z) : M R bool :=
  match todo with
  | O => mret true
  | S todo =>
      ok ← hw_echo junk p (Z.shiftl 0x333 32 + i) (Z.shiftl 0x444 32 + i);
      rest ← echo_pass junk todo (i + 1) p;
      mret (ok && rest)
  end.

(** [echoCompletion] starts at [base]; a static array is zero at first. *)
Definition event_zero : CompletionEvent := {| exp_a := 0; exp_b := 0; got_a := 0; got_b := 0; flag := 0 |}.

(** A round of [fast_echo_test]: what is expected, from [i]. *)
Fixpoint expect_loop (base : Z) (todo : nat) (i : Z) : M R unit :=
  match todo with
  | O => mret tt
  | S todo =>
      modifyW (fun w =>
        let p := default event_zero (events w !! (base + i)) in
        set_events (<[base + i := {| exp_a := 0xaaa000 + i; exp_b := 0xbbb000 + i; got_a := got_a p;
                                     got_b := got_b p; flag := 0 |}]> (events w)) w) ;;
      expect_loop base todo (i + 1)
  end.

(** The commands are sent; the hardware is told of every sixteenth. *)
Fixpoint send_loop (junk : nat -> Z) (base : Z) (todo : nat) (i : Z) : M R unit :=
  match todo with
  | O => mret tt
  | S todo =>
      w ← getW;
      p ← defined (events w !! (base + i));
      ring_send (echo_cmd junk (exp_a p) (exp_b p)) (Some EchoFinish) (Some (base + i)) ;;
      (if decide (Z.land i 15 = 0) then STARTRING else mret tt) ;;
      StatusPollRingOnly ;;
      send_loop junk base todo (i + 1)
  end.

(** Polling until every echo has come back. *)
Fixpoint completions_loop (fuel : nat) (loops : Z) : M R unit :=
  w ← getW;
  if decide (totalCompletions w = loops) then mret tt
  else match fuel with O => block | S fuel => StatusPollRingOnly ;; tick ;; completions_loop fuel loops end.

(** How many echoes did not bring back what was expected. *)
Definition echo_failed (base : Z) (w : R) (i : Z) : bool :=
  match events w !! (base + i) with
  | Some p => negb (bool_decide (exp_a p = got_a p /\ exp_b p = got_b p))
  | None => true
  end.
Definition echo_failures (base : Z) (loops : nat) (w : R) : nat :=
  length (filter (fun i => echo_failed base w i = true) (seqZ 0 (Z.of_nat loops))).

Definition fast_echo_round (junk : nat -> Z) (base : Z) (loops : nat) : M R nat :=
  expect_loop base loops 0 ;;
  modifyW (set_totalCompletions 0) ;;
  send_loop junk base loops 0 ;;
  STARTRING ;;
  w ← getW;
  completions_loop (S (length (sched w))) (Z.of_nat loops) ;;
  w ← getW;
  mret (echo_failures base loops w).
