(* ===== verification/RingSafe.v ===== *)
(** The rings of [examples/ring/testring.cpp] never lose or overwrite a command
    or a status record.  The invariant [inv] counts the commands sent, started
    and fetched and the status records written and handled, ties the pointers
    of both sides and the memory of the rings to these counts, and says where
    each of the 1023 completion tags is. *)

From stdpp Require Import base gmap list option fin_maps.
From Stdlib Require Import ZArith Lia.
From S2P Require Import Prelude Ring.

(** The counts: [gC] the fetch count the free space was computed from, [gL] the
    one the host knows, [gA] the commands fetched, [gS] those the hardware was
    told of; [gD'] the records handled that the hardware knows of, [gD] those
    handled, [gE] those written; [gQ] the records that wait. *)
Record counts : Type := {
  gC : Z; gL : Z; gA : Z; gS : Z; gD' : Z; gD : Z; gE : Z; gQ : list slot }.

Section RingInv.
Variable N : Z.
Hypothesis N_range : 1 <= N < 2 ^ 24.

Definition pos (k : Z) : Z := 64 * (k mod N).

Lemma pos_slot k : pos k mod 64 = 0 /\ pos k / 64 = k mod N.
Proof. unfold pos. split; zlia. Qed.

Lemma pos_range k : 0 <= pos k <= 64 * N - 64.
Proof. unfold pos. pose proof (Z.mod_pos_bound k N ltac:(lia)). lia. Qed.

Lemma mod_succ k : (k + 1) mod N = if decide (k mod N + 1 = N) then 0 else k mod N + 1.
Proof.
  pose proof (Z.mod_pos_bound k N ltac:(lia)). pose proof (Z.div_mod k N ltac:(lia)).
  case_decide.
  - symmetry. apply (Z.mod_unique _ _ (k / N + 1)); lia.
  - symmetry. apply (Z.mod_unique _ _ (k / N)); lia.
Qed.

(** The next slot, as the host and the hardware compute it. *)
Lemma pos_advance k : advance (64 * N) (pos k) = pos (k + 1).
Proof.
  unfold advance, pos. rewrite mod_succ. pose proof (Z.mod_pos_bound k N ltac:(lia)).
  repeat case_decide; lia.
Qed.

(** Slots less than a round apart are different. *)
Lemma mod_inj j k : j <= k < j + N -> j mod N = k mod N -> j = k.
Proof.
  intros H E. assert (Hd : (k - j) mod N = 0).
  { rewrite Zminus_mod, E, Z.sub_diag. apply Z.mod_0_l. lia. }
  rewrite Z.mod_small in Hd; lia.
Qed.

Lemma pos_inj j k : j <= k < j + N -> pos j = pos k -> j = k.
Proof. unfold pos. intros H E. apply mod_inj; lia. Qed.

Lemma slot_at_pos m k : slot_at m (pos k) = znth m (k mod N).
Proof. unfold slot_at. destruct (pos_slot k) as [-> ->]. by rewrite decide_True. Qed.

Lemma put_slot_pos m k s :
  Z.of_nat (length m) = N -> put_slot m (pos k) s = Some (<[Z.to_nat (k mod N) := s]> m).
Proof.
  intros Hm. unfold put_slot. destruct (pos_slot k) as [-> ->]. rewrite decide_True by done.
  apply zupd_Some. pose proof (Z.mod_pos_bound k N ltac:(lia)). lia.
Qed.

(** Reading a slot of a memory of which slot [k] was written. *)
Lemma slot_put m k s j :
  Z.of_nat (length m) = N ->
  slot_at (<[Z.to_nat (k mod N) := s]> m) (pos j) =
    if decide (j mod N = k mod N) then Some s else slot_at m (pos j).
Proof.
  intros Hm. rewrite !slot_at_pos. pose proof (Z.mod_pos_bound k N ltac:(lia)).
  case_decide as E.
  - rewrite E. apply (znth_zupd_eq m). apply zupd_Some. lia.
  - apply (znth_zupd_ne m _ (k mod N) (j mod N) s); [|congruence]. apply zupd_Some. lia.
Qed.

(** ** The invariant *)

Definition cb_ok (w : R) (f : option finish_fn) (a : option Z) : Prop :=
  match f with
  | None => True
  | Some FlagFinish => a <> None
  | Some EchoFinish => exists p e, a = Some p /\ events w !! p = Some e
  end.

Definition in_flight (sent : list slot) (g : counts) (w : R) : list Z :=
  (tag_of <$> drop (Z.to_nat (gA g)) sent) ++ h_running (hw w) ++ (tag_of <$> gQ g).

(** The host's and the hardware's side of the command ring. *)
Record cmd_inv (sent : list slot) (g : counts) (w : R) : Prop := {
  ci_order : 0 <= gC g <= gL g /\ gL g <= gA g <= gS g /\ gS g <= Z.of_nat (length sent);
  ci_room : Z.of_nat (length sent) - gC g <= N - 1;
  ci_size : size (cmd_ring w) = 64 * N;
  ci_id : ringid (cmd_ring w) = 0;
  ci_first : first (cmd_ring w) = pos (Z.of_nat (length sent));
  ci_last : last (cmd_ring w) = pos (gL g);
  ci_space : cached_space (cmd_ring w) = 64 * (N - 1 - (Z.of_nat (length sent) - gC g));
  ci_hfirst : hc_first (hw w) = pos (gS g);
  ci_hlast : hc_last (hw w) = pos (gA g);
  ci_hend : hc_end (hw w) = 64 * N;
  ci_len : Z.of_nat (length (cmd_mem w)) = N;
  ci_mem : forall k, gA g <= k < Z.of_nat (length sent) -> slot_at (cmd_mem w) (pos k) = znth sent k;
  ci_fetched : h_fetched (hw w) = take (Z.to_nat (gA g)) sent;
  ci_replies : forall r, r ∈ h_replies (hw w) -> r = GetReply 0 REG_LASTACK
}.

(** The status ring. *)
Record status_inv (g : counts) (w : R) : Prop := {
  si_order : 0 <= gD' g <= gD g /\ gD g <= gE g;
  si_room : gE g - gD' g <= N - 1;
  si_size : size (status_ring w) = 64 * N;
  si_id : ringid (status_ring w) <> 0;
  si_last : last (status_ring w) = pos (gD g);
  si_hfirst : hs_first (hw w) = pos (gE g);
  si_hlast : hs_last (hw w) = pos (gD' g);
  si_hend : hs_end (hw w) = 64 * N;
  si_len : Z.of_nat (length (status_mem w)) = N;
  si_queue : Z.of_nat (length (gQ g)) = gE g - gD g;
  si_full : forall i ev, znth (gQ g) i = Some ev ->
    slot_at (status_mem w) (pos (gD g + i)) = Some ev /\ length ev = 8%nat /\ word7 ev <> 0;
  si_empty : forall k, gE g <= k < gD g + N ->
    exists s, slot_at (status_mem w) (pos k) = Some s /\ word7 s = 0
}.

(** The completions: every tag is free or in flight, once. *)
Record tag_inv (sent : list slot) (g : counts) (w : R) : Prop := {
  ti_perm : freelist w ++ in_flight sent g w ≡ₚ seqZ 1 1023;
  ti_len : length (completion w) = 1024%nat;
  ti_entry : forall t p, znth (completion w) t = Some p -> 1 <= t -> tag p = t /\
    (t ∈ freelist w -> in_use p = 0) /\
    (t ∉ freelist w -> in_use p = 1 /\ cb_ok w (finish p) (arg p))
}.

Record inv (sent : list slot) (g : counts) (w : R) : Prop := {
  i_cmd : cmd_inv sent g w;
  i_status : status_inv g w;
  i_tags : tag_inv sent g w;
  i_done : ring_init_done w = true
}.

Lemma tag_of_0 s : word7 s = 0 -> tag_of s = 0.
Proof. unfold tag_of. by intros ->. Qed.

Lemma perm_filter {A} `{!EqDecision A} (x : A) (l : list A) :
  NoDup l -> x ∈ l -> l ≡ₚ x :: filter (fun y => y <> x) l.
Proof.
  intros Hnd Hx. apply NoDup_Permutation; [done| |].
  - constructor; [rewrite list_elem_of_filter; tauto|by apply NoDup_filter].
  - intros y. rewrite elem_of_cons, list_elem_of_filter. destruct (decide (y = x)); naive_solver.
Qed.

(** Facts about the tags in flight. *)
Lemma tags_nodup sent g w : tag_inv sent g w -> NoDup (freelist w ++ in_flight sent g w).
Proof. intros []. rewrite ti_perm0. apply NoDup_seqZ. Qed.

Lemma flight_range sent g w t : tag_inv sent g w -> t ∈ freelist w ++ in_flight sent g w -> 1 <= t < 1024.
Proof. intros [] H. rewrite ti_perm0 in H. apply elem_of_seqZ in H. lia. Qed.

Lemma flight_not_free sent g w t : tag_inv sent g w -> t ∈ in_flight sent g w -> t ∉ freelist w.
Proof. intros H Hf. apply tags_nodup, NoDup_app in H as (_ & H & _). intros Hx. by apply (H t). Qed.

(** The tags part only depends on the free list, the tags in flight, the
    completions and the events that exist. *)
Lemma tag_inv_perm sent g w sent' g' w' :
  tag_inv sent g w -> completion w' = completion w -> freelist w' = freelist w ->
  events w' = events w -> in_flight sent' g' w' ≡ₚ in_flight sent g w -> tag_inv sent' g' w'.
Proof.
  intros [H1 H2 H3] Hc Hf He Hp. constructor.
  - by rewrite Hf, Hp.
  - by rewrite Hc.
  - intros t p Ht H0. rewrite Hc in Ht. rewrite Hf. destruct (H3 t p Ht H0) as (? & ? & H4).
    split; [done|]. split; [done|]. intros Hn. destruct (H4 Hn) as [? Hcb]. split; [done|].
    unfold cb_ok in *. by rewrite He.
Qed.

(** ** The hardware's actions *)

Definition g_set_A (v : Z) (g : counts) : counts :=
  {| gC := gC g; gL := gL g; gA := v; gS := gS g; gD' := gD' g; gD := gD g; gE := gE g; gQ := gQ g |}.
Definition g_set_L (v : Z) (g : counts) : counts :=
  {| gC := gC g; gL := v; gA := gA g; gS := gS g; gD' := gD' g; gD := gD g; gE := gE g; gQ := gQ g |}.
Definition g_set_C (v : Z) (g : counts) : counts :=
  {| gC := v; gL := gL g; gA := gA g; gS := gS g; gD' := gD' g; gD := gD g; gE := gE g; gQ := gQ g |}.
Definition g_set_S (v : Z) (g : counts) : counts :=
  {| gC := gC g; gL := gL g; gA := gA g; gS := v; gD' := gD' g; gD := gD g; gE := gE g; gQ := gQ g |}.
Definition g_put (ev : slot) (g : counts) : counts :=
  {| gC := gC g; gL := gL g; gA := gA g; gS := gS g; gD' := gD' g; gD := gD g; gE := gE g + 1;
     gQ := gQ g ++ [ev] |}.
Definition g_pop (told : bool) (g : counts) : counts :=
  {| gC := gC g; gL := gL g; gA := gA g; gS := gS g; gD' := if told then gD g + 1 else gD' g;
     gD := gD g + 1; gE := gE g; gQ := tail (gQ g) |}.

(** The state after each action of the hardware. *)
Definition fetched (s : slot) (w : R) : R :=
  set_hw (set_hc_last (advance (hc_end (hw w)) (hc_last (hw w)))
    (set_h_fetched (h_fetched (hw w) ++ [s]) (set_h_running (h_running (hw w) ++ [tag_of s]) (hw w)))) w.
Definition completed (g : counts) (ev : slot) (w : R) : R :=
  set_hw (set_hs_first (advance (hs_end (hw w)) (hs_first (hw w)))
    (set_h_running (filter (fun t => t <> tag_of ev) (h_running (hw w))) (hw w)))
  (set_status_mem (<[Z.to_nat (gE g mod N) := ev]> (status_mem w)) w).
Definition replied (g : counts) (l : list hw_reply) (w : R) : R :=
  set_getresult_flag 1 (set_cmd_ring (set_last (pos (gA g)) (cmd_ring w))
    (set_hw (set_h_replies l (hw w)) w)).

Lemma fetch_step sent g w s : inv sent g w -> gA g < gS g -> znth sent (gA g) = Some s ->
  act HwFetch w = Ok tt (fetched s w) /\ inv sent (g_set_A (gA g + 1) g) (fetched s w).
Proof.
  intros [Hc Hs Ht Hd] HA Hn. pose proof Hc as []. split.
  { unfold act. rewrite (bind_ok getW _ w w w) by done. cbv zeta. rewrite decide_False.
    - by rewrite ci_hlast0, ci_mem0, Hn, bind_defined by lia.
    - rewrite ci_hlast0, ci_hfirst0. intros E%pos_inj; lia. }
  assert (Hsn : sent !! Z.to_nat (gA g) = Some s) by (unfold znth in Hn; by case_decide).
  constructor; [| | |done].
  - constructor; cbn; try done; try lia.
    + rewrite ci_hend0, ci_hlast0. apply pos_advance.
    + intros k Hk. apply ci_mem0. lia.
    + rewrite ci_fetched0. replace (Z.to_nat (gA g + 1)) with (S (Z.to_nat (gA g))) by lia.
      symmetry. by apply take_S_r.
  - destruct Hs. constructor; done.
  - apply (tag_inv_perm sent g w); try done. unfold in_flight. cbn.
    rewrite (drop_S sent s (Z.to_nat (gA g)) Hsn). cbn.
    replace (Z.to_nat (gA g + 1)) with (S (Z.to_nat (gA g))) by lia. solve_Permutation.
Qed.

Lemma running_word7 sent g w ev : tag_inv sent g w -> tag_of ev ∈ h_running (hw w) -> word7 ev <> 0.
Proof.
  intros Ht Hrun H0%tag_of_0. pose proof (flight_range _ _ _ (tag_of ev) Ht) as H1.
  unfold in_flight in H1. rewrite !elem_of_app in H1. specialize (H1 (or_intror (or_intror (or_introl Hrun)))). lia.
Qed.

(** The status ring after a record was written behind the others. *)
Lemma status_inv_put g w ev : status_inv g w -> gE g - gD' g <= N - 2 -> length ev = 8%nat -> word7 ev <> 0 ->
  status_inv (g_put ev g) (completed g ev w).
Proof.
  intros [] HE Hlen Hw7. constructor; cbn; try done; try lia.
  - rewrite si_hend0, si_hfirst0. apply pos_advance.
  - by rewrite length_insert.
  - rewrite length_app. cbn. lia.
  - intros i e Hi. pose proof (znth_Some _ _ _ Hi) as Hr. rewrite length_app in Hr. cbn in Hr.
    rewrite slot_put by done. unfold znth in Hi. case_decide; [|done].
    destruct (decide (i = gE g - gD g)) as [-> | Hne].
    + replace (gD g + (gE g - gD g)) with (gE g) by lia. rewrite decide_True by done.
      rewrite lookup_app_r in Hi by lia. replace (Z.to_nat (gE g - gD g) - length (gQ g))%nat with 0%nat in Hi by lia.
      cbn in Hi. by simplify_eq.
    + rewrite lookup_app_l in Hi by lia. rewrite decide_False.
      * apply si_full0. unfold znth. by rewrite decide_True.
      * intros E%mod_inj; lia.
  - intros k Hk. destruct (si_empty0 k) as (s & Hs1 & Hs2); [lia|]. exists s. split; [|done].
    rewrite slot_put by done. rewrite decide_False; [done|]. intros E%eq_sym%mod_inj; lia.
Qed.

Lemma complete_step sent g w ev : inv sent g w -> can_complete (hw w) ev ->
  complete ev w = Ok tt (completed g ev w) /\ inv sent (g_put ev g) (completed g ev w).
Proof.
  intros [Hc Hs Ht Hd] Hcan. pose proof Hs as []. split.
  { unfold complete. rewrite (bind_ok getW _ w w w) by done. cbv zeta. rewrite decide_True by done.
    by rewrite si_hfirst0, put_slot_pos, bind_defined by done. }
  destruct Hcan as (E1 & Hlen & Hrun). rewrite si_hfirst0, si_hlast0, si_hend0, pos_advance in E1.
  constructor; [| | |done].
  - destruct Hc. constructor; done.
  - apply status_inv_put; [done| |done|by eapply running_word7].
    destruct (decide (gE g - gD' g = N - 1)) as [E'|]; [|lia]. destruct E1.
    replace (gE g + 1) with (gD' g + 1 * N) by lia. unfold pos. by rewrite Z.mod_add by lia.
  - apply (tag_inv_perm sent g w); try done. unfold in_flight. cbn.
    assert (Hnd : NoDup (h_running (hw w))).
    { apply tags_nodup in Ht. unfold in_flight in Ht. rewrite !NoDup_app in Ht. tauto. }
    rewrite fmap_app. cbn. rewrite (perm_filter (tag_of ev) (h_running (hw w)) Hnd Hrun) at 2. solve_Permutation.
Qed.

Lemma reply_step sent g w r l : inv sent g w -> h_replies (hw w) = r :: l ->
  act HwReply w = Ok tt (replied g l w) /\ inv sent (g_set_L (gA g) g) (replied g l w).
Proof.
  intros [Hc Hs Ht Hd] Hr. pose proof Hc as [].
  assert (Hu : u32 (hc_last (hw w)) = pos (gA g)).
  { rewrite ci_hlast0. pose proof (pos_range (gA g)). apply u32_small. lia. }
  split.
  { unfold act. rewrite (bind_ok getW _ w w w), Hr by done. cbv zeta.
    rewrite (ci_replies0 r) by (rewrite Hr; left).
    unfold hw_upd, getResult, hw_value, mbind, M_bind, modifyW, getW. cbn -[u32].
    rewrite ci_id0, decide_True by done. cbn -[u32]. by rewrite decide_True, Hu by done. }
  constructor; [| | |done].
  - constructor; cbn; try done; try lia. intros r' Hr'. apply ci_replies0. rewrite Hr. by right.
  - destruct Hs. constructor; done.
  - by apply (tag_inv_perm sent g w).
Qed.

Lemma complete_inv ev sent g w : inv sent g w -> exists w' g',
  complete ev w = Ok tt w' /\ inv sent g' w' /\ freelist w' = freelist w /\ events w' = events w.
Proof.
  intros H. destruct (decide (can_complete (hw w) ev)) as [E|E].
  - destruct (complete_step sent g w ev H E). eexists _, _. done.
  - exists w, g. split; [|done]. unfold complete. rewrite (bind_ok getW _ w w w) by done. cbv zeta.
    by rewrite decide_False.
Qed.

Lemma act_inv a sent g w : inv sent g w -> exists w' g',
  act a w = Ok tt w' /\ inv sent g' w' /\ freelist w' = freelist w /\ events w' = events w.
Proof.
  intros H. pose proof H as [[] Hs Ht Hd]. destruct a as [| |ev|].
  - destruct (decide (gA g = gS g)) as [E|HA].
    + exists w, g. split; [|done]. unfold act. rewrite (bind_ok getW _ w w w) by done. cbv zeta.
      by rewrite decide_True by congruence.
    + destruct (znth_in_range sent (gA g)) as [s Hn]; [lia|].
      destruct (fetch_step sent g w s H ltac:(lia) Hn). eexists _, _. done.
  - destruct (h_replies (hw w)) as [|r l] eqn:Hr.
    + exists w, g. split; [|done]. unfold act. rewrite (bind_ok getW _ w w w) by done. cbv zeta. by rewrite Hr.
    + destruct (reply_step sent g w r l H Hr). eexists _, _. done.
  - unfold act. rewrite (bind_ok getW _ w w w) by done. by apply (complete_inv ev sent g).
  - unfold act. rewrite (bind_ok getW _ w w w) by done. cbv zeta.
    destruct (echo_head _ _) as [ev|]; [by apply (complete_inv ev sent g)|by exists w, g].
Qed.

Lemma acts_inv l : forall sent g w, inv sent g w -> exists w' g',
  acts l w = Ok tt w' /\ inv sent g' w' /\ freelist w' = freelist w /\ events w' = events w.
Proof.
  induction l as [|a l IH]; intros sent g w H; [by exists w, g|]. cbn [acts].
  destruct (act_inv a sent g w H) as (w1 & g1 & E1 & H1 & Hf & He).
  destruct (IH sent g1 w1 H1) as (w2 & g2 & E2 & H2 & Hf2 & He2).
  exists w2, g2. rewrite (bind_ok _ _ _ _ _ E1). split_and!; congruence || done.
Qed.

(** What the other operations keep: the callers' events exist, and tags are
    only added to the free list. *)
Definition keeps (w w' : R) : Prop :=
  (exists l, freelist w' = freelist w ++ l) /\
  (forall p, is_Some (events w !! p) -> is_Some (events w' !! p)).

#[global] Instance keeps_preorder : PreOrder keeps.
Proof.
  split.
  - intros w. split; [exists []; by rewrite app_nil_r|done].
  - intros w1 w2 w3 [[l Hl] H1] [[l' Hl'] H2]. split; [|auto].
    exists (l ++ l'). by rewrite Hl', Hl, app_assoc.
Qed.

Lemma keeps_same w w' : freelist w' = freelist w -> events w' = events w -> keeps w w'.
Proof. intros Hf He. split; [exists []; by rewrite Hf, app_nil_r|by rewrite He]. Qed.

Definition safe_keeps (sent : list slot) (w0 : R) : unit -> R -> Prop :=
  fun _ w' => exists g', inv sent g' w' /\ keeps w0 w'.

Lemma wp_tick sent g w : inv sent g w -> wp tick (safe_keeps sent w) w.
Proof.
  intros H. unfold tick. apply wp_bind. eapply wp_ok; [done|].
  destruct (sched w) as [|l s]; [done|]. apply wp_bind. eapply wp_ok; [done|].
  assert (H' : inv sent g (set_sched s w)).
  { destruct H as [[] [] Ht Hd]. constructor; [by constructor|by constructor| |done].
    by apply (tag_inv_perm sent g w). }
  destruct (acts_inv l sent g _ H') as (w' & g' & E & Hi & Hf & He).
  eapply wp_ok; [done|]. exists g'. split; [done|]. by apply keeps_same.
Qed.

(** ** Handling a status record *)

Lemma run_finish_ok f a ev w : cb_ok w f a -> length ev = 8%nat ->
  exists tc evm fl, run_finish f a ev w
      = Ok tt (set_totalCompletions tc (set_events evm (set_flags fl w))) /\
    forall p, is_Some (events w !! p) -> is_Some (evm !! p).
Proof.
  intros Hcb Hl. destruct f as [[]|]; cbn [run_finish cb_ok] in *.
  - destruct a as [p|]; [|done]. exists (totalCompletions w), (events w), (<[p := 1]> (flags w)).
    split; [|done]. unfold flag_finish. rewrite bind_defined. destruct w; reflexivity.
  - destruct Hcb as (p & e & -> & He).
    destruct ev as [|e0 [|e1 [|e2 ev]]]; [done..|].
    exists (totalCompletions w + 1), (<[p := {| exp_a := exp_a e; exp_b := exp_b e; got_a := e1; got_b := e2;
                                              flag := 1 |}]> (events w)), (flags w). unfold echo_finish.
    rewrite (bind_ok getW _ w w w), He, bind_defined by done. cbn [lookup list_lookup].
    rewrite !bind_defined. split; [destruct w; reflexivity|].
    intros q Hq. destruct (decide (q = p)) as [-> | ]; [rewrite lookup_insert_eq; by eexists|].
    by rewrite lookup_insert_ne.
  - exists (totalCompletions w), (events w), (flags w). split; [destruct w; reflexivity|done].
Qed.

Lemma cb_ok_mono w w' f a :
  (forall p, is_Some (events w !! p) -> is_Some (events w' !! p)) -> cb_ok w f a -> cb_ok w' f a.
Proof.
  intros H. destruct f as [[]|]; cbn; [done| |done]. intros (p & e & -> & He).
  destruct (H p) as [e' He']; [by eexists|]. eauto.
Qed.

(** The state after the record at [gD] was handled. *)
Definition handled (t tc : Z) evm fl (c : list Ring_Completion) (sm : list slot) (w : R) : R :=
  set_freelist (freelist w ++ [t]) (set_status_mem sm
    (set_totalCompletions tc (set_events evm (set_flags fl (set_completion c w))))).

Lemma handle_ok sent g w ev q : inv sent g w -> gQ g = ev :: q -> exists p tc evm fl,
  znth (completion w) (tag_of ev) = Some p /\
  run_finish (finish p) (arg p) ev (set_completion (<[Z.to_nat (tag_of ev) := set_in_use 0 p]> (completion w)) w)
    = Ok tt (set_totalCompletions tc (set_events evm (set_flags fl
        (set_completion (<[Z.to_nat (tag_of ev) := set_in_use 0 p]> (completion w)) w)))) /\
  (forall x, is_Some (events w !! x) -> is_Some (evm !! x)) /\
  Ring_Handle_Completion (pos (gD g)) w = Ok tt
    (handled (tag_of ev) tc evm fl (<[Z.to_nat (tag_of ev) := set_in_use 0 p]> (completion w))
       (<[Z.to_nat (gD g mod N) := <[7%nat := 0]> ev]> (status_mem w)) w).
Proof.
  intros [Hc Hs Ht Hd] Hq. pose proof Hs as []. pose proof Ht as [].
  destruct (si_full0 0 ev) as (Hsl & Hlen & Hw7); [by rewrite Hq|]. replace (gD g + 0) with (gD g) in Hsl by lia.
  assert (Hfl : tag_of ev ∈ in_flight sent g w).
  { unfold in_flight. rewrite !elem_of_app, Hq. right. right. left. }
  pose proof (flight_range _ _ _ (tag_of ev) Ht ltac:(rewrite elem_of_app; by right)) as Hr.
  destruct (znth_in_range (completion w) (tag_of ev)) as [p Hp]; [lia|].
  destruct (ti_entry0 _ p Hp ltac:(lia)) as (_ & _ & Hin).
  destruct Hin as [Hin Hcb]; [by eapply flight_not_free|].
  set (c := <[Z.to_nat (tag_of ev) := set_in_use 0 p]> (completion w)).
  destruct (run_finish_ok (finish p) (arg p) ev (set_completion c w)) as (tc & evm & fl & Ef & Hev); [done|done|].
  exists p, tc, evm, fl. split; [done|]. split; [done|]. split; [done|].
  unfold Ring_Handle_Completion. rewrite (bind_ok getW _ w w w), Hsl, bind_defined by done. cbv zeta.
  rewrite (bind_ok (assert _) _ w tt w) by (by rewrite bool_decide_eq_true_2 by lia).
  rewrite Hp, bind_defined.
  rewrite (bind_ok (assert _) _ w tt w) by (by rewrite bool_decide_eq_true_2).
  rewrite zupd_Some, bind_defined by lia. fold c.
  rewrite (bind_ok (modifyW _) _ w tt (set_completion c w)) by done.
  rewrite (bind_ok _ _ _ _ _ Ef). match goal with |- (_ ≫= _) ?v = _ => rewrite (bind_ok getW _ v v v) by done end.
  cbn [status_mem set_totalCompletions set_events set_flags set_completion].
  by rewrite put_slot_pos, bind_defined by done.
Qed.

Lemma word7_cleared ev : length ev = 8%nat -> word7 (<[7%nat := 0]> ev) = 0.
Proof.
  intros H. unfold word7.
  enough (E : <[7%nat := 0]> ev !! 7%nat = Some 0) by (by rewrite E).
  apply list_lookup_insert_eq. lia.
Qed.

(** The host's step to the next slot. *)
Lemma pos_step k :
  (let l := u32 (pos k + 64) in if decide (l >= 64 * N) then 0 else l) = pos (k + 1).
Proof.
  pose proof (pos_range k). cbv zeta. rewrite u32_small by lia. apply (pos_advance k).
Qed.

(** The tags after a record was handled. *)
Lemma tag_inv_handled sent g w ev q p evm told w' :
  tag_inv sent g w -> gQ g = ev :: q -> znth (completion w) (tag_of ev) = Some p ->
  (forall x, is_Some (events w !! x) -> is_Some (evm !! x)) ->
  completion w' = <[Z.to_nat (tag_of ev) := set_in_use 0 p]> (completion w) ->
  freelist w' = freelist w ++ [tag_of ev] -> events w' = evm -> h_running (hw w') = h_running (hw w) ->
  tag_inv sent (g_pop told g) w'.
Proof.
  intros Ht Hq Hp Hev Hc Hf He Hr. pose proof (znth_Some _ _ _ Hp) as Hrange.
  assert (Hin : tag_of ev ∈ in_flight sent g w).
  { unfold in_flight. rewrite !elem_of_app, Hq. right. right. left. }
  pose proof (flight_not_free _ _ _ _ Ht Hin) as Hnf. destruct Ht. constructor.
  - rewrite Hf, <- ti_perm0. unfold in_flight. cbn [g_pop gA gQ]. rewrite Hr, Hq. cbn. solve_Permutation.
  - by rewrite Hc, length_insert.
  - intros t e Ht H1. rewrite Hc in Ht. rewrite Hf, elem_of_app, list_elem_of_singleton.
    assert (Hz : znth (<[Z.to_nat (tag_of ev) := set_in_use 0 p]> (completion w)) t =
      if decide (t = tag_of ev) then Some (set_in_use 0 p) else znth (completion w) t).
    { case_decide as E; [subst t; apply (znth_zupd_eq (completion w)); by apply zupd_Some|].
      eapply znth_zupd_ne; [by apply zupd_Some|congruence]. }
    rewrite Hz in Ht. clear Hz. case_decide as E.
    + injection Ht as <-. subst t. destruct (ti_entry0 _ p Hp H1) as (Ht & _ & _).
      split; [done|]. split; [done|]. tauto.
    + destruct (ti_entry0 t e Ht H1) as (? & H2 & H3). split; [done|]. split.
      * intros [H4|H4]; [by apply H2|done].
      * intros H4. destruct H3 as [? Hcb]; [tauto|]. split; [done|].
        eapply (cb_ok_mono w); [by rewrite He|done].
Qed.

(** The hardware is told of the handled records at every quarter of the ring. *)
Definition told (g : counts) : bool := bool_decide (pos (gD g + 1) mod (Z.shiftr (64 * N) 2) = 0).

Definition popped (g : counts) (s : slot) (w : R) : R :=
  let w := set_status_ring (set_last (pos (gD g + 1)) (status_ring w))
             (set_status_mem (<[Z.to_nat (gD g mod N) := <[7%nat := 0]> s]> (status_mem w)) w) in
  if told g then set_hw (set_hs_last (pos (gD g + 1)) (hw w)) w else w.

Lemma pop_step g w s :
  last (status_ring w) = pos (gD g) -> size (status_ring w) = 64 * N -> ringid (status_ring w) <> 0 ->
  Z.of_nat (length (status_mem w)) = N -> slot_at (status_mem w) (pos (gD g)) = Some s ->
  ring_pop w = Ok tt (popped g s w).
Proof.
  intros Hl Hsz Hid Hm Hs. unfold ring_pop. rewrite (bind_ok getW _ w w w) by done. cbv zeta.
  rewrite Hl, Hsz, Hs, bind_defined, put_slot_pos, bind_defined by done.
  rewrite (bind_ok (modifyW _) _ w tt (set_status_mem (<[Z.to_nat (gD g mod N) := <[7%nat := 0]> s]> (status_mem w)) w)) by done.
  pose proof (pos_step (gD g)) as Hst. cbv zeta in Hst. rewrite Hst. clear Hst.
  unfold popped, told. case_decide as E.
  - by rewrite decide_False, bool_decide_eq_true_2 by done.
  - by rewrite bool_decide_eq_false_2.
Qed.

(** Clearing the first waiting record twice leaves the others. *)
Lemma queue_cleared g w ev q s s' sm : status_inv g w -> gQ g = ev :: q -> word7 s' = 0 ->
  sm = <[Z.to_nat (gD g mod N) := s']> (<[Z.to_nat (gD g mod N) := s]> (status_mem w)) ->
  (forall i e, znth q i = Some e ->
    slot_at sm (pos (gD g + 1 + i)) = Some e /\ length e = 8%nat /\ word7 e <> 0) /\
  (forall k, gE g <= k < gD g + 1 + N -> exists e, slot_at sm (pos k) = Some e /\ word7 e = 0).
Proof.
  intros [] Hq Hs' ->. rewrite Hq in si_queue0. cbn in si_queue0. split.
  - intros i e Hi. pose proof (znth_Some _ _ _ Hi) as Hir.
    destruct (si_full0 (i + 1) e) as (Hx & ? & ?).
    { rewrite Hq. unfold znth in *. rewrite decide_True in Hi by lia. rewrite decide_True by lia.
      replace (Z.to_nat (i + 1)) with (S (Z.to_nat i)) by lia. done. }
    split; [|done]. rewrite slot_put by (by rewrite length_insert).
    rewrite decide_False; [|intros E%eq_sym%mod_inj; lia]. rewrite slot_put by done.
    rewrite decide_False; [|intros E%eq_sym%mod_inj; lia].
    by replace (gD g + 1 + i) with (gD g + (i + 1)) by lia.
  - intros k Hk. rewrite slot_put by (by rewrite length_insert). case_decide as E; [by eexists|].
    rewrite slot_put, decide_False by done.
    apply si_empty0. destruct (decide (k = gD g + N)) as [-> | ]; [|lia].
    replace (gD g + N) with (gD g + 1 * N) in E by lia. by rewrite Z.mod_add in E by lia.
Qed.

Lemma status_inv_pop g w w1 ev q s : status_inv g w -> gQ g = ev :: q -> length s = 8%nat ->
  status_mem w1 = <[Z.to_nat (gD g mod N) := s]> (status_mem w) ->
  status_ring w1 = status_ring w -> hw w1 = hw w ->
  status_inv (g_pop (told g) g) (popped g s w1).
Proof.
  intros Hs Hq Hlen Hm Hr Hh.
  destruct (queue_cleared g w ev q s (<[7%nat := 0]> s) _ Hs Hq (word7_cleared _ Hlen) eq_refl) as [Hfull Hempty].
  destruct Hs. rewrite Hq in si_queue0. cbn in si_queue0. rewrite <- Hm in Hfull, Hempty.
  unfold popped. destruct (told g); constructor; cbn; rewrite ?Hr, ?Hh, ?Hm, ?Hq, ?length_insert;
    cbn [tail]; try done; try lia; try (rewrite <- Hm; assumption).
Qed.

(** [ring_next], [Ring_Handle_Completion] and [ring_pop] on a record that waits. *)
Lemma handle_pop_ok sent g w ev q : inv sent g w -> gQ g = ev :: q ->
  exists p tc evm fl, let c := <[Z.to_nat (tag_of ev) := set_in_use 0 p]> (completion w) in
    let w1 := handled (tag_of ev) tc evm fl c (<[Z.to_nat (gD g mod N) := <[7%nat := 0]> ev]> (status_mem w)) w in
    znth (completion w) (tag_of ev) = Some p /\
    run_finish (finish p) (arg p) ev (set_completion c w)
      = Ok tt (set_totalCompletions tc (set_events evm (set_flags fl (set_completion c w)))) /\
    (forall x, is_Some (events w !! x) -> is_Some (evm !! x)) /\
    ring_next w = Ok (Some (pos (gD g))) w /\ Ring_Handle_Completion (pos (gD g)) w = Ok tt w1 /\
    ring_pop w1 = Ok tt (popped g (<[7%nat := 0]> ev) w1) /\
    inv sent (g_pop (told g) g) (popped g (<[7%nat := 0]> ev) w1).
Proof.
  intros H Hq. destruct (handle_ok sent g w ev q H Hq) as (p & tc & evm & fl & Hp & Hrun & Hev & Eh).
  destruct H as [Hc Hs Ht Hd]. pose proof Hs as [].
  destruct (si_full0 0 ev) as (Hsl & Hlen & Hw7); [by rewrite Hq|]. replace (gD g + 0) with (gD g) in Hsl by lia.
  exists p, tc, evm, fl. cbv zeta. match type of Eh with _ = Ok _ ?v => set (w1 := v) in * end.
  split_and!; [done|done|done| |done| |].
  - unfold ring_next. rewrite (bind_ok getW _ w w w), si_last0, Hsl, bind_defined by done.
    by rewrite decide_False.
  - apply pop_step; try done.
    + cbn. by rewrite length_insert.
    + cbn. rewrite slot_put by done. by rewrite decide_True.
  - assert (Hi : tag_inv sent (g_pop (told g) g) w1) by (by apply (tag_inv_handled sent g w ev q p evm)).
    constructor; [| | |by unfold popped; destruct (told g)].
    + destruct Hc. unfold popped. by destruct (told g); constructor.
    + apply (status_inv_pop g w w1 ev q); try done. by rewrite length_insert.
    + unfold popped. destruct (told g); (eapply tag_inv_perm; [exact Hi|done..]).
Qed.

Lemma handle_pop_safe sent g w ev q : inv sent g w -> gQ g = ev :: q -> exists w1 w2,
  ring_next w = Ok (Some (pos (gD g))) w /\ Ring_Handle_Completion (pos (gD g)) w = Ok tt w1 /\
  ring_pop w1 = Ok tt w2 /\ inv sent (g_pop (told g) g) w2 /\ keeps w w2.
Proof.
  intros H Hq. destruct (handle_pop_ok sent g w ev q H Hq) as (p & tc & evm & fl & _ & _ & Hev & E0 & E1 & E2 & Hi).
  eexists _, _. split; [exact E0|]. split; [exact E1|]. split; [exact E2|]. split; [exact Hi|]. split.
  - exists [tag_of ev]. unfold popped. by destruct (told g).
  - intros x Hx. unfold popped. by destruct (told g); apply Hev.
Qed.

Lemma next_none sent g w : inv sent g w -> gQ g = [] -> ring_next w = Ok None w.
Proof.
  intros [Hc [] Ht Hd] Hq. unfold ring_next. rewrite (bind_ok getW _ w w w) by done.
  rewrite Hq in si_queue0. cbn in si_queue0.
  destruct (si_empty0 (gD g)) as (s & Hs & Hw); [lia|]. rewrite si_last0, Hs, bind_defined.
  by rewrite decide_True.
Qed.

(** A change outside the rings, the pointers and the completions. *)
Ltac inv_frame H :=
  let Ht := fresh in let Hd := fresh in
  destruct H as [[] [] Ht Hd]; constructor;
    [by constructor|by constructor|by eapply tag_inv_perm; [exact Ht|..]|done].

Lemma poll_status_safe sent g w : inv sent g w -> exists w' g',
  poll_status w = Ok tt w' /\ inv sent g' w' /\ keeps w w'.
Proof.
  intros H. destruct (gQ g) as [|ev q] eqn:Hq.
  - exists w, g. split; [|done]. unfold poll_status. by rewrite (bind_ok _ _ _ _ _ (next_none sent g w H Hq)).
  - destruct (handle_pop_safe sent g w ev q H Hq) as (w1 & w2 & E0 & E1 & E2 & Hi & Hk).
    eexists w2, _. unfold poll_status. by rewrite (bind_ok _ _ _ _ _ E0), (bind_ok _ _ _ _ _ E1).
Qed.

Lemma wp_StatusPoll sent g w : inv sent g w -> wp StatusPoll (safe_keeps sent w) w.
Proof.
  intros H. unfold StatusPoll. apply wp_bind. eapply wp_mono; [by eapply wp_tick|].
  intros [] w1 (g1 & H1 & K1). apply wp_bind. eapply wp_ok; [done|].
  rewrite (i_done _ _ _ H1). destruct (poll_status_safe sent g1 w1 H1) as (w2 & g2 & E & H2 & K2).
  eapply wp_ok; [exact E|]. exists g2. split; [done|]. by etrans.
Qed.

Lemma wp_wait sent f fuel : forall g w, inv sent g w -> wp (waitforflag fuel f) (safe_keeps sent w) w.
Proof.
  induction fuel as [|fuel IH]; intros g w H; cbn [waitforflag]; apply wp_bind; (eapply wp_ok; [done|]);
    (case_decide; [by exists g|]); [done|].
  apply wp_bind. eapply wp_mono; [by eapply wp_StatusPoll|]. intros [] w1 (g1 & H1 & K1).
  eapply wp_mono; [by eapply IH|]. intros [] w2 (g2 & H2 & K2). exists g2. split; [done|]. by etrans.
Qed.

Lemma wp_StatusPollRingOnly sent g w : inv sent g w -> wp StatusPollRingOnly (safe_keeps sent w) w.
Proof.
  intros H. unfold StatusPollRingOnly. apply wp_bind. eapply wp_ok; [done|].
  generalize (S (length (sched w))) as fuel. intros fuel. revert g w H.
  induction fuel as [|fuel IH]; intros g w H; [done|]. cbn [poll_ring_loop]. apply wp_bind.
  destruct (gQ g) as [|ev q] eqn:Hq.
  { eapply wp_ok; [by eapply next_none|]. by exists g. }
  destruct (handle_pop_safe sent g w ev q H Hq) as (w1 & w2 & E0 & E1 & E2 & Hi & Hk).
  eapply wp_ok; [done|]. apply wp_bind. eapply wp_ok; [done|]. apply wp_bind. eapply wp_ok; [done|].
  apply wp_bind. eapply wp_mono; [by eapply wp_tick|]. intros [] w3 (g3 & H3 & K3).
  eapply wp_mono; [by eapply IH|]. intros [] w4 (g4 & H4 & K4). exists g4. split; [done|].
  etrans; [done|]. by etrans.
Qed.

(** ** Sending a command *)

(** The free space the host computes. *)
Lemma space_value L F : 0 <= F - L <= N - 1 ->
  u32 (u64 (64 * N + pos L - pos F - 64) mod (64 * N)) = 64 * (N - 1 - (F - L)).
Proof.
  intros H. pose proof (pos_range L) as HL. pose proof (pos_range F) as HF.
  rewrite u64_small by lia.
  assert (Hm : (64 * N + pos L - pos F - 64) mod (64 * N) = 64 * ((N + L - F - 1) mod N)).
  { unfold pos. replace (64 * N + 64 * (L mod N) - 64 * (F mod N) - 64)
      with (64 * (N + L mod N - F mod N - 1)) by lia.
    rewrite Zmult_mod_distr_l. f_equal.
    replace (N + L mod N - F mod N - 1) with (L mod N - F mod N + (N - 1)) by lia.
    replace (N + L - F - 1) with (L - F + (N - 1)) by lia.
    rewrite <- (Zplus_mod_idemp_l (L mod N - F mod N)), <- Zminus_mod, Zplus_mod_idemp_l. done. }
  rewrite Hm, Z.mod_small by lia. rewrite u32_small by lia. lia.
Qed.

(** The host asks for the fetch pointer. *)
Definition asked (w : R) : R :=
  set_hw (set_h_replies (h_replies (hw w) ++ [GetReply 0 REG_LASTACK]) (hw w)) (set_getresult_flag 0 w).

Lemma asked_inv sent g w : inv sent g w -> inv sent g (asked w).
Proof.
  intros [[] [] Ht Hd]. constructor; [constructor; try done|by constructor| |done].
  - intros r. cbn. rewrite elem_of_app, list_elem_of_singleton. intros [Hr|Hr]; [auto|done].
  - by eapply tag_inv_perm; [exact Ht|..].
Qed.

(** The host takes over the free space. *)
Definition spaced (sent : list slot) (g : counts) (w : R) : R :=
  set_cmd_ring (set_cached_space (64 * (N - 1 - (Z.of_nat (length sent) - gL g))) (cmd_ring w)) w.

Lemma spaced_inv sent g w : inv sent g w -> inv sent (g_set_C (gL g) g) (spaced sent g w).
Proof.
  intros [[] [] Ht Hd]. constructor; [constructor; cbn; try done; lia|by constructor| |done].
  by eapply tag_inv_perm; [exact Ht|..].
Qed.

Lemma space_computed sent g w : inv sent g w ->
  u32 (u64 (size (cmd_ring w) + last (cmd_ring w) - first (cmd_ring w) - 64) mod size (cmd_ring w))
    = 64 * (N - 1 - (Z.of_nat (length sent) - gL g)).
Proof.
  intros [[] _ _ _]. rewrite ci_size0, ci_last0, ci_first0. apply space_value. lia.
Qed.

(** When the host does not ask, there is space. *)
Lemma no_query_room sent g w : inv sent g w ->
  cached_space (cmd_ring w) mod (Z.shiftr (size (cmd_ring w)) 2) <> 0 ->
  Z.of_nat (length sent) - gC g <= N - 2.
Proof.
  intros [[] _ _ _] E. rewrite ci_space0, ci_size0 in E.
  destruct (decide (Z.of_nat (length sent) - gC g = N - 1)) as [E'|]; [|lia].
  rewrite E', Z.sub_diag in E. by destruct E.
Qed.

Lemma wp_space_loop sent fuel : forall g w, inv sent g w ->
  wp (space_loop fuel) (fun _ w' => exists g', inv sent g' w' /\ keeps w w' /\
        Z.of_nat (length sent) - gC g' <= N - 2) w.
Proof.
  induction fuel as [|fuel IH]; intros g w H; cbn [space_loop]; apply wp_bind; (eapply wp_ok; [done|]);
    cbv zeta; (destruct (decide _) as [E|E]; [|by exists g; split_and!; [|..|by eapply no_query_room]]); [done|].
  rewrite (ci_id _ _ _ (i_cmd _ _ _ H)). apply wp_bind. eapply wp_ok; [done|].
  apply wp_bind. eapply wp_ok; [done|]. apply wp_bind. unfold wait. apply wp_bind. eapply wp_ok; [done|].
  match goal with |- wp _ _ ?v => change v with (asked w) end.
  eapply wp_mono; [by eapply wp_wait, asked_inv|]. intros [] w2 (g2 & H2 & K2).
  apply wp_bind. eapply wp_ok; [done|]. cbv zeta. rewrite (space_computed sent g2 w2 H2).
  apply wp_bind. eapply wp_ok; [done|]. fold (spaced sent g2 w2).
  pose proof (spaced_inv sent g2 w2 H2) as H3.
  assert (K3 : keeps w (spaced sent g2 w2)) by (destruct K2; by split).
  case_decide as E3.
  - exists (g_set_C (gL g2) g2). split; [done|]. split; [done|]. cbn. destruct H2 as [[] _ _ _]. lia.
  - eapply wp_mono; [by eapply IH|]. intros [] w4 (g4 & H4 & K4 & Hroom).
    exists g4. split; [done|]. split; [by etrans|done].
Qed.

(** The command as it is put into the ring. *)
Definition tagged (t : Z) (cmd : slot) : slot := <[7%nat := t]> cmd.

Lemma tag_of_tagged t cmd : length cmd = 8%nat -> 1 <= t < 1024 -> tag_of (tagged t cmd) = t.
Proof.
  intros Hl Ht. unfold tag_of, word7, tagged. rewrite list_lookup_insert_eq by lia. cbn.
  rewrite land_ffff. apply Z.mod_small. lia.
Qed.

(** The tags after the first free one was given to a command. *)
Lemma tag_inv_send sent g w t l p cmd fp a w' :
  tag_inv sent g w -> gA g <= Z.of_nat (length sent) -> freelist w = t :: l -> length cmd = 8%nat ->
  cb_ok w fp a -> znth (completion w) t = Some p ->
  completion w' = <[Z.to_nat t := set_arg a (set_finish fp (set_in_use 1 p))]> (completion w) ->
  freelist w' = l -> events w' = events w -> h_running (hw w') = h_running (hw w) ->
  tag_inv (sent ++ [tagged t cmd]) g w'.
Proof.
  intros Ht HA Hf Hcmd Hcb Hp Hc Hf' He Hr.
  pose proof (znth_Some _ _ _ Hp) as Hrange.
  pose proof (flight_range _ _ _ t Ht ltac:(rewrite Hf; left)) as Ht1.
  pose proof (tags_nodup _ _ _ Ht) as Hnd. rewrite Hf in Hnd. cbn in Hnd. apply NoDup_cons in Hnd as [Hnt _].
  rewrite elem_of_app in Hnt. destruct Ht. constructor.
  - rewrite Hf', <- ti_perm0, Hf. unfold in_flight. rewrite Hr, drop_app_le, fmap_app by lia. cbn.
    rewrite tag_of_tagged by done. solve_Permutation.
  - by rewrite Hc, length_insert.
  - intros t' e Ht' H1. rewrite Hc in Ht'. rewrite Hf'.
    assert (Hz : znth (<[Z.to_nat t := set_arg a (set_finish fp (set_in_use 1 p))]> (completion w)) t' =
      if decide (t' = t) then Some (set_arg a (set_finish fp (set_in_use 1 p))) else znth (completion w) t').
    { case_decide as E; [subst t'; apply (znth_zupd_eq (completion w)); by apply zupd_Some|].
      eapply znth_zupd_ne; [by apply zupd_Some|congruence]. }
    rewrite Hz in Ht'. clear Hz. case_decide as E.
    + injection Ht' as <-. subst t'. destruct (ti_entry0 _ p Hp H1) as (Htag & _ & _).
      split; [done|]. split; [tauto|]. intros _. split; [done|]. unfold cb_ok in *. cbn. by rewrite He.
    + destruct (ti_entry0 t' e Ht' H1) as (? & H2 & H3). rewrite Hf in H2, H3. split; [done|]. split.
      * intros H4. apply H2. by right.
      * intros H4. destruct H3 as [? Hcb']; [by intros [? | ?]%elem_of_cons|]. split; [done|].
        unfold cb_ok in *. by rewrite He.
Qed.

Lemma get_free_ok sent g w t l : inv sent g w -> freelist w = t :: l -> exists p,
  znth (completion w) t = Some p /\ tag p = t /\
  get_free_completion w = Ok (Some t)
    (set_completion (<[Z.to_nat t := set_in_use 1 p]> (completion w)) (set_freelist l w)).
Proof.
  intros [_ _ Ht _] Hf. pose proof (flight_range _ _ _ t Ht ltac:(rewrite Hf; left)) as Ht1.
  destruct Ht. destruct (znth_in_range (completion w) t) as [p Hp]; [lia|].
  destruct (ti_entry0 t p Hp ltac:(lia)) as (Htag & Hfree & _). rewrite Hf in Hfree.
  exists p. split; [done|]. split; [done|]. unfold get_free_completion.
  rewrite (bind_ok getW _ w w w), Hf by done. rewrite (bind_ok (putW _) _ w tt (set_freelist l w)) by done.
  rewrite Hp, bind_defined. rewrite (bind_ok (assert _) _ (set_freelist l w) tt (set_freelist l w)).
  2: { rewrite bool_decide_eq_true_2; [done|]. apply Hfree. left. }
  by rewrite zupd_Some, bind_defined by lia.
Qed.

(** The command ring after a command was put behind the others. *)
Lemma cmd_inv_put sent g w t cmd w' : cmd_inv sent g w -> Z.of_nat (length sent) - gC g <= N - 2 ->
  cmd_mem w' = <[Z.to_nat (Z.of_nat (length sent) mod N) := tagged t cmd]> (cmd_mem w) -> hw w' = hw w ->
  cmd_ring w' = set_cached_space (cached_space (cmd_ring w) - 64)
                  (set_first (pos (Z.of_nat (length sent) + 1)) (cmd_ring w)) ->
  cmd_inv (sent ++ [tagged t cmd]) g w'.
Proof.
  intros [] Hroom Hm Hh Hr. constructor; rewrite ?Hm, ?Hh, ?Hr, ?length_app; cbn; try done; try lia.
  - f_equal. lia.
  - by rewrite length_insert.
  - intros k Hk. rewrite slot_put by done.
    destruct (decide (k = Z.of_nat (length sent))) as [-> | Hne].
    + rewrite decide_True by done. unfold znth. rewrite decide_True by lia. rewrite lookup_app_r by lia.
      by replace (Z.to_nat (Z.of_nat (length sent)) - length sent)%nat with 0%nat by lia.
    + rewrite decide_False; [|intros E%mod_inj; lia]. rewrite ci_mem0 by lia.
      unfold znth. rewrite !decide_True by lia. by rewrite lookup_app_l by lia.
  - rewrite ci_fetched0. rewrite take_app_le by lia. done.
Qed.

Lemma put_ok sent g w t l cmd fp a :
  inv sent g w -> Z.of_nat (length sent) - gC g <= N - 2 -> freelist w = t :: l -> length cmd = 8%nat ->
  cb_ok w fp a -> exists w', ring_put cmd fp a w = Ok tt w' /\ inv (sent ++ [tagged t cmd]) g w' /\
    freelist w' = l /\ events w' = events w /\ sched w' = sched w /\ hw w' = hw w /\
    znth (completion w') t = Some {| tag := t; in_use := 1; finish := fp; arg := a |}.
Proof.
  intros H Hroom Hf Hcmd Hcb. destruct (get_free_ok sent g w t l H Hf) as (p & Hp & Htag & Eg).
  pose proof H as [Hc Hs Ht Hd]. pose proof Hc as []. pose proof (znth_Some _ _ _ Hp) as Hrange.
  pose proof (pos_range (Z.of_nat (length sent))).
  assert (Hnext : (if decide (u32 (pos (Z.of_nat (length sent)) + 64) = 64 * N) then 0
                   else u32 (pos (Z.of_nat (length sent)) + 64)) = pos (Z.of_nat (length sent) + 1)).
  { rewrite <- pos_advance. unfold advance. rewrite u32_small by lia. repeat case_decide; lia. }
  set (p' := set_arg a (set_finish fp (set_in_use 1 p))).
  set (c1 := <[Z.to_nat t := set_in_use 1 p]> (completion w)).
  assert (Hc1 : znth c1 t = Some (set_in_use 1 p)) by (apply (znth_zupd_eq (completion w)); by apply zupd_Some).
  assert (Hc2 : zupd c1 t p' = Some (<[Z.to_nat t := p']> c1))
    by (apply zupd_Some; unfold c1; rewrite length_insert; lia).
  eexists. split.
  { unfold ring_put. rewrite (bind_ok _ _ _ _ _ Eg). unfold mbind, M_bind, getW.
    cbn [completion cmd_ring cmd_mem set_completion set_freelist]. fold c1. rewrite Hc1. cbn [defined].
    fold p'. rewrite Hc2. cbn [defined tag set_in_use]. rewrite Htag, ci_first0, put_slot_pos by done.
    cbn [defined]. rewrite ci_size0, Hnext, ci_space0, u32_small by lia. reflexivity. }
  split_and!; try done.
  - constructor; [| | |done].
    + apply (cmd_inv_put sent g w); try done. cbn. by rewrite ci_space0.
    + destruct Hs. by constructor.
    + eapply (tag_inv_send sent g w t l p cmd fp a); try done; [lia|]. cbn. unfold c1.
      by rewrite list_insert_insert_eq.
  - cbn. transitivity (Some p'); [by apply (znth_zupd_eq c1)|]. unfold p', set_arg. cbn. by rewrite Htag.
Qed.

Lemma wp_ring_send sent g w t l cmd fp a :
  inv sent g w -> freelist w = t :: l -> length cmd = 8%nat -> cb_ok w fp a ->
  wp (ring_send cmd fp a) (fun _ w' => exists g', inv (sent ++ [tagged t cmd]) g' w' /\
        (exists l', freelist w' = l ++ l') /\
        forall p, is_Some (events w !! p) -> is_Some (events w' !! p)) w.
Proof.
  intros H Hf Hcmd Hcb. unfold ring_send. apply wp_bind. eapply wp_ok; [done|].
  apply wp_bind. apply wp_assert.
  { apply bool_decide_eq_true_2. destruct H as [[] _ _ _]. rewrite ci_first0, ci_size0.
    pose proof (pos_range (Z.of_nat (length sent))). lia. }
  apply wp_bind. eapply wp_mono; [by eapply wp_space_loop|]. cbv beta.
  intros [] w1 (g1 & H1 & [[l' Hl'] Hev] & Hroom). rewrite Hf in Hl'. cbn in Hl'.
  destruct (put_ok sent g1 w1 t (l ++ l') cmd fp a H1 Hroom Hl' Hcmd) as (w2 & E & H2 & Hf2 & He2 & _).
  { by eapply cb_ok_mono. }
  eapply wp_ok; [exact E|]. exists g1. split; [done|]. split; [by exists l'|]. by rewrite He2.
Qed.

Definition started (w : R) : R := set_hw (set_hc_first (first (cmd_ring w)) (hw w)) w.

Lemma start_inv sent g w : inv sent g w ->
  STARTRING w = Ok tt (started w) /\ inv sent (g_set_S (Z.of_nat (length sent)) g) (started w) /\
  keeps w (started w).
Proof.
  intros [Hc Hs Ht Hd]. split; [done|]. split; [|by apply keeps_same]. destruct Hc.
  constructor; [constructor; cbn; try done; lia|by destruct Hs; constructor| |done].
  by eapply tag_inv_perm; [exact Ht|..].
Qed.

(** ** Bringing the rings up *)

(** No command and no register access is on its way, and the host does not look
    at the status ring yet. *)
Record quiet (w : R) : Prop := {
  q_fetch : hc_last (hw w) = hc_first (hw w);
  q_running : h_running (hw w) = [];
  q_replies : h_replies (hw w) = [];
  q_done : ring_init_done w = false
}.

Definition upd (w : R) (s : list (list hw_action)) (f : Z) (h : Hw) : R :=
  set_hw h (set_setresult_flag f (set_sched s w)).

(** While the host waits for the answer to a register write: not answered, or answered. *)
Definition waiting (w : R) (id reg v : Z) (w' : R) : Prop := exists s,
  w' = upd w s 0 (set_h_replies [SetReply id reg v] (hw w)) \/ w' = upd w s 1 (set_reg id reg v (hw w)).

Lemma set_reg_idle id reg v h :
  h_replies (set_reg id reg v h) = h_replies h /\ h_running (set_reg id reg v h) = h_running h /\
  hc_last (set_reg id reg v h) = hc_last h /\ hc_first (set_reg id reg v h) = hc_first h.
Proof. unfold set_reg. repeat case_decide; done. Qed.

Lemma complete_waiting ev w : h_running (hw w) = [] -> complete ev w = Ok tt w.
Proof.
  intros H. unfold complete. rewrite (bind_ok getW _ w w w) by done. cbv zeta.
  rewrite decide_False; [done|]. intros (_ & _ & Hin). rewrite H in Hin. by apply elem_of_nil in Hin.
Qed.

Lemma act_waiting w id reg v a w1 : quiet w -> waiting w id reg v w1 ->
  exists w2, act a w1 = Ok tt w2 /\ waiting w id reg v w2.
Proof.
  intros [] [s Hs]. pose proof (set_reg_idle id reg v (hw w)) as (E1 & E2 & E3 & E4).
  destruct Hs as [-> | ->]; unfold act; rewrite (bind_ok getW _ _ _ _ eq_refl); cbv zeta; destruct a as [| |ev|].
  - rewrite decide_True by done. eexists. split; [done|]. exists s. by left.
  - eexists. split; [done|]. exists s. right. unfold upd. cbn. f_equal. unfold set_reg.
    destruct (hw w); cbn in *; subst; repeat case_decide; done.
  - rewrite complete_waiting by done. eexists. split; [done|]. exists s. by left.
  - cbn. rewrite q_running0. eexists. split; [done|]. exists s. by left.
  - cbn. rewrite decide_True by congruence. eexists. split; [done|]. exists s. by right.
  - cbn. rewrite E1, q_replies0. eexists. split; [done|]. exists s. by right.
  - rewrite complete_waiting by (cbn; congruence). eexists. split; [done|]. exists s. by right.
  - cbn. rewrite E2, q_running0. eexists. split; [done|]. exists s. by right.
Qed.

Lemma acts_waiting w id reg v l : forall w1, quiet w -> waiting w id reg v w1 ->
  exists w2, acts l w1 = Ok tt w2 /\ waiting w id reg v w2.
Proof.
  induction l as [|a l IH]; intros w1 Hq H; [by exists w1|]. cbn [acts].
  destruct (act_waiting w id reg v a w1 Hq H) as (w2 & E & H2).
  rewrite (bind_ok _ _ _ _ _ E). by apply IH.
Qed.

Lemma wp_waiting w id reg v fuel : forall w1, quiet w -> waiting w id reg v w1 ->
  wp (waitforflag fuel setresult_flag)
     (fun _ w2 => exists s, w2 = upd w s 1 (set_reg id reg v (hw w))) w1.
Proof.
  intros w1 Hq. revert w1. induction fuel as [|fuel IH]; intros w1 H; cbn [waitforflag]; apply wp_bind;
    (eapply wp_ok; [done|]); case_decide as E.
  1, 3: destruct H as [s [-> | ->]]; [done|by exists s].
  { done. }
  apply wp_bind. unfold StatusPoll. apply wp_bind. unfold tick. apply wp_bind. eapply wp_ok; [done|].
  destruct (sched w1) as [|l s] eqn:Es; [done|]. apply wp_bind. eapply wp_ok; [done|].
  assert (H' : waiting w id reg v (set_sched s w1)).
  { destruct H as [s' [-> | ->]]; exists s; [left|right]; done. }
  destruct (acts_waiting w id reg v l _ Hq H') as (w2 & E2 & H2). eapply wp_ok; [done|].
  apply wp_bind. eapply wp_ok; [done|].
  assert (ring_init_done w2 = false) as -> by (destruct H2 as [s' [-> | ->]]; apply Hq).
  apply wp_ret. by apply IH.
Qed.

Lemma wp_set_and_wait w id reg v : quiet w ->
  wp (set_and_wait id reg v) (fun _ w2 => exists s, w2 = upd w s 1 (set_reg id reg v (hw w)) /\ quiet w2) w.
Proof.
  intros Hq. unfold set_and_wait. apply wp_bind. eapply wp_ok; [done|]. apply wp_bind. eapply wp_ok; [done|].
  unfold wait. apply wp_bind. eapply wp_ok; [done|]. eapply wp_mono.
  - apply (wp_waiting w id reg v); [done|]. exists (sched w). left. destruct Hq. unfold upd. cbn. rewrite q_replies0.
    by destruct w.
  - intros [] w2 (s & ->). exists s. split; [done|]. destruct Hq.
    pose proof (set_reg_idle id reg v (hw w)) as (E1 & E2 & E3 & E4). constructor; cbn; congruence.
Qed.
End RingInv.
