(* ===== verification/RingProgram.v ===== *)
(** Programs of the host of [examples/ring/testring.cpp]: bringing the rings up
    establishes the invariant of the rings, any sequence of sends and polls
    keeps it, and so do the blocking commands and the fast echo test. *)

From stdpp Require Import base gmap list option fin_maps.
From Stdlib Require Import ZArith Lia.
From S2P Require Import Prelude Ring RingSafe.

(** * Bringing the rings up *)

Definition completion_at (t : Z) : Ring_Completion := {| tag := t; in_use := 0; finish := None; arg := None |}.

Lemma list_init_ok todo : forall i w, 0 <= i -> i + Z.of_nat todo <= Z.of_nat (length (completion w)) ->
  exists c, list_init todo i w = Some (set_freelist (freelist w ++ seqZ i (Z.of_nat todo)) (set_completion c w)) /\
    length c = length (completion w) /\
    (forall t, i <= t < i + Z.of_nat todo -> znth c t = Some (completion_at t)) /\
    (forall t, t < i -> znth c t = znth (completion w) t).
Proof.
  induction todo as [|todo IH]; intros i w Hi Hl.
  - exists (completion w). cbn. rewrite app_nil_r. split; [by destruct w|]. split_and!; [done| |done]. lia.
  - cbn [list_init]. rewrite zupd_Some by lia. cbn [mbind option_bind].
    set (c1 := <[Z.to_nat i := _]> (completion w)).
    destruct (IH (i + 1) (set_freelist (freelist w ++ [i]) (set_completion c1 w))) as (c & E & H1 & H2 & H3).
    { lia. } { cbn. unfold c1. rewrite length_insert. lia. }
    cbn in H1, H3. assert (Hu : zupd (completion w) i (completion_at i) = Some c1) by (apply zupd_Some; lia).
    exists c. split; [|split; [|split]].
    + rewrite E. f_equal. rewrite (seqZ_cons i) by lia.
      replace (Z.pred (Z.of_nat (S todo))) with (Z.of_nat todo) by lia.
      cbn. rewrite <- app_assoc. by destruct w.
    + rewrite H1. unfold c1. by rewrite length_insert.
    + intros t Ht. destruct (decide (t = i)) as [-> | Hne]; [|apply H2; lia].
      rewrite H3 by lia. by eapply znth_zupd_eq.
    + intros t Ht. rewrite H3 by lia. eapply znth_zupd_ne; [exact Hu|lia].
Qed.

Section Start.
Variable N : Z.
Hypothesis N_range : 1 <= N < 2 ^ 24.

Definition fresh_ring (id rf sz : Z) : SWRing :=
  {| ref := rf; first := 0; last := 0; size := sz; slots := sz / 64; cached_space := u32 (sz - 64);
     ringid := id |}.

Lemma wp_cmd_init w rf sz : quiet w ->
  wp (ring_init set_cmd_ring 0 rf sz) (fun _ w' => quiet w' /\ exists s,
        w' = upd (set_cmd_ring (fresh_ring 0 rf sz) w) s 1
               (set_hc_last 0 (set_hc_first 0 (set_hc_end sz (hw w))))) w.
Proof.
  intros Hq. unfold ring_init. apply wp_bind. eapply wp_ok; [done|].
  assert (Hq0 : quiet (set_cmd_ring (fresh_ring 0 rf sz) w)) by (destruct Hq; by constructor).
  apply wp_bind. eapply wp_mono; [by apply wp_set_and_wait|]. intros [] w1 (s1 & -> & Hq1).
  apply wp_bind. eapply wp_mono; [by apply wp_set_and_wait|]. intros [] w2 (s2 & -> & Hq2).
  apply wp_bind. rewrite decide_True by done. eapply wp_ok; [done|].
  match goal with |- wp _ _ ?w3 => assert (Hq3 : quiet w3) by (by destruct Hq2; constructor) end.
  apply wp_bind. eapply wp_mono; [by apply wp_set_and_wait|]. intros [] w4 (s4 & -> & Hq4).
  eapply wp_mono; [by apply wp_set_and_wait|]. intros [] w5 (s5 & -> & Hq5).
  split; [done|]. exists s5. done.
Qed.

Lemma wp_status_init w rf sz : quiet w ->
  wp (ring_init set_status_ring 1 rf sz) (fun _ w' => quiet w' /\ exists s,
        w' = upd (set_status_ring (fresh_ring 1 rf sz) w) s 1
               (set_hs_last 0 (set_hs_first 0 (set_hs_end sz (hw w))))) w.
Proof.
  intros Hq. unfold ring_init. apply wp_bind. eapply wp_ok; [done|].
  assert (Hq0 : quiet (set_status_ring (fresh_ring 1 rf sz) w)) by (destruct Hq; by constructor).
  apply wp_bind. eapply wp_mono; [by apply wp_set_and_wait|]. intros [] w1 (s1 & -> & Hq1).
  apply wp_bind. eapply wp_mono; [by apply wp_set_and_wait|]. intros [] w2 (s2 & -> & Hq2).
  apply wp_bind. rewrite decide_False by done. eapply wp_ok; [done|].
  match goal with |- wp _ _ ?w3 => assert (Hq3 : quiet w3) by (by destruct Hq2; constructor) end.
  apply wp_bind. eapply wp_mono; [by apply wp_set_and_wait|]. intros [] w4 (s4 & -> & Hq4).
  eapply wp_mono; [by apply wp_set_and_wait|]. intros [] w5 (s5 & -> & Hq5).
  split; [done|]. exists s5. done.
Qed.

Lemma pos_0 : pos N 0 = 0.
Proof. unfold pos. by rewrite Z.mod_0_l by lia. Qed.

(** The state [main] starts from: rings of [N] slots, no status record in
    memory, and hardware that has nothing to do. *)
Record unstarted (w : R) : Prop := {
  u_quiet : quiet w;
  u_fetched : h_fetched (hw w) = [];
  u_completion : length (completion w) = 1024%nat;
  u_cmd : Z.of_nat (length (cmd_mem w)) = N;
  u_status : Z.of_nat (length (status_mem w)) = N;
  u_clear : forall s, s ∈ status_mem w -> word7 s = 0
}.

Definition no_counts : counts :=
  {| gC := 0; gL := 0; gA := 0; gS := 0; gD' := 0; gD := 0; gE := 0; gQ := [] |}.

Lemma wp_ring_start w rf rf' : unstarted w ->
  wp (ring_start rf rf' (64 * N)) (fun _ w' => inv N [] no_counts w' /\ freelist w' = seqZ 1 1023 /\
        events w' = events w) w.
Proof.
  intros [Hq Hf Hc Hm Hs Hz]. unfold ring_start. apply wp_bind.
  destruct (list_init_ok 1023 1 (set_freelist [] w)) as (c & E & H1 & H2 & _); [lia|cbn; lia|].
  eapply wp_ok; [by unfold completion_list_init; rewrite E|]. cbn in H1.
  match goal with |- wp _ _ ?w1 => assert (Hq1 : quiet w1) by (by destruct Hq; constructor) end.
  apply wp_bind. eapply wp_mono; [by apply wp_cmd_init|]. intros [] w2 (Hq2 & s2 & ->).
  apply wp_bind. eapply wp_mono; [by apply wp_status_init|]. intros [] w3 (Hq3 & s3 & ->).
  eapply wp_ok; [done|]. split; [|done].
  constructor; [| | |done].
  - constructor; cbn -[pos]; rewrite ?pos_0; try done; try lia.
    + rewrite u32_small by lia. lia.
    + rewrite (q_replies _ Hq). intros r Hr. by apply elem_of_nil in Hr.
  - constructor; cbn -[pos]; rewrite ?pos_0; try done; try lia.
    + intros i ev Hi. pose proof (znth_Some _ _ _ Hi) as Hr. cbn in Hr. lia.
    + intros k Hk. rewrite (slot_at_pos N N_range).
      destruct (znth_in_range (status_mem w) (k mod N)) as [s Es].
      { pose proof (Z.mod_pos_bound k N ltac:(lia)). lia. }
      exists s. split; [done|]. apply Hz. unfold znth in Es. case_decide; [|done].
      by apply list_elem_of_lookup_2 in Es.
  - constructor.
    + unfold in_flight. cbn -[seqZ]. by rewrite (q_running _ Hq), app_nil_r.
    + cbn. lia.
    + cbn -[seqZ]. intros t p Ht Hge. pose proof (znth_Some _ _ _ Ht) as Hr. rewrite H1 in Hr.
      rewrite H2 in Ht by lia. injection Ht as <-. split; [done|]. split; [done|].
      intros Hn. destruct Hn. apply elem_of_seqZ. lia.
Qed.
End Start.

(** * Programs of the host *)

Inductive host_op : Type :=
| OpSend (cmd : slot) (fp : option finish_fn) (a : option Z)
| OpStart | OpPoll | OpPollRing.

Definition run_op (o : host_op) : M R unit :=
  match o with
  | OpSend cmd fp a => ring_send cmd fp a
  | OpStart => STARTRING
  | OpPoll => StatusPoll
  | OpPollRing => StatusPollRingOnly
  end.

Fixpoint run (ops : list host_op) : M R unit :=
  match ops with [] => mret tt | o :: ops => run_op o ;; run ops end.

(** The commands a program sends. *)
Definition sends (ops : list host_op) : list slot :=
  omap (fun o => match o with OpSend cmd _ _ => Some cmd | _ => None end) ops.

(** A command has eight words, and its callback an argument it can use. *)
Definition op_ok (w : R) (o : host_op) : Prop :=
  match o with OpSend cmd fp a => length cmd = 8%nat /\ cb_ok w fp a | _ => True end.

(** [s] is [cmd] with a tag in its last word. *)
Definition carries (cmd s : slot) : Prop := exists t, 1 <= t < 1024 /\ s = <[7%nat := t]> cmd.

Section Programs.
Variable N : Z.
Hypothesis N_range : 1 <= N < 2 ^ 24.

Lemma op_ok_mono w w' o : (forall p, is_Some (events w !! p) -> is_Some (events w' !! p)) ->
  op_ok w o -> op_ok w' o.
Proof. intros H. destruct o; cbn; [|done..]. intros [? ?]. split; [done|]. by eapply cb_ok_mono. Qed.

(** One operation: what it sends is sent behind the others. *)
Lemma wp_run_op o sent g w : inv N sent g w -> op_ok w o ->
  (length (sends [o]) <= length (freelist w))%nat ->
  wp (run_op o) (fun _ w' => exists new g', inv N (sent ++ new) g' w' /\ Forall2 carries (sends [o]) new /\
      (length (freelist w) <= length (freelist w') + length (sends [o]))%nat /\
      forall p, is_Some (events w !! p) -> is_Some (events w' !! p)) w.
Proof.
  intros H Hok Hfree.
  assert (Hpoll : forall m, sends [o] = [] -> wp m (safe_keeps N sent w) w ->
    wp m (fun _ w' => exists new g', inv N (sent ++ new) g' w' /\ Forall2 carries (sends [o]) new /\
      (length (freelist w) <= length (freelist w') + length (sends [o]))%nat /\
      forall p, is_Some (events w !! p) -> is_Some (events w' !! p)) w).
  { intros m E Hm. eapply wp_mono; [exact Hm|]. intros [] w' (g' & H' & [l Hl] & He).
    exists [], g'. rewrite app_nil_r, E, Hl, length_app. cbn. split; [done|]. split; [constructor|]. split; [lia|done]. }
  destruct o as [cmd fp a| | |]; cbn [run_op].
  - destruct Hok as [Hlen Hcb]. cbn in Hfree. destruct (freelist w) as [|t l] eqn:Hf; [cbn in Hfree; lia|].
    assert (Ht : 1 <= t < 1024) by (eapply flight_range; [apply H|]; rewrite Hf; left).
    eapply wp_mono; [by eapply wp_ring_send|]. intros [] w' (g' & H' & [l' Hl'] & He).
    exists [tagged t cmd], g'. split; [done|]. split; [|split; [rewrite Hl', length_app; cbn; lia|done]].
    apply Forall2_cons. split; [by exists t|done].
  - apply Hpoll; [done|]. destruct (start_inv N sent g w H) as (E & H' & K).
    eapply wp_ok; [exact E|]. by eexists.
  - apply Hpoll; [done|]. by eapply wp_StatusPoll.
  - apply Hpoll; [done|]. by eapply wp_StatusPollRingOnly.
Qed.

Lemma sends_cons o ops : sends (o :: ops) = sends [o] ++ sends ops.
Proof. unfold sends. cbn. by destruct o. Qed.

Lemma wp_run ops : forall sent g w, inv N sent g w -> Forall (op_ok w) ops ->
  (length (sends ops) <= length (freelist w))%nat ->
  wp (run ops) (fun _ w' => exists new g', inv N (sent ++ new) g' w' /\ Forall2 carries (sends ops) new) w.
Proof.
  induction ops as [|o ops IH]; intros sent g w H Hok Hfree; cbn [run].
  - apply wp_ret. exists [], g. rewrite app_nil_r. split; [done|constructor].
  - apply Forall_cons_iff in Hok as [Ho Hok]. rewrite sends_cons, length_app in Hfree.
    apply wp_bind. eapply wp_mono; [eapply wp_run_op; [done|done|lia]|].
    intros [] w1 (new & g1 & H1 & Hn & Hf1 & He1). eapply wp_mono.
    + apply (IH _ g1 w1 H1); [|lia]. eapply Forall_impl; [exact Hok|]. intros o'. by apply op_ok_mono.
    + intros [] w2 (new2 & g2 & H2 & Hn2). exists (new ++ new2), g2. rewrite app_assoc, sends_cons.
      split; [done|]. by apply Forall2_app.
Qed.

(** ** The fast echo test *)

Definition events_kept (w w' : R) : Prop := forall p, is_Some (events w !! p) -> is_Some (events w' !! p).

(** Changes outside the rings. *)
Lemma inv_sched sent g w s : inv N sent g w -> inv N sent g (set_sched s w).
Proof.
  intros [[] [] Ht Hd]. constructor; [by constructor|by constructor| |done].
  by apply (tag_inv_perm sent g w).
Qed.

Lemma inv_total sent g w n : inv N sent g w -> inv N sent g (set_totalCompletions n w).
Proof.
  intros [[] [] Ht Hd]. constructor; [by constructor|by constructor| |done].
  by apply (tag_inv_perm sent g w).
Qed.

Lemma inv_events sent g w m : inv N sent g w ->
  (forall p, is_Some (events w !! p) -> is_Some (m !! p)) -> inv N sent g (set_events m w).
Proof.
  intros [[] [] [] Hd] Hm. constructor; [by constructor|by constructor| |done].
  constructor; [done|done|]. intros t p Hp H1. destruct (ti_entry t p Hp H1) as (? & ? & H2).
  split; [done|]. split; [done|]. intros Hn. destruct (H2 Hn) as [? Hcb]. split; [done|].
  by eapply cb_ok_mono.
Qed.

Lemma insert_kept {A} (m : gmap Z A) p x q : is_Some (m !! q) -> is_Some (<[p := x]> m !! q).
Proof. intros H. destruct (decide (q = p)) as [-> | ]; [by rewrite lookup_insert_eq|by rewrite lookup_insert_ne]. Qed.

Lemma wp_expect sent base todo : forall i g w, inv N sent g w ->
  wp (expect_loop base todo i) (fun _ w' => inv N sent g w' /\ freelist w' = freelist w /\ events_kept w w' /\
        forall j, i <= j < i + Z.of_nat todo -> is_Some (events w' !! (base + j))) w.
Proof.
  induction todo as [|todo IH]; intros i g w H; cbn [expect_loop].
  - apply wp_ret. split_and!; [done|done|by intros p|lia].
  - apply wp_bind. eapply wp_ok; [done|]. cbv zeta. eapply wp_mono.
    + apply (IH (i + 1) g), inv_events; [done|]. intros p Hp. by apply insert_kept.
    + intros [] w' (H' & Hf & Hk & Hj). split_and!; [done|done| |].
      * intros p Hp. apply Hk. cbn. by apply insert_kept.
      * intros j Hr. destruct (decide (j = i)) as [-> | ]; [|apply Hj; lia].
        apply Hk. cbn. by rewrite lookup_insert_eq.
Qed.

Lemma wp_send_loop junk base todo : forall i sent g w, inv N sent g w ->
  (todo <= length (freelist w))%nat ->
  (forall j, i <= j < i + Z.of_nat todo -> is_Some (events w !! (base + j))) ->
  wp (send_loop junk base todo i) (fun _ w' => exists new g', inv N (sent ++ new) g' w' /\ length new = todo) w.
Proof.
  induction todo as [|todo IH]; intros i sent g w H Hfree Hev; cbn [send_loop].
  { apply wp_ret. exists [], g. by rewrite app_nil_r. }
  apply wp_bind. eapply wp_ok; [done|]. destruct (Hev i ltac:(lia)) as [e He].
  apply wp_bind. eapply wp_defined; [exact He|]. apply wp_bind.
  eapply wp_mono; [apply (wp_run_op (OpSend (echo_cmd junk (exp_a e) (exp_b e)) (Some EchoFinish) (Some (base + i))) sent g w H)|].
  { split; [done|]. cbn. eauto. } { cbn. lia. }
  intros [] w1 (new1 & g1 & H1 & Hn1 & Hf1 & Hk1). cbn in Hf1.
  pose proof (Forall2_length _ _ _ Hn1) as Hl1. cbn in Hl1.
  apply wp_bind. eapply wp_mono.
  { instantiate (1 := safe_keeps N (sent ++ new1) w1). destruct (decide _); [|apply wp_ret; exists g1; by split].
    destruct (start_inv N _ g1 w1 H1) as (E & H' & K). eapply wp_ok; [exact E|]. by eexists. }
  intros [] w2 (g2 & H2 & [l2 Hl2] & Hk2). apply wp_bind. eapply wp_mono; [by eapply wp_StatusPollRingOnly|].
  intros [] w3 (g3 & H3 & [l3 Hl3] & Hk3). eapply wp_mono.
  - apply (IH (i + 1) (sent ++ new1) g3 w3 H3).
    + rewrite Hl3, Hl2, !length_app. lia.
    + intros j Hj. apply Hk3, Hk2, Hk1, Hev. lia.
  - intros [] w4 (new & g4 & H4 & Hl4). exists (new1 ++ new), g4. rewrite app_assoc. split; [done|].
    rewrite length_app. lia.
Qed.

Lemma wp_completions sent loops fuel : forall g w, inv N sent g w ->
  wp (completions_loop fuel loops) (fun _ w' => exists g', inv N sent g' w' /\ totalCompletions w' = loops) w.
Proof.
  induction fuel as [|fuel IH]; intros g w H; cbn [completions_loop]; apply wp_bind; (eapply wp_ok; [done|]);
    (destruct (decide _) as [E|E]; [by exists g|]); [done|].
  apply wp_bind. eapply wp_mono; [by eapply wp_StatusPollRingOnly|]. intros [] w1 (g1 & H1 & _).
  apply wp_bind. eapply wp_mono; [by eapply wp_tick|]. intros [] w2 (g2 & H2 & _). by eapply IH.
Qed.

Lemma wp_fast_echo junk base loops sent g w : inv N sent g w -> (loops <= length (freelist w))%nat ->
  wp (fast_echo_round junk base loops) (fun _ w' => exists new g', inv N (sent ++ new) g' w' /\
        length new = loops /\ totalCompletions w' = Z.of_nat loops) w.
Proof.
  intros H Hfree. unfold fast_echo_round. apply wp_bind. eapply wp_mono; [by apply (wp_expect sent base loops 0 g)|].
  intros [] w1 (H1 & Hf1 & _ & Hj1). apply wp_bind. eapply wp_ok; [done|].
  pose proof (inv_total sent g w1 0 H1) as H2.
  apply wp_bind. eapply wp_mono; [apply (wp_send_loop junk base loops 0 sent g _ H2); [cbn; by rewrite Hf1|exact Hj1]|].
  intros [] w3 (new & g3 & H3 & Hl3). apply wp_bind. destruct (start_inv N _ g3 w3 H3) as (E & H4 & _).
  eapply wp_ok; [exact E|]. apply wp_bind. eapply wp_ok; [done|]. apply wp_bind.
  eapply wp_mono; [by eapply wp_completions|]. intros [] w5 (g5 & H5 & Ht). apply wp_bind. eapply wp_ok; [done|].
  apply wp_ret. by exists new, g5.
Qed.
End Programs.

(** C5: Whatever the hardware's timing, no command is lost, overwritten or
    reordered and no completion is mixed up.  After [main] has brought the rings
    of [N] slots up, every sequence of sends, starts and polls with at most 1023
    commands of eight words runs without a failed assertion or a wild access (it
    can only wait for ever for hardware that stops); the hardware has fetched
    the first [k] commands, as they were sent and in the order of sending; the
    others are in the ring, each in its slot; and no tag is free and in use, or
    in use twice. *)
Theorem ring_commands_fifo (N rf rf' : Z) (w : R) (ops : list host_op) :
  1 <= N < 2 ^ 24 -> unstarted N w -> Forall (op_ok w) ops -> (length (sends ops) <= 1023)%nat ->
  wp (ring_start rf rf' (64 * N) ;; run ops) (fun _ w' => exists sent k,
    Forall2 carries (sends ops) sent /\ (k <= length sent)%nat /\
    h_fetched (hw w') = take k sent /\
    (forall i, (k <= i < length sent)%nat -> slot_at (cmd_mem w') (64 * (Z.of_nat i mod N)) = sent !! i) /\
    NoDup (freelist w' ++ (tag_of <$> drop k sent) ++ h_running (hw w'))) w.
Proof.
  intros HN Hw Hok Hlen. apply wp_bind. eapply wp_mono; [by apply wp_ring_start|].
  intros [] w1 (H1 & Hf & He). eapply wp_mono.
  - apply (wp_run N HN ops [] no_counts w1 H1).
    + eapply Forall_impl; [exact Hok|]. intros o. apply op_ok_mono. by rewrite He.
    + rewrite Hf, length_seqZ. lia.
  - intros [] w2 (sent & g & H2 & Hs). cbn in H2. exists sent, (Z.to_nat (gA g)).
    pose proof (i_cmd _ _ _ _ H2) as [Ho _ _ _ _ _ _ _ _ _ _ Hm Hft _]. split_and!; [done|lia|done| |].
    + intros i Hi. change (64 * (Z.of_nat i mod N)) with (pos N (Z.of_nat i)). rewrite Hm by lia. unfold znth. rewrite decide_True by lia. by rewrite Nat2Z.id.
    + pose proof (tags_nodup _ _ _ (i_tags _ _ _ _ H2)) as Hnd. unfold in_flight in Hnd.
      rewrite !app_assoc in Hnd. apply NoDup_app in Hnd as [Hnd _]. by rewrite app_assoc.
Qed.

(** A state [main] can start from, with rings of eight slots. *)
Module RingDemo.
Definition no_ring : SWRing :=
  {| ref := 0; first := 0; last := 0; size := 0; slots := 0; cached_space := 0; ringid := 0 |}.
Definition idle_hw : Hw :=
  {| hc_first := 0; hc_last := 0; hc_end := 0; hs_first := 0; hs_last := 0; hs_end := 0;
     h_replies := []; h_fetched := []; h_running := [] |}.
Definition start (s : list (list hw_action)) : R :=
  {| completion := replicate 1024 completion_zero; freelist := []; setresult_flag := 0;
     getresult_flag := 0; cmd_ring := no_ring; status_ring := no_ring;
     cmd_mem := replicate 8 (replicate 8 0); status_mem := replicate 8 (replicate 8 0);
     ring_init_done := false; flags := ∅; events := ∅; totalCompletions := 0; hw := idle_hw; sched := s |}.

Lemma start_unstarted s : unstarted 8 (start s).
Proof.
  constructor; [by constructor|done|vm_compute; reflexivity|done|done|].
  intros sl Hs. apply elem_of_replicate in Hs as [-> _]. done.
Qed.

Definition demo_ops : list host_op :=
  [OpSend [1; 2; 3; 4; 5; 6; 7; 8] (Some FlagFinish) (Some 100); OpSend [9; 9; 9; 9; 9; 9; 9; 9] None None;
   OpStart; OpPoll; OpPoll; OpPollRing].
Definition demo_sched : list (list hw_action) :=
  replicate 9 [HwReply] ++
  [[HwFetch]; [HwFetch; HwComplete [0; 0; 0; 0; 0; 0; 0; 2]]; [HwComplete [0; 0; 0; 0; 0; 0; 0; 1]]; []].

Lemma ring_commands_fifo_witness :
  (exists w', (ring_start 3 4 512 ;; run demo_ops) (start demo_sched) = Ok tt w' /\ length (h_fetched (hw w')) = 2%nat) /\
  wp (ring_start 3 4 (64 * 8) ;; run demo_ops) (fun _ w' => exists sent k,
    Forall2 carries (sends demo_ops) sent /\ (k <= length sent)%nat /\
    h_fetched (hw w') = take k sent /\
    (forall i, (k <= i < length sent)%nat -> slot_at (cmd_mem w') (64 * (Z.of_nat i mod 8)) = sent !! i) /\
    NoDup (freelist w' ++ (tag_of <$> drop k sent) ++ h_running (hw w'))) (start demo_sched).
Proof.
  split; [eexists; split; vm_compute; reflexivity|].
  apply (ring_commands_fifo 8 3 4); [lia|apply start_unstarted| |vm_compute; lia].
  repeat constructor; cbn; done.
Defined.
End RingDemo.
