(* ===== verification/RingEcho.v ===== *)
(** The echo pass of [examples/ring/testring.cpp] returns and every echo brings
    back what was sent, whatever the latencies of the hardware and however often
    the rings wrap: the schedules of hardware that answers every register
    access, fetches every command and completes it after any number of polls. *)

From stdpp Require Import base gmap list option fin_maps.
From Stdlib Require Import ZArith Lia.
From S2P Require Import Prelude Ring RingSafe RingProgram.

(** * Waiting *)

(** [x] polls in which nothing happens, then one with the actions [l]. *)
Definition after (x : nat) (l : list hw_action) : list (list hw_action) := replicate x [] ++ [l].

Lemma wait_done f n w : f w <> 0 -> waitforflag n f w = Ok tt w.
Proof. intros H. destruct n; cbn [waitforflag]; rewrite (bind_ok getW _ w w w) by done; by rewrite decide_True. Qed.

Lemma wait_poll f n w w' : f w = 0 -> StatusPoll w = Ok tt w' -> waitforflag (S n) f w = waitforflag n f w'.
Proof.
  intros H E. cbn [waitforflag]. rewrite (bind_ok getW _ w w w) by done. rewrite decide_False by tauto.
  by rewrite (bind_ok _ _ _ _ _ E).
Qed.

Lemma tick_cons w l s : sched w = l :: s -> tick w = acts l (set_sched s w).
Proof. intros H. unfold tick. by rewrite (bind_ok getW _ w w w), H by done. Qed.

Lemma acts_one a w w' : act a w = Ok tt w' -> acts [a] w = Ok tt w'.
Proof. intros H. cbn [acts]. by rewrite (bind_ok _ _ _ _ _ H). Qed.

(** ** Register writes before the rings are up *)

Lemma quiet_sched w s : quiet w -> quiet (set_sched s w).
Proof. intros []. by constructor. Qed.

Lemma poll_unstarted w l s w' : sched w = l :: s -> acts l (set_sched s w) = Ok tt w' ->
  ring_init_done w' = false -> StatusPoll w = Ok tt w'.
Proof.
  intros Hs E Hd. unfold StatusPoll. rewrite (bind_ok tick _ w tt w') by (by rewrite (tick_cons _ _ _ Hs)).
  by rewrite (bind_ok getW _ w' w' w'), Hd by done.
Qed.

Lemma set_and_wait_returns w id reg v x s : quiet w -> sched w = after x [HwReply] ++ s ->
  set_and_wait id reg v w = Ok tt (upd w s 1 (set_reg id reg v (hw w))).
Proof.
  intros Hq Hs. unfold set_and_wait, wait.
  rewrite (bind_ok (modifyW _) _ w tt (set_setresult_flag 0 w)) by done.
  set (w1 := upd w (sched w) 0 (set_h_replies [SetReply id reg v] (hw w))).
  rewrite (bind_ok (ring_set _ _ _) _ (set_setresult_flag 0 w) tt w1).
  2: { unfold ring_set, hw_upd, modifyW, w1, upd. cbn. rewrite (q_replies _ Hq). by destruct w. }
  rewrite (bind_ok getW _ w1 w1 w1) by done. cbn [sched w1 upd set_hw set_setresult_flag set_sched].
  rewrite Hs. unfold after. rewrite !length_app, length_replicate, <- !Nat.add_assoc.
  unfold w1. clear w1. rewrite Hs. unfold after. clear Hs. induction x as [|x IH].
  - cbn [replicate app Nat.add length]. erewrite wait_poll; [|done|].
    2: { eapply poll_unstarted; [done| |].
         - apply acts_one. unfold act. rewrite (bind_ok getW _ _ _ _ eq_refl). cbv zeta.
           cbn [hw upd set_hw set_sched h_replies set_h_replies]. reflexivity.
         - cbn. by rewrite (q_done _ Hq). }
    rewrite wait_done by done. f_equal. unfold upd. cbn. f_equal.
    unfold set_reg. pose proof (q_replies _ Hq). destruct (hw w); cbn in *; subst; repeat case_decide; done.
  - cbn [replicate app Nat.add length]. erewrite wait_poll; [apply IH|done|].
    eapply poll_unstarted; [done|reflexivity|]. cbn. by rewrite (q_done _ Hq).
Qed.

(** The four register writes of [ring_init]. *)
Definition init_acts (lat : nat -> nat) : list (list hw_action) :=
  after (lat 0%nat) [HwReply] ++ after (lat 1%nat) [HwReply] ++ after (lat 2%nat) [HwReply] ++
  after (lat 3%nat) [HwReply].

Lemma set_and_wait_quiet w id reg v s : quiet w -> quiet (upd w s 1 (set_reg id reg v (hw w))).
Proof.
  intros []. pose proof (set_reg_idle id reg v (hw w)) as (E1 & E2 & E3 & E4). constructor; cbn; congruence.
Qed.

Lemma ring_init_returns put id rf sz lat s w :
  (forall r w, quiet w -> quiet (put r w)) -> (forall r w, sched (put r w) = sched w) ->
  quiet w -> sched w = init_acts lat ++ s ->
  exists w', ring_init put id rf sz w = Ok tt w' /\ quiet w' /\ sched w' = s.
Proof.
  intros Hp Hps Hq Hs. unfold ring_init. rewrite (bind_ok (modifyW _) _ _ _ _ eq_refl).
  match goal with |- exists _, (_ ≫= _) ?v = _ /\ _ => set (w0 := v) end.
  assert (Hq0 : quiet w0) by (by apply Hp). assert (Hs0 : sched w0 = init_acts lat ++ s) by (unfold w0; by rewrite Hps).
  unfold init_acts in Hs0. rewrite <- !app_assoc in Hs0. clearbody w0.
  rewrite (bind_ok _ _ _ _ _ (set_and_wait_returns w0 id REG_BASE 0 _ _ Hq0 Hs0)).
  match goal with |- exists _, (_ ≫= _) ?v = _ /\ _ => set (w1 := v) end.
  assert (Hq1 : quiet w1) by (by apply set_and_wait_quiet).
  rewrite (bind_ok _ _ _ _ _ (set_and_wait_returns w1 id REG_END sz _ _ Hq1 eq_refl)).
  match goal with |- exists _, (_ ≫= _) ?v = _ /\ _ => set (w2 := v) end.
  assert (Hq2 : quiet w2) by (by apply set_and_wait_quiet).
  assert (exists w3, (if decide (id = 0) then setCmdFirst 0 ;; setCmdLast 0 else setStatusFirst 0 ;; setStatusLast 0) w2
                     = Ok tt w3 /\ quiet w3 /\ sched w3 = sched w2) as (w3 & E3 & Hq3 & Hs3).
  { case_decide; (eexists; split; [reflexivity|]); (split; [|done]); destruct Hq2; by constructor. }
  rewrite (bind_ok _ _ _ _ _ E3). cbn in Hs3.
  rewrite (bind_ok _ _ _ _ _ (set_and_wait_returns w3 id REG_MASK (sz - 1) _ _ Hq3 Hs3)).
  match goal with |- exists _, _ ?v = _ /\ _ => set (w4 := v) end.
  assert (Hq4 : quiet w4) by (by apply set_and_wait_quiet).
  eexists. split; [apply (set_and_wait_returns w4 id REG_HANDLE rf _ _ Hq4 eq_refl)|].
  split; [by apply set_and_wait_quiet|done].
Qed.

Definition start_acts (lat : nat -> nat) : list (list hw_action) :=
  init_acts lat ++ init_acts (fun i => lat (4 + i)%nat).

Lemma list_init_quiet w : quiet w -> length (completion w) = 1024%nat ->
  exists w1, completion_list_init w = Ok tt w1 /\ quiet w1 /\ sched w1 = sched w.
Proof.
  intros Hq Hc. destruct (list_init_ok 1023 1 (set_freelist [] w)) as (c & E & _); [lia|cbn; lia|].
  unfold completion_list_init. rewrite E. generalize (seqZ 1 (Z.of_nat 1023)). intros l.
  eexists. split; [reflexivity|]. split; [|done]. destruct Hq. by constructor.
Qed.

Lemma ring_start_stops rf rf' sz lat s w : quiet w -> length (completion w) = 1024%nat ->
  sched w = start_acts lat ++ s -> exists w', ring_start rf rf' sz w = Ok tt w' /\ sched w' = s /\
    h_replies (hw w') = [].
Proof.
  intros Hq Hc Hs. destruct (list_init_quiet w Hq Hc) as (w1 & E1 & Hq1 & Hs1). rewrite Hs in Hs1.
  unfold start_acts in Hs1. rewrite <- app_assoc in Hs1.
  destruct (ring_init_returns set_cmd_ring 0 rf sz lat (init_acts (fun i => lat (4 + i)%nat) ++ s) w1)
    as (w2 & E2 & Hq2 & Hs2); [by intros r v []; constructor|done|done|done|].
  destruct (ring_init_returns set_status_ring 1 rf' sz (fun i => lat (4 + i)%nat) s w2)
    as (w3 & E3 & Hq3 & Hs3); [by intros r v []; constructor|done|done|done|].
  exists (set_ring_init_done true w3). split; [|split; [exact Hs3|apply Hq3]]. unfold ring_start.
  rewrite (bind_ok _ _ _ _ _ E1), (bind_ok _ _ _ _ _ E2), (bind_ok _ _ _ _ _ E3). done.
Qed.

Lemma ring_start_returns N rf rf' lat s w : 1 <= N < 2 ^ 24 -> unstarted N w -> sched w = start_acts lat ++ s ->
  exists w', ring_start rf rf' (64 * N) w = Ok tt w' /\ sched w' = s /\
    inv N [] no_counts w' /\ freelist w' = seqZ 1 1023 /\ h_replies (hw w') = [].
Proof.
  intros HN Hu Hs. destruct (ring_start_stops rf rf' (64 * N) lat s w) as (w' & E & Hs' & Hr); [apply Hu|apply Hu|done|].
  pose proof (wp_elim _ _ _ _ _ (wp_ring_start N HN w rf rf' Hu) E) as (Hi & Hf & _).
  exists w'. split; [exact E|]. split; [exact Hs'|]. split; [exact Hi|]. split; [exact Hf|exact Hr].
Qed.

(** * One echo *)

Section Echo.
Variable Q : Z.
Hypothesis Q_range : 1 <= Q < 2 ^ 22.

(** The slots of a ring: a quarter of them is [Q]. *)
Definition slots4 : Z := 4 * Q.
Lemma slots4_range : 1 <= slots4 < 2 ^ 24.
Proof. unfold slots4. lia. Qed.

(** Every command was fetched, completed and handled, and the hardware knows
    the last quarter boundary the host has passed in the status ring. *)
Record idle (sent : list slot) (g : counts) (w : R) : Prop := {
  id_inv : inv slots4 sent g w;
  id_A : gA g = Z.of_nat (length sent);
  id_Q : gQ g = [];
  id_run : h_running (hw w) = [];
  id_rep : h_replies (hw w) = [];
  id_D : gD' g = Q * (gD g / Q)
}.

(** ** Polls *)

Lemma poll_started sent g w l s w' : sched w = l :: s -> acts l (set_sched s w) = Ok tt w' ->
  inv slots4 sent g w' -> StatusPoll w = poll_status w'.
Proof.
  intros Hs E H. unfold StatusPoll. rewrite (bind_ok tick _ w tt w') by (by rewrite (tick_cons _ _ _ Hs)).
  by rewrite (bind_ok getW _ w' w' w'), (i_done _ _ _ _ H) by done.
Qed.

Lemma poll_nothing sent g w : inv slots4 sent g w -> gQ g = [] -> poll_status w = Ok tt w.
Proof.
  intros H Hq. unfold poll_status. by rewrite (bind_ok _ _ _ _ _ (next_none _ slots4_range sent g w H Hq)).
Qed.

(** Polls in which nothing happens. *)
Lemma wait_empty sent g f x n s w : (forall s, f (set_sched s w) = f w) -> f w = 0 ->
  inv slots4 sent g w -> gQ g = [] -> sched w = replicate x [] ++ s ->
  waitforflag (x + n) f w = waitforflag n f (set_sched s w).
Proof.
  intros Hf H0 H Hq. revert w Hf H0 H. induction x as [|x IH]; intros w Hf H0 H Hs.
  - cbn in *. rewrite <- Hs. by destruct w.
  - cbn [replicate app] in Hs. cbn [Nat.add].
    assert (H1 : inv slots4 sent g (set_sched (replicate x [] ++ s) w)) by (by apply inv_sched).
    rewrite (wait_poll f _ w (set_sched (replicate x [] ++ s) w)); [|done|].
    + rewrite IH; [done| | |done|done]; [intros s'; rewrite !Hf; apply Hf|by rewrite Hf].
    + rewrite (poll_started sent g w _ _ _ Hs eq_refl H1). by eapply poll_nothing.
Qed.

(** A poll in which the hardware does not complete anything. *)
Lemma wait_act sent g f a n s w w' : f w = 0 -> sched w = [a] :: s ->
  act a (set_sched s w) = Ok tt w' -> inv slots4 sent g w' -> gQ g = [] ->
  waitforflag (S n) f w = waitforflag n f w'.
Proof.
  intros H0 Hs E H Hq. apply wait_poll; [done|].
  rewrite (poll_started sent g w _ _ w' Hs (acts_one _ _ _ E) H). by eapply poll_nothing.
Qed.

(** ** The free space *)

(** The host asks when [k] commands were sent, and the space was computed when
    [c] were fetched. *)
Definition asks (k c : Z) : bool := bool_decide ((64 * (slots4 - 1 - (k - c))) mod (64 * Q) = 0).

Lemma quarter : Z.shiftr (64 * slots4) 2 = 64 * Q.
Proof. unfold slots4. rewrite Z.shiftr_div_pow2 by lia. change (2 ^ 2) with 4. zlia. Qed.

Lemma asks_spec sent g w : inv slots4 sent g w ->
  asks (Z.of_nat (length sent)) (gC g)
    = bool_decide (cached_space (cmd_ring w) mod (Z.shiftr (size (cmd_ring w)) 2) = 0).
Proof. intros [[] _ _ _]. unfold asks. by rewrite ci_space, ci_size, quarter. Qed.

Definition ask_acts (k c : Z) (x : nat) : list (list hw_action) :=
  if asks k c then after x [HwReply] else [].

Lemma space_returns sent g w x s n : idle sent g w ->
  sched w = ask_acts (Z.of_nat (length sent)) (gC g) x ++ s ->
  exists w' g', space_loop (S n) w = Ok tt w' /\ idle sent g' w' /\
    gC g' = (if asks (Z.of_nat (length sent)) (gC g) then Z.of_nat (length sent) else gC g) /\
    Z.of_nat (length sent) - gC g' <= slots4 - 2 /\
    sched w' = s /\ freelist w' = freelist w /\ events w' = events w.
Proof.
  intros Hid Hs. pose proof Hid as [H HA HQ Hrun Hrep HD]. unfold ask_acts in Hs.
  rewrite (asks_spec sent g w H) in *. cbn [space_loop]. rewrite (bind_ok getW _ w w w) by done. cbv zeta.
  case_bool_decide as E; cycle 1.
  { rewrite decide_False by done. exists w, g. split_and!; try done. by eapply no_query_room. }
  rewrite decide_True by done. rewrite (ci_id _ _ _ _ (i_cmd _ _ _ _ H)).
  rewrite (bind_ok (modifyW _) _ _ _ _ eq_refl), (bind_ok (ring_get _ _) _ _ _ (asked w) eq_refl).
  pose proof (asked_inv _ sent g w H) as H1.
  assert (H2 : inv slots4 sent g (set_sched ([HwReply] :: s) (asked w))) by (by apply inv_sched).
  set (w2 := replied slots4 g [] (set_sched s (asked w))).
  destruct (reply_step _ slots4_range sent g (set_sched s (asked w)) (GetReply 0 REG_LASTACK) []) as [E3 H3];
    [by apply inv_sched|cbn; by rewrite Hrep|].
  rewrite (bind_ok (wait getresult_flag) _ _ tt w2); cycle 1.
  { unfold wait. rewrite (bind_ok getW _ _ _ _ eq_refl).
    change (sched (asked w)) with (sched w). rewrite Hs. unfold after. rewrite !length_app, length_replicate, <- Nat.add_assoc.
    rewrite (wait_empty sent g getresult_flag x _ ([HwReply] :: s)); try done.
    2: { change (sched (asked w)) with (sched w). rewrite Hs. unfold after. by rewrite <- app_assoc. }
    cbn [length Nat.add]. erewrite wait_act; [|done|done|exact E3|exact H3|done]. by apply wait_done. }
  rewrite (bind_ok getW _ w2 w2 w2) by done. cbv zeta. fold w2 in H3. rewrite (space_computed _ slots4_range _ _ _ H3).
  rewrite (bind_ok (modifyW _) _ _ _ _ eq_refl). cbn [gL g_set_L]. rewrite HA, Z.sub_diag.
  rewrite decide_True by (unfold slots4; lia).
  eexists _, (g_set_C (gA g) (g_set_L (gA g) g)). split; [reflexivity|].
  pose proof (spaced_inv slots4 sent _ _ H3) as H4. unfold spaced in H4. cbn [gL g_set_L] in H4.
  rewrite HA, Z.sub_diag in H4. rewrite HA. split_and!; try done.
  cbn. unfold slots4. lia.
Qed.

(** ** Sending *)

Lemma send_returns sent g w x s t l cmd fp a : idle sent g w ->
  sched w = ask_acts (Z.of_nat (length sent)) (gC g) x ++ s ->
  freelist w = t :: l -> length cmd = 8%nat -> cb_ok w fp a ->
  exists w2 w' g', ring_send cmd fp a w = Ok tt w2 /\ STARTRING w2 = Ok tt w' /\
    inv slots4 (sent ++ [tagged t cmd]) g' w' /\
    gC g' = (if asks (Z.of_nat (length sent)) (gC g) then Z.of_nat (length sent) else gC g) /\
    gA g' = Z.of_nat (length sent) /\ gS g' = Z.of_nat (length sent) + 1 /\ gQ g' = [] /\
    gD' g' = Q * (gD g' / Q) /\ h_running (hw w') = [] /\ h_replies (hw w') = [] /\ sched w' = s /\
    freelist w' = l /\ events w' = events w /\
    znth (completion w') t = Some {| tag := t; in_use := 1; finish := fp; arg := a |}.
Proof.
  intros Hid Hs Hf Hcmd Hcb.
  destruct (space_returns sent g w x s (length (sched w)) Hid Hs) as (w1 & g1 & E1 & Hid1 & HC & Hroom & Hs1 & Hf1 & He1).
  destruct (put_ok _ slots4_range sent g1 w1 t l cmd fp a) as (w2 & E2 & H2 & Hf2 & He2 & Hs2 & Hh2 & Hc2);
    [apply Hid1|done|congruence|done| |].
  { eapply cb_ok_mono; [|exact Hcb]. by rewrite He1. }
  destruct (start_inv _ _ _ _ H2) as (E3 & H3 & _). pose proof Hid1 as [_ HA HQ Hrun Hrep HD].
  exists w2, (started w2), (g_set_S (Z.of_nat (length (sent ++ [tagged t cmd]))) g1).
  split.
  { unfold ring_send. rewrite (bind_ok getW _ w w w) by done. rewrite (bind_ok (assert _) _ w tt w).
    - by rewrite (bind_ok _ _ _ _ _ E1).
    - destruct Hid as [[[] _ _ _] _ _ _ _ _]. rewrite bool_decide_eq_true_2; [done|]. rewrite ci_first, ci_size.
      pose proof (pos_range _ slots4_range (Z.of_nat (length sent))). lia. }
  split_and!; cbn; try done; try congruence.
  rewrite length_app. cbn. lia.
Qed.

(** ** The completion *)

(** The quarter the hardware is told of. *)
Lemma told_quarter g : told slots4 g = bool_decide ((gD g + 1) mod Q = 0).
Proof.
  unfold told. rewrite quarter. unfold pos, slots4. apply bool_decide_ext.
  rewrite Zmult_mod_distr_l, Z.mod_mod_divide by (by exists 4). lia.
Qed.

Lemma quarter_step g : gD' g = Q * (gD g / Q) ->
  (if told slots4 g then gD g + 1 else gD' g) = Q * ((gD g + 1) / Q).
Proof.
  intros HD. rewrite told_quarter, HD. case_bool_decide as E.
  - pose proof (Z.div_mod (gD g + 1) Q ltac:(lia)). lia.
  - f_equal. pose proof (Z.div_mod (gD g + 1) Q ltac:(lia)) as H1.
    pose proof (Z.mod_pos_bound (gD g + 1) Q ltac:(lia)).
    symmetry. apply (Z.div_unique _ _ _ ((gD g + 1) mod Q - 1)); lia.
Qed.

Definition echoed (a b : Z) (e : CompletionEvent) : CompletionEvent :=
  {| exp_a := exp_a e; exp_b := exp_b e; got_a := a; got_b := b; flag := 1 |}.

Lemma echo_finish_ok p e w e0 a b l : events w !! p = Some e ->
  run_finish (Some EchoFinish) (Some p) (e0 :: a :: b :: l) w
    = Ok tt (set_totalCompletions (totalCompletions w + 1) (set_events (<[p := echoed a b e]> (events w)) w)).
Proof.
  intros He. cbn [run_finish]. unfold echo_finish. rewrite (bind_ok getW _ w w w), He, bind_defined by done.
  cbn [lookup list_lookup]. rewrite !bind_defined. done.
Qed.

(** The echo engine holds the one command that runs. *)
Lemma echo_head_only h c t l : h_fetched h = l ++ [c] -> tag_of c = t -> engineselect c = CMD_ECHO ->
  echo_head h [t] = Some c.
Proof.
  intros Hf Ht He. cbn [echo_head]. unfold command_of. rewrite Hf, reverse_snoc. cbn.
  rewrite decide_True by done. cbn. by rewrite decide_True.
Qed.

(** The record is written and handled in the same poll. *)
Lemma completion_handled sent g w s p e e0 a b l t : length l = 5%nat ->
  let ev := e0 :: a :: b :: l in
  inv slots4 sent g w -> gQ g = [] -> gD' g = Q * (gD g / Q) -> h_running (hw w) = [t] -> tag_of ev = t ->
  sched w = [HwEcho] :: s -> echo_head (hw w) [t] = Some ev -> events w !! p = Some e ->
  znth (completion w) t = Some {| tag := t; in_use := 1; finish := Some EchoFinish; arg := Some p |} ->
  exists w', StatusPoll w = Ok tt w' /\ inv slots4 sent (g_pop (told slots4 g) (g_put ev g)) w' /\
    events w' = <[p := echoed a b e]> (events w) /\ h_running (hw w') = [] /\
    h_replies (hw w') = h_replies (hw w) /\ sched w' = s /\ freelist w' = freelist w ++ [t].
Proof.
  intros Hl ev H HQ HD Hrun Htag Hs Hech He Hc. pose proof (inv_sched _ _ _ _ s H) as H1.
  pose proof (si_order _ _ _ (i_status _ _ _ _ H)) as Ho. pose proof (si_queue _ _ _ (i_status _ _ _ _ H)) as Hqe.
  rewrite HQ in Hqe. cbn in Hqe.
  destruct (complete_step _ slots4_range sent g (set_sched s w) ev H1) as [E2 H2].
  { destruct (i_status _ _ _ _ H). split; [|split; [cbn; lia|cbn; rewrite Hrun, Htag; left]].
    cbn. rewrite si_hfirst, si_hlast, si_hend, (pos_advance _ slots4_range).
    intros E%eq_sym%(pos_inj _ slots4_range); [lia|]. pose proof (Z.div_mod (gD g) Q ltac:(lia)).
    pose proof (Z.mod_pos_bound (gD g) Q ltac:(lia)). unfold slots4. lia. }
  set (w2 := completed slots4 g ev (set_sched s w)) in *.
  assert (Eact : act HwEcho (set_sched s w) = Ok tt w2).
  { unfold act. rewrite (bind_ok getW _ _ _ _ eq_refl). cbv zeta. cbn [hw set_sched]. by rewrite Hrun, Hech. }
  destruct (handle_pop_ok _ slots4_range sent (g_put ev g) w2 ev []) as
    (p' & tc & evm & fl & Hp & Erun & _ & En & Eh & Ep & Hi); [done|cbn; by rewrite HQ|].
  rewrite Htag in Hp. cbn in Hp. rewrite Hc in Hp. injection Hp as <-.
  cbn [finish arg] in Erun. unfold ev at 1 in Erun. rewrite (echo_finish_ok p e) in Erun by done.
  assert (Hev : evm = <[p := echoed a b e]> (events w)).
  { apply (f_equal (fun r => match r with Ok _ v => events v | _ => ∅ end)) in Erun. symmetry. exact Erun. }
  eexists. split.
  { rewrite (poll_started sent _ w _ _ w2 Hs (acts_one _ _ _ Eact) H2). unfold poll_status.
    rewrite (bind_ok _ _ _ _ _ En), (bind_ok _ _ _ _ _ Eh). exact Ep. }
  assert (Ht : told slots4 (g_put ev g) = told slots4 g) by done. rewrite Ht in Hi. split; [exact Hi|].
  unfold popped. rewrite Ht. destruct (told slots4 g); cbn -[filter];
    rewrite Hrun, Htag; cbn; rewrite decide_False by tauto; split_and!; done.
Qed.

(** The polls of a waiting host until the echo has come back. *)
Lemma wait_echo sent g w y z s p e e0 a b l t : length l = 5%nat ->
  let c := e0 :: a :: b :: l in
  inv slots4 sent g w -> gQ g = [] -> gD' g = Q * (gD g / Q) -> gA g < gS g ->
  znth sent (gA g) = Some c -> tag_of c = t -> engineselect c = CMD_ECHO ->
  h_running (hw w) = [] -> sched w = after y [HwFetch] ++ after z [HwEcho] ++ s ->
  events w !! p = Some e -> flag e = 0 ->
  znth (completion w) t = Some {| tag := t; in_use := 1; finish := Some EchoFinish; arg := Some p |} ->
  exists w', wait (event_flag p) w = Ok tt w' /\
    inv slots4 sent (g_pop (told slots4 g) (g_put c (g_set_A (gA g + 1) g))) w' /\
    events w' = <[p := echoed a b e]> (events w) /\ h_running (hw w') = [] /\
    h_replies (hw w') = h_replies (hw w) /\ sched w' = s /\ freelist w' = freelist w ++ [t].
Proof.
  intros Hl c H HQ HD HA Hcmd Htc Hsel Hrun Hs He Hfl Hc.
  assert (Hf : forall v, events v = events w -> event_flag p v = 0)
    by (intros v Hv; unfold event_flag; by rewrite Hv, He).
  unfold wait. rewrite (bind_ok getW _ w w w) by done.
  unfold after in Hs. rewrite Hs, <- !app_assoc, !length_app, !length_replicate.
  rewrite (wait_empty sent g _ y _ ([HwFetch] :: replicate z [] ++ [HwEcho] :: s)); try done; [|by apply Hf|].
  2: { rewrite Hs. by rewrite <- !app_assoc. }
  set (w1 := set_sched (replicate z [] ++ [HwEcho] :: s) w).
  destruct (fetch_step _ slots4_range sent g w1 c) as [E2 H2]; [by apply inv_sched|done|done|].
  cbn [length Nat.add]. erewrite wait_act; [|by apply Hf|done|exact E2|exact H2|done].
  assert (Hs2 : sched (fetched c w1) = replicate z [] ++ [HwEcho] :: s) by done.
  rewrite (wait_empty sent _ (event_flag p) z _ _ (fetched c w1) (fun _ => eq_refl) (Hf (fetched c w1) eq_refl) H2 HQ Hs2).
  destruct (completion_handled sent (g_set_A (gA g + 1) g) (set_sched ([HwEcho] :: s) (fetched c w1))
              s p e e0 a b l t Hl) as (w' & E4 & H4 & He4 & Hrun4 & Hrep4 & Hs4 & Hf4); try done.
  { by apply inv_sched. } { cbn. by rewrite Hrun, Htc. } { by eapply echo_head_only. }
  exists w'. split; [|by split_and!]. cbn [length Nat.add].
  rewrite (wait_poll _ _ _ w'); [|by apply Hf|done].
  apply wait_done. unfold event_flag. rewrite He4. by rewrite lookup_insert_eq.
Qed.

(** ** [hw_echo] *)

(** Hardware that serves one command: it answers a question for the space after
    [x] polls, fetches the command after [y] more and its echo engine answers after [z]. *)
Definition serve (k c : Z) (xyz : nat * nat * nat) : list (list hw_action) :=
  let '(x, y, z) := xyz in ask_acts k c x ++ after y [HwFetch] ++ after z [HwEcho].

Lemma echo_returns junk sent g w xyz s p a b t l :
  idle sent g w -> freelist w = t :: l ->
  sched w = serve (Z.of_nat (length sent)) (gC g) xyz ++ s ->
  exists w' g', hw_echo junk p a b w = Ok true w' /\
    idle (sent ++ [tagged t (echo_cmd junk a b)]) g' w' /\
    gC g' = (if asks (Z.of_nat (length sent)) (gC g) then Z.of_nat (length sent) else gC g) /\
    freelist w' = l ++ [t] /\ sched w' = s.
Proof.
  intros Hid Hf Hs. destruct xyz as [[x y] z]. unfold serve in Hs. rewrite <- !app_assoc in Hs.
  set (e := {| exp_a := a; exp_b := b; got_a := 0; got_b := 0; flag := 0 |}).
  set (w0 := set_events (<[p := e]> (events w)) w).
  assert (Hid0 : idle sent g w0).
  { destruct Hid. constructor; try done. apply inv_events; [done|].
    intros q Hq. destruct (decide (q = p)) as [-> | ]; [by rewrite lookup_insert_eq|by rewrite lookup_insert_ne]. }
  assert (He0 : events w0 !! p = Some e) by apply lookup_insert_eq.
  assert (Ht : 1 <= t < 1024).
  { eapply flight_range; [apply Hid|]. rewrite Hf. left. }
  destruct (send_returns sent g w0 x _ t l (echo_cmd junk a b) (Some EchoFinish) (Some p) Hid0 Hs Hf eq_refl)
    as (w1 & w2 & g2 & E1 & E2 & H2 & HC & HA & HS & HQ & HD & Hrun & Hrep & Hs2 & Hf2 & He2 & Hc2).
  { cbn. eauto. }
  destruct (wait_echo (sent ++ [tagged t (echo_cmd junk a b)]) g2 w2 y z s p e (cmd_word CMD_ECHO) a b
              [junk 3%nat; junk 4%nat; junk 5%nat; junk 6%nat; t] t eq_refl) as (w3 & E3 & H3 & He3 & Hrun3 & Hrep3 & Hs3 & Hf3); try done.
  { lia. }
  { unfold znth. rewrite decide_True by lia. rewrite HA, Nat2Z.id, lookup_app_r, Nat.sub_diag by lia. done. }
  { change (tag_of (tagged t (echo_cmd junk a b)) = t). by apply tag_of_tagged. }
  { by rewrite He2. }
  eexists w3, _. split.
  { unfold hw_echo. rewrite (bind_ok (modifyW _) _ w tt w0) by done.
    rewrite (bind_ok _ _ _ _ _ E1), (bind_ok _ _ _ _ _ E2), (bind_ok _ _ _ _ _ E3).
    rewrite (bind_ok getW _ w3 w3 w3) by done. rewrite He3, lookup_insert_eq, bind_defined.
    by rewrite bool_decide_eq_true_2. }
  split; [constructor; [exact H3|..]|]; cbn.
  - rewrite length_app, HA. cbn. lia.
  - by rewrite HQ.
  - done.
  - by rewrite Hrep3.
  - by apply quarter_step.
  - split; [done|]. by rewrite Hf3, Hf2.
Qed.
End Echo.

(** * The echo pass *)

(** Hardware that serves [todo] echoes from number [i], when [k] commands were
    sent, with the latencies [lat]. *)
Fixpoint pass_acts (Q : Z) (lat : Z -> nat * nat * nat) (todo : nat) (i k c : Z) : list (list hw_action) :=
  match todo with
  | S todo => serve Q k c (lat i) ++ pass_acts Q lat todo (i + 1) (k + 1) (if asks Q k c then k else c)
  | O => []
  end.

Lemma idle_tags Q sent g w : idle Q sent g w -> freelist w ≡ₚ seqZ 1 1023.
Proof.
  intros [H HA HQ Hrun _ _]. pose proof (ti_perm _ _ _ (i_tags _ _ _ _ H)) as Hp.
  unfold in_flight in Hp. rewrite HA, HQ, Hrun, Nat2Z.id, drop_all, !app_nil_r in Hp. done.
Qed.

Lemma pass_returns Q junk lat p s todo : 1 <= Q < 2 ^ 22 -> forall i sent g w,
  idle Q sent g w -> sched w = pass_acts Q lat todo i (Z.of_nat (length sent)) (gC g) ++ s ->
  exists w' sent' g', echo_pass junk todo i p w = Ok true w' /\ idle Q sent' g' w' /\
    length sent' = (length sent + todo)%nat /\ sched w' = s.
Proof.
  intros HQ. induction todo as [|todo IH]; intros i sent g w Hid Hs.
  { exists w, sent, g. split_and!; [done|done|lia|exact Hs]. }
  pose proof (idle_tags _ _ _ _ Hid) as Htags. cbn [pass_acts] in Hs.
  destruct (freelist w) as [|t l] eqn:Hf.
  { apply Permutation_length in Htags. rewrite length_seqZ in Htags. cbn in Htags. lia. }
  rewrite <- app_assoc in Hs.
  destruct (echo_returns Q HQ junk sent g w (lat i) _ p (Z.shiftl 0x333 32 + i) (Z.shiftl 0x444 32 + i) t l
              Hid Hf Hs) as (w1 & g1 & E1 & Hid1 & HC1 & Hf1 & Hs1).
  destruct (IH (i + 1) _ g1 w1 Hid1) as (w2 & sent2 & g2 & E2 & Hid2 & Hl2 & Hs2).
  { rewrite Hs1, HC1, length_app. cbn [length].
    by replace (Z.of_nat (length sent + 1)) with (Z.of_nat (length sent) + 1) by lia. }
  exists w2, sent2, g2. cbn [echo_pass]. rewrite (bind_ok _ _ _ _ _ E1), (bind_ok _ _ _ _ _ E2).
  split_and!; [done|done| |done]. rewrite Hl2, length_app. cbn. lia.
Qed.

Lemma no_counts_idle Q w : inv (slots4 Q) [] no_counts w -> freelist w = seqZ 1 1023 -> h_replies (hw w) = [] ->
  idle Q [] no_counts w.
Proof.
  intros H Hf Hr. constructor; try done; [|change (0 = Q * (0 / Q)); rewrite Zdiv_0_l; lia].
  pose proof (ti_perm _ _ _ (i_tags _ _ _ _ H)) as Hp. unfold in_flight in Hp. rewrite Hf in Hp. apply Permutation_length in Hp.
  rewrite !length_app in Hp. destruct (h_running (hw w)) as [|x l]; [done|].
  change (length (x :: l)) with (S (length l)) in Hp. lia.
Qed.

(** C6: The blocking echo pass returns and every echo succeeds.  After [main]
    has brought up rings of [4 * Q] slots, any number [n] of blocking echoes, so
    any number of trips round both rings, terminates with every reply equal to
    what was sent, whatever the latencies with which the hardware answers the
    register accesses and fetches the commands, and its echo engine writes back
    the command it fetched; all [n] commands
    were fetched, every completion tag is free again, and no poll is wasted. *)
Theorem echo_pass_returns (Q rf rf' p : Z) (junk : nat -> Z) (lat0 : nat -> nat) (lat : Z -> nat * nat * nat)
    (n : nat) (s : list (list hw_action)) (w : R) :
  1 <= Q < 2 ^ 22 -> unstarted (4 * Q) w ->
  sched w = start_acts lat0 ++ pass_acts Q lat n 0 0 0 ++ s ->
  exists w', (ring_start rf rf' (64 * (4 * Q)) ;; echo_pass junk n 0 p) w = Ok true w' /\
    length (h_fetched (hw w')) = n /\ freelist w' ≡ₚ seqZ 1 1023 /\ sched w' = s.
Proof.
  intros HQ Hu Hs. destruct (ring_start_returns (4 * Q) rf rf' _ _ w ltac:(lia) Hu Hs) as (w1 & E1 & Hs1 & H1 & Hf1 & Hr1).
  pose proof (no_counts_idle Q w1 H1 Hf1 Hr1) as Hid.
  destruct (pass_returns Q junk lat p s n HQ 0 [] no_counts w1 Hid Hs1) as (w2 & sent & g & E2 & Hid2 & Hl & Hs2).
  exists w2. rewrite (bind_ok _ _ _ _ _ E1). split; [exact E2|]. split; [|split; [by eapply idle_tags|exact Hs2]].
  destruct (i_cmd _ _ _ _ (id_inv _ _ _ _ Hid2)). rewrite ci_fetched, (id_A _ _ _ _ Hid2), Nat2Z.id.
  by rewrite take_ge by lia.
Qed.

(** Twenty echoes through rings of eight slots, with latencies that vary. *)
Definition demo_lat (i : Z) : nat * nat * nat := (Z.to_nat (i mod 3), Z.to_nat (i mod 2), 1%nat).

Lemma echo_pass_returns_witness :
  let w := RingDemo.start (start_acts (fun _ => 1%nat) ++ pass_acts 2 demo_lat 20 0 0 0 ++ []) in
  exists w', (ring_start 3 4 (64 * (4 * 2)) ;; echo_pass (fun _ => 9) 20 0 100) w = Ok true w' /\
    length (h_fetched (hw w')) = 20%nat /\ freelist w' ≡ₚ seqZ 1 1023 /\ sched w' = [].
Proof.
  apply (echo_pass_returns 2 3 4 100 (fun _ => 9) (fun _ => 1%nat) demo_lat 20 []);
    [lia|apply RingDemo.start_unstarted|reflexivity].
Defined.
