(* ===== verification/Gralloc.v ===== *)
(** The graphics allocator [gralloc/]: allocation of image buffers in portal
    memory and their mapping ([gralloc.cpp], [mapper.cpp], [gralloc_priv.h],
    [gr.h]), posting a buffer to the display and the display modes.

    The state is one process: its descriptors and mappings, the handles it has
    created, the device, and what it has sent to the display.  The kernel's
    answers (to [portalAlloc], [mmap] and [reference]) are lists of the state,
    as are the wake-ups of [pthread_cond_wait]; waiting for an answer that does
    not come blocks.  The code is for 32-bit processors: [size_t] and pointers
    have 32 bits. *)

From stdpp Require Import base gmap list option fin_maps fin_sets.
From Stdlib Require Import ZArith Lia.
From S2P Require Import Prelude I2cHdmi.

Definition EINVAL : Z := 22.
Definition EBADF : Z := 9.
Definition PAGE_SIZE : Z := 4096.

(** * Data *)

Definition PRIV_FLAGS_FRAMEBUFFER : Z := 1.
Definition sNumInts : Z := 6.
Definition sNumFds : Z := 1.
Definition sMagic : Z := 0x11052012.
(** [sizeof(native_handle)]: three ints and an array of no length. *)
Definition SIZEOF_NATIVE_HANDLE : Z := 12.

Record private_handle_t : Type := {
  version : Z; numFds : Z; numInts : Z; fd : Z; magic : Z; flags : Z; size : Z; offset : Z; base : Z; pid : Z; stride : Z; segmentNumber : Z }.

Definition set_base (v : Z) (r : private_handle_t) : private_handle_t :=
  {| version := version r; numFds := numFds r; numInts := numInts r; fd := fd r;
     magic := magic r; flags := flags r; size := size r; offset := offset r; base := v;
     pid := pid r; stride := stride r; segmentNumber := segmentNumber r |}.
Definition set_stride (v : Z) (r : private_handle_t) : private_handle_t :=
  {| version := version r; numFds := numFds r; numInts := numInts r; fd := fd r;
     magic := magic r; flags := flags r; size := size r; offset := offset r; base := base r;
     pid := pid r; stride := v; segmentNumber := segmentNumber r |}.
Definition set_segmentNumber (v : Z) (r : private_handle_t) : private_handle_t :=
  {| version := version r; numFds := numFds r; numInts := numInts r; fd := fd r;
     magic := magic r; flags := flags r; size := size r; offset := offset r; base := base r;
     pid := pid r; stride := stride r; segmentNumber := v |}.

(** [gralloc_context_t]; of the proxies only [hdmiDisplay] is tested. *)
Record gralloc_context_t : Type := {
  hdmiDisplay : bool; ref_srcAlloc : Z; vsync : Z; nextSegmentNumber : Z }.

Definition set_ref_srcAlloc (v : Z) (r : gralloc_context_t) : gralloc_context_t :=
  {| hdmiDisplay := hdmiDisplay r; ref_srcAlloc := v; vsync := vsync r;
     nextSegmentNumber := nextSegmentNumber r |}.
Definition set_vsync (v : Z) (r : gralloc_context_t) : gralloc_context_t :=
  {| hdmiDisplay := hdmiDisplay r; ref_srcAlloc := ref_srcAlloc r; vsync := v;
     nextSegmentNumber := nextSegmentNumber r |}.

(** What is sent to the display. *)
Inductive request : Type :=
| WaitForVsync (v : Z) | StartFrameBuffer (ref words : Z)
| SetDeLineCountMinMax (a b c : Z) | SetDePixelCountMinMax (a b c : Z) | SetClockFrequency (n f : Z).

(** A process.  [g_maps]: the length of the mapping at an address.  An answer is
    an error number on the left, a descriptor or an address on the right. *)
Record G (B : Type) : Type := {
  g_errno : Z; g_pid : Z; g_fds : gset Z; g_maps : gmap Z Z; g_allocs : list (Z + Z); g_mmaps : list (Z + Z); g_refs : list Z; g_heap : gmap Z private_handle_t; g_next : Z; g_devs : gmap Z gralloc_context_t; g_gdev : Z; g_wakeups : list bool; g_log : list request; g_i2c : B }.
Arguments g_errno {B} _.
Arguments g_pid {B} _.
Arguments g_fds {B} _.
Arguments g_maps {B} _.
Arguments g_allocs {B} _.
Arguments g_mmaps {B} _.
Arguments g_refs {B} _.
Arguments g_heap {B} _.
Arguments g_next {B} _.
Arguments g_devs {B} _.
Arguments g_gdev {B} _.
Arguments g_wakeups {B} _.
Arguments g_log {B} _.
Arguments g_i2c {B} _.

Definition set_g_errno {B} (v : Z) (r : G B) : G B :=
  {| g_errno := v; g_pid := g_pid r; g_fds := g_fds r; g_maps := g_maps r;
     g_allocs := g_allocs r; g_mmaps := g_mmaps r; g_refs := g_refs r; g_heap := g_heap r;
     g_next := g_next r; g_devs := g_devs r; g_gdev := g_gdev r; g_wakeups := g_wakeups r; g_log := g_log r;
     g_i2c := g_i2c r |}.
Definition set_g_pid {B} (v : Z) (r : G B) : G B :=
  {| g_errno := g_errno r; g_pid := v; g_fds := g_fds r; g_maps := g_maps r;
     g_allocs := g_allocs r; g_mmaps := g_mmaps r; g_refs := g_refs r; g_heap := g_heap r;
     g_next := g_next r; g_devs := g_devs r; g_gdev := g_gdev r; g_wakeups := g_wakeups r; g_log := g_log r;
     g_i2c := g_i2c r |}.
Definition set_g_fds {B} (v : gset Z) (r : G B) : G B :=
  {| g_errno := g_errno r; g_pid := g_pid r; g_fds := v; g_maps := g_maps r;
     g_allocs := g_allocs r; g_mmaps := g_mmaps r; g_refs := g_refs r; g_heap := g_heap r;
     g_next := g_next r; g_devs := g_devs r; g_gdev := g_gdev r; g_wakeups := g_wakeups r; g_log := g_log r;
     g_i2c := g_i2c r |}.
Definition set_g_maps {B} (v : gmap Z Z) (r : G B) : G B :=
  {| g_errno := g_errno r; g_pid := g_pid r; g_fds := g_fds r; g_maps := v;
     g_allocs := g_allocs r; g_mmaps := g_mmaps r; g_refs := g_refs r; g_heap := g_heap r;
     g_next := g_next r; g_devs := g_devs r; g_gdev := g_gdev r; g_wakeups := g_wakeups r; g_log := g_log r;
     g_i2c := g_i2c r |}.
Definition set_g_allocs {B} (v : list (Z + Z)) (r : G B) : G B :=
  {| g_errno := g_errno r; g_pid := g_pid r; g_fds := g_fds r; g_maps := g_maps r;
     g_allocs := v; g_mmaps := g_mmaps r; g_refs := g_refs r; g_heap := g_heap r;
     g_next := g_next r; g_devs := g_devs r; g_gdev := g_gdev r; g_wakeups := g_wakeups r; g_log := g_log r;
     g_i2c := g_i2c r |}.
Definition set_g_mmaps {B} (v : list (Z + Z)) (r : G B) : G B :=
  {| g_errno := g_errno r; g_pid := g_pid r; g_fds := g_fds r; g_maps := g_maps r;
     g_allocs := g_allocs r; g_mmaps := v; g_refs := g_refs r; g_heap := g_heap r;
     g_next := g_next r; g_devs := g_devs r; g_gdev := g_gdev r; g_wakeups := g_wakeups r; g_log := g_log r;
     g_i2c := g_i2c r |}.
Definition set_g_refs {B} (v : list Z) (r : G B) : G B :=
  {| g_errno := g_errno r; g_pid := g_pid r; g_fds := g_fds r; g_maps := g_maps r;
     g_allocs := g_allocs r; g_mmaps := g_mmaps r; g_refs := v; g_heap := g_heap r;
     g_next := g_next r; g_devs := g_devs r; g_gdev := g_gdev r; g_wakeups := g_wakeups r; g_log := g_log r;
     g_i2c := g_i2c r |}.
Definition set_g_heap {B} (v : gmap Z private_handle_t) (r : G B) : G B :=
  {| g_errno := g_errno r; g_pid := g_pid r; g_fds := g_fds r; g_maps := g_maps r;
     g_allocs := g_allocs r; g_mmaps := g_mmaps r; g_refs := g_refs r; g_heap := v;
     g_next := g_next r; g_devs := g_devs r; g_gdev := g_gdev r; g_wakeups := g_wakeups r; g_log := g_log r;
     g_i2c := g_i2c r |}.
Definition set_g_next {B} (v : Z) (r : G B) : G B :=
  {| g_errno := g_errno r; g_pid := g_pid r; g_fds := g_fds r; g_maps := g_maps r;
     g_allocs := g_allocs r; g_mmaps := g_mmaps r; g_refs := g_refs r; g_heap := g_heap r;
     g_next := v; g_devs := g_devs r; g_gdev := g_gdev r; g_wakeups := g_wakeups r; g_log := g_log r;
     g_i2c := g_i2c r |}.
Definition set_g_devs {B} (v : gmap Z gralloc_context_t) (r : G B) : G B :=
  {| g_errno := g_errno r; g_pid := g_pid r; g_fds := g_fds r; g_maps := g_maps r;
     g_allocs := g_allocs r; g_mmaps := g_mmaps r; g_refs := g_refs r; g_heap := g_heap r;
     g_next := g_next r; g_devs := v; g_gdev := g_gdev r; g_wakeups := g_wakeups r; g_log := g_log r;
     g_i2c := g_i2c r |}.
Definition set_g_gdev {B} (v : Z) (r : G B) : G B :=
  {| g_errno := g_errno r; g_pid := g_pid r; g_fds := g_fds r; g_maps := g_maps r;
     g_allocs := g_allocs r; g_mmaps := g_mmaps r; g_refs := g_refs r; g_heap := g_heap r;
     g_next := g_next r; g_devs := g_devs r; g_gdev := v; g_wakeups := g_wakeups r; g_log := g_log r;
     g_i2c := g_i2c r |}.
Definition set_g_wakeups {B} (v : list bool) (r : G B) : G B :=
  {| g_errno := g_errno r; g_pid := g_pid r; g_fds := g_fds r; g_maps := g_maps r;
     g_allocs := g_allocs r; g_mmaps := g_mmaps r; g_refs := g_refs r; g_heap := g_heap r;
     g_next := g_next r; g_devs := g_devs r; g_gdev := g_gdev r; g_wakeups := v; g_log := g_log r; g_i2c := g_i2c r |}.
Definition set_g_log {B} (v : list request) (r : G B) : G B :=
  {| g_errno := g_errno r; g_pid := g_pid r; g_fds := g_fds r; g_maps := g_maps r;
     g_allocs := g_allocs r; g_mmaps := g_mmaps r; g_refs := g_refs r; g_heap := g_heap r;
     g_next := g_next r; g_devs := g_devs r; g_gdev := g_gdev r; g_wakeups := g_wakeups r; g_log := v;
     g_i2c := g_i2c r |}.
Definition set_g_i2c {B} (v : B) (r : G B) : G B :=
  {| g_errno := g_errno r; g_pid := g_pid r; g_fds := g_fds r; g_maps := g_maps r;
     g_allocs := g_allocs r; g_mmaps := g_mmaps r; g_refs := g_refs r; g_heap := g_heap r;
     g_next := g_next r; g_devs := g_devs r; g_gdev := g_gdev r; g_wakeups := g_wakeups r; g_log := g_log r;
     g_i2c := v |}.

Definition private_handle_new (fd size flags pid : Z) : private_handle_t :=
  {| version := SIZEOF_NATIVE_HANDLE; numFds := sNumFds; numInts := sNumInts; fd := fd; magic := sMagic;
     flags := flags; size := size; offset := 0; base := 0; pid := pid; stride := 0; segmentNumber := 0 |}.

(** [HAL_PIXEL_FORMAT_...] *)
Inductive format : Type := RGBA_8888 | RGBX_8888 | BGRA_8888 | RGB_888 | RGB_565 | OtherFormat (n : Z).

(** [(x + (PAGE_SIZE-1)) & ~(PAGE_SIZE-1)] *)
Definition roundUpToPageSize (x : Z) : Z := Z.land (u32 (x + (PAGE_SIZE - 1))) (Z.lnot (PAGE_SIZE - 1)).

Section Gralloc.
Context {B : Type} `{!I2cOs B}.
Abbreviation W := (G B).

(** * The process *)

(** [portalAlloc] opens a memory object. *)
Definition sys_portalAlloc (size : Z) : M W Z :=
  w ← getW;
  match g_allocs w with
  | [] => block
  | inl e :: l => putW (set_g_errno e (set_g_allocs l w)) ;; mret (-1)
  | inr f :: l => putW (set_g_fds ({[f]} ∪ g_fds w) (set_g_allocs l w)) ;; mret f
  end.

(** [dma->reference] *)
Definition sys_reference (f : Z) : M W Z :=
  w ← getW;
  match g_refs w with
  | [] => block
  | r :: l => putW (set_g_refs l w) ;; mret r
  end.

Definition sys_close (f : Z) : M W Z :=
  w ← getW;
  if decide (f ∈ g_fds w) then putW (set_g_fds (g_fds w ∖ {[f]}) w) ;; mret 0
  else putW (set_g_errno EBADF w) ;; mret (-1).

(** The address, or [None] with an error number. *)
Definition sys_mmap (size f : Z) : M W (option Z) :=
  w ← getW;
  if decide (f ∉ g_fds w) then putW (set_g_errno EBADF w) ;; mret None
  else if decide (size = 0) then putW (set_g_errno EINVAL w) ;; mret None
  else match g_mmaps w with
  | [] => block
  | inl e :: l => putW (set_g_errno e (set_g_mmaps l w)) ;; mret None
  | inr a :: l => putW (set_g_maps (<[a := size]> (g_maps w)) (set_g_mmaps l w)) ;; mret (Some a)
  end.

Definition sys_munmap (a size : Z) : M W Z :=
  w ← getW; putW (set_g_maps (delete a (g_maps w)) w) ;; mret 0.

Definition log (r : request) : M W unit := modifyW (fun w => set_g_log (g_log w ++ [r]) w).

Definition get_handle (h : Z) : M W private_handle_t := w ← getW; defined (g_heap w !! h).
Definition put_handle (h : Z) (x : private_handle_t) : M W unit :=
  modifyW (fun w => set_g_heap (<[h := x]> (g_heap w)) w).
(** The context at an address; a context that was freed is not there. *)
Definition get_dev (dev : Z) : M W gralloc_context_t := w ← getW; defined (g_devs w !! dev).
Definition upd_dev (dev : Z) (f : gralloc_context_t -> gralloc_context_t) : M W unit :=
  modifyW (fun w => set_g_devs (alter f dev (g_devs w)) w).

(** * Handles and mappings: gralloc_priv.h and mapper.cpp *)

Definition validate (h : Z) : M W Z :=
  if decide (h = 0) then mret (- EINVAL) else
  hnd ← get_handle h;
  if decide (version hnd <> SIZEOF_NATIVE_HANDLE \/ numInts hnd <> sNumInts \/ numFds hnd <> sNumFds \/
             magic hnd <> sMagic)
  then mret (- EINVAL) else mret 0.

(** The error, and the address stored in [*vaddr]. *)
Definition gralloc_map (handle : Z) : M W (Z * option Z) :=
  hnd ← get_handle handle;
  if decide (Z.land (flags hnd) PRIV_FLAGS_FRAMEBUFFER = 0) then
    mappedAddress ← sys_mmap (u32 (size hnd)) (fd hnd);
    match mappedAddress with
    | None => w ← getW; mret (- g_errno w, None)
    | Some a =>
        let b := s32 (a + offset hnd) in
        put_handle handle (set_base b hnd) ;;
        mret (0, Some b)
    end
  else mret (0, Some (base hnd)).

Definition gralloc_unmap (handle : Z) : M W Z :=
  hnd ← get_handle handle;
  (if decide (Z.land (flags hnd) PRIV_FLAGS_FRAMEBUFFER = 0)
   then sys_munmap (u32 (base hnd)) (u32 (size hnd)) ;; mret tt else mret tt) ;;
  put_handle handle (set_base 0 hnd) ;;
  mret 0.

Definition gralloc_register_buffer (handle : Z) : M W Z :=
  v ← validate handle;
  if decide (v < 0) then mret (- EINVAL) else
  hnd ← get_handle handle;
  w ← getW;
  if decide (pid hnd <> g_pid w) then '(err, _) ← gralloc_map handle; mret err else mret 0.

Definition gralloc_unregister_buffer (handle : Z) : M W Z :=
  v ← validate handle;
  if decide (v < 0) then mret (- EINVAL) else
  hnd ← get_handle handle;
  w ← getW;
  (if decide (pid hnd <> g_pid w) then
     if decide (base hnd <> 0) then gralloc_unmap handle ;; mret tt else mret tt
   else mret tt) ;;
  mret 0.

Definition mapBuffer (hnd : Z) : M W Z := '(err, _) ← gralloc_map hnd; mret err.

Definition terminateBuffer (h : Z) : M W Z :=
  hnd ← get_handle h;
  (if decide (base hnd <> 0) then gralloc_unmap h ;; mret tt else mret tt) ;;
  mret 0.

(** The error, and the address stored in [*vaddr]. *)
Definition gralloc_lock (handle : Z) : M W (Z * option Z) :=
  v ← validate handle;
  if decide (v < 0) then mret (- EINVAL, None) else
  hnd ← get_handle handle;
  mret (0, Some (base hnd)).

Definition gralloc_unlock (handle : Z) : M W Z :=
  v ← validate handle;
  if decide (v < 0) then mret (- EINVAL) else mret 0.

(** * Allocation: gralloc.cpp *)

(** The error, and the handle stored in [*pHandle]. *)
Definition gralloc_alloc_buffer (dev sz strd : Z) : M W (Z * option Z) :=
  let sz := roundUpToPageSize sz in
  ctx ← get_dev dev;
  f ← (if hdmiDisplay ctx then
         f ← sys_portalAlloc sz;
         r ← sys_reference f;
         upd_dev dev (set_ref_srcAlloc r) ;;
         mret f
       else mret (-1));
  w ← getW;
  let err := if decide (f < 0) then - g_errno w else 0 in
  if decide (err = 0) then
    let h := g_next w in
    putW (set_g_next (h + 1) (set_g_heap (<[h := set_segmentNumber 0 (set_stride (s32 strd)
            (private_handle_new f (s32 sz) 0 (g_pid w)))]> (g_heap w)) w)) ;;
    err ← mapBuffer h;
    if decide (err = 0) then mret (0, Some h) else mret (err, None)
  else mret (err, None).

Definition bytes_per_pixel (f : format) : option Z :=
  match f with
  | RGBA_8888 | RGBX_8888 | BGRA_8888 => Some 4
  | RGB_888 => Some 3
  | RGB_565 => Some 2
  | OtherFormat _ => None
  end.

(** The value of an [int] expression; overflow is undefined. *)
Definition int (z : Z) : option Z := if decide (- 2 ^ 31 <= z < 2 ^ 31) then Some z else None.

(** Bytes per row, bytes of the buffer, pixels per row. *)
Definition geometry (w h bpp : Z) : option (Z * Z * Z) :=
  x ← int (w * bpp);
  y ← int (x + (32 - 1));
  let bpr := u32 (Z.land y (Z.lnot (32 - 1))) in
  Some (bpr, u32 (bpr * h), bpr / bpp).

(** The error, and what is stored in [*pHandle] and [*pStride]; [ptrs] tells
    that both pointers are given. *)
Definition gralloc_alloc (dev : Z) (ptrs : bool) (w h : Z) (fmt : format) : M W (Z * option Z * option Z) :=
  if negb ptrs then mret (- EINVAL, None, None) else
  match bytes_per_pixel fmt with
  | None => mret (- EINVAL, None, None)
  | Some bpp =>
      '(_, sz, strd) ← defined (geometry w h bpp);
      '(err, hnd) ← gralloc_alloc_buffer dev sz strd;
      if decide (err < 0) then mret (err, hnd, None) else mret (0, hnd, Some (s32 strd))
  end.

Definition gralloc_free (dev handle : Z) : M W Z :=
  v ← validate handle;
  if decide (v < 0) then mret (- EINVAL) else
  hnd ← get_handle handle;
  ctx ← get_dev dev;
  (if hdmiDisplay ctx then sys_close (fd hnd) ;; mret tt else terminateBuffer handle ;; mret tt) ;;
  hnd ← get_handle handle;
  sys_close (fd hnd) ;;
  modifyW (fun w => set_g_heap (delete handle (g_heap w)) w) ;;
  mret 0.

(** [free(ctx)]; [gralloc_dev] is not reset. *)
Definition gralloc_close (dev : Z) : M W Z :=
  (if decide (dev <> 0) then get_dev dev ;; modifyW (fun w => set_g_devs (delete dev (g_devs w)) w)
   else mret tt) ;;
  mret 0.

(** * The frame buffer device *)

Definition fb_setSwapInterval (min max interval : Z) : M W Z :=
  if decide (interval < min \/ interval > max) then mret (- EINVAL) else mret 0.

(** [GrallocHdmiDisplayIndications::vsync] *)
Definition vsync_indication : M W unit :=
  w ← getW; get_dev (g_gdev w) ;; upd_dev (g_gdev w) (set_vsync 1).

(** [while (!gralloc_dev->vsync) pthread_cond_wait(...)]: the lock is released
    while waiting, and a wake-up comes from the indication or from nothing. *)
Fixpoint vsync_wait (fuel : nat) : M W unit :=
  w ← getW;
  d ← get_dev (g_gdev w);
  if decide (vsync d <> 0) then mret tt
  else match fuel with
  | O => block
  | S fuel =>
      w ← getW;
      match g_wakeups w with
      | [] => block
      | b :: l => putW (set_g_wakeups l w) ;; (if (b : bool) then vsync_indication else mret tt) ;; vsync_wait fuel
      end
  end.

Definition fb_post (buffer : Z) : M W Z :=
  v ← validate buffer;
  if decide (v < 0) then mret (- EINVAL) else
  hnd ← get_handle buffer;
  w ← getW;
  if decide (g_gdev w = 0) then mret 0 else
  d ← get_dev (g_gdev w);
  if hdmiDisplay d then
    upd_dev (g_gdev w) (set_vsync 0) ;;
    log (WaitForVsync 0) ;;
    log (StartFrameBuffer (ref_srcAlloc d) (Z.quot (size hnd) 4)) ;;
    log (WaitForVsync 0) ;;
    w ← getW;
    vsync_wait (length (g_wakeups w)) ;;
    mret 0
  else mret 0.

(** ** Display modes *)

Record screen_type : Type := { code : Z; hactive : Z; vactive : Z; hblank : Z; vblank : Z }.

Definition mode (c ha va hb vb : Z) : screen_type :=
  {| code := c; hactive := ha; vactive := va; hblank := hb; vblank := vb |}.

Definition screen_types : list screen_type := [
  mode 1 640 480 160 45;
  mode 2 720 480 138 45; mode 3 720 480 138 45;
  mode 4 1280 720 370 30;
  mode 8 1440 240 276 22; mode 9 1440 240 276 22;
  mode 12 2880 240 552 22; mode 13 2880 240 552 22;
  mode 14 1440 480 276 45; mode 15 1440 480 276 45;
  mode 16 1920 1080 280 45;
  mode 17 720 576 144 49; mode 18 720 576 144 49;
  mode 19 1280 720 700 30;
  mode 23 1440 288 288 24; mode 24 1440 288 288 24;
  mode 27 2880 288 576 24; mode 28 2880 288 576 24;
  mode 29 1440 576 288 49; mode 30 1440 576 288 49;
  mode 31 1920 1080 720 45;
  mode 32 1920 1080 830 45;
  mode 33 1920 1080 720 45;
  mode 34 1920 1080 280 45;
  mode 35 2880 480 552 45; mode 36 2880 480 552 45;
  mode 37 2880 576 576 49; mode 38 2880 576 576 49;
  mode 41 1280 720 700 30;
  mode 42 720 576 144 49; mode 43 720 576 144 49;
  mode 47 1280 720 370 30;
  mode 48 720 480 138 45; mode 49 720 480 138 45;
  mode 52 720 576 144 49; mode 53 720 576 144 49;
  mode 56 720 480 138 45; mode 57 720 480 138 45; mode 0 0 0 0 0].

(** The loop over the table, up to the entry with code 0. *)
Fixpoint find_mode (l : list screen_type) (screen_code : Z) : option screen_type :=
  match l with
  | [] => None
  | s :: l => if decide (code s = 0 \/ code s = screen_code) then Some s else find_mode l screen_code
  end.

(** Lines, pixels, and the blank lines and pixels before them. *)
Definition screen_params (screen_code : Z) : option (Z * Z * Z * Z) :=
  s ← find_mode screen_types screen_code;
  Some (if decide (code s <> 0) then (vactive s, hactive s, vblank s, hblank s) else (480, 720, 45, 138)).

(** [framebuffer_device_t] *)
Record fb_device : Type := { fb_width : Z; fb_height : Z; fb_stride : Z; fb_minSwap : Z; fb_maxSwap : Z }.

Definition stridebytes (npixels : Z) : Z := u16 (Z.land (npixels * 4 + 31) (Z.lnot 31)).

(** The part of [gralloc_device_open] that sets up the display. *)
Definition fb_setup (screen_code : Z) : M W fb_device :=
  '(nlines, npixels, lmin, pmin) ← defined (screen_params screen_code);
  let vsyncwidth := 0 in
  w ← getW;
  get_dev (g_gdev w) ;;
  log (SetDeLineCountMinMax (lmin - vsyncwidth) (lmin + nlines - vsyncwidth)
         (Z.quot (lmin + lmin + nlines) 2 - vsyncwidth)) ;;
  log (SetDePixelCountMinMax pmin (pmin + npixels) (pmin + Z.quot npixels 2)) ;;
  log (SetClockFrequency 1 (60 * (pmin + npixels) * (lmin + nlines))) ;;
  mret {| fb_width := npixels; fb_height := nlines; fb_stride := stridebytes npixels;
          fb_minSwap := 1; fb_maxSwap := 1 |}.

(** ** Opening the devices *)

(** Running the set-up of the transmitter on its bus. *)
Definition lift_i2c {A} (m : M B A) : M W A := fun w =>
  match m (g_i2c w) with
  | Ok a b => Ok a (set_g_i2c b w)
  | Exit c b => Exit c (set_g_i2c b w)
  | Assert b => Assert (set_g_i2c b w)
  | Fault => Fault
  | Block b => Block (set_g_i2c b w)
  end.

(** The [name] argument: "gpu0", [GRALLOC_HARDWARE_FB0] or another. *)
Inductive dev_name : Type := Gpu0 | Fb0 | OtherName.

(** A zeroed context with its proxies. *)
Definition gralloc_context_new : gralloc_context_t :=
  {| hdmiDisplay := true; ref_srcAlloc := 0; vsync := 0; nextSegmentNumber := 0 |}.

(** [gralloc_device_open] for "gpu0": the status and the device; [gralloc_open]
    calls it with that name. *)
Definition gpu0_open (zed : bool) : M W (Z * Z) :=
  lift_i2c (init_i2c_hdmi zed) ;;
  w ← getW;
  let dev := g_next w in
  putW (set_g_gdev dev (set_g_next (dev + 1) (set_g_devs (<[dev := gralloc_context_new]> (g_devs w)) w))) ;;
  mret (0, dev).

(** The status, and the device stored in [*device]. *)
Definition gralloc_device_open (zed : bool) (name : dev_name) (screen_code : Z) :
    M W (Z * option (Z + fb_device)) :=
  match name with
  | Gpu0 => '(status, dev) ← gpu0_open zed; mret (status, Some (inl dev))
  | Fb0 =>
      lift_i2c (init_i2c_hdmi zed) ;;
      '(status, _) ← gpu0_open zed;
      if decide (status < 0) then mret (status, None)
      else d ← fb_setup screen_code; mret (0, Some (inr d))
  | OtherName => lift_i2c (init_i2c_hdmi zed) ;; mret (- EINVAL, None)
  end.
End Gralloc.

(** * Sizes *)

Lemma round32 x : Z.land x (Z.lnot (32 - 1)) = x - x mod 32.
Proof. apply (land_lnot_ones x 5). lia. Qed.

Lemma round_page x : 0 <= x < 2 ^ 32 - 4096 ->
  roundUpToPageSize x = (x + 4095) / 4096 * 4096 /\ x <= roundUpToPageSize x < x + 4096.
Proof.
  intros H. unfold roundUpToPageSize, PAGE_SIZE. rewrite u32_small by lia.
  rewrite (land_lnot_ones _ 12) by lia. change (2 ^ 12) with 4096. zlia.
Qed.

(** An image of [w] by [h] pixels that fits the address arithmetic. *)
Definition image_fits (w h bpp : Z) : Prop :=
  1 <= w /\ 1 <= h /\ w * bpp + 31 < 2 ^ 31 /\ (w * bpp + 31) * h < 2 ^ 31 - 4096.

Lemma geometry_spec w h bpp : 2 <= bpp <= 4 -> image_fits w h bpp -> exists bpr strd,
  geometry w h bpp = Some (bpr, bpr * h, strd) /\ bpr mod 32 = 0 /\ w * bpp <= bpr < w * bpp + 32 /\
  w <= strd /\ strd * bpp <= bpr /\ (bpp <> 3 -> strd * bpp = bpr) /\ 1 <= bpr * h < 2 ^ 31 - 4096.
Proof.
  intros Hb (Hw & Hh & H1 & H2). unfold geometry, int.
  rewrite decide_True by nia. cbn [mbind option_bind]. rewrite decide_True by nia. cbn [mbind option_bind].
  rewrite round32. set (x := w * bpp + (32 - 1)).
  assert (Hx : 0 <= x - x mod 32 <= x) by (unfold x; pose proof (Z.mod_pos_bound x 32 ltac:(lia)); zlia).
  rewrite (u32_small (x - x mod 32)) by lia.
  assert (Hr : w * bpp <= x - x mod 32 < w * bpp + 32) by (unfold x; zlia).
  assert (Hs : 1 <= (x - x mod 32) * h < 2 ^ 31 - 4096) by nia.
  rewrite u32_small by lia. eexists _, _. split; [reflexivity|]. split; [unfold x; zlia|].
  split; [done|]. split; [|split; [|split; [|done]]].
  - apply Z.div_le_lower_bound; lia.
  - rewrite Z.mul_comm. apply Z.mul_div_le. lia.
  - intros Hne. assert (bpp = 2 \/ bpp = 4) as [-> | ->] by lia; zlia.
Qed.

(** * Allocation and release *)

Section GrallocFacts.
Context {B : Type} `{!I2cOs B}.
Implicit Types w : G B.

(** The device is open, and the kernel answers with the descriptor [f], the
    reference [r] and the address [a] of a new buffer. *)
Record serves w (dev f r a : Z) (la lm : list (Z + Z)) (lr : list Z) : Prop := {
  sv_dev : exists d, g_devs w !! dev = Some d /\ hdmiDisplay d = true;
  sv_alloc : g_allocs w = inr f :: la;
  sv_ref : g_refs w = r :: lr;
  sv_mmap : g_mmaps w = inr a :: lm;
  sv_fd : 0 <= f;
  sv_addr : 0 < a < 2 ^ 31
}.

(** The process after a buffer of [sz] bytes was allocated. *)
Definition allocated (dev f r a sz strd : Z) (la : list (Z + Z)) (lm : list (Z + Z)) (lr : list Z) w : G B :=
  {| g_errno := g_errno w; g_pid := g_pid w; g_fds := {[f]} ∪ g_fds w; g_maps := <[a := sz]> (g_maps w);
     g_allocs := la; g_mmaps := lm; g_refs := lr;
     g_heap := <[g_next w := set_base a (set_stride strd (private_handle_new f sz 0 (g_pid w)))]> (g_heap w);
     g_next := g_next w + 1; g_devs := alter (set_ref_srcAlloc r) dev (g_devs w); g_gdev := g_gdev w; g_wakeups := g_wakeups w;
     g_log := g_log w; g_i2c := g_i2c w |}.

Lemma alloc_buffer_ok w dev f r a sz strd la lm lr :
  serves w dev f r a la lm lr -> 1 <= sz < 2 ^ 31 - 4096 -> 0 <= strd < 2 ^ 31 ->
  gralloc_alloc_buffer dev sz strd w
    = Ok (0, Some (g_next w)) (allocated dev f r a (roundUpToPageSize sz) strd la lm lr w).
Proof.
  intros [(d & Hd & Hh) Ha Hr Hm Hf Hadr] Hsz Hst. destruct (round_page sz ltac:(lia)) as [_ Hp].
  unfold gralloc_alloc_buffer. set (s := roundUpToPageSize sz) in *. clearbody s. cbv zeta.
  unfold get_dev. rewrite (bind_ok (getW ≫= _) _ w d w).
  2: { rewrite (bind_ok getW _ w w w) by done. by rewrite Hd. }
  rewrite Hh. unfold sys_portalAlloc, sys_reference, upd_dev, mapBuffer, gralloc_map, get_handle, sys_mmap, put_handle.
  unfold mbind, M_bind, getW, putW, modifyW, mret, M_ret. cbn. rewrite Ha. cbn. rewrite Hr. cbn.
  rewrite (decide_False (P := f < 0)) by lia. rewrite (decide_True (P := 0 = 0)) by done. cbn.
  rewrite lookup_insert_eq. cbn. rewrite (u32_small (s32 s)) by (rewrite s32_small; lia).
  rewrite (s32_small s) by lia.
  rewrite (decide_True (P := Z.land 0 _ = 0)) by done. cbn.
  rewrite (decide_False (P := f ∉ _)) by set_solver. rewrite (decide_False (P := s = 0)) by lia. rewrite Hm. cbn.
  rewrite Z.add_0_r, (s32_small a), (s32_small strd) by lia.
  unfold allocated. cbn. by rewrite insert_insert_eq.
Qed.

Lemma alloc_ok w dev f r a la lm lr wd ht fmt bpp :
  serves w dev f r a la lm lr -> bytes_per_pixel fmt = Some bpp -> image_fits wd ht bpp ->
  exists bpr strd, geometry wd ht bpp = Some (bpr, bpr * ht, strd) /\
    gralloc_alloc dev true wd ht fmt w = Ok (0, Some (g_next w), Some strd)
      (allocated dev f r a (roundUpToPageSize (bpr * ht)) strd la lm lr w).
Proof.
  intros Hs Hf Hfit. assert (Hb : 2 <= bpp <= 4) by (destruct fmt; simplify_eq/=; lia).
  destruct (geometry_spec wd ht bpp Hb Hfit) as (bpr & strd & Eg & _ & Hr & Hw & Hle & _ & Hsz).
  exists bpr, strd. split; [done|]. unfold gralloc_alloc. cbn [negb]. rewrite Hf, Eg, bind_defined. cbn.
  rewrite (bind_ok _ _ _ _ _ (alloc_buffer_ok w dev f r a (bpr * ht) strd la lm lr Hs Hsz ltac:(destruct Hfit; nia))).
  rewrite decide_False by lia. rewrite s32_small by (destruct Hfit; nia). done.
Qed.

(** A handle of this process. *)
Lemma validate_new w h fd sz strd b p : h <> 0 ->
  g_heap w !! h = Some (set_base b (set_stride strd (private_handle_new fd sz 0 p))) ->
  validate h w = Ok 0 w /\
  get_handle h w = Ok (set_base b (set_stride strd (private_handle_new fd sz 0 p))) w.
Proof.
  intros Hh Hl. assert (E : get_handle h w = Ok (set_base b (set_stride strd (private_handle_new fd sz 0 p))) w).
  { unfold get_handle. rewrite (bind_ok getW _ w w w) by done. by rewrite Hl. }
  split; [|done]. unfold validate. rewrite decide_False by done. rewrite (bind_ok _ _ _ _ _ E).
  by rewrite decide_False by (cbn; tauto).
Qed.

(** Releasing a buffer of the portal memory. *)
Lemma free_ok w dev d h fd sz strd b p : h <> 0 -> g_devs w !! dev = Some d -> hdmiDisplay d = true -> fd ∈ g_fds w ->
  g_heap w !! h = Some (set_base b (set_stride strd (private_handle_new fd sz 0 p))) ->
  gralloc_free dev h w = Ok 0 (set_g_heap (delete h (g_heap w)) (set_g_errno EBADF (set_g_fds (g_fds w ∖ {[fd]}) w))).
Proof.
  intros Hh Hd Hdm Hfd Hl. destruct (validate_new w h fd sz strd b p Hh Hl) as [Ev Eg].
  unfold gralloc_free. rewrite (bind_ok _ _ _ _ _ Ev), decide_False by lia. rewrite (bind_ok _ _ _ _ _ Eg).
  rewrite (bind_ok (get_dev _) _ w d w) by (unfold get_dev; by rewrite (bind_ok getW _ w w w), Hd by done).
  rewrite Hdm. unfold get_handle, sys_close, mbind, M_bind, getW, putW, modifyW, mret, M_ret. cbn.
  rewrite decide_True by done. cbn. rewrite Hl. cbn. rewrite decide_False by set_solver. done.
Qed.
End GrallocFacts.

(** [gralloc_alloc] returns a buffer the whole image fits into.  For every
    known pixel format and every image whose size fits the address arithmetic,
    when the kernel grants the memory, the call returns 0, a new handle and a row
    length in pixels such that every pixel lies inside the buffer at the place
    the row length gives it, and rows do not overlap; the buffer is whole pages,
    is mapped at the address [gralloc_lock] returns, and belongs to the
    descriptor of the handle; other handles and mappings are as before. *)
Theorem gralloc_alloc_image {B : Type} `{!I2cOs B} (w : G B) (dev f r a : Z) (la lm : list (Z + Z)) (lr : list Z)
    (wd ht : Z) (fmt : format) (bpp : Z) :
  serves w dev f r a la lm lr -> bytes_per_pixel fmt = Some bpp -> image_fits wd ht bpp -> 0 < g_next w ->
  exists strd sz w', gralloc_alloc dev true wd ht fmt w = Ok (0, Some (g_next w), Some strd) w' /\
    wd <= strd /\ sz mod PAGE_SIZE = 0 /\
    (forall x y, 0 <= x < wd -> 0 <= y < ht -> 0 <= (y * strd + x) * bpp /\ (y * strd + x + 1) * bpp <= sz) /\
    gralloc_lock (g_next w) w' = Ok (0, Some a) w' /\ g_maps w' = <[a := sz]> (g_maps w) /\
    (exists hnd, g_heap w' = <[g_next w := hnd]> (g_heap w) /\ fd hnd = f /\ size hnd = sz) /\ f ∈ g_fds w'.
Proof.
  intros Hs Hf Hfit Hn. assert (Hb : 2 <= bpp <= 4) by (destruct fmt; simplify_eq/=; lia).
  destruct (alloc_ok w dev f r a la lm lr wd ht fmt bpp Hs Hf Hfit) as (bpr & strd & Eg & Ea).
  destruct (geometry_spec wd ht bpp Hb Hfit) as (bpr' & strd' & Eg' & _ & Hr & Hw & Hle & _ & Hsz).
  assert (bpr' = bpr /\ strd' = strd) as [-> ->] by (split; congruence). clear Eg'.
  destruct (round_page (bpr * ht) ltac:(lia)) as [Ep Hp].
  exists strd, (roundUpToPageSize (bpr * ht)). eexists. split; [exact Ea|].
  set (w' := allocated _ _ _ _ _ _ _ _ _ _).
  split; [done|]. split; [rewrite Ep; unfold PAGE_SIZE; apply Z.mod_mul; lia|]. split.
  { intros x y Hx Hy. destruct Hfit as (? & ? & _).
    assert (y * (strd * bpp) <= y * bpr) by nia. assert ((x + 1) * bpp <= strd * bpp) by nia.
    assert ((y + 1) * bpr <= ht * bpr) by nia. split; [nia|]. lia. }
  destruct (validate_new w' (g_next w) f (roundUpToPageSize (bpr * ht)) strd a (g_pid w)) as [Ev Egh]; [lia| |].
  { unfold w', allocated. cbn. apply lookup_insert_eq. }
  split; [|split; [done|split; [by eexists|unfold w', allocated; cbn; set_solver]]].
  unfold gralloc_lock. rewrite (bind_ok _ _ _ _ _ Ev), decide_False by lia. by rewrite (bind_ok _ _ _ _ _ Egh).
Qed.

(** [gralloc_free] gives back the descriptor and the handle of a buffer but not
    its mapping, and closes the descriptor a second time. *)
Theorem gralloc_free_keeps_mapping {B : Type} `{!I2cOs B} (w : G B) (dev f r a : Z) (la lm : list (Z + Z)) (lr : list Z)
    (wd ht : Z) (fmt : format) (bpp : Z) :
  serves w dev f r a la lm lr -> bytes_per_pixel fmt = Some bpp -> image_fits wd ht bpp -> 0 < g_next w ->
  g_heap w !! g_next w = None -> f ∉ g_fds w ->
  exists w' w'' strd, gralloc_alloc dev true wd ht fmt w = Ok (0, Some (g_next w), Some strd) w' /\
    gralloc_free dev (g_next w) w' = Ok 0 w'' /\ g_heap w'' = g_heap w /\ g_fds w'' = g_fds w /\
    g_maps w'' = g_maps w' /\ is_Some (g_maps w'' !! a) /\ g_errno w'' = EBADF.
Proof.
  intros Hs Hf Hfit Hn Hfresh Hfd.
  destruct (alloc_ok w dev f r a la lm lr wd ht fmt bpp Hs Hf Hfit) as (bpr & strd & _ & Ea).
  destruct (sv_dev _ _ _ _ _ _ _ _ Hs) as (d & Hd & Hh).
  eexists _, _, strd. split; [exact Ea|]. split.
  { eapply (free_ok _ dev (set_ref_srcAlloc r d)); [lia|cbn; by rewrite lookup_alter_eq, Hd|done| |cbn; apply lookup_insert_eq].
    cbn. set_solver. }
  cbn. split_and!; try done.
  - by rewrite delete_insert_id.
  - set_solver.
  - by rewrite lookup_insert_eq.
Qed.

(** The sizes wrap: an image of 32768 by 32769 pixels of four bytes, four
    gigabytes, gets a buffer of 128 kilobytes. *)
Lemma geometry_wraps : geometry 32768 32769 4 = Some (131072, 131072, 32768).
Proof. vm_compute. reflexivity. Qed.

(** The row length of a three-byte format is not that of the buffer's rows: for
    ten pixels 30 bytes, where the rows of the buffer are 32 bytes apart. *)
Lemma rgb888_rows : geometry 10 4 3 = Some (32, 128, 10).
Proof. vm_compute. reflexivity. Qed.

(** * Posting *)

Section Posting.
Context {B : Type} `{!I2cOs B}.
Implicit Types w : G B.

Lemma get_dev_ok w dev d : g_devs w !! dev = Some d -> get_dev dev w = Ok d w.
Proof. intros Hd. unfold get_dev. by rewrite (bind_ok getW _ w w w), Hd by done. Qed.

Lemma vsync_wait_ok n l : forall fuel w d, (n < fuel)%nat -> g_devs w !! g_gdev w = Some d -> vsync d = 0 ->
  g_wakeups w = replicate n false ++ true :: l ->
  vsync_wait fuel w = Ok tt (set_g_devs (alter (set_vsync 1) (g_gdev w) (g_devs w)) (set_g_wakeups l w)).
Proof.
  induction n as [|n IH]; intros fuel w d Hn Hd Hv Hw; destruct fuel as [|fuel]; try lia; cbn [vsync_wait];
    rewrite (bind_ok getW _ w w w) by done; rewrite (bind_ok _ _ _ _ _ (get_dev_ok _ _ _ Hd));
    rewrite decide_False by lia; rewrite (bind_ok getW _ w w w) by done; rewrite Hw; cbn [replicate app].
  - rewrite (bind_ok (putW _) _ w tt (set_g_wakeups l w)) by done.
    set (w1 := set_g_wakeups l w). set (w2 := set_g_devs (alter (set_vsync 1) (g_gdev w1) (g_devs w1)) w1).
    rewrite (bind_ok vsync_indication _ w1 tt w2).
    2: { unfold vsync_indication. rewrite (bind_ok getW _ w1 w1 w1) by done.
         by rewrite (bind_ok _ _ _ _ _ (get_dev_ok w1 _ d Hd)). }
    assert (Hd2 : g_devs w2 !! g_gdev w2 = Some (set_vsync 1 d)).
    { cbn. rewrite lookup_alter_eq. by rewrite Hd. }
    destruct fuel; cbn [vsync_wait]; rewrite (bind_ok getW _ w2 w2 w2) by done;
      rewrite (bind_ok _ _ _ _ _ (get_dev_ok _ _ _ Hd2)); by rewrite decide_True by done.
  - rewrite (bind_ok (putW _) _ w tt (set_g_wakeups (replicate n false ++ true :: l) w)) by done.
    rewrite (bind_ok (mret tt) _ _ _ _ eq_refl).
    rewrite (IH fuel (set_g_wakeups (replicate n false ++ true :: l) w) d); [done|lia|done|done|done].
Qed.

Lemma post_ok w d h fd sz strd b p n l : h <> 0 -> g_gdev w <> 0 -> g_devs w !! g_gdev w = Some d ->
  hdmiDisplay d = true ->
  g_heap w !! h = Some (set_base b (set_stride strd (private_handle_new fd sz 0 p))) ->
  g_wakeups w = replicate n false ++ true :: l ->
  exists w', fb_post h w = Ok 0 w' /\ g_wakeups w' = l /\
    g_log w' = g_log w ++ [WaitForVsync 0; StartFrameBuffer (ref_srcAlloc d) (Z.quot sz 4); WaitForVsync 0].
Proof.
  intros Hh Hg Hd Hdm Hl Hw. destruct (validate_new w h fd sz strd b p Hh Hl) as [Ev Eg].
  unfold fb_post. rewrite (bind_ok _ _ _ _ _ Ev), decide_False by lia. rewrite (bind_ok _ _ _ _ _ Eg).
  rewrite (bind_ok getW _ w w w) by done. rewrite decide_False by done.
  rewrite (bind_ok _ _ _ _ _ (get_dev_ok w _ d Hd)), Hdm. unfold upd_dev, log.
  rewrite !(bind_ok (modifyW _) _ _ _ _ eq_refl), (bind_ok getW _ _ _ _ eq_refl).
  match goal with |- context [(_ ≫= _) ?v] => set (w1 := v) end.
  assert (Hd1 : g_devs w1 !! g_gdev w1 = Some (set_vsync 0 d)) by (cbn; by rewrite lookup_alter_eq, Hd).
  rewrite (bind_ok _ _ _ _ _ (vsync_wait_ok n l (length (g_wakeups w1)) w1 _
    ltac:(cbn; rewrite Hw, length_app, length_replicate; cbn; lia) Hd1 eq_refl Hw)).
  eexists. split; [reflexivity|]. split; [done|]. cbn. by rewrite <- !app_assoc.
Qed.
End Posting.

(** [fb_post] shows the buffer that was allocated last, not the one it is
    given.  Two images are allocated one after the other from the device the
    display uses; posting the first validates its handle, asks for the vertical
    sync, starts the display with the reference of the second buffer (and the
    size of the first), asks again, and returns 0 once the sync indication has
    come, whatever number of wake-ups without it comes before. *)
Theorem fb_post_last_allocated {B : Type} `{!I2cOs B} (w : G B) (dev f1 r1 a1 f2 r2 a2 : Z) (la lm : list (Z + Z))
    (lr : list Z) (wd1 ht1 : Z) (fmt1 : format) (bpp1 : Z) (wd2 ht2 : Z) (fmt2 : format) (bpp2 : Z)
    (n : nat) (l : list bool) :
  serves w dev f1 r1 a1 (inr f2 :: la) (inr a2 :: lm) (r2 :: lr) -> 0 <= f2 -> 0 < a2 < 2 ^ 31 ->
  g_gdev w = dev -> dev <> 0 ->
  bytes_per_pixel fmt1 = Some bpp1 -> image_fits wd1 ht1 bpp1 ->
  bytes_per_pixel fmt2 = Some bpp2 -> image_fits wd2 ht2 bpp2 ->
  0 < g_next w -> g_wakeups w = replicate n false ++ true :: l ->
  exists h1 h2 s1 s2 w1 w2 w3 hnd, gralloc_alloc dev true wd1 ht1 fmt1 w = Ok (0, Some h1, Some s1) w1 /\
    gralloc_alloc dev true wd2 ht2 fmt2 w1 = Ok (0, Some h2, Some s2) w2 /\ h1 <> h2 /\
    g_heap w2 !! h1 = Some hnd /\ fb_post h1 w2 = Ok 0 w3 /\ g_wakeups w3 = l /\
    g_log w3 = g_log w ++ [WaitForVsync 0; StartFrameBuffer r2 (Z.quot (size hnd) 4); WaitForVsync 0].
Proof.
  intros Hs Hf2 Ha2 Hg Hdev Hb1 Hfit1 Hb2 Hfit2 Hn Hw.
  destruct (alloc_ok w dev f1 r1 a1 _ _ _ wd1 ht1 fmt1 bpp1 Hs Hb1 Hfit1) as (bpr1 & s1 & _ & E1).
  set (w1 := allocated _ _ _ _ _ _ _ _ _ w) in E1. destruct (sv_dev _ _ _ _ _ _ _ _ Hs) as (d & Hd & Hh).
  assert (Hs1 : serves w1 dev f2 r2 a2 la lm lr).
  { constructor; try done. exists (set_ref_srcAlloc r1 d). cbn. by rewrite lookup_alter_eq, Hd. }
  destruct (alloc_ok w1 dev f2 r2 a2 la lm lr wd2 ht2 fmt2 bpp2 Hs1 Hb2 Hfit2) as (bpr2 & s2 & _ & E2).
  set (w2 := allocated _ _ _ _ _ _ _ _ _ w1) in E2.
  assert (Hl : g_heap w2 !! g_next w = Some (set_base a1 (set_stride s1
                 (private_handle_new f1 (roundUpToPageSize (bpr1 * ht1)) 0 (g_pid w))))).
  { cbn. rewrite lookup_insert_ne by lia. apply lookup_insert_eq. }
  assert (Hd2 : g_devs w2 !! g_gdev w2 = Some (set_ref_srcAlloc r2 (set_ref_srcAlloc r1 d))).
  { cbn. by rewrite Hg, !lookup_alter_eq, Hd. }
  destruct (post_ok w2 _ (g_next w) _ _ _ _ _ n l ltac:(lia) ltac:(cbn; by rewrite Hg) Hd2 Hh Hl Hw)
    as (w3 & E3 & Hw3 & Hlog).
  exists (g_next w), (g_next w + 1), s1, s2, w1, w2, w3. eexists.
  split; [exact E1|]. split; [exact E2|]. split; [lia|]. split; [exact Hl|]. split; [exact E3|]. by split.
Qed.

(** * Buffers of other processes *)

Section OtherProcess.
Context {B : Type} `{!I2cOs B}.
Variables (w : G B) (h f sz strd p a : Z) (lm : list (Z + Z)).

(** The handle with [b] as its base. *)
Definition foreign (b : Z) : private_handle_t := set_base b (set_stride strd (private_handle_new f sz 0 p)).

Definition registered : G B :=
  set_g_heap (<[h := foreign a]> (g_heap w)) (set_g_maps (<[a := sz]> (g_maps w)) (set_g_mmaps lm w)).

Lemma map_ok : g_heap w !! h = Some (foreign 0) -> f ∈ g_fds w -> 0 < sz < 2 ^ 31 ->
  g_mmaps w = inr a :: lm -> 0 < a < 2 ^ 31 -> gralloc_map h w = Ok (0, Some a) registered.
Proof.
  intros Hl Hfd Hsz Hm Ha. unfold gralloc_map, get_handle, sys_mmap, put_handle.
  unfold mbind, M_bind, getW, putW, modifyW, mret, M_ret. rewrite Hl. cbn.
  rewrite (decide_True (P := Z.land 0 _ = 0)) by done. rewrite (decide_False (P := f ∉ _)) by tauto.
  rewrite u32_small by lia. rewrite (decide_False (P := sz = 0)) by lia. rewrite Hm. cbn.
  by rewrite Z.add_0_r, s32_small by lia.
Qed.

Lemma unmap_ok : 0 < a < 2 ^ 31 ->
  gralloc_unmap h registered = Ok 0 (set_g_heap (<[h := foreign 0]> (g_heap registered))
    (set_g_maps (delete a (g_maps registered)) registered)).
Proof.
  intros Ha. unfold gralloc_unmap, get_handle, sys_munmap, put_handle.
  unfold mbind, M_bind, getW, putW, modifyW, mret, M_ret. cbn. rewrite lookup_insert_eq. cbn.
  rewrite (decide_True (P := Z.land 0 _ = 0)) by done. cbn. by rewrite u32_small by lia.
Qed.
End OtherProcess.

(** [gralloc_register_buffer] maps a buffer another process has created,
    [gralloc_lock] returns the mapping, and [gralloc_unregister_buffer] removes
    it and leaves the handle as it was. *)
Theorem register_unregister_buffer {B : Type} `{!I2cOs B} (w : G B) (h f sz strd p a : Z) (lm : list (Z + Z)) :
  h <> 0 -> g_heap w !! h = Some (foreign f sz strd p 0) ->
  p <> g_pid w -> f ∈ g_fds w -> 0 < sz < 2 ^ 31 -> g_mmaps w = inr a :: lm -> 0 < a < 2 ^ 31 ->
  g_maps w !! a = None ->
  exists w1, gralloc_register_buffer h w = Ok 0 w1 /\ g_maps w1 = <[a := sz]> (g_maps w) /\
    gralloc_lock h w1 = Ok (0, Some a) w1 /\
    exists w2, gralloc_unregister_buffer h w1 = Ok 0 w2 /\ g_maps w2 = g_maps w /\ g_heap w2 = g_heap w /\
      g_fds w2 = g_fds w.
Proof.
  intros Hh Hl Hp Hfd Hsz Hm Ha Hfree. destruct (validate_new w h f sz strd 0 p Hh Hl) as [Ev Eg].
  assert (Hl1 : g_heap (registered w h f sz strd p a lm) !! h = Some (foreign f sz strd p a)) by apply lookup_insert_eq.
  destruct (validate_new _ h f sz strd a p Hh Hl1) as [Ev1 Eg1].
  pose proof (map_ok w h f sz strd p a lm Hl Hfd Hsz Hm Ha) as Em.
  pose proof (unmap_ok w h f sz strd p a lm Ha) as Eu. set (w1 := registered w h f sz strd p a lm) in *.
  exists w1. split.
  { unfold gralloc_register_buffer. rewrite (bind_ok _ _ _ _ _ Ev), decide_False by lia.
    rewrite (bind_ok _ _ _ _ _ Eg), (bind_ok getW _ w w w) by done. rewrite decide_True by done.
    by rewrite (bind_ok _ _ _ _ _ Em). }
  split; [done|]. split.
  { unfold gralloc_lock. rewrite (bind_ok _ _ _ _ _ Ev1), decide_False by lia. by rewrite (bind_ok _ _ _ _ _ Eg1). }
  eexists. split.
  { unfold gralloc_unregister_buffer. rewrite (bind_ok _ _ _ _ _ Ev1), decide_False by lia.
    rewrite (bind_ok _ _ _ _ _ Eg1), (bind_ok getW _ w1 w1 w1) by done. rewrite decide_True by done.
    cbn [base set_base]. rewrite (decide_True (P := a <> 0)) by lia.
    unfold mbind, M_bind. rewrite Eu. reflexivity. }
  cbn. split; [|split; [|done]].
  - by apply delete_insert_id.
  - rewrite insert_insert_eq. by apply insert_id.
Qed.

(** * Display modes *)

(** What the display is set up with: the active lines and pixels follow the
    blank ones, the middle is inside them, and the pixel clock is that of 60
    whole frames a second. *)
Definition display_setup (nlines npixels lmin pmin : Z) : list request :=
  [SetDeLineCountMinMax lmin (lmin + nlines) (lmin + nlines / 2);
   SetDePixelCountMinMax pmin (pmin + npixels) (pmin + npixels / 2);
   SetClockFrequency 1 (60 * (pmin + npixels) * (lmin + nlines))].

Definition mode_ok (m : screen_type) : bool :=
  bool_decide (0 < vactive m /\ 0 < hactive m /\ 0 < vblank m /\ 0 < hblank m /\ vactive m mod 2 = 0 /\
    stridebytes (hactive m) = 4 * hactive m /\ 60 * (hblank m + hactive m) * (vblank m + vactive m) < 2 ^ 31).

Lemma modes_ok : forallb (fun m => bool_decide (code m = 0) || mode_ok m) screen_types = true.
Proof. vm_compute. reflexivity. Qed.

Lemma find_mode_some l c : Exists (fun m => code m = 0) l -> exists m, find_mode l c = Some m /\ m ∈ l /\
  (code m = 0 \/ code m = c).
Proof.
  induction 1 as [m l H|m l H IH]; cbn [find_mode].
  - rewrite decide_True by tauto. exists m. split; [done|]. split; [left|by left].
  - destruct (decide _); [exists m; split; [done|]; split; [left|tauto]|].
    destruct IH as (m' & E & Hin & Hc). exists m'. split; [done|]. split; [by right|done].
Qed.

Lemma fb_params c : exists nlines npixels lmin pmin,
  screen_params c = Some (nlines, npixels, lmin, pmin) /\
  mode_ok (mode 1 npixels nlines pmin lmin) = true.
Proof.
  destruct (find_mode_some screen_types c) as (m & Em & Hin & _).
  { apply (bool_decide_unpack _). vm_compute. exact I. }
  unfold screen_params. rewrite Em. cbn [mbind option_bind]. destruct (decide (code m <> 0)) as [Hc|Hc].
  - eexists _, _, _, _. split; [reflexivity|]. apply list_elem_of_In in Hin.
    pose proof (proj1 (List.forallb_forall _ _) modes_ok m Hin) as H. cbv beta in H.
    rewrite bool_decide_eq_false_2 in H by done. exact H.
  - eexists _, _, _, _. split; [reflexivity|]. vm_compute. reflexivity.
Qed.

(** Every screen code sets the display up with a mode of the table, or with 720
    by 480 when the table does not have it; the row length is four bytes a pixel
    and is not cut off by its 16 bits. *)
Theorem fb_setup_modes {B : Type} `{!I2cOs B} (w : G B) (d : gralloc_context_t) (c : Z) :
  g_devs w !! g_gdev w = Some d -> exists nlines npixels lmin pmin w',
    screen_params c = Some (nlines, npixels, lmin, pmin) /\
    fb_setup c w = Ok {| fb_width := npixels; fb_height := nlines; fb_stride := 4 * npixels;
                         fb_minSwap := 1; fb_maxSwap := 1 |} w' /\
    g_log w' = g_log w ++ display_setup nlines npixels lmin pmin /\
    60 * (pmin + npixels) * (lmin + nlines) < 2 ^ 31.
Proof.
  intros Hd. destruct (fb_params c) as (nlines & npixels & lmin & pmin & Ep & Hok).
  apply bool_decide_eq_true in Hok as (H1 & H2 & H3 & H4 & H5 & H6 & H7). cbn in H1, H2, H3, H4, H5, H6, H7.
  exists nlines, npixels, lmin, pmin. eexists. split; [done|]. unfold fb_setup. rewrite Ep, bind_defined.
  rewrite (bind_ok getW _ w w w) by done. rewrite (bind_ok _ _ _ _ _ (get_dev_ok w _ d Hd)).
  unfold log. rewrite !(bind_ok (modifyW _) _ _ _ _ eq_refl). rewrite H6. split; [reflexivity|]. split; [|done].
  cbn. rewrite <- !app_assoc. unfold display_setup. cbn.
  rewrite !Z.sub_0_r, !Z.quot_div_nonneg by lia. replace (lmin + lmin + nlines) with (lmin * 2 + nlines) by lia.
  by rewrite Z.div_add_l by lia.
Qed.

(** A process with an open device and memory for two buffers. *)
Module GrallocDemo.
Definition start : G Bus :=
  {| g_errno := 0; g_pid := 7; g_fds := {[3]}; g_maps := ∅; g_allocs := [inr 5; inr 6];
     g_mmaps := [inr 0x40000000; inr 0x50000000]; g_refs := [1; 2]; g_heap := ∅; g_next := 100;
     g_devs := {[90 := gralloc_context_new]}; g_gdev := 90; g_wakeups := [false; true]; g_log := [];
     g_i2c := {| selected := 0; regs := ∅; acks := None |} |}.

Lemma start_serves : serves start 90 5 1 0x40000000 [inr 6] [inr 0x50000000] [2].
Proof. constructor; try done. eexists. by split. Qed.

Lemma gralloc_alloc_image_witness : exists strd sz w',
  gralloc_alloc 90 true 641 480 RGB_565 start = Ok (0, Some 100, Some strd) w' /\ 641 <= strd /\ sz mod PAGE_SIZE = 0 /\
    (forall x y, 0 <= x < 641 -> 0 <= y < 480 -> 0 <= (y * strd + x) * 2 /\ (y * strd + x + 1) * 2 <= sz) /\
    gralloc_lock 100 w' = Ok (0, Some 0x40000000) w' /\ g_maps w' = <[0x40000000 := sz]> (g_maps start) /\
    (exists hnd, g_heap w' = <[100 := hnd]> (g_heap start) /\ fd hnd = 5 /\ size hnd = sz) /\ 5 ∈ g_fds w'.
Proof.
  apply (gralloc_alloc_image start 90 5 1 0x40000000 _ _ _ 641 480 RGB_565 2 start_serves eq_refl);
    [unfold image_fits; lia|reflexivity].
Defined.

Lemma fb_post_last_allocated_witness : exists h1 h2 s1 s2 w1 w2 w3 hnd,
  gralloc_alloc 90 true 640 480 RGBX_8888 start = Ok (0, Some h1, Some s1) w1 /\
    gralloc_alloc 90 true 640 480 RGBX_8888 w1 = Ok (0, Some h2, Some s2) w2 /\ h1 <> h2 /\
    g_heap w2 !! h1 = Some hnd /\ fb_post h1 w2 = Ok 0 w3 /\ g_wakeups w3 = [] /\
    g_log w3 = [] ++ [WaitForVsync 0; StartFrameBuffer 2 (Z.quot (size hnd) 4); WaitForVsync 0].
Proof.
  apply (fb_post_last_allocated start 90 5 1 0x40000000 6 2 0x50000000 [] [] [] 640 480 RGBX_8888 4
           640 480 RGBX_8888 4 1 [] start_serves);
    try reflexivity; try lia; unfold image_fits; lia.
Defined.

(** Opening the frame buffer opens a second allocator device and makes it the
    display's: a buffer allocated from the first device, opened before, is posted
    with the reference of no buffer. *)
Definition open_alloc_post : M (G Bus) (Z * Z) :=
  '(_, gpu) ← gralloc_device_open false Gpu0 2;
  gralloc_device_open false Fb0 2 ;;
  match gpu with
  | Some (inl dev) =>
      '(_, hnd, _) ← gralloc_alloc dev true 640 480 RGBX_8888;
      h ← defined hnd;
      fb_post h ;;
      w ← getW;
      d ← get_dev dev;
      d' ← get_dev (g_gdev w);
      mret (ref_srcAlloc d, ref_srcAlloc d')
  | _ => fault
  end.

Lemma fb0_posts_reference_0 : exists w', open_alloc_post start = Ok (1, 0) w' /\
  List.last (removelast (g_log w')) (WaitForVsync 0) = StartFrameBuffer 0 307200.
Proof. eexists. split; [vm_compute; reflexivity|vm_compute; reflexivity]. Qed.
End GrallocDemo.
