(* ===== verification/KernelRelay.v ===== *)
(** Applications that run in the kernel and use the simulator: the kernel half
    of [cpp/portalSocket.c] (requests handed to user space through a device
    file), the relay [cpp/bsim_relay.c] that passes them on to the simulator,
    and the module [cpp/kernel_module.c] that runs the application.

    The application's thread and the relay interleave at every access to the
    variables they share, so the system is a step relation; the semaphores are
    counts, and a [down] of one that was not initialised does not return.  The simulator
    behind the relay is a class of register operations. *)

From stdpp Require Import base list option relations.
From Stdlib Require Import ZArith Lia.
From S2P Require Import Prelude.

Definition MAGIC_PORTAL_FOR_SENDING_FD : Z := 666.

(** * The shared variables *)

(** [memrequest] and [memresponse], whose tag is neither set nor read here. *)
Record kreq : Type := { kq_portal : Z; kq_write_flag : Z; kq_addr : Z; kq_data : Z }.
Record kresp : Type := { kp_portal : Z; kp_data : Z }.

(** The static variables of [portalSocket.c] and [kernel_module.c]. *)
Record Shared : Type := {
  bsim_start : nat; bsim_avail : option nat; bsim_have_response : option nat;
  have_request : bool; upreq : kreq; downresp : kresp;
  bsim_relay_running : bool; main_program_finished : bool }.

Definition req_zero : kreq := {| kq_portal := 0; kq_write_flag := 0; kq_addr := 0; kq_data := 0 |}.

Definition set_bsim_start (v : nat) (r : Shared) : Shared :=
  {| bsim_start := v; bsim_avail := bsim_avail r; bsim_have_response := bsim_have_response r;
     have_request := have_request r; upreq := upreq r; downresp := downresp r;
     bsim_relay_running := bsim_relay_running r;
     main_program_finished := main_program_finished r |}.
Definition set_bsim_avail (v : option nat) (r : Shared) : Shared :=
  {| bsim_start := bsim_start r; bsim_avail := v; bsim_have_response := bsim_have_response r;
     have_request := have_request r; upreq := upreq r; downresp := downresp r;
     bsim_relay_running := bsim_relay_running r;
     main_program_finished := main_program_finished r |}.
Definition set_bsim_have_response (v : option nat) (r : Shared) : Shared :=
  {| bsim_start := bsim_start r; bsim_avail := bsim_avail r; bsim_have_response := v;
     have_request := have_request r; upreq := upreq r; downresp := downresp r;
     bsim_relay_running := bsim_relay_running r;
     main_program_finished := main_program_finished r |}.
Definition set_have_request (v : bool) (r : Shared) : Shared :=
  {| bsim_start := bsim_start r; bsim_avail := bsim_avail r;
     bsim_have_response := bsim_have_response r; have_request := v; upreq := upreq r;
     downresp := downresp r; bsim_relay_running := bsim_relay_running r;
     main_program_finished := main_program_finished r |}.
Definition set_upreq (v : kreq) (r : Shared) : Shared :=
  {| bsim_start := bsim_start r; bsim_avail := bsim_avail r;
     bsim_have_response := bsim_have_response r; have_request := have_request r; upreq := v;
     downresp := downresp r; bsim_relay_running := bsim_relay_running r;
     main_program_finished := main_program_finished r |}.
Definition set_downresp (v : kresp) (r : Shared) : Shared :=
  {| bsim_start := bsim_start r; bsim_avail := bsim_avail r;
     bsim_have_response := bsim_have_response r; have_request := have_request r;
     upreq := upreq r; downresp := v; bsim_relay_running := bsim_relay_running r;
     main_program_finished := main_program_finished r |}.
Definition set_bsim_relay_running (v : bool) (r : Shared) : Shared :=
  {| bsim_start := bsim_start r; bsim_avail := bsim_avail r;
     bsim_have_response := bsim_have_response r; have_request := have_request r;
     upreq := upreq r; downresp := downresp r; bsim_relay_running := v;
     main_program_finished := main_program_finished r |}.
Definition set_main_program_finished (v : bool) (r : Shared) : Shared :=
  {| bsim_start := bsim_start r; bsim_avail := bsim_avail r;
     bsim_have_response := bsim_have_response r; have_request := have_request r;
     upreq := upreq r; downresp := downresp r; bsim_relay_running := bsim_relay_running r;
     main_program_finished := v |}.

(** * The application's thread *)

(** Register accesses of the application: [read_portal_bsim],
    [write_portal_bsim], [write_portal_fd_bsim]. *)
Inductive kop : Type := KRead (addr id : Z) | KWrite (addr v id : Z) | KWriteFd (buf v id : Z).

(** The request each of them makes; [buf] is the [dma_buf] of the descriptor. *)
Definition request_of (o : kop) : kreq :=
  match o with
  | KRead addr id => {| kq_portal := id; kq_write_flag := 0; kq_addr := addr; kq_data := 0 |}
  | KWrite addr v id => {| kq_portal := id; kq_write_flag := 1; kq_addr := addr; kq_data := v |}
  | KWriteFd buf v id =>
      {| kq_portal := id; kq_write_flag := MAGIC_PORTAL_FOR_SENDING_FD; kq_addr := buf; kq_data := v |}
  end.
Definition waits (o : kop) : bool := match o with KWrite _ _ _ => false | _ => true end.

(** Where the thread is: in [connect_to_bsim] (before the test, before the
    initialisations, before the [down]), between accesses, in an access (before
    the [down] of [bsim_avail], the copy, the flag, the [down] of
    [bsim_have_response], the return), after [main]. *)
Inductive app_pc : Type :=
| AConnect | AInit | AStart
| AIdle | ADown (o : kop) | ACopy (o : kop) | AFlag (o : kop) | AWait (o : kop) | AReturn (o : kop)
| AExit.

(** * The relay *)

(** Where the relay is: before [read], in [connectal_kernel_read] (at the tests,
    the copy, the flag, the [up]), with a request, in [connectal_kernel_write]
    (before the copy and the [up]), after the end. *)
Inductive relay_pc : Type :=
| RRead | RCheck | RCopy | RClear (r : kreq) | RUp (r : kreq) | RServe (r : kreq)
| RReply (v : kresp) | RUpResponse | RDone.

(** The registers behind the relay. *)
Class Regs (D : Type) : Type := {
  reg_read : Z -> Z -> D -> Z * D;      (* address, portal *)
  reg_write : Z -> Z -> Z -> D -> D     (* address, value, portal *)
}.

Section Relay.
Context {D : Type} `{!Regs D}.
(** [dma_buf_fd], and the write of a descriptor to the simulator. *)
Variable dma_buf_fd : Z -> Z.
Variable sock_fd_write : Z -> D -> D.

Record Sys : Type := {
  app : app_pc; prog : list kop; results : list Z;
  sh : Shared; relay : relay_pc; dev : D }.

Definition set_app (v : app_pc) (s : Sys) : Sys :=
  {| app := v; prog := prog s; results := results s; sh := sh s; relay := relay s; dev := dev s |}.
Definition set_prog (v : list kop) (s : Sys) : Sys :=
  {| app := app s; prog := v; results := results s; sh := sh s; relay := relay s; dev := dev s |}.
Definition set_results (v : list Z) (s : Sys) : Sys :=
  {| app := app s; prog := prog s; results := v; sh := sh s; relay := relay s; dev := dev s |}.
Definition set_sh (v : Shared) (s : Sys) : Sys :=
  {| app := app s; prog := prog s; results := results s; sh := v; relay := relay s; dev := dev s |}.
Definition set_relay (v : relay_pc) (s : Sys) : Sys :=
  {| app := app s; prog := prog s; results := results s; sh := sh s; relay := v; dev := dev s |}.
Definition set_dev (v : D) (s : Sys) : Sys :=
  {| app := app s; prog := prog s; results := results s; sh := sh s; relay := relay s; dev := v |}.

(** [down]: [None] while the count is zero or the semaphore is not initialised. *)
Definition down (n : option nat) : option nat := match n with Some (S n) => Some n | _ => None end.
Definition up (n : option nat) : option nat := S <$> n.

Definition kresult (o : kop) (v : Z) : list Z := match o with KRead _ _ => [v] | _ => [] end.

(** One step of the application; [None] when it has to wait or is at its end. *)
Definition app_step (s : Sys) : option Sys :=
  let h := sh s in
  match app s with
  | AConnect => Some (set_app (if bsim_relay_running h then AIdle else AInit) s)
  | AInit => Some (set_app AStart (set_sh (set_bsim_have_response (Some 0%nat) (set_bsim_avail (Some 1%nat) h)) s))
  | AStart => n ← down (Some (bsim_start h)); Some (set_app AIdle (set_sh (set_bsim_start n h) s))
  | AIdle =>
      match prog s with
      | [] => Some (set_app AExit (set_sh (set_main_program_finished true h) s))
      | o :: l =>
          if main_program_finished h
          then Some (set_results (results s ++ kresult o 0) (set_prog l s))
          else Some (set_app (ADown o) (set_prog l s))
      end
  | ADown o => n ← down (bsim_avail h); Some (set_app (ACopy o) (set_sh (set_bsim_avail (Some n) h) s))
  | ACopy o => Some (set_app (AFlag o) (set_sh (set_upreq (request_of o) h) s))
  | AFlag o => Some (set_app (if waits o then AWait o else AIdle) (set_sh (set_have_request true h) s))
  | AWait o =>
      n ← down (bsim_have_response h);
      Some (set_app (AReturn o) (set_sh (set_bsim_have_response (Some n) h) s))
  | AReturn o => Some (set_app AIdle (set_results (results s ++ kresult o (kp_data (downresp h))) s))
  | AExit => None
  end.

(** [connectal_kernel_read] translates the buffer of a request for a descriptor. *)
Definition read_out (r : kreq) : kreq :=
  if decide (kq_write_flag r = MAGIC_PORTAL_FOR_SENDING_FD)
  then {| kq_portal := kq_portal r; kq_write_flag := kq_write_flag r; kq_addr := dma_buf_fd (kq_addr r);
          kq_data := kq_data r |}
  else r.

(** One step of the relay; [None] after its end. *)
Definition relay_step (s : Sys) : option Sys :=
  let h := sh s in
  match relay s with
  | RRead =>
      let h := if bsim_relay_running h then h else set_bsim_start (S (bsim_start h)) h in
      Some (set_relay RCheck (set_sh (set_bsim_relay_running true h) s))
  | RCheck =>
      Some (set_relay (if main_program_finished h then RDone else if have_request h then RCopy else RRead) s)
  | RCopy => let r := read_out (upreq h) in Some (set_relay (RClear r) (set_sh (set_upreq r h) s))
  | RClear r => Some (set_relay (RUp r) (set_sh (set_have_request false h) s))
  | RUp r => Some (set_relay (RServe r) (set_sh (set_bsim_avail (up (bsim_avail h)) h) s))
  | RServe r =>
      if decide (kq_portal r = 666) then
        Some (set_relay (RReply {| kp_portal := kq_portal r; kp_data := 0xdead |})
                (set_dev (sock_fd_write (kq_addr r) (dev s)) s))
      else if decide (kq_write_flag r <> 0) then
        Some (set_relay RRead (set_dev (reg_write (kq_addr r) (kq_data r) (kq_portal r) (dev s)) s))
      else
        let '(v, d) := reg_read (kq_addr r) (kq_portal r) (dev s) in
        Some (set_relay (RReply {| kp_portal := kq_portal r; kp_data := v |}) (set_dev d s))
  | RReply v => Some (set_relay RUpResponse (set_sh (set_downresp v h) s))
  | RUpResponse =>
      Some (set_relay RRead (set_sh (set_bsim_have_response (up (bsim_have_response h)) h) s))
  | RDone => None
  end.

(** Either thread takes a step. *)
Inductive step : Sys -> Sys -> Prop :=
| step_app s s' : app_step s = Some s' -> step s s'
| step_relay s s' : relay_step s = Some s' -> step s s'.

(** The module is unloaded ([pa_exit]) before a relay runs. *)
Definition pa_exit (s : Sys) : option Sys :=
  let h := sh s in
  if bsim_relay_running h then match app s with AExit => Some s | _ => None end
  else Some (set_sh (set_bsim_start (S (bsim_start h)) (set_main_program_finished true h)) s).

(** After [pa_init]: the application starts with [p], the semaphores of the
    requests are not initialised, nothing is requested. *)
Definition pa_init (p : list kop) (d : D) : Sys :=
  {| app := AConnect; prog := p; results := [];
     sh := {| bsim_start := 0; bsim_avail := None; bsim_have_response := None; have_request := false;
              upreq := req_zero; downresp := {| kp_portal := 0; kp_data := 0 |};
              bsim_relay_running := false; main_program_finished := false |};
     relay := RRead; dev := d |}.

(** ** The accesses made directly *)

(** Of an access that sends a descriptor the registers get a write at the
    address that is the descriptor's number. *)
Definition exec_op (o : kop) (d : D) : list Z * D :=
  match o with
  | KRead addr id => let '(v, d) := reg_read addr id d in ([v], d)
  | KWrite addr v id => ([], reg_write addr v id d)
  | KWriteFd buf v id => ([], reg_write (dma_buf_fd buf) v id d)
  end.
Fixpoint exec (l : list kop) (d : D) : list Z * D :=
  match l with
  | [] => ([], d)
  | o :: l => let '(r, d) := exec_op o d in let '(r', d) := exec l d in (r ++ r', d)
  end.
End Relay.

(** * What the relay does to the application's accesses *)

Section RelayInv.
Context {D : Type} `{!Regs D}.
Variable dma_buf_fd : Z -> Z.
Variable sock_fd_write : Z -> D -> D.
Abbreviation Sys := (Sys (D := D)).
Abbreviation step := (step dma_buf_fd sock_fd_write).
Abbreviation exec := (exec dma_buf_fd).
Abbreviation exec_op := (exec_op dma_buf_fd).

(** Accesses of portals the relay does not mistake for a descriptor. *)
Definition numbered (o : kop) : Prop :=
  match o with KRead _ id | KWrite _ _ id | KWriteFd _ _ id => id <> 666 end.
(** ... that send no descriptor. *)
Definition plain (o : kop) : Prop :=
  match o with KRead _ id | KWrite _ _ id => id <> 666 | KWriteFd _ _ _ => False end.

Lemma plain_numbered l : Forall plain l -> Forall numbered l.
Proof. intros H. eapply Forall_impl; [exact H|]. by intros []. Qed.

Lemma exec_app l1 l2 (d : D) :
  exec (l1 ++ l2) d = ((exec l1 d).1 ++ (exec l2 (exec l1 d).2).1, (exec l2 (exec l1 d).2).2).
Proof.
  revert d. induction l1 as [|o l1 IH]; intros d; cbn; [by destruct (exec l2 d)|].
  destruct (exec_op o d) as [r d1]. rewrite IH. destruct (exec l1 d1) as [r1 d2]. cbn. by rewrite app_assoc.
Qed.

(** The request the relay has taken, and the one that waits to be taken. *)
Definition held (r : relay_pc) : list kreq :=
  match r with RClear r | RUp r | RServe r => [r] | _ => [] end.
Definition posted (s : Sys) : list kreq :=
  match relay s with
  | RClear _ => []
  | _ => if have_request (sh s) then [upreq (sh s)] else []
  end.
(** The access the application has begun and not posted. *)
Definition current (a : app_pc) : list kop :=
  match a with ADown o | ACopy o | AFlag o => [o] | _ => [] end.

(** Who may write the request: the application, or the relay that takes it. *)
Definition app_token (a : app_pc) : nat := match a with ACopy _ | AFlag _ => 1 | _ => 0 end.
Definition relay_token (s : Sys) : nat :=
  match relay s with RUp _ => 1 | _ => if have_request (sh s) then 1 else 0 end.
(** A read that was served and whose value is on its way. *)
Definition replying (r : relay_pc) : nat := match r with RReply _ | RUpResponse => 1 | _ => 0 end.
Definition reads1 (o : kop) : nat := match o with KRead _ _ => 1 | _ => 0 end.
Definition waiting (a : app_pc) : nat := match a with AWait o => reads1 o | _ => 0 end.
Fixpoint reads (l : list kop) : nat := match l with [] => 0 | o :: l => reads1 o + reads l end.
(** The request as the relay takes it. *)
Definition taken (o : kop) : kreq := read_out dma_buf_fd (request_of o).

(** The value the application will return, when it has been read. *)
Definition owed (s : Sys) : list Z :=
  match app s with
  | AReturn _ => [kp_data (downresp (sh s))]
  | AWait _ =>
      match relay s with
      | RReply v => [kp_data v]
      | RUpResponse => [kp_data (downresp (sh s))]
      | _ => match bsim_have_response (sh s) with Some (S _) => [kp_data (downresp (sh s))] | _ => [] end
      end
  | _ => []
  end.

Definition is_read (o : kop) : Prop := match o with KRead _ _ => True | _ => False end.

(** The invariant: [done] are the accesses the simulator has seen, [qs] those
    posted or taken and not yet served. *)
Record rinv (p0 : list kop) (d0 : D) (s : Sys) (done qs : list kop) : Prop := {
  ri_prog : p0 = done ++ qs ++ current (app s) ++ prog s;
  ri_queue : exists qh qp, qs = qh ++ qp /\ taken <$> qh = held (relay s) /\ request_of <$> qp = posted s;
  ri_dev : (exec done d0).2 = dev s;
  ri_results : (exec done d0).1 = results s ++ owed s;
  ri_avail : exists a, bsim_avail (sh s) = Some a /\ (a + app_token (app s) + relay_token s = 1)%nat;
  ri_response : exists b, bsim_have_response (sh s) = Some b /\
    (b + replying (relay s) + reads qs = waiting (app s))%nat;
  ri_wait : match app s with AWait o => waits o = true | AReturn o => is_read o | _ => True end;
  ri_fd : match app s with
    | AWait (KWriteFd _ _ _ as o) => exists l, done ++ qs = l ++ [o] /\ Forall plain l
    | _ => Forall plain (done ++ qs)
    end;
  ri_taking : match relay s with
    | RCopy | RClear _ => have_request (sh s) = true | RUp _ => have_request (sh s) = false | _ => True end;
  ri_flag : match app s with AFlag o => upreq (sh s) = request_of o | _ => True end;
  ri_finished : main_program_finished (sh s) = match app s with AExit => true | _ => false end;
  ri_exit : match app s with AExit => prog s = [] | _ => True end;
  ri_begun : match app s with AConnect | AInit | AStart => False | _ => True end
}.

Lemma reads_app l1 l2 : reads (l1 ++ l2) = (reads l1 + reads l2)%nat.
Proof. induction l1 as [|o l1 IH]; cbn; [done|]. rewrite IH. lia. Qed.

Lemma rinv_app p0 d0 s s' done qs : Forall numbered p0 -> rinv p0 d0 s done qs -> app_step s = Some s' ->
  exists done' qs', rinv p0 d0 s' done' qs'.
Proof.
  intros Hp [Hprog Hq Hdev Hres Hav Hre Hw Hfd Ht Hf Hfin Hx Hb] E.
  destruct Hav as (a & Ha & Hat), Hre as (b & Hr & Hrt).
  destruct s as [ap pr rs h re de]. cbn in *. unfold app_step in E. cbn in E.
  destruct ap as [| | | |o|o|o|o|o|]; try done.
  - rewrite Hfin in E. destruct pr as [|o l]; injection E as <-; exists done, qs; constructor; cbn; eauto.
  - rewrite Ha in E. destruct a as [|a]; [done|]. injection E as <-. exists done, qs. constructor; cbn; eauto.
    exists a. split; [done|]. cbn in Hat. unfold relay_token in *. cbn in *. lia.
  - injection E as <-. exists done, qs.
    assert (Hhr : have_request h = false).
    { unfold relay_token in Hat. cbn in Hat. destruct (have_request h); [destruct re; cbn in Hat; lia|done]. }
    constructor; cbn; eauto. destruct Hq as (qh & qp & ? & ? & Hqp). exists qh, qp. split_and!; try done.
    rewrite Hqp. unfold posted. cbn. by rewrite Hhr.
  - injection E as <-. exists done, (qs ++ [o]).
    assert (Hhr : have_request h = false).
    { unfold relay_token in Hat. cbn in Hat. destruct (have_request h); [destruct re; cbn in Hat; lia|done]. }
    assert (Hre : match re with RClear _ | RUp _ | RCopy => False | _ => True end).
    { destruct re; try done; try congruence. cbn in Hat. lia. }
    assert (Hno : numbered o).
    { rewrite Hprog in Hp. rewrite !Forall_app in Hp. destruct Hp as (_ & _ & Hp & _). by inversion Hp. }
    assert (Hpo : match o with KWriteFd _ _ _ => True | _ => Forall plain (done ++ qs ++ [o]) end).
    { destruct o; try done; rewrite app_assoc; by apply Forall_app_2; [|constructor]. }
    constructor; cbn -[waits]; try done.
    + rewrite Hprog, <- !app_assoc. cbn. destruct o; by rewrite ?app_nil_r.
    + destruct Hq as (qh & qp & -> & Hqh & Hqp). exists qh, [o]. unfold posted in *. cbn in *. rewrite Hhr in Hqp.
      assert (qp = []) as -> by (apply fmap_nil_inv with (f := request_of); by destruct re).
      split_and!; [by rewrite app_nil_r|done|]. rewrite Hf. by destruct re.
    + rewrite Hres. f_equal. unfold owed. cbn. cbn in Hrt. destruct o; cbn; try done;
        rewrite Hr; (assert (b = 0%nat) as -> by lia); (assert (replying re = 0%nat) by lia); by destruct re.
    + exists a. split; [done|]. unfold relay_token in *. cbn in *. rewrite Hhr in Hat.
      destruct o; cbn; destruct re; cbn in *; try done; lia.
    + exists b. split; [done|]. rewrite reads_app. destruct o; cbn in *; lia.
    + by destruct o.
    + destruct o; try done. cbn. exists (done ++ qs). by rewrite app_assoc.
    + by destruct re.
    + by destruct o.
    + by destruct o.
    + by destruct o.
    + by destruct o.
  - rewrite Hr in E. destruct b as [|b]; [done|]. injection E as <-. exists done, qs.
    destruct o as [? ?| |]; cbn in Hrt, Hw; [|done|lia].
    assert (b = 0%nat /\ replying re = 0%nat /\ reads qs = 0%nat) as (-> & H1 & H2) by lia.
    constructor; cbn; eauto.
    rewrite Hres. f_equal. unfold owed. cbn. rewrite Hr. by destruct re.
  - injection E as <-. exists done, qs. constructor; cbn; eauto.
    rewrite Hres. unfold owed. cbn. destruct o; try done. cbn. by rewrite app_nil_r.
Qed.

Lemma rinv_relay p0 d0 s s' done qs : Forall numbered p0 -> rinv p0 d0 s done qs ->
  relay_step dma_buf_fd sock_fd_write s = Some s' -> exists done' qs', rinv p0 d0 s' done' qs'.
Proof.
  intros Hp [Hprog Hq Hdev Hres Hav Hre Hw Hfd Ht Hf Hfin Hx Hb] E.
  destruct Hav as (a & Ha & Hat), Hre as (b & Hr & Hrt), Hq as (qh & qp & -> & Hqh & Hqp).
  assert (Hpq : Forall numbered qh) by (rewrite Hprog, !Forall_app in Hp; tauto).
  destruct s as [ap pr rs h re de]. unfold posted, relay_token, owed in *. cbn in *. unfold relay_step in E. cbn in E.
  destruct re as [| | |r|r|r|v| |]; try done.
  - injection E as <-. exists done, (qh ++ qp). destruct (bsim_relay_running h); by constructor; cbn; eauto.
  - injection E as <-. exists done, (qh ++ qp).
    destruct (main_program_finished h) eqn:Em; [constructor; unfold posted, relay_token, owed; cbn; rewrite ?Em; eauto|].
    destruct (have_request h) eqn:Eh; constructor; unfold posted, relay_token, owed; cbn; rewrite ?Em, ?Eh; eauto.
  - rewrite Ht in *. apply fmap_nil_inv in Hqh as ->. destruct qp as [|o [|o2 qs]]; try done. injection Hqp as Hqp.
    injection E as <-. exists done, [o]. cbn in *. constructor; unfold posted, relay_token, owed; cbn; rewrite ?Ht; eauto.
    + exists [o], []. split_and!; [done| |done]. cbn. unfold taken. by rewrite Hqp.
    + destruct ap; try done. cbn in Hat. lia.
  - injection E as <-. rewrite Ht in *. exists done, (qh ++ qp). constructor; unfold posted, relay_token, owed; cbn; eauto.
  - injection E as <-. rewrite Ht, Ha in *. exists done, (qh ++ qp).
    constructor; unfold posted, relay_token, owed; cbn; rewrite ?Ht; eauto.
    eexists. split; [done|]. lia.
  - destruct qh as [|o [|o2 qh]]; try done. injection Hqh as Hqh. subst r. apply Forall_cons_iff in Hpq as [Ho _].
    cbn [app] in *. exists (done ++ [o]), qp. pose proof (exec_app done [o] d0) as He.
    rewrite Hdev, Hres in He. cbn [reads] in Hrt.
    destruct o as [addr id|addr v id|buf v id]; cbn in Ho;
      [change (taken _) with (request_of (KRead addr id)) in E|change (taken _) with (request_of (KWrite addr v id)) in E
      |change (taken _) with {| kq_portal := id; kq_write_flag := MAGIC_PORTAL_FOR_SENDING_FD;
          kq_addr := dma_buf_fd buf; kq_data := v |} in E]; cbn in E; rewrite decide_False in E by done.
    + rewrite decide_False in E by (intros Hn; by apply Hn). cbn in Hrt. destruct ap as [| | | |o'|o'|o'|o'|o'|]; cbn in Hrt; try lia.
      assert (b = 0%nat) as -> by (destruct o'; cbn in Hrt; lia). rewrite Hr in Hres, He.
      cbn in He. destruct (reg_read addr id de) as [v d].
      injection E as <-. cbn in He. rewrite app_nil_r in *.
      constructor; unfold posted, relay_token, owed; cbn; rewrite ?He, <- ?app_assoc; eauto. by exists [], qp.
    + rewrite decide_True in E by done. injection E as <-. cbn in He. rewrite app_nil_r in He.
      constructor; unfold posted, relay_token, owed; cbn; rewrite ?He, <- ?app_assoc; eauto. by exists [], qp.
    + rewrite decide_True in E by done. injection E as <-. cbn in He. rewrite app_nil_r in He.
      constructor; unfold posted, relay_token, owed; cbn; rewrite ?He, <- ?app_assoc; eauto. by exists [], qp.
  - injection E as <-. exists done, (qh ++ qp). destruct ap; cbn in Hrt; try lia.
    constructor; unfold posted, relay_token, owed; cbn; eauto.
  - injection E as <-. exists done, (qh ++ qp). rewrite Hr. destruct ap; cbn in Hrt; try lia.
    constructor; unfold posted, relay_token, owed; cbn; eauto.
    eexists. split; [done|]. lia.
Qed.

(** ** Starting up *)

(** The application has found that no relay runs. *)
Definition started (p : list kop) (d : D) : Sys := set_app AInit (pa_init p d).

Record starting (p0 : list kop) (d0 : D) (s : Sys) : Prop := {
  st_app : app s = AInit \/
    app s = AStart /\ bsim_avail (sh s) = Some 1%nat /\ bsim_have_response (sh s) = Some 0%nat;
  st_prog : prog s = p0; st_results : results s = []; st_dev : dev s = d0;
  st_request : have_request (sh s) = false;
  st_finished : main_program_finished (sh s) = false;
  st_relay : relay s = RRead \/ relay s = RCheck /\ bsim_relay_running (sh s) = true;
  st_count : bsim_start (sh s) = if bsim_relay_running (sh s) then 1%nat else 0%nat }.

Definition kinv (p0 : list kop) (d0 : D) (s : Sys) : Prop :=
  starting p0 d0 s \/ exists done qs, rinv p0 d0 s done qs.

Lemma starting_step p0 d0 s s' : starting p0 d0 s -> step s s' -> kinv p0 d0 s'.
Proof.
  intros [Ha Hp Hr Hd Hq Hf Hl Hc] E. destruct s as [ap pr rs h re de]. cbn in *. subst.
  inversion E as [? ? E1|? ? E1]; subst; clear E; rename E1 into E.
  - destruct Ha as [-> | (-> & Ha & Hb)]; unfold app_step in E; cbn in E.
    + injection E as <-. left. constructor; cbn; eauto.
    + destruct (bsim_relay_running h); rewrite Hc in E; [|done]. injection E as <-.
      right. exists [], []. constructor; unfold posted, relay_token, owed; cbn; rewrite ?Hq; eauto.
      * exists [], []. destruct Hl as [-> | [-> _]]; done.
      * exists 1%nat. destruct Hl as [-> | [-> _]]; done.
      * exists 0%nat. destruct Hl as [-> | [-> _]]; done.
      * destruct Hl as [-> | [-> _]]; done.
  - left. destruct Hl as [-> | [-> Hl]]; unfold relay_step in E; cbn in E.
    + injection E as <-. destruct (bsim_relay_running h); constructor; cbn; eauto.
    + rewrite Hf, Hq in E. injection E as <-. constructor; cbn; eauto.
Qed.

Lemma kinv_step p0 d0 s s' : Forall numbered p0 -> kinv p0 d0 s -> step s s' -> kinv p0 d0 s'.
Proof.
  intros Hp [H|(l & qs & H)] E; [by eapply starting_step|]. right.
  destruct E; eauto using rinv_app, rinv_relay.
Qed.

Lemma kinv_reachable p0 d0 s : Forall numbered p0 -> rtc step (started p0 d0) s -> kinv p0 d0 s.
Proof.
  intros Hp H. assert (H0 : kinv p0 d0 (started p0 d0)) by (left; constructor; cbn; eauto).
  induction H; eauto using kinv_step.
Qed.

(** ** A relay that reads before the application connects *)

Definition relay_first (p : list kop) (d : D) : Sys :=
  set_relay RCheck (set_sh (set_bsim_relay_running true (set_bsim_start 1 (sh (pa_init p d)))) (pa_init p d)).

(** [connect_to_bsim] returns before it initialises the semaphores, and the first
    access waits on one that never counts. *)
Record first_stuck (p0 : list kop) (d0 : D) (s : Sys) : Prop := {
  ft_app : match app s with
    | AConnect | AIdle => prog s = p0 | ADown o => p0 = o :: prog s | AExit => p0 = [] | _ => False end;
  ft_avail : bsim_avail (sh s) = None; ft_request : have_request (sh s) = false;
  ft_running : bsim_relay_running (sh s) = true;
  ft_finished : main_program_finished (sh s) = match app s with AExit => true | _ => false end;
  ft_relay : relay s = RRead \/ relay s = RCheck \/ relay s = RDone;
  ft_results : results s = []; ft_dev : dev s = d0 }.

Lemma first_stuck_step p d s s' : first_stuck p d s -> step s s' -> first_stuck p d s'.
Proof.
  intros [Ha Hv Hq Hn Hf Hl Hr Hd] E. destruct E as [[ap pr rs h re de] s' E|[ap pr rs h re de] s' E]; cbn in *.
  - unfold app_step in E. cbn in E. destruct ap; try done.
    + rewrite Hn in E. injection E as <-. by constructor.
    + rewrite Hf in E. destruct pr as [|o l]; injection E as <-; by constructor.
    + by rewrite Hv in E.
  - unfold relay_step in E. cbn in E. rewrite Hn, Hq in E.
    destruct Hl as [-> | [-> | ->]]; [injection E as <-; constructor; cbn; auto| |done].
    destruct (main_program_finished h) eqn:Em; injection E as <-; constructor; cbn; auto; congruence.
Qed.

Lemma first_stuck_reachable p d s : rtc step (relay_first p d) s -> first_stuck p d s.
Proof.
  intros H. assert (H0 : first_stuck p d (relay_first p d)) by (constructor; cbn; auto).
  induction H; eauto using first_stuck_step.
Qed.

(** After [pa_init] either the application or the relay is first. *)
Lemma init_reachable p d s : rtc step (pa_init p d) s ->
  s = pa_init p d \/ rtc step (started p d) s \/ rtc step (relay_first p d) s.
Proof.
  intros H. inversion H as [|? s1 ? E H1]; subst; [by left|right].
  inversion E as [? ? E1|? ? E1]; subst; unfold app_step, relay_step in E1; cbn in E1; injection E1 as <-;
    [by left|by right].
Qed.

(** ** Refinement *)

Lemma reads_nil_exec l : reads l = 0%nat -> forall d : D, (exec l d).1 = [].
Proof.
  induction l as [|o l IH]; intros Hr d; [done|]. cbn in Hr. destruct o; cbn in Hr; [lia| |];
    cbn; specialize (IH Hr); match goal with |- context [exec l ?e] => specialize (IH e); destruct (exec l e) end;
    by cbn in *; subst.
Qed.

(** What the application and the simulator have seen is a run of the
    application's accesses made directly, in their order: a prefix [done] of the
    program has reached the registers, the application has the values read in it
    (but one that is on its way), and at most two accesses wait in between. *)
Definition refines (p0 : list kop) (d0 : D) (s : Sys) : Prop :=
  exists done qs rest owed, p0 = done ++ qs ++ rest /\ (length qs <= 2)%nat /\ (length owed <= 1)%nat /\
    exec done d0 = (results s ++ owed, dev s) /\
    (app s = AExit -> rest = [] /\ owed = [] /\ reads qs = 0%nat /\ (exec p0 d0).1 = results s) /\
    (app s = AExit -> relay s = RDone -> (length qs <= 1)%nat).

Lemma rinv_refines p0 d0 s done qs : rinv p0 d0 s done qs -> refines p0 d0 s.
Proof.
  intros [Hprog (qh & qp & Hqs & Hqh & Hqp) Hdev Hres Hav Hre Hw _ Ht Hf Hfin Hx Hb].
  exists done, qs, (current (app s) ++ prog s), (owed s).
  assert (Hl : length qs = (length (held (relay s)) + length (posted s))%nat)
    by (by rewrite <- Hqh, <- Hqp, !length_fmap, <- length_app, <- Hqs).
  assert (Hl1 : (length (held (relay s)) <= 1)%nat) by (destruct (relay s); cbn; lia).
  assert (Hl2 : (length (posted s) <= 1)%nat).
  { unfold posted. destruct (relay s), (have_request (sh s)); cbn; lia. }
  split; [done|]. split; [lia|]. split.
  { unfold owed. destruct (app s), (relay s), (bsim_have_response (sh s)) as [[|]|]; cbn; lia. }
  split; [rewrite <- Hres, <- Hdev; by destruct (exec done d0)|]. split.
  - intros Ea. destruct Hre as (b & _ & Hrt). unfold owed in *. rewrite Ea in *. cbn in Hrt.
    rewrite Hx in *. rewrite app_nil_r in *. split_and!; [done|done|lia|]. rewrite Hprog, exec_app. cbn.
    rewrite (reads_nil_exec qs) by lia. by rewrite app_nil_r.
  - intros _ Er. rewrite Er in *. cbn in *. lia.
Qed.

Lemma starting_refines p0 d0 s : starting p0 d0 s -> refines p0 d0 s.
Proof.
  intros [Ha Hp Hr Hd Hq Hf Hl Hc]. exists [], [], p0, []. rewrite Hr, Hd. cbn.
  assert (app s <> AExit) by (destruct Ha as [-> | [-> _]]; done). split_and!; done || lia.
Qed.

Lemma first_stuck_refines p0 d0 s : first_stuck p0 d0 s -> refines p0 d0 s.
Proof.
  intros [Ha Hv Hq Hn Hf Hl Hr Hd]. exists [], [], p0, []. rewrite Hr, Hd. cbn.
  split_and!; [done|lia|lia|done| |lia]. intros Ea. rewrite Ea in Ha. by subst.
Qed.

(** C7: an application in the kernel whose accesses are relayed to the
    simulator sees what it would see if it accessed the registers directly,
    however its thread and the relay interleave from the moment the module is
    loaded: at every point the simulator has performed a prefix of the accesses
    in the order of the program and at most two more are in between; when the
    application has finished, it has read every value of the direct run, and at
    most two writes have not been performed (one, if the relay has ended too:
    it will then never be). The program sends no descriptor and uses no portal
    with number 666. *)
Theorem kernel_relay_refines p0 d0 s : Forall plain p0 -> rtc step (pa_init p0 d0) s -> refines p0 d0 s.
Proof.
  intros Hp%plain_numbered H. destruct (init_reachable p0 d0 s H) as [-> | [H1|H1]].
  - exists [], [], p0, []. split_and!; done || (cbn; lia).
  - destruct (kinv_reachable p0 d0 s Hp H1) as [Hs|(l & qs & Hs)]; eauto using starting_refines, rinv_refines.
  - eauto using first_stuck_refines, first_stuck_reachable.
Qed.

(** ** Progress *)

(** Steps that only ask again: the relay's next [read], and a [read] that found
    nothing ([-EAGAIN]). *)
Definition poll (s : Sys) : bool :=
  match relay s with
  | RRead => true
  | RCheck => negb (main_program_finished (sh s)) && negb (have_request (sh s))
  | _ => false
  end.

(** Runs, by the number of steps that are not the relay's polling. *)
Inductive run : nat -> Sys -> Sys -> Prop :=
| run_nil s : run 0 s s
| run_app n s s1 s2 : app_step s = Some s1 -> run n s1 s2 -> run (S n) s s2
| run_relay n s s1 s2 : relay_step dma_buf_fd sock_fd_write s = Some s1 -> poll s = false ->
    run n s1 s2 -> run (S n) s s2
| run_poll n s s1 s2 : relay_step dma_buf_fd sock_fd_write s = Some s1 -> poll s = true ->
    run n s1 s2 -> run n s s2.

(** The work that is left. *)
Definition app_work (a : app_pc) : nat :=
  match a with
  | AConnect => 5 | AInit => 4 | AStart => 3 | AIdle => 1 | ADown _ => 19 | ACopy _ => 18 | AFlag _ => 17
  | AWait _ => 5 | AReturn _ => 4 | AExit => 0
  end.
Definition relay_work (r : relay_pc) : nat :=
  match r with
  | RRead | RCheck => 1 | RCopy => 10 | RClear _ => 9 | RUp _ => 8 | RServe _ => 7 | RReply _ => 6
  | RUpResponse => 5 | RDone => 0
  end.
Definition work (s : Sys) : nat :=
  (20 * length (prog s) + app_work (app s) + relay_work (relay s) +
   match relay s with RCopy | RClear _ => 0 | _ => if have_request (sh s) then 10 else 0 end)%nat.

Lemma app_step_work s s' : app_step s = Some s' -> (work s' < work s)%nat.
Proof.
  destruct s as [ap pr rs h re de]. unfold app_step, work. cbn -[Nat.mul]. intros E.
  destruct ap as [| | | |o|o|o|o|o|]; try done; cbn -[Nat.mul] in E.
  4: destruct pr; [|destruct (main_program_finished h)].
  all: simplify_option_eq; cbn -[Nat.mul]; destruct re, (have_request h); cbn -[Nat.mul]; try lia.
  all: try (destruct (bsim_relay_running h); cbn; lia); destruct (waits o); cbn; lia.
Qed.

Lemma relay_step_work s s' : relay_step dma_buf_fd sock_fd_write s = Some s' ->
  (work s' + (if poll s then 0 else 1) <= work s)%nat.
Proof.
  destruct s as [ap pr rs h re de]. unfold relay_step, work, poll. cbn -[Nat.mul]. intros E.
  destruct re; try done; cbn -[Nat.mul] in E.
  1: destruct (bsim_relay_running h); simplify_eq; cbn -[Nat.mul]; lia.
  1: destruct (main_program_finished h), (have_request h) eqn:?; simplify_eq; cbn -[Nat.mul]; rewrite ?Heqb; lia.
  1-3: simplify_eq; cbn -[Nat.mul]; destruct (have_request h); lia.
  - repeat match type of E with context [decide ?P] => destruct (decide P) end;
      try destruct (reg_read _ _ _); simplify_eq; cbn -[Nat.mul]; destruct (have_request h); lia.
  - simplify_eq; cbn -[Nat.mul]; destruct (have_request h); lia.
  - simplify_eq; cbn -[Nat.mul]; destruct (have_request h); lia.
Qed.

Lemma run_work n s s' : run n s s' -> (n + work s' <= work s)%nat.
Proof.
  induction 1 as [s|n s s1 s2 E _ IH|n s s1 s2 E Hp _ IH|n s s1 s2 E Hp _ IH]; [lia| | |].
  - apply app_step_work in E. lia.
  - apply relay_step_work in E. rewrite Hp in E. lia.
  - apply relay_step_work in E. rewrite Hp in E. lia.
Qed.

Lemma run_trans n m s s1 s2 : run n s s1 -> run m s1 s2 -> run (n + m) s s2.
Proof. induction 1; intros; [done|eapply run_app|eapply run_relay|eapply run_poll]; eauto. Qed.

Lemma run_steps n s s' : run n s s' -> rtc step s s'.
Proof. induction 1; [done| | |]; (eapply rtc_l; [|done]); by constructor. Qed.

(** The relay ends only when the application has. *)
Definition relay_done_ok (s : Sys) : Prop := relay s = RDone -> main_program_finished (sh s) = true.

Lemma relay_done_step s s' : relay_done_ok s -> step s s' -> relay_done_ok s'.
Proof.
  unfold relay_done_ok. intros H E. destruct E as [[ap pr rs h re de] s' E|[ap pr rs h re de] s' E]; cbn in *.
  - unfold app_step in E. cbn in E. destruct ap; try done; simplify_option_eq; try done.
    destruct pr; [|destruct (main_program_finished h) eqn:?]; simplify_eq; cbn in *; intuition congruence.
  - unfold relay_step in E. cbn in E. destruct re; simplify_option_eq; try done.
    + by destruct (main_program_finished h), (have_request h).
    + by destruct (reg_read _ _ _); simplify_eq.
Qed.

Lemma relay_done_reachable p d s : rtc step (started p d) s -> relay_done_ok s.
Proof.
  intros H. assert (H0 : relay_done_ok (started p d)) by done. induction H; eauto using relay_done_step.
Qed.

Lemma run_relay1 s s' : relay_step dma_buf_fd sock_fd_write s = Some s' -> poll s = false -> run 1 s s'.
Proof. intros. eapply run_relay; eauto using run. Qed.

Lemma run_app1 s s' : app_step s = Some s' -> run 1 s s'.
Proof. intros. econstructor; eauto using run. Qed.

Lemma relay_enabled s : relay s <> RDone -> is_Some (relay_step dma_buf_fd sock_fd_write s).
Proof.
  intros H. unfold relay_step. destruct (relay s); eauto; try done.
  repeat destruct (decide _); eauto. destruct (reg_read _ _ _). eauto.
Qed.

(** While the relay polls and finds nothing, the application is not blocked. *)
Lemma idle_relay_app_enabled p0 d0 s done qs : Forall plain p0 -> rinv p0 d0 s done qs ->
  relay s = RCheck -> have_request (sh s) = false -> app s <> AExit -> is_Some (app_step s).
Proof.
  intros Hp [Hprog (qh & qp & -> & Hqh & Hqp) Hdev Hres (a & Ha & Hat) (b & Hr & Hrt) Hw Hfd Ht Hf Hfin Hx Hb] Er Eh Ea.
  unfold relay_token, posted in *. rewrite Er, Eh in *. cbn in *.
  apply fmap_nil_inv in Hqh as ->. apply fmap_nil_inv in Hqp as ->.
  unfold app_step. destruct (app s); try done; eauto.
  - destruct (prog s); [eauto|]. destruct (main_program_finished _); eauto.
  - rewrite Ha. cbn in Hat. assert (a = 1%nat) as -> by lia. eauto.
  - rewrite Hr. destruct o as [? ?| |]; cbn in Hrt, Hw; [|done|].
    + assert (b = 1%nat) as -> by lia. eauto.
    + destruct Hfd as (l & Hl & _). rewrite app_nil_r in Hl. rewrite Hprog, Hl, !Forall_app in Hp.
      destruct Hp as ((_ & Hp) & _). by inversion Hp.
Qed.

Lemma check_progress p0 d0 s : Forall plain p0 -> kinv p0 d0 s -> relay s = RCheck -> exists s', run 1 s s'.
Proof.
  intros Hp K Er. destruct (poll s) eqn:Ep.
  - assert (is_Some (app_step s)) as [s' E]; [|eauto using run_app1].
    unfold poll in Ep. rewrite Er in Ep.
    destruct (main_program_finished (sh s)) eqn:Em, (have_request (sh s)) eqn:Eh; try done.
    destruct K as [[Ha _ Hr Hd Hq Hf Hl Hc]|(l & qs & K)].
    + destruct Hl as [|[_ Hl]]; [congruence|]. unfold app_step. rewrite Hc, Hl. destruct Ha as [-> | [-> _]]; eauto.
    + eapply idle_relay_app_enabled; eauto. intros Ea. apply ri_finished in K. rewrite Ea in K. congruence.
  - destruct (relay_enabled s) as [s' E]; [congruence|]. eauto using run_relay1.
Qed.

Lemma kinv_progress p0 d0 s : Forall plain p0 -> kinv p0 d0 s -> relay_done_ok s ->
  app s = AExit /\ relay s = RDone \/ exists s', run 1 s s'.
Proof.
  intros Hp K Hd. destruct (relay s) eqn:Er.
  2: by right; eapply check_progress.
  2-7: right; destruct (relay_enabled s) as [s' E]; [congruence|]; exists s'; apply run_relay1; [done|];
    unfold poll; by rewrite Er.
  - right. destruct (relay_enabled s) as [s1 E]; [congruence|].
    assert (Er1 : relay s1 = RCheck) by (unfold relay_step in E; rewrite Er in E; by simplify_eq).
    destruct (check_progress p0 d0 s1) as [s' Hrun]; [done|eauto using kinv_step, step_relay, plain_numbered|done|].
    exists s'. eapply run_poll; eauto. unfold poll. by rewrite Er.
  - left. split; [|done]. specialize (Hd Er). destruct K as [K|(l & qs & K)].
    + apply st_finished in K. congruence.
    + apply ri_finished in K. rewrite Hd in K. by destruct (app s).
Qed.

(** From a state the application can reach when it connects first, the run can be
    carried on to the end. *)
Lemma started_ends p0 d0 s : Forall plain p0 -> rtc step (started p0 d0) s ->
  (app s = AExit /\ relay s = RDone \/ exists s', run 1 s s') /\
  exists m s', run m s s' /\ app s' = AExit /\ relay s' = RDone.
Proof.
  intros Hp Hn.
  assert (Hg : forall s', rtc step s s' -> app s' = AExit /\ relay s' = RDone \/ exists s2, run 1 s' s2).
  { intros s' Hs. assert (Hr : rtc step (started p0 d0) s') by (by etrans).
    eauto using kinv_progress, kinv_reachable, relay_done_reachable, plain_numbered. }
  split; [by apply Hg|]. clear Hn. remember (work s) as w eqn:Ew. revert s Ew Hg.
  induction w as [w IH] using lt_wf_ind. intros s -> Hg. destruct (Hg s) as [|[s1 H1]]; [done|eauto using run_nil|].
  pose proof (run_work _ _ _ H1) as Hw1.
  destruct (IH (work s1) ltac:(lia) s1 eq_refl) as (m & s' & Hm & ?).
  { intros s2 H2. apply Hg. etrans; [|done]. by eapply run_steps. }
  exists (1 + m)%nat, s'. split; [by eapply run_trans|done].
Qed.

(** The application found a relay that runs when it connected, or will. *)
Definition late (s : Sys) : Prop :=
  bsim_relay_running (sh s) = true /\ bsim_avail (sh s) = None /\ app s <> AInit.

Lemma first_stuck_never p d s s' : p <> [] -> first_stuck p d s -> rtc step s s' -> app s' <> AExit.
Proof.
  intros Hp H Hs. assert (H' : first_stuck p d s') by (induction Hs; eauto using first_stuck_step).
  destruct H' as [Ha _ _ _ _ _ _ _]. intros E. by rewrite E in Ha.
Qed.

Lemma started_not_late p d s : Forall plain p -> rtc step (started p d) s -> ~ late s.
Proof.
  intros Hp%plain_numbered H (Hr & Ha & Hi). destruct (kinv_reachable p d s Hp H) as [K|(l & qs & K)].
  - destruct (st_app _ _ _ K) as [?|(_ & ? & _)]; congruence.
  - destruct (ri_avail _ _ _ _ _ K) as (a & ? & _). congruence.
Qed.

(** C8: relayed accesses complete when the application connects before the
    relay's first read. A run from the loading of the module takes, besides the
    relay's polling, at most [20 * n + 6] steps for [n] accesses; from every state
    it reaches in which the relay was not first, either both threads have ended
    or a step that is not polling comes after at most polling, and it can be
    carried on to the end of both: no interleaving deadlocks or loses a wake-up.
    Where the relay was first, the application of a program that makes an access
    never ends. The program sends no descriptor and uses no portal with number 666. *)
Theorem kernel_relay_terminates p0 d0 n s : Forall plain p0 -> run n (pa_init p0 d0) s ->
  (n <= 20 * length p0 + 6)%nat /\
  (~ late s ->
    (app s = AExit /\ relay s = RDone \/ exists s', run 1 s s') /\
    exists m s', run m s s' /\ app s' = AExit /\ relay s' = RDone) /\
  (late s -> p0 <> [] -> forall s', rtc step s s' -> app s' <> AExit).
Proof.
  intros Hp Hn. pose proof (run_work _ _ _ Hn) as Hw. apply run_steps in Hn.
  split; [unfold work in Hw; cbn -[Nat.mul] in Hw; lia|].
  destruct (init_reachable p0 d0 s Hn) as [-> | [H1|H1]].
  - split; [|by intros (? & _)]. intros _.
    assert (E1 : run 1 (pa_init p0 d0) (started p0 d0)) by (by apply run_app1).
    destruct (started_ends p0 d0 (started p0 d0) Hp) as (_ & m & s' & Hm & He); [done|].
    split; [right; by eexists|]. exists (1 + m)%nat, s'. split; [by eapply run_trans|done].
  - split; [intros _; by apply (started_ends p0 d0)|]. intros Hl. by apply started_not_late in H1.
  - pose proof (first_stuck_reachable p0 d0 s H1) as Hf. split; [|intros _ Hne s'; by eapply first_stuck_never].
    intros Hl. destruct Hl. destruct Hf as [Ha Hv _ Hr _ _ _ _]. split_and!; try done. by destruct (app s).
Qed.

(** ** Where it goes wrong *)

(** One run, by a schedule ([true] the application, [false] the relay). *)
Fixpoint schedule (l : list bool) (s : Sys) : option Sys :=
  match l with
  | [] => Some s
  | b :: l => s1 ← (if b then app_step s else relay_step dma_buf_fd sock_fd_write s); schedule l s1
  end.

Lemma schedule_steps l s s' : schedule l s = Some s' -> rtc step s s'.
Proof.
  revert s. induction l as [|b l IH]; intros s E; cbn in E; [by simplify_eq|].
  apply bind_Some in E as (s1 & E1 & E). apply (rtc_l _ _ s1); [|by apply IH].
  destruct b; by constructor.
Qed.

Lemma schedule_run l s s' : schedule l s = Some s' -> exists n, run n s s'.
Proof.
  revert s. induction l as [|b l IH]; intros s E; cbn in E; [simplify_eq; by exists 0%nat; constructor|].
  apply bind_Some in E as (s1 & E1 & E). destruct (IH _ E) as [n Hn]. destruct b; [exists (S n); by eapply run_app|].
  destruct (poll s) eqn:Ep; [exists n; by eapply run_poll|exists (S n); by eapply run_relay].
Qed.

(** the last write of an application can be lost.  The relay's read tests
    whether the application has finished before it looks for a request, so a
    write that is posted when [main] returns never reaches the simulator. *)
Theorem last_write_lost addr v id d : exists s, rtc step (started [KWrite addr v id] d) s /\
  app s = AExit /\ relay s = RDone /\ dev s = d.
Proof.
  pose proof (schedule_steps [false; false; true; true; true; true; true; true; true; false; false]
    (started [KWrite addr v id] d)) as H.
  destruct (schedule _ _) as [s|] eqn:E; vm_compute in E; [|done].
  exists s. split; [by apply H|]. by injection E as <-.
Qed.

(** The first access that is not plain is where it is. *)
Lemma first_fd l1 x r1 l2 y r2 : Forall plain l1 -> ~ plain x -> Forall plain l2 -> ~ plain y ->
  l1 ++ x :: r1 = l2 ++ y :: r2 -> l1 = l2 /\ x = y.
Proof.
  intros H1 Hx. revert l2. induction H1 as [|o l1 Ho _ IH]; intros [|o2 l2] H2 Hy E; injection E as -> E;
    try apply Forall_cons_iff in H2 as [? H2]; try done.
  by destruct (IH l2) as [-> ->].
Qed.

Lemma plain_prefix p1 fd p2 k r : ~ plain fd -> p1 ++ fd :: p2 = k ++ r -> Forall plain k ->
  exists rest, k ++ rest = p1 ++ [fd].
Proof.
  intros Hnp E Hk. apply app_eq_inv in E as [(m & -> & E)|(m & -> & E)].
  { exists (m ++ [fd]). by rewrite app_assoc. }
  destruct m as [|o m]; [exists [fd]; by rewrite app_nil_r|]. injection E as -> _.
  rewrite Forall_app in Hk. destruct Hk as [_ Hk]. by inversion Hk.
Qed.

(** Up to a program's first access that sends a descriptor. *)
Lemma fd_prefix p1 fd p2 d s l qs : Forall plain p1 -> ~ plain fd ->
  rinv (p1 ++ fd :: p2) d s l qs -> app s <> AExit /\ exists rest, l ++ rest = p1 ++ [fd].
Proof.
  intros Hp1 Hnp [Hprog _ _ _ _ _ Hw Hfd _ _ _ Hx _]. split.
  - intros Ea. rewrite Ea in *. rewrite Hx in Hprog. cbn in Hprog. rewrite app_nil_r in Hprog. rewrite <- Hprog in Hfd.
    apply Forall_app in Hfd as [_ Hfd]. by inversion Hfd.
  - assert (Hall : Forall plain (l ++ qs) -> exists rest, l ++ rest = p1 ++ [fd]).
    { rewrite Forall_app. intros [Hl _]. by eapply plain_prefix. }
    destruct (app s) as [| | | |o|o|o|[| |buf v id]|o|]; try (by apply Hall).
    destruct Hfd as (k & Hk & Hkp). rewrite app_assoc, Hk, <- app_assoc in Hprog.
    destruct (first_fd _ _ _ _ _ _ Hp1 Hnp Hkp (fun H : plain (KWriteFd buf v id) => H) Hprog) as [-> ->]. by exists qs.
Qed.

(** C39: an access that sends a descriptor never returns, wherever it stands in
    the program, for a portal with another number than 666 (and plain accesses
    before it). The kernel marks the request in its write flag and the relay
    looks for the mark in the portal number, so it never passes the descriptor
    on nor answers: the application has only values read before the access and
    does not end, and the registers have seen a prefix of the accesses up to
    this one, of which they get a write at the address that is the descriptor's number. *)
Theorem write_fd_never_returns p1 buf v id p2 d s : Forall plain p1 -> Forall numbered p2 -> id <> 666 ->
  rtc step (pa_init (p1 ++ KWriteFd buf v id :: p2) d) s ->
  app s <> AExit /\
  (exists rest, (exec p1 d).1 = results s ++ rest) /\
  exists done rest, done ++ rest = p1 ++ [KWriteFd buf v id] /\ dev s = (exec done d).2.
Proof.
  intros Hp1 Hp2 Hid H. set (fd := KWriteFd buf v id) in *. set (p0 := p1 ++ fd :: p2) in *.
  assert (Hp : Forall numbered p0).
  { apply Forall_app_2; [by apply plain_numbered|]. by constructor. }
  assert (Hstart : results s = [] -> dev s = d -> app s <> AExit ->
    app s <> AExit /\ (exists rest, (exec p1 d).1 = results s ++ rest) /\
    exists done rest, done ++ rest = p1 ++ [fd] /\ dev s = (exec done d).2).
  { intros -> -> He. split; [done|]. split; [by eexists|]. by exists [], (p1 ++ [fd]). }
  destruct (init_reachable p0 d s H) as [-> | [H1|H1]]; [by apply Hstart| |].
  2:{ pose proof (first_stuck_reachable p0 d s H1) as Hf. apply Hstart; try apply Hf.
      eapply first_stuck_never; [|exact Hf|done]. by destruct p1. }
  destruct (kinv_reachable p0 d s Hp H1) as [K|(l & qs & K)].
  { apply Hstart; try apply K. destruct (st_app _ _ _ K) as [-> | [-> _]]; done. }
  destruct (fd_prefix p1 fd p2 d s l qs Hp1 (fun H : plain fd => H) K) as (Hex & rest & Hr).
  split; [done|]. destruct K as [_ _ Hdev Hres _ _ _ _ _ _ _ _ _].
  split; [|exists l, rest; by split].
  assert (Hpre : (exec (p1 ++ [fd]) d).1 = (exec l d).1 ++ (exec rest (exec l d).2).1) by (rewrite <- Hr; apply (f_equal fst (exec_app l rest d))).
  rewrite exec_app in Hpre. cbn in Hpre. rewrite app_nil_r, Hres, <- app_assoc in Hpre. by eexists.
Qed.

(** a relay that runs before the application connects stops it for good:
    no access reaches the simulator and [main] does not return. *)
Theorem relay_first_stuck o p d s : rtc step (pa_init (o :: p) d) (relay_first (o :: p) d) /\
  (rtc step (relay_first (o :: p) d) s -> app s <> AExit /\ results s = [] /\ dev s = d /\ have_request (sh s) = false).
Proof.
  split; [by apply rtc_once, step_relay|]. intros H. pose proof (first_stuck_reachable _ _ _ H) as Hf.
  split_and!; try apply Hf. by apply (first_stuck_never (o :: p) d s s).
Qed.

(** *** Unloading the module when no relay ever ran *)

Lemma finished_app_runs p rs h r (d : D) : main_program_finished h = true ->
  exists s, rtc step {| app := AIdle; prog := p; results := rs; sh := h; relay := r; dev := d |} s /\
    app s = AExit /\ results s = rs ++ mjoin ((fun o => kresult o 0) <$> p) /\ dev s = d.
Proof.
  revert rs. induction p as [|o p IH]; intros rs Hf.
  - eexists. split; [by apply rtc_once, step_app|]. cbn. by rewrite app_nil_r.
  - destruct (IH (rs ++ kresult o 0) Hf) as (s & Hs & Ha & Hr & Hd). exists s. split_and!; try done.
    + eapply rtc_l; [|exact Hs]. apply step_app. unfold app_step. cbn. by rewrite Hf.
    + rewrite Hr. cbn. by rewrite app_assoc.
Qed.

(** [pa_exit] before a relay runs lets the application go on: its accesses do
    nothing, its reads give zero, and [main] returns. *)
Lemma pa_exit_releases p d s : bsim_relay_running (sh s) = false -> app s = AStart -> prog s = p -> dev s = d ->
  exists s1 s2, pa_exit s = Some s1 /\ rtc step s1 s2 /\ app s2 = AExit /\
    results s2 = results s ++ mjoin ((fun o => kresult o 0) <$> p) /\ dev s2 = d.
Proof.
  intros Hn Ha Hp Hd. destruct s as [ap pr rs h r de]. cbn in *. subst. unfold pa_exit. cbn. rewrite Hn.
  destruct (finished_app_runs p rs (set_bsim_start (bsim_start h) (set_main_program_finished true h)) r d)
    as (s2 & H2 & ?); [done|]. eexists _, s2. split; [done|]. split; [|done].
  eapply rtc_l; [|exact H2]. by apply step_app.
Qed.
End RelayInv.

(** * Witnesses *)

(** Registers that keep the writes and read how many there were. *)
#[local] Instance log_regs : Regs (list (Z * Z)) := {|
  reg_read := fun _ _ d => (Z.of_nat (length d), d);
  reg_write := fun addr v _ d => (addr, v) :: d |}.

Definition demo_prog : list kop := [KRead 8 0; KWrite 4 10 0; KWrite 12 11 1].
(** The application connects, reads and gets its value ... *)
Definition demo_read : list bool :=
  [true; true; false; true; true; true; true; true] ++ replicate 7 false ++ [true; true].
(** ... posts a write that the relay takes, posts another and ends. *)
Definition demo_run : list bool := demo_read ++ replicate 4 true ++ replicate 5 false ++ replicate 5 true.

Lemma demo_plain : Forall plain demo_prog.
Proof. by repeat constructor. Qed.

Abbreviation demo_sys := (Sys (D := list (Z * Z))).
Abbreviation demo_schedule := (schedule (D := list (Z * Z)) (fun z => z) (fun _ d => d)).

(** Two writes are under way when the application has finished. *)
Lemma kernel_relay_refines_witness : exists s : demo_sys,
  demo_schedule demo_run (pa_init demo_prog []) = Some s /\ app s = AExit /\ results s = [0] /\ dev s = [] /\
  refines (fun z => z) demo_prog [] s.
Proof.
  destruct (demo_schedule demo_run (pa_init demo_prog [])) as [s|] eqn:E.
  - exists s. split; [done|]. split; [vm_compute in E; by injection E as <-|].
    split; [vm_compute in E; by injection E as <-|]. split; [vm_compute in E; by injection E as <-|].
    apply (kernel_relay_refines (fun z => z) (fun _ d => d)); [apply demo_plain|].
    by apply (schedule_steps _ _ demo_run).
  - by vm_compute in E.
Defined.

(** In the middle of a read, and at the end. *)
Lemma kernel_relay_terminates_witness : exists (s s1 : demo_sys) n m,
  demo_schedule (take 12 demo_run) (pa_init demo_prog []) = Some s /\
  run (fun z => z) (fun _ d => d) n (pa_init demo_prog []) s /\ (n <= 66)%nat /\ relay s = RServe (request_of (KRead 8 0)) /\
  run (fun z => z) (fun _ d => d) m s s1 /\ app s1 = AExit /\ relay s1 = RDone.
Proof.
  destruct (demo_schedule (take 12 demo_run) (pa_init demo_prog [])) as [s|] eqn:E; [|by vm_compute in E].
  destruct (schedule_run _ _ _ _ _ E) as [n Hn].
  assert (Hl : ~ late s /\ relay s = RServe (request_of (KRead 8 0))).
  { vm_compute in E. injection E as <-. split; [by intros (_ & ? & _)|done]. }
  destruct (kernel_relay_terminates _ _ _ _ _ _ demo_plain Hn) as (Hb & Hend & _).
  destruct (Hend (proj1 Hl)) as (_ & m & s1 & Hm & He).
  exists s, s1, n, m. split; [done|]. split; [exact Hn|]. split; [exact Hb|]. split; [apply Hl|]. split; [exact Hm|exact He].
Defined.

Definition fd_prog : list kop := [KWrite 4 10 0; KWriteFd 5 7 0; KRead 8 0].
(** The write and the access that sends the descriptor have both been served. *)
Definition fd_run : list bool :=
  [true; true; false; true] ++ replicate 4 true ++ replicate 7 false ++ replicate 4 true ++ replicate 8 false.

Lemma write_fd_never_returns_witness : exists s : demo_sys,
  schedule (fun b => b + 100) (fun _ d => d) fd_run (pa_init fd_prog []) = Some s /\
  dev s = [(105, 7); (4, 10)] /\ app s = AWait (KWriteFd 5 7 0) /\ relay s = RRead /\ have_request (sh s) = false /\
  forall s', rtc (step (fun b => b + 100) (fun _ d => d)) s s' -> app s' <> AExit.
Proof.
  destruct (schedule (fun b => b + 100) (fun _ d => d) fd_run (pa_init fd_prog [])) as [s|] eqn:E; [|by vm_compute in E].
  exists s. split; [done|]. pose proof (schedule_steps _ _ _ _ _ E) as Hs.
  split; [vm_compute in E; by injection E as <-|]. split; [vm_compute in E; by injection E as <-|].
  split; [vm_compute in E; by injection E as <-|]. split; [vm_compute in E; by injection E as <-|].
  intros s' H'.
  refine (proj1 (write_fd_never_returns (fun b => b + 100) (fun _ d => d) [KWrite 4 10 0] 5 7 0 [KRead 8 0] [] s' _ _ _ _)).
  - by repeat constructor.
  - by repeat constructor.
  - done.
  - by etrans.
Defined.

Lemma relay_first_stuck_witness :
  app (relay_first (D := list (Z * Z)) demo_prog []) <> AExit /\ demo_prog <> [].
Proof.
  split; [|done].
  refine (proj1 (proj2 (relay_first_stuck (fun z => z) (fun _ d => d)
    (KRead 8 0) [KWrite 4 10 0; KWrite 12 11 1] [] _) _)). reflexivity.
Defined.
