(* ===== verification/Imageon.v ===== *)
(** The camera of the Imageon board, [examples/imageon/testimagecapture.cpp]:
    the registers of the image sensor behind a serial bus, the tables of register
    settings, the start-up sequence with its two waits; the clock generator's
    settings of [examples/imageon/i2ccamera.h]; and [examples/imageon/dump_image.cpp],
    which prints captured words field by field.

    The hardware is a class of operations ([Vita]); what the theorems need of it
    is a second class ([VitaLaws]): while the sensor is not held in reset, a
    register that was written keeps its value. *)

From stdpp Require Import base list option.
From Stdlib Require Import ZArith Lia String.
From S2P Require Import Prelude I2cHdmi.
#[local] Open Scope list_scope.
#[local] Open Scope Z_scope.

(** * The board *)

(** Requests that carry a value and have no answer. *)
Inductive board_cmd : Type :=
| set_serdes_training (v : Z) | set_serdes_manual_tap (v : Z) | set_iserdes_control (v : Z)
| set_decoder_control (v : Z) | set_trigger_cnt_trigger (v : Z).

(** [put_spi_request] and [get_iserdes_control] give the value of the indication
    that answers. *)
Class Vita (D : Type) : Type := {
  put_spi_request : Z -> D -> Z * D;
  get_iserdes_control : D -> Z * D;
  board : board_cmd -> D -> D }.

Section Camera.
Context {D : Type} `{!Vita D}.
(** The flag that prints the bus transfers (and reads a register around a write). *)
Variable trace_spi : bool.

(** The hardware and the static variables of the two answers. *)
Record Cam : Type := {
  dev : D;
  cv_iserdes_control : Z; sem_iserdes_control : nat;
  cv_spi_response : Z; sem_spi_response : nat }.

(** ** The indications: they keep the value and post *)

Definition iserdes_control_value (v : Z) (s : Cam) : Cam :=
  {| dev := dev s; cv_iserdes_control := v; sem_iserdes_control := S (sem_iserdes_control s);
     cv_spi_response := cv_spi_response s; sem_spi_response := sem_spi_response s |}.
Definition spi_response (v : Z) (s : Cam) : Cam :=
  {| dev := dev s; cv_iserdes_control := cv_iserdes_control s; sem_iserdes_control := sem_iserdes_control s;
     cv_spi_response := v; sem_spi_response := S (sem_spi_response s) |}.

Definition set_dev (d : D) (s : Cam) : Cam :=
  {| dev := d; cv_iserdes_control := cv_iserdes_control s; sem_iserdes_control := sem_iserdes_control s;
     cv_spi_response := cv_spi_response s; sem_spi_response := sem_spi_response s |}.

Definition init_local_semaphores (s : Cam) : Cam :=
  {| dev := dev s; cv_iserdes_control := cv_iserdes_control s; sem_iserdes_control := 0;
     cv_spi_response := cv_spi_response s; sem_spi_response := 0 |}.

Definition sem_wait_iserdes_control : M Cam unit := fun s =>
  match sem_iserdes_control s with
  | O => Block s
  | S n => Ok tt {| dev := dev s; cv_iserdes_control := cv_iserdes_control s; sem_iserdes_control := n;
                    cv_spi_response := cv_spi_response s; sem_spi_response := sem_spi_response s |}
  end.
Definition sem_wait_spi_response : M Cam unit := fun s =>
  match sem_spi_response s with
  | O => Block s
  | S n => Ok tt {| dev := dev s; cv_iserdes_control := cv_iserdes_control s;
                    sem_iserdes_control := sem_iserdes_control s;
                    cv_spi_response := cv_spi_response s; sem_spi_response := n |}
  end.

Definition cmd (c : board_cmd) : M Cam unit := modifyW (fun s => set_dev (board c (dev s)) s).

(** ** Requests and their answers *)

Definition read_iserdes_control : M Cam Z :=
  modifyW (fun s => let '(v, d) := get_iserdes_control (dev s) in iserdes_control_value v (set_dev d s)) ;;
  sem_wait_iserdes_control ;;
  s ← getW; mret (cv_iserdes_control s).

Definition spi_transfer (v : Z) : M Cam Z :=
  modifyW (fun s => let '(r, d) := put_spi_request v (dev s) in spi_response r (set_dev d s)) ;;
  sem_wait_spi_response ;;
  s ← getW; mret (cv_spi_response s).

Definition vita_spi_read_internal (uAddr : Z) : M Cam Z := spi_transfer (u32 (Z.shiftl uAddr 17)).

Definition vita_spi_write (uAddr uData : Z) : M Cam Z :=
  (if trace_spi then vita_spi_read_internal uAddr ;; mret tt else mret tt) ;;
  spi_transfer (Z.lor (Z.lor (u32 (Z.shiftl uAddr 17)) (Z.shiftl 1 16)) uData) ;;
  (if trace_spi then vita_spi_read_internal uAddr ;; mret tt else mret tt) ;;
  mret 1.

Definition vita_spi_read (uAddr : Z) : M Cam Z :=
  ret ← vita_spi_read_internal uAddr; mret (u16 ret).

(** ** Tables of settings: register, mask, value *)

Definition entry : Type := Z * Z * Z.

Definition vita_spi_seq1 : list entry := [
   (2, 0xFFFF, 0); (32, 0xFFFF, 0x2004); (20, 0xFFFF, 0); (17, 0xFFFF, 0x2113);
   (26, 0xFFFF, 0x2280); (27, 0xFFFF, 0x3D2D); (8, 0xFFFF, 0); (16, 0xFFFF, 0x0003)].
Definition vita_spi_seq3 : list entry := [
   (9, 0xFFFF, 0); (32, 0xFFFF, 0x2006); (34, 0xFFFF, 0x0001)].
Definition vita_spi_seq4 : list entry := [
   (41, 0xFFFF, 0); (129, 0x2000, 0); (65, 0xFFFF, 0x288B); (66, 0xFFFF, 0x53C6);
   (67, 0xFFFF, 0x0344); (68, 0xFFFF, 0x0085); (70, 0xFFFF, 0x4888); (81, 0xFFFF, 0x86A1);
   (128, 0xFFFF, 0x460F); (176, 0xFFFF, 0x00F5); (180, 0xFFFF, 0x00FD); (181, 0xFFFF, 0x0144);
   (194, 0xFFFF, 0x0404); (218, 0xFFFF, 0x160B); (224, 0xFFFF, 0x3E13); (391, 0xFFFF, 0x1010);
   (456, 0xFFFF, 0x0386)].
Definition vita_spi_seq5 : list entry := [
   (32, 0xFFFF, 0x2007); (10, 0xFFFF, 0); (64, 0xFFFF, 0x0001); (72, 0xFFFF, 0x0203);
   (40, 0xFFFF, 0x0003); (48, 0xFFFF, 0x0001); (112, 0xFFFF, 0x0007)].
(** Built without [TRIGGERED_MASTER_MODE] and [STRETCH_VITA_HTIMING]. *)
Definition vita_spi_seq6 : list entry := [(192, 0x0001, 0x0001); (193, 0xFF00, 0)].
Definition vita_autoexp_on_seq : list entry := [(160, 0x0001, 0x0001)].
Definition vita_roi0_crop_1080p_seq : list entry := [(257, 0xFFFF, 0x003C); (258, 0xFFFF, 0x0474)].
Definition vita_mult_timer_line_resolution_seq : list entry := [(199, 0xFFFF, 0x0222)].

(** [vita_spi_write_sequence]: the first loop only reads the masked registers. *)
Fixpoint show_sequence (pConfig : list entry) : M Cam unit :=
  match pConfig with
  | [] => mret tt
  | (a, m, _) :: l =>
      (if decide (m <> 0xFFFF) then vita_spi_read a ;; mret tt else mret tt) ;;
      show_sequence l
  end.
Fixpoint write_sequence (pConfig : list entry) : M Cam unit :=
  match pConfig with
  | [] => mret tt
  | (a, m, v) :: l =>
      uData ← (if decide (m = 0xFFFF) then mret v
               else r ← vita_spi_read a; mret (Z.lor (u16 (Z.land r (Z.lnot m))) v));
      vita_spi_write a uData ;;
      write_sequence l
  end.
Definition vita_spi_write_sequence (pConfig : list entry) : M Cam unit :=
  show_sequence pConfig ;; write_sequence pConfig.

(** ** Starting the sensor *)

Definition VITA_ISERDES_RESET_BIT : Z := 0x01.
Definition VITA_ISERDES_ALIGN_START_BIT : Z := 0x04.
Definition VITA_ISERDES_FIFO_ENABLE_BIT : Z := 0x08.
Definition VITA_DECODER_RESET_BIT : Z := 0x01.
Definition VITA_DECODER_ENABLE_BIT : Z := 0x02.

(** [while (!stop(v) && --timeout) v = read();] gives the last value and the
    timeout that is left. *)
Fixpoint wait_loop (stop : Z -> bool) (read : M Cam Z) (timeout : nat) (v : Z) : M Cam (Z * nat) :=
  if stop v then mret (v, timeout)
  else match timeout with
  | S (S _ as n) => v ← read; wait_loop stop read n v
  | _ => mret (v, 0%nat)
  end.

Definition pll_locked (v : Z) : bool := bool_decide (v <> 0).
Definition align_busy (v : Z) : bool := bool_decide (Z.land v 0x0200 <> 0).

(** How the start-up ends: an unsupported sensor, one of the waits that give up,
    or the end of the function (with the last wait given up or not). *)
Inductive ipipe : Type := Unsupported (id : Z) | PllTimeout | AlignTimeout | Enabled (busy : bool).

Definition trigDutyCycle : Z := 90.
Definition vitaTrigGenDefaultFreq : Z := Z.shiftr ((1920+88+44+148) * (1080+4+5+36)) 2 - 2.

(** The settings written one by one at the end. *)
Definition final_writes : list (Z * Z) :=
  [(192, 0); (193, 0x0400); (192, 0x40); (199, 1); (200, 0); (194, 0); (257, 0x3C); (258, 0x0474); (160, 0x10)].

Fixpoint write_all (l : list (Z * Z)) : M Cam unit :=
  match l with [] => mret tt | (a, v) :: l => vita_spi_write a v ;; write_all l end.

Definition ipipe_align : M Cam ipipe :=
  read_iserdes_control ;; read_iserdes_control ;; read_iserdes_control ;;
  cmd (set_iserdes_control VITA_ISERDES_ALIGN_START_BIT) ;;
  uStatus ← read_iserdes_control;
  '(uStatus, timeout) ← wait_loop align_busy read_iserdes_control 9 uStatus;
  if decide (timeout = 0%nat) then mret AlignTimeout
  else
    cmd (set_iserdes_control 0) ;;
    uStatus ← read_iserdes_control;
    '(uStatus, timeout) ← wait_loop (fun v => negb (align_busy v)) read_iserdes_control 9 uStatus;
    read_iserdes_control ;;
    vita_spi_write_sequence vita_roi0_crop_1080p_seq ;;
    vita_spi_write_sequence vita_mult_timer_line_resolution_seq ;;
    vita_spi_write_sequence vita_autoexp_on_seq ;;
    vita_spi_write_sequence vita_spi_seq6 ;;
    cmd (set_iserdes_control VITA_ISERDES_FIFO_ENABLE_BIT) ;;
    cmd (set_decoder_control VITA_DECODER_ENABLE_BIT) ;;
    write_all final_writes ;;
    cmd (set_trigger_cnt_trigger (vitaTrigGenDefaultFreq * (100 - trigDutyCycle) / 100 + 1)) ;;
    vita_spi_write 194 0x0400 ;;
    vita_spi_write 0x29 0x0700 ;;
    r ← vita_spi_read 192;
    vita_spi_write 192 (Z.lor (Z.lor r 0x71) (Z.shiftl 4 11)) ;;
    mret (Enabled (bool_decide (timeout = 0%nat))).

Definition ipipe_configure : M Cam ipipe :=
  vita_spi_write_sequence vita_spi_seq1 ;;
  '(_, timeout) ← wait_loop pll_locked (vita_spi_read 24) 10 0;
  if decide (timeout = 0%nat) then mret PllTimeout
  else
    vita_spi_write_sequence vita_spi_seq3 ;;
    vita_spi_write_sequence vita_spi_seq4 ;;
    vita_spi_write_sequence vita_spi_seq5 ;;
    ipipe_align.

Definition fmc_imageon_demo_enable_ipipe : M Cam ipipe :=
  cmd (set_serdes_training 0x03A6) ;;
  cmd (set_serdes_manual_tap 25) ;;
  cmd (set_iserdes_control VITA_ISERDES_RESET_BIT) ;;
  cmd (set_decoder_control VITA_DECODER_RESET_BIT) ;;
  cmd (set_iserdes_control 0) ;;
  cmd (set_decoder_control 0) ;;
  uData ← vita_spi_read 0;
  if decide (uData <> 0x5614) then mret (Unsupported uData)
  else ipipe_configure.
End Camera.
Arguments Cam : clear implicits.

(** * What the start-up leaves in the sensor *)

(** The frame of a read and of a write on the bus. *)
Definition read_frame (a : Z) : Z := u32 (Z.shiftl a 17).
Definition write_frame (a v : Z) : Z := Z.lor (Z.lor (u32 (Z.shiftl a 17)) (Z.shiftl 1 16)) v.

(** Bit 0 of the receiver's control word drives the reset pin of the sensor
    ([IserdesDatadeser.bsv], [ImageonVita.bsv]): while it is set the sensor is
    held in reset. *)
Definition resets (c : board_cmd) : bool := match c with set_iserdes_control v => Z.odd v | _ => false end.

(** A sensor: its registers, of which the [stable] ones change only by a write
    and by a reset.  Nothing is assumed of what a reset puts into them, nor of
    the bus while the sensor is held in reset. *)
Class VitaLaws (D : Type) `{!Vita D} : Type := {
  reg : D -> Z -> Z;
  stable : Z -> Prop;
  in_reset : D -> bool;
  spi_read_value d a : in_reset d = false -> stable a -> u16 (put_spi_request (read_frame a) d).1 = reg d a;
  spi_read_keeps d a b : in_reset d = false -> stable b -> reg (put_spi_request (read_frame a) d).2 b = reg d b;
  spi_write_sets d a v b : in_reset d = false -> 0 <= v < 65536 -> stable a -> stable b ->
    reg (put_spi_request (write_frame a v) d).2 b = if decide (b = a) then v else reg d b;
  spi_in_reset d f : 0 <= f -> in_reset (put_spi_request f d).2 = in_reset d;
  iserdes_keeps d b : in_reset d = false -> stable b -> reg (get_iserdes_control d).2 b = reg d b;
  iserdes_in_reset d : in_reset (get_iserdes_control d).2 = in_reset d;
  board_keeps c d b : resets c = false -> stable b -> reg (board c d) b = reg d b;
  board_in_reset c d : in_reset (board c d) = match c with set_iserdes_control v => Z.odd v | _ => in_reset d end }.

(** The reference: a table applied to a register file. *)
Definition apply_entry (e : entry) (r : Z -> Z) (b : Z) : Z :=
  let '(a, m, v) := e in
  if decide (b = a) then (if decide (m = 0xFFFF) then v else Z.lor (Z.land (r a) (Z.lnot m)) v) else r b.
Fixpoint apply_seq (l : list entry) (r : Z -> Z) : Z -> Z :=
  match l with [] => r | e :: l => apply_seq l (apply_entry e r) end.

Lemma apply_seq_app l1 l2 r : apply_seq (l1 ++ l2) r = apply_seq l2 (apply_seq l1 r).
Proof. revert r. induction l1 as [|e l1 IH]; intros r; cbn; [done|apply IH]. Qed.

Lemma land_bound n a b : 0 <= n -> 0 <= a < 2 ^ n -> 0 <= Z.land a b < 2 ^ n.
Proof.
  intros Hn Ha. replace (Z.land a b) with (Z.land a b mod 2 ^ n); [apply Z.mod_pos_bound; lia|].
  rewrite <- land_ones_mod by done. rewrite <- Z.land_assoc, (Z.land_comm b), Z.land_assoc.
  rewrite land_ones_mod by done. by rewrite Z.mod_small.
Qed.

Lemma lor_bound n a b : 0 <= n -> 0 <= a < 2 ^ n -> 0 <= b < 2 ^ n -> 0 <= Z.lor a b < 2 ^ n.
Proof.
  intros Hn Ha Hb. replace (Z.lor a b) with (Z.lor a b mod 2 ^ n); [apply Z.mod_pos_bound; lia|].
  rewrite <- land_ones_mod by done. rewrite Z.land_lor_distr_l, !land_ones_mod by done. by rewrite !Z.mod_small.
Qed.

Lemma read_frame_nonneg a : 0 <= read_frame a.
Proof. unfold read_frame. apply u32_bound. Qed.
Lemma write_frame_nonneg a v : 0 <= v -> 0 <= write_frame a v.
Proof. intros Hv. unfold write_frame. apply Z.lor_nonneg. split; [|done]. apply Z.lor_nonneg. split; [apply u32_bound|done]. Qed.

Section Sensor.
Context {D : Type} `{!Vita D} `{!VitaLaws D}.
Variable trace_spi : bool.
Abbreviation Cam := (Cam D).

Definition idle (s : Cam) : Prop := sem_iserdes_control s = 0%nat /\ sem_spi_response s = 0%nat.
(** No answer is outstanding and the sensor is not held in reset. *)
Definition ready (s : Cam) : Prop := idle s /\ in_reset (dev s) = false.
Definition regs (s : Cam) : Z -> Z := reg (dev s).
Definition entry_ok (e : entry) : Prop := let '(a, m, v) := e in stable a /\ 0 <= m < 65536 /\ 0 <= v < 65536.

(** [m] returns, and does to the registers what a table [l] does, where [P]
    relates the registers before, the result and the table. *)
Definition does {A} (m : M Cam A) (P : (Z -> Z) -> A -> list entry -> Prop) : Prop :=
  forall s, ready s -> exists a s' l, m s = Ok a s' /\ ready s' /\ Forall entry_ok l /\
    (forall b, stable b -> regs s' b = apply_seq l (regs s) b) /\ P (regs s) a l.

Lemma apply_entry_ext e r1 r2 : entry_ok e -> (forall b, stable b -> r1 b = r2 b) ->
  forall b, stable b -> apply_entry e r1 b = apply_entry e r2 b.
Proof. destruct e as [[a m] v]. intros (Ha & _) H b Hb. cbn. by rewrite (H a), (H b). Qed.

Lemma apply_seq_ext l r1 r2 : Forall entry_ok l -> (forall b, stable b -> r1 b = r2 b) ->
  forall b, stable b -> apply_seq l r1 b = apply_seq l r2 b.
Proof.
  revert r1 r2. induction l as [|e l IH]; intros r1 r2 Hl H b Hb; cbn; [by apply H|].
  inversion Hl; subst. apply IH; auto. intros. by apply apply_entry_ext.
Qed.

Lemma does_ret {A} (a : A) : does (mret a) (fun _ a' l => a' = a /\ l = []).
Proof. intros s Hs. exists a, s, []. by repeat split; try apply Hs. Qed.

Lemma does_bind {A B} (m : M Cam A) (k : A -> M Cam B) P Q :
  does m P -> (forall a, does (k a) (Q a)) ->
  does (m ≫= k) (fun r b l => exists a l1 l2 r', l = l1 ++ l2 /\ P r a l1 /\
    (forall x, stable x -> r' x = apply_seq l1 r x) /\ Q a r' b l2).
Proof.
  intros Hm Hk s Hs. destruct (Hm s Hs) as (a & s1 & l1 & E1 & Hs1 & Hl1 & Hr1 & HP).
  destruct (Hk a s1 Hs1) as (b & s2 & l2 & E2 & Hs2 & Hl2 & Hr2 & HQ).
  exists b, s2, (l1 ++ l2). split; [by rewrite (bind_ok _ _ _ _ _ E1)|]. split; [done|]. split; [by apply Forall_app|].
  split; [|by exists a, l1, l2, (regs s1)].
  intros x Hx. rewrite apply_seq_app, Hr2 by done. by apply apply_seq_ext.
Qed.

Lemma does_mono {A} (m : M Cam A) (P Q : (Z -> Z) -> A -> list entry -> Prop) :
  does m P -> (forall r a l, P r a l -> Q r a l) -> does m Q.
Proof. intros Hm H s Hs. destruct (Hm s Hs) as (a & s' & l & ? & ? & ? & ? & HP). exists a, s', l. eauto 10. Qed.

(** ** Each operation as a table *)

(** [m] always does the table [l]. *)
Abbreviation runs m l := (does m (fun _ _ l' => l' = l)).

Lemma does_runs_bind {A B} (m : M Cam A) (k : A -> M Cam B) l1 l2 :
  runs m l1 -> (forall a, runs (k a) l2) -> runs (m ≫= k) (l1 ++ l2).
Proof.
  intros Hm Hk. eapply does_mono; [by apply (does_bind m k (fun _ _ l => l = l1) (fun _ _ _ l => l = l2))|].
  cbn. intros r b l (a & l1' & l2' & r' & -> & -> & _ & ->). done.
Qed.

Lemma runs_does {A B} (m : M Cam A) (k : A -> M Cam B) l1 (P : B -> list entry -> Prop) :
  runs m l1 -> (forall a, does (k a) (fun _ => P)) -> does (m ≫= k) (fun _ b l => exists l2, l = l1 ++ l2 /\ P b l2).
Proof.
  intros Hm Hk. eapply does_mono; [by apply (does_bind m k (fun _ _ l => l = l1) (fun _ _ => P))|].
  cbn. intros r b l (a & l1' & l2' & r' & -> & -> & _ & H). eauto.
Qed.

Lemma does_runs_ret {A} (a : A) : runs (mret a) [].
Proof. eapply does_mono; [apply does_ret|]. by intros ??? [_ ->]. Qed.

Lemma runs_cmd c : resets c = false -> runs (cmd c) [].
Proof.
  intros Hc s [Hi Hs]. exists tt, (set_dev (board c (dev s)) s), []. split; [done|]. split; [|split; [done|split; [|done]]].
  - split; [done|]. cbn. rewrite board_in_reset. by destruct c.
  - intros b Hb. by apply board_keeps.
Qed.

Lemma runs_iserdes : runs read_iserdes_control [].
Proof.
  intros s [[H1 H2] Hn]. unfold read_iserdes_control. cbn. unfold mbind, M_bind, modifyW, getW. cbn.
  pose proof (fun b Hb => iserdes_keeps (dev s) b Hn Hb) as Hk. pose proof (iserdes_in_reset (dev s)) as Hr.
  destruct (get_iserdes_control (dev s)) as [v d]. cbn in *.
  eexists _, _, []. split; [done|]. split; [by split; [|cbn; congruence]|]. split; [done|]. split; [|done]. exact Hk.
Qed.

Lemma spi_transfer_spec v s : 0 <= v -> ready s ->
  exists s', spi_transfer v s = Ok (put_spi_request v (dev s)).1 s' /\ ready s' /\ dev s' = (put_spi_request v (dev s)).2.
Proof.
  intros Hv [[H1 H2] Hn]. unfold spi_transfer. unfold mbind, M_bind, modifyW, getW. cbn. pose proof (spi_in_reset (dev s) v Hv) as Hr.
  destruct (put_spi_request v (dev s)) as [r d]. cbn in *. eexists. split; [done|]. repeat split; try done. cbn. congruence.
Qed.

Lemma runs_read_internal a : runs (vita_spi_read_internal a) [].
Proof.
  intros s Hs. destruct (spi_transfer_spec (read_frame a) s (read_frame_nonneg a) Hs) as (s' & E & Hs' & Hd).
  exists (put_spi_request (read_frame a) (dev s)).1, s', []. split; [done|]. split; [done|]. split; [done|].
  split; [|done]. intros b Hb. unfold regs. rewrite Hd. apply spi_read_keeps; [apply Hs|done].
Qed.

Lemma does_read a : stable a -> does (vita_spi_read a) (fun r v l => v = r a /\ l = []).
Proof.
  intros Ha s Hs. destruct (spi_transfer_spec (read_frame a) s (read_frame_nonneg a) Hs) as (s' & E & Hs' & Hd).
  exists (regs s a), s', []. unfold vita_spi_read. split; [|split; [done|split; [done|split; [|done]]]].
  - rewrite (bind_ok _ _ _ _ _ E). unfold mret, M_ret. by rewrite spi_read_value by (apply Hs || done).
  - intros b Hb. unfold regs. rewrite Hd. apply spi_read_keeps; [apply Hs|done].
Qed.

Lemma runs_read a : runs (vita_spi_read a) [].
Proof. apply (does_runs_bind _ _ [] []); [apply runs_read_internal|]. intros. apply does_runs_ret. Qed.

Lemma runs_trace a : runs (if trace_spi then vita_spi_read_internal a ;; mret tt else mret tt) [].
Proof.
  destruct trace_spi; [|apply does_runs_ret]. apply (does_runs_bind _ _ [] []); [apply runs_read_internal|]. intros. apply does_runs_ret.
Qed.

Lemma runs_write a v : stable a -> 0 <= v < 65536 -> runs (vita_spi_write trace_spi a v) [(a, 0xFFFF, v)].
Proof.
  intros Ha Hv. apply (does_runs_bind _ _ [] [(a, 0xFFFF, v)]); [apply runs_trace|]. intros _.
  apply (does_runs_bind _ _ [(a, 0xFFFF, v)] []); [|intros; apply (does_runs_bind _ _ [] []); [apply runs_trace|intros; apply does_runs_ret]].
  intros s Hs. destruct (spi_transfer_spec (write_frame a v) s (write_frame_nonneg a v (proj1 Hv)) Hs) as (s' & E & Hs' & Hd).
  eexists _, s', _. split; [exact E|]. split; [done|]. split; [|split; [|done]].
  { apply Forall_singleton. cbn. auto with lia. }
  intros b Hb. unfold regs. rewrite Hd. cbn. apply spi_write_sets; [apply Hs|done|done|done].
Qed.

Lemma runs_wait stop m n v : runs m [] -> runs (wait_loop stop m n v) [].
Proof.
  intros Hm. revert v. induction n as [|n IH]; intros v; cbn.
  - destruct (stop v); apply does_runs_ret.
  - destruct (stop v); [apply does_runs_ret|]. destruct n; [apply does_runs_ret|]. by apply (does_runs_bind _ _ [] []).
Qed.

(** Reading a register, changing it and writing it back is one entry. *)
Lemma runs_rmw a m v (f : Z -> Z) : entry_ok (a, m, v) -> m <> 0xFFFF ->
  (forall r, 0 <= r < 65536 -> f r = Z.lor (Z.land r (Z.lnot m)) v) ->
  runs (r ← vita_spi_read a; vita_spi_write trace_spi a (f r)) [(a, m, v)].
Proof.
  intros (Ha & Hm & Hv) Hne Hf s Hs.
  destruct (does_read a Ha s Hs) as (r & s1 & l1 & E1 & Hs1 & _ & Hr1 & -> & ->).
  assert (Hr : 0 <= regs s a < 65536) by (unfold regs; rewrite <- spi_read_value by (apply Hs || done); apply u16_bound).
  assert (Hb : 0 <= f (regs s a) < 65536).
  { rewrite Hf by done. apply (lor_bound 16); [lia|apply (land_bound 16); lia|lia]. }
  destruct (runs_write a (f (regs s a)) Ha Hb s1 Hs1) as (w & s2 & l2 & E2 & Hs2 & _ & Hr2 & ->).
  exists w, s2, [(a, m, v)]. split; [by rewrite (bind_ok _ _ _ _ _ E1)|]. split; [done|].
  split; [by apply Forall_singleton|]. split; [|done]. intros b Hbs. rewrite Hr2 by done. cbn.
  destruct (decide (b = a)) as [_|_]; [|by apply Hr1]. rewrite decide_True by done. rewrite decide_False by done. by apply Hf.
Qed.

Lemma runs_show l : runs (show_sequence l) [].
Proof.
  induction l as [|[[a m] v] l IH]; [apply does_runs_ret|]. apply (does_runs_bind _ _ [] []); [|done].
  destruct (decide _); [|apply does_runs_ret]. apply (does_runs_bind _ _ [] []); [apply runs_read|]. intros. apply does_runs_ret.
Qed.

Lemma runs_write_seq l : Forall entry_ok l -> runs (write_sequence trace_spi l) l.
Proof.
  induction 1 as [|[[a m] v] l He Hl IH]; [apply does_runs_ret|]. cbn [write_sequence].
  destruct (decide (m = 0xFFFF)) as [-> |Hm].
  - intros s Hs. rewrite bind_ret. revert s Hs. destruct He as (Ha & _ & Hv).
    apply (does_runs_bind _ _ [(a, 0xFFFF, v)] l); [by apply runs_write|done].
  - intros s Hs. rewrite bind_assoc.
    assert (H : runs (r ← vita_spi_read a; vita_spi_write trace_spi a (Z.lor (u16 (Z.land r (Z.lnot m))) v)) [(a, m, v)]).
    { apply runs_rmw; [done|done|]. intros r Hr. rewrite u16_small; [done|]. apply (land_bound 16); lia. }
    destruct (does_runs_bind _ (fun _ => write_sequence trace_spi l) _ _ H (fun _ => IH) s Hs) as (x & s' & l' & E & Hx).
    exists x, s', l'. split; [|done]. rewrite <- E, bind_assoc. apply bind_ext. intros. by rewrite bind_ret.
Qed.

Lemma runs_sequence l : Forall entry_ok l -> runs (vita_spi_write_sequence trace_spi l) l.
Proof. intros Hl. apply (does_runs_bind _ _ [] l); [apply runs_show|]. intros. by apply runs_write_seq. Qed.

Lemma runs_write_all l : Forall (fun p => stable p.1 /\ 0 <= p.2 < 65536) l ->
  runs (write_all trace_spi l) ((fun p => (p.1, 0xFFFF, p.2)) <$> l).
Proof.
  induction 1 as [|[a v] l [Ha Hv] Hl IH]; [apply does_runs_ret|]. by apply (does_runs_bind _ _ [_] _); [apply runs_write|].
Qed.

(** ** The start-up *)

(** The settings of each part, in the order they are written. *)
Definition upload_seq : list entry := vita_spi_seq3 ++ vita_spi_seq4 ++ vita_spi_seq5.
Definition enable_seq : list entry :=
  vita_roi0_crop_1080p_seq ++ vita_mult_timer_line_resolution_seq ++ vita_autoexp_on_seq ++ vita_spi_seq6 ++
  ((fun p : Z * Z => (p.1, 0xFFFF, p.2)) <$> final_writes) ++
  [(194, 0xFFFF, 0x0400); (0x29, 0xFFFF, 0x0700); (192, 0, 0x2071)].

(** Every register of the tables, and the identification, is stable. *)
Definition configured : list Z := 0 :: ((fun e : entry => e.1.1) <$> vita_spi_seq1 ++ upload_seq ++ enable_seq).
Context (Hstable : Forall stable configured).

Definition in_tables (l : list entry) : Prop :=
  Forall (fun e => In e.1.1 configured /\ 0 <= e.1.2 < 65536 /\ 0 <= e.2 < 65536) l.

Lemma in_tables_ok l : in_tables l -> Forall entry_ok l.
Proof.
  apply Forall_impl. intros [[a m] v] (Ha & ?). split; [|done]. rewrite Forall_forall in Hstable. by apply Hstable.
Qed.

(** Membership and ranges, by evaluation. *)
Definition in_tablesb (l : list entry) : bool :=
  forallb (fun e => existsb (Z.eqb e.1.1) configured && (0 <=? e.1.2) && (e.1.2 <? 65536) &&
    (0 <=? e.2) && (e.2 <? 65536)) l.

Lemma in_tablesb_ok l : in_tablesb l = true -> Forall entry_ok l.
Proof.
  intros H. apply in_tables_ok. unfold in_tablesb in H. rewrite forallb_forall in H. apply Forall_forall.
  intros e He. specialize (H e He). repeat (apply andb_prop in H as [H ?]).
  apply existsb_exists in H as (x & Hx & Ex). apply Z.eqb_eq in Ex. subst. split; [done|lia].
Qed.

Lemma runs_table l : in_tablesb l = true -> runs (vita_spi_write_sequence trace_spi l) l.
Proof. intros. by apply runs_sequence, in_tablesb_ok. Qed.

Lemma runs_setting a v : in_tablesb [(a, 0xFFFF, v)] = true -> runs (vita_spi_write trace_spi a v) [(a, 0xFFFF, v)].
Proof. intros H. apply in_tablesb_ok, Forall_singleton in H as (? & ? & ?). by apply runs_write. Qed.

Definition align_post (r : ipipe) (l : list entry) : Prop :=
  match r with AlignTimeout => l = [] | Enabled _ => l = enable_seq | _ => False end.

Lemma does_step {A B} l1 (m : M Cam A) (k : A -> M Cam B) (P : B -> list entry -> Prop) :
  runs m l1 -> (forall a, does (k a) (fun _ b l => P b (l1 ++ l))) -> does (m ≫= k) (fun _ => P).
Proof. intros Hm Hk. eapply does_mono; [by apply (runs_does _ _ l1)|]. cbn. by intros r a l (l2 & -> & H). Qed.

Lemma does_end {A} (a : A) (P : A -> list entry -> Prop) : P a [] -> does (mret a) (fun _ => P).
Proof. intros H. eapply does_mono; [apply does_ret|]. by intros r a' l [-> ->]. Qed.

Lemma runs_last : runs (r ← vita_spi_read 192; vita_spi_write trace_spi 192 (Z.lor (Z.lor r 0x71) (Z.shiftl 4 11)))
  [(192, 0, 0x2071)].
Proof.
  apply runs_rmw; [by apply Forall_singleton, in_tablesb_ok|done|].
  intros r _. by rewrite <- Z.lor_assoc, Z.land_m1_r.
Qed.

Lemma does_assoc {A B C} (m : M Cam A) (k : A -> M Cam B) (g : B -> M Cam C) P :
  does ((m ≫= k) ≫= g) P -> does (m ≫= (fun a => k a ≫= g)) P.
Proof. intros H s Hs. destruct (H s Hs) as (c & s' & l & E & ?). exists c, s', l. by rewrite <- bind_assoc. Qed.

(** One operation of the start-up. *)
#[local] Ltac does1 :=
  lazymatch goal with
  | |- does (_ ← cmd _; _) _ => apply (does_step []); [by apply runs_cmd|intros _; cbn [app]]
  | |- does (_ ← read_iserdes_control; _) _ => apply (does_step []); [apply runs_iserdes|intros ?; cbn [app]]
  | |- does (_ ← vita_spi_write_sequence _ ?l; _) _ =>
      apply (does_step l); [by apply runs_table|intros _]
  | |- does (_ ← vita_spi_write _ ?a ?v; _) _ =>
      apply (does_step [(a, 0xFFFF, v)]); [by apply runs_setting|intros _]
  end.

Lemma final_runs : runs (write_all trace_spi final_writes) ((fun p : Z * Z => (p.1, 0xFFFF, p.2)) <$> final_writes).
Proof.
  apply runs_write_all. assert (H : Forall entry_ok ((fun p : Z * Z => (p.1, 0xFFFF, p.2)) <$> final_writes))
    by (by apply in_tablesb_ok).
  rewrite Forall_fmap in H. revert H. apply Forall_impl. by intros [a v] (? & ? & ?).
Qed.

Lemma align_does : does (ipipe_align trace_spi) (fun _ => align_post).
Proof.
  unfold ipipe_align. do 5 does1. apply (does_step []); [apply runs_wait, runs_iserdes|intros [u1 t1]; cbn [app]].
  destruct (decide (t1 = 0%nat)); [by apply does_end|]. do 2 does1.
  apply (does_step []); [apply runs_wait, runs_iserdes|intros [u3 t3]; cbn [app]]. do 7 does1.
  eapply does_step; [apply final_runs|intros _]. do 3 does1.
  apply does_assoc. eapply does_step; [apply runs_last|intros _]. by apply does_end.
Qed.

(** What the start-up does, by how it ends. *)
Definition ipipe_post (r : Z -> Z) (out : ipipe) (l : list entry) : Prop :=
  match out with
  | Unsupported id => id = r 0 /\ id <> 0x5614 /\ l = []
  | PllTimeout => r 0 = 0x5614 /\ l = vita_spi_seq1
  | AlignTimeout => r 0 = 0x5614 /\ l = vita_spi_seq1 ++ upload_seq
  | Enabled _ => r 0 = 0x5614 /\ l = vita_spi_seq1 ++ upload_seq ++ enable_seq
  end.

Lemma configure_does : does (ipipe_configure trace_spi) (fun _ out l =>
  forall r, r 0 = 0x5614 -> ipipe_post r out l).
Proof.
  unfold ipipe_configure. does1. apply (does_step []); [apply runs_wait, runs_read|intros [u t]; cbn [app]].
  destruct (decide (t = 0%nat)); [apply does_end; by rewrite app_nil_r|]. do 3 does1.
  eapply does_mono; [apply align_does|]. cbn. intros _ out l H r Hr. unfold upload_seq.
  destruct out; cbn in H; subst; try done; split; by rewrite ?app_nil_r, <- ?app_assoc.
Qed.

(** An operation that writes nothing, before one whose postcondition looks at
    stable registers only. *)
Lemma does_quiet {A B} (m : M Cam A) (k : A -> M Cam B) (I : A -> (Z -> Z) -> Prop) (P : (Z -> Z) -> B -> list entry -> Prop) :
  (forall r r' b l, (forall x, stable x -> r' x = r x) -> P r' b l -> P r b l) ->
  (forall a r r', (forall x, stable x -> r' x = r x) -> I a r -> I a r') ->
  does m (fun r a l => I a r /\ l = []) -> (forall a, does (k a) (fun r b l => I a r -> P r b l)) -> does (m ≫= k) P.
Proof.
  intros HP HI Hm Hk. eapply does_mono; [by apply (does_bind _ _ _ _ Hm Hk)|]. cbn.
  intros r b l (a & l1 & l2 & r' & -> & [Ha ->] & Hr & H). apply (HP r r'); [done|]. apply H. by apply (HI a r).
Qed.

Lemma ipipe_post_ext r r' out l : (forall x, stable x -> r' x = r x) -> ipipe_post r' out l -> ipipe_post r out l.
Proof. intros H. unfold ipipe_post. rewrite (H 0) by (by inversion Hstable). done. Qed.

Lemma does_cmd {A} c (k : unit -> M Cam A) P : resets c = false ->
  (forall r r' b l, (forall x, stable x -> r' x = r x) -> P r' b l -> P r b l) ->
  does (k tt) P -> does (cmd c ≫= k) P.
Proof.
  intros Hc HP Hk. apply (does_quiet _ _ (fun _ _ => True)); [done|done| |].
  - eapply does_mono; [by apply runs_cmd|]. done.
  - intros []. eapply does_mono; [exact Hk|]. done.
Qed.

(** The start-up after the reset pin has been released. *)
Definition after_release : M Cam ipipe :=
  cmd (set_decoder_control 0) ;;
  uData ← vita_spi_read 0;
  if decide (uData <> 0x5614) then mret (Unsupported uData) else ipipe_configure trace_spi.

Lemma release_does : does after_release ipipe_post.
Proof.
  assert (H0 : stable 0) by (by inversion Hstable).
  unfold after_release. apply does_cmd; [done|apply ipipe_post_ext|].
  apply (does_quiet _ _ (fun id r => id = r 0)); [apply ipipe_post_ext| |by apply does_read|].
  - intros id r r' Hr ->. symmetry. by apply Hr.
  - intros id. destruct (decide (id <> 0x5614)).
    + apply (does_mono _ (fun _ out l => out = Unsupported id /\ l = [])); [apply does_ret|]. cbn. by intros r out l [-> ->].
    + eapply does_mono; [apply configure_does|]. cbn. intros r out l H Hid. apply H. lia.
Qed.

(** The registers right after the reset pin is asserted. *)
Definition reset_regs (s : Cam) : Z -> Z :=
  reg (board (set_iserdes_control VITA_ISERDES_RESET_BIT)
    (board (set_serdes_manual_tap 25) (board (set_serdes_training 0x03A6) (dev s)))).

Lemma enable_does s : idle s -> exists out s' l, fmc_imageon_demo_enable_ipipe trace_spi s = Ok out s' /\ ready s' /\
  ipipe_post (reset_regs s) out l /\ Forall entry_ok l /\ (forall b, stable b -> regs s' b = apply_seq l (reset_regs s) b).
Proof.
  intros Hs.
  set (d1 := board (set_iserdes_control VITA_ISERDES_RESET_BIT) (board (set_serdes_manual_tap 25) (board (set_serdes_training 0x03A6) (dev s)))).
  set (d3 := board (set_iserdes_control 0) (board (set_decoder_control VITA_DECODER_RESET_BIT) d1)).
  assert (Hr : ready (set_dev d3 s)) by (split; [done|cbn; unfold d3; by rewrite board_in_reset]).
  assert (Hk : forall b, stable b -> regs (set_dev d3 s) b = reset_regs s b).
  { intros b Hb. unfold regs, d3. cbn [dev set_dev]. by rewrite !board_keeps. }
  destruct (release_does _ Hr) as (out & s' & l & E & Hs' & Hl & Hrl & HP).
  exists out, s', l. split; [exact E|]. split; [done|]. split; [by eapply ipipe_post_ext|]. split; [done|].
  intros b Hb. rewrite Hrl by done. by apply apply_seq_ext.
Qed.

(** C19: the start-up of the sensor always returns, and leaves in the registers
    exactly what its tables say, applied to whatever the reset at its beginning
    put into them, whatever the sensor and the two waits do: no register of a
    sensor that is not a VITA-2000 is written; a phase-locked loop that does not
    lock leaves only the first table; an alignment that does not start leaves the
    tables up to the power-up; otherwise every table and the final settings have
    been applied, in order.  The sensor is not held in reset at the end, and
    nothing is written while it is. *)
Theorem ipipe_registers s : idle s -> exists out s' l,
  fmc_imageon_demo_enable_ipipe trace_spi s = Ok out s' /\ ready s' /\ ipipe_post (reset_regs s) out l /\
  (forall b, stable b -> regs s' b = apply_seq l (reset_regs s) b).
Proof. intros Hs. destruct (enable_does s Hs) as (out & s' & l & E & Hs' & HP & _ & Hr). eauto 10. Qed.

(** The registers when the start-up has succeeded. *)
Definition enabled_registers : list (Z * Z) := [
  (2, 0); (32, 0x2007); (20, 0); (17, 0x2113); (26, 0x2280); (27, 0x3D2D); (8, 0); (16, 3); (9, 0); (34, 1);
  (41, 0x0700); (65, 0x288B); (66, 0x53C6); (67, 0x0344); (68, 0x0085); (70, 0x4888); (81, 0x86A1); (128, 0x460F);
  (176, 0x00F5); (180, 0x00FD); (181, 0x0144); (194, 0x0400); (218, 0x160B); (224, 0x3E13); (391, 0x1010);
  (456, 0x0386); (10, 0); (64, 1); (72, 0x0203); (40, 3); (48, 1); (112, 7); (257, 0x3C); (258, 0x0474);
  (199, 1); (200, 0); (160, 0x10); (193, 0x0400); (192, 0x2071)].

Lemma apply_enabled r : Forall (fun p => apply_seq (vita_spi_seq1 ++ upload_seq ++ enable_seq) r p.1 = p.2) enabled_registers.
Proof. repeat (constructor; [reflexivity|]). constructor. Qed.

Lemma apply_seq_other l r b : ~ In b ((fun e : entry => e.1.1) <$> l) -> apply_seq l r b = r b.
Proof.
  revert r. induction l as [|[[a m] v] l IH]; intros r Hb; cbn in *; [done|]. rewrite IH by tauto. cbn.
  rewrite decide_False; [done|]. intros ->. tauto.
Qed.

(** after a start-up that succeeds, every register the tables name holds the
    value the last setting for it says (the table of the code's settings, one
    value per register; of register 129 one bit is cleared), and every other
    stable register is as the reset left it. *)
Theorem ipipe_enabled s busy s' : idle s -> fmc_imageon_demo_enable_ipipe trace_spi s = Ok (Enabled busy) s' ->
  Forall (fun p => regs s' p.1 = p.2) enabled_registers /\
  regs s' 129 = Z.land (reset_regs s 129) (Z.lnot 0x2000) /\
  (forall b, stable b -> ~ In b configured -> regs s' b = reset_regs s b).
Proof.
  intros Hs E. destruct (enable_does s Hs) as (out & s1 & l & E1 & _ & HP & _ & Hr). rewrite E in E1. injection E1 as <- <-.
  destruct HP as [_ ->].
  assert (Hst : forall b, In b configured -> stable b) by (intros b Hb; rewrite Forall_forall in Hstable; auto).
  split; [|split].
  - pose proof (apply_enabled (reset_regs s)) as Ha. rewrite !Forall_forall in *. intros p Hp. rewrite Hr; [by apply Ha|].
    apply Hst. cut (forallb (fun p => existsb (Z.eqb p.1) configured) enabled_registers = true); [|by vm_compute].
    intros Hf. rewrite forallb_forall in Hf. apply Hf, existsb_exists in Hp as (x & Hx & Ex).
    apply Z.eqb_eq in Ex. by subst.
  - rewrite Hr; [rewrite <- (Z.lor_0_r (Z.land _ _)); reflexivity|]. apply Hst. vm_compute. tauto.
  - intros b Hb Hc. rewrite Hr by done. apply apply_seq_other. intros H. apply Hc. by right.
Qed.

(** ** The waits *)

(** The answers of the next reads. *)
Fixpoint answers (m : M Cam Z) (n : nat) (s : Cam) : list Z :=
  match n with
  | O => []
  | S n => match m s with Ok v s' => v :: answers m n s' | _ => [] end
  end.

Lemma wait_loop_answers stop m l n v s : runs m l -> ready s -> (n <> 0)%nat -> exists v' t s',
  wait_loop stop m n v s = Ok (v', t) s' /\
  (t = 0%nat <-> Forall (fun x => stop x = false) (v :: answers m (n - 1) s)) /\
  (t <> 0%nat -> stop v' = true).
Proof.
  intros Hm. revert v s. induction n as [|n IH]; intros v s Hs Hn; [done|]. cbn [wait_loop].
  destruct (stop v) eqn:Ev.
  - exists v, (S n), s. split; [done|]. split; [|done]. split; [done|]. intros H. inversion H; congruence.
  - destruct n as [|n].
    + exists v, 0%nat, s. split; [done|]. split; [|done]. split; [|done]. intros _. by repeat constructor.
    + destruct (Hm s Hs) as (v1 & s1 & l1 & E1 & Hs1 & _). destruct (IH v1 s1 Hs1) as (v' & t & s' & E' & Ht & Hv); [done|].
      exists v', t, s'. rewrite (bind_ok _ _ _ _ _ E1). split; [done|]. split; [|done]. rewrite Ht.
      cbn [Nat.sub answers]. rewrite E1, Nat.sub_0_r.
      split; [intros H; constructor; [done|exact H]|by inversion 1].
Qed.

(** the wait for the phase-locked loop gives up exactly when the lock
    register reads zero nine times in a row; otherwise it goes on at the first
    read that is not zero.  The wait for the alignment gives up exactly when
    nine reads in a row, the one before the loop included, have the busy bit clear. *)
Theorem start_up_waits s u : ready s ->
  (exists v t s', wait_loop pll_locked (vita_spi_read 24) 10 0 s = Ok (v, t) s' /\
     (t = 0%nat <-> Forall (fun x => x = 0) (answers (vita_spi_read 24) 9 s)) /\ (t <> 0%nat -> v <> 0)) /\
  (exists v t s', wait_loop align_busy read_iserdes_control 9 u s = Ok (v, t) s' /\
     (t = 0%nat <-> Forall (fun x => Z.land x 0x0200 = 0) (u :: answers read_iserdes_control 8 s)) /\
     (t <> 0%nat -> Z.land v 0x0200 <> 0)).
Proof.
  intros Hs. split.
  - destruct (wait_loop_answers pll_locked _ _ 10 0 s (runs_read 24) Hs) as (v & t & s' & E & Ht & Hv); [done|].
    exists v, t, s'. split; [done|]. split.
    + rewrite Ht, Forall_cons_iff. cbn [Nat.sub]. unfold pll_locked.
      setoid_rewrite bool_decide_eq_false. split; [intros [_ H]|intros H; split; [tauto|]];
        (eapply Forall_impl; [|exact H]); cbn; intros; [by apply dec_stable|tauto].
    + intros H. by apply Hv, bool_decide_eq_true in H.
  - destruct (wait_loop_answers align_busy _ _ 9 u s runs_iserdes Hs) as (v & t & s' & E & Ht & Hv); [done|].
    exists v, t, s'. split; [done|]. split.
    + rewrite Ht. cbn [Nat.sub]. unfold align_busy. setoid_rewrite bool_decide_eq_false.
      split; intros H; (eapply Forall_impl; [|exact H]); cbn; intros; [by apply dec_stable|tauto].
    + intros H. by apply Hv, bool_decide_eq_true in H.
Qed.
End Sensor.

(** * A sensor *)

(** Registers in a function; register -1 keeps the receiver's control word, whose
    bit 0 resets the others, and the alignment is busy while its start bit is
    set. *)
Definition fupd (a v : Z) (d : Z -> Z) (b : Z) : Z := if decide (b = a) then v else d b.

(** What a reset leaves: a VITA-2000 whose loop locks at once. *)
Definition power_on (a : Z) : Z := if decide (a = 0) then 0x5614 else if decide (a = 24) then 1 else if decide (a = 129) then 0xC001 else 0.

#[local] Instance sensor : Vita (Z -> Z) := {|
  put_spi_request := fun f d =>
    if Z.testbit f 16 then (0, fupd (Z.shiftr f 17) (u16 f) d) else (u16 (d (Z.shiftr f 17)), d);
  get_iserdes_control := fun d => (if decide (d (-1) = 4) then 0x200 else 0, d);
  board := fun c d => match c with set_iserdes_control v => fupd (-1) v (if Z.odd v then power_on else d) | _ => d end |}.

Lemma read_frame_bit a : Z.testbit (read_frame a) 16 = false.
Proof. unfold read_frame, u32, wrap. rewrite Z.mod_pow2_bits_low by lia. by rewrite Z.shiftl_spec_low. Qed.

Lemma read_frame_addr a : 0 <= a < 512 -> Z.shiftr (read_frame a) 17 = a.
Proof.
  intros Ha. unfold read_frame. rewrite u32_small by (rewrite Z.shiftl_mul_pow2 by lia; lia).
  by rewrite Z.shiftr_shiftl_l, Z.shiftl_0_r by lia.
Qed.

Lemma write_frame_spec a v : 0 <= a < 512 -> 0 <= v < 65536 ->
  Z.testbit (write_frame a v) 16 = true /\ Z.shiftr (write_frame a v) 17 = a /\ u16 (write_frame a v) = v.
Proof.
  intros Ha Hv. unfold write_frame. rewrite u32_small by (rewrite Z.shiftl_mul_pow2 by lia; lia).
  assert (Hs : Z.shiftr v 17 = 0) by (rewrite Z.shiftr_div_pow2 by lia; apply Z.div_small; lia).
  split; [|split].
  - by rewrite !Z.lor_spec, Z.shiftl_spec_low by lia.
  - rewrite !Z.shiftr_lor. rewrite Hs, Z.lor_0_r. rewrite Z.shiftr_shiftl_l by lia.
    change (Z.shiftr (Z.shiftl 1 16) 17) with 0. by rewrite Z.lor_0_r, Z.shiftl_0_r.
  - unfold u16, wrap. rewrite <- (land_ones_mod _ 16) by lia. rewrite !Z.land_lor_distr_l, !land_ones_mod by lia.
    rewrite Z.shiftl_mul_pow2 by lia. replace (a * 2 ^ 17) with (2 * a * 2 ^ 16) by lia. rewrite Z.mod_mul by lia.
    change (Z.shiftl 1 16 mod 2 ^ 16) with 0. rewrite Z.mod_small by lia. done.
Qed.

#[local] Instance sensor_laws : VitaLaws (Z -> Z).
Proof.
  refine {| reg := fun d a => u16 (d a); stable := fun a => 0 <= a < 512; in_reset := fun d => Z.odd (d (-1)) |}.
  - intros d a _ Ha. cbn -[read_frame write_frame Z.testbit Z.shiftr]. rewrite read_frame_bit, read_frame_addr by done. apply wrap_wrap.
  - intros d a b _ Hb. cbn -[read_frame write_frame Z.testbit Z.shiftr]. by rewrite read_frame_bit.
  - intros d a v b _ Hv Ha Hb. destruct (write_frame_spec a v Ha Hv) as (E1 & E2 & E3). cbn -[read_frame write_frame Z.testbit Z.shiftr].
    rewrite E1, E2, E3. cbn -[read_frame write_frame Z.testbit Z.shiftr]. unfold fupd. case_decide; [by apply u16_small|done].
  - intros d f Hf. cbn -[read_frame write_frame Z.testbit Z.shiftr]. destruct (Z.testbit f 16); [|done]. cbn [snd]. unfold fupd.
    rewrite decide_False; [done|]. intros E. pose proof (proj2 (Z.shiftr_nonneg f 17) Hf). lia.
  - done.
  - done.
  - intros c d b Hc Hb. destruct c; try done. cbn -[read_frame write_frame Z.testbit Z.shiftr] in *. rewrite Hc. unfold fupd. rewrite decide_False by lia. done.
  - intros c d. by destruct c.
Defined.

(** A sensor with leftovers in its registers, held in reset. *)
Definition sensor0 : Cam (Z -> Z) :=
  init_local_semaphores {| dev := fun a => if decide (a = -1) then 1 else 0xABCD;
    cv_iserdes_control := 0; sem_iserdes_control := 0; cv_spi_response := 0; sem_spi_response := 0 |}.

Lemma sensor_stable : Forall stable configured.
Proof. by repeat (constructor; [cbn; lia|]). Qed.

Definition is_enabled {W} (o : outcome W ipipe) : bool :=
  match o with Ok (Enabled false) _ => true | _ => false end.

Lemma sensor0_enabled : is_enabled (fmc_imageon_demo_enable_ipipe false sensor0) = true.
Proof. by vm_compute. Qed.

Lemma is_enabled_run {W} (o : outcome W ipipe) : is_enabled o = true -> exists s', o = Ok (Enabled false) s'.
Proof. destruct o as [[| | |[]] s'| | | |]; try done. eauto. Qed.

Lemma sensor0_idle : idle sensor0.
Proof. by split. Qed.

Lemma ipipe_registers_witness : idle sensor0 /\ exists s',
  fmc_imageon_demo_enable_ipipe false sensor0 = Ok (Enabled false) s' /\ ready s' /\ regs s' 192 = 0x2071.
Proof.
  split; [exact sensor0_idle|].
  destruct (ipipe_registers false sensor_stable sensor0 sensor0_idle) as (out & s' & l & E & Hr & HP & Hl).
  destruct (is_enabled_run _ sensor0_enabled) as [s1 E1]. rewrite E in E1. injection E1 as -> _.
  exists s'. split; [exact E|]. split; [exact Hr|]. rewrite Hl by (cbn; lia). destruct HP as [_ ->]. reflexivity.
Defined.

Lemma ipipe_enabled_witness : exists s', fmc_imageon_demo_enable_ipipe false sensor0 = Ok (Enabled false) s' /\
  regs s' 129 = 0xC001.
Proof.
  destruct (is_enabled_run _ sensor0_enabled) as [s' E]. exists s'. split; [exact E|].
  exact (proj1 (proj2 (ipipe_enabled false sensor_stable sensor0 false s' sensor0_idle E))).
Defined.

Lemma start_up_waits_witness : exists v t s',
  wait_loop pll_locked (vita_spi_read 24) 10 0 (set_dev power_on sensor0) = Ok (v, t) s' /\ (t <> 0%nat -> v <> 0).
Proof.
  destruct (start_up_waits (set_dev power_on sensor0) 0) as [(v & t & s' & E & _ & H) _]; [done|]. eauto.
Defined.
