(* ===== verification/ImageonTools.v ===== *)
(** Two smaller parts of the camera example: the clock generator's settings
    ([examples/imageon/i2ccamera.h]), and [examples/imageon/dump_image.cpp], which prints
    the words of a capture field by field and counts repeated lines. *)

From stdpp Require Import base gmap list option fin_maps.
From Stdlib Require Import ZArith Lia Ascii String.
From S2P Require Import Prelude I2cHdmi.
#[local] Open Scope list_scope.
#[local] Open Scope Z_scope.
#[local] Abbreviation length := Datatypes.length.

(** * The clock generator *)

Section Clock.
Context {K : Type} `{!I2cOs K}.

Definition cmuxdata : list Z := [8; 8].
Definition cdce913_data : list Z := [
    0x00; 0x81;  0x01; 0x01;
    0x02; 0xB4;
    0x03; 0x02;
    0x04; 0x02;  0x05; 0x50;  0x06; 0x60;  0x07; 0x00;
    0x08; 0x00;  0x09; 0x00;  0x0A; 0x00;  0x0B; 0x00;
    0x0C; 0x00;  0x0D; 0x00;  0x0E; 0x00;  0x0F; 0x00;
    0x10; 0x00;  0x11; 0x00;  0x12; 0x00;  0x13; 0x00;
    0x14; 0x6D;
    0x15; 0x02;
    0x16; 0x00;
    0x17; 0x00;
    0x18; 0x00;
    0x19; 0xB0;
    0x1A; 0x02;
    0x1B; 0xC9;
    0x1C; 0x00;
    0x1D; 0xB0;
    0x1E; 0x02;
    0x1F; 0xC9;
    0x02; 0xB4;
    0x03; 0x01;
    0x18; 0x00;
    0x19; 0xB0;
    0x1A; 0x02;
    0x1B; 0xC9].

(** The results are only printed. *)
Definition init_i2c_camera : M K unit :=
  fd ← os i2c_open;
  i2c_write_array fd 0x70 cmuxdata (Z.of_nat (length cmuxdata)) ;;
  i2c_write_array fd 0x65 cdce913_data (Z.of_nat (length cdce913_data)) ;;
  mret tt.
End Clock.

(** The parameters of the first loop, in the fields the comments of the source
    give: [N] in 0x18 and 0x19, [R], [Q], [P] behind it, the divider in 0x02 and 0x03. *)
Record pll : Type := { pll_n : Z; pll_r : Z; pll_q : Z; pll_p : Z; pll_div : Z }.
Definition pll_of (m : gmap (Z * Z) Z) : option pll :=
  b2 ← m !! (0x65, 0x02); b3 ← m !! (0x65, 0x03); b18 ← m !! (0x65, 0x18); b19 ← m !! (0x65, 0x19);
  b1a ← m !! (0x65, 0x1A); b1b ← m !! (0x65, 0x1B);
  Some {| pll_n := Z.lor (Z.shiftl b18 4) (Z.shiftr b19 4);
          pll_r := Z.lor (Z.shiftl (Z.land b19 15) 5) (Z.shiftr b1a 3);
          pll_q := Z.lor (Z.shiftl (Z.land b1a 7) 3) (Z.shiftr b1b 5);
          pll_p := Z.land (Z.shiftr b1b 2) 7;
          pll_div := Z.lor (Z.shiftl (Z.land b2 3) 8) b3 |}.

(** On a bus that acknowledges every write, the clock generator is left with the
    parameters the comments compute (N = 11, M = 2, Q = 22, R = 0, P = 2), which
    satisfy its equations and make 148.5 MHz of 27 MHz. *)
Theorem camera_clock b : acks b = None -> exists b' c,
  init_i2c_camera b = Ok tt b' /\ pll_of (regs b') = Some c /\
  pll_n c * 2 ^ pll_p c = 2 * pll_q c + pll_r c /\ 27000000 * pll_n c = 148500000 * 2 * pll_div c.
Proof.
  intros Hb. unfold init_i2c_camera.
  assert (E1 : cmuxdata = flat (pairs cmuxdata)) by done.
  assert (E2 : cdce913_data = flat (pairs cdce913_data)) by done. rewrite E1, E2.
  rewrite (bind_ok _ _ b 3 b) by done.
  rewrite (bind_ok _ _ _ _ _ (write_array_all 3 0x70 (pairs cmuxdata) b Hb)).
  erewrite bind_ok by (apply write_array_all; reflexivity). eexists _, _. split; [done|]. cbn [regs].
  generalize (written 0x70 (pairs cmuxdata) (regs b)). intros m. unfold pll_of, written. cbn [pairs cdce913_data foldl fst snd].
  repeat (rewrite lookup_insert_eq || rewrite lookup_insert_ne by congruence). cbn. split; [done|]. done.
Qed.

Lemma camera_clock_witness : exists b' c,
  init_i2c_camera {| selected := 0; regs := ∅; acks := None |} = Ok tt b' /\ pll_of (regs b') = Some c.
Proof.
  destruct (camera_clock {| selected := 0; regs := ∅; acks := None |} eq_refl) as (b' & c & H1 & H2 & _). eauto.
Defined.

(** * Printing captured words *)

Definition text : Type := list ascii.

(** The fields, most significant first: bits, name, the value that is not printed. *)
Record item : Type := { it_len : Z; it_name : text; it_default : Z }.
Definition mk_item (len : Z) (name : String.string) (d : Z) : item :=
  {| it_len := len; it_name := String.list_ascii_of_string name; it_default := d |}.

Definition dumpitem : list item := [
    mk_item 10 "ei"%string 0; mk_item 5 "wc"%string 0; mk_item 4 "a"%string 0; mk_item 10 "cdata"%string 0x3a6; mk_item 16 "gen"%string 0; mk_item 3 "csam"%string 0;
    mk_item 1 "astart"%string 0; mk_item 1 "autoa"%string 0; mk_item 1 "sinc"%string 0; mk_item 1 "sbit"%string 0; mk_item 1 "sce"%string 0; mk_item 1 "wren"%string 1;
    mk_item 10 "sdata"%string (2 ^ 64 - 1)].

(** [%llx] *)
Definition hex_digit (v : Z) : ascii := ascii_of_nat (Z.to_nat (if decide (v < 10) then 48 + v else 87 + v)).
Fixpoint hex_digits (fuel : nat) (v : Z) : text :=
  match fuel with
  | O => []
  | S fuel => if decide (v < 16) then [hex_digit v] else hex_digits fuel (v / 16) ++ [hex_digit (v mod 16)]
  end.
Definition print_llx (v : Z) : text := hex_digits 16 v.

Definition space : ascii := ascii_of_nat 32.
Definition equals : ascii := ascii_of_nat 61.

(** [" %s=%llx"] *)
Definition print_field (name : text) (v : Z) : text := space :: name ++ equals :: print_llx v.

(** The [do] loop: from the last item, which is the least significant, up to the
    first; [l] is what is left of the items, from the last one. *)
Fixpoint current_string (l : list item) (ditem : Z) : text :=
  match l with
  | [] => []
  | it :: l =>
      let val := Z.land ditem (2 ^ it_len it - 1) in
      (if decide (val <> it_default it) then print_field (it_name it) val else []) ++
      current_string l (Z.shiftr ditem (it_len it))
  end.
Definition line (w : Z) : text := current_string (reverse dumpitem) w.

(** What is printed: a line, or how often the line before was repeated. *)
Inductive printed : Type := Line (t : text) | Repeat (n : nat).

Fixpoint dump_loop (data : list Z) (last_string : text) (repeat_count : nat) : list printed :=
  match data with
  | [] => []
  | w :: data =>
      if decide (last_string = line w) then dump_loop data last_string (S repeat_count)
      else (if decide (repeat_count <> 0%nat) then [Repeat repeat_count] else []) ++
           Line (line w) :: dump_loop data (line w) 0
  end.
Definition dump_image (data : list Z) : list printed := dump_loop data [] 0.

Example line_example : line 0x3ff = String.list_ascii_of_string " sdata=3ff wren=0 cdata=0"%string.
Proof. reflexivity. Qed.

(** ** Lines tell words apart *)

(** Text without a character, up to its first occurrence. *)
Definition starts (c : ascii) (r : text) : Prop := match r with [] => True | x :: _ => x = c end.

Lemma split_at c h1 h2 r1 r2 : c ∉ h1 -> c ∉ h2 -> starts c r1 -> starts c r2 ->
  h1 ++ r1 = h2 ++ r2 -> h1 = h2 /\ r1 = r2.
Proof.
  revert h2. induction h1 as [|x h1 IH]; intros [|y h2] H1 H2 S1 S2 E; cbn in *; [done| | |].
  - subst r1. cbn in S1. subst y. by destruct H2; left.
  - subst r2. cbn in S2. subst x. by destruct H1; left.
  - injection E as -> E. rewrite not_elem_of_cons in H1, H2. destruct (IH h2) as [-> ->]; tauto.
Qed.

Definition hex_value (t : text) : Z :=
  foldl (fun a c => 16 * a + (let n := Z.of_nat (nat_of_ascii c) in if decide (n < 58) then n - 48 else n - 87)) 0 t.

Lemma sixteen (P : Z -> Prop) : Forall P (seqZ 0 16) -> forall v, 0 <= v < 16 -> P v.
Proof.
  intros H v Hv. assert (Hl : seqZ 0 16 !! Z.to_nat v = Some v) by (apply lookup_seqZ; lia).
  by eapply Forall_lookup_1.
Qed.

Lemma hex_digit_value v : 0 <= v < 16 -> hex_value [hex_digit v] = v.
Proof. apply (sixteen (fun v => hex_value [hex_digit v] = v)). by repeat constructor. Qed.

Lemma hex_digit_clean v : 0 <= v < 16 -> space <> hex_digit v /\ equals <> hex_digit v.
Proof. apply (sixteen (fun v => space <> hex_digit v /\ equals <> hex_digit v)). by repeat constructor. Qed.

Lemma hex_value_snoc t c : hex_value (t ++ [c]) = 16 * hex_value t + hex_value [c].
Proof. unfold hex_value. rewrite foldl_app. reflexivity. Qed.

Lemma hex_digits_value fuel : forall v, 0 <= v < 16 ^ Z.of_nat fuel -> hex_value (hex_digits fuel v) = v.
Proof.
  induction fuel as [|fuel IH]; intros v Hv; cbn [hex_digits]; [cbn in *; lia|].
  destruct (decide (v < 16)); [apply hex_digit_value; lia|].
  rewrite hex_value_snoc. rewrite Nat2Z.inj_succ, Z.pow_succ_r in Hv by lia.
  rewrite IH by (split; [apply Z.div_pos; lia|apply Z.div_lt_upper_bound; lia]).
  rewrite hex_digit_value by (apply Z.mod_pos_bound; lia). pose proof (Z.div_mod v 16). lia.
Qed.

Lemma hex_digits_clean fuel : forall v, 0 <= v -> (space ∉ hex_digits fuel v) /\ (equals ∉ hex_digits fuel v).
Proof.
  induction fuel as [|fuel IH]; intros v Hv; cbn [hex_digits]; [split; apply not_elem_of_nil|].
  destruct (decide (v < 16)).
  - rewrite !list_elem_of_singleton. by apply hex_digit_clean.
  - rewrite !elem_of_app, !list_elem_of_singleton. destruct (IH (v / 16)); [apply Z.div_pos; lia|].
    destruct (hex_digit_clean (v mod 16)); [apply Z.mod_pos_bound; lia|]. tauto.
Qed.

(** A printed field is read back: its name, its value and what follows. *)
Lemma print_field_inj n1 n2 v1 v2 r1 r2 : equals ∉ n1 -> equals ∉ n2 -> 0 <= v1 < 2 ^ 64 -> 0 <= v2 < 2 ^ 64 ->
  starts space r1 -> starts space r2 ->
  print_field n1 v1 ++ r1 = print_field n2 v2 ++ r2 -> n1 = n2 /\ v1 = v2 /\ r1 = r2.
Proof.
  intros Hn1 Hn2 Hv1 Hv2 S1 S2 E. unfold print_field in E. cbn [app] in E. injection E as E. rewrite <- !app_assoc in E.
  apply (split_at equals) in E as [-> E]; [|done..]. cbn [app] in E. injection E as E.
  apply (split_at space) in E as [E ->]; [|apply hex_digits_clean; lia..|done|done]. split; [done|]. split; [|done].
  rewrite <- (hex_digits_value 16 v1), <- (hex_digits_value 16 v2) by (cbn; lia).
  unfold print_llx in E. by rewrite E.
Qed.

Lemma current_string_starts l w : starts space (current_string l w).
Proof.
  revert w. induction l as [|it l IH]; intros w; cbn; [done|]. destruct (decide _); [done|]. apply IH.
Qed.

Definition item_ok (it : item) : Prop := 0 <= it_len it <= 64 /\ equals ∉ it_name it.

(** A line that begins with a field has it from one of the items. *)
Lemma current_string_name l w n v r : Forall item_ok l -> equals ∉ n -> 0 <= v < 2 ^ 64 -> 0 <= w -> starts space r ->
  current_string l w = print_field n v ++ r -> n ∈ it_name <$> l.
Proof.
  intros Hl Hn Hv. revert w. induction Hl as [|it l [Hlen Hi] Hl IH]; intros w Hw Sr E; cbn in E; [done|].
  rewrite fmap_cons. destruct (decide _).
  - assert (Hval : 0 <= Z.land w (2 ^ it_len it - 1) < 2 ^ 64).
    { rewrite land_ones_mod by lia. pose proof (Z.mod_pos_bound w (2 ^ it_len it) ltac:(lia)).
      pose proof (Z.pow_le_mono_r 2 (it_len it) 64). lia. }
    apply print_field_inj in E as [-> _]; try done; [left|apply current_string_starts].
  - right. apply (IH (Z.shiftr w (it_len it))); [by apply Z.shiftr_nonneg|done|done].
Qed.

Definition bits (l : list item) : Z := foldr (fun it n => it_len it + n) 0 l.

Lemma bits_nonneg l : Forall item_ok l -> 0 <= bits l.
Proof. induction 1 as [|it l [? _] _ IH]; unfold bits in *; cbn; lia. Qed.

Lemma mod_split w a b : 0 <= a -> 0 <= b -> w mod 2 ^ (a + b) = w mod 2 ^ a + 2 ^ a * ((w / 2 ^ a) mod 2 ^ b).
Proof. intros Ha Hb. rewrite Z.pow_add_r by done. apply Z.rem_mul_r; [|apply Z.pow_pos_nonneg; lia].
  pose proof (Z.pow_pos_nonneg 2 a). lia.
Qed.

Lemma current_string_inj l w1 w2 : Forall item_ok l -> NoDup (it_name <$> l) -> 0 <= w1 -> 0 <= w2 ->
  current_string l w1 = current_string l w2 -> w1 mod 2 ^ bits l = w2 mod 2 ^ bits l.
Proof.
  intros Hl. revert w1 w2. induction Hl as [|it l [Hlen Hi] Hl IH]; intros w1 w2 Hd H1 H2 E.
  { cbn. by rewrite !Z.mod_1_r. }
  rewrite fmap_cons, NoDup_cons in Hd. destruct Hd as [Hni Hd]. cbn in E. cbn [bits foldr]. fold (bits l).
  rewrite !mod_split by (lia || by apply bits_nonneg). rewrite !land_ones_mod in E by lia.
  assert (Hval : forall w, 0 <= w mod 2 ^ it_len it < 2 ^ 64).
  { intros w. pose proof (Z.mod_pos_bound w (2 ^ it_len it) ltac:(lia)).
    pose proof (Z.pow_le_mono_r 2 (it_len it) 64). lia. }
  rewrite <- !(Z.shiftr_div_pow2 _ (it_len it)) by lia.
  assert (Hs : forall w, 0 <= w -> 0 <= Z.shiftr w (it_len it)) by (intros; by apply Z.shiftr_nonneg).
  destruct (decide (w1 mod _ <> _)) as [D1|D1], (decide (w2 mod _ <> _)) as [D2|D2]; cbn [app] in E.
  - apply print_field_inj in E as (_ & E1 & E2); auto using current_string_starts.
    rewrite E1. f_equal. f_equal. apply IH; auto.
  - exfalso. apply Hni. symmetry in E. eapply current_string_name; [| | | | |exact E]; auto using current_string_starts.
  - exfalso. apply Hni. eapply current_string_name; [| | | | |exact E]; auto using current_string_starts.
  - assert (E1 : w1 mod 2 ^ it_len it = w2 mod 2 ^ it_len it) by lia.
    rewrite E1. f_equal. f_equal. apply IH; auto.
Qed.

Lemma dumpitem_ok : Forall item_ok (reverse dumpitem) /\ NoDup (it_name <$> reverse dumpitem) /\ bits (reverse dumpitem) = 64.
Proof.
  split; [|split; [|done]].
  - assert (H : forallb (fun it => (0 <=? it_len it) && (it_len it <=? 64) && bool_decide (equals ∉ it_name it))
      (reverse dumpitem) = true) by done.
    rewrite forallb_forall in H. apply List.Forall_forall. intros it Hit. specialize (H it Hit).
    rewrite !andb_true_iff in H. destruct H as [H Hb]. split; [lia|]. by eapply bool_decide_unpack, Is_true_true_2.
  - eapply bool_decide_unpack. vm_compute. exact I.
Qed.

Lemma line_inj w1 w2 : in_u64 w1 -> in_u64 w2 -> line w1 = line w2 -> w1 = w2.
Proof.
  unfold in_u64. intros H1 H2 E. destruct dumpitem_ok as (Hi & Hd & Hb).
  apply current_string_inj in E; [|done|done|lia|lia]. rewrite Hb in E. by rewrite !Z.mod_small in E.
Qed.

(** ** The printed lines give the words back *)

(** What a reader makes of the output. *)
Fixpoint expand (prev : text) (l : list printed) : list text :=
  match l with
  | [] => []
  | Line t :: l => t :: expand t l
  | Repeat n :: l => replicate n prev ++ expand prev l
  end.

(** The repeats that are never printed. *)
Fixpoint trailing (data : list Z) (last_string : text) (repeat_count : nat) : nat :=
  match data with
  | [] => repeat_count
  | w :: data => if decide (last_string = line w) then trailing data last_string (S repeat_count) else trailing data (line w) 0
  end.
Definition last_line (data : list Z) (prev : text) : text := default prev (last (line <$> data)).

Lemma last_line_cons w data prev : last_line (w :: data) prev = last_line data (line w).
Proof. unfold last_line. rewrite fmap_cons. rewrite last_cons. by destruct (last _). Qed.

Lemma dump_loop_expand data : forall prev n,
  expand prev (dump_loop data prev n) ++ replicate (trailing data prev n) (last_line data prev) =
  replicate n prev ++ (line <$> data).
Proof.
  induction data as [|w data IH]; intros prev n; [cbn; by rewrite app_nil_r|].
  cbn [dump_loop trailing]. rewrite fmap_cons.
  rewrite last_line_cons. destruct (decide (prev = line w)) as [<- |Hne].
  - rewrite IH. rewrite replicate_S_end, <- app_assoc. done.
  - destruct (decide (n <> 0%nat)) as [_|H0]; cbn [app expand].
    + rewrite <- app_assoc. cbn [app]. by rewrite IH.
    + assert (n = 0%nat) as -> by lia. cbn [replicate app]. by rewrite IH.
Qed.

(** One more word with the same line prints nothing more. *)
Lemma dump_loop_snoc data w : forall prev n,
  (trailing (data ++ [w]) prev n <> 0%nat -> last_line data prev = line w) /\
  (last_line data prev = line w -> dump_loop (data ++ [w]) prev n = dump_loop data prev n).
Proof.
  induction data as [|x data IH]; intros prev n; [|].
  { cbn -[line]. unfold last_line. cbn -[line]. destruct (decide (prev = line w)); split; done || lia. }
  rewrite last_line_cons. cbn [app dump_loop trailing].
  destruct (decide (prev = line x)) as [-> |Hne]; [apply IH|]. destruct (IH (line x) 0%nat) as [H1 H2].
  split; [done|]. intros H. by rewrite H2.
Qed.

(** the printed form of a capture tells the words apart and, up to the
    repeats at its end, all of them: lines are equal exactly when the words are,
    and the lines and counts expand to the lines of the captured words, of which
    only the last one's repeats are missing: they are counted and not printed,
    so a capture and the capture without its last, repeated word print the same. *)
Theorem dump_image_lines data : Forall in_u64 data -> exists k,
  expand [] (dump_image data) ++ replicate k (last_line data []) = line <$> data /\
  (forall w1 w2, In w1 data -> In w2 data -> line w1 = line w2 <-> w1 = w2) /\
  (k <> 0%nat -> dump_image data = dump_image (take (length data - 1) data)).
Proof.
  intros Hd. exists (trailing data [] 0). split; [apply (dump_loop_expand data [] 0)|]. split.
  - intros w1 w2 H1 H2. rewrite List.Forall_forall in Hd. split; [|by intros ->]. apply line_inj; auto.
  - destruct data as [|w data _] using rev_ind; [done|]. intros Hk. apply dump_loop_snoc in Hk.
    rewrite length_app. cbn [length]. rewrite take_app_length' by (cbn; lia). by apply dump_loop_snoc.
Qed.

Lemma dump_image_lines_witness : exists k,
  expand [] (dump_image [1; 1; 1; 2; 2]) ++ replicate k (last_line [1; 1; 1; 2; 2] []) = line <$> [1; 1; 1; 2; 2] /\
  dump_image [1; 1; 1; 2; 2] = [Line (line 1); Repeat 2; Line (line 2)].
Proof.
  destruct (dump_image_lines [1; 1; 1; 2; 2]) as (k & H & _); [by repeat constructor|].
  exists k. split; [exact H|reflexivity].
Defined.
