(* ===== verification/TlpReplay.v ===== *)
(** Replaying a trace of PCIe packets to a simulated design,
    [cpp/TlpReplay.cxx]: the trace file is read once, a packet of twenty bytes
    per line behind an eight-character time stamp, and handed out in order.
    The file is the list of its characters; reading behind the end of a line or
    of the packets is undefined. *)

From stdpp Require Import base list option.
From Stdlib Require Import ZArith Lia.
From S2P Require Import Prelude.
#[local] Open Scope Z_scope.

(** * The code *)

Definition cvt (c : Z) : Z :=
  if decide (c >= 97) then u8 (c - 97 + 0xA)
  else if decide (c >= 65) then u8 (c - 65 + 0xA)
  else u8 (c - 48).

(** [std::getline]: the lines of a file; a final newline does not start a line. *)
Definition newline : Z := 10.
Fixpoint getlines (cur : list Z) (file : list Z) : list (list Z) :=
  match file with
  | [] => match cur with [] => [] | _ => [cur] end
  | c :: file => if decide (c = newline) then cur :: getlines [] file else getlines (cur ++ [c]) file
  end.

(** [line[k]]: the character behind the last one is zero, further ones do not exist. *)
Definition char_at (line : list Z) (k : nat) : option Z :=
  if decide (k = length line) then Some 0 else line !! k.

(** The loop over a line: [n] bytes from position [8 + i]. *)
Fixpoint line_bytes (n : nat) (i : nat) (line : list Z) : option (list Z) :=
  match n with
  | O => Some []
  | S n =>
      high ← char_at line (8 + i); low ← char_at line (8 + i + 1);
      rest ← line_bytes n (i + 2) line;
      Some (u8 (Z.lor (Z.shiftl (cvt high) 4) (cvt low)) :: rest)
  end.

(** The static variables: [tlp_packets] is what lies before the pointer up to
    the end of what was loaded; [room] is what is left of the allocation. *)
Record Replay : Type := { loaded : bool; tlp_packets : list Z; room : Z }.

Fixpoint load_lines (lines : list (list Z)) : option (list Z) :=
  match lines with
  | [] => Some []
  | line :: lines => b ← line_bytes 20 0 line; bs ← load_lines lines; Some (b ++ bs)
  end.

Section Replay.
Variable file : list Z.

(** [None] of the lines, and more bytes than were allocated, are faults. *)
Definition load_tlp : M Replay unit := fun s =>
  if loaded s then Ok tt s
  else match load_lines (getlines [] file) with
       | Some bs =>
           if decide (Z.of_nat (length bs) <= Z.of_nat (length file))
           then Ok tt {| loaded := true; tlp_packets := bs; room := Z.of_nat (length file) |}
           else Fault
       | None => Fault
       end.

Definition portnum : M Replay Z := fun s =>
  match tlp_packets s with b :: _ => Ok (Z.shiftr b 1) s | [] => Fault end.

Definition can_put_tlp : M Replay bool := load_tlp ;; p ← portnum; mret (bool_decide (p = 8)).
Definition can_get_tlp : M Replay bool := load_tlp ;; p ← portnum; mret (bool_decide (p = 4)).

Definition advance (s : Replay) : Replay :=
  {| loaded := loaded s; tlp_packets := drop 20 (tlp_packets s); room := room s - 20 |}.

Definition put_tlp : M Replay unit :=
  s ← getW; assert (loaded s) ;; modifyW advance.

(** The bytes of the caller's five words after [get_tlp], from the first. *)
Definition get_tlp : M Replay (list Z) :=
  s ← getW; assert (loaded s) ;;
  (if decide (20 <= length (tlp_packets s))%nat then mret tt else fault) ;;
  modifyW advance ;;
  mret (reverse (take 20 (tlp_packets s))).

(** A replay: [true] asks for a packet of the design's ([put]), [false] hands
    one to it ([get]), each only when its turn has come. *)
Definition turn (put : bool) : M Replay (option (list Z)) :=
  if put then ok ← can_put_tlp; if (ok : bool) then put_tlp ;; mret (Some []) else mret None
  else ok ← can_get_tlp; if (ok : bool) then b ← get_tlp; mret (Some b) else mret None.
End Replay.

(** * What a trace says *)

(** A record of the trace: the time stamp and the packet. *)
Record tlp : Type := { stamp : list Z; packet : list Z }.
Definition tlp_ok (t : tlp) : Prop :=
  length (stamp t) = 8%nat /\ Forall (fun c => c <> newline) (stamp t) /\
  length (packet t) = 20%nat /\ Forall (fun b => 0 <= b < 256) (packet t).

(** Printing it, in capitals or not. *)
Definition hex (upper : bool) (v : Z) : Z :=
  if decide (v < 10) then 48 + v else if upper then 55 + v else 87 + v.
Definition print_byte (upper : bool) (b : Z) : list Z := [hex upper (b / 16); hex upper (b mod 16)].
Definition print_line (upper : bool) (t : tlp) : list Z := stamp t ++ concat (print_byte upper <$> packet t).
Definition print_trace (upper : bool) (l : list tlp) : list Z :=
  concat ((fun t => print_line upper t ++ [newline]) <$> l).

Lemma cvt_hex upper v : 0 <= v < 16 -> cvt (hex upper v) = v.
Proof.
  intros H. assert (v = 0 \/ v = 1 \/ v = 2 \/ v = 3 \/ v = 4 \/ v = 5 \/ v = 6 \/ v = 7 \/ v = 8 \/ v = 9 \/ v = 10 \/
    v = 11 \/ v = 12 \/ v = 13 \/ v = 14 \/ v = 15) as Hv by lia.
  repeat destruct Hv as [-> |Hv]; try subst v; by destruct upper.
Qed.

Lemma hex_not_newline upper v : 0 <= v < 16 -> hex upper v <> newline.
Proof. intros H. unfold hex, newline. destruct (decide (v < 10)), upper; lia. Qed.

Lemma byte_join b : 0 <= b < 256 -> u8 (Z.lor (Z.shiftl (b / 16) 4) (b mod 16)) = b.
Proof.
  intros Hb. pose proof (Z.mod_pos_bound b 16 ltac:(lia)).
  rewrite lor_shiftl_add by lia. pose proof (Z.div_mod b 16). rewrite u8_small; lia.
Qed.

Lemma byte_digits b : 0 <= b < 256 -> 0 <= b / 16 < 16 /\ 0 <= b mod 16 < 16.
Proof.
  intros Hb. split; [|apply Z.mod_pos_bound; lia].
  split; [apply Z.div_pos; lia|apply Z.div_lt_upper_bound; lia].
Qed.

Lemma char_at_lookup line k c : line !! k = Some c -> char_at line k = Some c.
Proof. intros H. unfold char_at. rewrite decide_False; [done|]. apply lookup_lt_Some in H. lia. Qed.

Lemma line_bytes_print upper bs : Forall (fun b => 0 <= b < 256) bs -> forall pre i, length pre = (8 + i)%nat ->
  line_bytes (length bs) i (pre ++ concat (print_byte upper <$> bs)) = Some bs.
Proof.
  induction 1 as [|b bs Hb Hbs IH]; intros pre i Hi; [done|]. cbn [length line_bytes].
  rewrite fmap_cons. cbn [concat]. destruct (byte_digits b Hb) as [Hd1 Hd2].
  rewrite (char_at_lookup _ (8 + i)%nat (hex upper (b / 16))).
  2: { rewrite lookup_app_r by lia. by replace (8 + i - length pre)%nat with 0%nat by lia. }
  cbn [mbind option_bind].
  rewrite (char_at_lookup _ _ (hex upper (b mod 16))).
  2: { rewrite lookup_app_r by lia. replace (8 + i + 1 - length pre)%nat with 1%nat by lia. done. }
  cbn [mbind option_bind]. rewrite app_assoc. rewrite IH by (rewrite length_app; cbn; lia).
  cbn [mbind option_bind]. by rewrite !cvt_hex, byte_join.
Qed.

Lemma getlines_line l rest cur : Forall (fun c => c <> newline) l ->
  getlines cur (l ++ newline :: rest) = (cur ++ l) :: getlines [] rest.
Proof.
  intros H. revert cur. induction H as [|c l Hc Hl IH]; intros cur; cbn [app getlines].
  - by rewrite decide_True, app_nil_r.
  - rewrite decide_False by done. rewrite IH, <- app_assoc. done.
Qed.

Lemma print_line_clean upper t : tlp_ok t -> Forall (fun c => c <> newline) (print_line upper t).
Proof.
  intros (_ & Hs & _ & Hp). apply Forall_app. split; [done|]. induction Hp as [|b bs Hb Hbs IH]; [done|].
  destruct (byte_digits b Hb). cbn. by repeat (constructor; [by apply hex_not_newline|]).
Qed.

Lemma load_print upper l : Forall tlp_ok l -> load_lines (getlines [] (print_trace upper l)) = Some (concat (packet <$> l)).
Proof.
  induction 1 as [|t l Ht Hl IH]; [done|]. unfold print_trace. rewrite !fmap_cons. cbn [concat].
  rewrite <- app_assoc. cbn [app]. rewrite getlines_line by (by apply print_line_clean). cbn [load_lines app].
  destruct Ht as (Hs & _ & Hlen & Hp). pose proof (line_bytes_print upper (packet t) Hp (stamp t) 0 Hs) as E.
  rewrite Hlen in E. fold (print_line upper t) in E. rewrite E. cbn [mbind option_bind].
  unfold print_trace in IH. rewrite IH. done.
Qed.

Lemma print_trace_length upper l : Forall tlp_ok l -> length (print_trace upper l) = (49 * length l)%nat.
Proof.
  induction 1 as [|t l (Hs & _ & Hlen & _) Hl IH]; [done|]. unfold print_trace in *. rewrite fmap_cons. cbn [concat].
  rewrite length_app, IH. unfold print_line. rewrite !length_app, Hs.
  assert (H : length (concat (print_byte upper <$> packet t)) = (2 * length (packet t))%nat).
  { clear. induction (packet t); [done|]. rewrite fmap_cons. cbn in *. lia. }
  rewrite H, Hlen. cbn [length]. lia.
Qed.

Lemma packets_length l : Forall tlp_ok l -> length (concat (packet <$> l)) = (20 * length l)%nat.
Proof.
  induction 1 as [|t l (_ & _ & Hlen & _) Hl IH]; [done|]. rewrite fmap_cons. cbn [concat]. rewrite length_app, Hlen, IH.
  cbn [length]. lia.
Qed.

(** ** The replay *)

Definition not_loaded : Replay := {| loaded := false; tlp_packets := []; room := 0 |}.
Definition port (t : tlp) : Z := Z.shiftr (default 0 (head (packet t))) 1.
Definition is_put (t : tlp) : bool := bool_decide (port t = 8).
Definition answer (t : tlp) : option (list Z) := Some (if is_put t then [] else reverse (packet t)).

Fixpoint replay (file : list Z) (l : list bool) : M Replay (list (option (list Z))) :=
  match l with
  | [] => mret []
  | b :: l => a ← turn file b; r ← replay file l; mret (a :: r)
  end.

(** What is left to replay: nothing loaded yet, or the packets of [l]. *)
Definition remaining (upper : bool) (all : list tlp) (l : list tlp) (s : Replay) : Prop :=
  s = not_loaded /\ l = all \/ loaded s = true /\ tlp_packets s = concat (packet <$> l).

Lemma left_load upper all l s : Forall tlp_ok all -> remaining upper all l s ->
  exists s', load_tlp (print_trace upper all) s = Ok tt s' /\ loaded s' = true /\ tlp_packets s' = concat (packet <$> l).
Proof.
  intros Ha [[-> ->]|[Hl Hp]]; unfold load_tlp; [|rewrite Hl; eauto]. cbn [loaded not_loaded].
  rewrite load_print by done. rewrite decide_True; [eauto|].
  rewrite packets_length, print_trace_length by done. lia.
Qed.

Lemma left_portnum t l s : tlp_ok t -> tlp_packets s = concat (packet <$> t :: l) -> portnum s = Ok (port t) s.
Proof.
  intros (_ & _ & Hlen & _) Hp. unfold portnum, port. rewrite Hp, fmap_cons. cbn [concat].
  destruct (packet t); [done|]. done.
Qed.

(** A turn gives the next packet exactly when it is its turn, and otherwise
    changes nothing. *)
Lemma turn_spec upper all t l s b : Forall tlp_ok all -> tlp_ok t -> port t = 8 \/ port t = 4 ->
  remaining upper all (t :: l) s -> exists s',
  turn (print_trace upper all) b s = Ok (if decide (b = is_put t) then answer t else None) s' /\
  loaded s' = true /\ tlp_packets s' = concat (packet <$> (if decide (b = is_put t) then l else t :: l)).
Proof.
  intros Ha Ht Hport Hl. destruct (left_load _ _ _ _ Ha Hl) as (s1 & E1 & Hl1 & Hp1).
  pose proof (left_portnum _ _ _ Ht Hp1) as E2. destruct Ht as (_ & _ & Hlen & _).
  assert (Hc : forall k, (load_tlp (print_trace upper all) ;; p ← portnum; mret (bool_decide (p = k))) s =
    Ok (bool_decide (port t = k)) s1) by (intros k; by rewrite (bind_ok _ _ _ _ _ E1), (bind_ok _ _ _ _ _ E2)).
  assert (Hd : drop 20 (tlp_packets s1) = concat (packet <$> l)).
  { rewrite Hp1, fmap_cons. cbn [concat]. by rewrite drop_app_length'. }
  assert (Ht20 : take 20 (tlp_packets s1) = packet t).
  { rewrite Hp1, fmap_cons. cbn [concat]. by rewrite take_app_length'. }
  assert (H20 : (20 <= length (tlp_packets s1))%nat).
  { rewrite Hp1, fmap_cons. cbn [concat]. rewrite length_app. lia. }
  unfold turn, answer, is_put, can_put_tlp, can_get_tlp. destruct b; rewrite (bind_ok _ _ _ _ _ (Hc _)).
  - destruct (bool_decide (port t = 8)) eqn:E; cbn [decide].
    + exists (advance s1). rewrite decide_True by done. split; [|done].
      unfold put_tlp, mbind, M_bind, getW, assert, modifyW. by rewrite Hl1.
    + exists s1. rewrite decide_False by done. done.
  - assert (E8 : bool_decide (port t = 8) = negb (bool_decide (port t = 4))).
    { destruct Hport as [-> | ->]; done. }
    rewrite E8. destruct (bool_decide (port t = 4)) eqn:E; cbn [negb].
    + exists (advance s1). rewrite decide_True by done. split; [|done].
      unfold get_tlp, mbind, M_bind, getW, assert, modifyW. rewrite Hl1. rewrite decide_True by done.
      cbn. by rewrite Ht20.
    + exists s1. rewrite decide_False by done. done.
Qed.

(** What turns in any order should give: a packet goes to the first turn of its
    kind, a turn of the other kind gets nothing and takes nothing away.  The
    answers and the packets that are left; none when a turn is asked for after
    the last packet. *)
Fixpoint served (turns : list bool) (l : list tlp) : option (list (option (list Z)) * list tlp) :=
  match turns, l with
  | [], _ => Some ([], l)
  | _ :: _, [] => None
  | b :: turns, t :: l' =>
      if decide (b = is_put t) then '(r, l) ← served turns l'; Some (answer t :: r, l)
      else '(r, l) ← served turns l; Some (None :: r, l)
  end.

Lemma served_in_order turns : forall l r rest, served turns l = Some (r, rest) ->
  exists taken, l = taken ++ rest /\ omap id r = omap answer taken.
Proof.
  induction turns as [|b turns IH]; intros l r rest H; cbn in H; [simplify_eq; by exists []|].
  destruct l as [|t l]; [done|]. case_decide.
  - destruct (served turns l) as [[r1 l1]|] eqn:E; [|done]. cbn in H. simplify_eq.
    destruct (IH _ _ _ E) as (taken & -> & Ho). exists (t :: taken). split; [done|]. cbn. by rewrite Ho.
  - destruct (served turns (t :: l)) as [[r1 l1]|] eqn:E; [|done]. cbn in H. simplify_eq.
    destruct (IH _ _ _ E) as (taken & Hl & Ho). exists taken. split; [done|]. exact Ho.
Qed.

Lemma replay_served upper all turns : forall l s, Forall tlp_ok all -> Forall tlp_ok l ->
  Forall (fun t => port t = 8 \/ port t = 4) l -> remaining upper all l s ->
  match served turns l with
  | Some (r, rest) => exists s', replay (print_trace upper all) turns s = Ok r s' /\
      (turns <> [] \/ loaded s = true -> tlp_packets s' = concat (packet <$> rest))
  | None => replay (print_trace upper all) turns s = Fault
  end.
Proof.
  induction turns as [|b turns IH]; intros l s Ha Hok Hport Hrem; cbn [served replay].
  { exists s. split; [done|]. intros [?|Hl]; [done|]. by destruct Hrem as [[-> _]|[_ ?]]. }
  destruct l as [|t l].
  { destruct (left_load _ _ _ _ Ha Hrem) as (s1 & E1 & _ & Hp1).
    assert (E2 : turn (print_trace upper all) b s = Fault).
    { unfold turn, can_put_tlp, can_get_tlp. destruct b; rewrite !bind_assoc, (bind_ok _ _ _ _ _ E1);
        unfold portnum, mbind, M_bind; by rewrite Hp1. }
    unfold mbind, M_bind. by rewrite E2. }
  inversion Hok; inversion Hport; subst.
  destruct (turn_spec upper all t l s b) as (s1 & E1 & Hl1 & Hp1); [done..|].
  rewrite (bind_ok _ _ _ _ _ E1). case_decide.
  - specialize (IH l s1 Ha ltac:(done) ltac:(done) (or_intror (conj Hl1 Hp1))).
    destruct (served turns l) as [[r rest]|]; cbn.
    + destruct IH as (s2 & E2 & Hs2). exists s2. rewrite (bind_ok _ _ _ _ _ E2). split; [done|]. intros _. apply Hs2. by right.
    + unfold mbind, M_bind. by rewrite IH.
  - specialize (IH (t :: l) s1 Ha Hok Hport (or_intror (conj Hl1 Hp1))).
    destruct (served turns (t :: l)) as [[r rest]|]; cbn.
    + destruct IH as (s2 & E2 & Hs2). exists s2. rewrite (bind_ok _ _ _ _ _ E2). split; [done|]. intros _. apply Hs2. by right.
    + unfold mbind, M_bind. by rewrite IH.
Qed.

(** C25: a trace is replayed as it was recorded.  For a trace file of well-formed
    lines (in either case of digits) whose packets are for port 4 or 8, and for
    turns of the two kinds in any order: every packet is given to the first turn
    of its kind after the packets before it, as the twenty bytes of the record in
    reverse (the byte order of the simulator's words); a turn of the other kind
    is refused, wherever it comes, and loses nothing: what was given is, in
    order, a beginning of the trace and what is left is the rest of it.  Nothing
    is read or written outside the allocation until all packets are gone; then a
    further question reads memory that was never written. *)
Theorem replay_trace upper l turns : Forall tlp_ok l -> Forall (fun t => port t = 8 \/ port t = 4) l ->
  match served turns l with
  | Some (r, rest) => exists s, replay (print_trace upper l) turns not_loaded = Ok r s /\
      (turns <> [] -> tlp_packets s = concat (packet <$> rest)) /\
      exists taken, l = taken ++ rest /\ omap id r = omap answer taken
  | None => replay (print_trace upper l) turns not_loaded = Fault
  end.
Proof.
  intros Hok Hport. pose proof (replay_served upper l turns l not_loaded Hok Hok Hport (or_introl (conj eq_refl eq_refl))) as H.
  destruct (served turns l) as [[r rest]|] eqn:E; [|done]. destruct H as (s & Er & Hr). exists s.
  split; [done|]. split; [|by eapply served_in_order]. intros Hne. apply Hr. by left.
Qed.

Definition demo_tlp (b : Z) : tlp := {| stamp := replicate 8 48; packet := b :: replicate 19 0xAB |}.

Lemma demo_tlp_ok b : 0 <= b < 256 -> tlp_ok (demo_tlp b).
Proof.
  intros Hb. split; [done|]. split; [by apply Forall_replicate|]. split; [done|].
  constructor; [done|]. apply Forall_replicate. lia.
Qed.

Lemma replay_trace_witness :
  replay (print_trace true [demo_tlp 9; demo_tlp 16; demo_tlp 8]) [true; false; false; true; true; false; false] not_loaded = Fault /\
  exists s, replay (print_trace true [demo_tlp 9; demo_tlp 16; demo_tlp 8]) [true; false; false; true; true] not_loaded =
    Ok [None; Some (replicate 19 0xAB ++ [9]); None; Some []; None] s /\ tlp_packets s = 8 :: replicate 19 0xAB.
Proof.
  assert (Hok : Forall tlp_ok [demo_tlp 9; demo_tlp 16; demo_tlp 8]) by (by repeat (constructor; [apply demo_tlp_ok; lia|])).
  assert (Hp : Forall (fun t => port t = 8 \/ port t = 4) [demo_tlp 9; demo_tlp 16; demo_tlp 8])
    by (by repeat (constructor; [vm_compute; tauto|])).
  split; [exact (replay_trace true _ [true; false; false; true; true; false; false] Hok Hp)|].
  destruct (replay_trace true _ [true; false; false; true; true] Hok Hp) as (s & E & Hs & _).
  exists s. split; [exact E|]. exact (Hs ltac:(discriminate)).
Defined.
