(* ===== verification/FlashAccess.v ===== *)
(** The flash test, [tests/algo1_flashmodel/flashaccess.cpp]: the main thread
    erases, writes and reads blocks of a flash through tagged requests, of which
    up to 128 of each kind are in flight, and a thread of indications completes
    them and checks the data that was read.

    The two threads interleave at the mutex: an action of the main thread and an
    indication are steps of a transition system, with the requests that are in
    flight and the pages of the flash as its environment. *)

From stdpp Require Import base list option relations.
From Stdlib Require Import ZArith Lia.
From S2P Require Import Prelude.
#[local] Open Scope Z_scope.

(** * The host's state *)

Definition BLOCKS_PER_CHIP : Z := 2.
Definition CHIPS_PER_BUS : Z := 8.
Definition NUM_BUSES : Z := 8.
Definition PAGE_SIZE : Z := 8192.
Definition NUM_TAGS : nat := 128.
Definition PAGE_WORDS : nat := 2048. (* [PAGE_SIZE / sizeof(unsigned int)] *)

Inductive FlashStatusT : Type := UNINIT | ERASED | WRITTEN.
#[global] Instance status_eq_dec : EqDecision FlashStatusT.
Proof. solve_decision. Defined.

(** Bus, chip and block. *)
Definition block : Type := Z * Z * Z.

Record TagTableEntry : Type := { busy : bool; place : block }.

(** The kinds of request, each with its tag table and its count in flight. *)
Inductive kind : Type := Erase | Write | Read.
#[global] Instance kind_eq_dec : EqDecision kind.
Proof. solve_decision. Defined.

Record Host : Type := {
  tags : kind -> list TagTableEntry;
  inflight : kind -> Z;
  flashStatus : block -> FlashStatusT;
  readBuffers : nat -> nat -> Z;       (* tag, word *)
  writeBuffers : nat -> nat -> Z;
  testPass : bool }.

Definition set_tags (v : kind -> list TagTableEntry) (r : Host) : Host :=
  {| tags := v; inflight := inflight r; flashStatus := flashStatus r; readBuffers := readBuffers r;
     writeBuffers := writeBuffers r; testPass := testPass r |}.
Definition set_inflight (v : kind -> Z) (r : Host) : Host :=
  {| tags := tags r; inflight := v; flashStatus := flashStatus r; readBuffers := readBuffers r;
     writeBuffers := writeBuffers r; testPass := testPass r |}.
Definition set_flashStatus (v : block -> FlashStatusT) (r : Host) : Host :=
  {| tags := tags r; inflight := inflight r; flashStatus := v; readBuffers := readBuffers r;
     writeBuffers := writeBuffers r; testPass := testPass r |}.
Definition set_readBuffers (v : nat -> nat -> Z) (r : Host) : Host :=
  {| tags := tags r; inflight := inflight r; flashStatus := flashStatus r; readBuffers := v;
     writeBuffers := writeBuffers r; testPass := testPass r |}.
Definition set_writeBuffers (v : nat -> nat -> Z) (r : Host) : Host :=
  {| tags := tags r; inflight := inflight r; flashStatus := flashStatus r; readBuffers := readBuffers r;
     writeBuffers := v; testPass := testPass r |}.
Definition set_testPass (v : bool) (r : Host) : Host :=
  {| tags := tags r; inflight := inflight r; flashStatus := flashStatus r; readBuffers := readBuffers r;
     writeBuffers := writeBuffers r; testPass := v |}.

Definition upd {A B} `{!EqDecision A} (a : A) (b : B) (f : A -> B) (x : A) : B := if decide (x = a) then b else f x.

(** One entry of a tag table. *)
Definition put_tag (k : kind) (t : nat) (e : TagTableEntry) (s : Host) : Host :=
  set_tags (upd k (<[t := e]> (tags s k)) (tags s)) s.
Definition tag_busy (k : kind) (t : nat) (s : Host) : bool := from_option busy false (tags s k !! t).
Definition tag_place (k : kind) (t : nat) (s : Host) : block := from_option place (0, 0, 0) (tags s k !! t).
Definition set_busy (k : kind) (t : nat) (b : bool) (s : Host) : Host :=
  put_tag k t {| busy := b; place := tag_place k t s |} s.

(** * The functions *)

(** [unsigned int]: the sums do not overflow for the places of this flash. *)
Definition hashAddrToData (b : block) (word : nat) : Z :=
  let '(bus, chip, blk) := b in
  u32 (Z.shiftl bus 24 + Z.shiftl chip 20 + Z.shiftl blk 16 + Z.of_nat word).

(** [checkReadData]: of an erased block the first word decides. *)
Definition checkReadData (tag : nat) (s : Host) : Host :=
  let b := tag_place Read tag s in
  match flashStatus s b with
  | WRITTEN =>
      if forallb (fun word => hashAddrToData b word =? readBuffers s tag word) (seq 0 PAGE_WORDS)
      then s else set_testPass false s
  | ERASED =>
      let w := readBuffers s tag 0%nat in
      if decide (w = 2 ^ 32 - 1) then s else if decide (w = 0) then s else set_testPass false s
  | UNINIT => set_testPass false s
  end.

(** The part of the three indications under the mutex. *)
Definition done_locked (k : kind) (tag : nat) (s : Host) : Host :=
  let n := inflight s k - 1 in
  let s := set_inflight (upd k (if decide (n < 0) then 0 else n) (inflight s)) s in
  let s := if tag_busy k tag s then s else set_testPass false s in
  set_busy k tag false s.

Definition readDone (tag : nat) (s : Host) : Host := done_locked Read tag (checkReadData tag s).
Definition writeDone (tag : nat) (s : Host) : Host := done_locked Write tag s.
Definition eraseDone (tag : nat) (s : Host) : Host := done_locked Erase tag s.

(** [waitIdleEraseTag], [waitIdleWriteBuffer], [waitIdleReadBuffer]: one round of
    the loop; [None] when every tag is busy, and the loop goes round again. *)
Fixpoint idle_tag (l : list TagTableEntry) (t : nat) : option nat :=
  match l with
  | [] => None
  | e :: l => if busy e then idle_tag l (S t) else Some t
  end.
Definition waitIdle (k : kind) (s : Host) : option (nat * Host) :=
  t ← idle_tag (tags s k) 0; Some (t, set_busy k t true s).

(** ** Requests *)

(** What is sent to the device: kind, place, page 0 and tag. *)
Record Req : Type := { rq_kind : kind; rq_block : block; rq_tag : nat }.

Definition eraseBlock (b : block) (tag : nat) (s : Host) : Req * Host :=
  let s := set_inflight (upd Erase (inflight s Erase + 1) (inflight s)) s in
  ({| rq_kind := Erase; rq_block := b; rq_tag := tag |}, set_flashStatus (upd b ERASED (flashStatus s)) s).
Definition writePage (b : block) (tag : nat) (s : Host) : Req * Host :=
  let s := set_inflight (upd Write (inflight s Write + 1) (inflight s)) s in
  ({| rq_kind := Write; rq_block := b; rq_tag := tag |}, set_flashStatus (upd b WRITTEN (flashStatus s)) s).
Definition readPage (b : block) (tag : nat) (s : Host) : Req * Host :=
  let s := set_inflight (upd Read (inflight s Read + 1) (inflight s)) s in
  ({| rq_kind := Read; rq_block := b; rq_tag := tag |},
   put_tag Read tag {| busy := tag_busy Read tag s; place := b |} s).

(** The loop of [main] that fills the buffer of a write. *)
Definition fill (b : block) (tag : nat) (s : Host) : Host :=
  set_writeBuffers (upd tag (hashAddrToData b) (writeBuffers s)) s.

(** ** The main thread *)

Inductive action : Type := Request (k : kind) (b : block) | WaitFor (k : kind).

(** A request, once its tag is there. *)
Definition issue (k : kind) (b : block) (tag : nat) (s : Host) : Req * Host :=
  match k with
  | Erase => eraseBlock b tag s
  | Write => writePage b tag (fill b tag s)
  | Read => readPage b tag s
  end.

(** The nested loops of [main]. *)
Definition range (n : Z) : list Z := seqZ 0 n.
Definition all_blocks : list block :=
  blk ← range BLOCKS_PER_CHIP; chip ← range CHIPS_PER_BUS; bus ← range NUM_BUSES; [(bus, chip, blk)].
Definition bus_blocks (bus : Z) : list block :=
  blk ← range BLOCKS_PER_CHIP; chip ← range CHIPS_PER_BUS; [(bus, chip, blk)].

Definition main_actions : list action :=
  (Request Erase <$> all_blocks) ++ [WaitFor Erase] ++
  (Request Read <$> all_blocks) ++ [WaitFor Read] ++
  (bus ← range NUM_BUSES; (Request Write <$> bus_blocks bus) ++ [WaitFor Write]) ++
  (Request Read <$> all_blocks) ++ [WaitFor Read].

(** The static variables when the requests begin. *)
Definition host_init : Host :=
  {| tags := fun _ => replicate NUM_TAGS {| busy := false; place := (0, 0, 0) |};
     inflight := fun _ => 0; flashStatus := fun _ => UNINIT;
     readBuffers := fun _ _ => 0; writeBuffers := fun _ _ => 0; testPass := true |}.

(** * The system *)

(** A flash that works: the words of the first page of each block. *)
Definition Flash : Type := block -> nat -> Z.

Record Sys : Type := {
  host : Host; todo : list action; held : option nat;  (* the tag of the request that comes next *)
  outstanding : list Req; flash : Flash }.

(** A block is erased to ones, or reads zero if it is bad. *)
Definition erased_page (bad : block -> bool) (b : block) (_ : nat) : Z := if bad b then 0 else 2 ^ 32 - 1.

(** A request is carried out and its indication delivered. *)
Definition complete (bad : block -> bool) (r : Req) (h : Host) (f : Flash) : Host * Flash :=
  match rq_kind r with
  | Erase => (eraseDone (rq_tag r) h, upd (rq_block r) (erased_page bad (rq_block r)) f)
  | Write => (writeDone (rq_tag r) h, upd (rq_block r) (writeBuffers h (rq_tag r)) f)
  | Read => (readDone (rq_tag r) (set_readBuffers (upd (rq_tag r) (f (rq_block r)) (readBuffers h)) h), f)
  end.

Inductive step (bad : block -> bool) : Sys -> Sys -> Prop :=
| step_acquire h k b l q f t h' : waitIdle k h = Some (t, h') ->
    step bad {| host := h; todo := Request k b :: l; held := None; outstanding := q; flash := f |}
             {| host := h'; todo := Request k b :: l; held := Some t; outstanding := q; flash := f |}
| step_issue h k b l q f t r h' : issue k b t h = (r, h') ->
    step bad {| host := h; todo := Request k b :: l; held := Some t; outstanding := q; flash := f |}
             {| host := h'; todo := l; held := None; outstanding := r :: q; flash := f |}
| step_wait h k l q f : inflight h k = 0 ->
    step bad {| host := h; todo := WaitFor k :: l; held := None; outstanding := q; flash := f |}
             {| host := h; todo := l; held := None; outstanding := q; flash := f |}
| step_complete h l t q1 r q2 f h' f' : complete bad r h f = (h', f') ->
    step bad {| host := h; todo := l; held := t; outstanding := q1 ++ r :: q2; flash := f |}
             {| host := h'; todo := l; held := t; outstanding := q1 ++ q2; flash := f' |}.

Definition start (f : Flash) : Sys :=
  {| host := host_init; todo := main_actions; held := None; outstanding := []; flash := f |}.

(** * The invariant *)

(** One kind of request is in flight at a time, and only blocks that were erased
    are read: decided along the list of actions. *)
Definition status_after (k : kind) (b : block) (st : block -> FlashStatusT) : block -> FlashStatusT :=
  match k with Erase => upd b ERASED st | Write => upd b WRITTEN st | Read => st end.
Fixpoint phased (cur : option kind) (st : block -> FlashStatusT) (l : list action) : bool :=
  match l with
  | [] => bool_decide (cur = None)
  | WaitFor k :: l => bool_decide (cur = Some k) && phased None st l
  | Request k b :: l =>
      bool_decide (cur = None \/ cur = Some k) && (bool_decide (k <> Read) || bool_decide (st b <> UNINIT)) &&
      phased (Some k) (status_after k b st) l
  end.

Lemma main_phased : phased None (flashStatus host_init) main_actions = true.
Proof. vm_compute. reflexivity. Qed.

Definition key (r : Req) : kind * nat := (rq_kind r, rq_tag r).
Definition count (k : kind) (q : list Req) : nat := length (filter (fun r => rq_kind r = k) q).

(** The tag a request of the main thread has been given. *)
Definition granted (s : Sys) : option (kind * nat) :=
  match held s, todo s with Some t, Request k _ :: _ => Some (k, t) | _, _ => None end.

Record inv (bad : block -> bool) (cur : option kind) (s : Sys) : Prop := {
  iv_phased : phased cur (flashStatus (host s)) (todo s) = true;
  iv_kind : forall r, r ∈ outstanding s -> cur = Some (rq_kind r);
  iv_count : forall k, inflight (host s) k = Z.of_nat (count k (outstanding s));
  iv_tables : forall k, length (tags (host s) k) = NUM_TAGS;
  iv_busy : forall k t, tag_busy k t (host s) = true <->
    (k, t) ∈ key <$> outstanding s \/ granted s = Some (k, t);
  iv_nodup : NoDup (key <$> outstanding s);
  iv_fresh : forall k t, granted s = Some (k, t) -> (k, t) ∉ key <$> outstanding s;
  iv_held : held s <> None -> granted s <> None;
  iv_read : forall r, r ∈ outstanding s -> rq_kind r = Read ->
    tag_place Read (rq_tag r) (host s) = rq_block r /\ flashStatus (host s) (rq_block r) <> UNINIT;
  iv_write : forall r, r ∈ outstanding s -> rq_kind r = Write ->
    writeBuffers (host s) (rq_tag r) = hashAddrToData (rq_block r) /\ flashStatus (host s) (rq_block r) = WRITTEN;
  iv_erase : forall r, r ∈ outstanding s -> rq_kind r = Erase -> flashStatus (host s) (rq_block r) = ERASED;
  iv_written : forall b, flashStatus (host s) b = WRITTEN ->
    (exists r, r ∈ outstanding s /\ rq_kind r = Write /\ rq_block r = b) \/ flash s b = hashAddrToData b;
  iv_erased : forall b, flashStatus (host s) b = ERASED ->
    (exists r, r ∈ outstanding s /\ rq_kind r = Erase /\ rq_block r = b) \/ flash s b = erased_page bad b;
  iv_pass : testPass (host s) = true }.

(** ** Tag tables *)

Lemma upd_eq {A B} `{!EqDecision A} (a : A) (b : B) f : upd a b f a = b.
Proof. unfold upd. by rewrite decide_True. Qed.

Lemma upd_ne {A B} `{!EqDecision A} (a x : A) (b : B) f : x <> a -> upd a b f x = f x.
Proof. intros. unfold upd. by rewrite decide_False. Qed.

Lemma put_tag_lookup k t e s k' t' : (t < length (tags s k))%nat ->
  tags (put_tag k t e s) k' !! t' = if decide (k' = k /\ t' = t) then Some e else tags s k' !! t'.
Proof.
  intros Ht. unfold put_tag. cbn. unfold upd. destruct (decide (k' = k)) as [-> |Hk].
  - destruct (decide (k = k /\ t' = t)) as [[_ ->]|Hn]; [by apply list_lookup_insert_eq|].
    apply list_lookup_insert_ne. intros ->. by apply Hn.
  - rewrite decide_False; [done|]. tauto.
Qed.

Lemma put_tag_length k t e s k' : length (tags (put_tag k t e s) k') = length (tags s k').
Proof. unfold put_tag. cbn. unfold upd. destruct (decide (k' = k)) as [-> |]; [apply length_insert|done]. Qed.

Lemma tag_busy_put k t e s k' t' : (t < length (tags s k))%nat ->
  tag_busy k' t' (put_tag k t e s) = if decide (k' = k /\ t' = t) then busy e else tag_busy k' t' s.
Proof. intros Ht. unfold tag_busy. rewrite put_tag_lookup by done. by destruct (decide _). Qed.

Lemma tag_place_put k t e s k' t' : (t < length (tags s k))%nat ->
  tag_place k' t' (put_tag k t e s) = if decide (k' = k /\ t' = t) then place e else tag_place k' t' s.
Proof. intros Ht. unfold tag_place. rewrite put_tag_lookup by done. by destruct (decide _). Qed.

Lemma tag_place_busy k t v s k' t' : (t < length (tags s k))%nat ->
  tag_place k' t' (set_busy k t v s) = tag_place k' t' s.
Proof.
  intros Ht. unfold set_busy. rewrite tag_place_put by done. destruct (decide _) as [[-> ->]|]; done.
Qed.

Lemma tag_busy_bound k t s : tag_busy k t s = true -> (t < length (tags s k))%nat.
Proof. unfold tag_busy. intros H. apply lookup_lt_is_Some. destruct (tags s k !! t); [eauto|done]. Qed.

Lemma idle_tag_Some l : forall n t, idle_tag l n = Some t -> exists e, (n <= t)%nat /\ l !! (t - n)%nat = Some e /\ busy e = false.
Proof.
  induction l as [|e l IH]; intros n t H; cbn in H; [done|]. destruct (busy e) eqn:E.
  - apply IH in H as (e' & Hn & Hl & He). exists e'. split; [lia|]. split; [|done].
    by replace (t - n)%nat with (S (t - S n)) by lia.
  - injection H as <-. exists e. rewrite Nat.sub_diag. done.
Qed.

Lemma waitIdle_spec k s t s' : waitIdle k s = Some (t, s') ->
  (t < length (tags s k))%nat /\ tag_busy k t s = false /\ s' = set_busy k t true s.
Proof.
  unfold waitIdle. intros H. apply bind_Some in H as (t' & Ht & H). injection H as <- <-.
  apply idle_tag_Some in Ht as (e & _ & Hl & He). rewrite Nat.sub_0_r in Hl. split; [by apply lookup_lt_Some in Hl|].
  split; [|done]. unfold tag_busy. by rewrite Hl.
Qed.

Lemma idle_tag_None l : forall n, idle_tag l n = None -> forall t e, l !! t = Some e -> busy e = true.
Proof.
  induction l as [|e l IH]; intros n H t e' Ht; [done|]. cbn in H. destruct (busy e) eqn:E; [|done].
  destruct t as [|t]; cbn in Ht; [by injection Ht as <-|]. eauto.
Qed.

(** ** Each step keeps it *)

Lemma count_cons k r q : count k (r :: q) = ((if decide (rq_kind r = k) then 1 else 0) + count k q)%nat.
Proof. unfold count. rewrite filter_cons. by destruct (decide _). Qed.

#[local] Arguments count : simpl never.

Lemma inv_acquire bad cur h k b l q f t h' : waitIdle k h = Some (t, h') ->
  inv bad cur {| host := h; todo := Request k b :: l; held := None; outstanding := q; flash := f |} ->
  inv bad cur {| host := h'; todo := Request k b :: l; held := Some t; outstanding := q; flash := f |}.
Proof.
  intros H [Hp Hk Hc Ht Hb Hn Hf Hh Hr Hw He Hwr Her Hpass]. apply waitIdle_spec in H as (Hlt & Hidle & ->).
  cbn in *. constructor; cbn -[set_busy]; try done.
  - intros k'. unfold set_busy. rewrite put_tag_length. apply Ht.
  - intros k' t'. unfold set_busy. rewrite tag_busy_put by done. destruct (decide _) as [[-> ->]|Hne].
    + split; [|done]. intros _. by right.
    + rewrite Hb. cbn. split; [intros [?|?]; [by left|done]|]. intros [?|[= -> ->]]; [by left|]. by destruct Hne.
  - intros k' t' [= -> ->] Hin. rewrite (proj2 (Hb k' t')) in Hidle; [done|by left].
  - intros r Hin Hkr. rewrite tag_place_busy by done. by apply Hr.
Qed.

Lemma inv_wait bad cur h k l q f : inflight h k = 0 ->
  inv bad cur {| host := h; todo := WaitFor k :: l; held := None; outstanding := q; flash := f |} ->
  inv bad None {| host := h; todo := l; held := None; outstanding := q; flash := f |} /\ q = [].
Proof.
  intros Hz [Hp Hk Hc Ht Hb Hn Hf Hh Hr Hw He Hwr Her Hpass]. cbn in *. apply andb_prop in Hp as [Hcur Hp].
  apply bool_decide_eq_true in Hcur. assert (q = []) as ->.
  { destruct q as [|r q]; [done|]. specialize (Hk r (list_elem_of_here _ _)). specialize (Hc k).
    rewrite Hz, count_cons in Hc. rewrite decide_True in Hc by congruence. lia. }
  split; [|done]. constructor; cbn; try done. intros r Hr'. by apply elem_of_nil in Hr'.
Qed.

(** A request joins those in flight; what the host changes besides is given. *)
Lemma inv_issue_with bad cur h k b l q f t h' : 
  inv bad cur {| host := h; todo := Request k b :: l; held := Some t; outstanding := q; flash := f |} ->
  flashStatus h' = status_after k b (flashStatus h) ->
  inflight h' = upd k (inflight h k + 1) (inflight h) ->
  (forall k', length (tags h' k') = length (tags h k')) ->
  (forall k' t', tag_busy k' t' h' = tag_busy k' t' h) ->
  (forall t', (k, t) <> (Read, t') -> tag_place Read t' h' = tag_place Read t' h) ->
  (k = Read -> tag_place Read t h' = b) ->
  (forall t', (k, t) <> (Write, t') -> writeBuffers h' t' = writeBuffers h t') ->
  (k = Write -> writeBuffers h' t = hashAddrToData b) ->
  testPass h' = testPass h ->
  inv bad (Some k) {| host := h'; todo := l; held := None;
    outstanding := {| rq_kind := k; rq_block := b; rq_tag := t |} :: q; flash := f |}.
Proof.
  intros [Hp Hk Hc Ht Hb Hn Hf Hh Hr Hw He Hwr Her Hpass] Es Ei El Eb Ep Ep' Ew Ew' Et. cbn in *.
  apply andb_prop in Hp as [Hp Hph]. apply andb_prop in Hp as [Hcur Hst]. apply bool_decide_eq_true in Hcur.
  assert (Hq : forall r, r ∈ q -> rq_kind r = k).
  { intros r Hin. specialize (Hk r Hin). destruct Hcur as [-> | ->]; [done|congruence]. }
  assert (Hfr : forall r, r ∈ q -> rq_tag r <> t).
  { intros r Hin E. apply (Hf k t eq_refl). apply list_elem_of_fmap. exists r. split; [|done].
    unfold key. by rewrite (Hq r Hin), E. }
  constructor; cbn.
  - by rewrite Es.
  - intros r [-> |Hin]%elem_of_cons; [done|]. by rewrite (Hq r Hin).
  - intros k'. rewrite Ei, count_cons. cbn. unfold upd. destruct (decide (k' = k)) as [-> |Hne].
    + rewrite decide_True by done. rewrite Hc. lia.
    + rewrite decide_False by done. apply Hc.
  - intros k'. by rewrite El.
  - intros k' t'. rewrite Eb, Hb, elem_of_cons. cbn. unfold key at 2. cbn. split.
    + intros [?|[= -> ->]]; left; [by right|by left].
    + intros [[[= -> ->]|?]|?]; [by right|by left|done].
  - constructor; [|done]. by apply Hf.
  - done.
  - done.
  - intros r [-> |Hin]%elem_of_cons Hkr; cbn in *.
    + subst k. split; [by apply Ep'|]. rewrite Es. cbn. by apply orb_prop in Hst as [?%bool_decide_eq_true|?%bool_decide_eq_true].
    + destruct (Hr r Hin Hkr) as [H1 H2]. rewrite Ep by (intros [= -> E]; by apply (Hfr r Hin)). split; [done|].
      rewrite Es. rewrite <- (Hq r Hin), Hkr. done.
  - intros r [-> |Hin]%elem_of_cons Hkr; cbn in *.
    + subst k. split; [by apply Ew'|]. rewrite Es. cbn. apply upd_eq.
    + destruct (Hw r Hin Hkr) as [H1 H2]. rewrite Ew by (intros [= -> E]; by apply (Hfr r Hin)). split; [done|].
      rewrite Es, <- (Hq r Hin), Hkr. cbn. unfold upd. by destruct (decide _).
  - intros r [-> |Hin]%elem_of_cons Hkr; cbn in *.
    + subst k. rewrite Es. cbn. apply upd_eq.
    + specialize (He r Hin Hkr). rewrite Es, <- (Hq r Hin), Hkr. cbn. unfold upd. by destruct (decide _).
  - intros b' Hs. rewrite Es in Hs.
    destruct (decide (k = Write /\ b' = b)) as [[-> ->]|Hne].
    { left. eexists. split; [left|]. done. }
    assert (Hs' : flashStatus h b' = WRITTEN).
    { destruct k; cbn in Hs; [|unfold upd in Hs; destruct (decide (b' = b)); [by destruct Hne|done]|done].
      unfold upd in Hs. by destruct (decide (b' = b)). }
    destruct (Hwr b' Hs') as [(r & Hin & ?)|?]; [|by right]. left. exists r. split; [by right|done].
  - intros b' Hs. rewrite Es in Hs.
    destruct (decide (k = Erase /\ b' = b)) as [[-> ->]|Hne].
    { left. eexists. split; [left|]. done. }
    assert (Hs' : flashStatus h b' = ERASED).
    { destruct k; cbn in Hs; [unfold upd in Hs; destruct (decide (b' = b)); [by destruct Hne|done]| |done].
      unfold upd in Hs. by destruct (decide (b' = b)). }
    destruct (Her b' Hs') as [(r & Hin & ?)|?]; [|by right]. left. exists r. split; [by right|done].
  - by rewrite Et.
Qed.

Lemma inv_issue bad cur h k b l q f t r h' : issue k b t h = (r, h') ->
  inv bad cur {| host := h; todo := Request k b :: l; held := Some t; outstanding := q; flash := f |} ->
  inv bad (Some k) {| host := h'; todo := l; held := None; outstanding := r :: q; flash := f |}.
Proof.
  intros E I. assert (Hlt : (t < length (tags h k))%nat).
  { apply tag_busy_bound, (iv_busy _ _ _ I). by right. }
  destruct k; cbn in E; injection E as <- <-; eapply inv_issue_with; try done; cbn -[put_tag]; try done.
  - intros t' Hne. apply upd_ne. congruence.
  - intros _. apply upd_eq.
  - intros k'. by rewrite put_tag_length.
  - intros k' t'. rewrite tag_busy_put by done. destruct (decide _) as [[-> ->]|]; done.
  - intros t' Hne. rewrite tag_place_put by done. rewrite decide_False; [done|]. intros [_ ->]. done.
  - intros _. rewrite tag_place_put by done. by rewrite decide_True.
Qed.

(** *** An indication *)

Lemma done_locked_spec k t s : tag_busy k t s = true -> 0 < inflight s k ->
  let s' := done_locked k t s in
  inflight s' = upd k (inflight s k - 1) (inflight s) /\ flashStatus s' = flashStatus s /\
  writeBuffers s' = writeBuffers s /\ testPass s' = testPass s /\
  (forall k', length (tags s' k') = length (tags s k')) /\
  (forall k' t', tag_busy k' t' s' = if decide (k' = k /\ t' = t) then false else tag_busy k' t' s) /\
  (forall k' t', tag_place k' t' s' = tag_place k' t' s).
Proof.
  intros Hb Hn. pose proof (tag_busy_bound _ _ _ Hb) as Hlt. unfold done_locked.
  rewrite decide_False by lia. set (s1 := set_inflight _ s).
  change (tag_busy k t s1) with (tag_busy k t s). rewrite Hb.
  assert (Hlt1 : (t < length (tags s1 k))%nat) by done. cbn zeta.
  split_and!; try done.
  - intros k'. unfold set_busy. by rewrite put_tag_length.
  - intros k' t'. unfold set_busy. by rewrite tag_busy_put.
  - intros k' t'. by rewrite tag_place_busy.
Qed.

(** The check passes on a page as it should be. *)
Lemma checkReadData_ok bad tag b s : tag_place Read tag s = b ->
  match flashStatus s b with
  | WRITTEN => readBuffers s tag = hashAddrToData b
  | ERASED => readBuffers s tag = erased_page bad b
  | UNINIT => False
  end -> checkReadData tag s = s.
Proof.
  intros Hp H. unfold checkReadData. rewrite Hp. destruct (flashStatus s b); [done| |].
  - rewrite H. unfold erased_page. destruct (bad b); [by rewrite decide_False|by rewrite decide_True].
  - rewrite H. assert (E : forallb (fun w => hashAddrToData b w =? hashAddrToData b w) (seq 0 PAGE_WORDS) = true).
    { apply forallb_forall. intros. apply Z.eqb_refl. }
    by rewrite E.
Qed.

(** Removing the request at the head, with what the indication changed. *)
Lemma inv_remove bad cur h l g r q f h' f' :
  inv bad cur {| host := h; todo := l; held := g; outstanding := r :: q; flash := f |} ->
  inflight h' = upd (rq_kind r) (inflight h (rq_kind r) - 1) (inflight h) ->
  flashStatus h' = flashStatus h -> writeBuffers h' = writeBuffers h -> testPass h' = true ->
  (forall k', length (tags h' k') = length (tags h k')) ->
  (forall k' t', tag_busy k' t' h' = if decide (k' = rq_kind r /\ t' = rq_tag r) then false else tag_busy k' t' h) ->
  (forall k' t', tag_place k' t' h' = tag_place k' t' h) ->
  (forall b, b <> rq_block r -> f' b = f b) ->
  (flashStatus h (rq_block r) = WRITTEN -> f' (rq_block r) = hashAddrToData (rq_block r)) ->
  (flashStatus h (rq_block r) = ERASED -> f' (rq_block r) = erased_page bad (rq_block r)) ->
  inv bad cur {| host := h'; todo := l; held := g; outstanding := q; flash := f' |}.
Proof.
  intros [Hp Hk Hc Ht Hb Hn Hf Hh Hr Hw He Hwr Her Hpass] Ei Es Ewb Et El Eb Ep Ef Fw Fe. cbn in *.
  apply NoDup_cons in Hn as [Hnk Hn].
  assert (Hg : forall k t, granted {| host := h'; todo := l; held := g; outstanding := q; flash := f' |} = Some (k, t) ->
    (k, t) ∉ key <$> r :: q) by (intros k t E; by apply Hf).
  constructor; cbn.
  - by rewrite Es.
  - intros r' Hin. apply Hk. by right.
  - intros k. rewrite Ei. specialize (Hc k). rewrite count_cons in Hc. unfold upd.
    destruct (decide (k = rq_kind r)) as [-> |Hne]; [rewrite decide_True in Hc by done; lia|].
    rewrite decide_False in Hc by congruence. lia.
  - intros k. by rewrite El.
  - intros k t. rewrite Eb. destruct (decide _) as [[-> ->]|Hne].
    + split; [done|]. intros [H|H]; [by destruct Hnk|]. exfalso. apply (Hg _ _ H). by left.
    + rewrite Hb, elem_of_cons. unfold granted. cbn. split; [|tauto].
      intros [[H|H]|H]; [|by left|by right]. injection H as -> ->. by destruct Hne.
  - done.
  - intros k t H Hin. apply (Hg k t H). by right.
  - done.
  - intros r' Hin Hkr. rewrite Ep, Es. apply Hr; [by right|done].
  - intros r' Hin Hkr. rewrite Ewb, Es. apply Hw; [by right|done].
  - intros r' Hin Hkr. rewrite Es. apply He; [by right|done].
  - intros b Hs. rewrite Es in Hs. destruct (decide (b = rq_block r)) as [-> |Hne]; [right; auto|].
    rewrite Ef by done. destruct (Hwr b Hs) as [(r' & Hin & Hkr & Hbr)|?]; [|by right].
    apply elem_of_cons in Hin as [-> |Hin]; [by destruct Hne|]. left. eauto.
  - intros b Hs. rewrite Es in Hs. destruct (decide (b = rq_block r)) as [-> |Hne]; [right; auto|].
    rewrite Ef by done. destruct (Her b Hs) as [(r' & Hin & Hkr & Hbr)|?]; [|by right].
    apply elem_of_cons in Hin as [-> |Hin]; [by destruct Hne|]. left. eauto.
  - done.
Qed.

Lemma inv_perm bad cur h l g q q' f : q ≡ₚ q' ->
  inv bad cur {| host := h; todo := l; held := g; outstanding := q; flash := f |} ->
  inv bad cur {| host := h; todo := l; held := g; outstanding := q'; flash := f |}.
Proof.
  intros E [Hp Hk Hc Ht Hb Hn Hf Hh Hr Hw He Hwr Her Hpass]. cbn in *.
  assert (Ek : forall x, x ∈ key <$> q <-> x ∈ key <$> q') by (intros x; by rewrite E).
  assert (Er : forall r, r ∈ q <-> r ∈ q') by (intros r; by rewrite E).
  constructor; cbn; try done.
  - intros r Hin. apply Hk. by rewrite E.
  - intros k. rewrite Hc. unfold count. by rewrite E.
  - intros k t. rewrite Hb, Ek. done.
  - by rewrite <- E.
  - intros k t H. rewrite <- Ek. by apply Hf.
  - intros r Hin. apply Hr. by rewrite E.
  - intros r Hin. apply Hw. by rewrite E.
  - intros r Hin. apply He. by rewrite E.
  - intros b Hs. destruct (Hwr b Hs) as [(r & Hin & ?)|?]; [|by right]. left. exists r. by rewrite <- E.
  - intros b Hs. destruct (Her b Hs) as [(r & Hin & ?)|?]; [|by right]. left. exists r. by rewrite <- E.
Qed.

(** With reads in flight the pages are as the host believes. *)
Lemma inv_reading bad s b : inv bad (Some Read) s ->
  (flashStatus (host s) b = WRITTEN -> flash s b = hashAddrToData b) /\
  (flashStatus (host s) b = ERASED -> flash s b = erased_page bad b).
Proof.
  intros I. split; intros Hs; [destruct (iv_written _ _ _ I b Hs) as [(r & Hin & Hk & _)|?]
    |destruct (iv_erased _ _ _ I b Hs) as [(r & Hin & Hk & _)|?]]; try done;
    apply (iv_kind _ _ _ I) in Hin; congruence.
Qed.

Lemma inv_complete bad cur h l g r q f h' f' : complete bad r h f = (h', f') ->
  inv bad cur {| host := h; todo := l; held := g; outstanding := r :: q; flash := f |} ->
  inv bad cur {| host := h'; todo := l; held := g; outstanding := q; flash := f' |}.
Proof.
  intros E I.
  assert (Hin : r ∈ outstanding {| host := h; todo := l; held := g; outstanding := r :: q; flash := f |}) by left.
  assert (Hb : tag_busy (rq_kind r) (rq_tag r) h = true) by (apply (iv_busy _ _ _ I); left; left).
  assert (Hc : 0 < inflight h (rq_kind r)).
  { pose proof (iv_count _ _ _ I (rq_kind r)) as Hc. cbn in Hc. rewrite count_cons, decide_True in Hc by done. lia. }
  pose proof (iv_kind _ _ _ I r Hin) as Hcur. pose proof (iv_pass _ _ _ I) as Hpass. cbn in Hpass.
  unfold complete, eraseDone, writeDone in E. destruct (rq_kind r) eqn:Ek; injection E as <- <-.
  - destruct (done_locked_spec Erase (rq_tag r) h Hb Hc) as (E1 & E2 & E3 & E4 & E5 & E6 & E7).
    pose proof (iv_erase _ _ _ I r Hin Ek) as Hs. cbn in Hs.
    apply (inv_remove bad cur h l g r q f); rewrite ?Ek; try done; [exact (eq_trans E4 Hpass)| |congruence|].
    + intros b Hne. by apply upd_ne.
    + intros _. apply upd_eq.
  - destruct (done_locked_spec Write (rq_tag r) h Hb Hc) as (E1 & E2 & E3 & E4 & E5 & E6 & E7).
    destruct (iv_write _ _ _ I r Hin Ek) as [Hbuf Hs]. cbn in Hs, Hbuf.
    apply (inv_remove bad cur h l g r q f); rewrite ?Ek; try done; [exact (eq_trans E4 Hpass)| | |congruence].
    + intros b Hne. by apply upd_ne.
    + intros _. rewrite upd_eq. done.
  - set (h1 := set_readBuffers _ h). destruct (iv_read _ _ _ I r Hin Ek) as [Hpl Hne]. cbn in Hpl, Hne. subst cur.
    destruct (inv_reading bad _ (rq_block r) I) as [Fw Fe]. cbn in Fw, Fe. unfold readDone.
    rewrite (checkReadData_ok bad (rq_tag r) (rq_block r) h1).
    + destruct (done_locked_spec Read (rq_tag r) h1 Hb Hc) as (E1 & E2 & E3 & E4 & E5 & E6 & E7).
      apply (inv_remove bad (Some Read) h l g r q f); rewrite ?Ek; try done. exact (eq_trans E4 Hpass).
    + done.
    + cbn. rewrite upd_eq. destruct (flashStatus h (rq_block r)); auto.
Qed.

Lemma inv_step bad s s' : (exists cur, inv bad cur s) -> step bad s s' -> exists cur, inv bad cur s'.
Proof.
  intros [cur I] E. destruct E.
  - exists cur. by eapply inv_acquire.
  - exists (Some k). by eapply inv_issue.
  - exists None. by eapply inv_wait.
  - exists cur. eapply inv_complete; [done|]. eapply inv_perm; [|exact I]. by rewrite Permutation_middle.
Qed.

Lemma inv_start bad f : inv bad None (start f).
Proof.
  assert (Hnil : forall r : Req, r ∈ [] -> False) by (intros r H; by apply elem_of_nil in H).
  constructor; [exact main_phased|..]; cbn -[main_actions NUM_TAGS]; try done; try (intros r H; by destruct (Hnil r H)).
  - intros k t. unfold tag_busy, granted. cbn -[main_actions NUM_TAGS].
    split; [|intros [H|H]; [by apply elem_of_nil in H|done]].
    destruct (replicate NUM_TAGS _ !! t) as [e|] eqn:E; [|done]. apply lookup_replicate in E as [-> _]. done.
  - constructor.
Qed.

Lemma inv_reachable bad f s : rtc (step bad) (start f) s -> exists cur, inv bad cur s.
Proof.
  intros H. assert (H0 : exists cur, inv bad cur (start f)) by (exists None; apply inv_start).
  induction H; eauto using inv_step.
Qed.

(** ** The end of the test *)

Definition statuses (st : block -> FlashStatusT) (l : list action) : block -> FlashStatusT :=
  foldl (fun st a => match a with Request k b => status_after k b st | WaitFor _ => st end) st l.

Lemma statuses_main : forallb (fun b => bool_decide (statuses (flashStatus host_init) main_actions b = WRITTEN)) all_blocks = true.
Proof. vm_compute. reflexivity. Qed.

Lemma done_locked_status k t s : flashStatus (done_locked k t s) = flashStatus s.
Proof. unfold done_locked. by destruct (tag_busy k t _). Qed.

Lemma check_status t s : flashStatus (checkReadData t s) = flashStatus s.
Proof.
  unfold checkReadData. destruct (flashStatus s _); [done| |by destruct (forallb _ _)]. by repeat destruct (decide _).
Qed.

Lemma statuses_step bad s s' : step bad s s' ->
  statuses (flashStatus (host s')) (todo s') = statuses (flashStatus (host s)) (todo s).
Proof.
  destruct 1 as [h k b l q f t h' E|h k b l q f t r h' E| |h l t q1 r q2 f h' f' E]; cbn.
  - apply waitIdle_spec in E as (_ & _ & ->). done.
  - by destruct k; cbn in E; injection E as <- <-.
  - done.
  - unfold complete in E. destruct (rq_kind r); injection E as <- <-; unfold eraseDone, writeDone, readDone;
      by rewrite done_locked_status, ?check_status.
Qed.

Lemma statuses_reachable bad f s : rtc (step bad) (start f) s ->
  statuses (flashStatus (host s)) (todo s) = statuses (flashStatus host_init) main_actions.
Proof.
  intros H. assert (H0 : statuses (flashStatus (host (start f))) (todo (start f)) =
    statuses (flashStatus host_init) main_actions) by done.
  induction H as [|s s1 s2 E _ IH]; [done|]. apply IH. by rewrite (statuses_step _ _ _ E).
Qed.

(** C9: the flash test passes on every flash that works, however its requests
    complete.  In every state it can reach no check has failed, no two requests
    in flight share a tag, each count is the number of requests in flight (so
    none goes below zero), and when the main thread has finished nothing is in
    flight and every block of the flash holds its page. *)
Theorem flash_test_passes bad f s : rtc (step bad) (start f) s ->
  testPass (host s) = true /\ NoDup (key <$> outstanding s) /\
  (forall k, inflight (host s) k = Z.of_nat (count k (outstanding s))) /\
  (todo s = [] -> outstanding s = [] /\ Forall (fun b => flash s b = hashAddrToData b) all_blocks).
Proof.
  intros H. destruct (inv_reachable _ _ _ H) as [cur I]. split_and!; [apply I..|]. intros Htodo.
  pose proof (iv_phased _ _ _ I) as Hp. rewrite Htodo in Hp. apply bool_decide_eq_true in Hp. subst cur.
  assert (Ho : outstanding s = []).
  { destruct (outstanding s) as [|r q] eqn:E; [done|]. assert (Hr : r ∈ outstanding s) by (rewrite E; left).
    by apply (iv_kind _ _ _ I) in Hr. }
  split; [done|]. pose proof (statuses_reachable _ _ _ H) as Hs. rewrite Htodo in Hs. cbn [statuses foldl] in Hs.
  pose proof statuses_main as Hm. rewrite forallb_forall in Hm. apply List.Forall_forall. intros b Hb.
  specialize (Hm b Hb). apply bool_decide_eq_true in Hm. rewrite <- Hs in Hm.
  destruct (iv_written _ _ _ I b Hm) as [(r & Hin & _)|?]; [|done]. rewrite Ho in Hin. by apply elem_of_nil in Hin.
Qed.

(** ** It ends *)

Definition steps_left (s : Sys) : nat :=
  (3 * length (todo s) - match held s with Some _ => 1 | None => 0 end + length (outstanding s))%nat.

Lemma step_left bad s s' : step bad s s' -> (steps_left s' < steps_left s)%nat.
Proof.
  destruct 1; unfold steps_left; cbn -[Nat.mul]; rewrite ?length_app; cbn -[Nat.mul]; lia.
Qed.

Lemma inv_progress bad cur s : inv bad cur s -> todo s <> [] \/ outstanding s <> [] -> exists s', step bad s s'.
Proof.
  intros I Hn. destruct s as [h l g q f]. cbn in Hn.
  destruct q as [|r q].
  2: { destruct (complete bad r h f) as [h' f'] eqn:E. eexists. by apply (step_complete bad h l g [] r q f). }
  destruct l as [|[k b|k] l]; [by destruct Hn| |].
  - destruct g as [t|].
    + destruct (issue k b t h) as [r h'] eqn:E. eexists. by apply step_issue.
    + destruct (waitIdle k h) as [[t h']|] eqn:E; [eexists; by apply step_acquire|]. exfalso.
      unfold waitIdle in E. destruct (idle_tag (tags h k) 0) as [t|] eqn:Et; [done|].
      assert (Hl : is_Some (tags h k !! 0%nat)).
      { apply lookup_lt_is_Some. pose proof (iv_tables _ _ _ I k) as Hk. cbn in Hk. rewrite Hk. unfold NUM_TAGS. lia. }
      destruct Hl as [e He]. assert (Hb : tag_busy k 0 h = true).
      { unfold tag_busy. rewrite He. by eapply idle_tag_None. }
      apply (iv_busy _ _ _ I) in Hb as [Hb|Hb]; [by apply elem_of_nil in Hb|done].
  - destruct g as [t|].
    + exfalso. by apply (iv_held _ _ _ I).
    + eexists. apply step_wait. pose proof (iv_count _ _ _ I k) as Hc. done.
Qed.

Lemma run_left bad n s s' : nsteps (step bad) n s s' -> (n + steps_left s' <= steps_left s)%nat.
Proof. induction 1 as [|n' x y z E _ IH]; [lia|]. apply step_left in E. lia. Qed.

(** What stops has nothing left to do. *)
Lemma stopped_done bad f s : rtc (step bad) (start f) s -> (forall s', ~ step bad s s') -> todo s = [] /\ outstanding s = [].
Proof.
  intros H Hstop. destruct (inv_reachable bad f s H) as [cur I].
  destruct (todo s) eqn:Et, (outstanding s) eqn:Eo; try done;
    (destruct (inv_progress _ _ _ I) as [s' E]; [rewrite Et, Eo; by (left + right)|by destruct (Hstop s')]).
Qed.

Lemma run_to_end bad f s : rtc (step bad) (start f) s ->
  exists m s', nsteps (step bad) m s s' /\ todo s' = [] /\ outstanding s' = [].
Proof.
  remember (steps_left s) as k eqn:Ek. revert s Ek. induction k as [k IH] using lt_wf_ind. intros s -> H.
  destruct (decide (todo s = [] /\ outstanding s = [])) as [He|He]; [exists 0%nat, s; by split; [constructor|]|].
  destruct (inv_reachable bad f s H) as [cur I].
  destruct (inv_progress _ _ _ I) as [s1 E].
  { destruct (todo s); [|by left]. destruct (outstanding s); [|by right]. by destruct He. }
  pose proof (step_left _ _ _ E) as Hl.
  destruct (IH (steps_left s1) ltac:(lia) s1 eq_refl) as (m & s' & Hm & He'); [by eapply rtc_r|].
  exists (S m), s'. split; [by econstructor|done].
Qed.

(** C10: the flash test always ends: a run takes at most three steps per action of
    the main thread, a state in which no step is possible has no action and no
    request left, and every state reached can be carried on to such an end.  In
    particular a main thread that waits for a free tag or for a count to reach
    zero is always served. *)
Theorem flash_test_ends bad f n s : nsteps (step bad) n (start f) s ->
  (n <= 3 * length main_actions)%nat /\
  ((forall s', ~ step bad s s') -> todo s = [] /\ outstanding s = []) /\
  exists m s', nsteps (step bad) m s s' /\ todo s' = [] /\ outstanding s' = [].
Proof.
  intros H. pose proof (rtc_nsteps_2 _ _ _ H) as Hr. split_and!.
  - apply run_left in H. unfold steps_left at 2 in H. cbn -[main_actions Nat.mul] in H. lia.
  - by apply (stopped_done bad f).
  - by apply (run_to_end bad f).
Qed.

(** ** The check is sharp *)

Definition valid_block (b : block) : Prop :=
  let '(bus, chip, blk) := b in 0 <= bus < NUM_BUSES /\ 0 <= chip < CHIPS_PER_BUS /\ 0 <= blk < BLOCKS_PER_CHIP.

Lemma hash_inj b b' w w' : valid_block b -> valid_block b' -> (w < PAGE_WORDS)%nat -> (w' < PAGE_WORDS)%nat ->
  hashAddrToData b w = hashAddrToData b' w' -> b = b' /\ w = w'.
Proof.
  destruct b as [[bus chip] blk], b' as [[bus' chip'] blk']. cbn. unfold NUM_BUSES, CHIPS_PER_BUS, BLOCKS_PER_CHIP, PAGE_WORDS.
  intros H H' Hw Hw' E. rewrite !Z.shiftl_mul_pow2 in E by lia. rewrite !u32_small in E by lia.
  assert (bus = bus') by lia. assert (chip = chip') by lia. assert (blk = blk') by lia. subst. split; [done|lia].
Qed.

(** the check of a page that was written passes exactly when every one of
    its 2048 words is right; the pages of two blocks differ in every word, so the
    page of another block, or of a block that is still erased, never passes. *)
Theorem check_detects tag s b : tag_place Read tag s = b -> flashStatus s b = WRITTEN -> valid_block b -> testPass s = true ->
  (testPass (checkReadData tag s) = true <-> forall w, (w < PAGE_WORDS)%nat -> readBuffers s tag w = hashAddrToData b w) /\
  (forall b', valid_block b' -> b' <> b -> readBuffers s tag = hashAddrToData b' -> testPass (checkReadData tag s) = false) /\
  (forall bad, readBuffers s tag = erased_page bad b -> testPass (checkReadData tag s) = false).
Proof.
  intros Hp Hs Hv Ht.
  assert (Hiff : testPass (checkReadData tag s) = true <->
    forall w, (w < PAGE_WORDS)%nat -> readBuffers s tag w = hashAddrToData b w).
  { unfold checkReadData. rewrite Hp, Hs. destruct (forallb _ _) eqn:E.
    - split; [|done]. intros _ w Hw. rewrite forallb_forall in E. symmetry. apply Z.eqb_eq, E, in_seq. lia.
    - split; [done|]. intros H. exfalso. apply not_true_iff_false in E. apply E, forallb_forall. intros w Hw%in_seq.
      apply Z.eqb_eq. symmetry. apply H. lia. }
  assert (Hno : forall w, (w < PAGE_WORDS)%nat -> readBuffers s tag w <> hashAddrToData b w -> testPass (checkReadData tag s) = false).
  { intros w Hw Hne. apply not_true_iff_false. intros H. by apply Hne, Hiff. }
  split; [done|]. split.
  - intros b' Hv' Hne E. apply (Hno 0%nat); [unfold PAGE_WORDS; lia|]. rewrite E. intros E'.
    apply hash_inj in E' as [? _]; [done..|unfold PAGE_WORDS; lia|unfold PAGE_WORDS; lia].
  - intros bad E. apply (Hno 1%nat); [unfold PAGE_WORDS; lia|]. rewrite E. unfold erased_page.
    destruct b as [[bus chip] blk]. cbn in Hv |- *. unfold NUM_BUSES, CHIPS_PER_BUS, BLOCKS_PER_CHIP in Hv.
    rewrite !Z.shiftl_mul_pow2 by lia. rewrite u32_small by lia. destruct (bad _); lia.
Qed.

(** ** Witnesses *)

Definition blank : Flash := fun _ _ => 0.
Definition after_acquire : Sys :=
  {| host := set_busy Erase 0 true host_init; todo := main_actions; held := Some 0%nat; outstanding := []; flash := blank |}.

Lemma acquire_runs : step (fun _ => false) (start blank) after_acquire.
Proof. unfold start, after_acquire. vm_compute main_actions. apply step_acquire. reflexivity. Qed.

Lemma flash_test_passes_witness : testPass (host after_acquire) = true.
Proof. exact (proj1 (flash_test_passes _ _ _ (rtc_once _ _ acquire_runs))). Defined.

(** A run with one tag taken, carried on to the end of the test. *)
Lemma flash_test_ends_witness : exists m s',
  nsteps (step (fun _ => false)) 1 (start blank) after_acquire /\ held after_acquire = Some 0%nat /\
  nsteps (step (fun _ => false)) m after_acquire s' /\ todo s' = [] /\ outstanding s' = [] /\
  (m < 3 * length main_actions)%nat.
Proof.
  destruct (flash_test_ends _ _ _ _ (nsteps_once _ _ acquire_runs)) as (_ & _ & m & s' & Hm & Ht & Ho).
  exists m, s'. split; [exact (nsteps_once _ _ acquire_runs)|]. split; [reflexivity|]. split; [exact Hm|].
  split; [exact Ht|]. split; [exact Ho|].
  exact (proj1 (flash_test_ends _ blank _ _ (nsteps_l _ _ _ _ _ acquire_runs Hm))).
Defined.

Definition read_back : Host :=
  put_tag Read 5 {| busy := true; place := (7, 7, 1) |}
    (set_readBuffers (fun _ => hashAddrToData (7, 7, 1)) (set_flashStatus (fun _ => WRITTEN) host_init)).

Lemma check_detects_witness : testPass (checkReadData 5 read_back) = true.
Proof.
  apply (check_detects 5 read_back (7, 7, 1)); [reflexivity|reflexivity|cbn; unfold NUM_BUSES, CHIPS_PER_BUS, BLOCKS_PER_CHIP; lia|
    reflexivity|]. intros. reflexivity.
Defined.
