(* ===== verification/FileSearch.v ===== *)
(** Searching files for a pattern, [tests/algo1_nandsim_manual/ss.cpp] and
    [ss_sw.cpp]: the blocks of a file are found through the file system's block
    map, merged into runs and searched run by run on the device; a directory is
    searched recursively.  The file system (block maps, directory entries) and
    the device are parameters. *)

From stdpp Require Import base list option.
From Stdlib Require Import ZArith Lia.
From S2P Require Import Prelude.
#[local] Open Scope Z_scope.

Definition MAX_FIBBLKS : Z := 32768.
Definition BLKSZ : nat := 4096.

(** * Runs of blocks *)

(** The loop over the blocks of a file: [start_blk] is -1 until the first block;
    the result is the complete runs and the one that is open at the end. *)
Fixpoint run_loop (lbas : list Z) (start_blk len : Z) : list (Z * Z) * (Z * Z) :=
  match lbas with
  | [] => ([], (start_blk, len))
  | lba :: lbas =>
      if decide (start_blk = -1) then run_loop lbas lba 1
      else if decide (len = MAX_FIBBLKS) then
        let '(out, last) := run_loop lbas lba 1 in ((start_blk, len) :: out, last)
      else if decide (lba = start_blk + len) then run_loop lbas start_blk (len + 1)
      else let '(out, last) := run_loop lbas lba 1 in ((start_blk, len) :: out, last)
  end.

(** Behind the loop the last run follows. *)
Definition fib_runs (lbas : list Z) : list (Z * Z) :=
  let '(out, last) := run_loop lbas (-1) 1 in out ++ [last].

(** [__fibmap_display_file]: begin, end and length of each run in sectors;
    [start] is the first sector of the device's partition. *)
Definition display_line (spb dev_start : Z) (r : Z * Z) : Z * Z * Z :=
  let '(start_blk, len) := r in
  (spb * start_blk + dev_start, spb * start_blk + spb * len + dev_start - 1, spb * len).
Definition fibmap_display_file (spb dev_start : Z) (lbas : list Z) : list (Z * Z * Z) :=
  display_line spb dev_start <$> fib_runs lbas.

(** [__fibmap_search_file]: the matches of the runs; a run that fails counts none. *)
Definition fibmap_search_file (comp : Z -> Z -> Z) (lbas : list Z) : Z :=
  match lbas with
  | [] => 0
  | _ => foldl (fun m r => let ret := comp (fst r) (snd r) in m + (if decide (ret < 0) then 0 else ret)) 0 (fib_runs lbas)
  end.

(** * Counting matches *)

(** The loop [for (ofs = 0; ofs <= len - strlen(pattern); ofs++)]. *)
Definition match_at (pattern buf : list Z) (ofs : nat) : bool :=
  bool_decide (take (length pattern) (drop ofs buf) = pattern).
Fixpoint match_loop (n : nat) (pattern buf : list Z) (ofs : nat) : Z :=
  match n with
  | O => 0
  | S n => (if match_at pattern buf ofs then 1 else 0) + match_loop n pattern buf (S ofs)
  end.
Definition count_matches (pattern buf : list Z) : Z :=
  match_loop (S (length buf) - length pattern) pattern buf 0.

(** [__fs_search_file] on the bytes of a file. *)
Definition fs_search_file (pattern content : list Z) : Z :=
  if decide (length content < length pattern)%nat then 0 else count_matches pattern content.

Section Device.
(** Whether [lseek64] reaches a block, and the bytes of a block. *)
Variable seek_ok : Z -> bool.
Variable block : Z -> list Z.

Definition sw_comp_4K (pattern : list Z) (blk_ofs blk_len : Z) : Z :=
  if seek_ok blk_ofs then count_matches pattern (concat (block <$> seqZ blk_ofs blk_len)) else -1.

Definition sw_comp (pattern : list Z) (blk_ofs blk_len : Z) : Z :=
  foldl (fun m i => m + sw_comp_4K pattern i 1) 0 (seqZ blk_ofs blk_len).
End Device.

(** * Directories *)

Definition path : Type := list Z.
Definition slash : Z := 47.
Definition dot : Z := 46.

(** What a name leads to: a file, or a directory with its entries in order. *)
Inductive node : Type := File | Dir (l : entries)
with entries : Type := NoEntry | Entry (name : path) (n : node) (l : entries).

(** [strncpy], the test for a final slash, [strncat]: names shorter than [PATH_MAX]. *)
Definition full_name (fname name : path) : path :=
  (if decide (reverse fname !! 0%nat = Some slash) then fname else fname ++ [slash]) ++ name.

Section Directory.
(** The search of one file; -1 is an error. *)
Variable search_pattern_file : path -> Z.

Definition is_dots (name : path) : bool := bool_decide (name = [dot; dot]) || bool_decide (name = [dot]).

(** [None] is [exit(-1)]; [opendir] fails on a file with [ENOTDIR]. *)
Fixpoint search_pattern_directory (fname : path) (n : node) : option Z :=
  match n with
  | File => let ret := search_pattern_file fname in if decide (ret = -1) then None else Some ret
  | Dir l => search_entries fname l 0
  end
(** The [readdir] loop: [match] so far. *)
with search_entries (fname : path) (l : entries) (m : Z) : option Z :=
  match l with
  | NoEntry => Some m
  | Entry name n l =>
      if is_dots name then search_entries fname l m
      else match n with
           | Dir _ =>
               ret ← search_pattern_directory (full_name fname name) n;
               if decide (ret = -1) then None else search_entries fname l (m + ret)
           | File =>
               let ret := search_pattern_file (full_name fname name) in
               if decide (ret = -1) then None else search_entries fname l (m + ret)
           end
  end.
End Directory.

Definition parse_args {A} (argv : list A) : option (A * A) :=
  match argv with [_; pattern; fname] => Some (pattern, fname) | _ => None end.

(** * The runs are the file's blocks *)

Definition expand (r : Z * Z) : list Z := seqZ (fst r) (snd r).

Lemma run_loop_expand lbas : Forall (fun b => 0 <= b) lbas -> forall start_blk len out last,
  0 <= start_blk -> 1 <= len <= MAX_FIBBLKS -> run_loop lbas start_blk len = (out, last) ->
  concat (expand <$> out ++ [last]) = seqZ start_blk len ++ lbas /\
  Forall (fun r => 1 <= snd r <= MAX_FIBBLKS) (out ++ [last]).
Proof.
  induction 1 as [|b lbas Hb Hl IH]; intros start_blk len out last Hs Hlen E; cbn in E.
  - injection E as <- <-. cbn. split; [done|]. by apply Forall_singleton.
  - rewrite decide_False in E by lia.
    assert (Hbreak : run_loop lbas b 1 = (tail out, last) -> out = (start_blk, len) :: tail out ->
      concat (expand <$> out ++ [last]) = seqZ start_blk len ++ b :: lbas /\
      Forall (fun r => 1 <= snd r <= MAX_FIBBLKS) (out ++ [last])).
    { intros E1 E2. apply IH in E1 as [H1 H2]; [|lia|unfold MAX_FIBBLKS; lia]. rewrite E2.
      cbn [app fmap list_fmap concat]. fold (fmap (M := list) expand). rewrite fmap_app in *.
      split; [|by constructor]. cbn [app concat]. unfold expand at 1. cbn [fst snd]. f_equal. exact H1. }
    destruct (decide (len = MAX_FIBBLKS)).
    { destruct (run_loop lbas b 1) as [out1 last1]. injection E as <- <-. by apply Hbreak. }
    destruct (decide (b = start_blk + len)) as [-> |].
    { apply IH in E as [H1 H2]; [|lia|lia]. split; [|done]. rewrite H1.
      rewrite (seqZ_app start_blk len 1) by lia. rewrite <- app_assoc. done. }
    destruct (run_loop lbas b 1) as [out1 last1]. injection E as <- <-. by apply Hbreak.
Qed.

(** No run could be longer: the next one does not continue it, or it is full. *)
Fixpoint maximal (l : list (Z * Z)) : Prop :=
  match l with
  | (s, n) :: (((s', _) :: _) as l') => (n = MAX_FIBBLKS \/ s' <> s + n) /\ maximal l'
  | _ => True
  end.

Lemma run_loop_head lbas start_blk len out last : start_blk <> -1 -> Forall (fun b => 0 <= b) lbas ->
  run_loop lbas start_blk len = (out, last) -> exists n l, out ++ [last] = (start_blk, n) :: l.
Proof.
  intros Hs Hl. revert start_blk len out last Hs. induction Hl as [|b lbas Hb Hl IH]; intros start_blk len out last Hs E; cbn in E.
  - injection E as <- <-. cbn. eauto.
  - rewrite decide_False in E by done.
    destruct (decide _); [destruct (run_loop lbas b 1); injection E as <- <-; cbn; eauto|].
    destruct (decide _); [by apply IH in E|]. destruct (run_loop lbas b 1); injection E as <- <-; cbn; eauto.
Qed.

Lemma run_loop_maximal lbas : Forall (fun b => 0 <= b) lbas -> forall start_blk len out last,
  start_blk <> -1 -> run_loop lbas start_blk len = (out, last) -> maximal (out ++ [last]).
Proof.
  induction 1 as [|b lbas Hb Hl IH]; intros start_blk len out last Hs E; cbn in E.
  - injection E as <- <-. by destruct start_blk.
  - rewrite decide_False in E by done.
    destruct (decide (len = MAX_FIBBLKS)) as [-> |Hlen].
    { destruct (run_loop lbas b 1) as [out1 last1] eqn:E1. injection E as <- <-.
      destruct (run_loop_head lbas b 1 out1 last1) as (n & l & Eh); [lia|done|done|].
      apply IH in E1; [|lia]. cbn. rewrite Eh in *. split; [by left|done]. }
    destruct (decide (b = start_blk + len)) as [|Hne]; [by apply IH in E|].
    destruct (run_loop lbas b 1) as [out1 last1] eqn:E1. injection E as <- <-.
    destruct (run_loop_head lbas b 1 out1 last1) as (n & l & Eh); [lia|done|done|].
    apply IH in E1; [|lia]. cbn. rewrite Eh in *. split; [by right|done].
Qed.

Lemma fib_runs_cover lbas : Forall (fun b => 0 <= b) lbas -> lbas <> [] ->
  concat (expand <$> fib_runs lbas) = lbas /\ Forall (fun r => 1 <= snd r <= MAX_FIBBLKS) (fib_runs lbas) /\
  maximal (fib_runs lbas).
Proof.
  intros Hl Hne. destruct lbas as [|b lbas]; [done|]. inversion Hl as [|? ? Hb Hl']; subst.
  unfold fib_runs. cbn [run_loop]. rewrite decide_True by done.
  destruct (run_loop lbas b 1) as [out last] eqn:E. pose proof E as E2.
  apply run_loop_expand in E as [H1 H2]; [|done|done|unfold MAX_FIBBLKS; lia].
  apply run_loop_maximal in E2; [|done|lia]. by rewrite H1.
Qed.

(** * Counting, against a reference *)

(** The positions at which the pattern begins. *)
Fixpoint occ (p l : list Z) : Z :=
  (if decide (p `prefix_of` l) then 1 else 0) + match l with [] => 0 | _ :: l => occ p l end.

Lemma match_at_prefix p l i : match_at p l i = bool_decide (p `prefix_of` drop i l).
Proof.
  unfold match_at. apply bool_decide_ext. split.
  - intros <-. apply prefix_take.
  - intros [k ->]. by rewrite take_app_length.
Qed.

Lemma match_loop_drop n p l i : match_loop n p l i = match_loop n p (drop i l) 0.
Proof.
  revert l i. induction n as [|n IH]; intros l i; cbn; [done|].
  rewrite !match_at_prefix, drop_drop, Nat.add_0_r. f_equal. rewrite (IH l (S i)), (IH (drop i l) 1%nat), drop_drop.
  f_equal. by rewrite Nat.add_1_r.
Qed.

Lemma occ_short p l : (length l < length p)%nat -> occ p l = 0.
Proof.
  induction l as [|x l IH]; intros Hl; cbn [occ]; (rewrite decide_False; [|intros H%prefix_length; cbn in *; lia]); [done|].
  rewrite IH; [done|]. cbn in Hl. lia.
Qed.

Lemma count_matches_occ p l : (length p <= length l)%nat -> p <> [] -> count_matches p l = occ p l.
Proof.
  intros Hl Hp. unfold count_matches. assert (Hp' : (1 <= length p)%nat) by (destruct p; [done|cbn; lia]).
  induction l as [|x l IH]; [cbn in Hl; lia|].
  replace (S (length (x :: l)) - length p)%nat with (S (S (length l) - length p)) by (cbn in *; lia).
  cbn [match_loop occ]. rewrite match_at_prefix. cbn [drop]. f_equal.
  { rewrite bool_decide_decide. by destruct (decide _). }
  rewrite match_loop_drop. cbn [drop].
  destruct (decide (length p <= length l)%nat); [by apply IH|].
  rewrite occ_short by lia. by replace (S (length l) - length p)%nat with 0%nat by lia.
Qed.

Lemma occ_nonneg p l : 0 <= occ p l.
Proof. induction l as [|x l IH]; cbn; destruct (decide _); lia. Qed.

Lemma occ_app p l1 l2 : p <> [] -> occ p l1 + occ p l2 <= occ p (l1 ++ l2).
Proof.
  intros Hp. induction l1 as [|x l1 IH].
  - cbn [occ app]. rewrite decide_False; [lia|]. by intros ->%prefix_nil_inv.
  - cbn [app]. cbn [occ]. destruct (decide (p `prefix_of` x :: l1)) as [H|H].
    + rewrite decide_True by (change (x :: l1 ++ l2) with ((x :: l1) ++ l2); by apply prefix_app_r). lia.
    + destruct (decide _); lia.
Qed.

Definition occ_blocks (p : list Z) (l : list (list Z)) : Z := foldr (fun b n => occ p b + n) 0 l.

Lemma occ_blocks_le p l : p <> [] -> occ_blocks p l <= occ p (concat l).
Proof.
  intros Hp. induction l as [|b l IH]; [apply occ_nonneg|]. cbn [occ_blocks foldr concat]. fold (occ_blocks p l).
  pose proof (occ_app p b (concat l) Hp). lia.
Qed.

(** ** A file on the device *)

Lemma sw_comp_blocks block p s n : p <> [] -> (forall b, length (block b) = BLKSZ) -> (length p <= BLKSZ)%nat ->
  sw_comp (fun _ => true) block p s n = occ_blocks p (block <$> seqZ s n).
Proof.
  intros Hp Hb Hlen. unfold sw_comp.
  assert (H : forall l m, foldl (fun m i => m + sw_comp_4K (fun _ => true) block p i 1) m l = m + occ_blocks p (block <$> l)).
  { induction l as [|b l IH]; intros m; cbn [foldl]; [cbn; lia|]. rewrite IH. unfold sw_comp_4K.
    assert (E : seqZ b 1 = [b]) by (rewrite seqZ_cons by lia; by rewrite seqZ_nil by lia).
    rewrite E. cbn [fmap list_fmap concat]. rewrite app_nil_r.
    rewrite count_matches_occ by (rewrite ?Hb; done). unfold occ_blocks. cbn -[occ]. lia. }
  rewrite H. lia.
Qed.

Lemma occ_blocks_app p l1 l2 : occ_blocks p (l1 ++ l2) = occ_blocks p l1 + occ_blocks p l2.
Proof. induction l1 as [|b l1 IH]; cbn; [done|]. unfold occ_blocks in *. lia. Qed.

Lemma occ_blocks_nonneg p l : 0 <= occ_blocks p l.
Proof. induction l as [|b l IH]; cbn; [done|]. pose proof (occ_nonneg p b). unfold occ_blocks in *. lia. Qed.

Lemma search_runs block p runs m : p <> [] -> (forall b, length (block b) = BLKSZ) -> (length p <= BLKSZ)%nat ->
  foldl (fun m r => let ret := sw_comp (fun _ => true) block p (fst r) (snd r) in m + (if decide (ret < 0) then 0 else ret)) m runs =
  m + occ_blocks p (block <$> concat (expand <$> runs)).
Proof.
  intros Hp Hb Hlen. revert m. induction runs as [|r runs IH]; intros m; cbn [foldl]; [cbn; lia|].
  rewrite IH. cbn [fmap list_fmap concat]. rewrite fmap_app, occ_blocks_app. rewrite sw_comp_blocks by done.
  fold (expand r). pose proof (occ_blocks_nonneg p (block <$> expand r)). rewrite decide_False by lia.
  fold (fmap (M := list) expand). lia.
Qed.

(** C23: the runs that are searched are the blocks of the file, in order, each
    run as long as it can be and at most 32768 blocks; so the search of a file on
    the device finds, for every fragmentation of the file, exactly the matches
    that lie within one block: at most as many as the search of its bytes, and
    those that cross a block boundary are never found. *)
Theorem fibmap_search_counts block p lbas : p <> [] -> (length p <= BLKSZ)%nat ->
  (forall b, length (block b) = BLKSZ) -> Forall (fun b => 0 <= b) lbas -> lbas <> [] ->
  concat (expand <$> fib_runs lbas) = lbas /\ maximal (fib_runs lbas) /\
  Forall (fun r => 1 <= snd r <= MAX_FIBBLKS) (fib_runs lbas) /\
  fibmap_search_file (sw_comp (fun _ => true) block p) lbas = occ_blocks p (block <$> lbas) /\
  fs_search_file p (concat (block <$> lbas)) = occ p (concat (block <$> lbas)) /\
  fibmap_search_file (sw_comp (fun _ => true) block p) lbas <= fs_search_file p (concat (block <$> lbas)).
Proof.
  intros Hp Hlen Hb Hl Hne. destruct (fib_runs_cover lbas Hl Hne) as (H1 & H2 & H3).
  assert (Hs : fibmap_search_file (sw_comp (fun _ => true) block p) lbas = occ_blocks p (block <$> lbas)).
  { unfold fibmap_search_file. destruct lbas as [|b lbas]; [done|]. rewrite search_runs by done. by rewrite H1. }
  assert (Hf : fs_search_file p (concat (block <$> lbas)) = occ p (concat (block <$> lbas))).
  { unfold fs_search_file. destruct (decide _); [by rewrite occ_short|]. apply count_matches_occ; [lia|done]. }
  split_and!; try done. rewrite Hs, Hf. by apply occ_blocks_le.
Qed.

(** A match over a block boundary is lost. *)
Definition halves (b : Z) : list Z := if decide (b = 7) then replicate (BLKSZ - 1) 0 ++ [1] else 2 :: replicate (BLKSZ - 1) 0.

Lemma fibmap_search_counts_witness :
  fibmap_search_file (sw_comp (fun _ => true) halves [1; 2]) [7; 8] <= fs_search_file [1; 2] (concat (halves <$> [7; 8])) /\
  fibmap_search_file (sw_comp (fun _ => true) halves [1; 2]) [7; 8] = 0 /\
  fs_search_file [1; 2] (concat (halves <$> [7; 8])) = 1.
Proof.
  split; [|split; vm_compute; reflexivity].
  apply (fibmap_search_counts halves [1; 2] [7; 8]); [done|unfold BLKSZ; cbn; lia| |by repeat constructor|done].
  intros b. unfold halves. destruct (decide _); cbn [length]; rewrite ?length_app, length_replicate; reflexivity.
Defined.

(** ** Errors *)

(** A block that cannot be reached lowers the count of its run by one. *)
Lemma unreachable_block_subtracts block p : exists seek_ok, 
  sw_comp seek_ok block p 0 2 = count_matches p (block 1) - 1.
Proof.
  exists (fun b => bool_decide (b <> 0)). unfold sw_comp, sw_comp_4K. change (seqZ 0 2) with [0; 1].
  cbn [foldl]. change (seqZ 1 1) with [1]. cbn [fmap list_fmap concat]. rewrite app_nil_r.
  rewrite bool_decide_eq_false_2 by (intros H; by apply H). rewrite bool_decide_eq_true_2 by done. lia.
Qed.

(** The display of an empty file shows a run that begins before the device. *)
Lemma display_empty spb dev_start :
  fibmap_display_file spb dev_start [] = [(dev_start - spb, dev_start - 1, spb)].
Proof. unfold fibmap_display_file, fib_runs. cbn. repeat f_equal; lia. Qed.

(** * The directory search *)

(** The files below a name, with their full names, in the order of the entries. *)
Fixpoint files (fname : path) (n : node) : list path :=
  match n with File => [fname] | Dir l => files_in fname l end
with files_in (fname : path) (l : entries) : list path :=
  match l with
  | NoEntry => []
  | Entry name n l => (if is_dots name then [] else files (full_name fname name) n) ++ files_in fname l
  end.

Definition total (search : path -> Z) (l : list path) : Z := foldr (fun f m => search f + m) 0 l.

Scheme node_entries_ind := Induction for node Sort Prop
with entries_node_ind := Induction for entries Sort Prop.
Combined Scheme node_mut_ind from node_entries_ind, entries_node_ind.

Lemma total_files_app search l1 l2 : total search (l1 ++ l2) = total search l1 + total search l2.
Proof. induction l1 as [|f l1 IH]; cbn; [done|]. unfold total in *. lia. Qed.

Lemma search_spec search : (forall f, -1 <= search f) ->
  (forall n fname, search_pattern_directory search fname n =
     if decide (Exists (fun f => search f = -1) (files fname n)) then None else Some (total search (files fname n))) /\
  (forall l fname m, search_entries search fname l m =
     if decide (Exists (fun f => search f = -1) (files_in fname l)) then None else Some (m + total search (files_in fname l))).
Proof.
  intros Hs. apply node_mut_ind.
  - intros fname. cbn. destruct (decide (search fname = -1)) as [E|E].
    + rewrite decide_True; [done|]. by constructor.
    + rewrite decide_False; [f_equal; unfold total; cbn; lia|]. intros H. inversion H as [? ? H1|? ? H1]; [done|inversion H1].
  - intros l IH fname. cbn [search_pattern_directory files]. rewrite IH. done.
  - intros fname m. cbn. rewrite decide_False; [f_equal; lia|]. intros H. inversion H.
  - intros name n IHn l IHl fname m. cbn [search_entries files_in]. destruct (is_dots name); [apply IHl|].
    set (f := full_name fname name).
    assert (Hn : (match n with Dir _ => search_pattern_directory search f n ≫= (fun ret =>
                    if decide (ret = -1) then None else search_entries search fname l (m + ret))
                  | File => let ret := search f in if decide (ret = -1) then None else search_entries search fname l (m + ret) end) =
                 (search_pattern_directory search f n ≫= (fun ret =>
                    if decide (ret = -1) then None else search_entries search fname l (m + ret)))).
    { destruct n; [|done]. cbn. destruct (decide (search f = -1)) as [E|E]; cbn; [done|]. by rewrite decide_False. }
    etransitivity; [exact Hn|]. rewrite IHn. destruct (decide (Exists _ (files f n))) as [E|E].
    { rewrite decide_True; [done|]. apply Exists_app. by left. }
    cbn [mbind option_bind]. rewrite decide_False.
    2: { assert (Ht : forall l, ~ Exists (fun f => search f = -1) l -> 0 <= total search l).
         { induction l0 as [|x l0 IH]; intros Hx; cbn; [done|]. rewrite Exists_cons in Hx.
           unfold total in *. specialize (Hs x). specialize (IH ltac:(tauto)). assert (search x <> -1) by tauto. lia. }
         specialize (Ht _ E). lia. }
    rewrite IHl. destruct (decide (Exists _ (files_in fname l))) as [E2|E2].
    + rewrite decide_True; [done|]. apply Exists_app. by right.
    + rewrite decide_False; [rewrite total_files_app; f_equal; lia|]. rewrite Exists_app. tauto.
Qed.

(** the search of a directory visits every file below it once, under its
    full name and in the order of the entries, without the entries [.] and [..],
    and returns the sum of their counts; it exits exactly when the search of one
    of them fails. *)
Theorem directory_search search fname n : (forall f, -1 <= search f) ->
  search_pattern_directory search fname n =
    (if decide (Exists (fun f => search f = -1) (files fname n)) then None else Some (total search (files fname n))).
Proof. intros Hs. by apply search_spec. Qed.

Definition demo_tree : node :=
  Dir (Entry [dot] (Dir NoEntry) (Entry [97] File (Entry [98] (Dir (Entry [99] File NoEntry)) NoEntry))).

Lemma directory_search_witness :
  search_pattern_directory (fun f => Z.of_nat (length f)) [100] demo_tree = Some 8 /\
  files [100] demo_tree = [[100; 47; 97]; [100; 47; 98; 47; 99]].
Proof.
  split; [|reflexivity]. rewrite (directory_search (fun f => Z.of_nat (length f)) [100] demo_tree) by lia.
  vm_compute. reflexivity.
Defined.
