(* ===== verification/SearchClients.v ===== *)
(** Clients of the search accelerators: the software reference of the regular
    expression search and its indications ([lib/regexp/cpp/regexp_utils.h]), the
    indications of the string search ([lib/strstr/cpp/strstr.h]), and the socket
    between the two programs of the flash examples ([lib/nandsim/cpp/nandsim.h]). *)

From stdpp Require Import base list option relations.
From Stdlib Require Import ZArith Lia.
From S2P Require Import Prelude.
#[local] Open Scope Z_scope.

(** * The regular expression search in software *)

(** [char] as an [int]: signed on some machines, not on others. *)
Definition char_value (signed : bool) (b : Z) : Z := if signed then swrap 8 b else b.

Section Regexp.
Variable char_signed : bool.
Variables charMap stateMap stateTransitions : list Z.   (* the bytes of the three files *)

Definition mem (l : list Z) (i : Z) : option Z := char_value char_signed <$> znth l i.

(** The loop of [sw_ref]; [None] is an access outside a table. *)
Fixpoint sw_loop (haystack : list Z) (matches state : Z) : option Z :=
  match haystack with
  | [] => Some matches
  | b :: haystack =>
      let c := u32 (char_value char_signed b) in
      mapped_c ← u32 <$> mem charMap c;
      mapped_state ← u32 <$> mem stateMap state;
      let hit := bool_decide (Z.land mapped_state (Z.shiftl 1 7) <> 0) in
      let matches := if hit then matches + 1 else matches in
      let mapped_state := if hit then 0 else mapped_state in
      state ← mem stateTransitions (Z.lor (u32 (Z.shiftl mapped_state 5)) mapped_c);
      sw_loop haystack matches state
  end.
Definition sw_ref (haystack : list Z) : option Z := sw_loop haystack 0 0.

(** ** The automaton of the tables *)

(** Seven-bit tables: a class below 32 for each of 128 characters, states that
    accept (bit 7) or name a row, and any number of rows of 32 successors, the
    first of which is always there. *)
Record tables_ok : Prop := {
  to_chars : (128 <= length charMap)%nat;
  to_classes : Forall (fun v => 0 <= v < 32) charMap;
  to_states : (0 < length stateMap <= 128)%nat;
  to_rows : Forall (fun v => 0 <= v < 128 /\ 32 * v + 32 <= Z.of_nat (length stateTransitions) \/ 128 <= v < 256) stateMap;
  to_first : (32 <= length stateTransitions)%nat;
  to_next : Forall (fun v => 0 <= v < Z.of_nat (length stateMap)) stateTransitions }.

Definition lookup0 (l : list Z) (i : Z) : Z := default 0 (l !! Z.to_nat i).
Definition accepting (s : Z) : bool := bool_decide (128 <= lookup0 stateMap s).
(** An accepting state goes on from the row of the initial state. *)
Definition next (s b : Z) : Z :=
  let row := if accepting s then 0 else lookup0 stateMap s in
  lookup0 stateTransitions (32 * row + lookup0 charMap b).
(** The states before each character. *)
Fixpoint states (s : Z) (l : list Z) : list Z :=
  match l with [] => [] | b :: l => s :: states (next s b) l end.
Definition hits (l : list Z) : Z := Z.of_nat (length (filter (fun s => accepting s = true) (states 0 l))).

(** ** The search follows the automaton *)

Lemma char_value_small b : 0 <= b < 128 -> char_value char_signed b = b.
Proof. intros H. unfold char_value. destruct char_signed; [|done]. unfold swrap.
  change (2 ^ (8 - 1)) with 128. change (2 ^ 8) with 256. rewrite Z.mod_small; lia.
Qed.

Lemma mem_lookup l i : 0 <= i < Z.of_nat (length l) -> exists v, l !! Z.to_nat i = Some v /\
  mem l i = Some (char_value char_signed v) /\ lookup0 l i = v.
Proof.
  intros Hi. destruct (lookup_lt_is_Some_2 l (Z.to_nat i)) as [v Hv]; [lia|]. exists v. split; [done|].
  unfold mem, lookup0. rewrite Hv. split; [|done]. unfold znth. rewrite decide_True by lia. by rewrite Hv.
Qed.

Context (Hok : tables_ok).

Lemma class_range b : 0 <= b < 128 -> mem charMap b = Some (lookup0 charMap b) /\ 0 <= lookup0 charMap b < 32.
Proof.
  intros Hb. destruct (mem_lookup charMap b) as (v & Hv & Hm & Hl); [pose proof (to_chars Hok); lia|].
  pose proof (Forall_lookup_1 _ _ _ _ (to_classes Hok) Hv) as H. cbn in H. rewrite Hl, Hm. by rewrite char_value_small by lia.
Qed.

(** The test of the accept bit, whatever the sign of [char]. *)
Lemma flag_bit v : 0 <= v < 128 \/ 128 <= v < 256 ->
  bool_decide (Z.land (u32 (char_value char_signed v)) (Z.shiftl 1 7) <> 0) = bool_decide (128 <= v).
Proof.
  intros Hv. change (Z.shiftl 1 7) with 128. assert (Hl : v mod 256 = v) by (apply Z.mod_small; lia).
  assert (E : Z.land (u32 (char_value char_signed v)) 128 = Z.land v 128).
  { assert (Em : u32 (char_value char_signed v) mod 256 = v).
    { unfold u32, wrap. rewrite Z.mod_mod_divide by (by exists (2 ^ 24)). unfold char_value.
      destruct char_signed; [|done]. unfold swrap.
      change (2 ^ (8 - 1)) with 128. change (2 ^ 8) with 256. rewrite Zminus_mod_idemp_l.
      by replace (v + 128 - 128) with v by lia. }
    rewrite <- Em at 2. rewrite <- (land_ones_mod _ 8) by lia. by rewrite <- Z.land_assoc. }
  rewrite E. destruct Hv as [Hv|Hv].
  - rewrite bool_decide_eq_false_2, bool_decide_eq_false_2; [done|lia|].
    replace (Z.land v 128) with 0; [lia|]. symmetry. apply (Z.bits_inj' _ 0). intros n Hn. rewrite Z.land_spec, Z.bits_0.
    destruct (decide (n = 7)) as [-> |Hne].
    + rewrite Z.testbit_odd, Z.shiftr_div_pow2 by lia. by rewrite Z.div_small by lia.
    + change 128 with (2 ^ 7). rewrite Z.pow2_bits_false by lia. apply andb_false_r.
  - rewrite !bool_decide_eq_true_2; [done|lia|]. intros H0.
    assert (Hb : Z.testbit (Z.land v 128) 7 = true).
    { rewrite Z.land_spec. change (Z.testbit 128 7) with true. rewrite andb_true_r, Z.testbit_odd, Z.shiftr_div_pow2 by lia.
      replace (v / 2 ^ 7) with 1; [done|]. apply Z.div_unique with (v - 128); lia. }
    by rewrite H0, Z.bits_0 in Hb.
Qed.

Definition state_ok (s : Z) : Prop := 0 <= s < Z.of_nat (length stateMap).

Lemma next_ok s b : state_ok s -> 0 <= b < 128 -> state_ok (next s b).
Proof.
  intros Hs Hb. destruct (class_range b Hb) as [_ Hc]. unfold next.
  destruct (mem_lookup stateMap s Hs) as (v & Hv & _ & Hl).
  pose proof (Forall_lookup_1 _ _ _ _ (to_rows Hok) Hv) as Hr. cbn in Hr.
  set (row := if accepting s then 0 else lookup0 stateMap s).
  assert (Hrow : 0 <= row /\ 32 * row + 32 <= Z.of_nat (length stateTransitions)).
  { unfold row, accepting. rewrite Hl. pose proof (to_first Hok). destruct (bool_decide_reflect (128 <= v)); [lia|]. destruct Hr; lia. }
  destruct (mem_lookup stateTransitions (32 * row + lookup0 charMap b)) as (w & Hw & _ & Hl2);
    [lia|]. rewrite Hl2. exact (Forall_lookup_1 _ _ _ _ (to_next Hok) Hw).
Qed.

Lemma sw_loop_states l : forall m s, Forall (fun b => 0 <= b < 128) l -> state_ok s ->
  sw_loop l m s = Some (m + Z.of_nat (length (filter (fun s => accepting s = true) (states s l)))).
Proof.
  induction l as [|b l IH]; intros m s Hl Hs; [cbn; f_equal; lia|]. inversion Hl as [|? ? Hb Hl']; subst.
  cbn [sw_loop states]. rewrite char_value_small, u32_small by lia. destruct (class_range b Hb) as [-> Hc].
  cbn [fmap option_fmap option_map mbind option_bind]. rewrite u32_small by lia.
  destruct (mem_lookup stateMap s Hs) as (v & Hv & -> & Hlv). cbn [fmap option_fmap option_map mbind option_bind].
  pose proof (Forall_lookup_1 _ _ _ _ (to_rows Hok) Hv) as Hr. cbn in Hr.
  rewrite flag_bit by lia.
  assert (Ha : accepting s = bool_decide (128 <= v)) by (unfold accepting; by rewrite Hlv).
  rewrite <- Ha.
  assert (Hm : mem stateTransitions (Z.lor (u32 (Z.shiftl (if accepting s then 0 else u32 (char_value char_signed v)) 5))
    (lookup0 charMap b)) = Some (next s b)).
  { set (row := if accepting s then 0 else lookup0 stateMap s).
    assert (Hrow : (0 <= row < 128 /\ 32 * row + 32 <= Z.of_nat (length stateTransitions)) /\ (if accepting s then 0 else u32 (char_value char_signed v)) = row).
    { unfold row. rewrite Ha, Hlv. pose proof (to_first Hok). destruct (bool_decide_reflect (128 <= v)); [lia|].
      rewrite char_value_small, u32_small by lia. lia. }
    destruct Hrow as [Hrow ->]. rewrite (u32_small (Z.shiftl row 5)) by (rewrite Z.shiftl_mul_pow2 by lia; lia).
    rewrite lor_shiftl_add by lia.
    destruct (mem_lookup stateTransitions (row * 2 ^ 5 + lookup0 charMap b)) as (w & Hw & -> & Hl2);
      [lia|].
    pose proof (Forall_lookup_1 _ _ _ _ (to_next Hok) Hw) as Hn. cbn in Hn. pose proof (to_states Hok).
    rewrite char_value_small by lia. f_equal. rewrite <- Hl2. unfold next. fold row. f_equal. lia. }
  rewrite Hm. cbn [mbind option_bind]. rewrite IH by (done || by apply next_ok). f_equal.
  rewrite filter_cons. destruct (accepting s) eqn:Eacc.
  - rewrite decide_True by done. cbn [length]. lia.
  - rewrite decide_False by congruence. lia.
Qed.
End Regexp.

(** A signed byte indexes the table of characters behind its end. *)
Lemma high_byte_index cm b : 128 <= b < 256 -> (length cm <= 256)%nat -> mem true cm (u32 (char_value true b)) = None.
Proof.
  intros Hb Hlen. unfold mem, znth, char_value, swrap. change (2 ^ (8 - 1)) with 128. change (2 ^ 8) with 256.
  assert (E : (b + 128) mod 256 = b - 128).
  { replace (b + 128) with (b - 128 + 1 * 256) by lia. rewrite Z.mod_add by lia. apply Z.mod_small. lia. }
  rewrite E. unfold u32, wrap. replace (b - 128 - 128) with (b - 256) by lia.
  replace ((b - 256) mod 2 ^ 32) with (2 ^ 32 + b - 256) by (apply Z.mod_unique with (-1); lia).
  rewrite decide_True by lia. rewrite lookup_ge_None_2; [done|lia].
Qed.

Lemma sw_loop_high cm sm st l b rest : 128 <= b < 256 -> (length cm <= 256)%nat ->
  forall m s, sw_loop true cm sm st (l ++ b :: rest) m s = None.
Proof.
  intros Hb Hlen. induction l as [|c l IH]; intros m s; cbn [app sw_loop].
  - by rewrite high_byte_index.
  - destruct (mem true cm _); [|done]. cbn [fmap option_fmap option_map mbind option_bind].
    destruct (mem true sm s); [|done]. cbn [fmap option_fmap option_map mbind option_bind].
    destruct (mem true st _); [|done]. apply IH.
Qed.

(** C27: on seven-bit text and well-formed tables, with any number of states and
    rows (the tables of the repository are such), the software search never
    leaves its tables, whether [char] is signed or not: every state it reaches
    is a state of the tables, and it counts the accepting states it is in before
    a character, restarting at each.  (A match that ends with the text is not
    counted.)  On a machine with signed [char] a byte of 128 or more makes it
    read outside the table of characters. *)
Theorem sw_ref_automaton char_signed cm sm st l : tables_ok cm sm st -> Forall (fun b => 0 <= b < 128) l ->
  sw_ref char_signed cm sm st l = Some (hits cm sm st l) /\
  Forall (state_ok sm) (states cm sm st 0 l) /\
  (forall b rest, 128 <= b < 256 -> (length cm <= 256)%nat -> sw_ref true cm sm st (l ++ b :: rest) = None).
Proof.
  intros Hok Hl. assert (H0 : state_ok sm 0) by (unfold state_ok; pose proof (to_states _ _ _ Hok); lia).
  split; [|split].
  - unfold sw_ref. rewrite (sw_loop_states char_signed cm sm st Hok l 0 0 Hl H0). done.
  - revert H0. generalize 0. induction Hl as [|b l Hb Hl IH]; intros s Hs; cbn; constructor; [done|].
    apply IH. by apply (next_ok true cm sm st Hok).
  - intros b rest Hb Hlen. by apply sw_loop_high.
Qed.

(** The tables the programs read, [jregexp.charMap], [jregexp.stateMap] and
    [jregexp.stateTransitions] of [examples/regexp]: 256 characters, 20 states and
    18 rows. *)
Definition jregexp_charMap : list Z := [
  0; 0; 0; 0; 0; 0; 0; 0; 0; 3; 5; 3; 3; 4; 0; 0; 0; 0; 0; 0; 0; 0; 0; 0;
  0; 0; 0; 0; 0; 0; 0; 0; 3; 3; 3; 3; 3; 3; 3; 3; 3; 3; 3; 3; 3; 3; 3; 3;
  2; 11; 1; 10; 3; 3; 3; 3; 3; 3; 3; 3; 3; 3; 3; 3; 3; 3; 3; 3; 3; 8; 3; 3;
  3; 3; 3; 3; 3; 3; 3; 3; 3; 3; 9; 7; 3; 6; 3; 3; 3; 3; 3; 3; 3; 3; 3; 3;
  3; 3; 3; 3; 3; 3; 3; 3; 3; 3; 3; 3; 3; 3; 3; 3; 3; 3; 3; 3; 3; 3; 3; 3;
  3; 3; 3; 3; 3; 3; 3; 0] ++ replicate 128 0.
Definition jregexp_stateMap : list Z :=
  [0; 129; 130; 3; 4; 5; 6; 7; 8; 9; 10; 11; 12; 2; 2; 13; 14; 15; 16; 17].
Definition row (l : list Z) : list Z := l ++ replicate (32 - length l) 0.
Definition jregexp_stateTransitions : list Z := concat [
  row [0; 3; 0; 0; 0; 0; 0; 0; 0; 0; 0; 0; 1];
  row [0];
  row [0; 14; 14; 14; 9; 14; 14; 14; 14; 14; 14; 14];
  row [0; 4];
  row [0; 0; 5];
  row [0; 5; 5; 5; 19; 5; 5; 5; 5; 5; 5; 5];
  row [0; 14; 14; 14; 9; 14; 14; 14; 14; 14; 14; 2];
  row [0; 14; 14; 14; 9; 14; 14; 14; 14; 14; 6; 14];
  row [0; 14; 14; 14; 9; 14; 10; 14; 14; 14; 7; 14];
  row [0; 14; 14; 14; 9; 8; 14; 14; 14; 14; 14; 14];
  row [0; 14; 14; 14; 9; 14; 14; 11; 14; 14; 14; 14];
  row [0; 14; 14; 14; 9; 14; 14; 14; 12; 14; 14; 14];
  row [0; 14; 14; 14; 9; 14; 14; 14; 14; 13; 14; 14];
  row [0; 5; 5; 5; 19; 5; 5; 5; 5; 14; 5; 5];
  row [0; 5; 5; 5; 19; 5; 5; 5; 15; 5; 5; 5];
  row [0; 5; 5; 5; 19; 5; 5; 16; 5; 5; 5; 5];
  row [0; 5; 5; 5; 19; 5; 17; 5; 5; 5; 5; 5];
  row [0; 5; 5; 5; 19; 18; 5; 5; 5; 5; 5; 5]].

Lemma jregexp_tables : tables_ok jregexp_charMap jregexp_stateMap jregexp_stateTransitions.
Proof. split; by apply (bool_decide_eq_true_1 _); vm_compute. Qed.

(** The lines [220], [USER] and [331] twice; the second time the match ends with
    the text and is not counted. *)
Definition jregexp_text : list Z :=
  [50; 50; 48; 13; 10; 85; 83; 69; 82; 13; 10; 51; 51; 49; 32;
   50; 50; 48; 13; 10; 85; 83; 69; 82; 13; 10; 51; 51; 49].

Lemma sw_ref_automaton_witness :
  sw_ref true jregexp_charMap jregexp_stateMap jregexp_stateTransitions jregexp_text = Some 1 /\
  sw_ref true jregexp_charMap jregexp_stateMap jregexp_stateTransitions [50; 200] = None.
Proof.
  destruct (sw_ref_automaton true _ _ _ jregexp_text jregexp_tables) as (H & _); [by apply (bool_decide_eq_true_1 _); vm_compute|].
  destruct (sw_ref_automaton true _ _ _ [50] jregexp_tables) as (_ & _ & H2); [by apply (bool_decide_eq_true_1 _); vm_compute|].
  split; [rewrite H; vm_compute; reflexivity|]. apply (H2 200 []); [lia|vm_compute; lia].
Defined.

(** * The indications of the regular expression search *)

(** The static variables and the members of the indication object; [released]
    are the haystacks given back, [retired] the tokens. *)
Record Rx : Type := {
  test_sem : nat; token : Z; done_cnt : Z; hw_match_cnt : Z;
  token_map : Z -> Z; released : list Z; retired : list Z }.

Definition set_test_sem (v : nat) (r : Rx) : Rx :=
  {| test_sem := v; token := token r; done_cnt := done_cnt r; hw_match_cnt := hw_match_cnt r;
     token_map := token_map r; released := released r; retired := retired r |}.
Definition set_token (v : Z) (r : Rx) : Rx :=
  {| test_sem := test_sem r; token := v; done_cnt := done_cnt r; hw_match_cnt := hw_match_cnt r;
     token_map := token_map r; released := released r; retired := retired r |}.
Definition set_token_map (v : Z -> Z) (r : Rx) : Rx :=
  {| test_sem := test_sem r; token := token r; done_cnt := done_cnt r; hw_match_cnt := hw_match_cnt r;
     token_map := v; released := released r; retired := retired r |}.

(** [setupComplete] posts first and then keeps the token. *)
Definition setupComplete_post (r : Rx) : Rx := set_test_sem (S (test_sem r)) r.
Definition setupComplete_token (t : Z) (r : Rx) : Rx := set_token t r.

Section Results.
Variable num_tests : Z.

Definition searchResult (t v : Z) (r : Rx) : Rx :=
  if decide (v = -1) then
    let n := done_cnt r + 1 in
    {| test_sem := (if decide (n = num_tests) then 1 else 0) + test_sem r; token := token r; done_cnt := n;
       hw_match_cnt := hw_match_cnt r; token_map := token_map r;
       released := released r ++ [token_map r t]; retired := retired r ++ [t] |}
  else if decide (v >= 0) then
    {| test_sem := test_sem r; token := token r; done_cnt := done_cnt r; hw_match_cnt := hw_match_cnt r + 1;
       token_map := token_map r; released := released r; retired := retired r |}
  else r.

Definition results (l : list (Z * Z)) (r : Rx) : Rx := foldl (fun r p => searchResult (fst p) (snd p) r) r l.

Definition completions (l : list (Z * Z)) : list Z := fst <$> filter (fun p => snd p = -1) l.
Definition found (l : list (Z * Z)) : Z := Z.of_nat (length (filter (fun p => 0 <= snd p) l)).

Lemma completions_cons t v l : completions ((t, v) :: l) = (if decide (v = -1) then [t] else []) ++ completions l.
Proof. unfold completions. rewrite filter_cons. cbn. by destruct (decide (v = -1)). Qed.

Lemma found_cons t v l : found ((t, v) :: l) = (if decide (0 <= v) then 1 else 0) + found l.
Proof. unfold found. rewrite filter_cons. cbn. destruct (decide (0 <= v)); cbn [length]; lia. Qed.

(** Whether the count passes [num_tests] on the way from [d] to [d + n]. *)
Definition woken (d n : Z) : nat := if decide (d < num_tests <= d + n) then 1%nat else 0%nat.

(** Any sequence of results: every search that completes gives its haystack and
    its token back, every match is counted, and the main thread is woken exactly
    when the last of the [num_tests] searches completes. *)
Lemma results_spec l : forall r,
  let r' := results l r in let n := Z.of_nat (length (completions l)) in
  hw_match_cnt r' = hw_match_cnt r + found l /\ done_cnt r' = done_cnt r + n /\
  retired r' = retired r ++ completions l /\ released r' = released r ++ (token_map r <$> completions l) /\
  test_sem r' = (woken (done_cnt r) n + test_sem r)%nat.
Proof.
  induction l as [|[t v] l IH]; intros r; cbn zeta.
  - cbn. rewrite !app_nil_r. unfold woken. rewrite decide_False by lia. split_and!; done || (unfold found; cbn; lia).
  - change (results ((t, v) :: l) r) with (results l (searchResult t v r)). rewrite completions_cons, found_cons.
    destruct (IH (searchResult t v r)) as (H1 & H2 & H3 & H4 & H5). rewrite H1, H2, H3, H4, H5. clear.
    unfold searchResult. destruct (decide (v = -1)) as [-> |Hv].
    + cbn [hw_match_cnt done_cnt retired released token_map test_sem app fmap list_fmap length].
      rewrite decide_False by lia. rewrite <- !app_assoc. split_and!; try done; try lia.
      unfold woken. repeat destruct (decide _); lia.
    + destruct (decide (v >= 0)) as [H|H]; cbn [hw_match_cnt done_cnt retired released token_map test_sem app].
      * rewrite decide_True by lia. split_and!; done || lia.
      * rewrite decide_False by lia. split_and!; done || lia.
Qed.
End Results.

(** ** The token *)

(** The indication thread between the two statements of [setupComplete], and the
    main thread before [sem_wait] and before it reads the token. *)
Inductive hpc : Type := HIdle | HToken (t : Z).
Inductive mpc : Type := MWait | MUse.

Record Sys : Type := { rx : Rx; handler : hpc; main : mpc; setups : list Z; searches : list Z }.

Inductive step : Sys -> Sys -> Prop :=
| step_post r m t l q :
    step {| rx := r; handler := HIdle; main := m; setups := t :: l; searches := q |}
         {| rx := setupComplete_post r; handler := HToken t; main := m; setups := l; searches := q |}
| step_token r m t l q :
    step {| rx := r; handler := HToken t; main := m; setups := l; searches := q |}
         {| rx := setupComplete_token t r; handler := HIdle; main := m; setups := l; searches := q |}
| step_wait r h l q n : test_sem r = S n ->
    step {| rx := r; handler := h; main := MWait; setups := l; searches := q |}
         {| rx := set_test_sem n r; handler := h; main := MUse; setups := l; searches := q |}
| step_use r h l q :
    step {| rx := r; handler := h; main := MUse; setups := l; searches := q |}
         {| rx := set_token_map (fun x => if decide (x = token r) then Z.of_nat (length q) else token_map r x) r;
            handler := h; main := MWait; setups := l; searches := q ++ [token r] |}.

(** the main thread can search with the token of an earlier set-up: the
    indication wakes it before it has stored the new token.  Started with the
    token [t0] of the last search, a set-up that gives [t] can be answered with a
    search on [t] and with a search on [t0]. *)
Theorem stale_token r t0 t : test_sem r = 0%nat -> token r = t0 ->
  (exists s, rtc step {| rx := r; handler := HIdle; main := MWait; setups := [t]; searches := [] |} s /\
     searches s = [t] /\ handler s = HIdle /\ setups s = []) /\
  (exists s, rtc step {| rx := r; handler := HIdle; main := MWait; setups := [t]; searches := [] |} s /\
     searches s = [t0] /\ handler s = HIdle /\ setups s = []).
Proof.
  intros Hs Ht. split.
  - eexists. split; [|split; [|split]].
    { eapply rtc_l; [apply step_post|]. eapply rtc_l; [apply step_token|].
      eapply rtc_l; [apply (step_wait _ _ _ _ 0%nat); cbn; by rewrite Hs|]. eapply rtc_once. apply step_use. }
    all: done.
  - eexists. split; [|split; [|split]].
    { eapply rtc_l; [apply step_post|]. eapply rtc_l; [apply (step_wait _ _ _ _ 0%nat); cbn; by rewrite Hs|].
      eapply rtc_l; [apply step_use|]. eapply rtc_once. apply step_token. }
    all: cbn; by rewrite ?Ht.
Qed.

Definition rx0 : Rx := {| test_sem := 0; token := 3; done_cnt := 0; hw_match_cnt := 0; token_map := fun _ => 0;
  released := []; retired := [] |}.

Lemma stale_token_witness : exists s,
  rtc step {| rx := rx0; handler := HIdle; main := MWait; setups := [1]; searches := [] |} s /\ searches s = [3].
Proof. destruct (proj2 (stale_token rx0 3 1 eq_refl eq_refl)) as (s & H & E & _). eauto. Defined.

(** * The indications of the string search *)

Record Ss : Type := { ss_sem : nat; ss_match_cnt : Z }.
Definition ss_init : Ss := {| ss_sem := 0; ss_match_cnt := 0 |}.
Definition ss_setupComplete (s : Ss) : Ss := {| ss_sem := S (ss_sem s); ss_match_cnt := ss_match_cnt s |}.
Definition ss_searchResult (v : Z) (s : Ss) : Ss :=
  if decide (v = -1) then {| ss_sem := S (ss_sem s); ss_match_cnt := ss_match_cnt s |}
  else {| ss_sem := ss_sem s; ss_match_cnt := ss_match_cnt s + 1 |}.
Definition ss_wait (s : Ss) : option Ss :=
  match ss_sem s with O => None | S n => Some {| ss_sem := n; ss_match_cnt := ss_match_cnt s |} end.

(** The wait returns behind the search's end, with its matches counted. *)
Lemma ss_search_wait l s : ss_sem s = 0%nat -> Forall (fun v => v <> -1) l ->
  ss_wait (foldl (fun s v => ss_searchResult v s) s l) = None /\
  ss_wait (ss_searchResult (-1) (foldl (fun s v => ss_searchResult v s) s l)) =
    Some {| ss_sem := 0; ss_match_cnt := ss_match_cnt s + Z.of_nat (length l) |}.
Proof.
  intros Hs Hl.
  assert (H : foldl (fun s v => ss_searchResult v s) s l = {| ss_sem := 0; ss_match_cnt := ss_match_cnt s + Z.of_nat (length l) |}).
  { revert s Hs. induction Hl as [|v l Hv Hl IH]; intros s Hs; cbn [foldl].
    - destruct s as [n m]. cbn in *. subst. f_equal. lia.
    - rewrite IH; unfold ss_searchResult; rewrite decide_False by done; [|done]. cbn. f_equal. lia. }
  rewrite H. done.
Qed.

(** * The socket of the flash examples *)

(** How a loop of attempts ends: after so many attempts, or in [exit(1)]. *)
Inductive attempts : Type := Succeeded (n : nat) | Exit1 | More.

(** [connect_to_algo_exe]: [ok n] is the result of attempt [n]. *)
Fixpoint algo_connect_loop (fuel : nat) (ok : nat -> bool) (connect_attempts : nat) : attempts :=
  match fuel with
  | O => More
  | S fuel =>
      if ok connect_attempts then Succeeded (S connect_attempts)
      else if decide (100 < connect_attempts)%nat then Exit1
      else algo_connect_loop fuel ok (S connect_attempts)
  end.
Definition connect_to_algo_exe (ok : nat -> bool) : attempts := algo_connect_loop 102 ok 0.

(** [write_to_algo_exe]: [retry] is left zero only by a [send] that succeeds. *)
Fixpoint send_loop (fuel : nat) (ok : nat -> bool) (retry : nat) : attempts :=
  match fuel with
  | O => More
  | S fuel =>
      if decide (retry < 10)%nat then
        if ok retry then Succeeded (S retry) else send_loop fuel ok (S retry)
      else Exit1
  end.
Definition write_to_algo_exe (ok : nat -> bool) : attempts := send_loop 11 ok 0.

(** A loop that gives up after [n] failures ends with the first success. *)
Definition first_success (ok : nat -> bool) (n : nat) (r : attempts) : Prop :=
  match r with
  | Succeeded k => (1 <= k <= n)%nat /\ ok (k - 1)%nat = true /\ forall i, (i < k - 1)%nat -> ok i = false
  | Exit1 => forall i, (i < n)%nat -> ok i = false
  | More => False
  end.

Lemma connect_loop_first ok : forall fuel k, (k + fuel = 102)%nat -> (forall i, (i < k)%nat -> ok i = false) ->
  (0 < fuel)%nat -> first_success ok 102 (algo_connect_loop fuel ok k).
Proof.
  induction fuel as [|fuel IH]; intros k Hk Hprev Hf; [lia|]. cbn [algo_connect_loop]. destruct (ok k) eqn:E.
  - cbn. split; [lia|]. rewrite Nat.sub_0_r. done.
  - assert (Hall : forall i, (i < S k)%nat -> ok i = false).
    { intros i Hi. destruct (decide (i = k)) as [-> |]; [done|]. apply Hprev. lia. }
    destruct (decide _); [intros i Hi; apply Hall; lia|]. apply IH; [lia|done|lia].
Qed.

Lemma send_loop_first ok : forall fuel k, (k + fuel = 11)%nat -> (forall i, (i < k)%nat -> ok i = false) ->
  (0 < fuel)%nat -> first_success ok 10 (send_loop fuel ok k).
Proof.
  induction fuel as [|fuel IH]; intros k Hk Hprev Hf; [lia|]. cbn [send_loop].
  destruct (decide _); [|intros i Hi; apply Hprev; lia]. destruct (ok k) eqn:E.
  - cbn. split; [lia|]. rewrite Nat.sub_0_r. done.
  - assert (Hall : forall i, (i < S k)%nat -> ok i = false).
    { intros i Hi. destruct (decide (i = k)) as [-> |]; [done|]. apply Hprev. lia. }
    apply IH; [lia|done|lia].
Qed.

(** the loops of the flash examples' socket always end: connecting succeeds
    with the first of 102 attempts that does and exits when all of them fail;
    sending succeeds with the first of ten, and exits when all of them fail. *)
Theorem socket_attempts ok :
  first_success ok 102 (connect_to_algo_exe ok) /\ first_success ok 10 (write_to_algo_exe ok).
Proof.
  split; [apply connect_loop_first|apply send_loop_first]; done || lia || (intros; lia).
Qed.
