(* ===== verification/Display.v ===== *)
(** The display example, [examples/hdmidisplay/testhdmidisplay.cpp]: a timing of
    the monitor's description is chosen and programmed, and two frame buffers
    are painted and shown in turn at every vertical blank.

    The first frame is painted by the main thread and the others by the thread
    that handles the indications of the display; both run [fill_pixels], whose
    accesses to the shared variables are steps of their own ([fill_step]), in
    any interleaving ([step]). *)

From stdpp Require Import base list option.
From Stdlib Require Import ZArith Lia.
From S2P Require Import Prelude Edid.
#[local] Open Scope Z_scope.

Definition FRAME_COUNT : nat := 2.
Definition MAX_PIXEL : Z := 256.
Definition INCREMENT_PIXEL : Z := 2.

(** * The timing *)

(** What is sent to the display: the clock, the lines and the pixels. *)
Inductive display_cmd : Type :=
| setClockFrequency (clk freq : Z)
| setDeLine (front sync back end_ half : Z)
| setDePixel (front sync back end_ half : Z).

(** The loop over the four timings takes the first whose clock is in range;
    [lines] and [pixels] keep their values when there is none. *)
Fixpoint choose_timing (l : list edid_detailed_timing) (lines pixels : Z) : Z * Z * list display_cmd :=
  match l with
  | [] => (lines, pixels, [])
  | t :: l =>
      let clk := s32 (pixclk t * 10000) in
      if decide (clk > 0 /\ clk < 170000000) then
        let vblank := blines t in
        let hblank := bpixels t - 1 in
        (nlines t, npixels t,
         [setClockFrequency 1 clk;
          setDeLine (vsyncoff t) (vsyncoff t + vsyncwidth t) vblank (vblank + nlines t) (vblank + nlines t / 2);
          setDePixel (hsyncoff t) (hsyncoff t + hsyncwidth t) hblank (hblank + npixels t) (hblank + npixels t / 2)])
      else choose_timing l lines pixels
  end.

(** The monitor's block of 256 bytes is read and parsed, the timing chosen, the
    size of a frame buffer computed. *)
Definition setup_display (raw : list Z) : Z * Z * Z * list display_cmd :=
  let '(lines, pixels, cmds) := choose_timing (take 4 (fst (parseEdid raw))) 1080 1920 in
  (lines, pixels, s32 (lines * pixels * 4), cmds).

(** * Painting *)

Record Frame : Type := {
  fr_lines : Z; fr_pixels : Z;
  buffers : list (list Z);      (* [dataptr] *)
  frame_index : Z; corner_index : Z;
  flushed : option Z;           (* the buffer of the last [portalDCacheFlushInval] *)
  shown : option Z;             (* the buffer of the last [startFrameBuffer] *)
  base : Z                      (* the static variable of [vsync] *)
}.

Definition set_flushed (v : option Z) (r : Frame) : Frame :=
  {| fr_lines := fr_lines r; fr_pixels := fr_pixels r; buffers := buffers r; frame_index := frame_index r;
     corner_index := corner_index r; flushed := v; shown := shown r; base := base r |}.
Definition set_shown (v : option Z) (r : Frame) : Frame :=
  {| fr_lines := fr_lines r; fr_pixels := fr_pixels r; buffers := buffers r; frame_index := frame_index r;
     corner_index := corner_index r; flushed := flushed r; shown := v; base := base r |}.
Definition set_frame_index (v : Z) (r : Frame) : Frame :=
  {| fr_lines := fr_lines r; fr_pixels := fr_pixels r; buffers := buffers r; frame_index := v;
     corner_index := corner_index r; flushed := flushed r; shown := shown r; base := base r |}.
Definition set_base (v : Z) (r : Frame) : Frame :=
  {| fr_lines := fr_lines r; fr_pixels := fr_pixels r; buffers := buffers r; frame_index := frame_index r;
     corner_index := corner_index r; flushed := flushed r; shown := shown r; base := v |}.

Definition corner : list Z := [0; -1; 0xf00f; 0x0fff].
Definition corner_at (corner_index k : Z) : Z := default 0 (znth corner (Z.rem (corner_index + k) 4)).

(** The value of a pixel, in [int] arithmetic: the tests in the order of the code, the last one wins. *)
Definition pixel_value (lines pixels ci offset line pixel : Z) : Z :=
  let v := Z.lor (Z.shiftl (Z.rem (s32 (Z.quot (s32 (MAX_PIXEL * line)) lines + offset)) MAX_PIXEL) 16)
                 (Z.rem (s32 (Z.quot (s32 (MAX_PIXEL * pixel)) pixels + offset)) MAX_PIXEL) in
  let v := if decide (v = 0) then 1 else v in
  let v := if decide (line < 20 /\ pixel < 20) then corner_at ci 0 else v in
  let v := if decide (line < 30 /\ pixels - 40 < pixel) then corner_at ci 1 else v in
  let v := if decide (lines - 20 < line /\ pixel < 20) then corner_at ci 2 else v in
  let v := if decide (lines - 30 < line /\ pixels - 40 < pixel) then corner_at ci 3 else v in
  let v := if decide (line < 20 /\ Z.rem pixel 20 < 2) then corner_at ci 0 else v in
  let v := if decide (Z.rem line 30 < 2 /\ pixels - 40 < pixel) then corner_at ci 1 else v in
  v.

(** The two loops; [None] is a write outside the buffer. *)
Fixpoint pixel_loop (n : nat) (lines pixels ci offset line pixel : Z) (ptr : list Z) : option (list Z) :=
  match n with
  | O => Some ptr
  | S n =>
      ptr ← zupd ptr (s32 (s32 (line * pixels) + pixel)) (pixel_value lines pixels ci offset line pixel);
      pixel_loop n lines pixels ci offset line (pixel + 1) ptr
  end.
Fixpoint line_loop (n : nat) (lines pixels ci offset line : Z) (ptr : list Z) : option (list Z) :=
  match n with
  | O => Some ptr
  | S n =>
      ptr ← pixel_loop (Z.to_nat pixels) lines pixels ci offset line 0 ptr;
      line_loop n lines pixels ci offset (line + 1) ptr
  end.

(** The picture is painted into the buffer of [frame_index] and the corners move on. *)
Definition paint (offset : Z) (s : Frame) : option Frame :=
  ptr ← znth (buffers s) (frame_index s);
  ptr ← line_loop (Z.to_nat (fr_lines s)) (fr_lines s) (fr_pixels s) (corner_index s) offset 0 ptr;
  bs ← zupd (buffers s) (frame_index s) ptr;
  Some {| fr_lines := fr_lines s; fr_pixels := fr_pixels s; buffers := bs; frame_index := frame_index s;
          corner_index := Z.quot offset 16; flushed := flushed s; shown := shown s; base := base s |}.

(** ** [fill_pixels], a step for every access to the shared variables *)

(** Where a thread is in [fill_pixels]: at its beginning, behind the loops,
    behind the flush, behind [startFrameBuffer], behind [waitForVsync], with
    [frame_index] read for its change, or outside. *)
Inductive pc : Type := Entered | Painted | Flushed | Started | Requested | IndexRead (i : Z) | Returned.

(** The result has the place, the variables and whether the display is asked to
    tell the next vertical blank. *)
Definition fill_step (offset : Z) (p : pc) (s : Frame) (waiting : bool) : option (pc * Frame * bool) :=
  match p with
  | Entered => s ← paint offset s; Some (Painted, s, waiting)
  | Painted => Some (Flushed, set_flushed (Some (frame_index s)) s, waiting)
  | Flushed => Some (Started, set_shown (Some (frame_index s)) s, waiting)
  | Started => Some (Requested, s, true)
  | Requested => Some (IndexRead (frame_index s), s, waiting)
  | IndexRead i => Some (Returned, set_frame_index (1 - i) s, waiting)
  | Returned => None
  end.

(** The two threads.  [main] paints with offset 0; the indication [vsync] enters
    [fill_pixels] with [base] on the other thread, once for every request, and
    adds to [base] behind it. *)
Record Disp : Type := { fr : Frame; main_pc : pc; ind_pc : pc; waiting : bool }.
Inductive label : Type := Main | Ind | Vsync.

Definition vsync_return (p : pc) (s : Frame) : Frame :=
  match p with Returned => set_base (s32 (base s + INCREMENT_PIXEL)) s | _ => s end.

Definition step (l : label) (d : Disp) : option Disp :=
  match l with
  | Main => '(p, s, w) ← fill_step 0 (main_pc d) (fr d) (waiting d);
            Some {| fr := s; main_pc := p; ind_pc := ind_pc d; waiting := w |}
  | Ind => '(p, s, w) ← fill_step (base (fr d)) (ind_pc d) (fr d) (waiting d);
           Some {| fr := vsync_return p s; main_pc := main_pc d; ind_pc := p; waiting := w |}
  | Vsync => match ind_pc d with
             | Returned => if waiting d then Some {| fr := fr d; main_pc := main_pc d; ind_pc := Entered; waiting := false |}
                           else None
             | _ => None
             end
  end.

Fixpoint run (ls : list label) (d : Disp) : option Disp :=
  match ls with [] => Some d | l :: ls => d ← step l d; run ls d end.

(** The buffers of [main], before the first frame. *)
Definition init_frames (lines pixels : Z) : Frame :=
  {| fr_lines := lines; fr_pixels := pixels;
     buffers := [replicate (Z.to_nat (lines * pixels)) 0; replicate (Z.to_nat (lines * pixels)) (-1)];
     frame_index := 0; corner_index := 0; flushed := None; shown := None; base := 0 |}.
Definition start (lines pixels : Z) : Disp :=
  {| fr := init_frames lines pixels; main_pc := Entered; ind_pc := Returned; waiting := false |}.

(** * The timing that is programmed *)

Definition usable (d : descriptor) : Prop :=
  match d with DTiming t => pixclk t * 10000 < 170000000 | DOther _ => False end.

Lemma clk_range d : descriptor_ok d ->
  let clk := s32 (pixclk (stored d) * 10000) in clk > 0 /\ clk < 170000000 <-> usable d.
Proof.
  destruct d as [t|l]; cbn; [|intros _; rewrite s32_small; lia].
  intros (Hp & _). rewrite s32_small by lia. lia.
Qed.

(** The commands for a timing. *)
Definition timing_cmds (t : edid_detailed_timing) : list display_cmd :=
  [setClockFrequency 1 (pixclk t * 10000);
   setDeLine (vsyncoff t) (vsyncoff t + vsyncwidth t) (blines t) (blines t + nlines t) (blines t + nlines t / 2);
   setDePixel (hsyncoff t) (hsyncoff t + hsyncwidth t) (bpixels t - 1) (bpixels t - 1 + npixels t)
     (bpixels t - 1 + npixels t / 2)].

Lemma choose_skip pre l a b : Forall descriptor_ok pre -> Forall (fun d => ~ usable d) pre ->
  choose_timing ((stored <$> pre) ++ l) a b = choose_timing l a b.
Proof.
  induction 1 as [|d pre Hd Hpre IH]; intros Hu; [done|]. inversion Hu; subst. cbn [fmap list_fmap app choose_timing].
  rewrite decide_False by (by rewrite clk_range). by apply IH.
Qed.

Lemma choose_take t l a b : timing_ok t -> usable (DTiming t) ->
  choose_timing (t :: l) a b = (nlines t, npixels t, timing_cmds t).
Proof.
  intros Ht Hu. cbn [choose_timing]. rewrite decide_True by (by apply (clk_range (DTiming t))).
  unfold timing_cmds. destruct Ht as (Hp & _). cbn in Hu. by rewrite s32_small by lia.
Qed.

(** The positions of a line or of a frame: synchronisation within the blank,
    which the visible part follows. *)
Definition positions_ok (c : display_cmd) : Prop :=
  match c with
  | setDeLine front sync back end_ half | setDePixel front sync back end_ half =>
      0 <= front <= sync /\ sync <= back <= half /\ half <= end_
  | setClockFrequency _ freq => 0 < freq < 170000000
  end.
Definition timing_sane (t : edid_detailed_timing) : Prop :=
  vsyncoff t + vsyncwidth t <= blines t /\ hsyncoff t + hsyncwidth t < bpixels t.

(** the display is programmed with the first timing of the monitor's
    description whose clock it can make (below 170 MHz): for a well-formed block
    the lines, the pixels, the size of the frame buffer and the commands are
    those of that timing, with the positions of each line and frame in order when
    the synchronisation lies within the blank; without such a timing nothing is
    programmed and the size stays 1920 by 1080. *)
Theorem display_timing head ds tail : length head = 54%nat -> length ds = 4%nat -> Forall descriptor_ok ds ->
  (forall pre t post, ds = pre ++ DTiming t :: post -> Forall (fun d => ~ usable d) pre -> usable (DTiming t) ->
     setup_display (block_of head ds tail) = (nlines t, npixels t, nlines t * npixels t * 4, timing_cmds t) /\
     (timing_sane t -> Forall positions_ok (timing_cmds t))) /\
  (Forall (fun d => ~ usable d) ds -> setup_display (block_of head ds tail) = (1080, 1920, 8294400, [])).
Proof.
  intros Hh Hn Hds. unfold setup_display. rewrite parseEdid_timings by done.
  rewrite take_ge by (rewrite length_fmap; lia). split.
  - intros pre t post -> Hpre Hu. apply Forall_app in Hds as [Hd1 Hd2]. inversion Hd2 as [|? ? Ht _]; subst. cbn in Ht.
    rewrite fmap_app. cbn [fmap list_fmap]. rewrite choose_skip by done. rewrite choose_take by done.
    destruct Ht as (Hp & Hx & Hbx & Hl & Hbl & H1 & H2 & H3 & H4 & _). split.
    + f_equal. f_equal. apply s32_small. nia.
    + intros [Hv Hhs]. cbn in Hu. repeat constructor; cbn; try lia;
        zlia.
  - intros Hu. rewrite <- (app_nil_r (stored <$> ds)), choose_skip by done. reflexivity.
Qed.

(** * The picture *)

Lemma zupd_lookup (l : list Z) i x : 0 <= i < Z.of_nat (length l) ->
  exists l', zupd l i x = Some l' /\ length l' = length l /\
    forall k, l' !! k = if decide (k = Z.to_nat i) then Some x else l !! k.
Proof.
  intros Hi. unfold zupd. rewrite decide_True by done. eexists. split; [done|]. split; [apply length_insert|].
  intros k. destruct (decide (k = Z.to_nat i)) as [-> |]; [apply list_lookup_insert_eq; lia|by apply list_lookup_insert_ne].
Qed.

Lemma pixel_loop_spec lines pixels ci offset line : 0 <= line < lines -> lines * pixels < 2147483648 -> forall n pixel ptr,
  0 <= pixel -> pixel + Z.of_nat n = pixels -> Z.of_nat (length ptr) = lines * pixels ->
  exists ptr', pixel_loop n lines pixels ci offset line pixel ptr = Some ptr' /\ length ptr' = length ptr /\
    forall k : nat, ptr' !! k =
      if decide (line * pixels + pixel <= Z.of_nat k < line * pixels + pixels)
      then Some (pixel_value lines pixels ci offset line (Z.of_nat k - line * pixels)) else ptr !! k.
Proof.
  intros Hline Hmax. induction n as [|n IH]; intros pixel ptr Hp Hn Hlen; cbn [pixel_loop].
  - exists ptr. split; [done|]. split; [done|]. intros k. rewrite decide_False; [done|]. lia.
  - assert (Hi : 0 <= line * pixels + pixel < lines * pixels) by nia.
    assert (H0 : 0 <= line * pixels) by nia.
    rewrite (s32_small (line * pixels)), s32_small by lia.
    destruct (zupd_lookup ptr (line * pixels + pixel) (pixel_value lines pixels ci offset line pixel)) as (p1 & E1 & L1 & H1).
    { nia. }
    rewrite E1. cbn [mbind option_bind]. destruct (IH (pixel + 1) p1) as (p2 & E2 & L2 & H2); [lia|lia|by rewrite L1|].
    exists p2. split; [done|]. split; [congruence|]. intros k. rewrite H2.
    destruct (decide (line * pixels + (pixel + 1) <= Z.of_nat k < line * pixels + pixels)).
    { rewrite decide_True by lia. done. }
    rewrite H1. destruct (decide (k = Z.to_nat (line * pixels + pixel))) as [-> |Hne].
    + assert (0 <= line * pixels) by nia. rewrite decide_True by lia. f_equal. f_equal. lia.
    + assert (0 <= line * pixels) by nia. rewrite decide_False by lia. done.
Qed.

Lemma line_loop_spec lines pixels ci offset : 0 < pixels -> lines * pixels < 2147483648 -> forall n line ptr,
  0 <= line -> line + Z.of_nat n = lines -> Z.of_nat (length ptr) = lines * pixels ->
  exists ptr', line_loop n lines pixels ci offset line ptr = Some ptr' /\ length ptr' = length ptr /\
    forall k : nat, Z.of_nat k < lines * pixels -> ptr' !! k =
      if decide (line * pixels <= Z.of_nat k)
      then Some (pixel_value lines pixels ci offset (Z.of_nat k / pixels) (Z.of_nat k mod pixels)) else ptr !! k.
Proof.
  intros Hpix Hmax. induction n as [|n IH]; intros line ptr Hl Hn Hlen; cbn [line_loop].
  - exists ptr. split; [done|]. split; [done|]. intros k Hk. rewrite decide_False; [done|]. nia.
  - destruct (pixel_loop_spec lines pixels ci offset line ltac:(lia) Hmax (Z.to_nat pixels) 0 ptr) as (p1 & E1 & L1 & H1); [lia|lia|done|].
    rewrite E1. cbn [mbind option_bind]. destruct (IH (line + 1) p1) as (p2 & E2 & L2 & H2); [lia|lia|by rewrite L1|].
    exists p2. split; [done|]. split; [congruence|]. intros k Hk. rewrite H2 by done.
    destruct (decide ((line + 1) * pixels <= Z.of_nat k)) as [Hk2|Hk2].
    { rewrite decide_True by nia. done. }
    rewrite H1. destruct (decide (line * pixels <= Z.of_nat k)) as [Hk3|Hk3].
    + rewrite decide_True by lia. rewrite <- (Z.div_unique_pos (Z.of_nat k) pixels line (Z.of_nat k - line * pixels)) by lia.
      rewrite <- (Z.mod_unique_pos (Z.of_nat k) pixels line (Z.of_nat k - line * pixels)) by lia. done.
    + rewrite decide_False by lia. done.
Qed.

(** ** What the picture is

    A gradient over lines and columns that moves with the offset and is never
    black, four corners that cycle through four colours, a dashed top edge and a
    dashed right edge.  Where they overlap the right edge is above the top edge,
    and that above the corners. *)
Definition colour (k : Z) : Z :=
  match k mod 4 with 0 => 0 | 1 => -1 | 2 => 61455 | _ => 4095 end.
Definition gradient (lines pixels offset line pixel : Z) : Z :=
  Z.max 1 (65536 * ((256 * line / lines + offset) mod 256) + (256 * pixel / pixels + offset) mod 256).
Definition pixel_spec (lines pixels ci offset line pixel : Z) : Z :=
  let right := bool_decide (pixels - 39 <= pixel) in
  let left := bool_decide (pixel <= 19) in
  if right && bool_decide (line mod 30 <= 1) then colour (ci + 1)
  else if bool_decide (line <= 19) && bool_decide (pixel mod 20 <= 1) then colour ci
  else if right && bool_decide (lines - 29 <= line) then colour (ci + 3)
  else if left && bool_decide (lines - 19 <= line) then colour (ci + 2)
  else if right && bool_decide (line <= 29) then colour (ci + 1)
  else if left && bool_decide (line <= 19) then colour ci
  else gradient lines pixels offset line pixel.

Lemma corner_colour ci k : 0 <= ci -> 0 <= k -> corner_at ci k = colour (ci + k).
Proof.
  intros Hc Hk. unfold corner_at, colour. rewrite Z.rem_mod_nonneg by lia. pose proof (Z.mod_pos_bound (ci + k) 4 ltac:(lia)).
  assert ((ci + k) mod 4 = 0 \/ (ci + k) mod 4 = 1 \/ (ci + k) mod 4 = 2 \/ (ci + k) mod 4 = 3) as Hm by lia.
  destruct Hm as [->|[->|[->| ->]]]; reflexivity.
Qed.

Lemma gradient_value lines pixels offset line pixel : 0 <= line < lines -> 0 <= pixel < pixels ->
  lines <= 2 ^ 23 -> pixels <= 2 ^ 23 -> 0 <= offset < 2 ^ 31 - 256 ->
  let v := Z.lor (Z.shiftl (Z.rem (s32 (Z.quot (s32 (MAX_PIXEL * line)) lines + offset)) MAX_PIXEL) 16)
                 (Z.rem (s32 (Z.quot (s32 (MAX_PIXEL * pixel)) pixels + offset)) MAX_PIXEL) in
  (if decide (v = 0) then 1 else v) = gradient lines pixels offset line pixel.
Proof.
  intros Hl Hp Ml Mp Ho.
  assert (H : forall x n, 0 <= x < n -> n <= 2 ^ 23 ->
    Z.rem (s32 (Z.quot (s32 (MAX_PIXEL * x)) n + offset)) MAX_PIXEL = (256 * x / n + offset) mod 256).
  { intros x n Hx Hn. unfold MAX_PIXEL. rewrite (s32_small (256 * x)) by lia. rewrite Z.quot_div_nonneg by lia.
    assert (0 <= 256 * x / n < 256) by (split; [apply Z.div_pos; lia|apply Z.div_lt_upper_bound; lia]).
    rewrite s32_small by lia. apply Z.rem_mod_nonneg; lia. }
  rewrite !H by done. unfold gradient.
  pose proof (Z.mod_pos_bound (256 * line / lines + offset) 256 ltac:(lia)).
  pose proof (Z.mod_pos_bound (256 * pixel / pixels + offset) 256 ltac:(lia)).
  rewrite lor_shiftl_add by lia. change (2 ^ 16) with 65536. case_decide; lia.
Qed.

Lemma if_decide {A} P `{!Decision P} (x y : A) (b : bool) : (P <-> b = true) -> (if decide P then x else y) = (if b then x else y).
Proof. intros H. destruct b; [by rewrite decide_True by tauto|rewrite decide_False; [done|]]. intros HP. by apply H in HP. Qed.

Lemma both_decide P Q R `{!Decision P} `{!Decision Q} : (R <-> P /\ Q) -> R <-> bool_decide P && bool_decide Q = true.
Proof. intros ->. by rewrite andb_true_iff, !bool_decide_eq_true. Qed.

(** The tests of the code give the picture. *)
Lemma pixel_value_spec lines pixels ci offset line pixel : 0 <= line < lines -> 0 <= pixel < pixels ->
  lines <= 2 ^ 23 -> pixels <= 2 ^ 23 -> 0 <= offset < 2 ^ 31 - 256 -> 0 <= ci ->
  pixel_value lines pixels ci offset line pixel = pixel_spec lines pixels ci offset line pixel.
Proof.
  intros Hl Hp Ml Mp Ho Hc. unfold pixel_value. cbv zeta. rewrite gradient_value by done.
  rewrite !corner_colour by lia. rewrite (Z.rem_mod_nonneg pixel) by lia. rewrite (Z.rem_mod_nonneg line) by lia.
  rewrite Z.add_0_r. unfold pixel_spec. cbv zeta.
  set (c1 := _ && bool_decide (line mod 30 <= 1)). set (c2 := _ && bool_decide (pixel mod 20 <= 1)).
  set (c3 := _ && bool_decide (lines - 29 <= line)). set (c4 := _ && bool_decide (lines - 19 <= line)).
  set (c5 := _ && bool_decide (line <= 29)). set (c6 := bool_decide (pixel <= 19) && bool_decide (line <= 19)).
  rewrite (if_decide (Z.modulo line 30 < 2 /\ _) _ _ c1) by (apply both_decide; lia).
  rewrite (if_decide (line < 20 /\ pixel mod 20 < 2) _ _ c2) by (apply both_decide; lia).
  rewrite (if_decide (lines - 30 < line /\ _) _ _ c3) by (apply both_decide; lia).
  rewrite (if_decide (lines - 20 < line /\ _) _ _ c4) by (apply both_decide; lia).
  rewrite (if_decide (line < 30 /\ _) _ _ c5) by (apply both_decide; lia).
  rewrite (if_decide (line < 20 /\ pixel < 20) _ _ c6) by (apply both_decide; lia).
  by destruct c1, c2, c3, c4, c5, c6.
Qed.

(** The picture of an offset and of the corners' colours. *)
Definition picture (lines pixels ci offset : Z) : list Z :=
  (fun k => pixel_spec lines pixels ci offset (k / pixels) (k mod pixels)) <$> seqZ 0 (lines * pixels).

(** Sizes whose bytes, and whose positions times 256, an [int] counts. *)
Definition size_ok (lines pixels : Z) : Prop :=
  0 < lines <= 2 ^ 23 /\ 0 < pixels <= 2 ^ 23 /\ lines * pixels * 4 < 2 ^ 31.

Lemma line_loop_picture lines pixels ci offset ptr : size_ok lines pixels -> 0 <= ci -> 0 <= offset < 2 ^ 31 - 256 ->
  Z.of_nat (length ptr) = lines * pixels ->
  line_loop (Z.to_nat lines) lines pixels ci offset 0 ptr = Some (picture lines pixels ci offset).
Proof.
  intros ([Hl Ml] & [Hp Mp] & Hmax) Hc Ho Hlen.
  destruct (line_loop_spec lines pixels ci offset Hp ltac:(lia) (Z.to_nat lines) 0 ptr) as (p & E & L & H); [lia|lia|done|].
  rewrite E. f_equal. apply list_eq. intros k. unfold picture. rewrite list_lookup_fmap.
  destruct (decide (Z.of_nat k < lines * pixels)) as [Hk|Hk].
  - rewrite H, decide_True by lia. rewrite (proj2 (lookup_seqZ 0 (lines * pixels) k (Z.of_nat k))) by lia. cbn. f_equal.
    apply pixel_value_spec; [|apply Z.mod_pos_bound; lia|lia|lia|lia|lia].
    split; [apply Z.div_pos; lia|apply Z.div_lt_upper_bound; lia].
  - rewrite lookup_ge_None_2 by lia. by rewrite lookup_seqZ_ge by lia.
Qed.

(** ** Two buffers in turn *)

Record frame_ok (lines pixels : Z) (s : Frame) : Prop := {
  fo_lines : fr_lines s = lines; fo_pixels : fr_pixels s = pixels; fo_size : size_ok lines pixels;
  fo_buffers : length (buffers s) = 2%nat;
  fo_sizes : Forall (fun b => Z.of_nat (length b) = lines * pixels) (buffers s) }.

Lemma picture_length lines pixels ci offset : size_ok lines pixels ->
  Z.of_nat (length (picture lines pixels ci offset)) = lines * pixels.
Proof. intros (? & ? & _). unfold picture. rewrite length_fmap, length_seqZ. nia. Qed.

Lemma init_frames_ok lines pixels : size_ok lines pixels -> frame_ok lines pixels (init_frames lines pixels).
Proof.
  intros Hs. pose proof Hs as (? & ? & ?). constructor; cbn; try done.
  repeat constructor; rewrite length_replicate; nia.
Qed.

Lemma paint_spec lines pixels offset s : frame_ok lines pixels s -> frame_index s = 0 \/ frame_index s = 1 ->
  0 <= corner_index s -> 0 <= offset < 2 ^ 31 - 256 ->
  exists bs, paint offset s = Some {| fr_lines := fr_lines s; fr_pixels := fr_pixels s; buffers := bs;
      frame_index := frame_index s; corner_index := offset / 16; flushed := flushed s; shown := shown s; base := base s |} /\
    length bs = 2%nat /\ Forall (fun b => Z.of_nat (length b) = lines * pixels) bs /\
    znth bs (frame_index s) = Some (picture lines pixels (corner_index s) offset) /\
    znth bs (1 - frame_index s) = znth (buffers s) (1 - frame_index s).
Proof.
  intros [Hl Hp Hm Hb Hs] Hi Hc Ho. unfold paint. rewrite Hl, Hp.
  destruct (znth_in_range (buffers s) (frame_index s)) as [ptr Eptr]; [rewrite Hb; lia|]. rewrite Eptr. cbn [mbind option_bind].
  assert (Hlen : Z.of_nat (length ptr) = lines * pixels).
  { unfold znth in Eptr. rewrite decide_True in Eptr by lia. exact (Forall_lookup_1 _ _ _ _ Hs Eptr). }
  rewrite line_loop_picture by done. cbn [mbind option_bind]. set (pic := picture _ _ _ _).
  destruct (zupd (buffers s) (frame_index s) pic) as [bs|] eqn:Eb.
  2: { unfold zupd in Eb. rewrite decide_True in Eb by (rewrite Hb; lia). done. }
  cbn [mbind option_bind]. exists bs. rewrite Z.quot_div_nonneg by lia. split; [done|].
  assert (Hbs : bs = <[Z.to_nat (frame_index s) := pic]> (buffers s)).
  { unfold zupd in Eb. rewrite decide_True in Eb by (rewrite Hb; lia). congruence. }
  split; [subst bs; by rewrite length_insert|]. split; [subst bs; apply Forall_insert; [done|by apply picture_length]|].
  split; [by eapply znth_zupd_eq|]. eapply znth_zupd_ne; [exact Eb|]. lia.
Qed.

(** The offsets of the frames: that of [main], then the ones of the indication;
    the corners of a frame come from the offset of the one before; the buffers
    alternate. *)
Definition frame_offset (n : nat) : Z := match n with O => 0 | S n => INCREMENT_PIXEL * Z.of_nat n end.
Definition frame_picture (lines pixels : Z) (n : nat) : list Z :=
  picture lines pixels (frame_offset (n - 1) / 16) (frame_offset n).
Definition buffer_of (n : nat) : Z := Z.of_nat n mod 2.

Lemma buffer_next n : buffer_of (S n) = 1 - buffer_of n /\ (buffer_of n = 0 \/ buffer_of n = 1).
Proof.
  unfold buffer_of. rewrite Nat2Z.inj_succ, <- Z.add_1_r.
  pose proof (Z.div_mod (Z.of_nat n) 2 ltac:(lia)). pose proof (Z.mod_pos_bound (Z.of_nat n) 2 ltac:(lia)).
  destruct (decide (Z.of_nat n mod 2 = 0)) as [E|E].
  - rewrite <- (Z.mod_unique_pos (Z.of_nat n + 1) 2 (Z.of_nat n / 2) 1) by lia. lia.
  - rewrite <- (Z.mod_unique_pos (Z.of_nat n + 1) 2 (Z.of_nat n / 2 + 1) 0) by lia. lia.
Qed.

(** Frame [n] is not on the screen yet. *)
Definition drawing (p : pc) : bool := match p with Entered | Painted | Flushed => true | _ => false end.
Definition previous (n : nat) : option Z := match n with O => None | S m => Some (buffer_of m) end.

(** The variables while frame [n] is at [p]. *)
Record phase (lines pixels : Z) (n : nat) (p : pc) (s : Frame) (waiting : bool) : Prop := {
  ph_ok : frame_ok lines pixels s;
  ph_index : frame_index s = match p with Returned => 1 - buffer_of n | _ => buffer_of n end;
  ph_read : forall i, p = IndexRead i -> i = buffer_of n;
  ph_corner : corner_index s = match p with Entered => frame_offset (n - 1) / 16 | _ => frame_offset n / 16 end;
  ph_shown : shown s = if drawing p then previous n else Some (buffer_of n);
  ph_flushed : match p with Entered | Painted => flushed s = previous n | _ => flushed s = Some (buffer_of n) end;
  ph_waiting : waiting = match p with Requested | IndexRead _ | Returned => true | _ => false end;
  ph_old : drawing p = true -> forall m, n = S m -> znth (buffers s) (buffer_of m) = Some (frame_picture lines pixels m);
  ph_new : p <> Entered -> znth (buffers s) (buffer_of n) = Some (frame_picture lines pixels n)
}.

Lemma frame_offset_nonneg n : 0 <= frame_offset n / 16.
Proof. apply Z.div_pos; [|lia]. destruct n; cbn; unfold INCREMENT_PIXEL; lia. Qed.

Lemma fill_phase lines pixels n p s w : phase lines pixels n p s w -> 2 * Z.of_nat n < 2 ^ 31 - 256 -> p <> Returned ->
  exists p' s' w', fill_step (frame_offset n) p s w = Some (p', s', w') /\ phase lines pixels n p' s' w' /\ base s' = base s.
Proof.
  intros [Hok Hi Hr Hc Hs Hf Hw Ho Hn] Hb Hp. destruct (buffer_next n) as [Hb1 Hb2]. pose proof Hok as [? ? ? ? ?].
  destruct p; try done; cbn [fill_step].
  - destruct (paint_spec lines pixels (frame_offset n) s Hok) as (bs & E & L & F & N1 & N2).
    { by rewrite Hi. } { rewrite Hc. apply frame_offset_nonneg. }
    { destruct n; cbn; unfold INCREMENT_PIXEL; lia. }
    rewrite E. eexists _, _, _. split; [reflexivity|]. split; [|done]. rewrite Hi, Hc in *.
    split; try done.
    intros _ m ->. destruct (buffer_next m) as [E1 E2]. rewrite E1 in N2.
    replace (1 - (1 - buffer_of m)) with (buffer_of m) in N2 by lia. cbn [buffers]. rewrite N2. by apply Ho.
  - eexists _, _, _. split; [reflexivity|]. split; [|done]. split; try done; first [by destruct Hok|cbn; by rewrite Hi|intros _; by apply Hn].
  - eexists _, _, _. split; [reflexivity|]. split; [|done]. split; try done; first [by destruct Hok|cbn; by rewrite Hi|intros _; by apply Hn].
  - eexists _, _, _. split; [reflexivity|]. split; [|done]. split; try done; intros _; by apply Hn.
  - eexists _, _, _. split; [reflexivity|]. split; [|done]. split; try done; first [by intros i [= <-]|intros _; by apply Hn].
  - eexists _, _, _. split; [reflexivity|]. split; [|done].
    split; try done; first [by destruct Hok|cbn; by rewrite (Hr i eq_refl)|intros _; by apply Hn].
Qed.

(** Runs in which no vertical blank is told before the main thread has returned
    from [fill_pixels]; [n] blanks have been. *)
Inductive reach (lines pixels : Z) : nat -> Disp -> Prop :=
| reach_start : reach lines pixels 0 (start lines pixels)
| reach_step l n d d' : reach lines pixels n d -> step l d = Some d' -> (l = Vsync -> main_pc d = Returned) ->
    reach lines pixels (match l with Vsync => S n | _ => n end) d'.

(** Where the frame that is being made is. *)
Definition place (d : Disp) : pc := match main_pc d with Returned => ind_pc d | p => p end.

Record dinv (lines pixels : Z) (n : nat) (d : Disp) : Prop := {
  di_phase : phase lines pixels n (place d) (fr d) (waiting d);
  di_main : main_pc d <> Returned -> n = 0%nat /\ ind_pc d = Returned;
  di_zero : main_pc d = Returned -> n = 0%nat -> ind_pc d = Returned;
  di_base : base (fr d) = match place d with Returned => 2 * Z.of_nat n | _ => frame_offset n end
}.

Lemma dinv_start lines pixels : size_ok lines pixels -> dinv lines pixels 0 (start lines pixels).
Proof. intros Hs. split; try done. split; try done. by apply init_frames_ok. Qed.

Lemma dinv_step lines pixels l n d d' : dinv lines pixels n d -> step l d = Some d' -> (l = Vsync -> main_pc d = Returned) ->
  2 * Z.of_nat n < 2 ^ 31 - 256 -> dinv lines pixels (match l with Vsync => S n | _ => n end) d'.
Proof.
  intros [Hph Hm Hz Hb] Hs Hg Hn. destruct l; cbn [step] in Hs.
  - assert (Hne : main_pc d <> Returned) by (intros E; by rewrite E in Hs). destruct (Hm Hne) as [-> Hi].
    assert (Hpl : place d = main_pc d) by (unfold place; by destruct (main_pc d)). rewrite Hpl in *.
    destruct (fill_phase _ _ _ _ _ _ Hph Hn Hne) as (p' & s' & w' & E & Hph' & Hb'). change (frame_offset 0) with 0 in E.
    rewrite E in Hs. cbn in Hs. injection Hs as <-.
    assert (Hpl' : place {| fr := s'; main_pc := p'; ind_pc := ind_pc d; waiting := w' |} = p')
      by (unfold place; cbn; rewrite Hi; by destruct p').
    split; rewrite ?Hpl'; cbn; try done. rewrite Hb', Hb. by destruct (main_pc d), p'.
  - assert (Hne : ind_pc d <> Returned) by (intros E; by rewrite E in Hs).
    assert (Hmr : main_pc d = Returned) by (destruct (main_pc d); try done; by destruct Hm).
    assert (Hn0 : n <> 0%nat) by (intros ->; apply Hne; auto).
    assert (Hpl : place d = ind_pc d) by (unfold place; by rewrite Hmr). rewrite Hpl in *.
    assert (Hbo : base (fr d) = frame_offset n) by (rewrite Hb; by destruct (ind_pc d)). rewrite Hbo in Hs.
    destruct (fill_phase _ _ _ _ _ _ Hph Hn Hne) as (p' & s' & w' & E & Hph' & Hb').
    rewrite E in Hs. cbn in Hs. injection Hs as <-.
    assert (Hpl' : place {| fr := vsync_return p' s'; main_pc := main_pc d; ind_pc := p'; waiting := w' |} = p')
      by (unfold place; cbn; by rewrite Hmr).
    split; rewrite ?Hpl'; cbn; try done.
    + destruct p'; try done. destruct Hph' as [[] ? ? ? ? ? ? ? ?]. by split.
    + destruct p'; cbn; try congruence. rewrite Hb', Hbo. unfold INCREMENT_PIXEL. destruct n as [|m]; [done|]. cbn.
      unfold INCREMENT_PIXEL. rewrite s32_small; lia.
  - destruct (ind_pc d) eqn:Ei; try done. destruct (waiting d) eqn:Ew; [|done]. injection Hs as <-.
    assert (Hpl : place d = Returned) by (unfold place; by rewrite (Hg eq_refl)). rewrite Hpl in *.
    assert (Hpl' : place {| fr := fr d; main_pc := main_pc d; ind_pc := Entered; waiting := false |} = Entered)
      by (unfold place; cbn; by rewrite (Hg eq_refl)).
    destruct Hph as [Hok Hi Hr Hc Hsh Hf Hw Ho Hnew]. destruct (buffer_next n) as [B1 B2].
    split; rewrite ?Hpl'; cbn [fr waiting main_pc ind_pc].
    + split; try done; first [by rewrite Hi|by rewrite Nat.sub_1_r|intros _ m [= <-]; by apply Hnew].
    + intros E. by rewrite (Hg eq_refl) in E.
    + done.
    + by rewrite Hb.
Qed.

Lemma reach_inv lines pixels n d : reach lines pixels n d -> size_ok lines pixels -> 2 * Z.of_nat n < 2 ^ 31 - 256 -> dinv lines pixels n d.
Proof.
  induction 1 as [|l n d d' Hr IH Hs Hg]; intros Hsz Hn; [by apply dinv_start|].
  eapply dinv_step; [apply IH; [done|]|done|done|]; destruct l; lia.
Qed.

(** C26: the display is double buffered without tearing, once the main thread has
    left [fill_pixels] before the first vertical blank is told.  For every size
    whose bytes (and positions times 256) an [int] counts and until the offset
    leaves [int], in every state of every interleaving: the buffer that is about
    to be painted is not the one on the screen; the buffer on the screen was
    flushed before it was started and holds the whole picture of its frame,
    frame [n] once it is started and the one before until then; painting stays
    inside the buffer, so that no thread is stuck; and when both threads are
    outside [fill_pixels] the next blank has been asked for. *)
Theorem display_frames lines pixels n d : reach lines pixels n d -> size_ok lines pixels -> 2 * Z.of_nat n < 2 ^ 31 - 256 ->
  (main_pc d = Entered \/ ind_pc d = Entered -> shown (fr d) <> Some (frame_index (fr d))) /\
  (forall b, shown (fr d) = Some b ->
     znth (buffers (fr d)) b = Some (frame_picture lines pixels (if drawing (place d) then n - 1 else n))) /\
  (drawing (place d) = false -> flushed (fr d) = shown (fr d)) /\
  (main_pc d <> Returned -> step Main d <> None) /\ (ind_pc d <> Returned -> step Ind d <> None) /\
  (main_pc d = Returned -> ind_pc d = Returned -> step Vsync d <> None).
Proof.
  intros Hr Hsz Hn. destruct (reach_inv _ _ _ _ Hr Hsz Hn) as [Hph Hm Hz Hb]. pose proof Hph as [Hok Hi Hrd Hc Hs Hf Hw Ho Hnew].
  assert (Hmi : ind_pc d <> Returned -> main_pc d = Returned) by (destruct (main_pc d); try done; by destruct Hm).
  split_and!.
  - intros He. assert (Hpl : place d = Entered).
    { unfold place. destruct He as [->|E]; [done|]. rewrite Hmi by (by rewrite E). done. }
    rewrite Hpl in *. rewrite Hs, Hi. destruct n as [|m]; [done|]. cbn. destruct (buffer_next m). intros [= ?]. lia.
  - intros b Hsb. rewrite Hs in Hsb. destruct (drawing (place d)) eqn:Hd.
    + destruct n as [|m]; [done|]. cbn in Hsb. injection Hsb as <-. rewrite Nat.sub_1_r. by apply Ho.
    + injection Hsb as <-. apply Hnew. by intros E; rewrite E in Hd.
  - intros Hd. rewrite Hs, Hd. by destruct (place d).
  - intros Hne. destruct (Hm Hne) as [-> Hir]. assert (Hpl : place d = main_pc d) by (unfold place; by destruct (main_pc d)).
    rewrite Hpl in *. destruct (fill_phase _ _ _ _ _ _ Hph Hn Hne) as (p' & s' & w' & E & _).
    cbn [step]. change (frame_offset 0) with 0 in E. by rewrite E.
  - intros Hne. assert (Hpl : place d = ind_pc d) by (unfold place; by rewrite (Hmi Hne)). rewrite Hpl in *.
    destruct (fill_phase _ _ _ _ _ _ Hph Hn Hne) as (p' & s' & w' & E & _).
    cbn [step]. assert (base (fr d) = frame_offset n) as -> by (rewrite Hb; by destruct (ind_pc d)). by rewrite E.
  - intros E1 E2. cbn [step]. rewrite E2. unfold place in Hw. rewrite E1, E2 in Hw. by rewrite Hw.
Qed.

(** [waitForVsync] comes before the change of [frame_index]: when the blank is
    told in between, the indication paints the buffer that is on the screen, and
    both threads change the index. *)
Lemma first_vsync_race lines pixels : size_ok lines pixels -> exists d,
  run [Main; Main; Main; Main; Vsync] (start lines pixels) = Some d /\
  ind_pc d = Entered /\ shown (fr d) = Some (frame_index (fr d)).
Proof.
  intros Hs. destruct (paint_spec lines pixels 0 _ (init_frames_ok _ _ Hs)) as (bs & E & _); [by left|done|lia|].
  eexists. cbn [run step start main_pc fr waiting fill_step]. rewrite E. done.
Qed.

(** * Witnesses *)

Definition two_k : edid_detailed_timing :=
  {| pixclk := 24150; npixels := 2560; bpixels := 160; nlines := 1440; blines := 41;
     hsyncoff := 48; hsyncwidth := 32; vsyncoff := 3; vsyncwidth := 5;
     widthmm := 597; heightmm := 336; hborderpxls := 0; vborderpxls := 0; features := 26 |}.
Definition demo_descriptors : list descriptor :=
  [DTiming two_k; DTiming full_hd; DOther (replicate 16 1); DOther (replicate 16 0)].

Lemma demo_descriptors_ok : Forall descriptor_ok demo_descriptors.
Proof. repeat (constructor; [try done; unfold descriptor_ok, timing_ok; cbn; lia|]). constructor. Qed.

Lemma display_timing_witness :
  setup_display (block_of (replicate 54 0) demo_descriptors (replicate 130 0)) =
    (1080, 1920, 8294400, timing_cmds full_hd) /\ Forall positions_ok (timing_cmds full_hd).
Proof.
  destruct (display_timing (replicate 54 0) demo_descriptors (replicate 130 0)) as [H _];
    [reflexivity|reflexivity|apply demo_descriptors_ok|].
  destruct (H [DTiming two_k] full_hd [DOther (replicate 16 1); DOther (replicate 16 0)]) as [H1 H2].
  - reflexivity.
  - constructor; [cbn; lia|constructor].
  - cbn. lia.
  - split; [exact H1|]. apply H2. unfold timing_sane. cbn. lia.
Defined.

(** Runs by evaluation: the labels, with the guard of [reach]. *)
Fixpoint reach_run (ls : list label) (n : nat) (d : Disp) : option (nat * Disp) :=
  match ls with
  | [] => Some (n, d)
  | l :: ls =>
      match l, main_pc d with
      | Vsync, Returned => d ← step l d; reach_run ls (S n) d
      | Vsync, _ => None
      | _, _ => d ← step l d; reach_run ls n d
      end
  end.
Lemma reach_run_sound lines pixels ls : forall n d n' d', reach lines pixels n d -> reach_run ls n d = Some (n', d') ->
  reach lines pixels n' d'.
Proof.
  induction ls as [|l ls IH]; intros n d n' d' Hr H; cbn [reach_run] in H; [by injection H as <- <-|].
  destruct (step l d) as [d1|] eqn:E; [|by destruct l, (main_pc d)].
  destruct l; cbn in H.
  - eapply IH; [|exact H]. by apply (reach_step _ _ Main n d d1).
  - eapply IH; [|exact H]. by apply (reach_step _ _ Ind n d d1).
  - destruct (main_pc d) eqn:Em; try done. eapply IH; [|exact H]. by apply (reach_step _ _ Vsync n d d1).
Qed.

(** The first frame and two vertical blanks; the third frame is about to be
    painted, and the second is on the screen. *)
Definition demo_run : list label := [Main; Main; Main; Main; Main; Main; Vsync; Ind; Ind; Ind; Ind; Ind; Ind; Vsync].

Lemma display_frames_witness : exists d, run demo_run (start 4 5) = Some d /\ reach 4 5 2 d /\ shown (fr d) = Some 1 /\
  frame_index (fr d) = 0 /\ znth (buffers (fr d)) 1 = Some (frame_picture 4 5 1).
Proof.
  destruct (reach_run demo_run 0 (start 4 5)) as [[n d]|] eqn:E; [|vm_compute in E; discriminate].
  assert (n = 2%nat) as -> by (vm_compute in E; congruence).
  assert (Hd : run demo_run (start 4 5) = Some d) by (vm_compute in E |- *; congruence).
  assert (Hs : shown (fr d) = Some 1 /\ frame_index (fr d) = 0 /\ drawing (place d) = true)
    by (vm_compute in E; injection E as <-; repeat split).
  destruct Hs as (Hs & Hi & Hp). pose proof (reach_run_sound 4 5 _ _ _ _ _ (reach_start 4 5) E) as Hr.
  destruct (display_frames 4 5 2 d Hr) as (_ & H & _); [unfold size_ok; lia|lia|].
  exists d. split; [exact Hd|]. split; [exact Hr|]. split; [exact Hs|]. split; [exact Hi|].
  specialize (H 1 Hs). rewrite Hp in H. exact H.
Defined.
