(* ===== verification/Tiny3Asm.v ===== *)
(** The assembler of the tiny computer, [examples/tiny3/tc3asm.c]: the fields of
    an instruction word, the functions that build one, and the images of the data
    and instruction memories.  Names the file uses without defining them (the
    number of registers, the width of the field LC, the code of "no shift", the
    [lc] of [constant]) are parameters. *)

From stdpp Require Import base list option.
From Stdlib Require Import ZArith Lia.
From S2P Require Import Prelude.
#[local] Open Scope Z_scope.

(** * Fields *)

(** [GETFIELD] and [SETFIELD] for a field that begins at bit [start]. *)
Definition GETFIELD (start width value : Z) : Z :=
  Z.land (Z.shiftr value start) (Z.shiftl 1 width - 1).
Definition SETFIELD (word start width value : Z) : Z :=
  u32 (Z.lor (Z.land word (Z.shiftl (Z.lnot (Z.shiftl 1 width - 1)) start))
             (Z.shiftl (Z.land value (Z.shiftl 1 width - 1)) start)).

Definition RW_START : Z := 25.
Definition RW_WIDTH : Z := 7.
Definition LC_START : Z := 24.
Definition RA_START : Z := 17.
Definition RA_WIDTH : Z := 7.
Definition RB_START : Z := 10.
Definition RB_WIDTH : Z := 7.
Definition FUNC_START : Z := 7.
Definition FUNC_WIDTH : Z := 3.
Definition SHIFT_START : Z := 5.
Definition SHIFT_WIDTH : Z := 2.
Definition SKIP_START : Z := 3.
Definition SKIP_WIDTH : Z := 2.
Definition OP_START : Z := 0.
Definition OP_WIDTH : Z := 3.

(** The codes, in the order the macros list them. *)
Inductive func : Type := plus | minus | plus1 | minus1 | f_and | f_or | f_xor | func_reserved.
Inductive skip : Type := noskip | sneg | sz | inrdy.
Inductive shift : Type := s_cy0 | s_cy1 | s_cy8 | s_cy16.
Inductive op : Type := norm | op_storeDM | op_storeIM | op_out | op_loadDM | op_in | op_jump | op_reserved.

Definition func_code (f : func) : Z :=
  match f with plus => 0 | minus => 1 | plus1 => 2 | minus1 => 3 | f_and => 4 | f_or => 5 | f_xor => 6 | func_reserved => 7 end.
Definition skip_code (s : skip) : Z := match s with noskip => 0 | sneg => 1 | sz => 2 | inrdy => 3 end.
Definition shift_code (s : shift) : Z := match s with s_cy0 => 0 | s_cy1 => 1 | s_cy8 => 2 | s_cy16 => 3 end.
Definition op_code (o : op) : Z :=
  match o with norm => 0 | op_storeDM => 1 | op_storeIM => 2 | op_out => 3 | op_loadDM => 4 | op_in => 5 | op_jump => 6
  | op_reserved => 7 end.

Definition DMSIZE : Z := 1024.
Definition IMSIZE : Z := 1024.

Section Assembler.
Variables NUMREGS LC_WIDTH noshift lc : Z.

(** * The images and the allocation pointers *)

Record Asm : Type := { im : list Z; next_dm : Z; next_im : Z; next_reg : Z; inst : Z }.

Definition set_inst (v : Z) (r : Asm) : Asm :=
  {| im := im r; next_dm := next_dm r; next_im := next_im r; next_reg := next_reg r; inst := v |}.

Definition label : M Asm Z := s ← getW; mret (next_im s).

Definition allocreg : M Asm Z :=
  s ← getW;
  if decide (NUMREGS <= next_reg s) then mret (-1)
  else putW {| im := im s; next_dm := next_dm s; next_im := next_im s; next_reg := next_reg s + 1; inst := inst s |} ;;
       mret (next_reg s).

Definition alloc (words : Z) : M Asm Z :=
  s ← getW;
  let loc := next_dm s in
  if decide (DMSIZE < loc + words) then mret (-1)
  else putW {| im := im s; next_dm := loc + words; next_im := next_im s; next_reg := next_reg s; inst := inst s |} ;;
       mret loc.

(** There is no test against [IMSIZE]. *)
Definition pushinst : M Asm unit :=
  s ← getW;
  i ← defined (zupd (im s) (next_im s) (inst s));
  putW {| im := i; next_dm := next_dm s; next_im := next_im s + 1; next_reg := next_reg s; inst := 0 |}.

(** * Instructions *)

(** The word that [ins] leaves in [inst]. *)
Definition ins_word (word rw lc ra rb function shift skip op : Z) : Z :=
  let word := SETFIELD word RW_START RW_WIDTH rw in
  let word := SETFIELD word LC_START LC_WIDTH lc in
  let word := SETFIELD word RA_START RA_WIDTH ra in
  let word := SETFIELD word RB_START RB_WIDTH rb in
  let word := SETFIELD word FUNC_START FUNC_WIDTH function in
  let word := SETFIELD word SHIFT_START SHIFT_WIDTH shift in
  let word := SETFIELD word SKIP_START SKIP_WIDTH skip in
  SETFIELD word OP_START OP_WIDTH op.
Definition ins (rw lc ra rb function shift skip op : Z) : M Asm unit :=
  modifyW (fun s => set_inst (ins_word (inst s) rw lc ra rb function shift skip op) s).

(** [constant] does not use its register, and sets the field LC behind the value. *)
Definition constant (rw value : Z) : M Asm unit :=
  modifyW (fun s => set_inst (SETFIELD (Z.land value 0xffffff) LC_START LC_WIDTH lc) s) ;; pushinst.

(** [add], [sub], [and], [or], [xor], [inc], [dec]. *)
Definition arith (f : func) (rw ra rb : Z) : M Asm Z :=
  ins rw 0 ra rb (func_code f) noshift (skip_code noskip) (op_code norm) ;;
  s ← getW; mret (inst s).
Definition add := arith plus.
Definition sub := arith minus.
Definition and_ := arith f_and.
Definition or_ := arith f_or.
Definition xor_ := arith f_xor.
Definition inc := arith plus1.
Definition dec := arith minus1.

Definition skip_neg (i : Z) : Z := SETFIELD i SKIP_START SKIP_WIDTH (skip_code sneg).
Definition skip_zero (i : Z) : Z := SETFIELD i SKIP_START SKIP_WIDTH (skip_code sz).
Definition skip_inputready (i : Z) : Z := SETFIELD i SKIP_START SKIP_WIDTH (skip_code inrdy).
Definition cy1 (i : Z) : Z := SETFIELD i SHIFT_START SHIFT_WIDTH (shift_code s_cy1).
Definition cy8 (i : Z) : Z := SETFIELD i SHIFT_START SHIFT_WIDTH (shift_code s_cy8).
Definition cy16 (i : Z) : Z := SETFIELD i SHIFT_START SHIFT_WIDTH (shift_code s_cy16).

Definition emit (o : op) (i : Z) : M Asm unit :=
  modifyW (set_inst (SETFIELD i OP_START OP_WIDTH (op_code o))) ;; pushinst.
Definition storedm := emit op_storeDM.
Definition storeim := emit op_storeIM.
Definition out := emit op_out.
Definition loaddm := emit op_loadDM.
Definition in_ := emit op_in.
Definition jump := emit op_jump.

(** * What the fields hold *)

Lemma mask_ones w : 0 <= w -> Z.shiftl 1 w - 1 = 2 ^ w - 1.
Proof. intros. by rewrite Z.shiftl_1_l. Qed.

Lemma GETFIELD_arith start width v : 0 <= start -> 0 <= width ->
  GETFIELD start width v = (v / 2 ^ start) mod 2 ^ width.
Proof. intros Hs Hw. unfold GETFIELD. rewrite mask_ones, land_ones_mod, Z.shiftr_div_pow2 by done. done. Qed.

(** A field is set, the bits above it stay, and every bit below it is cleared. *)
Lemma SETFIELD_arith word start width v : 0 <= start -> 0 <= width -> start + width <= 32 -> 0 <= word < 2 ^ 32 ->
  SETFIELD word start width v = word / 2 ^ (start + width) * 2 ^ (start + width) + v mod 2 ^ width * 2 ^ start.
Proof.
  intros Hs Hw Hsw Hword. unfold SETFIELD. rewrite mask_ones by done.
  assert (Em : Z.shiftl (Z.lnot (2 ^ width - 1)) start = Z.lnot (2 ^ (start + width) - 1)).
  { rewrite Z.shiftl_mul_pow2, Z.pow_add_r by done. unfold Z.lnot. lia. }
  rewrite Em, land_lnot_ones, land_ones_mod by lia.
  assert (Hp : 0 < 2 ^ (start + width)) by (apply Z.pow_pos_nonneg; lia).
  pose proof (Z.div_mod word (2 ^ (start + width)) ltac:(lia)) as Hd.
  assert (Hv : 0 <= v mod 2 ^ width < 2 ^ width) by (apply Z.mod_pos_bound, Z.pow_pos_nonneg; lia).
  replace (word - word mod 2 ^ (start + width)) with (Z.shiftl (word / 2 ^ (start + width)) (start + width)).
  2: { rewrite Z.shiftl_mul_pow2 by lia. lia. }
  assert (Hps : 0 < 2 ^ start) by (apply Z.pow_pos_nonneg; lia).
  assert (Hlo : 0 <= Z.shiftl (v mod 2 ^ width) start < 2 ^ (start + width)).
  { rewrite Z.shiftl_mul_pow2, Z.pow_add_r by lia. nia. }
  rewrite lor_shiftl_add by (done || lia). rewrite Z.shiftl_mul_pow2 in * by done. apply u32_small.
  assert (Hq : word / 2 ^ (start + width) < 2 ^ (32 - (start + width))).
  { apply Z.div_lt_upper_bound; [done|]. rewrite <- Z.pow_add_r by lia. replace (start + width + (32 - (start + width))) with 32 by lia. lia. }
  assert (H32 : 2 ^ (32 - (start + width)) * 2 ^ (start + width) = 2 ^ 32).
  { rewrite <- Z.pow_add_r by lia. f_equal. lia. }
  assert (0 <= word / 2 ^ (start + width)) by (apply Z.div_pos; lia). change (2 ^ 32) with 4294967296 in *. nia.
Qed.

(** The instruction word of its fields, most significant first. *)
Definition word_of (rw lc ra rb f sh sk o : Z) : Z :=
  ((((((rw * 2 + lc) * 128 + ra) * 128 + rb) * 8 + f) * 4 + sh) * 4 + sk) * 8 + o.

Context (HLC : LC_WIDTH = 1).

(** Setting the field below those that are set. *)
Lemma SETFIELD_next A start width v : 0 <= start -> 0 <= width -> start + width <= 32 -> 0 <= A < 2 ^ (32 - (start + width)) ->
  SETFIELD (A * 2 ^ (start + width)) start width v = (A * 2 ^ width + v mod 2 ^ width) * 2 ^ start.
Proof.
  intros Hs Hw Hsw HA. assert (Hp : 0 < 2 ^ (start + width)) by (apply Z.pow_pos_nonneg; lia).
  assert (H32 : 2 ^ (32 - (start + width)) * 2 ^ (start + width) = 2 ^ 32).
  { rewrite <- Z.pow_add_r by lia. f_equal. lia. }
  rewrite SETFIELD_arith by (done || nia). rewrite Z.div_mul by lia. rewrite Z.pow_add_r by done. ring.
Qed.

Lemma ins_word_fields word rw lc' ra rb f sh sk o : 0 <= word < 2 ^ 32 ->
  ins_word word rw lc' ra rb f sh sk o =
  word_of (rw mod 128) (lc' mod 2) (ra mod 128) (rb mod 128) (f mod 8) (sh mod 4) (sk mod 4) (o mod 8).
Proof.
  intros Hw. unfold ins_word, word_of. rewrite HLC.
  unfold RW_START, RW_WIDTH, LC_START, RA_START, RA_WIDTH, RB_START, RB_WIDTH, FUNC_START, FUNC_WIDTH, SHIFT_START,
    SHIFT_WIDTH, SKIP_START, SKIP_WIDTH, OP_START, OP_WIDTH.
  pose proof (Z.mod_pos_bound rw (2 ^ 7) ltac:(lia)). pose proof (Z.mod_pos_bound lc' (2 ^ 1) ltac:(lia)).
  pose proof (Z.mod_pos_bound ra (2 ^ 7) ltac:(lia)). pose proof (Z.mod_pos_bound rb (2 ^ 7) ltac:(lia)).
  pose proof (Z.mod_pos_bound f (2 ^ 3) ltac:(lia)). pose proof (Z.mod_pos_bound sh (2 ^ 2) ltac:(lia)).
  pose proof (Z.mod_pos_bound sk (2 ^ 2) ltac:(lia)).
  rewrite (SETFIELD_arith word 25 7) by lia. rewrite (Z.div_small word (2 ^ (25 + 7))) by lia.
  rewrite Z.mul_0_l, Z.add_0_l.
  rewrite (SETFIELD_next _ 24 1) by lia. rewrite (SETFIELD_next _ 17 7) by lia. rewrite (SETFIELD_next _ 10 7) by lia.
  rewrite (SETFIELD_next _ 7 3) by lia. rewrite (SETFIELD_next _ 5 2) by lia. rewrite (SETFIELD_next _ 3 2) by lia.
  rewrite (SETFIELD_next _ 0 3) by lia. rewrite Z.mul_1_r. reflexivity.
Qed.

(** Reading a field between what is above and what is below it. *)
Lemma GETFIELD_between hi v lo start width : 0 <= start -> 0 <= width -> 0 <= v < 2 ^ width -> 0 <= lo < 2 ^ start ->
  GETFIELD start width ((hi * 2 ^ width + v) * 2 ^ start + lo) = v.
Proof.
  intros Hs Hw Hv Hlo. rewrite GETFIELD_arith by done. rewrite Z.div_add_l by lia. rewrite (Z.div_small lo) by done.
  rewrite Z.add_0_r, Z.add_comm, Z.mod_add by lia. by apply Z.mod_small.
Qed.

(** The fields of a word, as they are read back. *)
Definition fields (word : Z) : list Z :=
  [GETFIELD RW_START RW_WIDTH word; GETFIELD LC_START LC_WIDTH word; GETFIELD RA_START RA_WIDTH word;
   GETFIELD RB_START RB_WIDTH word; GETFIELD FUNC_START FUNC_WIDTH word; GETFIELD SHIFT_START SHIFT_WIDTH word;
   GETFIELD SKIP_START SKIP_WIDTH word; GETFIELD OP_START OP_WIDTH word].

Definition fields_ok (rw l ra rb f sh sk o : Z) : Prop :=
  0 <= rw < 128 /\ 0 <= l < 2 /\ 0 <= ra < 128 /\ 0 <= rb < 128 /\ 0 <= f < 8 /\ 0 <= sh < 4 /\ 0 <= sk < 4 /\ 0 <= o < 8.

Lemma fields_word rw l ra rb f sh sk o : fields_ok rw l ra rb f sh sk o ->
  fields (word_of rw l ra rb f sh sk o) = [rw; l; ra; rb; f; sh; sk; o].
Proof.
  intros (H1 & H2 & H3 & H4 & H5 & H6 & H7 & H8). unfold fields, word_of. rewrite HLC.
  unfold RW_START, RW_WIDTH, LC_START, RA_START, RA_WIDTH, RB_START, RB_WIDTH, FUNC_START, FUNC_WIDTH, SHIFT_START,
    SHIFT_WIDTH, SKIP_START, SKIP_WIDTH, OP_START, OP_WIDTH.
  assert (G : forall w hi v lo start width, 0 <= start -> 0 <= width -> 0 <= v < 2 ^ width -> 0 <= lo < 2 ^ start ->
    w = (hi * 2 ^ width + v) * 2 ^ start + lo -> GETFIELD start width w = v).
  { intros w hi v lo start width ? ? ? ? ->. by apply GETFIELD_between. }
  set (w := _ * 8 + o).
  assert (E1 : GETFIELD 25 7 w = rw) by (apply (G w 0 rw ((((((l * 128 + ra) * 128 + rb) * 8 + f) * 4 + sh) * 4 + sk) * 8 + o)); unfold w; lia).
  assert (E2 : GETFIELD 24 1 w = l) by (apply (G w rw l (((((ra * 128 + rb) * 8 + f) * 4 + sh) * 4 + sk) * 8 + o)); unfold w; lia).
  assert (E3 : GETFIELD 17 7 w = ra) by (apply (G w (rw * 2 + l) ra ((((rb * 8 + f) * 4 + sh) * 4 + sk) * 8 + o)); unfold w; lia).
  assert (E4 : GETFIELD 10 7 w = rb) by (apply (G w ((rw * 2 + l) * 128 + ra) rb (((f * 4 + sh) * 4 + sk) * 8 + o)); unfold w; lia).
  assert (E5 : GETFIELD 7 3 w = f) by (apply (G w (((rw * 2 + l) * 128 + ra) * 128 + rb) f ((sh * 4 + sk) * 8 + o)); unfold w; lia).
  assert (E6 : GETFIELD 5 2 w = sh) by (apply (G w ((((rw * 2 + l) * 128 + ra) * 128 + rb) * 8 + f) sh (sk * 8 + o)); unfold w; lia).
  assert (E7 : GETFIELD 3 2 w = sk) by (apply (G w (((((rw * 2 + l) * 128 + ra) * 128 + rb) * 8 + f) * 4 + sh) sk o); unfold w; lia).
  assert (E8 : GETFIELD 0 3 w = o)
    by (apply (G w ((((((rw * 2 + l) * 128 + ra) * 128 + rb) * 8 + f) * 4 + sh) * 4 + sk) o 0); unfold w; lia).
  by rewrite E1, E2, E3, E4, E5, E6, E7, E8.
Qed.

Lemma word_of_range rw l ra rb f sh sk o : fields_ok rw l ra rb f sh sk o -> 0 <= word_of rw l ra rb f sh sk o < 2 ^ 32.
Proof. unfold fields_ok, word_of. lia. Qed.

(** Setting SHIFT, SKIP or OP of a word. *)
Lemma set_shift rw l ra rb f sh sk o v : fields_ok rw l ra rb f sh sk o -> 0 <= v < 4 ->
  SETFIELD (word_of rw l ra rb f sh sk o) SHIFT_START SHIFT_WIDTH v = word_of rw l ra rb f v 0 0.
Proof.
  intros H Hv. unfold SHIFT_START, SHIFT_WIDTH. rewrite SETFIELD_arith by (lia || by apply word_of_range).
  rewrite (Z.mod_small v) by lia. unfold fields_ok in H. unfold word_of.
  set (w := _ * 8 + o). assert (E : w / (2 ^ (5 + 2)) = ((((rw * 2 + l) * 128 + ra) * 128 + rb) * 8 + f)) by (symmetry; apply (Z.div_unique_pos w _ _ ((sh * 4 + sk) * 8 + o)); unfold w; lia).
  rewrite E. lia.
Qed.

Lemma set_skip rw l ra rb f sh sk o v : fields_ok rw l ra rb f sh sk o -> 0 <= v < 4 ->
  SETFIELD (word_of rw l ra rb f sh sk o) SKIP_START SKIP_WIDTH v = word_of rw l ra rb f sh v 0.
Proof.
  intros H Hv. unfold SKIP_START, SKIP_WIDTH. rewrite SETFIELD_arith by (lia || by apply word_of_range).
  rewrite (Z.mod_small v) by lia. unfold fields_ok in H. unfold word_of.
  set (w := _ * 8 + o). assert (E : w / (2 ^ (3 + 2)) = (((((rw * 2 + l) * 128 + ra) * 128 + rb) * 8 + f) * 4 + sh)) by (symmetry; apply (Z.div_unique_pos w _ _ (sk * 8 + o)); unfold w; lia).
  rewrite E. lia.
Qed.

Lemma set_op rw l ra rb f sh sk o v : fields_ok rw l ra rb f sh sk o -> 0 <= v < 8 ->
  SETFIELD (word_of rw l ra rb f sh sk o) OP_START OP_WIDTH v = word_of rw l ra rb f sh sk v.
Proof.
  intros H Hv. unfold OP_START, OP_WIDTH. rewrite SETFIELD_arith by (lia || by apply word_of_range).
  rewrite (Z.mod_small v) by lia. unfold fields_ok in H. unfold word_of.
  set (w := _ * 8 + o). assert (E : w / (2 ^ (0 + 3)) = ((((((rw * 2 + l) * 128 + ra) * 128 + rb) * 8 + f) * 4 + sh) * 4 + sk)) by (symmetry; apply (Z.div_unique_pos w _ _ o); unfold w; lia).
  rewrite E. lia.
Qed.

(** ** What the functions build *)

Definition reg_ok (r : Z) : Prop := 0 <= r < 128.
Definition in_word (s : Asm) : Prop := 0 <= inst s < 2 ^ 32.

Lemma pushinst_spec s : Z.of_nat (length (im s)) = IMSIZE -> 0 <= next_im s ->
  (next_im s < IMSIZE -> pushinst s = Ok tt {| im := <[Z.to_nat (next_im s) := inst s]> (im s); next_dm := next_dm s;
     next_im := next_im s + 1; next_reg := next_reg s; inst := 0 |}) /\
  (IMSIZE <= next_im s -> pushinst s = Fault).
Proof.
  intros Hl Hn. unfold pushinst, mbind, M_bind, getW, defined, putW. split; intros H.
  - by rewrite zupd_Some by lia.
  - unfold zupd. by rewrite decide_False by lia.
Qed.

Lemma func_code_range f : 0 <= func_code f < 8.
Proof. destruct f; cbn; lia. Qed.
Lemma op_code_range o : 0 <= op_code o < 8.
Proof. destruct o; cbn; lia. Qed.
Lemma skip_code_range k : 0 <= skip_code k < 4.
Proof. destruct k; cbn; lia. Qed.
Lemma shift_code_range k : 0 <= shift_code k < 4.
Proof. destruct k; cbn; lia. Qed.

(** an instruction that is built in the order function, shift, skip,
    operation is stored as written: the word in the instruction memory has every
    field it was given, whatever was in the word under construction, and the
    next instruction goes behind it. *)
Theorem assemble_roundtrip f rw ra rb sh sk o s : reg_ok rw -> reg_ok ra -> reg_ok rb -> 0 <= noshift < 4 ->
  in_word s -> Z.of_nat (length (im s)) = IMSIZE -> 0 <= next_im s < IMSIZE ->
  exists s' w, (i ← arith f rw ra rb;
     emit o (SETFIELD (SETFIELD i SHIFT_START SHIFT_WIDTH (shift_code sh)) SKIP_START SKIP_WIDTH (skip_code sk))) s = Ok tt s' /\
    im s' = <[Z.to_nat (next_im s) := w]> (im s) /\ next_im s' = next_im s + 1 /\
    fields w = [rw; 0; ra; rb; func_code f; shift_code sh; skip_code sk; op_code o].
Proof.
  intros Hrw Hra Hrb Hns Hi Hlen Hn. unfold reg_ok in *.
  pose proof (func_code_range f) as Hf. pose proof (op_code_range o) as Ho.
  pose proof (skip_code_range sk) as Hsk. pose proof (shift_code_range sh) as Hsh.
  set (w0 := word_of rw 0 ra rb (func_code f) noshift 0 0).
  assert (Ea : arith f rw ra rb s = Ok w0 (set_inst w0 s)).
  { unfold arith, ins, mbind, M_bind, modifyW, getW. cbn. rewrite ins_word_fields by done.
    rewrite !(Z.mod_small _ 128), (Z.mod_small _ 8), (Z.mod_small _ 4) by lia. done. }
  rewrite (bind_ok _ _ _ _ _ Ea). unfold w0.
  rewrite set_shift, set_skip by (unfold fields_ok; lia). unfold emit. rewrite set_op by (unfold fields_ok; lia).
  set (w := word_of rw 0 ra rb (func_code f) (shift_code sh) (skip_code sk) (op_code o)).
  rewrite (bind_ok _ _ _ tt (set_inst w (set_inst w0 s))) by done.
  rewrite (proj1 (pushinst_spec (set_inst w (set_inst w0 s)) Hlen ltac:(cbn; lia))) by (cbn; lia).
  eexists _, w. split; [done|]. split; [done|]. split; [done|]. apply fields_word. unfold fields_ok. lia.
Qed.

(** where the assembler loses what it was given.  Setting a field clears
    every bit below it, so a shift that is added to an instruction with a skip
    removes the skip; [constant] sets its field behind the value and removes the
    whole value, and never uses its register; and there is no test for a full
    instruction memory. *)
Theorem assembler_losses f rw ra rb sh sk s value : reg_ok rw -> reg_ok ra -> reg_ok rb -> 0 <= noshift < 4 ->
  Z.of_nat (length (im s)) = IMSIZE -> 0 <= next_im s ->
  fields (SETFIELD (SETFIELD (word_of rw 0 ra rb (func_code f) noshift 0 0) SKIP_START SKIP_WIDTH (skip_code sk))
            SHIFT_START SHIFT_WIDTH (shift_code sh)) = [rw; 0; ra; rb; func_code f; shift_code sh; 0; 0] /\
  constant rw value s = constant 0 0 s /\
  (IMSIZE <= next_im s -> pushinst s = Fault).
Proof.
  intros Hrw Hra Hrb Hns Hlen Hn. unfold reg_ok in *.
  pose proof (func_code_range f) as Hf. pose proof (skip_code_range sk) as Hsk. pose proof (shift_code_range sh) as Hsh.
  split; [|split].
  - rewrite set_skip, set_shift by (unfold fields_ok; lia). apply fields_word. unfold fields_ok. lia.
  - unfold constant. assert (E : forall v, SETFIELD (Z.land v 0xffffff) LC_START LC_WIDTH lc = lc mod 2 * 2 ^ 24).
    { intros v. rewrite HLC. unfold LC_START. change 0xffffff with (2 ^ 24 - 1). rewrite land_ones_mod by lia.
      pose proof (Z.mod_pos_bound v (2 ^ 24) ltac:(lia)). rewrite SETFIELD_arith by lia.
      rewrite (Z.div_small (v mod 2 ^ 24)) by lia. done. }
    unfold mbind, M_bind, modifyW. by rewrite !E.
  - by apply pushinst_spec.
Qed.
End Assembler.

(** * Witnesses *)

Definition asm0 : Asm := {| im := replicate 1024 0; next_dm := 0; next_im := 5; next_reg := 0; inst := 7 |}.

Lemma assemble_roundtrip_witness : exists s' w,
  (i ← arith 1 0 plus 1 2 3;
   emit op_jump (SETFIELD (SETFIELD i SHIFT_START SHIFT_WIDTH (shift_code s_cy8)) SKIP_START SKIP_WIDTH (skip_code sz))) asm0 =
    Ok tt s' /\ fields 1 w = [1; 0; 2; 3; 0; 2; 2; 6] /\ im s' !! 5%nat = Some w.
Proof.
  destruct (assemble_roundtrip 1 0 eq_refl plus 1 2 3 s_cy8 sz op_jump asm0) as (s' & w & E & Ei & _ & Ef);
    try (unfold reg_ok, in_word, IMSIZE; cbn; lia).
  exists s', w. split; [exact E|]. split; [exact Ef|]. rewrite Ei. reflexivity.
Defined.

Lemma assembler_losses_witness : constant 1 0 9 0x123456 asm0 = constant 1 0 0 0 asm0.
Proof.
  apply (assembler_losses 1 0 0 eq_refl plus 9 2 3 s_cy8 sz asm0 0x123456); unfold reg_ok, IMSIZE; cbn; lia.
Defined.
