(* ===== verification/Mnist.v ===== *)
(** The reader of image files of [lib/rbm/cpp/mnist.h]: a header gives the type
    of the elements and the sizes of the dimensions, the images follow.

    The file is a list of bytes.  A mapping shows its bytes and zeros up to the
    end of its last page; [None] is an access outside the mapping, a value that
    was never set, a write outside the array of sizes or a division by zero. *)

From stdpp Require Import base list option.
From Stdlib Require Import ZArith Lia.
From S2P Require Import Prelude SearchClients.
#[local] Open Scope list_scope.
#[local] Open Scope Z_scope.

(** * The reader *)

(** The bytes that [len] bytes of a mapping of the file show. *)
Definition mapped (file : list Z) (len : Z) : list Z :=
  take (Z.to_nat len) (file ++ replicate (Z.to_nat (- Z.of_nat (length file) mod 4096)) 0).

(** An [int] of the mapping, in the byte order of the machine (as unsigned), and [ntohl]. *)
Definition int_at (m : list Z) (k : Z) : option Z :=
  a ← znth m k; b ← znth m (k + 1); c ← znth m (k + 2); d ← znth m (k + 3);
  Some (a + 256 * b + 65536 * c + 16777216 * d).
Definition ntohl (v : Z) : Z :=
  16777216 * (v mod 256) + 65536 * (v / 256 mod 256) + 256 * (v / 65536 mod 256) + v / 16777216 mod 256.

Record MnistImageFile : Type := {
  mapping : list Z; sizes : list (option Z); map_len : Z; dataOffset : Z; elementSize : Z }.

(** The switch over the type of the elements. *)
Definition type_size (dtype : Z) : Z :=
  if decide (dtype = 8 \/ dtype = 9) then 1
  else if decide (dtype = 0xb) then 2
  else if decide (dtype = 0xc) then 4
  else if decide (dtype = 0xe) then 8
  else 0.

(** The loop over the dimensions. *)
Fixpoint sizes_loop (n : nat) (i : Z) (m : list Z) (sz : list (option Z)) (size : Z) : option (list (option Z) * Z) :=
  match n with
  | O => Some (sz, size)
  | S n =>
      v ← int_at m (4 + 4 * i);
      let v := s32 (ntohl v) in
      sz ← zupd sz i (Some v);
      sizes_loop n (i + 1) m sz (s32 (size * v))
  end.

Section Reader.
(** [cv::alignSize], and whether [char] is signed. *)
Variable alignSize : Z -> Z -> Z.
Variable char_signed : bool.

(** [file] is [None] when it cannot be opened: the failed mapping is read. *)
Definition mnist_open (file : option (list Z)) : option MnistImageFile :=
  file ← file;
  let m := mapped file 4096 in
  magic ← int_at m 0;
  dtype ← char_value char_signed <$> znth m 2;
  dims ← char_value char_signed <$> znth m 3;
  '(sz, size) ← sizes_loop (Z.to_nat dims) 0 m [None; None; None] (type_size dtype);
  let off := 4 + dims * 4 in
  n ← mjoin (znth sz 0);
  if decide (n = 0) then None
  else
    let len := s32 (alignSize (u64 (s32 (size + off))) 4096) in
    Some {| mapping := mapped file len; sizes := sz; map_len := len; dataOffset := off;
            elementSize := s32 (Z.quot size n) |}.
End Reader.

Definition numEntries (f : MnistImageFile) : option Z := mjoin (znth (sizes f) 0).
Definition rows (f : MnistImageFile) : option Z := mjoin (znth (sizes f) 1).
Definition cols (f : MnistImageFile) : option Z := mjoin (znth (sizes f) 2).

(** The loops of [mat]: the pixels of a row, the rows. *)
Fixpoint row_loop (n : nat) (m : list Z) (p : Z) : option (list Z) :=
  match n with
  | O => Some []
  | S n => v ← znth m p; l ← row_loop n m (p + 1); Some (v :: l)
  end.
Fixpoint mat_loop (n : nat) (m : list Z) (data i c : Z) : option (list (list Z)) :=
  match n with
  | O => Some []
  | S n => r ← row_loop (Z.to_nat c) m (data + s32 (i * c)); l ← mat_loop n m data (i + 1) c; Some (r :: l)
  end.
Definition mat (f : MnistImageFile) (i : Z) : option (list (list Z)) :=
  let data := dataOffset f + s32 (elementSize f * i) in
  r ← rows f; c ← cols f;
  mat_loop (Z.to_nat r) (mapping f) data 0 c.

(** * The files *)

Definition be32 (v : Z) : list Z := [v / 16777216 mod 256; v / 65536 mod 256; v / 256 mod 256; v mod 256].
Definition header (dtype : Z) (dims : list Z) : list Z :=
  [0; 0; dtype; Z.of_nat (length dims)] ++ concat (be32 <$> dims).
(** A file of images of [r] rows and [c] columns of bytes. *)
Definition image_file (dtype r c : Z) (images : list (list (list Z))) : list Z :=
  header dtype [Z.of_nat (length images); r; c] ++ concat (@concat Z <$> images).
Definition image_ok (r c : Z) (img : list (list Z)) : Prop :=
  Z.of_nat (length img) = r /\ Forall (fun row => Z.of_nat (length row) = c) img.

(** What is documented of [alignSize]. *)
Definition aligns (alignSize : Z -> Z -> Z) : Prop :=
  forall s, 0 <= s -> s <= alignSize s 4096 < s + 4096.

(** * Reading back *)

Lemma znth_app_r (l k : list Z) i : Z.of_nat (length l) <= i -> znth (l ++ k) i = znth k (i - Z.of_nat (length l)).
Proof.
  intros H. unfold znth. rewrite !decide_True by lia. rewrite lookup_app_r by lia. f_equal. lia.
Qed.

Lemma znth_take (l : list Z) n i : i < Z.of_nat n -> znth (take n l) i = znth l i.
Proof. intros H. unfold znth. case_decide; [|done]. apply lookup_take_lt. lia. Qed.

Lemma mapped_app file k len : (length file <= Z.to_nat len)%nat ->
  exists tail, mapped (file ++ k) len = file ++ tail.
Proof.
  intros H. unfold mapped. rewrite <- app_assoc, take_app_ge by done. eauto.
Qed.

Lemma ntohl_bytes a b c d : 0 <= a < 256 -> 0 <= b < 256 -> 0 <= c < 256 -> 0 <= d < 256 ->
  ntohl (a + 256 * b + 65536 * c + 16777216 * d) = 16777216 * a + 65536 * b + 256 * c + d.
Proof.
  intros Ha Hb Hc Hd. unfold ntohl. set (w := a + _ + _ + _).
  rewrite <- (Z.mod_unique_pos w 256 (b + 256 * c + 65536 * d) a) by lia.
  rewrite <- (Z.div_unique_pos w 256 (b + 256 * c + 65536 * d) a) by lia.
  rewrite <- (Z.mod_unique_pos (b + 256 * c + 65536 * d) 256 (c + 256 * d) b) by lia.
  rewrite <- (Z.div_unique_pos w 65536 (c + 256 * d) (a + 256 * b)) by lia.
  rewrite <- (Z.mod_unique_pos (c + 256 * d) 256 d c) by lia.
  rewrite <- (Z.div_unique_pos w 16777216 d (a + 256 * b + 65536 * c)) by lia.
  rewrite (Z.mod_small d) by lia. lia.
Qed.

Lemma be32_value v : 0 <= v < 4294967296 ->
  16777216 * (v / 16777216 mod 256) + 65536 * (v / 65536 mod 256) + 256 * (v / 256 mod 256) + v mod 256 = v.
Proof.
  intros Hv. change 16777216 with (256 * (256 * 256)) at 2. change 65536 with (256 * 256) at 2.
  rewrite <- !Z.div_div by lia.
  pose proof (Z.div_mod v 256 ltac:(lia)). pose proof (Z.div_mod (v / 256) 256 ltac:(lia)).
  pose proof (Z.div_mod (v / 256 / 256) 256 ltac:(lia)).
  assert (v / 256 / 256 / 256 < 256) by (apply Z.div_lt_upper_bound; [lia|]; apply Z.div_lt_upper_bound; [lia|]; apply Z.div_lt_upper_bound; lia).
  rewrite (Z.mod_small (v / 256 / 256 / 256)) by (split; [repeat (apply Z.div_pos; [|lia]); lia|done]). lia.
Qed.

Lemma int_at_be32 v (l k : list Z) i : 0 <= v < 2147483648 -> i = Z.of_nat (length l) ->
  exists w, int_at (l ++ be32 v ++ k) i = Some w /\ s32 (ntohl w) = v.
Proof.
  intros Hv ->. unfold int_at. set (n := Z.of_nat (length l)).
  rewrite (znth_app_r l _ n), (znth_app_r l _ (n + 1)), (znth_app_r l _ (n + 2)), (znth_app_r l _ (n + 3)) by lia.
  fold n. replace (n - n) with 0 by lia. replace (n + 1 - n) with 1 by lia.
  replace (n + 2 - n) with 2 by lia. replace (n + 3 - n) with 3 by lia.
  exists (v / 16777216 mod 256 + 256 * (v / 65536 mod 256) + 65536 * (v / 256 mod 256) + 16777216 * (v mod 256)).
  split; [reflexivity|]. rewrite ntohl_bytes, be32_value by (lia || (apply Z.mod_pos_bound; lia)). apply s32_small. lia.
Qed.

(** The sizes of a header, whatever follows. *)
Lemma sizes_loop_header dims : Forall (fun v => 0 <= v < 2147483648) dims -> forall pre k i sz size m,
  m = pre ++ concat (be32 <$> dims) ++ k -> Z.of_nat (length pre) = 4 + 4 * i -> 0 <= i ->
  i + Z.of_nat (length dims) <= Z.of_nat (length sz) ->
  sizes_loop (length dims) i m sz size =
    Some (take (Z.to_nat i) sz ++ (Some <$> dims) ++ drop (Z.to_nat i + length dims) sz,
          foldl (fun s v => s32 (s * v)) size dims).
Proof.
  induction 1 as [|v dims Hv Hd IH]; intros pre k i sz size m -> Hp Hi Hs; cbn [length sizes_loop fmap list_fmap foldl].
  - rewrite Nat.add_0_r. cbn. by rewrite take_drop.
  - cbn [concat]. rewrite <- app_assoc.
    destruct (int_at_be32 v pre (concat (be32 <$> dims) ++ k) (4 + 4 * i)) as (w & E & Ew); [done|lia|].
    rewrite E. cbn [mbind option_bind]. rewrite Ew, zupd_Some by (cbn [length] in Hs; lia). cbn [mbind option_bind].
    cbn [length] in Hs. rewrite (IH (pre ++ be32 v) k); [|by rewrite <- app_assoc|rewrite length_app; cbn; lia|lia|rewrite length_insert; lia].
    f_equal. f_equal. replace (Z.to_nat (i + 1)) with (S (Z.to_nat i)) by lia.
    rewrite (take_S_r _ _ (Some v)) by (apply list_lookup_insert_eq; lia).
    rewrite take_insert_ge by lia. rewrite <- app_assoc. cbn [app]. do 3 f_equal.
    rewrite drop_insert_lt by lia. f_equal. lia.
Qed.

(** The loops of [mat] over an image in the mapping. *)
Lemma row_loop_app (row : list Z) : forall pre k p, p = Z.of_nat (length pre) ->
  row_loop (length row) (pre ++ row ++ k) p = Some row.
Proof.
  induction row as [|v row IH]; intros pre k p ->; cbn [length row_loop]; [done|].
  rewrite znth_app_r, Z.sub_diag by lia. cbn [mbind option_bind].
  replace (pre ++ (v :: row) ++ k) with ((pre ++ [v]) ++ row ++ k) by (by rewrite <- app_assoc).
  rewrite (IH (pre ++ [v]) k) by (rewrite length_app; cbn; lia). done.
Qed.

Lemma mat_loop_app c (img : list (list Z)) : 0 <= c -> Forall (fun row => Z.of_nat (length row) = c) img ->
  forall pre k data i, Z.of_nat (length pre) = data + i * c -> 0 <= i -> (i + Z.of_nat (length img)) * c < 2147483648 ->
  mat_loop (length img) (pre ++ concat img ++ k) data i c = Some img.
Proof.
  intros Hc. induction 1 as [|row img Hr Hi IH]; intros pre k data i Hp H0 Hb; cbn [length mat_loop]; [done|].
  cbn [length] in Hb. rewrite s32_small by nia. cbn [concat]. rewrite <- (app_assoc row).
  replace (Z.to_nat c) with (length row) by lia.
  rewrite row_loop_app by lia. cbn [mbind option_bind].
  rewrite (app_assoc pre row). rewrite IH; [done|rewrite length_app; nia|lia|nia].
Qed.

Lemma image_length r c img : image_ok r c img -> Z.of_nat (length (concat img)) = r * c.
Proof.
  intros [<- Hrow]. induction Hrow as [|row img E Hrow IH]; [done|]. cbn [concat length]. rewrite length_app. lia.
Qed.

Lemma images_split r c (images : list (list (list Z))) i img :
  Forall (image_ok r c) images -> images !! i = Some img -> 0 <= c ->
  exists pre post, concat (@concat Z <$> images) = pre ++ concat img ++ post /\
    Z.of_nat (length pre) = Z.of_nat i * (r * c).
Proof.
  intros Hi Hl Hc. revert i Hl. induction Hi as [|im images Him%image_length Hi IH]; intros i Hl; [done|].
  destruct i as [|i]; cbn in Hl.
  - injection Hl as ->. exists [], (concat (@concat Z <$> images)). split; [done|]. done.
  - destruct (IH i Hl) as (pre & post & E & L). exists (concat im ++ pre), post. cbn [fmap list_fmap concat].
    rewrite E, app_assoc. split; [done|]. rewrite length_app. lia.
Qed.

Lemma sizes_loop_overrun n : forall i m (sz : list (option Z)) size, length sz = 3%nat -> 0 <= i <= 3 ->
  3 < i + Z.of_nat n -> sizes_loop n i m sz size = None.
Proof.
  induction n as [|n IH]; intros i m sz size Hs Hi Hn; [lia|]. cbn [sizes_loop].
  destruct (int_at m (4 + 4 * i)) as [v|]; [|done]. cbn [mbind option_bind]. unfold zupd. rewrite Hs.
  case_decide; [|done]. cbn [mbind option_bind]. apply IH; [by rewrite length_insert|lia|lia].
Qed.

Section Files.
Variables (alignSize : Z -> Z -> Z) (char_signed : bool).
Hypothesis Halign : aligns alignSize.

Lemma open_images dtype r c images : dtype = 8 \/ dtype = 9 -> images <> [] -> 0 < r -> 0 < c ->
  16 + Z.of_nat (length images) * (r * c) < 2147483648 - 4096 ->
  exists len, 16 + Z.of_nat (length images) * (r * c) <= len /\
    mnist_open alignSize char_signed (Some (image_file dtype r c images)) =
    Some {| mapping := mapped (image_file dtype r c images) len;
            sizes := [Some (Z.of_nat (length images)); Some r; Some c]; map_len := len; dataOffset := 16;
            elementSize := r * c |}.
Proof.
  intros Hd Hn Hr Hc Hb. set (n := Z.of_nat (length images)) in *.
  assert (Hn0 : 0 < n) by (destruct images; [done|cbn in n; lia]).
  assert (Hbig : n <= n * (r * c) /\ r <= n * (r * c) /\ c <= n * (r * c) /\ n * r <= n * (r * c)).
  { assert (r <= r * c) by nia. assert (c <= r * c) by nia. assert (r * c <= n * (r * c)) by nia.
    assert (n * 1 <= n * (r * c)) by (apply Z.mul_le_mono_nonneg_l; lia).
    assert (n * r <= n * (r * c)) by (apply Z.mul_le_mono_nonneg_l; lia). lia. }
  set (file := image_file dtype r c images).
  destruct (mapped_app (header dtype [n; r; c]) (concat (@concat Z <$> images)) 4096) as [tail E]; [cbn; lia|].
  unfold mnist_open. cbn [mbind option_bind]. fold file in E. unfold image_file in file. fold n in file.
  change (mapped file 4096 = header dtype [n; r; c] ++ tail) in E. rewrite E.
  set (m := header dtype [n; r; c] ++ tail).
  assert (Em : exists w, int_at m 0 = Some w) by (eexists; reflexivity). destruct Em as [w ->].
  change (znth m 2) with (Some dtype). change (znth m 3) with (Some 3). cbn [mbind option_bind fmap option_fmap option_map].
  replace (char_value char_signed dtype) with dtype by (destruct Hd as [-> | ->]; by destruct char_signed).
  replace (char_value char_signed 3) with 3 by (by destruct char_signed).
  replace (type_size dtype) with 1 by (unfold type_size; by rewrite decide_True).
  change (Z.to_nat 3) with (length [n; r; c]).
  rewrite (sizes_loop_header [n; r; c] ltac:(repeat constructor; lia) [0; 0; dtype; 3] tail) by (done || lia).
  change (take (Z.to_nat 0) [None; None; None] ++ (Some <$> [n; r; c]) ++
    drop (Z.to_nat 0 + length [n; r; c]) [None; None; None]) with [Some n; Some r; Some c].
  cbn [mbind option_bind foldl].
  change (mjoin (znth [Some n; Some r; Some c] 0)) with (Some n). cbn [mbind option_bind].
  rewrite decide_False by lia.
  rewrite (s32_small (1 * n)), (s32_small (1 * n * r)), (s32_small (1 * n * r * c)) by lia.
  replace (1 * n * r * c) with (n * (r * c)) by lia. replace (4 + 3 * 4) with 16 by lia.
  rewrite (s32_small (n * (r * c) + 16)) by lia.
  rewrite u64_small by lia. destruct (Halign (n * (r * c) + 16) ltac:(lia)) as [H1 H2].
  rewrite (s32_small (alignSize _ _)) by lia.
  replace (Z.quot (n * (r * c)) n) with (r * c) by (by rewrite (Z.mul_comm n (r * c)), Z.quot_mul by lia).
  rewrite (s32_small (r * c)) by nia.
  exists (alignSize (n * (r * c) + 16) 4096). split; [lia|done].
Qed.

(** an image file is read back as it was written: the reader finds the
    number of images and their rows and columns, and [mat] returns the pixels of
    every image, without an access outside the mapping, for every file whose
    size an [int] counts.  A header with more than three dimensions overruns the
    array of sizes, and one without images divides by zero. *)
Theorem mnist_roundtrip dtype r c images : dtype = 8 \/ dtype = 9 -> images <> [] -> 0 < r -> 0 < c ->
  Forall (image_ok r c) images -> 16 + Z.of_nat (length images) * (r * c) < 2 ^ 31 - 4096 ->
  (exists f, mnist_open alignSize char_signed (Some (image_file dtype r c images)) = Some f /\
     numEntries f = Some (Z.of_nat (length images)) /\ rows f = Some r /\ cols f = Some c /\
     forall i img, images !! i = Some img -> mat f (Z.of_nat i) = Some img) /\
  (forall dims data, (3 < length dims < 128)%nat -> mnist_open alignSize char_signed (Some (header dtype dims ++ data)) = None) /\
  mnist_open alignSize char_signed (Some (image_file dtype r c [])) = None.
Proof.
  intros Hd Hn Hr Hc Hi Hb. split; [|split].
  - destruct (open_images dtype r c images Hd Hn Hr Hc Hb) as (len & Hlen & E). eexists. split; [exact E|].
    do 3 (split; [done|]). intros i img Hl. pose proof (lookup_lt_Some _ _ _ Hl) as Hil.
    pose proof (Forall_lookup_1 _ _ _ _ Hi Hl) as Him. pose proof (image_length r c img Him) as Limg. destruct Him as [H1 H2].
    destruct (images_split r c images i img Hi Hl ltac:(lia)) as (pre & post & Ep & Lp).
    assert (Hrc : Z.of_nat i * (r * c) + r * c <= Z.of_nat (length images) * (r * c)) by nia.
    unfold mat, rows, cols. cbn [mapping dataOffset elementSize sizes].
    unfold image_file. rewrite Ep.
    destruct (mapped_app (header dtype [Z.of_nat (length images); r; c] ++ pre ++ concat img) post len) as [tail Em].
    { rewrite !length_app. change (length (header _ _)) with 16%nat. lia. }
    rewrite <- !app_assoc in Em. rewrite Em.
    change (znth [Some (Z.of_nat (length images)); Some r; Some c] 1) with (Some (Some r)).
    change (znth [Some (Z.of_nat (length images)); Some r; Some c] 2) with (Some (Some c)). cbn [mjoin option_join mbind option_bind].
    rewrite s32_small by nia. rewrite app_assoc. replace (Z.to_nat r) with (length img) by lia.
    apply mat_loop_app; [lia|done| |lia|nia]. rewrite length_app. change (length (header _ _)) with 16%nat. nia.
  - intros dims data Hl.
    destruct (mapped_app [0; 0; dtype; Z.of_nat (length dims)] (concat (be32 <$> dims) ++ data) 4096) as [tail Em]; [cbn; lia|].
    unfold mnist_open. cbn [mbind option_bind]. unfold header. rewrite <- app_assoc. rewrite Em.
    set (m := _ ++ tail). assert (E0 : exists w, int_at m 0 = Some w) by (eexists; reflexivity). destruct E0 as [w ->].
    change (znth m 2) with (Some dtype). change (znth m 3) with (Some (Z.of_nat (length dims))).
    cbn [mbind option_bind fmap option_fmap option_map].
    rewrite (char_value_small char_signed (Z.of_nat (length dims))) by lia.
    rewrite sizes_loop_overrun by (done || lia). done.
  - destruct (mapped_app (header dtype [0; r; c]) [] 4096) as [tail E]; [cbn; lia|].
    unfold mnist_open. cbn [mbind option_bind]. change (image_file dtype r c []) with (header dtype [0; r; c] ++ []).
    rewrite E. set (m := header dtype [0; r; c] ++ tail).
    assert (E0 : exists w, int_at m 0 = Some w) by (eexists; reflexivity). destruct E0 as [w ->].
    change (znth m 2) with (Some dtype). change (znth m 3) with (Some 3). cbn [mbind option_bind fmap option_fmap option_map].
    rewrite (char_value_small char_signed 3) by lia. change (Z.to_nat 3) with (length [0; r; c]).
    assert (1 <= Z.of_nat (length images)) by (destruct images; [done|cbn; lia]).
    rewrite (sizes_loop_header [0; r; c] ltac:(repeat constructor; nia) [0; 0; dtype; 3] tail) by (done || lia).
    done.
Qed.
End Files.

(** * Witness *)

Definition align_up (s n : Z) : Z := (s + n - 1) / n * n.
Definition two_images : list (list (list Z)) := [[[1; 2; 3]; [4; 5; 6]]; [[7; 8; 9]; [10; 11; 255]]].

Lemma align_up_aligns : aligns align_up.
Proof. intros s Hs. unfold align_up. zlia. Qed.

Lemma mnist_roundtrip_witness : exists f,
  mnist_open align_up true (Some (image_file 8 2 3 two_images)) = Some f /\ mat f 1 = Some [[7; 8; 9]; [10; 11; 255]].
Proof.
  destruct (mnist_roundtrip align_up true align_up_aligns 8 2 3 two_images) as [(f & E & _ & _ & _ & Hm) _];
    [by left|done|done|done|repeat constructor|reflexivity|].
  exists f. split; [exact E|]. apply (Hm 1%nat). reflexivity.
Defined.

(** A file of labels has one dimension: its rows were never set. *)
Lemma labels_have_no_rows : exists f,
  mnist_open align_up true (Some (header 8 [2] ++ [5; 7])) = Some f /\ numEntries f = Some 2 /\ rows f = None.
Proof. eexists. split; [vm_compute; reflexivity|]. split; reflexivity. Qed.
