(* ===== verification/MemTests.v ===== *)
(** The tests of memory transfers: [examples/nandsim/testnandsim.cpp],
    [examples/memread/testmemread.h] and [examples/memwrite/testmemwrite.h].

    A test passes over a buffer of words and an engine of the hardware, which is
    a class of operations without laws: the theorems say what a test reports for
    every engine, and the laws of a working engine are classes of their own.
    [None] is an access outside a buffer or a loop that does not end. *)

From stdpp Require Import base list option.
From Stdlib Require Import ZArith Lia.
From S2P Require Import Prelude.
#[local] Open Scope list_scope.
#[local] Open Scope Z_scope.

(** [for (i = 0; i < n; i++) buf[i] = f(i)]. *)
Fixpoint fill_loop (n : nat) (i : Z) (f : Z -> Z) (buf : list Z) : option (list Z) :=
  match n with
  | O => Some buf
  | S n => buf ← zupd buf i (f i); fill_loop n (i + 1) f buf
  end.

(** * The NAND simulator *)

(** Writes a buffer to an offset in bytes; reads from an offset into a buffer. *)
Class Nand (D : Type) : Type := {
  nand_write : list Z -> Z -> D -> D;
  nand_read : Z -> list Z -> D -> list Z * D
}.

(** The comparison of a buffer that was read: the counts of words that match and
    that do not.  A word is extended to the width of [loop]. *)
Fixpoint compare_loop (n : nat) (i loop : Z) (buf : list Z) (ok bad : Z) : option (Z * Z) :=
  match n with
  | O => Some (ok, bad)
  | S n =>
      v ← znth buf i;
      if decide (v <> loop + i) then compare_loop n (i + 1) loop buf ok (bad + 1)
      else compare_loop n (i + 1) loop buf (ok + 1) bad
  end.

Section NandTest.
Context {D : Type} `{!Nand D}.
Variables nandBytes srcBytes : Z.

Fixpoint write_phase (fuel : nat) (loop : Z) (buf : list Z) (d : D) : option (list Z * D) :=
  if decide (loop < nandBytes) then
    match fuel with
    | O => None
    | S fuel =>
        buf ← fill_loop (Z.to_nat (srcBytes / 4)) 0 (fun i => u32 (loop + i)) buf;
        write_phase fuel (loop + srcBytes) buf (nand_write buf loop d)
    end
  else Some (buf, d).

Fixpoint read_phase (fuel : nat) (loop : Z) (buf : list Z) (d : D) (ok bad : Z) : option (Z * Z) :=
  if decide (loop < nandBytes) then
    match fuel with
    | O => None
    | S fuel =>
        buf ← fill_loop (Z.to_nat (srcBytes / 4)) 0 (fun _ => 5) buf;
        let '(buf, d) := nand_read loop buf d in
        '(ok, bad) ← compare_loop (Z.to_nat (srcBytes / 4)) 0 loop buf ok bad;
        read_phase fuel (loop + srcBytes) buf d ok bad
    end
  else Some (ok, bad).
End NandTest.

(** [main] without arguments: the buffer is a quarter of the flash, so that each
    phase takes four turns.  The result is the counts and the exit code. *)
Definition nand_test {D} `{!Nand D} (nandBytes : Z) (buf : list Z) (d : D) : option (Z * Z * Z) :=
  let srcBytes := Z.shiftr nandBytes 2 in
  '(buf, d) ← write_phase nandBytes srcBytes 5 0 buf d;
  '(ok, bad) ← read_phase nandBytes srcBytes 5 0 buf d 0 0;
  Some (ok, bad, if decide (bad > 0) then 1 else 0).

(** * Memory reads *)

(** The engine reads a buffer [iterCnt] times and reports the number of words
    that are not their own index. *)
Class Reader (D : Type) : Type := startRead : list Z -> Z -> Z -> Z -> D -> Z * D.

(** [runtest] with [orig_test]: the result is the number of failed tests. *)
Definition memread_test {D} `{!Reader D} (numWords burstLen iterCnt : Z) (buf : list Z) (d : D) : option Z :=
  buf ← fill_loop (Z.to_nat numWords) 0 (fun i => i) buf;
  let '(v, d) := startRead buf numWords burstLen iterCnt d in
  let mismatchCount := s32 v in
  let test_result := if decide (mismatchCount <> 0) then 1 else 0 in
  buf ← zupd buf 0 (u32 (-1));
  buf ← zupd buf (Z.quot numWords 2) (u32 (-1));
  buf ← zupd buf (numWords - 1) (u32 (-1));
  let '(v, d) := startRead buf numWords burstLen iterCnt d in
  let mismatchCount := s32 (mismatchCount + v) in
  Some (if decide (mismatchCount <> s32 (3 * iterCnt)) then test_result + 1 else test_result).

(** * Memory writes *)

(** The comparison of [child], and its exit code once it has the buffer. *)
Fixpoint child_loop (n : nat) (i sg : Z) (buf : list Z) (mismatch : bool) : option bool :=
  match n with
  | O => Some mismatch
  | S n => v ← znth buf i; child_loop n (i + 1) (u32 (sg + 1)) buf (mismatch || bool_decide (v <> sg))
  end.
Definition child (numWords : Z) (buf : list Z) : option Z :=
  m ← child_loop (Z.to_nat numWords) 0 0 buf false;
  Some (if (m : bool) then 1 else 0).

(** What [waitpid] stores for a process that called [exit], and the exit status
    that a call of [exit] leaves. *)
Definition wait_status (code : Z) : Z := Z.shiftl (Z.land code 0xff) 8.
Definition exit_status (code : Z) : Z := Z.land code 0xff.
(** The end of [main] in the parent: [exit(status)]. *)
Definition memwrite_exit (child_code : Z) : Z := exit_status (wait_status child_code).

(** * Facts about the loops *)

Lemma fill_loop_spec f n : forall i done rest, Z.of_nat (length done) = i -> length rest = n ->
  fill_loop n i f (done ++ rest) = Some (done ++ (f <$> seqZ i (Z.of_nat n))).
Proof.
  induction n as [|n IH]; intros i done rest Hd Hr; cbn [fill_loop].
  - destruct rest; [|done]. done.
  - destruct rest as [|x rest]; [done|]. cbn [length] in Hr.
    rewrite zupd_Some by (rewrite length_app; cbn; lia). cbn [mbind option_bind].
    replace (Z.to_nat i) with (length done + 0)%nat by lia. rewrite insert_app_r. cbn [list_insert insert].
    rewrite (seqZ_cons i) by lia. cbn [fmap list_fmap].
    replace (done ++ f i :: rest) with ((done ++ [f i]) ++ rest) by (by rewrite <- app_assoc).
    rewrite (IH (i + 1)) by (rewrite ?length_app; cbn; lia). rewrite <- app_assoc. cbn [app].
    do 4 f_equal. f_equal; lia.
Qed.

Lemma fill_loop_full f n (buf : list Z) : length buf = n -> fill_loop n 0 f buf = Some (f <$> seqZ 0 (Z.of_nat n)).
Proof. intros H. apply (fill_loop_spec f n 0 [] buf); [done|done]. Qed.

(** The number of words of a buffer that are not the numbers from [k] on. *)
Fixpoint differ (k : Z) (l : list Z) : Z :=
  match l with [] => 0 | x :: l => (if decide (x = k) then 0 else 1) + differ (k + 1) l end.

Lemma differ_bounds l : forall k, 0 <= differ k l <= Z.of_nat (length l).
Proof. induction l as [|x l IH]; intros k; cbn [differ length]; [lia|]. specialize (IH (k + 1)). case_decide; lia. Qed.

Lemma differ_0 l : forall k, differ k l = 0 <-> l = seqZ k (Z.of_nat (length l)).
Proof.
  induction l as [|x l IH]; intros k; cbn [differ length]; [done|].
  rewrite (seqZ_cons k) by lia. pose proof (differ_bounds l (k + 1)). specialize (IH (k + 1)).
  replace (Z.pred (Z.of_nat (S (length l)))) with (Z.of_nat (length l)) by lia. rewrite <- Z.add_1_r.
  case_decide; [subst; rewrite Z.add_0_l, IH; split; congruence|]. split; [lia|congruence].
Qed.

Lemma compare_loop_spec loop n : forall i done rest ok bad, Z.of_nat (length done) = i -> length rest = n ->
  compare_loop n i loop (done ++ rest) ok bad =
    Some (ok + (Z.of_nat n - differ (loop + i) rest), bad + differ (loop + i) rest).
Proof.
  induction n as [|n IH]; intros i done rest ok bad Hd Hr; cbn [compare_loop].
  - destruct rest; [|done]. cbn. do 2 f_equal; lia.
  - destruct rest as [|x rest]; [done|]. cbn [length] in Hr.
    assert (E : znth (done ++ x :: rest) i = Some x).
    { unfold znth. rewrite decide_True by lia. by rewrite list_lookup_middle by lia. }
    rewrite E. cbn [mbind option_bind differ].
    replace (done ++ x :: rest) with ((done ++ [x]) ++ rest) by (by rewrite <- app_assoc).
    assert (Hd' : Z.of_nat (length (done ++ [x])) = i + 1) by (rewrite length_app; cbn; lia).
    destruct (decide (x = loop + i)).
    + rewrite decide_False by tauto. rewrite IH by (done || lia). rewrite Z.add_assoc. do 2 f_equal; lia.
    + rewrite decide_True by done. rewrite IH by (done || lia). rewrite Z.add_assoc. do 2 f_equal; lia.
Qed.

(** * The flash test *)

Section NandVerdict.
Context {D : Type} `{!Nand D}.
Variable w : Z.   (* the words of the buffer *)
Hypothesis Hw : 0 < w.
Hypothesis Hbig : 16 * w < 2 ^ 32.

Definition pattern (loop : Z) : list Z := (fun i => u32 (loop + i)) <$> seqZ 0 w.
Definition chunks : list Z := [0; 4 * w; 8 * w; 12 * w].
Definition written (l : list Z) (d : D) : D := foldl (fun d o => nand_write (pattern o) o d) d l.
Fixpoint readback (l : list Z) (d : D) : list (list Z) :=
  match l with
  | [] => []
  | o :: l => let '(b, d) := nand_read o (replicate (Z.to_nat w) 5) d in b :: readback l d
  end.
Definition wrong (l : list Z) (bs : list (list Z)) : Z := foldr (fun p n => differ (fst p) (snd p) + n) 0 (zip l bs).

(** A flash that works: a word that was written is read, others stay. *)
Record nand_works (content : D -> Z -> Z) : Prop := {
  nw_write : forall buf o d (j : nat) v, buf !! j = Some v -> content (nand_write buf o d) (o + 4 * Z.of_nat j) = v;
  nw_other : forall buf o d a, a < o \/ o + 4 * Z.of_nat (length buf) <= a -> content (nand_write buf o d) a = content d a;
  nw_read : forall o b d, fst (nand_read o b d) = (fun i => content d (o + 4 * i)) <$> seqZ 0 (Z.of_nat (length b));
  nw_read_keeps : forall o b d a, content (snd (nand_read o b d)) a = content d a }.

Lemma pattern_seq o : 0 <= o -> o + w < 2 ^ 32 -> pattern o = seqZ o w.
Proof.
  intros Ho Hm. unfold pattern. apply list_eq. intros k. rewrite list_lookup_fmap.
  destruct (decide (Z.of_nat k < w)).
  - rewrite !(proj2 (lookup_seqZ _ _ _ _)) with (1 := conj eq_refl l). cbn. f_equal. apply u32_small. lia.
  - rewrite !lookup_seqZ_ge by lia. done.
Qed.

Lemma length_pattern o : Z.of_nat (length (pattern o)) = w.
Proof. unfold pattern. rewrite length_fmap, length_seqZ. lia. Qed.

Lemma words_of : Z.to_nat (4 * w / 4) = Z.to_nat w.
Proof. f_equal. rewrite Z.mul_comm. apply Z.div_mul. lia. Qed.

Lemma write_turn fuel loop buf d : loop < 16 * w -> Z.of_nat (length buf) = w ->
  write_phase (16 * w) (4 * w) (S fuel) loop buf d =
  write_phase (16 * w) (4 * w) fuel (loop + 4 * w) (pattern loop) (nand_write (pattern loop) loop d).
Proof.
  intros Hl Hb. cbn [write_phase]. rewrite decide_True by done. rewrite words_of.
  rewrite fill_loop_full by lia. cbn [mbind option_bind]. rewrite Z2Nat.id by lia. done.
Qed.

Lemma write_phase_all buf d : Z.of_nat (length buf) = w ->
  write_phase (16 * w) (4 * w) 5 0 buf d = Some (pattern (12 * w), written chunks d).
Proof.
  intros Hb. rewrite !write_turn by (rewrite ?length_pattern; lia). cbn [write_phase].
  rewrite decide_False by lia. do 2 f_equal; [f_equal; lia|]. unfold written, chunks. cbn [foldl].
  replace (0 + 4 * w) with (4 * w) by lia. replace (4 * w + 4 * w) with (8 * w) by lia.
  replace (8 * w + 4 * w) with (12 * w) by lia. done.
Qed.

Section Shape.
Hypothesis Hshape : forall o b d, length (fst (nand_read (D := D) o b d)) = length b.

Lemma read_turn fuel loop buf d ok bad : loop < 16 * w -> Z.of_nat (length buf) = w ->
  let r := nand_read loop (replicate (Z.to_nat w) 5) d in
  Z.of_nat (length (fst r)) = w /\
  read_phase (16 * w) (4 * w) (S fuel) loop buf d ok bad =
  read_phase (16 * w) (4 * w) fuel (loop + 4 * w) (fst r) (snd r) (ok + (w - differ loop (fst r))) (bad + differ loop (fst r)).
Proof.
  intros Hl Hb r. assert (Hr : Z.of_nat (length (fst r)) = w) by (unfold r; rewrite Hshape, length_replicate; lia).
  split; [done|]. cbn [read_phase]. rewrite decide_True by done. rewrite words_of.
  rewrite fill_loop_full by lia. cbn [mbind option_bind].
  replace ((fun _ => 5) <$> seqZ 0 (Z.of_nat (Z.to_nat w))) with (replicate (Z.to_nat w) 5).
  2: { apply replicate_as_elem_of. split; [rewrite length_fmap, length_seqZ; lia|]. intros x Hx. apply list_elem_of_fmap in Hx as (? & -> & _). done. }
  fold r. destruct r as [b d']. cbn [fst snd] in Hr |- *.
  pose proof (compare_loop_spec loop (Z.to_nat w) 0 [] b ok bad eq_refl ltac:(lia)) as Ec. cbn [app] in Ec. rewrite Ec.
  cbn [mbind option_bind]. rewrite Z.add_0_r, Z2Nat.id by lia. done.
Qed.

Lemma read_phase_all l : forall fuel loop buf d ok bad, (length l <= fuel)%nat -> Z.of_nat (length buf) = w ->
  (forall k o, l !! k = Some o -> o = loop + 4 * w * Z.of_nat k) -> loop + 4 * w * Z.of_nat (length l) = 16 * w ->
  read_phase (16 * w) (4 * w) fuel loop buf d ok bad =
    Some (ok + (w * Z.of_nat (length l) - wrong l (readback l d)), bad + wrong l (readback l d)).
Proof.
  induction l as [|o l IH]; intros fuel loop buf d ok bad Hf Hb Hl Hend.
  - cbn [length] in Hend. destruct fuel; cbn [read_phase]; rewrite decide_False by lia; unfold wrong; cbn; do 2 f_equal; lia.
  - destruct fuel as [|fuel]; [cbn in Hf; lia|]. pose proof (Hl 0%nat o eq_refl) as ->. cbn [length] in *.
    replace (loop + 4 * w * Z.of_nat 0) with loop in * by lia.
    destruct (read_turn fuel loop buf d ok bad) as [Hr E]; [nia|done|]. rewrite E. cbn [readback].
    destruct (nand_read loop (replicate (Z.to_nat w) 5) d) as [b d']. cbn [fst snd] in *.
    rewrite IH; [|lia|done| |lia].
    + unfold wrong. cbn [zip zip_with foldr fst snd]. do 2 f_equal; lia.
    + intros k o Hk. rewrite (Hl (S k) o Hk). lia.
Qed.

Lemma readback_lengths l : forall d, Forall (fun b => Z.of_nat (length b) = w) (readback l d) /\ length (readback l d) = length l.
Proof.
  induction l as [|o l IH]; intros d; cbn [readback]; [split; [constructor|done]|].
  pose proof (Hshape o (replicate (Z.to_nat w) 5) d) as H.
  destruct (nand_read o (replicate (Z.to_nat w) 5) d) as [b d']. cbn [fst] in H. rewrite length_replicate in H.
  destruct (IH d') as [H1 H2]. split; [constructor; [lia|done]|cbn; lia].
Qed.

Lemma wrong_nonneg l bs : 0 <= wrong l bs.
Proof.
  unfold wrong. induction (zip l bs) as [|p ps IH]; cbn [foldr]; [lia|]. pose proof (differ_bounds (snd p) (fst p)). lia.
Qed.

Lemma wrong_0 l : forall bs, length bs = length l -> Forall (fun b => Z.of_nat (length b) = w) bs ->
  Forall (fun o => 0 <= o /\ o + w < 2 ^ 32) l -> wrong l bs = 0 <-> bs = pattern <$> l.
Proof.
  induction l as [|o l IH]; intros [|b bs] Hl Hb Ho; try done.
  inversion Hb as [|? ? Hb1 Hb2]; subst. inversion Ho as [|? ? Ho1 Ho2]; subst. cbn [length] in Hl.
  specialize (IH bs ltac:(lia) Hb2 Ho2). pose proof (wrong_nonneg l bs). pose proof (differ_bounds b o).
  pose proof (differ_0 b o) as Hd0. rewrite Hb1 in Hd0. cbn [fmap list_fmap]. rewrite (pattern_seq o) by lia.
  change (wrong (o :: l) (b :: bs)) with (differ o b + wrong l bs). split.
  - intros E. f_equal; [apply Hd0; lia|apply IH; lia].
  - intros E. injection E as E1 E2. apply Hd0 in E1. apply IH in E2. lia.
Qed.

Lemma chunks_ok : Forall (fun o => 0 <= o /\ o + w < 2 ^ 32) chunks.
Proof. unfold chunks. repeat constructor; lia. Qed.

Lemma patterns_distinct : NoDup (concat (pattern <$> chunks)).
Proof.
  unfold chunks. cbn [fmap list_fmap concat]. rewrite !pattern_seq, app_nil_r by lia.
  rewrite !list.NoDup_app. repeat setoid_rewrite elem_of_app. repeat setoid_rewrite elem_of_seqZ.
  split_and!; try apply NoDup_seqZ; intros; lia.
Qed.

Lemma written_content content (Hc : nand_works content) o i : 0 <= i < w -> forall l d,
  o ∈ l \/ content d (o + 4 * i) = u32 (o + i) -> (forall o', o' ∈ l -> o' = o \/ o + 4 * w <= o' \/ o' + 4 * w <= o) ->
  content (written l d) (o + 4 * i) = u32 (o + i).
Proof.
  intros Hi. induction l as [|o' l IH]; intros d Hd Hl; cbn [written foldl].
  - destruct Hd as [Hd|Hd]; [inversion Hd|done].
  - apply IH; [|intros; apply Hl; by right]. destruct (Hl o' ltac:(left)) as [-> |Hne].
    + right. replace i with (Z.of_nat (Z.to_nat i)) at 1 by lia. apply (nw_write _ Hc). unfold pattern.
      rewrite list_lookup_fmap, (proj2 (lookup_seqZ 0 w (Z.to_nat i) i)) by lia. done.
    + destruct Hd as [Hd|Hd].
      * left. apply elem_of_cons in Hd as [-> |Hd]; [lia|done].
      * right. rewrite (nw_other _ Hc) by (rewrite length_pattern; lia). done.
Qed.

Lemma readback_works content (Hc : nand_works content) l : forall d,
  (forall o i, o ∈ l -> 0 <= i < w -> content d (o + 4 * i) = u32 (o + i)) -> readback l d = pattern <$> l.
Proof.
  induction l as [|o l IH]; intros d Hd; cbn [readback fmap list_fmap]; [done|].
  pose proof (nw_read _ Hc o (replicate (Z.to_nat w) 5) d) as Hr.
  pose proof (nw_read_keeps _ Hc o (replicate (Z.to_nat w) 5) d) as Hk.
  destruct (nand_read o (replicate (Z.to_nat w) 5) d) as [b d']. cbn [fst snd] in *. f_equal.
  - subst b. rewrite length_replicate, Z2Nat.id by lia. unfold pattern. apply list_fmap_ext.
    intros k i Hi%lookup_seqZ. apply Hd; [left|lia].
  - apply IH. intros o' i Ho Hi. rewrite Hk. apply Hd; [by right|done].
Qed.

(** C24: the flash test counts exactly the words that come back wrong: for every
    flash each of the [4 w] words is written, read and counted once, the exit
    code is 0 exactly when every block read is the one written, and since all
    words of the pattern differ this is never so for a flash that shows one
    block at two places; for a flash that works it is always so. *)
Theorem nand_test_verdict buf d : Z.of_nat (length buf) = w -> let bad := wrong chunks (readback chunks (written chunks d)) in
  nand_test (16 * w) buf d = Some (4 * w - bad, bad, if decide (bad > 0) then 1 else 0) /\
  (bad = 0 <-> readback chunks (written chunks d) = pattern <$> chunks) /\
  NoDup (concat (pattern <$> chunks)) /\
  (forall content, nand_works content -> bad = 0).
Proof.
  intros Hb bad. destruct (readback_lengths chunks (written chunks d)) as [H1 H2].
  assert (H0 : bad = 0 <-> readback chunks (written chunks d) = pattern <$> chunks)
    by (apply wrong_0; [done|done|apply chunks_ok]).
  split_and!; [|exact H0|apply patterns_distinct|].
  - unfold nand_test. rewrite Z.shiftr_div_pow2 by lia. replace (16 * w / 2 ^ 2) with (4 * w) by (apply Z.div_unique_exact; lia).
    rewrite write_phase_all by done. cbn [mbind option_bind].
    rewrite (read_phase_all chunks) by (cbn; rewrite ?length_pattern; try lia; intros [|[|[|[|k]]]] o Hk; cbn in Hk; try done; injection Hk; lia).
    fold bad. cbn [mbind option_bind length chunks]. do 3 f_equal; lia.
  - intros content Hc. apply H0. apply (readback_works content Hc). intros o i Ho Hi.
    apply (written_content content Hc); [done|by left|]. intros o' Ho'. unfold chunks in Ho, Ho'.
    rewrite !elem_of_cons, elem_of_nil in Ho, Ho'. lia.
Qed.
End Shape.
End NandVerdict.

(** * The read test *)

Lemma differ_insert v l : forall k (j : nat), l !! j = Some (k + Z.of_nat j) -> v <> k + Z.of_nat j ->
  differ k (<[j := v]> l) = differ k l + 1.
Proof.
  induction l as [|x l IH]; intros k [|j] Hl Hv; cbn in Hl; try done.
  - injection Hl as ->. cbn. rewrite decide_False by lia. rewrite decide_True by lia. lia.
  - change (<[S j := v]> (x :: l)) with (x :: <[j := v]> l). cbn [differ]. rewrite (IH (k + 1) j); [lia|etransitivity; [exact Hl|f_equal; lia]|lia].
Qed.

(** The buffers of the two tests. *)
Definition indices (numWords : Z) : list Z := seqZ 0 numWords.
Definition spoilt (numWords : Z) : list Z :=
  <[Z.to_nat (numWords - 1) := u32 (-1)]> (<[Z.to_nat (numWords / 2) := u32 (-1)]> (<[0%nat := u32 (-1)]> (indices numWords))).
(** What an engine that works reports. *)
Definition true_report (buf : list Z) (iterCnt : Z) : Z := u32 (iterCnt * differ 0 buf).

Lemma spoilt_3 numWords : 3 <= numWords < 2 ^ 31 -> differ 0 (indices numWords) = 0 /\ differ 0 (spoilt numWords) = 3.
Proof.
  intros Hn. assert (H0 : differ 0 (indices numWords) = 0).
  { apply differ_0. unfold indices. by rewrite length_seqZ, Z2Nat.id by lia. }
  assert (Hh : 0 < numWords / 2 < numWords - 1) by zlia.
  assert (Hl : forall j, 0 <= j < numWords -> indices numWords !! Z.to_nat j = Some j).
  { intros j Hj. apply lookup_seqZ. lia. }
  change (u32 (-1)) with 4294967295 in *. unfold spoilt.
  split; [done|]. rewrite !differ_insert; rewrite ?Z.add_0_l; change (u32 (-1)) with 4294967295; try lia.
  - apply (Hl 0). lia.
  - rewrite list_lookup_insert_ne by lia. rewrite Hl by lia. f_equal. lia.
  - rewrite !list_lookup_insert_ne by lia. rewrite Hl by lia. f_equal. lia.
Qed.

Lemma s32_eq a b : 0 <= a < 2 ^ 32 -> 0 <= b < 2 ^ 31 -> s32 a = b <-> a = b.
Proof.
  intros Ha Hb. split; [|intros ->; apply s32_small; lia]. unfold s32, swrap.
  change (2 ^ (32 - 1)) with 2147483648. change (2 ^ 32) with 4294967296 in *. zlia.
Qed.

(** the read test accepts an engine exactly when its two reports are right:
    none of the words of the first buffer is wrong, and of the second, in which
    three words were spoilt, three in every iteration.  (So an engine that always
    or never reports errors fails.) *)
Theorem memread_verdict {D} `{!Reader D} numWords burstLen iterCnt buf (d : D) :
  3 <= numWords < 2 ^ 31 -> 0 < iterCnt -> 3 * iterCnt < 2 ^ 31 -> Z.of_nat (length buf) = numWords ->
  (forall b n l i d, 0 <= fst (startRead b n l i d) < 2 ^ 32) ->
  let '(v1, d1) := startRead (indices numWords) numWords burstLen iterCnt d in
  let '(v2, d2) := startRead (spoilt numWords) numWords burstLen iterCnt d1 in
  exists r, memread_test numWords burstLen iterCnt buf d = Some r /\ 0 <= r <= 2 /\
    (r = 0 <-> v1 = true_report (indices numWords) iterCnt /\ v2 = true_report (spoilt numWords) iterCnt).
Proof.
  intros Hn Hi Hi3 Hb Hv. pose proof (spoilt_3 numWords Hn) as [H0 H3].
  pose proof (Hv (indices numWords) numWords burstLen iterCnt d) as Hv1.
  unfold memread_test. rewrite fill_loop_full by lia. cbn [mbind option_bind].
  replace ((fun i => i) <$> seqZ 0 (Z.of_nat (Z.to_nat numWords))) with (indices numWords).
  2: { rewrite list_fmap_id, Z2Nat.id by lia. done. }
  destruct (startRead (indices numWords) numWords burstLen iterCnt d) as [v1 d1].
  pose proof (Hv (spoilt numWords) numWords burstLen iterCnt d1) as Hv2.
  assert (Hlen : Z.of_nat (length (indices numWords)) = numWords) by (unfold indices; rewrite length_seqZ; lia).
  assert (Hh : 0 <= numWords / 2 < numWords) by zlia.
  rewrite (zupd_Some (indices numWords)) by lia. cbn [mbind option_bind].
  rewrite Z.quot_div_nonneg, zupd_Some by (rewrite ?length_insert; lia). cbn [mbind option_bind].
  rewrite zupd_Some by (rewrite !length_insert; lia). cbn [mbind option_bind]. fold (spoilt numWords).
  change (Z.to_nat 0) with 0%nat. fold (spoilt numWords).
  destruct (startRead (spoilt numWords) numWords burstLen iterCnt d1) as [v2 d2]. cbn [fst] in Hv1, Hv2.
  unfold true_report. rewrite H0, H3, Z.mul_0_r, (Z.mul_comm iterCnt 3), !u32_small by lia.
  rewrite (s32_small (3 * iterCnt)) by lia. pose proof (s32_eq v1 0 Hv1 ltac:(lia)) as E1.
  pose proof (s32_eq v2 (3 * iterCnt) Hv2 ltac:(lia)) as E2.
  eexists. split; [done|]. destruct (decide (s32 v1 = 0)) as [Ez|Ez].
  - rewrite Ez, Z.add_0_l. rewrite (decide_False (P := 0 <> 0)) by tauto. case_decide; split; try lia; tauto.
  - rewrite (decide_True (P := s32 v1 <> 0)) by done. assert (v1 <> 0) by tauto. case_decide; lia.
Qed.

(** * The write test *)

Lemma child_loop_spec n : forall i sg done rest b, Z.of_nat (length done) = i -> length rest = n -> i = sg ->
  sg + Z.of_nat n < 2 ^ 32 -> child_loop n i sg (done ++ rest) b = Some (b || bool_decide (differ sg rest <> 0)).
Proof.
  induction n as [|n IH]; intros i sg done rest b Hd Hr <- Hn; cbn [child_loop].
  - destruct rest; [|done]. cbn. by rewrite orb_false_r.
  - destruct rest as [|x rest]; [done|]. cbn [length] in Hr.
    assert (E : znth (done ++ x :: rest) i = Some x).
    { unfold znth. rewrite decide_True by lia. by rewrite list_lookup_middle by lia. }
    rewrite E. cbn [mbind option_bind differ]. rewrite u32_small by lia.
    replace (done ++ x :: rest) with ((done ++ [x]) ++ rest) by (by rewrite <- app_assoc).
    rewrite IH by (rewrite ?length_app; cbn; lia). f_equal. rewrite <- orb_assoc. f_equal.
    pose proof (differ_bounds rest (i + 1)).
    destruct (decide (x = i)); [rewrite (bool_decide_eq_false_2 (x <> i)) by tauto|rewrite (bool_decide_eq_true_2 (x <> i)) by done]; cbn [orb];
      [done|symmetry; apply bool_decide_eq_true_2; lia].
Qed.

(** the verdict of the write test is lost.  The child finds every word that
    was not written and exits with 1 exactly then, but the parent passes the
    status of [waitpid], which has the exit code in its second byte, to [exit],
    which keeps the first: the program ends with 0 whatever the child found. *)
Theorem memwrite_verdict_lost numWords buf : 0 <= numWords < 2 ^ 31 -> Z.of_nat (length buf) = numWords ->
  exists code, child numWords buf = Some code /\ (code = 0 <-> buf = seqZ 0 numWords) /\ (code = 0 \/ code = 1) /\
    memwrite_exit code = 0.
Proof.
  intros Hn Hb. unfold child.
  pose proof (child_loop_spec (Z.to_nat numWords) 0 0 [] buf false eq_refl ltac:(lia) eq_refl ltac:(lia)) as E.
  cbn [app] in E. rewrite E. cbn [mbind option_bind orb]. pose proof (differ_0 buf 0) as H0. rewrite Hb in H0.
  eexists. split; [done|]. case_bool_decide; (split; [|split; [lia|reflexivity]]).
  - rewrite <- H0. lia.
  - rewrite <- H0. lia.
Qed.

(** * Witnesses *)

(** A flash of words, by their offset in bytes. *)
#[local] Instance flash_words : Nand (Z -> Z) := {|
  nand_write buf o d := fun a =>
    if decide (o <= a < o + 4 * Z.of_nat (length buf) /\ (a - o) mod 4 = 0) then default 0 (buf !! Z.to_nat ((a - o) / 4)) else d a;
  nand_read o b d := ((fun i => d (o + 4 * i)) <$> seqZ 0 (Z.of_nat (length b)), d) |}.

Lemma flash_words_work : nand_works (D := Z -> Z) (fun d a => d a).
Proof.
  constructor; cbn [nand_write nand_read flash_words fst snd]; try done.
  - intros buf o d j v Hj. pose proof (lookup_lt_Some _ _ _ Hj).
    replace (o + 4 * Z.of_nat j - o) with (Z.of_nat j * 4) by lia. rewrite Z.mod_mul, Z.div_mul, Nat2Z.id, Hj by lia.
    rewrite decide_True by lia. done.
  - intros buf o d a Ha. rewrite decide_False by lia. done.
Qed.

Lemma nand_test_verdict_witness : nand_test 64 [0; 0; 0; 0] (fun _ => 9) = Some (16, 0, 0).
Proof.
  destruct (nand_test_verdict (D := Z -> Z) 4 ltac:(lia) ltac:(reflexivity)
    ltac:(intros; cbn; rewrite length_fmap, length_seqZ; lia) [0; 0; 0; 0] (fun _ => 9) eq_refl) as (E & _ & _ & H).
  rewrite (H _ flash_words_work) in E. exact E.
Defined.

#[local] Instance counting_reader : Reader unit := fun buf _ _ iterCnt d => (true_report buf iterCnt, d).

Lemma memread_verdict_witness : memread_test 8 16 64 (replicate 8 0) tt = Some 0.
Proof.
  destruct (memread_verdict 8 16 64 (replicate 8 0) tt) as (r & E & _ & H);
    [lia|lia|lia|reflexivity|intros; apply u32_bound|].
  rewrite E. f_equal. apply H. split; reflexivity.
Defined.

Lemma memwrite_verdict_lost_witness : exists code, child 3 [0; 1; 7] = Some code /\ code <> 0 /\ memwrite_exit code = 0.
Proof.
  destruct (memwrite_verdict_lost 3 [0; 1; 7]) as (code & E & H & _ & Hx); [lia|reflexivity|].
  exists code. split; [exact E|]. split; [|exact Hx]. rewrite H. discriminate.
Defined.
