(* ===== verification/MemcpyTest.v ===== *)
(** The tests of the copy engine: [examples/memcpy/testmemcpy.h] and
    [tests/memcpy_manysglists/testmemcpy.cpp].

    Three parties interleave: the main thread, the thread that calls the
    indications, one after the other, and the hardware, which answers requests
    when it likes.  The machine is written for any type of buffer contents and of
    verdicts, so that the same definitions run on words (the program) and on
    numbers of completed copies, whose finitely many states are explored. *)

From stdpp Require Import base list option relations.
From Stdlib Require Import ZArith Lia.
From S2P Require Import Prelude MemTests.
#[local] Open Scope list_scope.
#[local] Open Scope Z_scope.

(** * The program *)

(** What the main thread does that the other parties see. *)
Inductive mop : Type :=
| StartCopy                    (* [device->startCopy(...)] *)
| WaitDone                     (* [sem_wait(&done_sem)] *)
| AskTraffic                   (* [memoryTraffic(...)] *)
| WaitTraffic                  (* [receiveMemoryTraffic()] *)
| Verdict.                     (* [memcmp_fail] is read *)
(** The indications, and where the thread that calls them is: in [done] before
    the [sem_post], before [finished = true], before the comparison; in
    [reportMemoryTraffic] before the store and before the [sem_post]. *)
Inductive ind : Type := Done | Traffic.
Inductive hpc : Type := HIdle | HPost | HFinished | HCompare | HStore | HPostTraffic.

#[global] Instance mop_eq_dec : EqDecision mop.
Proof. solve_decision. Defined.
#[global] Instance ind_eq_dec : EqDecision ind.
Proof. solve_decision. Defined.
#[global] Instance hpc_eq_dec : EqDecision hpc.
Proof. solve_decision. Defined.

(** [runtest] and the [exit(memcmp_fail)] behind it; one copy of the other program. *)
Definition runtest : list mop :=
  [StartCopy; WaitDone; AskTraffic; WaitTraffic; AskTraffic; WaitTraffic; Verdict].
Definition do_copy : list mop := [StartCopy; WaitDone; Verdict].

Section Machine.
(** Contents of the destination, verdicts; a copy, and the comparison with the source. *)
Context {T B : Type}.
Variables (copied : T -> T) (compare : T -> B).

Record Sys : Type := {
  main : list mop; done_sem : nat; mtSem : nat; finished : bool; memcmp_fail : B;
  handler : hpc; inbox : list ind; pending : list ind; dst : T; verdict : option B }.

Definition set_main (v : list mop) (s : Sys) : Sys :=
  {| main := v; done_sem := done_sem s; mtSem := mtSem s; finished := finished s; memcmp_fail := memcmp_fail s;
     handler := handler s; inbox := inbox s; pending := pending s; dst := dst s; verdict := verdict s |}.
Definition set_sems (d m : nat) (s : Sys) : Sys :=
  {| main := main s; done_sem := d; mtSem := m; finished := finished s; memcmp_fail := memcmp_fail s;
     handler := handler s; inbox := inbox s; pending := pending s; dst := dst s; verdict := verdict s |}.
Definition set_handler (v : hpc) (s : Sys) : Sys :=
  {| main := main s; done_sem := done_sem s; mtSem := mtSem s; finished := finished s; memcmp_fail := memcmp_fail s;
     handler := v; inbox := inbox s; pending := pending s; dst := dst s; verdict := verdict s |}.
Definition set_queues (i p : list ind) (s : Sys) : Sys :=
  {| main := main s; done_sem := done_sem s; mtSem := mtSem s; finished := finished s; memcmp_fail := memcmp_fail s;
     handler := handler s; inbox := i; pending := p; dst := dst s; verdict := verdict s |}.
Definition set_dst (v : T) (s : Sys) : Sys :=
  {| main := main s; done_sem := done_sem s; mtSem := mtSem s; finished := finished s; memcmp_fail := memcmp_fail s;
     handler := handler s; inbox := inbox s; pending := pending s; dst := v; verdict := verdict s |}.
Definition set_flags (f : bool) (v : B) (s : Sys) : Sys :=
  {| main := main s; done_sem := done_sem s; mtSem := mtSem s; finished := f; memcmp_fail := v;
     handler := handler s; inbox := inbox s; pending := pending s; dst := dst s; verdict := verdict s |}.
Definition set_verdict (v : option B) (s : Sys) : Sys :=
  {| main := main s; done_sem := done_sem s; mtSem := mtSem s; finished := finished s; memcmp_fail := memcmp_fail s;
     handler := handler s; inbox := inbox s; pending := pending s; dst := dst s; verdict := v |}.

(** One step of the main thread; [None] when it waits or has ended. *)
Definition main_step (s : Sys) : option Sys :=
  match main s with
  | [] => None
  | o :: l =>
      let s := set_main l s in
      match o with
      | StartCopy => Some (set_queues (inbox s) (pending s ++ [Done]) s)
      | AskTraffic => Some (set_queues (inbox s) (pending s ++ [Traffic]) s)
      | WaitDone => match done_sem s with O => None | S n => Some (set_sems n (mtSem s) s) end
      | WaitTraffic => match mtSem s with O => None | S n => Some (set_sems (done_sem s) n s) end
      | Verdict => Some (set_verdict (Some (memcmp_fail s)) s)
      end
  end.

(** One step of the thread that calls the indications. *)
Definition handler_step (s : Sys) : option Sys :=
  match handler s with
  | HIdle =>
      match inbox s with
      | [] => None
      | i :: q => Some (set_handler (match i with Done => HPost | Traffic => HStore end) (set_queues q (pending s) s))
      end
  | HPost => Some (set_handler HFinished (set_sems (S (done_sem s)) (mtSem s) s))
  | HFinished => Some (set_handler HCompare (set_flags true (memcmp_fail s) s))
  | HCompare => Some (set_handler HIdle (set_flags (finished s) (compare (dst s)) s))
  | HStore => Some (set_handler HPostTraffic s)
  | HPostTraffic => Some (set_handler HIdle (set_sems (done_sem s) (S (mtSem s)) s))
  end.

(** The hardware answers its [k]-th request; before it reports a copy it has made it. *)
Definition device_step (k : nat) (s : Sys) : option Sys :=
  i ← pending s !! k;
  let s := match i with Done => set_dst (copied (dst s)) s | Traffic => s end in
  Some (set_queues (inbox s ++ [i]) (base.delete k (pending s)) s).

Inductive label : Type := LMain | LHandler | LDevice (k : nat).
Definition step_fn (l : label) (s : Sys) : option Sys :=
  match l with LMain => main_step s | LHandler => handler_step s | LDevice k => device_step k s end.
Definition step (s s' : Sys) : Prop := exists l, step_fn l s = Some s'.

Fixpoint run (ls : list label) (s : Sys) : option Sys :=
  match ls with [] => Some s | l :: ls => s ← step_fn l s; run ls s end.

Definition start (p : list mop) (t : T) (b : B) : Sys :=
  {| main := p; done_sem := 0; mtSem := 0; finished := false; memcmp_fail := b; handler := HIdle;
     inbox := []; pending := []; dst := t; verdict := None |}.
End Machine.
Arguments Sys : clear implicits.
#[global] Instance Sys_eq_dec {T B} `{!EqDecision T, !EqDecision B} : EqDecision (Sys T B).
Proof. solve_decision. Defined.

(** * The machine does not look at the data *)

Definition map_sys {T B T' B'} (f : T -> T') (g : B -> B') (s : Sys T B) : Sys T' B' :=
  {| main := main s; done_sem := done_sem s; mtSem := mtSem s; finished := finished s; memcmp_fail := g (memcmp_fail s);
     handler := handler s; inbox := inbox s; pending := pending s; dst := f (dst s); verdict := g <$> verdict s |}.

Section Map.
Context {T B T' B' : Type} (copied : T -> T) (compare : T -> B) (copied' : T' -> T') (compare' : T' -> B').
Variables (f : T -> T') (g : B -> B').
Hypothesis Hf : forall t, f (copied t) = copied' (f t).
Hypothesis Hg : forall t, g (compare t) = compare' (f t).

Lemma step_fn_map l s : step_fn copied' compare' l (map_sys f g s) = map_sys f g <$> step_fn copied compare l s.
Proof.
  destruct l as [| |k]; cbn [step_fn].
  - unfold main_step. cbn [main map_sys]. destruct (main s) as [|[] q]; try done.
    + cbn. by destruct (done_sem s).
    + cbn. by destruct (mtSem s).
  - unfold handler_step. cbn [handler map_sys]. destruct (handler s); try done.
    + cbn. by destruct (inbox s) as [|[] q].
    + cbn. unfold map_sys, set_handler, set_flags. cbn. by rewrite <- Hg.
  - unfold device_step. cbn [pending map_sys]. destruct (pending s !! k) as [[]|]; try done.
    cbn. unfold map_sys, set_queues, set_dst. cbn. by rewrite Hf.
Qed.

(** Every run of the image is the image of a run. *)
Lemma steps_map n s x : nsteps (step copied' compare') n (map_sys f g s) x ->
  exists y, nsteps (step copied compare) n s y /\ x = map_sys f g y.
Proof.
  revert s. induction n as [|n IH]; intros s H; inversion H as [|? ? z ? [l Hl] Hz]; subst.
  - exists s. split; [constructor|done].
  - rewrite step_fn_map in Hl. destruct (step_fn copied compare l s) as [s1|] eqn:E1; [|done].
    injection Hl as <-. destruct (IH s1 Hz) as (y & Hy & ->). exists y. split; [|done]. econstructor; [|exact Hy]. by exists l.
Qed.
End Map.

Lemma run_reaches {T B} (copied : T -> T) (compare : T -> B) ls : forall s s',
  run copied compare ls s = Some s' -> rtc (step copied compare) s s'.
Proof.
  induction ls as [|l ls IH]; intros s s' H; cbn [run] in H; [injection H as ->; apply rtc_refl|].
  destruct (step_fn copied compare l s) as [s1|] eqn:E; [|done]. eapply rtc_l; [by exists l|]. by apply IH.
Qed.

(** * All interleavings on numbers of copies *)

(** A state on numbers: how many copies are complete, and how many were at the
    comparison, [None] before it. *)
Definition Sym : Type := Sys nat (option nat).
Definition sym_step : Sym -> Sym -> Prop := step S Some.
Definition successors (s : Sym) : list Sym :=
  omap (fun l => step_fn S Some l s) (LMain :: LHandler :: (LDevice <$> seq 0 (length (pending s)))).

Lemma successors_complete s s' : sym_step s s' -> s' ∈ successors s.
Proof.
  intros [l Hl]. apply list_elem_of_omap. exists l. split; [|exact Hl].
  destruct l as [| |k]; [left|right; left|right; right]. apply list_elem_of_fmap. exists k. split; [done|].
  apply elem_of_seq. cbn [step_fn] in Hl. unfold device_step in Hl.
  destruct (pending s !! k) eqn:E; [|done]. apply lookup_lt_Some in E. lia.
Qed.

(** The states reached in [n] rounds. *)
Fixpoint explore (n : nat) (seen new : list Sym) : list Sym :=
  match n with
  | O => seen ++ new
  | S n =>
      let seen := seen ++ new in
      explore n seen (remove_dups (filter (fun s => s ∉ seen) (concat (successors <$> new))))
  end.
(** A property of all states of a set that contains the start and is closed. *)
Definition verified (s0 : Sym) (set : list Sym) (p : Sym -> bool) : bool :=
  bool_decide (s0 ∈ set) && forallb (fun s => p s && forallb (fun s' => bool_decide (s' ∈ set)) (successors s)) set.

Lemma verified_sound s0 set p : verified s0 set p = true -> forall n s, nsteps sym_step n s0 s -> p s = true.
Proof.
  unfold verified. rewrite andb_true_iff, bool_decide_eq_true, forallb_forall. intros [H0 Hset].
  assert (Hin : forall n s s1, s ∈ set -> nsteps sym_step n s s1 -> s1 ∈ set).
  { induction n as [|n IH]; intros s s1 Hs Hn; inversion Hn as [|? ? z ? Hstep Hz]; subst; [done|].
    apply (IH z); [|done]. apply list_elem_of_In in Hs. specialize (Hset s Hs).
    apply andb_true_iff in Hset as [_ Hset]. rewrite forallb_forall in Hset.
    apply successors_complete, list_elem_of_In in Hstep. by apply Hset, bool_decide_eq_true in Hstep. }
  intros n s Hn. specialize (Hin n s0 s H0 Hn). apply list_elem_of_In in Hin. specialize (Hset s Hin).
  by apply andb_true_iff in Hset as [Hp _].
Qed.

(** The steps that remain: those of the main thread and of the answers they cause. *)
Definition op_work (o : mop) : nat := match o with StartCopy => 6 | AskTraffic => 5 | _ => 1 end.
Definition ind_work (i : ind) : nat := match i with Done => 4 | Traffic => 3 end.
Definition hpc_work (h : hpc) : nat := match h with HIdle => 0 | HPost => 3 | HFinished => 2 | HCompare => 1 | HStore => 2 | HPostTraffic => 1 end.
Definition sum (l : list nat) : nat := foldr Nat.add 0%nat l.
Definition work {T B} (s : Sys T B) : nat :=
  (sum (op_work <$> main s) + hpc_work (handler s) + sum (ind_work <$> inbox s) + sum ((fun i => S (ind_work i)) <$> pending s))%nat.

(** The verdict is that of the first copy, a state without a verdict goes on, and
    every step leaves less to do. *)
Definition good (s : Sym) : bool :=
  match verdict s with
  | None => negb (bool_decide (successors s = []))
  | Some v => bool_decide (v = Some 1%nat)
  end && forallb (fun s' => (work s' <? work s)%nat) (successors s).

Definition sym_start (p : list mop) : Sym := start p 0%nat None.

Lemma runtest_verified : verified (sym_start runtest) (explore 24 [] [sym_start runtest]) good = true.
Proof. vm_compute. reflexivity. Qed.

Lemma runtest_good n s : nsteps sym_step n (sym_start runtest) s -> good s = true.
Proof. apply (verified_sound _ _ _ runtest_verified). Qed.

Lemma good_next s s' : good s = true -> sym_step s s' -> (work s' < work s)%nat.
Proof.
  unfold good. rewrite andb_true_iff, forallb_forall. intros [_ H] Hs%successors_complete%list_elem_of_In.
  apply Nat.ltb_lt. by apply H.
Qed.

Lemma runtest_work n s : nsteps sym_step n (sym_start runtest) s -> (n + work s <= 20)%nat.
Proof.
  revert s. induction n as [|n IH]; intros s H.
  - inversion H; subst. vm_compute. lia.
  - apply nsteps_inv_r in H as (z & Hz & Hs). pose proof (IH z Hz). pose proof (good_next z s (runtest_good n z Hz) Hs). lia.
Qed.

(** * The copy test *)

(** The loop that fills the two buffers. *)
Fixpoint init_loop (n : nat) (i : Z) (src dst : list Z) : option (list Z * list Z) :=
  match n with
  | O => Some (src, dst)
  | S n => src ← zupd src i i; dst ← zupd dst i 0x5a5abeef; init_loop n (i + 1) src dst
  end.

Lemma init_loop_fill n : forall i src dst, init_loop n i src dst =
  (src' ← fill_loop n i (fun i => i) src; dst' ← fill_loop n i (fun _ => 0x5a5abeef) dst; Some (src', dst')).
Proof.
  induction n as [|n IH]; intros i src dst; cbn [init_loop fill_loop]; [done|].
  destruct (zupd src i i) as [src1|]; [|done]. cbn [mbind option_bind].
  destruct (zupd dst i 0x5a5abeef) as [dst1|]; cbn [mbind option_bind]; [apply IH|].
  by destruct (fill_loop n (i + 1) (fun i => i) src1).
Qed.

Section Copy.
(** What the engine leaves in the destination; [memcmp] of source and destination. *)
Variable copy : list Z -> list Z -> list Z.
Definition memcmp (src d : list Z) : bool := bool_decide (src <> d).

(** The state on words for a state on numbers of copies. *)
Definition concrete (src dst : list Z) : Sym -> Sys (list Z) bool :=
  map_sys (fun n => Nat.iter n (copy src) dst) (fun v => match v with None => false | Some n => memcmp src (Nat.iter n (copy src) dst) end).

Lemma concrete_start p src dst : concrete src dst (sym_start p) = start p dst false.
Proof. done. Qed.

Lemma concrete_steps p src dst n s : nsteps (step (copy src) (memcmp src)) n (start p dst false) s ->
  exists y, nsteps sym_step n (sym_start p) y /\ s = concrete src dst y.
Proof. rewrite <- (concrete_start p src dst). apply steps_map; done. Qed.

(** C14: the copy test judges the copy, however its threads interleave.  The
    indication wakes the main thread before it compares the buffers; but the
    main thread asks for the memory traffic before it reads the verdict, and
    the answers are delivered by the same thread, behind the comparison.  So
    every run takes at most 20 steps, ends with a verdict, and the verdict is that the
    engine's copy of the pattern differs from it. *)
Theorem memcpy_verdict numWords src dst : Z.of_nat (length src) = numWords -> Z.of_nat (length dst) = numWords ->
  exists dst1, init_loop (Z.to_nat numWords) 0 src dst = Some (seqZ 0 numWords, dst1) /\ forall n s,
  nsteps (step (copy (seqZ 0 numWords)) (memcmp (seqZ 0 numWords))) n (start runtest dst1 false) s ->
  (n <= 20)%nat /\
  (forall b, verdict s = Some b -> b = memcmp (seqZ 0 numWords) (copy (seqZ 0 numWords) dst1)) /\
  ((forall s', ~ step (copy (seqZ 0 numWords)) (memcmp (seqZ 0 numWords)) s s') -> is_Some (verdict s)).
Proof.
  intros Hs Hd. rewrite init_loop_fill, !fill_loop_full by lia. cbn [mbind option_bind].
  rewrite list_fmap_id, Z2Nat.id by lia. set (src1 := seqZ 0 numWords). set (dst1 := _ <$> src1).
  exists dst1. split; [done|]. intros n s Hn. apply concrete_steps in Hn as (y & Hy & ->).
  pose proof (runtest_work n y Hy). pose proof (runtest_good n y Hy) as Hg.
  unfold good in Hg. apply andb_true_iff in Hg as [Hg _]. split; [lia|].
  unfold concrete, map_sys at 1. cbn [verdict]. destruct (verdict y) as [v|] eqn:Ev.
  - apply bool_decide_eq_true in Hg as ->. cbn. split; [congruence|]. intros _. cbn. rewrite Ev. eauto.
  - split; [done|]. intros Hstuck. exfalso. apply negb_true_iff, bool_decide_eq_false in Hg. apply Hg.
    destruct (successors y) as [|z l] eqn:E; [done|]. exfalso.
    assert (Hz : z ∈ successors y) by (rewrite E; left). apply list_elem_of_omap in Hz as (lb & _ & Hl).
    apply (Hstuck (concrete src1 dst1 z)). exists lb. unfold concrete.
    rewrite (step_fn_map S Some) by done. by rewrite Hl.
Qed.

(** the test of several lists does not ask for anything before it reads the
    verdict: a run in which the main thread goes on between the [sem_post] and the
    comparison reports success, however wrong the copy is. *)
Theorem manysglists_race src dst : exists s,
  rtc (step (copy src) (memcmp src)) (start do_copy dst false) s /\ main s = [] /\ verdict s = Some false /\
  MemcpyTest.dst s = copy src dst.
Proof.
  exists {| main := []; done_sem := 0; mtSem := 0; finished := false; memcmp_fail := false; handler := HFinished;
            inbox := []; pending := []; dst := copy src dst; verdict := Some false |}.
  split; [|done]. apply (run_reaches _ _ [LMain; LDevice 0; LHandler; LHandler; LMain; LMain]). vm_compute. reflexivity.
Qed.
End Copy.

(** * Witnesses *)

(** An engine that spoils the first word, and the end of one run of the test. *)
Definition spoiler (_ d : list Z) : list Z := 9 :: drop 1 d.
Definition failed_run : list label :=
  [LMain; LDevice 0; LHandler; LHandler; LMain; LMain; LDevice 0; LHandler; LHandler; LHandler; LHandler; LHandler; LMain;
   LMain; LDevice 0; LHandler; LHandler; LHandler; LMain; LMain].
Definition failed_end : Sys (list Z) bool :=
  {| main := []; done_sem := 0; mtSem := 0; finished := true; memcmp_fail := true; handler := HIdle;
     inbox := []; pending := []; dst := [9; 0x5a5abeef]; verdict := Some true |}.

Lemma failed_run_ends : run (spoiler (seqZ 0 2)) (memcmp (seqZ 0 2)) failed_run (start runtest [0x5a5abeef; 0x5a5abeef] false) = Some failed_end.
Proof. vm_compute. reflexivity. Qed.

Lemma memcpy_verdict_witness : true = memcmp (seqZ 0 2) (spoiler (seqZ 0 2) [0x5a5abeef; 0x5a5abeef]).
Proof.
  destruct (memcpy_verdict spoiler 2 [7; 7] [7; 7]) as (d1 & Ed & H); [reflexivity|reflexivity|].
  injection Ed as <-. destruct (rtc_nsteps_1 _ _ (run_reaches _ _ _ _ _ failed_run_ends)) as [n Hn].
  destruct (H n failed_end Hn) as (_ & Hb & _). exact (Hb true eq_refl).
Defined.
