(* ===== verification/FloatArith.v ===== *)
(** Floating-point numbers of C: [float] and [double] are the binary formats of
    IEEE 754 in the specification of the Standard Library (exact, rounding to
    nearest even, with infinities, one NaN and both zeros), and the operators of
    the source are its operations.

    The facts are about integers: an integer of at most [prec] bits is exact in
    a format, sums and products that stay within it are exact, and so are the
    conversions between the formats. *)

From Stdlib Require Import ZArith Lia SpecFloat.
From stdpp Require Import base tactics.
From S2P Require Import Prelude.
#[local] Open Scope Z_scope.

(** * The two formats *)

Abbreviation float := spec_float (only parsing).
Abbreviation double := spec_float (only parsing).

Definition fadd : float -> float -> float := SFadd 24 128.
Definition fsub : float -> float -> float := SFsub 24 128.
Definition fmul : float -> float -> float := SFmul 24 128.
Definition fdiv : float -> float -> float := SFdiv 24 128.
Definition dadd : double -> double -> double := SFadd 53 1024.
Definition dmul : double -> double -> double := SFmul 53 1024.
Definition ddiv : double -> double -> double := SFdiv 53 1024.

(** [x < y] in C: false when either is a NaN. *)
Definition flt (x y : float) : bool := SFltb x y.
Definition fabs (x : float) : float := SFabs x.
Definition fneg (x : float) : float := SFopp x.

(** The conversions of a number to a format. *)
Definition convert (prec emax : Z) (x : spec_float) : spec_float :=
  match x with
  | S754_finite s m e => binary_normalize prec emax (cond_Zopp s (Zpos m)) e s
  | _ => x
  end.
Definition double_of_float (x : float) : double := convert 53 1024 x.
Definition float_of_double (x : double) : float := convert 24 128 x.

(** The value of an integer constant or of the conversion of an [int]. *)
Definition of_Z (prec emax z : Z) : spec_float := binary_normalize prec emax z 0 false.
Definition float_of_Z (z : Z) : float := of_Z 24 128 z.
Definition double_of_Z (z : Z) : double := of_Z 53 1024 z.

(** [frexpf]: the exponent; for zero, infinities and NaN it is 0. *)
Definition frexp_exp (x : float) : Z :=
  match x with
  | S754_finite _ _ _ => snd (SFfrexp 24 128 x)
  | _ => 0
  end.

(** [std::min<float>(a, b)] is [b < a ? b : a]; [std::max<float>(a, b)] is
    [a < b ? b : a]. *)
Definition fmin (a b : float) : float := if flt b a then b else a.
Definition fmax (a b : float) : float := if flt a b then b else a.

(** * Digits and shifts *)

Lemma digits2_pos_bounds p : 2 ^ (Zpos (digits2_pos p) - 1) <= Zpos p < 2 ^ Zpos (digits2_pos p).
Proof.
  induction p as [p IH|p IH|]; cbn [digits2_pos]; rewrite ?Pos2Z.inj_succ; [| |done];
    replace (Z.succ (Zpos (digits2_pos p)) - 1) with (Zpos (digits2_pos p) - 1 + 1) by lia;
    rewrite Z.pow_succ_r, Z.pow_add_r by lia; lia.
Qed.

Lemma digits2_unique p d : 0 < d -> 2 ^ (d - 1) <= Zpos p < 2 ^ d -> Zpos (digits2_pos p) = d.
Proof.
  intros Hd Hp. pose proof (digits2_pos_bounds p) as Hq.
  set (q := Zpos (digits2_pos p)) in *. assert (0 < q) by (subst q; lia).
  destruct (Z.lt_trichotomy q d) as [H1|[H1|H1]]; [|done|].
  - pose proof (Z.pow_le_mono_r 2 q (d - 1)). lia.
  - pose proof (Z.pow_le_mono_r 2 d (q - 1)). lia.
Qed.

(** Shifting out zeros is exact. *)
Lemma shr_1_double m : shr_1 {| shr_m := 2 * Zpos m; shr_r := false; shr_s := false |}
  = {| shr_m := Zpos m; shr_r := false; shr_s := false |}.
Proof. done. Qed.

Lemma iter_shr_exact n : forall m,
  iter_pos shr_1 n {| shr_m := Zpos m * 2 ^ Zpos n; shr_r := false; shr_s := false |}
  = {| shr_m := Zpos m; shr_r := false; shr_s := false |}.
Proof.
  induction n as [n IH|n IH|]; intros m; cbn [iter_pos].
  - replace (Zpos m * 2 ^ Zpos n~1) with (2 * Zpos (Pos.mul (Pos.mul m (2 ^ n)) (2 ^ n)))
      by (rewrite !Pos2Z.inj_mul, Pos2Z.inj_pow, (Pos2Z.inj_xI n), <- (Z.add_diag (Zpos n)), !Z.pow_add_r by lia; ring).
    rewrite shr_1_double, Pos2Z.inj_mul, Pos2Z.inj_pow, IH, Pos2Z.inj_mul, Pos2Z.inj_pow. apply IH.
  - replace (Zpos m * 2 ^ Zpos n~0) with (Zpos (Pos.mul m (2 ^ n)) * 2 ^ Zpos n)
      by (rewrite Pos2Z.inj_mul, Pos2Z.inj_pow, (Pos2Z.inj_xO n), <- (Z.add_diag (Zpos n)), Z.pow_add_r by lia; ring).
    rewrite IH, Pos2Z.inj_mul, Pos2Z.inj_pow. apply IH.
  - rewrite Z.pow_1_r, Z.mul_comm. apply shr_1_double.
Qed.

Section Integers.
Variables prec emax : Z.
Hypothesis Hprec : 0 < prec.
Hypothesis Hemax : 2 <= emax /\ prec <= emax.

(** A multiple of a power of two with [prec] significant digits is exact. *)
Lemma round_aux_exact s M n e : 2 ^ (prec - 1) <= Zpos M < 2 ^ prec -> 0 <= n ->
  emin prec emax <= e + n <= emax - prec ->
  binary_round_aux prec emax s (Zpos M * 2 ^ n) e loc_Exact = S754_finite s M (e + n).
Proof.
  intros HM Hn He. unfold binary_round_aux, shr_fexp.
  assert (Hd : Zdigits2 (Zpos M * 2 ^ n) = prec + n).
  { destruct (Zpos M * 2 ^ n) as [|p|p] eqn:E; [nia| |nia]. cbn [Zdigits2].
    apply digits2_unique; [lia|]. rewrite <- E.
    replace (prec + n - 1) with ((prec - 1) + n) by lia. rewrite !Z.pow_add_r by lia.
    assert (0 < 2 ^ n) by (apply Z.pow_pos_nonneg; lia). nia. }
  rewrite Hd. unfold fexp at 1.
  replace (Z.max (prec + n + e - prec) (emin prec emax) - e) with n by lia.
  assert (Hs : shr (shr_record_of_loc (Zpos M * 2 ^ n) loc_Exact) e n
    = ({| shr_m := Zpos M; shr_r := false; shr_s := false |}, e + n)).
  { unfold shr. destruct n as [|n|n]; [|by rewrite <- iter_shr_exact with (n := n)|lia].
    cbn [shr_record_of_loc]. do 2 f_equal; lia. }
  rewrite Hs. cbn [shr_m loc_of_shr_record round_nearest_even].
  unfold Zdigits2. rewrite (digits2_unique M prec) by lia.
  unfold fexp. replace (Z.max (prec + (e + n) - prec) (emin prec emax) - (e + n)) with 0 by lia.
  cbn [shr shr_record_of_loc shr_m]. by rewrite (proj2 (Z.leb_le _ _)) by lia.
Qed.

Lemma iter_xO d : forall m, Zpos (Pos.iter xO m d) = Zpos m * 2 ^ Zpos d.
Proof.
  intros m. induction d as [|d IH] using Pos.peano_ind; [cbn; lia|].
  rewrite Pos.iter_succ, (Pos2Z.inj_xO (Pos.iter _ _ _)), IH, Pos2Z.inj_succ, Z.pow_succ_r by lia. lia.
Qed.

(** The number [p * 2 ^ e], which has an exact representation [M * 2 ^ ex]. *)
Lemma round_exact s p e M ex : 2 ^ (prec - 1) <= Zpos M < 2 ^ prec ->
  emin prec emax <= ex <= emax - prec ->
  (e <= ex /\ Zpos p = Zpos M * 2 ^ (ex - e) \/ ex < e /\ Zpos p * 2 ^ (e - ex) = Zpos M) ->
  binary_round prec emax s p e = S754_finite s M ex.
Proof.
  intros HM Hex Hp. unfold binary_round.
  assert (Hd : fexp prec emax (Zpos (digits2_pos p) + e) = ex).
  { enough (Zpos (digits2_pos p) = prec + ex - e) as -> by (unfold fexp; lia).
    destruct Hp as [[He Hp]|[He Hp]].
    - apply digits2_unique; [lia|]. rewrite Hp.
      replace (prec + ex - e - 1) with (prec - 1 + (ex - e)) by lia.
      replace (prec + ex - e) with (prec + (ex - e)) by lia. rewrite !Z.pow_add_r by lia.
      assert (0 < 2 ^ (ex - e)) by (apply Z.pow_pos_nonneg; lia). nia.
    - enough (Zpos (digits2_pos p) + (e - ex) = prec) by lia.
      rewrite <- (digits2_unique M prec) by lia. symmetry. apply digits2_unique; [lia|].
      rewrite <- Hp. pose proof (digits2_pos_bounds p).
      replace (Zpos (digits2_pos p) + (e - ex) - 1) with (Zpos (digits2_pos p) - 1 + (e - ex)) by lia.
      rewrite !Z.pow_add_r by lia. assert (0 < 2 ^ (e - ex)) by (apply Z.pow_pos_nonneg; lia). nia. }
  rewrite Hd. unfold shl_align. destruct Hp as [[He Hp]|[He Hp]].
  - replace (ex) with (e + (ex - e)) at 2 by lia.
    destruct (ex - e) as [|q|q] eqn:E; [| |lia].
    + rewrite Hp. rewrite round_aux_exact by (rewrite ?E; lia). f_equal; lia.
    + rewrite Hp. rewrite round_aux_exact by (rewrite ?E; lia). f_equal; lia.
  - destruct (ex - e) as [|q|q] eqn:E; [lia|lia|]. rewrite iter_xO.
    replace (Zpos q) with (e - ex) by lia. rewrite Hp.
    replace (Zpos M) with (Zpos M * 2 ^ 0) by lia. rewrite round_aux_exact by lia. f_equal; lia.
Qed.

(** The normal form of an integer of at most [prec] digits. *)
Lemma normal_form p : Zpos p < 2 ^ prec -> exists M ex,
  ex <= 0 /\ 1 - prec <= ex /\ Zpos p * 2 ^ (- ex) = Zpos M /\ 2 ^ (prec - 1) <= Zpos M < 2 ^ prec.
Proof.
  intros Hp. pose proof (digits2_pos_bounds p) as Hb. set (d := Zpos (digits2_pos p)) in *.
  assert (Hd : d <= prec).
  { destruct (Z.le_gt_cases d prec); [done|]. pose proof (Z.pow_le_mono_r 2 prec (d - 1)). lia. }
  assert (0 < d) by (subst d; lia).
  exists (Z.to_pos (Zpos p * 2 ^ (prec - d))), (d - prec).
  assert (0 < 2 ^ (prec - d)) by (apply Z.pow_pos_nonneg; lia).
  rewrite Z2Pos.id by lia. split; [lia|]. split; [lia|].
  split; [f_equal; f_equal; lia|].
  assert (2 ^ prec = 2 ^ d * 2 ^ (prec - d)) by (rewrite <- Z.pow_add_r by lia; f_equal; lia).
  assert (2 ^ (prec - 1) = 2 ^ (d - 1) * 2 ^ (prec - d)) by (rewrite <- Z.pow_add_r by lia; f_equal; lia).
  nia.
Qed.

Lemma round_int s p q e : Zpos p < 2 ^ prec -> e <= 0 -> Zpos q = Zpos p * 2 ^ (- e) ->
  binary_round prec emax s q e = binary_round prec emax s p 0.
Proof.
  intros Hp He Hq. destruct (normal_form p Hp) as (M & ex & H1 & H2 & H3 & H4).
  assert (emin prec emax <= ex <= emax - prec) by (unfold emin; lia).
  assert (Hb : forall q e, e <= 0 -> Zpos q = Zpos p * 2 ^ (- e) ->
    binary_round prec emax s q e = S754_finite s M ex).
  { intros q' e' He' Hq'. apply round_exact; [done|done|].
    destruct (Z.le_gt_cases e' ex); [left|right]; (split; [done|]); rewrite Hq', <- H3, <- Z.mul_assoc,
      <- Z.pow_add_r by lia; do 2 f_equal; lia. }
  rewrite (Hb q e), (Hb p 0); [done|lia| |done|done]. cbn. lia.
Qed.

Lemma normalize_int z m e s : Z.abs z < 2 ^ prec -> e <= 0 -> m = z * 2 ^ (- e) ->
  binary_normalize prec emax m e s = if decide (z = 0) then S754_zero s else of_Z prec emax z.
Proof.
  intros Hz He ->. assert (0 < 2 ^ (- e)) by (apply Z.pow_pos_nonneg; lia).
  destruct z as [|p|p]; [done| |]; rewrite decide_False by done; unfold of_Z; cbn [binary_normalize].
  - destruct (Zpos p * 2 ^ (- e)) as [|q|q] eqn:E; [nia| |nia]. apply round_int; lia.
  - destruct (Zneg p * 2 ^ (- e)) as [|q|q] eqn:E; [nia|nia|]. apply round_int; lia.
Qed.

(** [x] is the integer [z] in this format; zero has two signs. *)
Definition is_int (x : spec_float) (z : Z) : Prop :=
  if decide (z = 0) then exists s, x = S754_zero s else x = of_Z prec emax z.

Lemma is_int_of_Z z : is_int (of_Z prec emax z) z.
Proof. unfold is_int. case_decide; [|done]. subst. by eexists. Qed.

Lemma is_int_normalize z m e s : Z.abs z < 2 ^ prec -> e <= 0 -> m = z * 2 ^ (- e) ->
  is_int (binary_normalize prec emax m e s) z.
Proof.
  intros. rewrite (normalize_int z) by done. unfold is_int. case_decide; [by eexists|done].
Qed.

(** The cases of an integer in the format. *)
Lemma is_int_cases x z : Z.abs z < 2 ^ prec -> is_int x z ->
  (z = 0 /\ exists s, x = S754_zero s) \/
  (z <> 0 /\ exists s M e, x = S754_finite s M e /\ e <= 0 /\ 1 - prec <= e /\ 2 ^ (prec - 1) <= Zpos M < 2 ^ prec /\
     cond_Zopp s (Zpos M) = z * 2 ^ (- e) /\ s = (z <? 0)).
Proof.
  intros Hz. unfold is_int. case_decide as H0; [by left|]. intros ->. right. split; [done|].
  destruct z as [|p|p]; [done| |]; unfold of_Z; cbn [binary_normalize];
    destruct (normal_form p) as (M & ex & H1 & H2 & H3 & H4); try lia;
    eexists _, M, ex; (split; [apply round_exact; [done|unfold emin; lia|]|]).
  1,3: cbn; destruct (Z.le_gt_cases 0 ex); [left|right]; (split; [lia|]);
       [replace ex with 0 in * by lia; cbn in *; lia|rewrite Z.sub_0_l; lia].
  all: cbn; repeat split; lia.
Qed.

Lemma align_int s M e ez : ez <= e -> 
  cond_Zopp s (Zpos (fst (shl_align M e ez))) = cond_Zopp s (Zpos M) * 2 ^ (e - ez).
Proof.
  intros He. unfold shl_align. destruct (ez - e) as [|d|d] eqn:E; [| lia|]; cbn [fst].
  - replace (e - ez) with 0 by lia. lia.
  - rewrite iter_xO. replace (e - ez) with (Zpos d) by lia. destruct s; cbn [cond_Zopp]; lia.
Qed.

(** ** Sums and products within the format are exact *)
Lemma of_Z_add y a b : Z.abs a < 2 ^ prec -> Z.abs b < 2 ^ prec -> Z.abs (a + b) < 2 ^ prec ->
  is_int y b -> SFadd prec emax (of_Z prec emax a) y = of_Z prec emax (a + b).
Proof.
  intros Ha Hb Hab Hy. pose proof (is_int_of_Z a) as Hx.
  destruct (is_int_cases _ b Hb Hy) as [[-> [sy ->]]|(Hb0 & sy & My & ey & -> & Ey & _ & _ & Vy & _)].
  - rewrite Z.add_0_r. destruct (is_int_cases _ a Ha Hx) as [[-> _]|(Ha0 & sx & Mx & ex & -> & _)]; [|done].
    by destruct sy.
  - destruct (is_int_cases _ a Ha Hx) as [[-> _]|(Ha0 & sx & Mx & ex & Eq & Ex & _ & _ & Vx & _)].
    + unfold is_int in Hy. rewrite decide_False in Hy by done. by rewrite Z.add_0_l.
    + rewrite Eq. cbn [SFadd]. rewrite (normalize_int (a + b)); [|done|lia|].
      * case_decide as H0; [by rewrite H0|done].
      * rewrite !align_int, Vx, Vy by lia.
        rewrite Z.mul_add_distr_r, <- !Z.mul_assoc, <- !Z.pow_add_r by lia. do 3 f_equal; lia.
Qed.

Lemma is_int_mul x y a b : Z.abs a < 2 ^ prec -> Z.abs b < 2 ^ prec -> Z.abs (a * b) < 2 ^ prec ->
  is_int x a -> is_int y b -> is_int (SFmul prec emax x y) (a * b).
Proof.
  intros Ha Hb Hab Hx Hy.
  destruct (is_int_cases x a Ha Hx) as [[-> [sx ->]]|(Ha0 & sx & Mx & ex & -> & Ex & Lx & Bx & Vx & Sx)];
    destruct (is_int_cases y b Hb Hy) as [[-> [sy ->]]|(Hb0 & sy & My & ey & -> & Ey & Ly & By & Vy & Sy)];
    cbn [SFmul]; rewrite ?Z.mul_0_r, ?Z.mul_0_l.
  1-3: unfold is_int; cbn; by eexists.
  unfold is_int. rewrite decide_False by nia.
  assert (HM : Zpos (Mx * My) = Z.abs (a * b) * 2 ^ (- (ex + ey))).
  { rewrite Z.opp_add_distr, Z.pow_add_r, Z.abs_mul, Pos2Z.inj_mul by lia.
    assert (forall s M z k, cond_Zopp s (Zpos M) = z * 2 ^ k -> 0 <= k -> Zpos M = Z.abs z * 2 ^ k) as Hc.
    { intros s M z k Hv Hk. assert (0 < 2 ^ k) by (apply Z.pow_pos_nonneg; lia).
      replace (Zpos M) with (Z.abs (cond_Zopp s (Zpos M))) by (destruct s; cbn; lia).
      rewrite Hv, Z.abs_mul. f_equal. lia. }
    rewrite (Hc _ _ _ _ Vx), (Hc _ _ _ _ Vy) by lia. ring. }
  destruct (Z.abs (a * b)) as [|p|p] eqn:Ep; [nia| |nia].
  destruct (normal_form p ltac:(lia)) as (M & em & H1 & H2 & H3 & H4).
  assert (Hle : ex + ey <= em).
  { destruct (Z.le_gt_cases (ex + ey) em) as [|Hgt]; [done|exfalso].
    assert (HMM : Zpos M = Zpos (Mx * My) * 2 ^ (ex + ey - em)).
    { rewrite HM, <- H3, <- Z.mul_assoc, <- Z.pow_add_r by lia. do 2 f_equal; lia. }
    assert (2 ^ 1 <= 2 ^ (ex + ey - em)) by (apply Z.pow_le_mono_r; lia).
    assert (2 ^ prec = 2 * 2 ^ (prec - 1)) by (rewrite <- Z.pow_succ_r by lia; f_equal; lia).
    assert (1 <= 2 ^ (prec - 1)) by (apply (Z.pow_le_mono_r 2 0); lia).
    rewrite Pos2Z.inj_mul in *. nia. }
  replace (Zpos (Mx * My)) with (Zpos M * 2 ^ (em - (ex + ey)))
    by (rewrite HM, <- H3, <- Z.mul_assoc, <- Z.pow_add_r by lia; do 2 f_equal; lia).
  rewrite round_aux_exact by (unfold emin; lia).
  replace (ex + ey + (em - (ex + ey))) with em by lia.
  assert (Hr : forall s, binary_round prec emax s p 0 = S754_finite s M em).
  { intros s. apply round_exact; [done|unfold emin; lia|].
    destruct (Z.le_gt_cases 0 em); [left|right]; (split; [lia|]);
       [replace em with 0 in * by lia; cbn in *; lia|rewrite Z.sub_0_l; lia]. }
  unfold of_Z. destruct (a * b) as [|q|q] eqn:Eq; rewrite ?Eq in Ep; cbn in Ep; [lia| |];
    injection Ep as ->; cbn [binary_normalize]; rewrite Hr; f_equal; subst sx sy.
  - destruct (Z.ltb_spec a 0), (Z.ltb_spec b 0); cbn; try done; nia.
  - destruct (Z.ltb_spec a 0), (Z.ltb_spec b 0); cbn; try done; nia.
Qed.
End Integers.

(** ** Conversions *)
Lemma is_int_convert p1 e1 p2 e2 x z : 0 < p1 -> 2 <= e1 /\ p1 <= e1 -> 0 < p2 -> 2 <= e2 /\ p2 <= e2 ->
  Z.abs z < 2 ^ p1 -> Z.abs z < 2 ^ p2 -> is_int p1 e1 x z -> is_int p2 e2 (convert p2 e2 x) z.
Proof.
  intros Hp1 He1 Hp2 He2 Hz1 Hz2 Hx.
  destruct (is_int_cases p1 e1 Hp1 He1 x z Hz1 Hx) as [[-> [s ->]]|(H0 & s & M & e & -> & E & _ & _ & V & _)].
  - unfold is_int. cbn. by eexists.
  - cbn [convert]. apply is_int_normalize; done.
Qed.
