(* ===== verification/PortalMat.v ===== *)
(** Matrices in portal memory: [lib/matmul/cpp/portalmat.cpp] and
    [portalmat.h], on the floating-point numbers of [FloatArith].

    The state holds the matrix objects of the program (headers, named by
    numbers, as C++ passes them by reference), the allocator with its table of
    arrays, the memory of the arrays, and what the hardware sees: the memory
    objects that descriptors name and the references of the MMU.  Headers can
    share their data, and a write through one is seen through the other.

    OpenCV and the accelerators are classes: [OpenCV] has the operations of
    [cv::Mat] that the code calls with their documented behaviour, which calls
    back the allocator; [Accelerator] turns a request into writes to memory and
    indications.  The kernel's answers ([portalAlloc], [portalMmap], the
    references of [dma->reference]) are lists of the state. *)

From stdpp Require Import base gmap list option fin_maps.
From Stdlib Require Import ZArith Lia SpecFloat.
From S2P Require Import Prelude FloatArith.
#[local] Open Scope list_scope.
#[local] Open Scope Z_scope.

(** * Data *)

(** [struct arrayInfo]; a pointer to it is its index in the table. *)
Record arrayInfo_t : Type := {
  info_refcount : Z; info_fd : Z; info_data : Z; info_totalsize : Z; info_ref : Z }.

Definition set_info_refcount (v : Z) (r : arrayInfo_t) : arrayInfo_t :=
  {| info_refcount := v; info_fd := info_fd r; info_data := info_data r;
     info_totalsize := info_totalsize r; info_ref := info_ref r |}.
Definition set_info_ref (v : Z) (r : arrayInfo_t) : arrayInfo_t :=
  {| info_refcount := info_refcount r; info_fd := info_fd r; info_data := info_data r;
     info_totalsize := info_totalsize r; info_ref := v |}.

Definition arrayInfo0 : arrayInfo_t :=
  {| info_refcount := 0; info_fd := 0; info_data := 0; info_totalsize := 0; info_ref := 0 |}.

(** The header of a matrix of [float]s in row-major order. *)
Record Mat : Type := { rows : Z; cols : Z; datastart : Z; refcount : Z }.
Definition Mat0 : Mat := {| rows := 0; cols := 0; datastart := 0; refcount := 0 |}.

(** What the program asks of the accelerators. *)
Inductive request : Type :=
| Mmf (aref arows acols bref brows bcols cref : Z) (sizes : list Z)
| SigmoidTableSize
| SigmoidSetLimits (rscale llimit ulimit : float)
| SigmoidUpdateTable (readPointer readOffset numEntries : Z)
| Sigmoid (readPointer readOffset writePointer writeOffset numElts : Z)
| ComputeStates (readPointer readOffset readPointer2 readOffset2 writePointer writeOffset numElts : Z)
| UpdateWeights (posPointer negPointer weightsPointer numElts : Z) (rate : float)
| SumOfErrorSquared (dataPointer predPointer numElts : Z).

(** What they answer. *)
Inductive indication : Type :=
| mmfDone (cycles : Z) | dpsVal (v : Z) | started | startSourceAndSink (a c : Z) (j : Z) | debug (macCount : Z)
| bramMmfDone | toBramDone | fromBramDone | statesDone | updateWeightsDone
| sumOfErrorSquaredDone (x : float) | sumOfErrorSquaredDebug (macCount : Z) | dbg (a b c d : Z)
| sigmoidDone | tableUpdated (addr : Z) | tableSize (size : Z).

(** [fdmap]: where the memory object of a descriptor is mapped; [mmu]: the
    descriptor of a reference. *)
Record MW : Type := {
  mats : gmap nat Mat; arrayInfo : list arrayInfo_t; numarrays : Z; heap : gmap Z (list float);
  fdmap : gmap Z Z; mmu : gmap Z Z; fds : list Z; addrs : list Z;
  ids : list Z; flushed : list Z; pending : list request; mul_sem : Z;
  ccnt : Z; tableSize_ : Z; sum_of_errors_squared : float; drand : list double }.

Definition set_mats (v : gmap nat Mat) (r : MW) : MW :=
  {| mats := v; arrayInfo := arrayInfo r; numarrays := numarrays r; heap := heap r;
     fdmap := fdmap r; mmu := mmu r; fds := fds r; addrs := addrs r; ids := ids r;
     flushed := flushed r; pending := pending r; mul_sem := mul_sem r; ccnt := ccnt r;
     tableSize_ := tableSize_ r; sum_of_errors_squared := sum_of_errors_squared r;
     drand := drand r |}.
Definition set_arrayInfo (v : list arrayInfo_t) (r : MW) : MW :=
  {| mats := mats r; arrayInfo := v; numarrays := numarrays r; heap := heap r;
     fdmap := fdmap r; mmu := mmu r; fds := fds r; addrs := addrs r; ids := ids r;
     flushed := flushed r; pending := pending r; mul_sem := mul_sem r; ccnt := ccnt r;
     tableSize_ := tableSize_ r; sum_of_errors_squared := sum_of_errors_squared r;
     drand := drand r |}.
Definition set_numarrays (v : Z) (r : MW) : MW :=
  {| mats := mats r; arrayInfo := arrayInfo r; numarrays := v; heap := heap r;
     fdmap := fdmap r; mmu := mmu r; fds := fds r; addrs := addrs r; ids := ids r;
     flushed := flushed r; pending := pending r; mul_sem := mul_sem r; ccnt := ccnt r;
     tableSize_ := tableSize_ r; sum_of_errors_squared := sum_of_errors_squared r;
     drand := drand r |}.
Definition set_heap (v : gmap Z (list float)) (r : MW) : MW :=
  {| mats := mats r; arrayInfo := arrayInfo r; numarrays := numarrays r; heap := v;
     fdmap := fdmap r; mmu := mmu r; fds := fds r; addrs := addrs r; ids := ids r;
     flushed := flushed r; pending := pending r; mul_sem := mul_sem r; ccnt := ccnt r;
     tableSize_ := tableSize_ r; sum_of_errors_squared := sum_of_errors_squared r;
     drand := drand r |}.
Definition set_fdmap (v : gmap Z Z) (r : MW) : MW :=
  {| mats := mats r; arrayInfo := arrayInfo r; numarrays := numarrays r; heap := heap r;
     fdmap := v; mmu := mmu r; fds := fds r; addrs := addrs r; ids := ids r;
     flushed := flushed r; pending := pending r; mul_sem := mul_sem r; ccnt := ccnt r;
     tableSize_ := tableSize_ r; sum_of_errors_squared := sum_of_errors_squared r;
     drand := drand r |}.
Definition set_mmu (v : gmap Z Z) (r : MW) : MW :=
  {| mats := mats r; arrayInfo := arrayInfo r; numarrays := numarrays r; heap := heap r;
     fdmap := fdmap r; mmu := v; fds := fds r; addrs := addrs r; ids := ids r;
     flushed := flushed r; pending := pending r; mul_sem := mul_sem r; ccnt := ccnt r;
     tableSize_ := tableSize_ r; sum_of_errors_squared := sum_of_errors_squared r;
     drand := drand r |}.
Definition set_fds (v : list Z) (r : MW) : MW :=
  {| mats := mats r; arrayInfo := arrayInfo r; numarrays := numarrays r; heap := heap r;
     fdmap := fdmap r; mmu := mmu r; fds := v; addrs := addrs r; ids := ids r;
     flushed := flushed r; pending := pending r; mul_sem := mul_sem r; ccnt := ccnt r;
     tableSize_ := tableSize_ r; sum_of_errors_squared := sum_of_errors_squared r;
     drand := drand r |}.
Definition set_addrs (v : list Z) (r : MW) : MW :=
  {| mats := mats r; arrayInfo := arrayInfo r; numarrays := numarrays r; heap := heap r;
     fdmap := fdmap r; mmu := mmu r; fds := fds r; addrs := v; ids := ids r;
     flushed := flushed r; pending := pending r; mul_sem := mul_sem r; ccnt := ccnt r;
     tableSize_ := tableSize_ r; sum_of_errors_squared := sum_of_errors_squared r;
     drand := drand r |}.
Definition set_ids (v : list Z) (r : MW) : MW :=
  {| mats := mats r; arrayInfo := arrayInfo r; numarrays := numarrays r; heap := heap r;
     fdmap := fdmap r; mmu := mmu r; fds := fds r; addrs := addrs r; ids := v;
     flushed := flushed r; pending := pending r; mul_sem := mul_sem r; ccnt := ccnt r;
     tableSize_ := tableSize_ r; sum_of_errors_squared := sum_of_errors_squared r;
     drand := drand r |}.
Definition set_flushed (v : list Z) (r : MW) : MW :=
  {| mats := mats r; arrayInfo := arrayInfo r; numarrays := numarrays r; heap := heap r;
     fdmap := fdmap r; mmu := mmu r; fds := fds r; addrs := addrs r; ids := ids r;
     flushed := v; pending := pending r; mul_sem := mul_sem r; ccnt := ccnt r;
     tableSize_ := tableSize_ r; sum_of_errors_squared := sum_of_errors_squared r;
     drand := drand r |}.
Definition set_pending (v : list request) (r : MW) : MW :=
  {| mats := mats r; arrayInfo := arrayInfo r; numarrays := numarrays r; heap := heap r;
     fdmap := fdmap r; mmu := mmu r; fds := fds r; addrs := addrs r; ids := ids r;
     flushed := flushed r; pending := v; mul_sem := mul_sem r; ccnt := ccnt r;
     tableSize_ := tableSize_ r; sum_of_errors_squared := sum_of_errors_squared r;
     drand := drand r |}.
Definition set_mul_sem (v : Z) (r : MW) : MW :=
  {| mats := mats r; arrayInfo := arrayInfo r; numarrays := numarrays r; heap := heap r;
     fdmap := fdmap r; mmu := mmu r; fds := fds r; addrs := addrs r; ids := ids r;
     flushed := flushed r; pending := pending r; mul_sem := v; ccnt := ccnt r;
     tableSize_ := tableSize_ r; sum_of_errors_squared := sum_of_errors_squared r;
     drand := drand r |}.
Definition set_ccnt (v : Z) (r : MW) : MW :=
  {| mats := mats r; arrayInfo := arrayInfo r; numarrays := numarrays r; heap := heap r;
     fdmap := fdmap r; mmu := mmu r; fds := fds r; addrs := addrs r; ids := ids r;
     flushed := flushed r; pending := pending r; mul_sem := mul_sem r; ccnt := v;
     tableSize_ := tableSize_ r; sum_of_errors_squared := sum_of_errors_squared r;
     drand := drand r |}.
Definition set_tableSize_ (v : Z) (r : MW) : MW :=
  {| mats := mats r; arrayInfo := arrayInfo r; numarrays := numarrays r; heap := heap r;
     fdmap := fdmap r; mmu := mmu r; fds := fds r; addrs := addrs r; ids := ids r;
     flushed := flushed r; pending := pending r; mul_sem := mul_sem r; ccnt := ccnt r;
     tableSize_ := v; sum_of_errors_squared := sum_of_errors_squared r; drand := drand r |}.
Definition set_sum_of_errors_squared (v : float) (r : MW) : MW :=
  {| mats := mats r; arrayInfo := arrayInfo r; numarrays := numarrays r; heap := heap r;
     fdmap := fdmap r; mmu := mmu r; fds := fds r; addrs := addrs r; ids := ids r;
     flushed := flushed r; pending := pending r; mul_sem := mul_sem r; ccnt := ccnt r;
     tableSize_ := tableSize_ r; sum_of_errors_squared := v; drand := drand r |}.
Definition set_drand (v : list double) (r : MW) : MW :=
  {| mats := mats r; arrayInfo := arrayInfo r; numarrays := numarrays r; heap := heap r;
     fdmap := fdmap r; mmu := mmu r; fds := fds r; addrs := addrs r; ids := ids r;
     flushed := flushed r; pending := pending r; mul_sem := mul_sem r; ccnt := ccnt r;
     tableSize_ := tableSize_ r; sum_of_errors_squared := sum_of_errors_squared r; drand := v |}.

(** * Loops *)

Fixpoint for_loop {W A} (n : nat) (i : Z) (body : Z -> A -> M W A) (a : A) : M W A :=
  match n with
  | O => mret a
  | S n => a ← body i a; for_loop n (i + 1) body a
  end.

(** [for (i = 0; i < r; i++) for (j = 0; j < c; j++)]. *)
Definition for_mat {W A} (r c : Z) (body : Z -> Z -> A -> M W A) (a : A) : M W A :=
  for_loop (Z.to_nat r) 0 (fun i a => for_loop (Z.to_nat c) 0 (fun j a => body i j a) a) a.

(** * The services below the library *)

Definition take_answer (get : MW -> list Z) (set : list Z -> MW -> MW) : M MW Z :=
  w ← getW;
  match get w with
  | [] => block
  | x :: l => putW (set l w) ;; mret x
  end.

Definition portalAlloc (size : Z) : M MW Z := take_answer fds set_fds.

(** [MAP_FAILED] is -1; the driver clears the pages it gives. *)
Definition portalMmap (fd size : Z) : M MW Z :=
  a ← take_answer addrs set_addrs;
  (if decide (a = -1) then mret tt
   else modifyW (fun w => set_heap (<[a := replicate (Z.to_nat (size / 4)) (S754_zero false)]> (heap w))
                            (set_fdmap (<[fd := a]> (fdmap w)) w))) ;;
  mret a.

Definition munmap (a : Z) : M MW unit := modifyW (fun w => set_heap (delete a (heap w)) w).
Definition close (fd : Z) : M MW unit := modifyW (fun w => set_fdmap (delete fd (fdmap w)) w).
Definition portalDCacheFlushInval (fd : Z) : M MW unit := modifyW (fun w => set_flushed (flushed w ++ [fd]) w).

Definition dma_reference (fd : Z) : M MW Z :=
  id ← take_answer ids set_ids;
  modifyW (fun w => set_mmu (<[id := fd]> (mmu w)) w) ;;
  mret id.
Definition dma_dereference (ref : Z) : M MW unit := modifyW (fun w => set_mmu (delete ref (mmu w)) w).

(** * The allocator *)

Class AlignSize : Type := alignSize : Z -> Z -> Z.

Section Allocator.
Context {AS : AlignSize}.

Definition upd_info (k : Z) (x : arrayInfo_t) : M MW unit :=
  w ← getW; l ← defined (zupd (arrayInfo w) k x); putW (set_arrayInfo l w).
Definition get_info (k : Z) : M MW arrayInfo_t :=
  w ← getW; defined (znth (arrayInfo w) k).

(** For an array of two dimensions, [step[0]] bytes in a row.  The result is
    the pointer to the table's entry and the address of the data. *)
Definition allocate (sizes0 step0 : Z) : M MW (Z * Z) :=
  let arraysize := u64 (step0 * sizes0) in
  let totalsize := alignSize arraysize 4096 in
  w ← getW;
  let arraynum := numarrays w in
  putW (set_numarrays (arraynum + 1) w) ;;
  fd ← portalAlloc totalsize;
  info ← get_info arraynum;
  a ← portalMmap fd totalsize;
  upd_info arraynum {| info_refcount := 1; info_fd := fd; info_data := a;
                       info_totalsize := totalsize; info_ref := 0 |} ;;
  mret (arraynum, a).

Definition deallocate (k datastart : Z) : M MW unit :=
  info ← get_info k;
  munmap datastart ;;
  dma_dereference (info_ref info) ;;
  close (info_fd info) ;;
  upd_info k arrayInfo0.

Definition allocator_reference (k : Z) : M MW Z :=
  info ← get_info k;
  let ref := info_ref info in
  if decide (ref = 0) then
    ref ← dma_reference (info_fd info);
    upd_info k (set_info_ref ref info) ;;
    mret ref
  else mret ref.

Definition allocator_cacheFlushInvalidate (k : Z) : M MW unit :=
  info ← get_info k;
  portalDCacheFlushInval (info_fd info).
End Allocator.

(** * OpenCV

    [create] leaves a matrix of the wanted shape as it is; else it releases the
    data and asks the allocator for new memory; [release] gives back the data
    with its last header. *)

Definition put_mat (o : nat) (h : Mat) : M MW unit := modifyW (fun w => set_mats (<[o := h]> (mats w)) w).
Definition get_mat (o : nat) : M MW Mat := w ← getW; defined (mats w !! o).

Definition new_array `{!AlignSize} (o : nat) (r c : Z) : M MW unit :=
  '(k, a) ← allocate r (4 * c);
  put_mat o {| rows := r; cols := c; datastart := a; refcount := k |}.

Class OpenCV `{!AlignSize} : Type := {
  create : nat -> Z -> Z -> M MW unit;
  release : nat -> M MW unit;
  alignSize_spec n : 0 <= n -> n <= alignSize n 4096 < n + 4096 /\ alignSize n 4096 mod 4096 = 0;
  create_same o r c w h : mats w !! o = Some h -> datastart h <> 0 -> rows h = r -> cols h = c ->
    create o r c w = Ok tt w;
  create_new o r c w : mats w !! o = Some Mat0 -> 0 < r -> 0 < c ->
    create o r c w = new_array o r c w;
  create_other o r c w h : mats w !! o = Some h -> datastart h <> 0 -> (rows h, cols h) <> (r, c) ->
    0 < r -> 0 < c -> create o r c w = (release o ;; create o r c) w;
  release_last o w h info : mats w !! o = Some h -> refcount h <> 0 -> znth (arrayInfo w) (refcount h) = Some info ->
    info_refcount info = 1 -> release o w = (deallocate (refcount h) (datastart h) ;; put_mat o Mat0) w;
  release_shared o w h info : mats w !! o = Some h -> refcount h <> 0 -> znth (arrayInfo w) (refcount h) = Some info ->
    1 < info_refcount info ->
    release o w = (upd_info (refcount h) (set_info_refcount (info_refcount info - 1) info) ;; put_mat o Mat0) w
}.

(** The accelerators: the objects a request writes, given the contents of the
    objects that references name, and the indications it sends. *)
Class Accelerator : Type :=
  acc_run : request -> (Z -> option (list float)) -> list (Z * list float) * list indication.

Definition object (w : MW) (ref : Z) : option (list float) := f ← mmu w !! ref; a ← fdmap w !! f; heap w !! a.
(** A write through a reference that names nothing is lost. *)
Definition object_write (ref : Z) (l : list float) (w : MW) : MW :=
  match f ← mmu w !! ref; fdmap w !! f with
  | Some a => set_heap (<[a := l]> (heap w)) w
  | None => w
  end.

Definition sem_post : M MW unit := modifyW (fun w => set_mul_sem (mul_sem w + 1) w).

(** The methods of [MmIndication], [RbmIndication] and [SigmoidIndication]. *)
Definition handle (i : indication) : M MW unit :=
  match i with
  | mmfDone cycles => modifyW (set_ccnt cycles) ;; sem_post
  | dpsVal _ => sem_post
  | started => mret tt
  | startSourceAndSink _ _ _ => mret tt
  | debug _ => mret tt
  | bramMmfDone => sem_post
  | toBramDone => sem_post
  | fromBramDone => sem_post
  | statesDone => sem_post
  | updateWeightsDone => sem_post
  | sumOfErrorSquaredDone x => modifyW (set_sum_of_errors_squared x) ;; sem_post
  | sumOfErrorSquaredDebug _ => mret tt
  | dbg _ _ _ _ => mret tt
  | sigmoidDone => sem_post
  | tableUpdated _ => sem_post
  | tableSize size => modifyW (set_tableSize_ size) ;; sem_post
  end.
Fixpoint handle_all (l : list indication) : M MW unit :=
  match l with [] => mret tt | i :: l => handle i ;; handle_all l end.

Section Mats.
Context {AS : AlignSize} {CV : OpenCV} {AC : Accelerator}.

Definition send (r : request) : M MW unit := modifyW (fun w => set_pending (pending w ++ [r]) w).

(** The accelerators serve a request and its indications are handled. *)
Definition serve (r : request) : M MW unit :=
  w ← getW;
  let '(writes, inds) := acc_run r (object w) in
  putW (foldr (fun x w => object_write x.1 x.2 w) w writes) ;;
  handle_all inds.

(** [sem_wait(&mul_sem)]: meanwhile the pending requests are served. *)
Fixpoint sem_wait_loop (l : list request) : M MW unit :=
  w ← getW;
  if decide (mul_sem w > 0) then putW (set_mul_sem (mul_sem w - 1) w)
  else match l with
       | [] => block
       | r :: l => modifyW (set_pending l) ;; serve r ;; sem_wait_loop l
       end.
Definition sem_wait : M MW unit := w ← getW; sem_wait_loop (pending w).

(** * Matrices *)

(** [at<float>(i, j)]. *)
Definition at_ (o : nat) (i j : Z) : M MW float :=
  h ← get_mat o; w ← getW;
  b ← defined (heap w !! datastart h);
  defined (znth b (i * cols h + j)).
Definition set_at (o : nat) (i j : Z) (v : float) : M MW unit :=
  h ← get_mat o; w ← getW;
  b ← defined (heap w !! datastart h);
  b ← defined (zupd b (i * cols h + j) v);
  putW (set_heap (<[datastart h := b]> (heap w)) w).

(** The constructors. *)
Definition PortalMat (this : nat) : M MW unit := put_mat this Mat0.
Definition PortalMat_shape (this : nat) (r c : Z) : M MW unit := PortalMat this ;; create this r c.
Definition PortalMat_copy (this m : nat) : M MW unit :=
  PortalMat this ;;
  h ← get_mat m;
  create this (rows h) (cols h) ;;
  for_mat (rows h) (cols h) (fun i j _ => v ← at_ m i j; set_at this i j v) tt.

Definition reference (this : nat) : M MW Z := h ← get_mat this; allocator_reference (refcount h).
Definition cacheFlushInvalidate (this : nat) : M MW unit :=
  h ← get_mat this; allocator_cacheFlushInvalidate (refcount h).

Definition copy (this other : nat) : M MW bool :=
  h ← get_mat other;
  create this (rows h) (cols h) ;;
  h ← get_mat this;
  for_mat (rows h) (cols h) (fun i j _ => v ← at_ other i j; set_at this i j v) tt ;;
  mret true.

Definition transpose (this other : nat) : M MW bool :=
  h ← get_mat other;
  create this (cols h) (rows h) ;;
  h ← get_mat this;
  for_mat (rows h) (cols h) (fun i j _ => v ← at_ other j i; set_at this i j v) tt ;;
  mret true.

(** [fabs((v - refVal) / refVal) > epsilon] *)
Definition mismatch (epsilon v refVal : float) : bool := flt epsilon (fabs (fdiv (fsub v refVal) refVal)).

Definition compare (this refMat : nat) (epsilon : float) : M MW bool :=
  h ← get_mat this; h' ← get_mat refMat;
  if decide (rows h <> rows h' \/ cols h <> cols h') then mret false
  else for_mat (rows h) (cols h) (fun i j rv =>
    v ← at_ this i j;
    refVal ← at_ refMat i j;
    mret (if mismatch epsilon v refVal then false else rv)) true.

Definition naive_mul (this a b : nat) : M MW unit :=
  ha ← get_mat a; hb ← get_mat b;
  assert (bool_decide (cols ha = rows hb)) ;;
  create this (rows ha) (cols hb) ;;
  h ← get_mat this;
  for_mat (rows h) (cols h) (fun i j _ =>
    ha ← get_mat a;
    c ← for_loop (Z.to_nat (cols ha)) 0 (fun l c =>
          x ← at_ a i l;
          y ← at_ b l j;
          mret (dadd c (dmul (double_of_float x) (double_of_float y)))) (S754_zero false);
    set_at this i j (float_of_double c)) tt.

(** The number of rows of [a] and of [b] that the engine works on at a time. *)
Variables J_VALUE K_VALUE : Z.

(** [MATRIX_NT]: [this] becomes [a] times the transpose of [b_transpose]. *)
Definition multf_NT (this a b_transpose : nat) : M MW unit :=
  ha ← get_mat a; hb ← get_mat b_transpose;
  create this (rows ha) (rows hb) ;;
  cacheFlushInvalidate this ;;
  ha ← get_mat a; hb ← get_mat b_transpose;
  if decide (cols ha <> cols hb) then mret tt
  else
    aref ← reference a;
    bref ← reference b_transpose;
    cref ← reference this;
    send (Mmf aref (rows ha) (cols ha) bref (rows hb) (cols hb) cref
            [u32 (rows ha * cols ha); u32 (cols ha * J_VALUE);
             u32 (rows hb * cols hb); u32 (cols hb * K_VALUE);
             u32 (rows ha * rows hb); u32 (rows hb * J_VALUE)]) ;;
    sem_wait.

(** [MATRIX_TN]: [this] becomes the transpose of [a_transpose] times [b]. *)
Definition multf (this a_transpose b : nat) : M MW unit :=
  ha ← get_mat a_transpose; hb ← get_mat b;
  create this (cols ha) (cols hb) ;;
  cacheFlushInvalidate this ;;
  ha ← get_mat a_transpose; hb ← get_mat b;
  if decide (rows ha <> rows hb) then mret tt
  else
    aref ← reference a_transpose;
    bref ← reference b;
    cref ← reference this;
    send (Mmf aref (rows ha) (cols ha) bref (rows hb) (cols hb) cref
            [u32 (rows ha * cols ha); u32 (cols ha * J_VALUE);
             u32 (rows ha * cols hb); u32 (cols hb * J_VALUE);
             u32 (cols ha * cols hb); u32 (rows hb * cols hb)]) ;;
    sem_wait.

(** The smallest and largest exponent and value; zero is always counted. *)
Definition dynamicRange (mat : nat) : M MW (Z * Z * float * float) :=
  h ← get_mat mat;
  for_mat (rows h) (cols h) (fun i j '(min_exp, max_exp, min_val, max_val) =>
    f ← at_ mat i j;
    let exp := frexp_exp f in
    mret (Z.min min_exp exp, Z.max max_exp exp, fmin min_val f, fmax max_val f))
    (0, 0, S754_zero false, S754_zero false).
End Mats.
