(* ===== verification/MatFacts.v ===== *)
(** The matrices of [PortalMat]: what their operations compute.

    A matrix is described by its shape and a function from positions to elements
    ([mat_is]); a well-formed state ([wf]) has matrices that are the only owners
    of their arrays, and answers of the kernel and of the MMU for as many more
    arrays and references as it says.  Every operation gives its matrix new
    elements and keeps the others ([result], [frame]).  The engine of the
    hardware enters with a law for each build ([EngineTN], [EngineNT]). *)

From stdpp Require Import base gmap list option fin_maps.
From Stdlib Require Import ZArith Lia SpecFloat.
From S2P Require Import Prelude FloatArith PortalMat.
#[local] Open Scope list_scope.
#[local] Open Scope Z_scope.

(** * Facts *)

Lemma set_heap_id w : set_heap (heap w) w = w.
Proof. by destruct w. Qed.

(** ** A loop that fills a matrix *)

(** The state with other contents in the block at [a]. *)
Definition setb (a : Z) (b : list float) (w : MW) : MW := set_heap (<[a := b]> (heap w)) w.

Lemma setb_id a b w : heap w !! a = Some b -> setb a b w = w.
Proof. intros H. unfold setb. rewrite insert_id by done. apply set_heap_id. Qed.

Lemma setb_setb a b b' w : setb a b' (setb a b w) = setb a b' w.
Proof. unfold setb. cbn. by rewrite insert_insert_eq. Qed.

(** The first [K] elements have been written, the others are as before. *)
Definition upto (c : Z) (g : Z -> Z -> float) (K : Z) (b b' : list float) : Prop :=
  length b' = length b /\
  (forall k, 0 <= k < K -> znth b' k = Some (g (k / c) (k mod c))) /\
  (forall k, K <= k -> znth b' k = znth b k).

Lemma upto_step c g b b' b'' i j : 0 <= i -> 0 <= j < c -> upto c g (i * c + j) b b' ->
  zupd b' (i * c + j) (g i j) = Some b'' -> upto c g (i * c + j + 1) b b''.
Proof.
  intros Hi Hj (Hl & Hd & Hr) Hu. split; [by rewrite (zupd_length _ _ _ _ Hu)|]. split; intros k Hk.
  - destruct (decide (k = i * c + j)) as [->|Hne].
    + rewrite (znth_zupd_eq _ _ _ _ Hu). do 2 f_equal.
      * apply (Z.div_unique_pos _ _ _ j); lia.
      * apply (Z.mod_unique_pos _ _ i); lia.
    + rewrite (znth_zupd_ne _ _ _ _ _ Hu) by lia. apply Hd. lia.
  - rewrite (znth_zupd_ne _ _ _ _ _ Hu) by lia. apply Hr. lia.
Qed.

Lemma for_loop_inv {W A} (I : Z -> A -> W -> Prop) (body : Z -> A -> M W A) n : forall i a w,
  I i a w ->
  (forall i' a w, i <= i' < i + Z.of_nat n -> I i' a w -> exists a' w', body i' a w = Ok a' w' /\ I (i' + 1) a' w') ->
  exists a' w', for_loop n i body a w = Ok a' w' /\ I (i + Z.of_nat n) a' w'.
Proof.
  induction n as [|n IH]; intros i a w HI Hb; cbn [for_loop].
  - exists a, w. replace (i + Z.of_nat 0) with i by lia. done.
  - destruct (Hb i a w) as (a1 & w1 & Hr & HI1); [lia|done|]. rewrite (bind_ok _ _ _ _ _ Hr).
    destruct (IH (i + 1) a1 w1 HI1) as (a2 & w2 & Hr2 & HI2).
    { intros. apply Hb; [lia|done]. }
    exists a2, w2. split; [done|]. by replace (i + Z.of_nat (S n)) with (i + 1 + Z.of_nat n) by lia.
Qed.

Lemma for_mat_inv {W A} (I : Z -> A -> W -> Prop) (body : Z -> Z -> A -> M W A) r c a w :
  0 <= r -> 0 <= c -> I 0 a w ->
  (forall i j a w, 0 <= i < r -> 0 <= j < c -> I (i * c + j) a w ->
     exists a' w', body i j a w = Ok a' w' /\ I (i * c + j + 1) a' w') ->
  exists a' w', for_mat r c body a w = Ok a' w' /\ I (r * c) a' w'.
Proof.
  intros Hr Hc HI Hb. unfold for_mat.
  destruct (for_loop_inv (fun i a w => I (i * c) a w)
    (fun i a => for_loop (Z.to_nat c) 0 (fun j a => body i j a) a) (Z.to_nat r) 0 a w) as (a' & w' & H1 & H2).
  - done.
  - intros i a1 w1 Hi H1.
    destruct (for_loop_inv (fun j a w => I (i * c + j) a w) (fun j a => body i j a) (Z.to_nat c) 0 a1 w1)
      as (a2 & w2 & H2 & H3).
    + by rewrite Z.add_0_r.
    + intros j a2 w2 Hj H2. destruct (Hb i j a2 w2) as (a3 & w3 & H3 & H4); [lia|lia|done|].
      exists a3, w3. split; [done|]. by replace (i * c + (j + 1)) with (i * c + j + 1) by lia.
    + exists a2, w2. split; [done|]. by replace ((i + 1) * c) with (i * c + (0 + Z.of_nat (Z.to_nat c))) by lia.
  - exists a', w'. split; [done|]. by replace (r * c) with ((0 + Z.of_nat (Z.to_nat r)) * c) by lia.
Qed.

Lemma get_mat_ok o w h : mats w !! o = Some h -> get_mat o w = Ok h w.
Proof. intros H. unfold get_mat, getW, mbind, M_bind, defined. by rewrite H. Qed.

Lemma at_ok o i j w h b v : mats w !! o = Some h -> heap w !! datastart h = Some b ->
  znth b (i * cols h + j) = Some v -> at_ o i j w = Ok v w.
Proof.
  intros H Hb Hv. unfold at_. rewrite (bind_ok _ _ _ _ _ (get_mat_ok _ _ _ H)).
  unfold getW, mbind, M_bind, defined. by rewrite Hb, Hv.
Qed.

Lemma set_at_ok o i j w h b b' v : mats w !! o = Some h -> heap w !! datastart h = Some b ->
  zupd b (i * cols h + j) v = Some b' -> set_at o i j v w = Ok tt (setb (datastart h) b' w).
Proof.
  intros H Hb Hv. unfold set_at. rewrite (bind_ok _ _ _ _ _ (get_mat_ok _ _ _ H)).
  unfold getW, putW, mbind, M_bind, defined. by rewrite Hb, Hv.
Qed.

(** The loops that write [g i j] at every [(i, j)] of [this]; they may read the
    elements of [this] that are still to be written. *)
Lemma fill_mat this h b g (body : Z -> Z -> unit -> M MW unit) w :
  mats w !! this = Some h -> heap w !! datastart h = Some b -> 0 <= rows h -> 0 <= cols h ->
  rows h * cols h <= Z.of_nat (length b) ->
  (forall i j b', 0 <= i < rows h -> 0 <= j < cols h ->
     (forall k, i * cols h + j <= k -> znth b' k = znth b k) ->
     body i j tt (setb (datastart h) b' w) = set_at this i j (g i j) (setb (datastart h) b' w)) ->
  exists b', for_mat (rows h) (cols h) body tt w = Ok tt (setb (datastart h) b' w) /\
    upto (cols h) g (rows h * cols h) b b'.
Proof.
  intros Hm Hb Hr Hc Hl Hbody.
  destruct (for_mat_inv (fun K _ w' => exists b', w' = setb (datastart h) b' w /\ upto (cols h) g K b b')
    body (rows h) (cols h) tt w Hr Hc) as ([] & w' & H1 & b' & -> & H2).
  - exists b. split; [by rewrite setb_id|]. split; [done|]. split; [lia|done].
  - intros i j [] w1 Hi Hj (b1 & -> & Hu). destruct Hu as (Hul & Hud & Hur).
    assert (i * cols h + j < rows h * cols h) by nia.
    destruct (zupd b1 (i * cols h + j) (g i j)) as [b2|] eqn:E.
    2: { rewrite zupd_Some in E by lia. done. }
    exists tt, (setb (datastart h) b2 w). split.
    + rewrite Hbody by done. rewrite <- (setb_setb _ b1 b2).
      apply set_at_ok with (h := h) (b := b1); [done|cbn; by rewrite lookup_insert_eq|done].
    + exists b2. split; [done|]. eapply upto_step; [lia|done| |done]. done.
  - eauto.
Qed.

(** ** The state of a program that uses matrices *)

(** The matrix [o] has [r] rows, [c] columns and the elements [g i j]. *)
Definition mat_is (w : MW) (o : nat) (r c : Z) (g : Z -> Z -> float) : Prop :=
  exists h b, mats w !! o = Some h /\ rows h = r /\ cols h = c /\ heap w !! datastart h = Some b /\
    r * c <= Z.of_nat (length b) /\
    forall i j, 0 <= i < r -> 0 <= j < c -> znth b (i * c + j) = Some (g i j).

(** The header [h] is of an array with the contents [b], which the hardware sees
    through the reference of the array. *)
Record owns (w : MW) (h : Mat) (info : arrayInfo_t) (b : list float) : Prop := {
  owns_rows : 0 < rows h;
  owns_cols : 0 < cols h;
  owns_len : rows h * cols h <= Z.of_nat (length b);
  owns_data : datastart h <> 0;
  owns_heap : heap w !! datastart h = Some b;
  owns_num : 1 <= refcount h < numarrays w;
  owns_info : znth (arrayInfo w) (refcount h) = Some info;
  owns_count : 1 <= info_refcount info;
  owns_fd : fdmap w !! info_fd info = Some (datastart h);
  owns_ref : info_ref info = 0 \/ mmu w !! info_ref info = Some (info_fd info)
}.

(** Answers of the kernel that are not in use. *)
Definition fresh {A} (n : nat) (l : list Z) (m : gmap Z A) : Prop :=
  (n <= length l)%nat /\ NoDup l /\ forall x, x ∈ l -> m !! x = None.
(** Identifiers of the MMU that are not in use.  0 may be among them, and is the
    first one the MMU gives; the allocator forgets it, so that only the others
    count. *)
Definition fresh_ids (m : nat) (l : list Z) (mm : gmap Z Z) : Prop :=
  (m <= length (filter (fun i : Z => (i <> 0)%Z) l))%nat /\ NoDup l /\ forall x, x ∈ l -> mm !! x = None.

(** The matrices [P] are empty or the only owners of their arrays; [n] more
    arrays and [m] more references can be had; nothing is being computed. *)
Record wf (P : gset nat) (n m : nat) (w : MW) : Prop := {
  wf_mats : forall o, o ∈ P -> exists h, mats w !! o = Some h /\ (h = Mat0 \/ exists info b, owns w h info b);
  wf_sep : forall o1 o2 h1 h2, o1 ∈ P -> o2 ∈ P -> o1 <> o2 -> mats w !! o1 = Some h1 -> mats w !! o2 = Some h2 ->
    h1 <> Mat0 -> h2 <> Mat0 -> datastart h1 <> datastart h2 /\ refcount h1 <> refcount h2;
  wf_len : length (arrayInfo w) = 128%nat;
  wf_num : 1 <= numarrays w /\ numarrays w + Z.of_nat n <= 128;
  wf_addrs : fresh n (addrs w) (heap w) /\ forall a, a ∈ addrs w -> a <> 0 /\ a <> -1;
  wf_fds : fresh n (fds w) (fdmap w);
  wf_ids : fresh_ids m (ids w) (mmu w);
  wf_idle : pending w = [] /\ mul_sem w = 0
}.

(** [o] shares no data with [this]; what an operation on [this] keeps. *)
Definition sep_from (w : MW) (this o : nat) (h : Mat) (b : list float) : Prop :=
  o <> this /\ datastart h <> 0 /\ mats w !! o = Some h /\ heap w !! datastart h = Some b /\
  forall ht, mats w !! this = Some ht -> datastart ht <> datastart h.
(** The array [k] is not the one of [this] and has [x] headers. *)
Definition count_from (w : MW) (this : nat) (k x : Z) : Prop :=
  1 <= k < numarrays w /\ (forall ht, mats w !! this = Some ht -> refcount ht <> k) /\
  exists info, znth (arrayInfo w) k = Some info /\ info_refcount info = x.
Definition frame (this : nat) (w w' : MW) : Prop :=
  (forall o h b, sep_from w this o h b -> sep_from w' this o h b) /\
  (forall k x, count_from w this k x -> count_from w' this k x) /\
  (forall o, o <> this -> mats w' !! o = mats w !! o) /\ drand w' = drand w.

#[export] Instance frame_refl this : Reflexive (frame this).
Proof. by intros w. Qed.
#[export] Instance frame_trans this : Transitive (frame this).
Proof.
  intros w1 w2 w3 (H1 & C1 & M1 & D1) (H2 & C2 & M2 & D2).
  split; [eauto|]. split; [eauto|]. split; [|congruence]. intros o Ho. by rewrite M2, M1.
Qed.

Lemma fresh_check {A} n l (m : gmap Z A) :
  bool_decide ((n <= length l)%nat /\ NoDup l /\ Forall (fun x => m !! x = None) l) = true -> fresh n l m.
Proof. intros (H1 & H2 & H3)%bool_decide_eq_true_1. split; [done|]. split; [done|]. by apply Forall_forall. Qed.
Lemma all_check (Q : Z -> Prop) {HQ : forall x, Decision (Q x)} l : bool_decide (Forall Q l) = true -> forall x, x ∈ l -> Q x.
Proof. intros H%bool_decide_eq_true_1. by apply Forall_forall. Qed.

Lemma fresh_weaken {A} n n' l (m : gmap Z A) : (n' <= n)%nat -> fresh n l m -> fresh n' l m.
Proof. intros Hn (H1 & H2 & H3). repeat split; [lia|done|done]. Qed.

Lemma fresh_cons {A} n x l (m : gmap Z A) v : fresh (S n) (x :: l) m -> fresh n l (<[x := v]> m).
Proof.
  intros (H1 & H2 & H3). inversion H2; subst. repeat split; [cbn in *; lia|done|].
  intros y Hy. rewrite lookup_insert_ne; [apply H3; by right|]. by intros ->.
Qed.

Lemma fresh_delete {A} n x l (m : gmap Z A) : fresh n l m -> fresh n l (delete x m).
Proof. intros (H1 & H2 & H3). repeat split; [done|done|]. intros y Hy. rewrite lookup_delete_None. auto. Qed.

Lemma fresh_inv {A} n l (m : gmap Z A) : fresh (S n) l m -> exists x l', l = x :: l' /\ m !! x = None.
Proof. destruct l as [|x l]; intros (H1 & H2 & H3); [cbn in *; lia|]. exists x, l. split; [done|]. apply H3. by left. Qed.

Lemma fresh_ids_check m l mm :
  bool_decide ((m <= length (filter (fun i : Z => (i <> 0)%Z) l))%nat /\ NoDup l /\ Forall (fun x => mm !! x = None) l) = true -> fresh_ids m l mm.
Proof. intros (H1 & H2 & H3)%bool_decide_eq_true_1. split; [done|]. split; [done|]. by apply Forall_forall. Qed.
Lemma fresh_ids_weaken m m' l mm : (m' <= m)%nat -> fresh_ids m l mm -> fresh_ids m' l mm.
Proof. intros Hm (H1 & H2 & H3). repeat split; [lia|done|done]. Qed.
Lemma fresh_ids_cons m x l mm v : fresh_ids (S m) (x :: l) mm ->
  fresh_ids (if decide (x = 0) then S m else m) l (<[x := v]> mm).
Proof.
  intros (H1 & H2 & H3). inversion H2; subst. split; [|split; [done|]].
  - rewrite filter_cons in H1. repeat case_decide; try done. cbn in H1. lia.
  - intros y Hy. rewrite lookup_insert_ne; [apply H3; by right|]. by intros ->.
Qed.
Lemma fresh_ids_delete m x l mm : fresh_ids m l mm -> fresh_ids m l (delete x mm).
Proof. intros (H1 & H2 & H3). repeat split; [done|done|]. intros y Hy. rewrite lookup_delete_None. auto. Qed.
Lemma fresh_ids_inv m l mm : fresh_ids (S m) l mm -> exists x l', l = x :: l' /\ mm !! x = None.
Proof. destruct l as [|x l]; intros (H1 & H2 & H3); [cbn in *; lia|]. exists x, l. split; [done|]. apply H3. by left. Qed.

Lemma wf_weaken P n n' m m' w : (n' <= n)%nat -> (m' <= m)%nat -> wf P n m w -> wf P n' m' w.
Proof.
  intros Hn Hm []. split; try done; [lia| | |]; intuition eauto using fresh_weaken, fresh_ids_weaken.
Qed.

Lemma owns_not_empty w h info b : owns w h info b -> h <> Mat0.
Proof. intros [] ->. done. Qed.

Lemma wf_cases P n m w o h : wf P n m w -> o ∈ P -> mats w !! o = Some h -> h = Mat0 \/ exists info b, owns w h info b.
Proof. intros Hw Ho Hh. destruct (wf_mats _ _ _ _ Hw o Ho) as (h' & Hh' & H). by simplify_eq. Qed.

Lemma wf_sep_from P n m w this o h info b : wf P n m w -> this ∈ P -> o ∈ P -> o <> this ->
  mats w !! o = Some h -> owns w h info b -> sep_from w this o h b.
Proof.
  intros Hw Ht Ho Hne Hh Hown. split; [done|]. split; [apply Hown|]. split; [done|]. split; [apply Hown|]. intros ht Hht.
  destruct (wf_cases _ _ _ _ _ _ Hw Ht Hht) as [->|(info' & b' & Hown')].
  - intros Heq. cbn in Heq. by destruct (owns_data _ _ _ _ Hown).
  - apply (wf_sep _ _ _ _ Hw this o); eauto using owns_not_empty.
Qed.

Lemma mat_is_frame this w w' o h b r c g : frame this w w' -> sep_from w this o h b -> mat_is w o r c g -> mat_is w' o r c g.
Proof.
  intros [Hf _] Hs (h' & b' & H1 & H2 & H3 & H4 & H5). pose proof (Hf _ _ _ Hs) as (_ & _ & Hm & Hb & _).
  destruct Hs as (_ & _ & Hm' & Hb' & _). simplify_eq. exists h, b. done.
Qed.

Section MatFacts.
Context {AS : AlignSize} {CV : OpenCV} {AC : Accelerator}.

Lemma take_answer_ok get set w x l : get w = x :: l -> take_answer get set w = Ok x (set l w).
Proof. intros H. unfold take_answer, getW, putW, mbind, M_bind. by rewrite H. Qed.

Definition allocated (this : nat) (r c fd a size : Z) (fl al : list Z) (w : MW) : MW :=
  let k := numarrays w in
  set_mats (<[this := {| rows := r; cols := c; datastart := a; refcount := k |}]> (mats w))
   (set_arrayInfo (<[Z.to_nat k := {| info_refcount := 1; info_fd := fd; info_data := a; info_totalsize := size; info_ref := 0 |}]> (arrayInfo w))
    (set_heap (<[a := replicate (Z.to_nat (size / 4)) (S754_zero false)]> (heap w))
     (set_fdmap (<[fd := a]> (fdmap w)) (set_addrs al (set_fds fl (set_numarrays (k + 1) w)))))).

(** The room an array of [r] by [c] elements needs. *)
Definition fits (r c : Z) : Prop := 0 < r /\ 0 < c /\ 4 * (r * c) < 2 ^ 62.

Lemma new_array_ok P n m w this r c : wf P (S n) m w -> this ∈ P -> fits r c ->
  exists fd a fl al size, new_array this r c w = Ok tt (allocated this r c fd a size fl al w) /\
    fds w = fd :: fl /\ addrs w = a :: al /\ r * c <= size / 4.
Proof.
  intros Hw Ht (Hr & Hc & Hb).
  destruct (fresh_inv _ _ _ (wf_fds _ _ _ _ Hw)) as (fd & fl & Hfl & Hfd).
  destruct (wf_addrs _ _ _ _ Hw) as [Hfa Hna]. destruct (fresh_inv _ _ _ Hfa) as (a & al & Hal & Ha).
  pose proof (wf_num _ _ _ _ Hw) as Hnum. pose proof (wf_len _ _ _ _ Hw) as Hlen.
  assert (Hu : u64 (4 * c * r) = 4 * c * r) by (apply u64_small; nia).
  destruct (alignSize_spec (4 * c * r)) as [Hsz Hmod]; [nia|].
  exists fd, a, fl, al, (alignSize (4 * c * r) 4096). split; [|split; [done|split; [done|]]].
  2: { apply Z.div_le_lower_bound; lia. }
  unfold new_array, allocate, portalAlloc, portalMmap. rewrite Hu. rewrite !bind_assoc.
  unfold mbind at 1, M_bind at 1, getW at 1. rewrite !bind_assoc.
  unfold mbind at 1, M_bind at 1, putW at 1. rewrite !bind_assoc.
  rewrite (bind_ok _ _ _ fd (set_fds fl (set_numarrays (numarrays w + 1) w)))
    by (by apply take_answer_ok).
  destruct (znth_in_range (arrayInfo w) (numarrays w)) as [info Hinfo]; [lia|].
  rewrite !bind_assoc. rewrite (bind_ok _ _ _ info (set_fds fl (set_numarrays (numarrays w + 1) w)))
    by (unfold get_info, getW, mbind, M_bind, defined; cbn; by rewrite Hinfo).
  rewrite !bind_assoc. rewrite (bind_ok _ _ _ a (set_addrs al (set_fds fl (set_numarrays (numarrays w + 1) w))))
    by (by apply take_answer_ok).
  destruct (Hna a) as [_ Ha1]; [rewrite Hal; by left|]. rewrite decide_False by done.
  unfold modifyW, upd_info, put_mat, getW, putW, mbind, M_bind, defined, mret, M_ret. cbn.
  rewrite zupd_Some by lia. done.
Qed.

Lemma allocated_wf P n m w this r c fd a size fl al : wf P (S n) m w -> this ∈ P -> fits r c ->
  mats w !! this = Some Mat0 -> fds w = fd :: fl -> addrs w = a :: al -> r * c <= size / 4 ->
  wf P n m (allocated this r c fd a size fl al w) /\ frame this w (allocated this r c fd a size fl al w).
Proof.
  intros Hw Ht (Hr & Hc & _) H0 Hfl Hal Hsz.
  pose proof (wf_num _ _ _ _ Hw) as Hnum. pose proof (wf_len _ _ _ _ Hw) as Hlen.
  destruct (wf_addrs _ _ _ _ Hw) as [Hfa Hna]. pose proof (wf_fds _ _ _ _ Hw) as Hff.
  rewrite Hal in Hfa, Hna. rewrite Hfl in Hff.
  assert (Ha : heap w !! a = None) by (apply Hfa; by left).
  assert (Hfd : fdmap w !! fd = None) by (apply Hff; by left).
  destruct (Hna a) as [Ha0 Ha1]; [by left|].
  assert (Hother : forall o h info b, o ∈ P -> o <> this -> mats w !! o = Some h -> owns w h info b ->
    owns (allocated this r c fd a size fl al w) h info b /\ datastart h <> a /\ refcount h <> numarrays w).
  { intros o h info b Ho Hne Hh [].
    assert (datastart h <> a) by congruence. assert (info_fd info <> fd) by congruence.
    split; [|split; [done|lia]]. split; try done; cbn; [|lia| |].
    - by rewrite lookup_insert_ne.
    - unfold znth in *. rewrite decide_True in * by lia. rewrite list_lookup_insert_ne by lia. done.
    - by rewrite lookup_insert_ne. }
  split; [split|split].
  - intros o Ho. destruct (decide (o = this)) as [->|Hne].
    + eexists. split; [cbn; by rewrite lookup_insert_eq|]. right.
      exists {| info_refcount := 1; info_fd := fd; info_data := a; info_totalsize := size; info_ref := 0 |},
        (replicate (Z.to_nat (size / 4)) (S754_zero false)).
      split; cbn; try done; try lia.
      * rewrite length_replicate. lia.
      * by rewrite lookup_insert_eq.
      * unfold znth. rewrite decide_True by lia. rewrite list_lookup_insert_eq by lia. done.
      * by rewrite lookup_insert_eq.
    + destruct (wf_mats _ _ _ _ Hw o Ho) as (h & Hh & Hc'). exists h. split; [cbn; by rewrite lookup_insert_ne|].
      destruct Hc' as [?|(info & b & Hown)]; [by left|right]. exists info, b. by eapply Hother.
  - intros o1 o2 h1 h2 Ho1 Ho2 Hne. cbn.
    assert (Hk : forall o h, o ∈ P -> o <> this -> mats w !! o = Some h -> h <> Mat0 ->
      datastart h <> a /\ refcount h <> numarrays w).
    { intros o h Ho Hno Hh Hnh. destruct (wf_cases _ _ _ _ _ _ Hw Ho Hh) as [?|(info & b & Hown)]; [done|].
      by destruct (Hother _ _ _ _ Ho Hno Hh Hown). }
    destruct (decide (o1 = this)) as [->|H1], (decide (o2 = this)) as [->|H2]; [done| | |];
      rewrite ?lookup_insert_eq, ?lookup_insert_ne by done.
    + intros [= <-] Hh2 _ Hn2. cbn. destruct (Hk o2 h2 Ho2 H2 Hh2 Hn2). split; congruence.
    + intros Hh1 [= <-] Hn1 _. cbn. by destruct (Hk o1 h1 Ho1 H1 Hh1 Hn1).
    + apply (wf_sep _ _ _ _ Hw); done.
  - cbn. by rewrite length_insert.
  - cbn. lia.
  - cbn. split; [by apply fresh_cons|]. intros x Hx. apply Hna. by right.
  - cbn. by apply fresh_cons.
  - apply Hw.
  - apply Hw.
  - intros o h b (Hne & Hd0 & Hh & Hb & _). split; [done|]. split; [done|]. cbn. rewrite lookup_insert_ne by done. split; [done|].
    assert (datastart h <> a) by congruence. rewrite lookup_insert_ne by done. split; [done|].
    intros ht. rewrite lookup_insert_eq. intros [= <-]. cbn. done.
  - split; [|split; [|done]]; [|intros o Ho; cbn; by rewrite lookup_insert_ne].
    intros k x (Hk & _ & info & Hi & Hx). split; [cbn; lia|]. split.
    + intros ht. cbn. rewrite lookup_insert_eq. intros [= <-]. cbn. lia.
    + exists info. split; [|done]. cbn. unfold znth in *. rewrite decide_True in * by lia.
      by rewrite list_lookup_insert_ne by lia.
Qed.

Definition released (this : nat) (h : Mat) (info : arrayInfo_t) (w : MW) : MW :=
  set_mats (<[this := Mat0]> (mats w))
   (set_arrayInfo (<[Z.to_nat (refcount h) := arrayInfo0]> (arrayInfo w))
    (set_fdmap (delete (info_fd info) (fdmap w))
     (set_mmu (delete (info_ref info) (mmu w)) (set_heap (delete (datastart h) (heap w)) w)))).

Lemma release_ok P n m w this h info b : wf P n m w -> mats w !! this = Some h -> owns w h info b ->
  info_refcount info = 1 -> release this w = Ok tt (released this h info w).
Proof.
  intros Hw Hh Hown H1. pose proof (wf_num _ _ _ _ Hw). pose proof (wf_len _ _ _ _ Hw).
  pose proof (owns_info _ _ _ _ Hown) as Hi. pose proof (owns_num _ _ _ _ Hown).
  rewrite (release_last this w h info) by (done || lia).
  unfold deallocate, get_info, upd_info, munmap, dma_dereference, close, put_mat, modifyW, getW, putW,
    mbind, M_bind, defined. rewrite Hi. cbn. rewrite zupd_Some by lia. done.
Qed.

(** Two owners share neither a descriptor nor a reference. *)
Lemma owners_apart w h h' info info' b b' : owns w h info b -> owns w h' info' b' -> datastart h <> datastart h' ->
  info_fd info <> info_fd info' /\ (info_ref info' <> 0 -> info_ref info <> info_ref info').
Proof.
  intros H H' Hd. destruct (owns_ref _ _ _ _ H) as [E|E], (owns_ref _ _ _ _ H') as [E'|E'];
  pose proof (owns_fd _ _ _ _ H); pose proof (owns_fd _ _ _ _ H'); split; congruence.
Qed.

Lemma released_wf P n m w this h info b : wf P n m w -> this ∈ P -> mats w !! this = Some h -> owns w h info b ->
  wf P n m (released this h info w) /\ frame this w (released this h info w).
Proof.
  intros Hw Ht Hh Hown. pose proof (wf_num _ _ _ _ Hw). pose proof (wf_len _ _ _ _ Hw).
  assert (Hother : forall o h' info' b', o ∈ P -> o <> this -> mats w !! o = Some h' -> owns w h' info' b' ->
    owns (released this h info w) h' info' b').
  { intros o h' info' b' Ho Hne Hh' Hown'.
    destruct (wf_sep _ _ _ _ Hw this o h h') as [Hd Hr]; eauto using owns_not_empty.
    destruct (owners_apart _ _ _ _ _ _ _ Hown Hown' Hd) as [Hf Hr'].
    pose proof (owns_num _ _ _ _ Hown). destruct Hown'. split; try done; cbn.
    - by rewrite lookup_delete_ne.
    - unfold znth in *. rewrite decide_True in * by lia. rewrite list_lookup_insert_ne by lia. done.
    - by rewrite lookup_delete_ne.
    - destruct (decide (info_ref info' = 0)); [by left|right]. destruct owns_ref0; [done|].
      rewrite lookup_delete_ne; auto. }
  split; [split|split].
  - intros o Ho. destruct (decide (o = this)) as [->|Hne].
    + exists Mat0. split; [cbn; by rewrite lookup_insert_eq|by left].
    + destruct (wf_mats _ _ _ _ Hw o Ho) as (h' & Hh' & Hc'). exists h'. split; [cbn; by rewrite lookup_insert_ne|].
      destruct Hc' as [?|(info' & b' & Hown')]; [by left|right]. exists info', b'. by eapply Hother.
  - intros o1 o2 h1 h2 Ho1 Ho2 Hne. cbn.
    destruct (decide (o1 = this)) as [->|H1], (decide (o2 = this)) as [->|H2]; [done| | |];
      rewrite ?lookup_insert_eq, ?lookup_insert_ne by done; [congruence|congruence|].
    apply (wf_sep _ _ _ _ Hw); done.
  - cbn. by rewrite length_insert.
  - apply Hw.
  - cbn. destruct (wf_addrs _ _ _ _ Hw). eauto using fresh_delete.
  - cbn. apply fresh_delete, Hw.
  - cbn. apply fresh_ids_delete, Hw.
  - apply Hw.
  - intros o h' b' (Hne & Hd0 & Hh' & Hb & Hd). split; [done|]. split; [done|]. cbn. rewrite lookup_insert_ne by done. split; [done|].
    rewrite lookup_delete_ne by (by apply Hd). split; [done|].
    intros ht. rewrite lookup_insert_eq. intros [= <-]. cbn. congruence.
  - split; [|split; [|done]]; [|intros o Ho; cbn; by rewrite lookup_insert_ne].
    intros k x (Hk & Hn & info' & Hi & Hx). pose proof (owns_num _ _ _ _ Hown).
    split; [done|]. split; [intros ht; cbn; rewrite lookup_insert_eq; intros [= <-]; cbn; lia|].
    exists info'. split; [|done]. cbn. pose proof (Hn h Hh). unfold znth in *. rewrite decide_True in * by lia.
    by rewrite list_lookup_insert_ne by lia.
Qed.

(** The release of a header that is not the last one. *)
Definition unshared (this : nat) (h : Mat) (info : arrayInfo_t) (w : MW) : MW :=
  set_mats (<[this := Mat0]> (mats w))
   (set_arrayInfo (<[Z.to_nat (refcount h) := set_info_refcount (info_refcount info - 1) info]> (arrayInfo w)) w).

Lemma unshared_wf P n m w this h info b : wf P n m w -> this ∈ P -> mats w !! this = Some h -> owns w h info b ->
  wf P n m (unshared this h info w) /\ frame this w (unshared this h info w).
Proof.
  intros Hw Ht Hh Hown. pose proof (wf_len _ _ _ _ Hw). pose proof (owns_num _ _ _ _ Hown). pose proof (wf_num _ _ _ _ Hw).
  split; [split; try apply Hw|split].
  - intros o Ho. destruct (decide (o = this)) as [->|Hne].
    + exists Mat0. split; [cbn; by rewrite lookup_insert_eq|by left].
    + destruct (wf_mats _ _ _ _ Hw o Ho) as (h' & Hh' & Hc'). exists h'. split; [cbn; by rewrite lookup_insert_ne|].
      destruct Hc' as [?|(info' & b' & Hown')]; [by left|right]. exists info', b'.
      destruct (wf_sep _ _ _ _ Hw this o h h') as [_ Hr]; eauto using owns_not_empty.
      destruct Hown'. split; try done. cbn. unfold znth in *. rewrite decide_True in * by lia.
      by rewrite list_lookup_insert_ne by lia.
  - intros o1 o2 h1 h2 Ho1 Ho2 Hne. cbn.
    destruct (decide (o1 = this)) as [->|N1], (decide (o2 = this)) as [->|N2]; [done| | |];
      rewrite ?lookup_insert_eq, ?lookup_insert_ne by done; [congruence|congruence|].
    apply (wf_sep _ _ _ _ Hw); done.
  - cbn. by rewrite length_insert.
  - intros o h' b' (Hne & Hd0 & Hh' & Hb & Hd). split; [done|]. split; [done|]. cbn. rewrite lookup_insert_ne by done.
    split; [done|]. split; [done|]. intros ht. rewrite lookup_insert_eq. intros [= <-]. cbn. congruence.
  - split; [|split; [|done]]; [|intros o Ho; cbn; by rewrite lookup_insert_ne].
    intros k x (Hk & Hn & info' & Hi & Hx).
    split; [done|]. split; [intros ht; cbn; rewrite lookup_insert_eq; intros [= <-]; cbn; lia|].
    exists info'. split; [|done]. cbn. pose proof (Hn h Hh). unfold znth in *. rewrite decide_True in * by lia.
    by rewrite list_lookup_insert_ne by lia.
Qed.


Lemma new_array_wf P n m w this r c : wf P (S n) m w -> this ∈ P -> fits r c -> mats w !! this = Some Mat0 ->
  exists fd a size fl al, new_array this r c w = Ok tt (allocated this r c fd a size fl al w) /\
    wf P n m (allocated this r c fd a size fl al w) /\ frame this w (allocated this r c fd a size fl al w).
Proof.
  intros Hw Ht Hf H0. destruct (new_array_ok P n m w this r c Hw Ht Hf) as (fd & a & fl & al & size & Hr & Hfl & Hal & Hsz).
  exists fd, a, size, fl, al. split; [done|]. by apply allocated_wf.
Qed.

(** ** Counting what is needed

    A matrix without an array will need one, and one the hardware has not seen
    will need a reference; [wfs] has answers for these and for [n] more arrays
    and [m] more references. *)

#[export] Instance Mat_eq_dec : EqDecision Mat.
Proof. solve_decision. Defined.

Definition is_empty (w : MW) (o : nat) : Prop := mats w !! o = Some Mat0.
#[export] Instance is_empty_dec w o : Decision (is_empty w o).
Proof. unfold is_empty. apply _. Defined.
Definition registered (w : MW) (o : nat) : Prop :=
  match mats w !! o with
  | Some h => h <> Mat0 /\ match znth (arrayInfo w) (refcount h) with Some info => info_ref info <> 0 | None => False end
  | None => False
  end.
#[export] Instance registered_dec w o : Decision (registered w o).
Proof. unfold registered. destruct (mats w !! o); [|apply _]. destruct (znth _ _); apply _. Defined.

Definition empties (P : gset nat) (w : MW) : nat := size (filter (is_empty w) P).
Definition unregistered (P : gset nat) (w : MW) : nat := size (filter (fun o => ~ registered w o) P).
Definition wfs (P : gset nat) (n m : nat) (w : MW) : Prop := wf P (n + empties P w) (m + unregistered P w) w.

Lemma size_filter_flip (P : gset nat) (Q Q' : nat -> Prop) `{!forall x, Decision (Q x)} `{!forall x, Decision (Q' x)} o :
  o ∈ P -> Q o -> ~ Q' o -> (forall x, x ∈ P -> x <> o -> (Q x <-> Q' x)) ->
  size (filter Q P) = S (size (filter Q' P)).
Proof.
  intros Ho HQ HQ' Hx. replace (filter Q P) with ({[o]} ∪ filter Q' P).
  - rewrite size_union, size_singleton; [done|]. apply disjoint_singleton_l. rewrite elem_of_filter. naive_solver.
  - apply leibniz_equiv. intros x. rewrite elem_of_union, elem_of_singleton, !elem_of_filter.
    destruct (decide (x = o)) as [->|]; naive_solver.
Qed.
Lemma size_filter_le (P : gset nat) (Q Q' : nat -> Prop) `{!forall x, Decision (Q x)} `{!forall x, Decision (Q' x)} o :
  (forall x, x ∈ P -> x <> o -> Q' x -> Q x) -> (size (filter Q' P) <= S (size (filter Q P)))%nat.
Proof.
  intros Hx. etrans; [apply (subseteq_size _ ({[o]} ∪ filter Q P))|].
  - intros x. rewrite elem_of_union, elem_of_singleton, !elem_of_filter. destruct (decide (x = o)); naive_solver.
  - rewrite size_union_alt, size_singleton. pose proof (subseteq_size (filter Q P ∖ {[o]}) (filter Q P) ltac:(set_solver)). lia.
Qed.
Lemma size_filter_eq (P : gset nat) (Q Q' : nat -> Prop) `{!forall x, Decision (Q x)} `{!forall x, Decision (Q' x)} :
  (forall x, x ∈ P -> (Q x <-> Q' x)) -> size (filter Q P) = size (filter Q' P).
Proof.
  intros Hx. f_equal. apply leibniz_equiv. intros x. rewrite !elem_of_filter. naive_solver.
Qed.

Lemma registered_other w w' o h : mats w !! o = Some h -> mats w' !! o = Some h ->
  (h <> Mat0 -> znth (arrayInfo w') (refcount h) = znth (arrayInfo w) (refcount h)) -> registered w' o <-> registered w o.
Proof.
  intros Hh Hh' Hi. unfold registered. rewrite Hh, Hh'. destruct (decide (h = Mat0)); [naive_solver|]. by rewrite Hi.
Qed.

(** An array for an empty matrix. *)
Lemma new_array_wfs P n m w this r c : wfs P n m w -> this ∈ P -> fits r c -> mats w !! this = Some Mat0 ->
  exists w', new_array this r c w = Ok tt w' /\ wfs P n m w' /\ frame this w w' /\
    exists h, mats w' !! this = Some h /\ rows h = r /\ cols h = c.
Proof.
  intros Hw Ht Hf H0. unfold wfs in Hw. pose proof (wf_len _ _ _ _ Hw). pose proof (wf_num _ _ _ _ Hw).
  destruct (empties P w) as [|e] eqn:He.
  { exfalso. apply size_empty_iff in He. assert (this ∈ filter (is_empty w) P) by (by apply elem_of_filter). set_solver. }
  rewrite Nat.add_succ_r in Hw.
  destruct (new_array_wf P (n + e) (m + unregistered P w) w this r c Hw Ht Hf H0) as (fd & a & size & fl & al & R & W & F).
  eexists. split; [exact R|]. split; [|split; [done|eexists; split; [cbn; by rewrite lookup_insert_eq|done]]].
  set (w' := allocated this r c fd a size fl al w) in *.
  assert (HE : empties P w = S (empties P w')).
  { apply size_filter_flip with this; [done|done| |].
    - unfold is_empty. cbn. rewrite lookup_insert_eq. intros [= E]. destruct Hf. lia.
    - intros x _ Hx. unfold is_empty. cbn. by rewrite lookup_insert_ne. }
  assert (HU : unregistered P w' = unregistered P w).
  { apply size_filter_eq. intros x Hx. destruct (decide (x = this)) as [->|Hne].
    - unfold registered. rewrite H0. cbn. rewrite lookup_insert_eq. cbn. unfold znth. rewrite decide_True by lia.
      rewrite list_lookup_insert_eq by lia. cbn. naive_solver.
    - destruct (wf_mats _ _ _ _ Hw x Hx) as (h & Hh & Hc).
      assert (registered w' x <-> registered w x) as ->; [|done].
      apply registered_other with h; [done|cbn; by rewrite lookup_insert_ne|]. intros Hn.
      destruct Hc as [?|(info & b & Hown)]; [done|]. pose proof (owns_num _ _ _ _ Hown).
      unfold w'. cbn. unfold znth. rewrite !decide_True by lia. by rewrite list_lookup_insert_ne by lia. }
  unfold wfs. rewrite HU. replace (n + empties P w')%nat with (n + e)%nat by lia. done.
Qed.

Lemma release_wfs P n m w this h info b : wfs P (S n) (S m) w -> this ∈ P -> mats w !! this = Some h -> owns w h info b ->
  exists w1, release this w = Ok tt w1 /\ wfs P n m w1 /\ frame this w w1 /\ mats w1 !! this = Some Mat0.
Proof.
  intros Hw Ht Hh Hown. pose proof (owns_num _ _ _ _ Hown). pose proof (wf_len _ _ _ _ Hw). pose proof (wf_num _ _ _ _ Hw).
  pose proof (owns_info _ _ _ _ Hown) as Hi.
  assert (Hcount : forall w1 x, mats w1 = <[this := Mat0]> (mats w) -> arrayInfo w1 = <[Z.to_nat (refcount h) := x]> (arrayInfo w) ->
    (empties P w1 <= S (empties P w))%nat /\ (unregistered P w1 <= S (unregistered P w))%nat).
  { intros w1 x Hm Ha. split; apply size_filter_le with this; intros o Ho Hne.
    - unfold is_empty. by rewrite Hm, lookup_insert_ne.
    - destruct (wf_mats _ _ _ _ Hw o Ho) as (h' & Hh' & Hc). intros Hn Hr. apply Hn. revert Hr.
      apply (registered_other w w1 o h'); [done|rewrite Hm; by rewrite lookup_insert_ne|]. intros Hn0.
      destruct Hc as [?|(info' & b' & Hown')]; [done|]. pose proof (owns_num _ _ _ _ Hown').
      destruct (wf_sep _ _ _ _ Hw this o h h') as [_ Hd]; eauto using owns_not_empty.
      rewrite Ha. unfold znth. rewrite !decide_True by lia. by rewrite list_lookup_insert_ne by lia. }
  destruct (decide (info_refcount info = 1)) as [E|E].
  - exists (released this h info w). split; [by eapply release_ok|].
    destruct (released_wf _ _ _ _ _ _ _ _ Hw Ht Hh Hown) as [W1 F1].
    split; [|split; [done|cbn; by rewrite lookup_insert_eq]].
    destruct (Hcount (released this h info w) arrayInfo0) as [Q1 Q2]; [done|done|].
    eapply wf_weaken; [| |exact W1]; lia.
  - exists (unshared this h info w). split.
    + rewrite (release_shared this w h info); [|done|lia|done|pose proof (owns_count _ _ _ _ Hown); lia].
      unfold upd_info, put_mat, modifyW, getW, putW, mbind, M_bind, defined. rewrite zupd_Some by lia. done.
    + destruct (unshared_wf _ _ _ _ _ _ _ _ Hw Ht Hh Hown) as [W1 F1].
      split; [|split; [done|cbn; by rewrite lookup_insert_eq]].
      destruct (Hcount (unshared this h info w) (set_info_refcount (info_refcount info - 1) info)) as [Q1 Q2]; [done|done|].
      eapply wf_weaken; [| |exact W1]; lia.
Qed.

Lemma wfs_weaken P n n' m m' w : (n' <= n)%nat -> (m' <= m)%nat -> wfs P n m w -> wfs P n' m' w.
Proof. intros ??. unfold wfs. apply wf_weaken; lia. Qed.

(** A matrix with elements that gets another shape needs another array. *)
Definition cost (w : MW) (this : nat) (r c : Z) : nat :=
  match mats w !! this with
  | Some h => if decide (h = Mat0 \/ rows h = r /\ cols h = c) then 0 else 1
  | None => 1
  end.

Lemma wfs_cost P n m w this r c : wfs P (S n) (S m) w -> wfs P (cost w this r c + n) (cost w this r c + m) w.
Proof.
  assert (cost w this r c <= 1)%nat by (unfold cost; repeat case_match; lia). apply wfs_weaken; lia.
Qed.

(** The result of an operation that gives [this] a shape of its own. *)
Definition shaped (P : gset nat) (n m : nat) (this : nat) (r c : Z) (w w' : MW) : Prop :=
  wfs P n m w' /\ frame this w w' /\
  exists h info b, mats w' !! this = Some h /\ owns w' h info b /\ rows h = r /\ cols h = c.

Lemma create_shaped P n m w this r c : wfs P (cost w this r c + n) (cost w this r c + m) w -> this ∈ P -> fits r c ->
  exists w', create this r c w = Ok tt w' /\ shaped P n m this r c w w'.
Proof.
  intros Hw Ht Hf. destruct (wf_mats _ _ _ _ Hw this Ht) as (h & Hh & Hc).
  assert (Hnew : forall w1, wfs P n m w1 -> frame this w w1 -> mats w1 !! this = Some Mat0 ->
    exists w', new_array this r c w1 = Ok tt w' /\ shaped P n m this r c w w').
  { intros w1 W1 F1 H0. destruct (new_array_wfs P n m w1 this r c W1 Ht Hf H0) as (w' & R & W' & F' & h' & Hh' & Hr' & Hc').
    exists w'. split; [done|]. split; [done|]. split; [by etrans|]. exists h'.
    destruct (wf_cases _ _ _ _ _ _ W' Ht Hh') as [->|(info' & b' & Hown')]; [destruct Hf; cbn in *; lia|by exists info', b']. }
  unfold cost in Hw. rewrite Hh in Hw. destruct Hc as [->|(info & b & Hown)].
  - rewrite create_new by (apply Hf || done). rewrite decide_True in Hw by (by left). by apply Hnew.
  - case_decide as Hd.
    + destruct Hd as [->|[Hr Hc]]; [by destruct (owns_data _ _ _ _ Hown)|].
      exists w. split; [by apply create_same with h; [|apply Hown|..]|]. split; [done|]. split; [done|]. by exists h, info, b.
    + rewrite (create_other this r c w h); [|done|apply Hown| |apply Hf|apply Hf].
      2: { intros [= E1 E2]. apply Hd. by right. }
      destruct (release_wfs P n m w this h info b Hw Ht Hh Hown) as (w1 & R1 & W1 & F1 & H0).
      rewrite (bind_ok _ _ _ _ _ R1), create_new by (apply Hf || done). by apply Hnew.
Qed.

Lemma setb_wf P n m w this h info b b' : wfs P n m w -> this ∈ P -> mats w !! this = Some h -> owns w h info b ->
  length b' = length b ->
  wfs P n m (setb (datastart h) b' w) /\ owns (setb (datastart h) b' w) h info b' /\ frame this w (setb (datastart h) b' w).
Proof.
  intros Hw Ht Hh Hown Hl.
  assert (Hthis : owns (setb (datastart h) b' w) h info b').
  { destruct Hown. split; try done; [by rewrite Hl|cbn; by rewrite lookup_insert_eq]. }
  split; [split|split; [done|split]].
  - intros o Ho. destruct (decide (o = this)) as [->|Hne]; [by eauto 6|].
    destruct (wf_mats _ _ _ _ Hw o Ho) as (h' & Hh' & Hc'). exists h'. split; [done|].
    destruct Hc' as [?|(info' & b1 & Hown')]; [by left|right]. exists info', b1.
    destruct (wf_sep _ _ _ _ Hw this o h h') as [Hd Hr]; eauto using owns_not_empty.
    destruct Hown'. split; try done. cbn. by rewrite lookup_insert_ne.
  - apply (wf_sep _ _ _ _ Hw).
  - apply Hw.
  - apply Hw.
  - destruct (wf_addrs _ _ _ _ Hw) as [(H1 & H2 & H3) H4]. split; [|done]. split; [done|]. split; [done|].
    intros x Hx. cbn. rewrite lookup_insert_ne; [auto|]. intros <-. apply H3 in Hx.
    pose proof (owns_heap _ _ _ _ Hown). congruence.
  - apply Hw.
  - apply Hw.
  - apply Hw.
  - intros o h' b1 (Hne & Hd0 & Hh' & Hb & Hd). split; [done|]. split; [done|]. split; [done|].
    cbn. rewrite lookup_insert_ne by (by apply Hd). done.
  - done.
Qed.

(** The result of an operation that gives [this] the elements [g]. *)
Definition result (P : gset nat) (n m : nat) (this : nat) (r c : Z) (g : Z -> Z -> float) (w w' : MW) : Prop :=
  wfs P n m w' /\ frame this w w' /\ mat_is w' this r c g.

(** A matrix an operation on [this] reads. *)
Definition source (w : MW) (this o : nat) (r c : Z) (g : Z -> Z -> float) : Prop :=
  mat_is w o r c g /\ exists h b, sep_from w this o h b.

Lemma source_frame w w' this o r c g : frame this w w' -> source w this o r c g -> source w' this o r c g.
Proof.
  intros Hf (Hm & h & b & Hs). split; [by eapply mat_is_frame|]. exists h, b. by apply Hf.
Qed.

Lemma upto_elem c g r b b' i j : upto c g (r * c) b b' -> 0 <= i < r -> 0 <= j < c -> znth b' (i * c + j) = Some (g i j).
Proof.
  intros (_ & Hd & _) Hi Hj. rewrite Hd by nia. do 2 f_equal.
  - symmetry. apply (Z.div_unique_pos _ _ _ j); lia.
  - symmetry. apply (Z.mod_unique_pos _ _ i); lia.
Qed.

Lemma fill_result P n m w this h info b g body : wfs P n m w -> this ∈ P -> mats w !! this = Some h -> owns w h info b ->
  (forall i j b', 0 <= i < rows h -> 0 <= j < cols h ->
     (forall k, i * cols h + j <= k -> znth b' k = znth b k) ->
     body i j tt (setb (datastart h) b' w) = set_at this i j (g i j) (setb (datastart h) b' w)) ->
  exists w', for_mat (rows h) (cols h) body tt w = Ok tt w' /\ result P n m this (rows h) (cols h) g w w'.
Proof.
  intros Hw Ht Hh Hown Hbody.
  destruct (fill_mat this h b g body w Hh) as (b' & Hr & Hu); try apply Hown; try done;
    [apply Z.lt_le_incl, Hown|apply Z.lt_le_incl, Hown|].
  destruct (setb_wf P n m w this h info b b' Hw Ht Hh Hown) as (H1 & H2 & H3); [apply Hu|].
  exists (setb (datastart h) b' w). split; [done|]. split; [done|]. split; [done|].
  exists h, b'. split; [done|]. split; [done|]. split; [done|]. split; [apply H2|]. split; [apply H2|].
  intros i j. by apply upto_elem with (b := b).
Qed.

(** Reading a matrix apart from [this] while [this] is written. *)
Lemma at_setb w this o h r c g i j b' : mats w !! this = Some h -> source w this o r c g -> 0 <= i < r -> 0 <= j < c ->
  at_ o i j (setb (datastart h) b' w) = Ok (g i j) (setb (datastart h) b' w).
Proof.
  intros Hh ((h1 & b1 & H1 & <- & <- & H4 & _ & H5) & h2 & b2 & (_ & _ & Hm & _ & Hd)) Hi Hj. simplify_eq.
  apply at_ok with (h := h1) (b := b1); [done| |by apply H5].
  cbn. rewrite lookup_insert_ne by (by apply Hd). done.
Qed.

Lemma copy_result P n m w this o r c g : wfs P (cost w this r c + n) (cost w this r c + m) w -> this ∈ P -> fits r c -> source w this o r c g ->
  exists w', copy this o w = Ok true w' /\ result P n m this r c g w w'.
Proof.
  intros Hw Ht Hf Hs. pose proof Hs as ((ho & bo & Ho & Hro & Hco & _) & _). unfold copy.
  rewrite (bind_ok _ _ _ _ _ (get_mat_ok _ _ _ Ho)), Hro, Hco.
  destruct (create_shaped P n m w this r c Hw Ht Hf) as (w1 & Hr & Hw1 & Hf1 & h & info & b & Hh & Hown & <- & <-).
  rewrite (bind_ok _ _ _ _ _ Hr), (bind_ok _ _ _ _ _ (get_mat_ok _ _ _ Hh)).
  destruct (fill_result P n m w1 this h info b g (fun i j _ => v ← at_ o i j; set_at this i j v) Hw1 Ht Hh Hown)
    as (w2 & Hr2 & Hw2 & Hf2 & Hm2).
  - intros i j b' Hi Hj _. apply bind_ok. eapply at_setb; eauto using source_frame.
  - rewrite (bind_ok _ _ _ _ _ Hr2). exists w2. split; [done|]. split; [done|]. split; [by etrans|done].
Qed.

Lemma transpose_result P n m w this o r c g : wfs P (cost w this c r + n) (cost w this c r + m) w -> this ∈ P -> fits r c -> source w this o r c g ->
  exists w', transpose this o w = Ok true w' /\ result P n m this c r (fun i j => g j i) w w'.
Proof.
  intros Hw Ht Hf Hs. pose proof Hs as ((ho & bo & Ho & Hro & Hco & _) & _). unfold transpose.
  rewrite (bind_ok _ _ _ _ _ (get_mat_ok _ _ _ Ho)), Hro, Hco.
  destruct (create_shaped P n m w this c r Hw Ht) as (w1 & Hr & Hw1 & Hf1 & h & info & b & Hh & Hown & <- & <-).
  { destruct Hf as (? & ? & ?). split; [done|]. split; [done|]. lia. }
  rewrite (bind_ok _ _ _ _ _ Hr), (bind_ok _ _ _ _ _ (get_mat_ok _ _ _ Hh)).
  destruct (fill_result P n m w1 this h info b (fun i j => g j i) (fun i j _ => v ← at_ o j i; set_at this i j v) Hw1 Ht Hh Hown)
    as (w2 & Hr2 & Hw2 & Hf2 & Hm2).
  - intros i j b' Hi Hj _. apply bind_ok. eapply (at_setb w1 this o h); eauto using source_frame.
  - rewrite (bind_ok _ _ _ _ _ Hr2). exists w2. split; [done|]. split; [done|]. split; [by etrans|done].
Qed.

(** ** Comparing and multiplying *)

Lemma for_loop_pure {W A} (body : Z -> A -> M W A) (f : Z -> A -> A) w n : forall i a,
  (forall k a, i <= k < i + Z.of_nat n -> body k a w = Ok (f k a) w) ->
  for_loop n i body a w = Ok (foldl (fun a k => f k a) a (seqZ i (Z.of_nat n))) w.
Proof.
  induction n as [|n IH]; intros i a Hb; [done|]. cbn [for_loop].
  rewrite (bind_ok _ _ _ _ _ (Hb i a ltac:(lia))), IH by (intros; apply Hb; lia).
  rewrite (seqZ_cons i) by lia. cbn [foldl]. do 3 f_equal; lia.
Qed.

Lemma at_mat_is w o r c g i j : mat_is w o r c g -> 0 <= i < r -> 0 <= j < c -> at_ o i j w = Ok (g i j) w.
Proof. intros (h & b & H1 & <- & <- & H4 & _ & H5) Hi Hj. by apply at_ok with (h := h) (b := b); [..|apply H5]. Qed.

Definition all_match (epsilon : float) (r c : Z) (g g' : Z -> Z -> float) : Prop :=
  forall i j, 0 <= i < r -> 0 <= j < c -> mismatch epsilon (g i j) (g' i j) = false.

Lemma compare_result w this o r c g r' c' g' epsilon : 0 <= r -> 0 <= c ->
  mat_is w this r c g -> mat_is w o r' c' g' ->
  exists rv, compare this o epsilon w = Ok rv w /\ (rv = true <-> r = r' /\ c = c' /\ all_match epsilon r c g g').
Proof.
  intros Hr Hc Hm Hm'. pose proof Hm as (h & b & Hh & Hhr & Hhc & _). pose proof Hm' as (h' & b' & Hh' & Hhr' & Hhc' & _).
  unfold compare. rewrite (bind_ok _ _ _ _ _ (get_mat_ok _ _ _ Hh)), (bind_ok _ _ _ _ _ (get_mat_ok _ _ _ Hh')).
  rewrite Hhr, Hhc, Hhr', Hhc'. case_decide as Hd.
  { exists false. split; [done|]. split; [done|]. intros (-> & -> & _). by destruct Hd. }
  assert (r' = r /\ c' = c) as [-> ->] by lia.
  destruct (for_mat_inv (fun K rv w' => w' = w /\
      (rv = true <-> forall k, 0 <= k < K -> mismatch epsilon (g (k / c) (k mod c)) (g' (k / c) (k mod c)) = false))
    (fun i j rv => v ← at_ this i j; refVal ← at_ o i j; mret (if mismatch epsilon v refVal then false else rv))
    r c true w Hr Hc) as (rv & w' & Hrun & -> & Hrv).
  - split; [done|]. split; [lia|done].
  - intros i j rv w' Hi Hj [-> Hrv]. eexists _, w.
    rewrite (bind_ok _ _ _ _ _ (at_mat_is _ _ _ _ _ _ _ Hm Hi Hj)), (bind_ok _ _ _ _ _ (at_mat_is _ _ _ _ _ _ _ Hm' Hi Hj)).
    split; [done|]. split; [done|].
    assert (Hk : (i * c + j) / c = i /\ (i * c + j) mod c = j).
    { split; symmetry; [apply (Z.div_unique_pos _ _ _ j)|apply (Z.mod_unique_pos _ _ i)]; lia. }
    destruct Hk as [Hk1 Hk2]. split.
    + intros Ht k Hk. destruct (decide (k = i * c + j)) as [->|].
      * rewrite Hk1, Hk2. by destruct (mismatch epsilon (g i j) (g' i j)).
      * apply Hrv; [by destruct (mismatch epsilon (g i j) (g' i j))|lia].
    + intros Hall. pose proof (Hall (i * c + j) ltac:(nia)) as Hij. rewrite Hk1, Hk2 in Hij. rewrite Hij.
      apply Hrv. intros k Hk. apply Hall. lia.
  - exists rv. split; [done|]. rewrite Hrv. split.
    + intros Hall. split; [done|]. split; [done|]. intros i j Hi Hj.
      specialize (Hall (i * c + j) ltac:(nia)).
      by rewrite <- (Z.div_unique_pos (i * c + j) c i j), <- (Z.mod_unique_pos (i * c + j) c i j) in Hall by lia.
    + intros (_ & _ & Hall) k Hk. assert (0 < c) by nia. apply Hall.
      * split; [apply Z.div_pos; lia|apply Z.div_lt_upper_bound; lia].
      * apply Z.mod_pos_bound. lia.
Qed.

(** The elements of row [i] and of column [j]. *)
Definition row (g : Z -> Z -> float) (n i : Z) : list float := (fun l => g i l) <$> seqZ 0 n.
Definition col (g : Z -> Z -> float) (n j : Z) : list float := (fun l => g l j) <$> seqZ 0 n.

Definition naive_acc (c : double) (xy : float * float) : double :=
  dadd c (dmul (double_of_float xy.1) (double_of_float xy.2)).
Definition naive_dot (x y : list float) : float := float_of_double (foldl naive_acc (S754_zero false) (zip x y)).

Lemma foldl_zip_fmap (x y : Z -> float) l c :
  foldl (fun c k => naive_acc c (x k, y k)) c l = foldl naive_acc c (zip (x <$> l) (y <$> l)).
Proof. revert c. induction l as [|k l IH]; intros c; [done|]. cbn. apply IH. Qed.

Lemma naive_mul_result P n m w this a b r k c ga gb : wfs P (cost w this r c + n) (cost w this r c + m) w -> this ∈ P -> fits r c -> 0 <= k ->
  source w this a r k ga -> source w this b k c gb ->
  exists w', naive_mul this a b w = Ok tt w' /\
    result P n m this r c (fun i j => naive_dot (row ga k i) (col gb k j)) w w'.
Proof.
  intros Hw Ht Hf Hk Ha Hb. unfold naive_mul.
  pose proof Ha as ((ha & la & Hha & Hra & Hca & _) & _). pose proof Hb as ((hb & lb & Hhb & Hrb & Hcb & _) & _).
  rewrite (bind_ok _ _ _ _ _ (get_mat_ok _ _ _ Hha)), (bind_ok _ _ _ _ _ (get_mat_ok _ _ _ Hhb)), Hra, Hcb.
  rewrite (bind_ok _ _ _ tt w) by (unfold assert; by rewrite bool_decide_eq_true_2 by congruence).
  destruct (create_shaped P n m w this r c Hw Ht Hf) as (w1 & Hr & Hw1 & Hf1 & h & info & bl & Hh & Hown & <- & <-).
  rewrite (bind_ok _ _ _ _ _ Hr), (bind_ok _ _ _ _ _ (get_mat_ok _ _ _ Hh)).
  pose proof (source_frame _ _ _ _ _ _ _ Hf1 Ha) as Ha1. pose proof (source_frame _ _ _ _ _ _ _ Hf1 Hb) as Hb1.
  edestruct (fill_result P n m w1 this h info bl (fun i j => naive_dot (row ga k i) (col gb k j)))
    as (w2 & Hr2 & Hw2 & Hf2 & Hm2); [done|done|done|done| |rewrite Hr2; exists w2; split; [done|]; split; [done|]; split; [by etrans|done]].
  intros i j b' Hi Hj _. destruct Ha1 as [Hma Hsa]. pose proof Hma as (ha1 & la1 & Hha1 & _ & Hca1 & _).
  rewrite (bind_ok _ _ _ ha1 (setb (datastart h) b' w1)) by (by apply get_mat_ok). rewrite Hca1.
  rewrite (bind_ok _ _ _ (foldl naive_acc (S754_zero false) (zip (row ga k i) (col gb k j))) (setb (datastart h) b' w1));
    [done|]. rewrite (for_loop_pure _ (fun l c => naive_acc c (ga i l, gb l j))).
  - rewrite foldl_zip_fmap. unfold row, col. by rewrite Z2Nat.id by lia.
  - intros l c Hl. rewrite (bind_ok _ _ _ (ga i l) (setb (datastart h) b' w1))
      by (apply at_setb with (this := this) (r := rows h) (c := k); [done|by split|lia|lia]).
    rewrite (bind_ok _ _ _ (gb l j) (setb (datastart h) b' w1))
      by (apply at_setb with (this := this) (r := k) (c := cols h); [done|done|lia|lia]). done.
Qed.
End MatFacts.

(** ** Products of integers *)

Definition zdot (a b : list Z) : Z := foldl (fun c p => c + p.1 * p.2) 0 (zip a b).
(** The largest sum that can arise. *)
Definition zdot_abs (a b : list Z) : Z := foldr (fun p c => Z.abs (p.1 * p.2) + c) 0 (zip a b).

Lemma naive_acc_exact (l : list (Z * Z)) : forall c,
  Forall (fun p => Z.abs p.1 < 2 ^ 24 /\ Z.abs p.2 < 2 ^ 24) l ->
  Z.abs c + foldr (fun p c => Z.abs (p.1 * p.2) + c) 0 l < 2 ^ 53 ->
  foldl naive_acc (double_of_Z c) (prod_map float_of_Z float_of_Z <$> l)
  = double_of_Z (foldl (fun c p => c + p.1 * p.2) c l).
Proof.
  induction l as [|[x y] l IH]; intros c Hl Hc; [done|].
  apply Forall_cons in Hl as [[Hx Hy] Hl]. cbn [foldl fmap list_fmap foldr fst snd prod_map] in *.
  assert (0 <= foldr (fun p c => Z.abs (p.1 * p.2) + c) 0 l) by (clear; induction l; cbn; lia).
  assert (Hd : forall z, Z.abs z < 2 ^ 24 -> is_int 53 1024 (double_of_float (float_of_Z z)) z).
  { intros z Hz. apply (is_int_convert 24 128); try lia. apply is_int_of_Z. }
  unfold naive_acc at 2. cbn [fst snd]. rewrite <- IH by (done || lia). f_equal.
  unfold dadd, double_of_Z. apply of_Z_add; try lia. apply is_int_mul; try lia; by apply Hd.
Qed.

(** The elements that the product of integer matrices has in double precision
    are exact, so that only the conversion to [float] rounds. *)
Lemma naive_dot_exact (a b : list Z) : Forall (fun z => Z.abs z < 2 ^ 24) a -> Forall (fun z => Z.abs z < 2 ^ 24) b ->
  zdot_abs a b < 2 ^ 53 ->
  naive_dot (float_of_Z <$> a) (float_of_Z <$> b) = float_of_double (double_of_Z (zdot a b)).
Proof.
  intros Ha Hb Hs. unfold naive_dot, zdot. f_equal.
  rewrite <- naive_acc_exact; [|clear Hs|unfold zdot_abs in Hs; lia].
  - do 2 f_equal. clear. revert b. induction a as [|x a IH]; intros [|y b]; [done..|].
    cbn [fmap list_fmap zip zip_with]. f_equal. apply IH.
  - revert b Hb. induction Ha as [|x a Hx Ha IH]; intros b Hb; [constructor|].
    destruct Hb as [|y b Hy Hb]; [constructor|]. cbn [zip zip_with]. constructor; [done|]. by apply IH.
Qed.

(** ** References and the accelerators *)

(** The state but for what indications change. *)
Definition core (w : MW) :=
  (mats w, arrayInfo w, numarrays w, heap w, fdmap w, mmu w, fds w, addrs w, ids w, pending w, drand w).

Lemma wf_core P n m w w' : core w' = core w -> mul_sem w' = mul_sem w -> wf P n m w -> wf P n m w'.
Proof.
  destruct w, w'. unfold core. cbn. intros [= -> -> -> -> -> -> -> -> -> -> ->] ->.
  intros []. split; try done. intros o Ho. destruct (wf_mats0 o Ho) as (h & Hh & [?|(info & b & [])]); [eauto|].
  exists h. split; [done|]. right. by exists info, b.
Qed.

Lemma wfs_core P n m w w' : core w' = core w -> mul_sem w' = mul_sem w -> wfs P n m w -> wfs P n m w'.
Proof.
  intros Hc Hs Hw. unfold wfs.
  assert (empties P w' = empties P w /\ unregistered P w' = unregistered P w) as [-> ->]; [|by apply wf_core with w].
  destruct w, w'. unfold core in Hc. cbn in Hc. injection Hc as -> -> -> -> -> -> -> -> -> -> ->. done.
Qed.

Lemma frame_core this w w' : core w' = core w -> frame this w w'.
Proof. destruct w, w'. unfold core. cbn. intros [= -> -> -> -> -> -> -> -> -> -> ->]. done. Qed.

Lemma mat_is_core w w' o r c g : core w' = core w -> mat_is w o r c g -> mat_is w' o r c g.
Proof. destruct w, w'. unfold core. cbn. intros [= -> -> -> -> -> -> -> -> -> -> ->]. done. Qed.

Definition posts (i : indication) : Z :=
  match i with
  | started | startSourceAndSink _ _ _ | debug _ | sumOfErrorSquaredDebug _ | dbg _ _ _ _ => 0
  | _ => 1
  end.
Definition total_posts (l : list indication) : Z := foldr (fun i n => posts i + n) 0 l.

Lemma handle_all_ok l : forall w, exists w', handle_all l w = Ok tt w' /\ core w' = core w /\
  mul_sem w' = mul_sem w + total_posts l.
Proof.
  induction l as [|i l IH]; intros w; [exists w; cbn; split; [done|split; [done|lia]]|].
  assert (Hi : exists w1, handle i w = Ok tt w1 /\ core w1 = core w /\ mul_sem w1 = mul_sem w + posts i).
  { destruct i; cbn; (eexists; split; [reflexivity|split; [done|cbn; lia]]). }
  destruct Hi as (w1 & H1 & H2 & H3). cbn [handle_all]. rewrite (bind_ok _ _ _ _ _ H1).
  destruct (IH w1) as (w2 & H4 & H5 & H6). exists w2. split; [done|]. split; [congruence|]. unfold total_posts in *. cbn [foldr]. lia.
Qed.

Section DeviceFacts.
Context {AS : AlignSize} {CV : OpenCV} {AC : Accelerator}.

(** Sending a request and waiting for it: the writes are made. *)
Lemma request_served P n m w r writes inds : wfs P n m w -> acc_run r (object w) = (writes, inds) -> total_posts inds = 1 ->
  exists w', (send r ;; sem_wait) w = Ok tt w' /\
    core w' = core (foldr (fun x w => object_write x.1 x.2 w) w writes) /\ mul_sem w' = 0.
Proof.
  intros Hw Hrun Hp. destruct (wf_idle _ _ _ _ Hw) as [Hpend Hsem].
  unfold send, sem_wait. rewrite (bind_ok _ _ _ tt (set_pending (pending w ++ [r]) w)) by done.
  unfold mbind at 1, M_bind at 1, getW at 1. rewrite Hpend. cbn [app pending set_pending sem_wait_loop].
  unfold mbind at 1, M_bind at 1, getW at 1. cbn [mul_sem set_pending]. rewrite decide_False by lia.
  rewrite (bind_ok _ _ _ tt w).
  2: { unfold modifyW. f_equal. destruct w. cbn in *. by subst. }
  unfold serve. rewrite bind_assoc. unfold mbind at 1, M_bind at 1, getW at 1. rewrite Hrun.
  set (w1 := foldr _ w writes). rewrite !bind_assoc, (bind_ok _ _ _ tt w1) by done.
  destruct (handle_all_ok inds w1) as (w2 & H1 & H2 & H3). rewrite (bind_ok _ _ _ _ _ H1).
  assert (Hs1 : mul_sem w1 = 0).
  { subst w1. clear -Hsem. induction writes as [|[ref l] writes IH]; [done|]. cbn. unfold object_write. by case_match. }
  cbn. unfold mbind, M_bind, getW. rewrite decide_True by lia.
  eexists. split; [reflexivity|]. split; [by destruct w2|]. cbn. lia.
Qed.

(** The array of a matrix as the hardware sees it. *)
Lemma owns_object w h info b ref : owns w h info b -> mmu w !! ref = Some (info_fd info) -> object w ref = Some b.
Proof. intros [] Hm. unfold object. rewrite Hm. cbn. rewrite owns_fd0. done. Qed.

(** What registering a matrix keeps. *)
Definition same_data (w w' : MW) : Prop :=
  mats w' = mats w /\ heap w' = heap w /\ fdmap w' = fdmap w /\ drand w' = drand w /\
  (forall i f, mmu w !! i = Some f -> mmu w' !! i = Some f) /\
  (forall k info, znth (arrayInfo w) k = Some info -> exists info', znth (arrayInfo w') k = Some info' /\
     info_fd info' = info_fd info /\ info_refcount info' = info_refcount info /\ (info_ref info <> 0 -> info' = info)) /\
  numarrays w' = numarrays w.

#[export] Instance same_data_refl : Reflexive same_data.
Proof. intros w. repeat split; eauto. Qed.
#[export] Instance same_data_trans : Transitive same_data.
Proof.
  intros w1 w2 w3 (H1 & H2 & H3 & H4 & H5 & H6 & H7) (K1 & K2 & K3 & K4 & K5 & K6 & K7).
  repeat split; [congruence..|eauto| |congruence]. intros k info Hk. destruct (H6 _ _ Hk) as (i2 & Hi2 & E2 & G2 & F2).
  destruct (K6 _ _ Hi2) as (i3 & Hi3 & E3 & G3 & F3). exists i3. split; [done|]. split; [congruence|]. split; [congruence|].
  intros Hne. rewrite F3; [by apply F2|]. by rewrite F2.
Qed.

Lemma same_data_frame this w w' : same_data w w' -> frame this w w'.
Proof.
  intros (H1 & H2 & _ & H4 & _ & H6 & H7). split; [|split; [|split; [intros; by rewrite H1|done]]].
  - intros o h b Hs. unfold sep_from in *. by rewrite H1, H2.
  - intros k x (Hk & Hn & info & Hi & Hx). destruct (H6 _ _ Hi) as (info' & Hi' & _ & E & _).
    unfold count_from. rewrite H1, H7. split; [done|]. split; [done|]. exists info'. split; [done|congruence].
Qed.

Lemma same_data_object w w' r b : same_data w w' -> object w r = Some b -> object w' r = Some b.
Proof.
  intros (_ & H2 & H3 & _ & H5 & _). unfold object. destruct (mmu w !! r) as [f|] eqn:E; [|done].
  cbn. by rewrite (H5 _ _ E), H2, H3.
Qed.

Lemma same_data_mat_is w w' o r c g : same_data w w' -> mat_is w o r c g -> mat_is w' o r c g.
Proof. intros (H1 & H2 & _) (h & b & Hm). exists h, b. by rewrite H1, H2. Qed.

(** A matrix the hardware has not seen gets the next identifier. *)
Definition registered_as (h : Mat) (info : arrayInfo_t) (id : Z) (l : list Z) (w : MW) : MW :=
  set_arrayInfo (<[Z.to_nat (refcount h) := set_info_ref id info]> (arrayInfo w))
    (set_mmu (<[id := info_fd info]> (mmu w)) (set_ids l w)).

Lemma registered_as_ok w o h info id l : mats w !! o = Some h -> znth (arrayInfo w) (refcount h) = Some info ->
  info_ref info = 0 -> ids w = id :: l -> reference o w = Ok id (registered_as h info id l w).
Proof.
  intros Hh Hi Hr Hl. unfold reference, allocator_reference. rewrite (bind_ok _ _ _ _ _ (get_mat_ok _ _ _ Hh)).
  rewrite (bind_ok _ _ _ info w) by (unfold get_info, getW, mbind, M_bind, defined; by rewrite Hi).
  rewrite decide_True by done.
  rewrite (bind_ok _ _ _ id (set_mmu (<[id := info_fd info]> (mmu w)) (set_ids l w))).
  2: { unfold dma_reference. by rewrite (bind_ok _ _ _ _ _ (take_answer_ok _ _ _ _ _ Hl)). }
  unfold upd_info, getW, putW, mbind, M_bind, defined, mret, M_ret. cbn.
  by rewrite zupd_Some by (by eapply znth_Some).
Qed.

Lemma registered_as_wf P n m w o h info b id l : wf P n (S m) w -> o ∈ P -> mats w !! o = Some h -> owns w h info b ->
  info_ref info = 0 -> ids w = id :: l ->
  wf P n (if decide (id = 0) then S m else m) (registered_as h info id l w) /\ same_data w (registered_as h info id l w) /\
  owns (registered_as h info id l w) h (set_info_ref id info) b.
Proof.
  intros Hw Ho Hh Hown Href Hl. pose proof (wf_ids _ _ _ _ Hw) as Hfr. rewrite Hl in Hfr.
  assert (Hid : mmu w !! id = None) by (apply Hfr; by left).
  pose proof (wf_num _ _ _ _ Hw). pose proof (wf_len _ _ _ _ Hw). pose proof (owns_num _ _ _ _ Hown).
  set (w' := registered_as h info id l w).
  assert (Hsd : same_data w w').
  { repeat split; cbn.
    - intros i f Hf. rewrite lookup_insert_ne by congruence. done.
    - intros k x Hk. unfold znth in *. case_decide as Hk0; [|done].
      destruct (decide (Z.to_nat k = Z.to_nat (refcount h))) as [E|E].
      + rewrite E, list_lookup_insert_eq by lia. eexists. split; [done|].
        pose proof (owns_info _ _ _ _ Hown) as Hi. unfold znth in Hi. rewrite decide_True in Hi by lia.
        rewrite E in Hk. simplify_eq. done.
      + exists x. rewrite list_lookup_insert_ne by congruence. done. }
  assert (Hthis : owns w' h (set_info_ref id info) b).
  { destruct Hown. split; try done.
    - cbn. unfold znth. rewrite decide_True by lia. rewrite list_lookup_insert_eq by lia. done.
    - right. cbn. by rewrite lookup_insert_eq. }
  split; [split|done]; try apply Hw.
  - intros o' Ho'. destruct (decide (o' = o)) as [->|Hne]; [by eauto 6|].
    destruct (wf_mats _ _ _ _ Hw o' Ho') as (h' & Hh' & Hc'). exists h'. split; [done|].
    destruct Hc' as [?|(i' & b' & Hown')]; [by left|right]. exists i', b'.
    destruct (wf_sep _ _ _ _ Hw o o' h h') as [_ Hr]; eauto using owns_not_empty.
    pose proof Hsd as (_ & _ & _ & _ & H5 & _). destruct Hown'. split; try done.
    + cbn. unfold znth in *. rewrite decide_True in * by lia. rewrite list_lookup_insert_ne by lia. done.
    + destruct owns_ref0 as [?|Hm]; [by left|right]. by apply H5.
  - cbn. by rewrite length_insert.
  - cbn. by apply fresh_ids_cons.
Qed.

Lemma reference_result P n m w o h info b : wfs P n m w -> o ∈ P -> mats w !! o = Some h -> owns w h info b ->
  exists ref w' info', reference o w = Ok ref w' /\ wfs P n m w' /\ same_data w w' /\ owns w' h info' b /\
    mmu w' !! ref = Some (info_fd info').
Proof.
  intros Hw Ho Hh Hown. pose proof (owns_info _ _ _ _ Hown) as Hi. pose proof (owns_num _ _ _ _ Hown).
  pose proof (wf_num _ _ _ _ Hw). pose proof (wf_len _ _ _ _ Hw).
  destruct (decide (info_ref info = 0)) as [Href|Href].
  2: { exists (info_ref info), w, info. split; [|split; [done|split; [done|split; [done|]]]].
       2: { by destruct (owns_ref _ _ _ _ Hown). }
       unfold reference, allocator_reference.
       rewrite (bind_ok _ _ _ _ _ (get_mat_ok _ _ _ Hh)).
       rewrite (bind_ok _ _ _ info w) by (unfold get_info, getW, mbind, M_bind, defined; by rewrite Hi).
       by rewrite decide_False. }
  unfold wfs in Hw. destruct (unregistered P w) as [|u] eqn:Hu.
  { exfalso. apply size_empty_iff in Hu.
    assert (o ∈ filter (fun o => ~ registered w o) P); [|set_solver]. apply elem_of_filter. split; [|done].
    unfold registered. rewrite Hh, Hi. naive_solver. }
  rewrite Nat.add_succ_r in Hw.
  destruct (fresh_ids_inv _ _ _ (wf_ids _ _ _ _ Hw)) as (id & l & Hl & _).
  destruct (registered_as_wf P _ _ w o h info b id l Hw Ho Hh Hown Href Hl) as (W & D & O).
  exists id, (registered_as h info id l w), (set_info_ref id info). split; [by apply registered_as_ok|].
  split; [|split; [done|split; [done|cbn; by rewrite lookup_insert_eq]]].
  assert (Hothers : forall x, x ∈ P -> x <> o -> registered (registered_as h info id l w) x <-> registered w x).
  { intros x Hx Hne. destruct (wf_mats _ _ _ _ Hw x Hx) as (h' & Hh' & Hc).
    apply registered_other with h'; [done|done|]. intros Hn0.
    destruct Hc as [?|(info' & b' & Hown')]; [done|]. pose proof (owns_num _ _ _ _ Hown').
    destruct (wf_sep _ _ _ _ Hw o x h h') as [_ Hd]; eauto using owns_not_empty.
    cbn. unfold znth. rewrite !decide_True by lia. by rewrite list_lookup_insert_ne by lia. }
  assert (Hself : registered (registered_as h info id l w) o <-> id <> 0).
  { unfold registered. cbn. rewrite Hh. unfold znth. rewrite decide_True by lia. rewrite list_lookup_insert_eq by lia.
    cbn. pose proof (owns_not_empty _ _ _ _ Hown). naive_solver. }
  assert (Hnow : ~ registered w o) by (unfold registered; rewrite Hh, Hi; naive_solver).
  unfold wfs. case_decide as Hid.
  - assert (unregistered P (registered_as h info id l w) = unregistered P w) as E; [|rewrite E, Hu, Nat.add_succ_r; exact W].
    apply size_filter_eq. intros x Hx. destruct (decide (x = o)) as [->|Hne]; [naive_solver|by rewrite Hothers].
  - assert (unregistered P w = S (unregistered P (registered_as h info id l w))) as E.
    { apply size_filter_flip with o; [done|done|naive_solver|]. intros x Hx Hne. by rewrite Hothers. }
    replace (m + unregistered P (registered_as h info id l w))%nat with (m + u)%nat by lia. exact W.
Qed.

(** ** The matrix engine *)

(** The element of an object that is read as a matrix with [c] columns. *)
Definition elem (l : list float) (c i j : Z) : float := default S754_nan (znth l (i * c + j)).

(** What the engine of the TN and of the NT build does with a request for
    matrices that are in its memory: the elements of the result are the [dot]
    of columns, respectively of rows, and one indication tells that it is done. *)
Class EngineTN (J : Z) (dot : list float -> list float -> float) : Prop := engine_TN :
  forall mem aref bref cref r ca cb la lb lc,
  mem aref = Some la -> mem bref = Some lb -> mem cref = Some lc ->
  r * ca <= Z.of_nat (length la) -> r * cb <= Z.of_nat (length lb) -> ca * cb <= Z.of_nat (length lc) ->
  exists lc' inds,
    acc_run (Mmf aref r ca bref r cb cref [u32 (r * ca); u32 (ca * J); u32 (r * cb); u32 (cb * J); u32 (ca * cb); u32 (r * cb)]) mem
      = ([(cref, lc')], inds) /\
    total_posts inds = 1 /\ length lc' = length lc /\
    forall i j, 0 <= i < ca -> 0 <= j < cb ->
      znth lc' (i * cb + j) = Some (dot (col (elem la ca) r i) (col (elem lb cb) r j)).
Class EngineNT (J K : Z) (dot : list float -> list float -> float) : Prop := engine_NT :
  forall mem aref bref cref c ra rb la lb lc,
  mem aref = Some la -> mem bref = Some lb -> mem cref = Some lc ->
  ra * c <= Z.of_nat (length la) -> rb * c <= Z.of_nat (length lb) -> ra * rb <= Z.of_nat (length lc) ->
  exists lc' inds,
    acc_run (Mmf aref ra c bref rb c cref [u32 (ra * c); u32 (c * J); u32 (rb * c); u32 (c * K); u32 (ra * rb); u32 (rb * J)]) mem
      = ([(cref, lc')], inds) /\
    total_posts inds = 1 /\ length lc' = length lc /\
    forall i j, 0 <= i < ra -> 0 <= j < rb ->
      znth lc' (i * rb + j) = Some (dot (row (elem la c) c i) (row (elem lb c) c j)).

Lemma col_ext g g' n j : (forall l, 0 <= l < n -> g l j = g' l j) -> col g n j = col g' n j.
Proof. intros H. unfold col. apply list_fmap_ext. intros k x Hx. apply H. apply lookup_seqZ in Hx. lia. Qed.
Lemma row_ext g g' n i : (forall l, 0 <= l < n -> g i l = g' i l) -> row g n i = row g' n i.
Proof. intros H. unfold row. apply list_fmap_ext. intros k x Hx. apply H. apply lookup_seqZ in Hx. lia. Qed.

Lemma cacheFlush_ok w o h info b : mats w !! o = Some h -> owns w h info b ->
  cacheFlushInvalidate o w = Ok tt (set_flushed (flushed w ++ [info_fd info]) w).
Proof.
  intros Hh Hown. unfold cacheFlushInvalidate. rewrite (bind_ok _ _ _ _ _ (get_mat_ok _ _ _ Hh)).
  unfold allocator_cacheFlushInvalidate, get_info, portalDCacheFlushInval, modifyW, getW, mbind, M_bind, defined.
  by rewrite (owns_info _ _ _ _ Hown).
Qed.

(** A matrix of [P] with elements; it has an array. *)
Lemma mat_is_owns P n m w o r c g : wfs P n m w -> o ∈ P -> 0 < r -> mat_is w o r c g ->
  exists h info b, mats w !! o = Some h /\ owns w h info b /\ rows h = r /\ cols h = c /\
    r * c <= Z.of_nat (length b) /\ forall i j, 0 <= i < r -> 0 <= j < c -> elem b c i j = g i j.
Proof.
  intros Hw Ho Hr (h & b & Hh & Hhr & Hhc & Hb & Hl & He).
  destruct (wf_cases _ _ _ _ _ _ Hw Ho Hh) as [->|(info & b' & Hown)]; [cbn in *; lia|].
  exists h, info, b. pose proof (owns_heap _ _ _ _ Hown). simplify_eq.
  split; [done|]. split; [done|]. split; [done|]. split; [done|]. split; [done|].
  intros i j Hi Hj. unfold elem. by rewrite (He i j Hi Hj).
Qed.

(** The three references of a request. *)
Lemma references_result P n m w a b this ha hb h ia ib i la lb l : wfs P n m w ->
  a ∈ P -> b ∈ P -> this ∈ P -> mats w !! a = Some ha -> mats w !! b = Some hb -> mats w !! this = Some h ->
  owns w ha ia la -> owns w hb ib lb -> owns w h i l ->
  exists aref bref cref i' w', wfs P n m w' /\ same_data w w' /\ owns w' h i' l /\ mmu w' !! cref = Some (info_fd i') /\
    object w' aref = Some la /\ object w' bref = Some lb /\ object w' cref = Some l /\
    forall (A : Type) (k : Z -> Z -> Z -> M MW A),
      (aref ← reference a; bref ← reference b; cref ← reference this; k aref bref cref) w = k aref bref cref w'.
Proof.
  intros Hw Ha Hb Ht Hha Hhb Hh Hoa Hob Ho.
  destruct (reference_result P n _ w a ha ia la Hw Ha Hha Hoa) as (aref & w1 & ia1 & R1 & W1 & D1 & O1 & E1).
  assert (Hown : forall o h i l, o ∈ P -> mats w !! o = Some h -> owns w h i l -> exists i1, owns w1 h i1 l).
  { intros o h' i' l' Hox Hm Hown'. destruct D1 as (Hd1 & Hd2 & _).
    destruct (wf_cases _ _ _ _ o h' W1 Hox) as [->|(i1 & l1 & Hx)]; [by rewrite Hd1|by destruct (owns_data _ _ _ _ Hown')|].
    exists i1. pose proof (owns_heap _ _ _ _ Hx) as Hy. rewrite Hd2, (owns_heap _ _ _ _ Hown') in Hy. by simplify_eq. }
  destruct (Hown b hb ib lb Hb Hhb Hob) as (ib1 & Hob1).
  assert (Hhb1 : mats w1 !! b = Some hb) by (by rewrite (proj1 D1)).
  destruct (reference_result P n _ w1 b hb ib1 lb W1 Hb Hhb1 Hob1) as (bref & w2 & ib2 & R2 & W2 & D2 & O2 & E2).
  assert (Hh2 : mats w2 !! this = Some h) by (by rewrite (proj1 D2), (proj1 D1)).
  destruct (wf_cases _ _ _ _ this h W2 Ht Hh2) as [->|(i2 & l2 & Hx)]; [by destruct (owns_data _ _ _ _ Ho)|].
  assert (l2 = l) as ->.
  { pose proof (owns_heap _ _ _ _ Hx) as Hy. destruct D1 as (_ & Hd1 & _), D2 as (_ & Hd2 & _).
    rewrite Hd2, Hd1, (owns_heap _ _ _ _ Ho) in Hy. by simplify_eq. }
  destruct (reference_result P n _ w2 this h i2 l W2 Ht Hh2 Hx) as (cref & w3 & i3 & R3 & W3 & D3 & O3 & E3).
  exists aref, bref, cref, i3, w3. split; [done|]. split; [by do 2 (etrans; [done|])|]. split; [done|]. split; [done|].
  split; [|split; [|split]].
  - eapply same_data_object, same_data_object; [done|done|]. by eapply owns_object.
  - eapply same_data_object; [done|]. by eapply owns_object.
  - by eapply owns_object.
  - intros A k. by rewrite (bind_ok _ _ _ _ _ R1), (bind_ok _ _ _ _ _ R2), (bind_ok _ _ _ _ _ R3).
Qed.

(** The end of both products: the engine writes the array of [this]. *)
Lemma engine_write P n m w this h i l l' ref inds r g req : wfs P n m w -> this ∈ P -> mats w !! this = Some h -> owns w h i l ->
  mmu w !! ref = Some (info_fd i) -> acc_run req (object w) = ([(ref, l')], inds) -> total_posts inds = 1 -> length l' = length l ->
  rows h = r -> (forall a b, 0 <= a < rows h -> 0 <= b < cols h -> znth l' (a * cols h + b) = Some (g a b)) ->
  exists w', (send req ;; sem_wait) w = Ok tt w' /\ result P n m this r (cols h) g w w'.
Proof.
  intros Hw Ht Hh Ho Hr Hrun Hp Hl <- Hg.
  destruct (request_served P n m w req _ _ Hw Hrun Hp) as (w' & Hs & Hc & Hsem). exists w'. split; [done|].
  assert (Hwr : object_write ref l' w = setb (datastart h) l' w).
  { unfold object_write, setb. rewrite Hr. cbn.
    by rewrite (owns_fd _ _ _ _ Ho). }
  cbn in Hc. rewrite Hwr in Hc.
  destruct (setb_wf P n m w this h i l l' Hw Ht Hh Ho Hl) as (H1 & H2 & H3).
  split; [eapply wfs_core; [done| |done]; by rewrite Hsem, (proj2 (wf_idle _ _ _ _ H1))|].
  split; [etrans; [done|by apply frame_core]|]. apply mat_is_core with (setb (datastart h) l' w); [done|].
  exists h, l'. split; [done|]. split; [done|]. split; [done|]. split; [apply H2|]. split; [apply H2|done].
Qed.

(** Up to the references: [this] has its shape and the operands are as they were. *)
Lemma prepare P n m w this a b R C ha hb ia ib la lb : wfs P (cost w this R C + n) (cost w this R C + m) w ->
  this ∈ P -> a ∈ P -> b ∈ P -> a <> this -> b <> this -> fits R C ->
  mats w !! a = Some ha -> mats w !! b = Some hb -> owns w ha ia la -> owns w hb ib lb ->
  exists w2 h i l ia' ib', wfs P n m w2 /\ frame this w w2 /\
    mats w2 !! a = Some ha /\ mats w2 !! b = Some hb /\ mats w2 !! this = Some h /\
    owns w2 ha ia' la /\ owns w2 hb ib' lb /\ owns w2 h i l /\ rows h = R /\ cols h = C /\
    forall (A : Type) (k : Mat -> Mat -> M MW A),
      (create this R C ;; cacheFlushInvalidate this ;; ha ← get_mat a; hb ← get_mat b; k ha hb) w = k ha hb w2.
Proof.
  intros Hw Ht Ha Hb Hna Hnb Hf Hha Hhb Hoa Hob.
  pose proof (wf_sep_from _ _ _ _ _ _ _ _ _ Hw Ht Ha Hna Hha Hoa) as Hsa.
  pose proof (wf_sep_from _ _ _ _ _ _ _ _ _ Hw Ht Hb Hnb Hhb Hob) as Hsb.
  destruct (create_shaped P n m w this R C Hw Ht Hf) as (w1 & R1 & W1 & F1 & h & i & l & Hh & Ho & Hhr & Hhc).
  exists (set_flushed (flushed w1 ++ [info_fd i]) w1), h. set (w2 := set_flushed _ w1).
  assert (W2 : wfs P n m w2) by (by apply wfs_core with w1).
  assert (F2 : frame this w w2) by (etrans; [done|by apply frame_core]).
  assert (Hkeep : forall o ho lo, o ∈ P -> sep_from w this o ho lo -> mats w2 !! o = Some ho /\ exists io, owns w2 ho io lo).
  { intros o ho lo Hop Hs. pose proof (proj1 F2 _ _ _ Hs) as (_ & Hd & Hm & Hl & _). split; [done|].
    destruct (wf_cases _ _ _ _ o ho W2 Hop Hm) as [->|(io & lo' & Hx)]; [done|].
    exists io. pose proof (owns_heap _ _ _ _ Hx). by simplify_eq. }
  destruct (Hkeep a ha la Ha Hsa) as (Hha2 & ia' & Hoa2). destruct (Hkeep b hb lb Hb Hsb) as (Hhb2 & ib' & Hob2).
  destruct (wf_cases _ _ _ _ this h W2 Ht Hh) as [->|(i2 & l2 & Ho2)]; [by destruct (owns_data _ _ _ _ Ho)|].
  exists i2, l2, ia', ib'. repeat (split; [done|]). intros A k.
  by rewrite (bind_ok _ _ _ _ _ R1), (bind_ok _ _ _ _ _ (cacheFlush_ok _ _ _ _ _ Hh Ho)),
    (bind_ok _ _ _ _ _ (get_mat_ok _ _ _ Hha2)), (bind_ok _ _ _ _ _ (get_mat_ok _ _ _ Hhb2)).
Qed.

Lemma multf_result P n m w this a b J dot r ca cb ga gb : EngineTN J dot -> wfs P (cost w this ca cb + n) (cost w this ca cb + m) w ->
  this ∈ P -> a ∈ P -> b ∈ P -> a <> this -> b <> this -> 0 < r -> fits ca cb ->
  mat_is w a r ca ga -> mat_is w b r cb gb ->
  exists w', multf J this a b w = Ok tt w' /\
    result P n m this ca cb (fun i j => dot (col ga r i) (col gb r j)) w w'.
Proof.
  intros HE Hw Ht Ha Hb Hna Hnb Hr Hf Hma Hmb. unfold multf.
  destruct (mat_is_owns _ _ _ _ _ _ _ _ Hw Ha Hr Hma) as (ha & ia & la & Hha & Hoa & Hra & Hca & Hla & Hea).
  destruct (mat_is_owns _ _ _ _ _ _ _ _ Hw Hb Hr Hmb) as (hb & ib & lb & Hhb & Hob & Hrb & Hcb & Hlb & Heb).
  rewrite (bind_ok _ _ _ _ _ (get_mat_ok _ _ _ Hha)), (bind_ok _ _ _ _ _ (get_mat_ok _ _ _ Hhb)), Hca, Hcb.
  destruct (prepare P n m w this a b ca cb ha hb ia ib la lb)
    as (w2 & h & i & l & ia' & ib' & W2 & F2 & Ma & Mb & Mc & Oa & Ob & Oc & Hhr & Hhc & Hk); try done.
  rewrite Hk, Hra, Hrb, Hca, Hcb, decide_False by lia.
  destruct (references_result P n m w2 a b this ha hb h ia' ib' i la lb l) as
    (aref & bref & cref & i' & w3 & W3 & D3 & Ho3 & Nc & Va & Vb & Vc & Hk'); try done.
  rewrite Hk'.
  destruct (HE (object w3) aref bref cref r ca cb la lb l Va Vb Vc Hla Hlb) as (l' & inds & Hrun & Hp & Hl' & Hg).
  { rewrite <- Hhr, <- Hhc. apply Oc. }
  assert (Hh3 : mats w3 !! this = Some h) by (by rewrite (proj1 D3)).
  edestruct (engine_write P n m w3 this h i' l l' cref inds ca (fun i j => dot (col ga r i) (col gb r j))) as (w4 & R4 & W4 & F4 & M4);
    [done|done|done|done|done|exact Hrun|done|done|done| |].
  { intros x y Hx Hy. rewrite Hhc in *. rewrite Hg by lia. do 2 f_equal; apply col_ext; intros; [apply Hea|apply Heb]; lia. }
  exists w4. split; [done|]. split; [done|]. split; [etrans; [done|etrans; [by apply same_data_frame|done]]|].
  by rewrite Hhc in M4.
Qed.

Lemma multf_NT_result P n m w this a b J K dot c ra rb ga gb : EngineNT J K dot -> wfs P (cost w this ra rb + n) (cost w this ra rb + m) w ->
  this ∈ P -> a ∈ P -> b ∈ P -> a <> this -> b <> this -> fits ra rb ->
  mat_is w a ra c ga -> mat_is w b rb c gb ->
  exists w', multf_NT J K this a b w = Ok tt w' /\
    result P n m this ra rb (fun i j => dot (row ga c i) (row gb c j)) w w'.
Proof.
  intros HE Hw Ht Ha Hb Hna Hnb Hf Hma Hmb. unfold multf_NT.
  destruct (mat_is_owns _ _ _ _ _ _ _ _ Hw Ha (proj1 Hf) Hma) as (ha & ia & la & Hha & Hoa & Hra & Hca & Hla & Hea).
  destruct (mat_is_owns _ _ _ _ _ _ _ _ Hw Hb (proj1 (proj2 Hf)) Hmb) as (hb & ib & lb & Hhb & Hob & Hrb & Hcb & Hlb & Heb).
  rewrite (bind_ok _ _ _ _ _ (get_mat_ok _ _ _ Hha)), (bind_ok _ _ _ _ _ (get_mat_ok _ _ _ Hhb)), Hra, Hrb.
  destruct (prepare P n m w this a b ra rb ha hb ia ib la lb)
    as (w2 & h & i & l & ia' & ib' & W2 & F2 & Ma & Mb & Mc & Oa & Ob & Oc & Hhr & Hhc & Hk); try done.
  rewrite Hk, Hra, Hrb, Hca, Hcb, decide_False by lia.
  destruct (references_result P n m w2 a b this ha hb h ia' ib' i la lb l) as
    (aref & bref & cref & i' & w3 & W3 & D3 & Ho3 & Nc & Va & Vb & Vc & Hk'); try done.
  rewrite Hk'.
  destruct (HE (object w3) aref bref cref c ra rb la lb l Va Vb Vc Hla Hlb) as (l' & inds & Hrun & Hp & Hl' & Hg).
  { rewrite <- Hhr, <- Hhc. apply Oc. }
  assert (Hh3 : mats w3 !! this = Some h) by (by rewrite (proj1 D3)).
  edestruct (engine_write P n m w3 this h i' l l' cref inds ra (fun i j => dot (row ga c i) (row gb c j))) as (w4 & R4 & W4 & F4 & M4);
    [done|done|done|done|done|exact Hrun|done|done|done| |].
  { intros x y Hx Hy. rewrite Hhc in *. rewrite Hg by lia. do 2 f_equal; apply row_ext; intros; [apply Hea|apply Heb]; lia. }
  exists w4. split; [done|]. split; [done|]. split; [etrans; [done|etrans; [by apply same_data_frame|done]]|].
  by rewrite Hhc in M4.
Qed.
End DeviceFacts.

(** * Theorems *)

Section MatTheorems.
Context {AS : AlignSize} {CV : OpenCV} {AC : Accelerator}.

(** C12: A product on the hardware: for an engine whose elements are the [dot] of
    columns, [multf] leaves in [this] the transpose of [a] times [b], whatever
    shape and contents [this] had, changes no other matrix, keeps every matrix
    the only owner of its array, and uses an array and a reference more than
    were still to be given out only if [this] had another shape. *)
Theorem multf_product (P : gset nat) n m w this a b J dot r ca cb ga gb :
  EngineTN J dot -> wfs P (S n) (S m) w -> this ∈ P -> a ∈ P -> b ∈ P -> a <> this -> b <> this ->
  0 < r -> fits ca cb -> mat_is w a r ca ga -> mat_is w b r cb gb ->
  exists w', multf J this a b w = Ok tt w' /\ wfs P n m w' /\
    mat_is w' this ca cb (fun i j => dot (col ga r i) (col gb r j)) /\
    forall o r' c' g', o ∈ P -> o <> this -> 0 < r' -> mat_is w o r' c' g' -> mat_is w' o r' c' g'.
Proof.
  intros HE Hw Ht Ha Hb Hna Hnb Hr Hf Hma Hmb.
  destruct (multf_result P n m w this a b J dot r ca cb ga gb) as (w' & Hrun & Hw' & Hfr & Hm); try done; [by apply wfs_cost|].
  exists w'. split; [done|]. split; [done|]. split; [done|]. intros o r' c' g' Ho Hne Hr' Hmo.
  destruct (mat_is_owns _ _ _ _ _ _ _ _ Hw Ho Hr' Hmo) as (h & info & l & Hh & Hown & _).
  eapply mat_is_frame; [done| |done]. by eapply wf_sep_from.
Qed.

(** Transposing twice gives the matrix back: after [t1.transpose(o)] and
    [t2.transpose(t1)], [t2] has the elements of [o] and [t1] the transposed
    ones. *)
Theorem transpose_twice (P : gset nat) n m w t1 t2 o r c g :
  wfs P (S (S n)) (S (S m)) w -> t1 ∈ P -> t2 ∈ P -> o ∈ P -> t1 <> t2 -> o <> t1 -> fits r c -> mat_is w o r c g ->
  exists w', (transpose t1 o ;; transpose t2 t1) w = Ok true w' /\ wfs P n m w' /\
    mat_is w' t1 c r (fun i j => g j i) /\ mat_is w' t2 r c g.
Proof.
  intros Hw H1 H2 Ho H12 Ho1 Hf Hm.
  destruct (mat_is_owns _ _ _ _ _ _ _ _ Hw Ho (proj1 Hf) Hm) as (h & info & l & Hh & Hown & _).
  destruct (transpose_result P (S n) (S m) w t1 o r c g (wfs_cost _ _ _ _ _ _ _ Hw) H1 Hf) as (w1 & R1 & W1 & F1 & M1).
  { split; [done|]. eexists _, _. eapply wf_sep_from; [exact Hw| | | | |]; done. }
  assert (Hf' : fits c r) by (destruct Hf as (? & ? & ?); split; [done|split; [done|lia]]).
  destruct (mat_is_owns _ _ _ _ _ _ _ _ W1 H1 (proj1 Hf') M1) as (h1 & i1 & l1 & Hh1 & Hown1 & _).
  assert (Hs : sep_from w1 t2 t1 h1 l1) by (by eapply wf_sep_from).
  destruct (transpose_result P n m w1 t2 t1 c r (fun i j => g j i) (wfs_cost _ _ _ _ _ _ _ W1) H2 Hf') as (w2 & R2 & W2 & F2 & M2); [by split; eauto|].
  exists w2. rewrite (bind_ok _ _ _ _ _ R1). split; [done|]. split; [done|]. split; [|done]. by eapply mat_is_frame.
Qed.

(** C28: The reference product is exact for integers: when the elements of two
    matrices are integers of at most 24 bits and the products of a row and a
    column add up to less than [2 ^ 53] in absolute value, [naive_mul] gives the
    exact product, rounded once, to [float]. *)
Theorem naive_mul_integers (P : gset nat) n m w this a b r k c (A B : Z -> Z -> Z) :
  wfs P (S n) (S m) w -> this ∈ P -> a ∈ P -> b ∈ P -> a <> this -> b <> this -> fits r c -> 0 < k ->
  mat_is w a r k (fun i l => float_of_Z (A i l)) -> mat_is w b k c (fun l j => float_of_Z (B l j)) ->
  (forall i j, Z.abs (A i j) < 2 ^ 24 /\ Z.abs (B i j) < 2 ^ 24) ->
  (forall i j, 0 <= i < r -> 0 <= j < c -> zdot_abs (A i <$> seqZ 0 k) ((fun l => B l j) <$> seqZ 0 k) < 2 ^ 53) ->
  exists w', naive_mul this a b w = Ok tt w' /\ wfs P n m w' /\
    exists g, mat_is w' this r c g /\ forall i j, 0 <= i < r -> 0 <= j < c ->
      g i j = float_of_double (double_of_Z (zdot (A i <$> seqZ 0 k) ((fun l => B l j) <$> seqZ 0 k))).
Proof.
  intros Hw Ht Ha Hb Hna Hnb Hf Hk Hma Hmb Hsmall Hsum.
  assert (Hsrc : forall o r g c, o ∈ P -> o <> this -> 0 < r -> mat_is w o r c g -> source w this o r c g).
  { intros o r' g c' Ho Hne Hr Hm. destruct (mat_is_owns _ _ _ _ _ _ _ _ Hw Ho Hr Hm) as (h & info & l & Hh & Hown & _).
    split; [done|]. eexists _, _. eapply wf_sep_from; [exact Hw| | | | |]; done. }
  destruct (naive_mul_result P n m w this a b r k c (fun i l => float_of_Z (A i l)) (fun l j => float_of_Z (B l j)) (wfs_cost _ _ _ _ _ _ _ Hw) Ht Hf ltac:(lia)
    (Hsrc _ _ _ _ Ha Hna (proj1 Hf) Hma) (Hsrc _ _ _ _ Hb Hnb Hk Hmb)) as (w' & R & W & F & M).
  exists w'. split; [done|]. split; [done|]. eexists. split; [exact M|]. intros i j Hi Hj. cbn beta.
  assert (HF : forall f : Z -> Z, (forall l, Z.abs (f l) < 2 ^ 24) -> Forall (fun z => Z.abs z < 2 ^ 24) (f <$> seqZ 0 k)).
  { intros f Hs. apply Forall_fmap, Forall_forall. intros; apply Hs. }
  rewrite <- naive_dot_exact; [|apply HF; apply Hsmall|apply HF; intros; apply Hsmall|by apply Hsum].
  unfold row, col. by rewrite <- !list_fmap_compose.
Qed.

(** [compare] holds exactly when the shapes agree and no element's relative
    error exceeds the bound; but the error of a NaN is not greater than
    anything, so that results that are not numbers are accepted whatever the
    reference. *)
Theorem compare_verdict w this refMat r c g r' c' g' epsilon :
  0 <= r -> 0 <= c -> mat_is w this r c g -> mat_is w refMat r' c' g' ->
  exists rv, compare this refMat epsilon w = Ok rv w /\
    (rv = true <-> r = r' /\ c = c' /\ all_match epsilon r c g g') /\
    (r = r' -> c = c' -> (forall i j, 0 <= i < r -> 0 <= j < c -> g i j = S754_nan) -> rv = true).
Proof.
  intros Hr Hc Hm Hm'. destruct (compare_result w this refMat r c g r' c' g' epsilon Hr Hc Hm Hm') as (rv & R & H).
  exists rv. split; [done|]. split; [done|]. intros -> -> Hn. apply H. split; [done|]. split; [done|].
  intros i j Hi Hj. rewrite Hn by done. by destruct epsilon as [[]|[]| |[]], (g' i j).
Qed.

(** The exponents reported are the extremes over the elements and 0: a matrix of
    large numbers only is reported with the smallest exponent 0. *)
Lemma dynamicRange_exponents w mat r c g : 0 <= r -> 0 <= c -> mat_is w mat r c g ->
  exists lo hi vlo vhi, dynamicRange mat w = Ok (lo, hi, vlo, vhi) w /\
    (forall i j, 0 <= i < r -> 0 <= j < c -> lo <= frexp_exp (g i j) <= hi) /\
    lo <= 0 <= hi /\
    (lo = 0 \/ exists i j, 0 <= i < r /\ 0 <= j < c /\ lo = frexp_exp (g i j)) /\
    (hi = 0 \/ exists i j, 0 <= i < r /\ 0 <= j < c /\ hi = frexp_exp (g i j)).
Proof.
  intros Hr Hc Hm. pose proof Hm as (h & b & Hh & Hhr & Hhc & _). unfold dynamicRange.
  rewrite (bind_ok _ _ _ _ _ (get_mat_ok _ _ _ Hh)), Hhr, Hhc.
  destruct (for_mat_inv (fun K '(lo, hi, _, _) w' => w' = w /\ lo <= 0 <= hi /\
      (forall i j, 0 <= i < r -> 0 <= j < c -> i * c + j < K -> lo <= frexp_exp (g i j) <= hi) /\
      (lo = 0 \/ exists i j, 0 <= i < r /\ 0 <= j < c /\ lo = frexp_exp (g i j)) /\
      (hi = 0 \/ exists i j, 0 <= i < r /\ 0 <= j < c /\ hi = frexp_exp (g i j)))
    (fun i j '(min_exp, max_exp, min_val, max_val) =>
      f ← at_ mat i j; let exp := frexp_exp f in
      mret (Z.min min_exp exp, Z.max max_exp exp, fmin min_val f, fmax max_val f))
    r c (0, 0, S754_zero false, S754_zero false) w Hr Hc)
    as ([[[lo hi] vlo] vhi] & w' & R & -> & H0 & Hall & Hlo & Hhi).
  - split; [done|]. split; [lia|]. split; [|split; by left]. intros i j Hi Hj. nia.
  - intros i j [[[lo hi] vlo] vhi] w1 Hi Hj (-> & H0 & Hall & Hlo & Hhi).
    eexists _, w. split; [by rewrite (bind_ok _ _ _ _ _ (at_mat_is _ _ _ _ _ _ _ Hm Hi Hj))|].
    split; [done|]. split; [lia|]. split; [|split].
    + intros i' j' Hi' Hj' HK. destruct (decide (i' * c + j' < i * c + j)) as [Hlt|Hge]; [specialize (Hall i' j' Hi' Hj' Hlt); lia|].
      assert (i' = i) as -> by (destruct (Z.lt_trichotomy i' i) as [?|[?|?]]; [nia|done|nia]).
      assert (j' = j) as -> by lia. lia.
    + destruct (Z.min_spec lo (frexp_exp (g i j))) as [[_ ->]|[_ ->]]; [done|right; by exists i, j].
    + destruct (Z.max_spec hi (frexp_exp (g i j))) as [[_ ->]|[_ ->]]; [right; by exists i, j|done].
  - exists lo, hi, vlo, vhi. split; [done|]. split; [|done]. intros i j Hi Hj. apply Hall; nia.
Qed.

(** The table of arrays is never reused: the allocation after the 127th writes
    behind its end, however few arrays are in use. *)
Lemma allocate_overruns w r s : length (arrayInfo w) = 128%nat -> numarrays w = 128 -> fds w <> [] -> allocate r s w = Fault.
Proof.
  intros Hl Hn Hf. unfold allocate, portalAlloc, take_answer, get_info, getW, putW, mbind, M_bind, defined, mret, M_ret.
  cbn. destruct (fds w) eqn:E; [done|]. rewrite Hn. unfold znth. cbn. rewrite lookup_ge_None_2; [done|lia].
Qed.

(** C40: The first identifier of the MMU is 0, which the allocator takes for "not
    registered": the matrix that gets it is registered again, under another
    identifier, at its next use, and the release of any matrix the hardware has
    never seen takes identifier 0 away from the matrix it belongs to. *)
Theorem identifier_zero_lost w o h info o2 h2 info2 id l :
  mats w !! o = Some h -> znth (arrayInfo w) (refcount h) = Some info -> info_ref info = 0 ->
  mats w !! o2 = Some h2 -> refcount h2 <> 0 -> znth (arrayInfo w) (refcount h2) = Some info2 -> info_ref info2 = 0 ->
  info_refcount info2 = 1 -> refcount h <> refcount h2 -> id <> 0 -> ids w = 0 :: id :: l ->
  exists w1 w2 w3, reference o w = Ok 0 w1 /\ reference o w1 = Ok id w2 /\ ids w2 = l /\
    mmu w2 !! 0 = Some (info_fd info) /\ mmu w2 !! id = Some (info_fd info) /\
    release o2 w2 = Ok tt w3 /\ object w3 0 = None.
Proof.
  intros Hh Hi Hr Hh2 Hn2 Hi2 Hr2 Hc2 Hne Hid Hl.
  set (w1 := registered_as h info 0 (id :: l) w). set (w2 := registered_as h info id l w1).
  pose proof (znth_Some _ _ _ Hi) as Hb. pose proof (znth_Some _ _ _ Hi2) as Hb2.
  assert (Hi1 : znth (arrayInfo w1) (refcount h) = Some info).
  { cbn. unfold znth. rewrite decide_True by lia. rewrite list_lookup_insert_eq by lia. f_equal. destruct info. cbn in *. by subst. }
  pose proof (registered_as_ok w o h info 0 (id :: l) Hh Hi Hr Hl) as R1.
  pose proof (registered_as_ok w1 o h info id l Hh Hi1 Hr eq_refl) as R2.
  assert (Hi2' : znth (arrayInfo w2) (refcount h2) = Some info2).
  { cbn. unfold znth in *. rewrite decide_True in * by lia. by rewrite !list_lookup_insert_ne by lia. }
  eexists w1, w2, _. split; [done|]. split; [done|]. split; [done|].
  split; [cbn; rewrite lookup_insert_ne by done; by rewrite lookup_insert_eq|].
  split; [cbn; by rewrite lookup_insert_eq|].
  rewrite (release_last o2 w2 h2 info2) by done.
  unfold deallocate, get_info, upd_info, munmap, dma_dereference, close, put_mat, modifyW, getW, putW, mbind, M_bind, defined.
  rewrite Hi2'. cbn. rewrite zupd_Some by (rewrite !length_insert; lia). split; [reflexivity|]. unfold object. cbn. by rewrite Hr2, lookup_delete_eq.
Qed.
End MatTheorems.

(** * An OpenCV, an engine and a program *)

Module MatDemo.
#[export] Instance align : AlignSize := fun n a => (n + a - 1) / a * a.

Definition cv_release (o : nat) : M MW unit :=
  h ← get_mat o;
  (if decide (refcount h = 0) then mret tt
   else info ← get_info (refcount h);
        if decide (info_refcount info = 1) then deallocate (refcount h) (datastart h)
        else upd_info (refcount h) (set_info_refcount (info_refcount info - 1) info)) ;;
  put_mat o Mat0.
Definition cv_create (o : nat) (r c : Z) : M MW unit :=
  h ← get_mat o;
  if decide (datastart h <> 0 /\ rows h = r /\ cols h = c) then mret tt
  else cv_release o ;; new_array o r c.

Lemma cv_release_empty o w w1 : cv_release o w = Ok tt w1 -> mats w1 !! o = Some Mat0.
Proof.
  unfold cv_release. intros (h & w2 & _ & H)%bind_ok_inv. apply bind_ok_inv in H as ([] & w3 & _ & H).
  injection H as <-. cbn. by rewrite lookup_insert_eq.
Qed.
Lemma put_same o w h : mats w !! o = Some h -> put_mat o h w = Ok tt w.
Proof. intros H. unfold put_mat, modifyW. rewrite insert_id by done. by destruct w. Qed.
Lemma cv_create_empty o r c w : mats w !! o = Some Mat0 -> cv_create o r c w = new_array o r c w.
Proof.
  intros H. unfold cv_create. rewrite (bind_ok _ _ _ _ _ (get_mat_ok _ _ _ H)).
  rewrite decide_False by (by intros [? _]).
  unfold cv_release. rewrite bind_assoc, (bind_ok _ _ _ _ _ (get_mat_ok _ _ _ H)), bind_assoc. cbn [refcount Mat0].
  rewrite decide_True by done. rewrite bind_ret. by rewrite (bind_ok _ _ _ _ _ (put_same _ _ _ H)).
Qed.

#[export] Program Instance cv : OpenCV := {| create := cv_create; release := cv_release |}.
Next Obligation.
  intros n Hn. cbn. unfold alignSize, align. pose proof (Z.div_mod (n + 4096 - 1) 4096 ltac:(lia)).
  pose proof (Z.mod_pos_bound (n + 4096 - 1) 4096 ltac:(lia)). split; [lia|]. apply Z.mod_mul. lia.
Qed.
Next Obligation.
  intros o r c w h H Hd Hr Hc. unfold cv_create. rewrite (bind_ok _ _ _ _ _ (get_mat_ok _ _ _ H)). by rewrite decide_True.
Qed.
Next Obligation. intros o r c w H Hr Hc. by apply cv_create_empty. Qed.
Next Obligation.
  intros o r c w h H Hd Hne Hr Hc. unfold cv_create at 1. rewrite (bind_ok _ _ _ _ _ (get_mat_ok _ _ _ H)).
  rewrite decide_False by (intros (_ & <- & <-); done). unfold mbind, M_bind.
  destruct (cv_release o w) as [[] w1| | | |] eqn:E; try done. symmetry. apply cv_create_empty. by eapply cv_release_empty.
Qed.
Next Obligation.
  intros o w h info H Hr Hi Hc. unfold cv_release. rewrite (bind_ok _ _ _ _ _ (get_mat_ok _ _ _ H)).
  rewrite decide_False by done. rewrite bind_assoc.
  rewrite (bind_ok _ _ _ info w) by (unfold get_info, getW, mbind, M_bind, defined; by rewrite Hi).
  by rewrite decide_True.
Qed.
Next Obligation.
  intros o w h info H Hr Hi Hc. unfold cv_release. rewrite (bind_ok _ _ _ _ _ (get_mat_ok _ _ _ H)).
  rewrite decide_False by done. rewrite bind_assoc.
  rewrite (bind_ok _ _ _ info w) by (unfold get_info, getW, mbind, M_bind, defined; by rewrite Hi).
  by rewrite decide_False by lia.
Qed.

(** An engine that multiplies as [naive_mul] does. *)
Definition engine_result (r ca cb : Z) (la lb lc : list float) : list float :=
  imap (fun k x => if decide (Z.of_nat k < ca * cb)
                   then naive_dot (col (elem la ca) r (Z.of_nat k / cb)) (col (elem lb cb) r (Z.of_nat k mod cb)) else x) lc.
#[export] Instance engine : Accelerator := fun req mem =>
  match req with
  | Mmf aref r ca bref _ cb cref _ =>
      match mem aref, mem bref, mem cref with
      | Some la, Some lb, Some lc => ([(cref, engine_result r ca cb la lb lc)], [started; mmfDone 7])
      | _, _, _ => ([], [])
      end
  | _ => ([], [])
  end.
#[export] Instance engine_multiplies J : EngineTN J naive_dot.
Proof.
  intros mem aref bref cref r ca cb la lb lc Ha Hb Hc Hla Hlb Hlc. unfold acc_run, engine. rewrite Ha, Hb, Hc.
  eexists _, _. split; [reflexivity|]. split; [done|]. split; [apply length_imap|]. intros i j Hi Hj.
  unfold engine_result, znth. rewrite decide_True by nia. rewrite list_lookup_imap.
  destruct (lookup_lt_is_Some_2 lc (Z.to_nat (i * cb + j))) as [x Hx]; [nia|]. rewrite Hx. cbn.
  rewrite Z2Nat.id by nia. rewrite decide_True by nia.
  by rewrite <- (Z.div_unique_pos (i * cb + j) cb i j), <- (Z.mod_unique_pos (i * cb + j) cb i j) by lia.
Qed.

(** A program with three matrices: [1 2], [3 4] and one without elements. *)
Definition info_at (fd a : Z) : arrayInfo_t :=
  {| info_refcount := 1; info_fd := fd; info_data := a; info_totalsize := 4096; info_ref := 0 |}.
Definition w0 : MW :=
  {| mats := {[ 1%nat := {| rows := 1; cols := 2; datastart := 10; refcount := 1 |};
                2%nat := {| rows := 1; cols := 2; datastart := 20; refcount := 2 |}; 3%nat := Mat0; 4%nat := Mat0 ]};
     arrayInfo := arrayInfo0 :: info_at 100 10 :: info_at 200 20 :: replicate 125 arrayInfo0;
     numarrays := 3;
     heap := {[ 10 := [float_of_Z 1; float_of_Z 2]; 20 := [float_of_Z 3; float_of_Z 4] ]};
     fdmap := {[ 100 := 10; 200 := 20 ]}; mmu := ∅; fds := [300; 400; 500; 600]; addrs := [30; 40; 50; 60]; ids := [0; 1; 2; 3; 4; 5; 6];
     flushed := []; pending := []; mul_sem := 0; ccnt := 0; tableSize_ := 0;
     sum_of_errors_squared := S754_zero false; drand := [] |}.
Definition P0 : gset nat := {[ 1%nat; 2%nat; 3%nat; 4%nat ]}.

Lemma w0_wf : wfs P0 2 2 w0.
Proof.
  unfold wfs. replace (2 + empties P0 w0)%nat with 4%nat by (by vm_compute).
  replace (2 + unregistered P0 w0)%nat with 6%nat by (by vm_compute).
  assert (HP : forall o, o ∈ P0 -> o = 1%nat \/ o = 2%nat \/ o = 3%nat \/ o = 4%nat) by (unfold P0; set_solver).
  split.
  - intros o [->|[->|[->| ->]]]%HP; eexists; (split; [reflexivity|]); [right|right|by left|by left];
      [exists (info_at 100 10), [float_of_Z 1; float_of_Z 2]|exists (info_at 200 20), [float_of_Z 3; float_of_Z 4]];
      (split; try reflexivity; cbn; try lia; by left).
  - intros o1 o2 h1 h2 H1%HP H2%HP Hne L1 L2 N1 N2.
    destruct H1 as [->|[->|[->| ->]]], H2 as [->|[->|[->| ->]]]; try done;
      vm_compute in L1; vm_compute in L2; simplify_eq; first [by destruct N1|by destruct N2|done].
  - reflexivity.
  - cbn. lia.
  - split; [by apply fresh_check|by apply (all_check (fun a => a <> 0 /\ a <> -1))].
  - by apply fresh_check.
  - by apply fresh_ids_check.
  - done.
Qed.

Lemma w0_mat (o : nat) (l : list float) h (g : Z -> Z -> float) :
  mats w0 !! o = Some h -> heap w0 !! datastart h = Some l -> rows h = 1 -> cols h = 2 -> l = [g 0 0; g 0 1] -> mat_is w0 o 1 2 g.
Proof.
  intros Hh Hl Hr Hc ->. exists h, [g 0 0; g 0 1]. repeat split; try done.
  intros i j Hi Hj. assert (i = 0) as -> by lia. assert (j = 0 \/ j = 1) as [->| ->] by lia; done.
Qed.
Definition A0 (i j : Z) : Z := if decide (j = 0) then 1 else 2.
Definition B0 (i j : Z) : Z := if decide (j = 0) then 3 else 4.
Lemma w0_1 : mat_is w0 1 1 2 (fun i j => float_of_Z (A0 i j)).
Proof. by eapply w0_mat. Qed.
Lemma w0_2 : mat_is w0 2 1 2 (fun i j => float_of_Z (B0 i j)).
Proof. by eapply w0_mat. Qed.

Lemma w0_apart (o : nat) h b : (o < 3)%nat -> mats w0 !! o = Some h -> heap w0 !! datastart h = Some b -> datastart h <> 0 ->
  sep_from w0 3 o h b.
Proof. intros Ho Hh Hb Hd. split; [lia|]. split; [done|]. split; [done|]. split; [done|]. by intros ht [= <-]. Qed.

Lemma multf_product_witness : exists w', multf 1 3 1 2 w0 = Ok tt w' /\ 
  mat_is w' 3 2 2 (fun i j => naive_dot (col (fun i j => float_of_Z (A0 i j)) 1 i) (col (fun i j => float_of_Z (B0 i j)) 1 j)).
Proof.
  destruct (multf_product P0 1 1 w0 3 1 2 1 naive_dot 1 2 2 (fun i j => float_of_Z (A0 i j)) (fun i j => float_of_Z (B0 i j))) as (w' & H1 & _ & H2 & _);
    [apply _|exact w0_wf|set_solver|set_solver|set_solver|done|done|done|by vm_compute|exact w0_1|exact w0_2|].
  by exists w'.
Defined.

Lemma transpose_twice_witness : exists w', (transpose 3 1 ;; transpose 4 3) w0 = Ok true w' /\
  mat_is w' 4 1 2 (fun i j => float_of_Z (A0 i j)).
Proof.
  destruct (transpose_twice P0 0 0 w0 3 4 1 1 2 (fun i j => float_of_Z (A0 i j))) as (w' & H1 & _ & _ & H2);
    [exact w0_wf|set_solver|set_solver|set_solver|done|done|by vm_compute|exact w0_1|].
  by exists w'.
Defined.

Lemma naive_mul_integers_witness : exists w', (transpose 3 1 ;; naive_mul 4 3 2) w0 = Ok tt w'.
Proof.
  destruct (transpose_result P0 1 1 w0 3 1 1 2 (fun i j => float_of_Z (A0 i j))) as (w1 & R1 & W1 & F1 & M1).
  - apply wfs_cost, w0_wf.
  - set_solver.
  - by vm_compute.
  - split; [exact w0_1|]. eexists _, _. apply w0_apart; [lia|reflexivity|reflexivity|done].
  - rewrite (bind_ok _ _ _ _ _ R1).
    destruct (naive_mul_integers P0 0 0 w1 4 3 2 2 1 2 (fun i j => A0 j i) B0) as (w' & H & _);
      [exact W1|set_solver|set_solver|set_solver|done|done|by vm_compute|done|exact M1| | | |by exists w'].
    + eapply mat_is_frame; [exact F1|apply w0_apart; [lia|reflexivity|reflexivity|done]|exact w0_2].
    + intros i j. unfold A0, B0. repeat case_decide; lia.
    + intros i j Hi Hj. change (seqZ 0 1) with [0]. unfold zdot_abs, A0, B0. cbn [fmap list_fmap zip zip_with foldr fst snd]. repeat case_decide; lia.
Defined.

Lemma compare_verdict_witness : exists rv, compare 1 2 (float_of_Z 1) w0 = Ok rv w0.
Proof.
  destruct (compare_verdict w0 1 2 1 2 (fun i j => float_of_Z (A0 i j)) 1 2 (fun i j => float_of_Z (B0 i j)) (float_of_Z 1))
    as (rv & H & _); [done|done|exact w0_1|exact w0_2|]. by exists rv.
Defined.

Lemma identifier_zero_lost_witness : exists w1, reference 1 (set_ids [0; 1; 2] w0) = Ok 0 w1.
Proof.
  destruct (identifier_zero_lost (set_ids [0; 1; 2] w0) 1 {| rows := 1; cols := 2; datastart := 10; refcount := 1 |} (info_at 100 10)
    2 {| rows := 1; cols := 2; datastart := 20; refcount := 2 |} (info_at 200 20) 1 [2]) as (w1 & w2 & w3 & H & _);
    [reflexivity|reflexivity|reflexivity|reflexivity|done|reflexivity|reflexivity|reflexivity|done|done|reflexivity|].
  by exists w1.
Defined.
End MatDemo.
