(* ===== verification/MatmulTest.v ===== *)
(** The test of the matrix engine: [examples/matmul/testmm.cpp], on the matrices
    of [PortalMat] and their facts.

    The program multiplies two matrices of small integers three times, with
    OpenCV, with [naive_mul] and on the hardware, and compares the latter two
    with the first.  The matrices that OpenCV computes (the product and the
    transposed operand) are objects of the initial state. *)

From stdpp Require Import base gmap list option fin_maps.
From Stdlib Require Import ZArith Lia SpecFloat.
From S2P Require Import Prelude FloatArith PortalMat MatFacts.
#[local] Open Scope list_scope.
#[local] Open Scope Z_scope.

(** * The program *)

(** The inputs: [rand() % 10] in [m1], and [A*B] more in [m2]; the values of
    [rand] are a list. *)
Definition fill_inputs (A B : Z) (m1 m2 : nat) (rands : list Z) : M MW (list Z) :=
  for_mat A B (fun a b l =>
    match l with
    | [] => block
    | x :: l =>
        let v := float_of_Z (Z.rem x 10) in
        set_at m2 b a (fadd (float_of_Z (s32 (A * B))) v) ;;
        set_at m1 a b v ;;
        mret l
    end) rands.

(** The constants of the comparisons, rounded twice. *)
Definition epsilon_sane : float := float_of_double (ddiv (double_of_Z 1) (double_of_Z 10000)).
Definition epsilon_default : float := float_of_double (ddiv (double_of_Z 1) (double_of_Z 100)).

(** The comparison of the CUDA build: [fabs(x - y) / x < epsilon] everywhere; it
    goes on after a mismatch of the shapes. *)
Definition cuda_match (epsilon x y : float) : bool := flt (fdiv (fabs (fsub x y)) x) epsilon.
Definition cuda_compare (m1 m2 : nat) (epsilon : float) : M MW bool :=
  h1 ← get_mat m1; h2 ← get_mat m2;
  for_mat (rows h1) (cols h1) (fun i j rv =>
    x ← at_ m1 i j; y ← at_ m2 i j;
    mret (rv && cuda_match epsilon x y)) (bool_decide (rows h1 = rows h2) && bool_decide (cols h1 = cols h2)).

Section Test.
Context {AS : AlignSize} {CV : OpenCV} {AC : Accelerator}.
(** The program's matrices; [m1t] is the value of [m1.t()], [m3] of [m1 * m2]. *)
Variables m1 m2 m3 m1t tm3 pm1t pm2 pm3 : nat.

(** From the naive product to the exit code, in the [MATRIX_TN] build. *)
Definition mm_main (J : Z) : M MW Z :=
  PortalMat tm3 ;;
  naive_mul tm3 m1 m2 ;;
  sane ← compare tm3 m3 epsilon_sane;
  PortalMat_copy pm1t m1t ;;
  PortalMat_copy pm2 m2 ;;
  reference pm1t ;;
  reference pm2 ;;
  PortalMat pm3 ;;
  h1 ← get_mat m1; h2 ← get_mat m2;
  create pm3 (rows h1) (cols h2) ;;
  reference pm3 ;;
  multf J pm3 pm1t pm2 ;;
  eq ← compare pm3 m3 epsilon_default;
  mret (if eq && sane then 0 else 1).
End Test.

(** * Facts *)

(** A matrix that is not of the library: its data is where no array is. *)
Definition plain (w : MW) (o : nat) (r c : Z) (g : Z -> Z -> float) : Prop :=
  mat_is w o r c g /\ exists h b, mats w !! o = Some h /\ datastart h <> 0 /\ heap w !! datastart h = Some b.

Lemma plain_source w this o r c g : plain w o r c g -> mats w !! this = Some Mat0 -> o <> this -> source w this o r c g.
Proof.
  intros (Hm & h & b & Hh & Hd & Hb) Ht Hne. split; [done|]. exists h, b. repeat split; try done.
  intros ht Hht. rewrite Ht in Hht. injection Hht as <-. done.
Qed.

Lemma source_plain w this o r c g : source w this o r c g -> plain w o r c g.
Proof. intros (Hm & h & b & _ & Hd & Hh & Hb & _). split; [done|]. by exists h, b. Qed.

(** A new object. *)
Lemma PortalMat_new P n m w o : wfs P (S n) (S m) w -> exists w', PortalMat o w = Ok tt w' /\ wfs ({[o]} ∪ P) n m w' /\
  mats w' !! o = Some Mat0 /\ core w' = core (set_mats (<[o := Mat0]> (mats w)) w).
Proof.
  intros Hw. eexists. split; [reflexivity|]. split; [|split; [cbn; by rewrite lookup_insert_eq|done]].
  set (w' := set_mats (<[o := Mat0]> (mats w)) w).
  assert (HE : (empties ({[o]} ∪ P) w' <= S (empties P w))%nat).
  { unfold empties. etrans; [apply (subseteq_size _ ({[o]} ∪ filter (is_empty w) P))|].
    - intros x. rewrite elem_of_union, !elem_of_filter, elem_of_union, elem_of_singleton. unfold is_empty. cbn.
      destruct (decide (x = o)) as [->|]; [by left|]. rewrite lookup_insert_ne by done. naive_solver.
    - rewrite size_union_alt, size_singleton. pose proof (subseteq_size (filter (is_empty w) P ∖ {[o]}) (filter (is_empty w) P) ltac:(set_solver)). lia. }
  assert (HU : (unregistered ({[o]} ∪ P) w' <= S (unregistered P w))%nat).
  { unfold unregistered. set (Q := filter (fun o => ~ registered w o) P).
    etrans; [apply (subseteq_size _ ({[o]} ∪ Q))|].
    - intros x. unfold Q. rewrite elem_of_union, !elem_of_filter, elem_of_union, elem_of_singleton. unfold registered. cbn.
      destruct (decide (x = o)) as [->|]; [by left|]. rewrite lookup_insert_ne by done. naive_solver.
    - rewrite size_union_alt, size_singleton. pose proof (subseteq_size (Q ∖ {[o]}) Q ltac:(set_solver)). lia. }
  apply wf_weaken with (n + S (empties P w))%nat (m + S (unregistered P w))%nat; [lia|lia|].
  unfold wfs in Hw. rewrite !Nat.add_succ_r. cbn [Nat.add] in Hw. clear HE HU.
  split; try apply Hw.
  - intros o' Ho'. destruct (decide (o' = o)) as [->|Hne].
    + exists Mat0. cbn. rewrite lookup_insert_eq. split; [done|by left].
    + destruct (wf_mats _ _ _ _ Hw o') as (h & Hh & Hc); [set_solver|]. exists h. cbn. rewrite lookup_insert_ne by done.
      split; [done|]. destruct Hc as [?|(info & b & [])]; [by left|right]. by exists info, b.
  - intros o1 o2 h1 h2 H1 H2 Hne. cbn.
    destruct (decide (o1 = o)) as [->|N1], (decide (o2 = o)) as [->|N2]; rewrite ?lookup_insert_eq, ?lookup_insert_ne by done;
      [done|congruence|congruence|]. apply (wf_sep _ _ _ _ Hw); set_solver.
Qed.

Lemma plain_new w w' o o' r c g : core w' = core (set_mats (<[o := Mat0]> (mats w)) w) -> o' <> o ->
  plain w o' r c g -> plain w' o' r c g.
Proof.
  intros Hc Hne ((h & b & Hm & Hr) & h' & b' & Hh & Hd & Hb).
  assert (Hmats : mats w' !! o' = mats w !! o') by (injection Hc as ->; by rewrite lookup_insert_ne).
  assert (Hheap : heap w' = heap w) by (by injection Hc).
  split; [exists h, b|exists h', b']; by rewrite Hmats, Hheap.
Qed.

Section TestFacts.
Context {AS : AlignSize} {CV : OpenCV} {AC : Accelerator}.

Lemma cost_empty w this r c : mats w !! this = Some Mat0 -> cost w this r c = 0%nat.
Proof. intros H. unfold cost. rewrite H. by rewrite decide_True by (by left). Qed.

(** What the construction of [this] keeps. *)
Definition keeps (this : nat) (w w' : MW) : Prop := forall o r c g, o <> this -> plain w o r c g -> plain w' o r c g.

Lemma frame_keeps this w w' : mats w !! this = Some Mat0 -> frame this w w' -> keeps this w w'.
Proof. intros H0 Hf o r c g Hne Hp. eapply source_plain, source_frame; [exact Hf|]. by apply plain_source. Qed.

Lemma naive_new P n m w this a b r k c ga gb : wfs P (S n) (S m) w -> a <> this -> b <> this -> fits r c -> 0 <= k ->
  plain w a r k ga -> plain w b k c gb ->
  exists w', (PortalMat this ;; naive_mul this a b) w = Ok tt w' /\ wfs ({[this]} ∪ P) n m w' /\ keeps this w w' /\
    mat_is w' this r c (fun i j => naive_dot (row ga k i) (col gb k j)).
Proof.
  intros Hw Na Nb Hf Hk Ha Hb. destruct (PortalMat_new P n m w this Hw) as (w1 & R1 & W1 & M1 & C1).
  rewrite (bind_ok _ _ _ _ _ R1).
  destruct (naive_mul_result ({[this]} ∪ P) n m w1 this a b r k c ga gb) as (w2 & R2 & W2 & F2 & M2);
    [by rewrite (cost_empty _ _ _ _ M1)|set_solver|done|done|apply plain_source; [by eapply plain_new|done|done]..|].
  exists w2. split; [done|]. split; [done|]. split; [|done]. intros o r' c' g' Ho Hp.
  eapply frame_keeps; [done|done|done|]. by eapply plain_new.
Qed.

Lemma copy_new P n m w this o r c g : wfs P (S n) (S m) w -> o <> this -> fits r c -> plain w o r c g ->
  exists w', PortalMat_copy this o w = Ok tt w' /\ wfs ({[this]} ∪ P) n m w' /\ keeps this w w' /\ mat_is w' this r c g /\
    drand w' = drand w.
Proof.
  intros Hw No Hf Ho. destruct (PortalMat_new P n m w this Hw) as (w1 & R1 & W1 & M1 & C1).
  unfold PortalMat_copy. rewrite (bind_ok _ _ _ _ _ R1).
  assert (Hs : source w1 this o r c g) by (apply plain_source; [by eapply plain_new|done|done]).
  pose proof Hs as ((ho & bo & Hho & Hro & Hco & _) & _).
  rewrite (bind_ok _ _ _ _ _ (get_mat_ok _ _ _ Hho)), Hro, Hco.
  destruct (create_shaped ({[this]} ∪ P) n m w1 this r c) as (w2 & R2 & W2 & F2 & h & info & b & Hh & Hown & <- & <-);
    [by rewrite (cost_empty _ _ _ _ M1)|set_solver|done|]. rewrite (bind_ok _ _ _ _ _ R2).
  destruct (fill_result ({[this]} ∪ P) n m w2 this h info b g (fun i j _ => v ← at_ o i j; set_at this i j v) W2)
    as (w3 & R3 & W3 & F3 & M3); [set_solver|done|done| |].
  { intros i j b' Hi Hj _. apply bind_ok. eapply at_setb; eauto using source_frame. }
  exists w3. split; [done|]. split; [done|]. split; [|split; [done|]].
  - intros o' r' c' g' Ho' Hp. eapply (frame_keeps this w1); [done|by etrans|done|]. by eapply plain_new.
  - destruct F2 as (_ & _ & _ & E2), F3 as (_ & _ & _ & E3). rewrite E3, E2. by injection C1.
Qed.

(** A matrix of the library with elements, seen as a plain one. *)
Lemma member_plain P n m w o r c g : wfs P n m w -> o ∈ P -> 0 < r -> mat_is w o r c g -> plain w o r c g.
Proof.
  intros Hw Ho Hr Hm. split; [done|].
  destruct (mat_is_owns _ _ _ _ _ _ _ _ Hw Ho Hr Hm) as (h & info & b & Hh & Hown & _). exists h, b.
  split; [done|]. split; apply Hown.
Qed.

Lemma reference_plain P n m w o r c g : wfs P n m w -> o ∈ P -> 0 < r -> mat_is w o r c g ->
  exists ref w', reference o w = Ok ref w' /\ wfs P n m w' /\ same_data w w'.
Proof.
  intros Hw Ho Hr Hm. destruct (mat_is_owns _ _ _ _ _ _ _ _ Hw Ho Hr Hm) as (h & info & b & Hh & Hown & _).
  destruct (reference_result P n m w o h info b Hw Ho Hh Hown) as (ref & w' & info' & R & W & D & _). eauto.
Qed.

Lemma same_data_plain w w' o r c g : same_data w w' -> plain w o r c g -> plain w' o r c g.
Proof.
  intros Hd (Hm & h & b & Hp). split; [by eapply same_data_mat_is|]. destruct Hd as (H1 & H2 & _). exists h, b. by rewrite H1, H2.
Qed.

(** ** The hardware's half of the program *)
Lemma hardware_half P n m w J dot m1 m2 m3 pm1t pm2 pm3 r k c g1 g2 g3 : EngineTN J dot ->
  wfs P (S (S n)) (S (S m)) w -> pm1t ∈ P -> pm2 ∈ P -> pm1t <> pm3 -> pm2 <> pm3 ->
  m1 <> pm3 -> m2 <> pm3 -> m3 <> pm3 -> 0 < k -> fits r c ->
  mat_is w pm1t k r (fun i j => g1 j i) -> mat_is w pm2 k c g2 ->
  plain w m1 r k g1 -> plain w m2 k c g2 -> plain w m3 r c g3 ->
  exists eq w', (reference pm1t ;; reference pm2 ;; PortalMat pm3 ;; h1 ← get_mat m1; h2 ← get_mat m2;
      create pm3 (rows h1) (cols h2) ;; reference pm3 ;; multf J pm3 pm1t pm2 ;; compare pm3 m3 epsilon_default) w = Ok eq w' /\
    (eq = true <-> all_match epsilon_default r c (fun i j => dot (row g1 k i) (col g2 k j)) g3).
Proof.
  intros HE Hw P1 P2 N1 N2 Nm1 Nm2 Nm3 Hk Hf Ha Hb Hm1 Hm2 Hm3.
  destruct (reference_plain _ _ _ _ _ _ _ _ Hw P1 Hk Ha) as (ra & w1 & R1 & W1 & D1). rewrite (bind_ok _ _ _ _ _ R1).
  assert (Hb1 : mat_is w1 pm2 k c g2) by (by eapply same_data_mat_is).
  destruct (reference_plain _ _ _ _ _ _ _ _ W1 P2 Hk Hb1) as (rb & w2 & R2 & W2 & D2). rewrite (bind_ok _ _ _ _ _ R2).
  assert (D12 : same_data w w2) by (by etrans).
  destruct (PortalMat_new P _ _ w2 pm3 W2) as (w3 & R3 & W3 & M3 & C3). rewrite (bind_ok _ _ _ _ _ R3).
  assert (Hkeep : forall o r c g, o <> pm3 -> plain w o r c g -> plain w3 o r c g).
  { intros. eapply plain_new; [done|done|]. by eapply same_data_plain. }
  pose proof (Hkeep _ _ _ _ Nm1 Hm1) as Q1. pose proof (Hkeep _ _ _ _ Nm2 Hm2) as Q2. pose proof (Hkeep _ _ _ _ Nm3 Hm3) as Q3.
  destruct Q1 as ((h1 & b1 & Hh1 & Hr1 & _) & _). destruct Q2 as ((h2 & b2 & Hh2 & _ & Hc2 & _) & _).
  rewrite (bind_ok _ _ _ _ _ (get_mat_ok _ _ _ Hh1)), (bind_ok _ _ _ _ _ (get_mat_ok _ _ _ Hh2)), Hr1, Hc2.
  destruct (create_shaped ({[pm3]} ∪ P) (S n) (S m) w3 pm3 r c) as (w4 & R4 & W4 & F4 & h & info & b & Hh & Hown & Hhr & Hhc);
    [by rewrite (cost_empty _ _ _ _ M3)|set_solver|done|]. rewrite (bind_ok _ _ _ _ _ R4).
  destruct (reference_result ({[pm3]} ∪ P) _ _ w4 pm3 h info b W4) as (rc & w5 & info' & R5 & W5 & D5 & _);
    [set_solver|done|done|]. rewrite (bind_ok _ _ _ _ _ R5).
  assert (F5 : frame pm3 w3 w5) by (etrans; [done|by apply same_data_frame]).
  assert (Hsrc : forall o r c g, o <> pm3 -> plain w o r c g -> source w5 pm3 o r c g).
  { intros. eapply source_frame; [done|]. apply plain_source; [by apply Hkeep|done|done]. }
  pose proof (member_plain _ _ _ _ _ _ _ _ Hw P1 Hk Ha) as Pa. pose proof (member_plain _ _ _ _ _ _ _ _ Hw P2 Hk Hb) as Pb.
  destruct (multf_result ({[pm3]} ∪ P) n m w5 pm3 pm1t pm2 J dot k r c (fun i j => g1 j i) g2) as (w6 & R6 & W6 & F6 & M6);
    [done|by apply wfs_cost|set_solver|set_solver|set_solver|done|done|done|done|by apply Hsrc|by apply Hsrc|].
  rewrite (bind_ok _ _ _ _ _ R6).
  destruct (source_frame _ _ _ _ _ _ _ F6 (Hsrc _ _ _ _ Nm3 Hm3)) as [M3' _].
  destruct (compare_result w6 pm3 m3 r c _ r c g3 epsilon_default ltac:(destruct Hf; lia) ltac:(destruct Hf as (_ & ? & _); lia) M6 M3') as (eq & R7 & H7).
  exists eq, w6. split; [done|]. rewrite H7. split; [by intros (_ & _ & ?)|done].
Qed.

(** C15: The verdict of the matrix test: the program always ends, and its exit
    code is 0 exactly when no element of the reference product and no element of
    the hardware's product has a relative error against OpenCV's that exceeds its
    bound ([all_match]; the error of an element that is not a number exceeds no
    bound, so that such elements pass).  The identifiers the MMU gives may start
    with 0. *)
Theorem matmul_test_verdict w J dot m1 m2 m3 m1t tm3 pm1t pm2 pm3 r k c g1 g2 g3 : EngineTN J dot ->
  NoDup [m1; m2; m3; m1t; tm3; pm1t; pm2; pm3] -> wfs ∅ 5 5 w -> fits r k -> fits k c -> fits r c ->
  plain w m1 r k g1 -> plain w m2 k c g2 -> plain w m3 r c g3 -> plain w m1t k r (fun i j => g1 j i) ->
  exists code w', mm_main m1 m2 m3 m1t tm3 pm1t pm2 pm3 J w = Ok code w' /\
    (code = 0 <-> all_match epsilon_sane r c (fun i j => naive_dot (row g1 k i) (col g2 k j)) g3 /\
                  all_match epsilon_default r c (fun i j => dot (row g1 k i) (col g2 k j)) g3).
Proof.
  intros HE Hnd Hw Hrk Hkc Hrc P1 P2 P3 P4. rewrite !NoDup_cons, !not_elem_of_cons in Hnd. destruct_and! Hnd.
  assert (0 < k) by apply Hrk. unfold mm_main.
  destruct (naive_new ∅ 4 4 w tm3 m1 m2 r k c g1 g2) as (w1 & R1 & W1 & K1 & M1);
    [done|done|done|done|lia|done|done|]. rewrite <- bind_assoc, (bind_ok _ _ _ _ _ R1).
  assert (Q3 : plain w1 m3 r c g3) by (by apply K1).
  destruct (compare_result w1 tm3 m3 r c _ r c g3 epsilon_sane ltac:(destruct Hrc; lia) ltac:(destruct Hrc as (_ & ? & _); lia) M1 (proj1 Q3))
    as (sane & R2 & HV2). rewrite (bind_ok _ _ _ _ _ R2).
  destruct (copy_new ({[tm3]} ∪ ∅) 3 3 w1 pm1t m1t k r (fun i j => g1 j i)) as (w2 & R3 & W2 & K2 & M2 & _);
    [done|done|destruct Hrk as (? & ? & ?); split; [done|split; [done|lia]]|by apply K1|].
  rewrite (bind_ok _ _ _ _ _ R3).
  destruct (copy_new ({[pm1t]} ∪ ({[tm3]} ∪ ∅)) 2 2 w2 pm2 m2 k c g2) as (w3 & R4 & W3 & K3 & M3 & _);
    [done|done|done|by apply K2; [|apply K1]|]. rewrite (bind_ok _ _ _ _ _ R4).
  assert (Hk : forall o r c g, o <> tm3 -> o <> pm1t -> o <> pm2 -> plain w o r c g -> plain w3 o r c g).
  { intros. apply K3; [done|]. apply K2; [done|]. by apply K1. }
  assert (Q4 : plain w3 pm1t k r (fun i j => g1 j i)).
  { apply K3; [done|]. eapply member_plain; [exact W2|clear; set_solver|done|done]. }
  destruct (hardware_half ({[pm2]} ∪ ({[pm1t]} ∪ ({[tm3]} ∪ ∅))) 0 0 w3 J dot m1 m2 m3 pm1t pm2 pm3 r k c g1 g2 g3)
    as (eq & w4 & R5 & HV5);
    [done|done|clear; set_solver|clear; set_solver|done|done|done|done|done|done|done|apply Q4|done|by apply Hk|by apply Hk|by apply Hk|].
  exists (if eq && sane then 0 else 1), w4. split.
  - etrans; [|exact (bind_ok _ (fun eq : bool => mret (if eq && sane then 0 else 1)) _ _ _ R5)].
    symmetry. repeat bind_cong.
  - clear -HV2 HV5. destruct eq, sane; cbn; naive_solver.
Qed.
End TestFacts.

(** ** The inputs *)

Section Inputs.
Variables (A B : Z) (rands : list Z).
Hypothesis HA : 0 < A.
Hypothesis HB : 0 < B.
Hypothesis HAB : A * B + 10 <= 2 ^ 24.
Hypothesis Hlen : A * B <= Z.of_nat (length rands).

Definition digit (a b : Z) : Z := Z.rem (default 0 (znth rands (a * B + b))) 10.

Lemma digit_bound a b : -10 < digit a b < 10.
Proof. unfold digit. pose proof (Z.rem_bound_abs (default 0 (znth rands (a * B + b))) 10 ltac:(lia)). lia. Qed.

Lemma input_exact a b : fadd (float_of_Z (s32 (A * B))) (float_of_Z (digit a b)) = float_of_Z (A * B + digit a b).
Proof.
  pose proof (digit_bound a b). rewrite s32_small by nia.
  apply of_Z_add; try lia. apply is_int_of_Z.
Qed.

Lemma setb_comm a1 a2 b1 b2 w : a1 <> a2 -> setb a1 b1 (setb a2 b2 w) = setb a2 b2 (setb a1 b1 w).
Proof. intros H. unfold setb. cbn. by rewrite insert_insert_ne. Qed.

(** The elements of the blocks of [m1] and [m2] before step [K]. *)
Definition filled (K : Z) (b1 b2 : list float) : Prop :=
  forall a b, 0 <= a < A -> 0 <= b < B -> a * B + b < K ->
    znth b1 (a * B + b) = Some (float_of_Z (digit a b)) /\
    znth b2 (b * A + a) = Some (float_of_Z (A * B + digit a b)).

Lemma filled_step b1 b2 b1' b2' a b : 0 <= a < A -> 0 <= b < B -> filled (a * B + b) b1 b2 ->
  zupd b1 (a * B + b) (float_of_Z (digit a b)) = Some b1' ->
  zupd b2 (b * A + a) (float_of_Z (A * B + digit a b)) = Some b2' -> filled (a * B + b + 1) b1' b2'.
Proof.
  intros Ha Hb Hf H1 H2 a' b' Ha' Hb' Hlt. destruct (decide (a' * B + b' = a * B + b)) as [E|E].
  - assert (a' = a) as -> by nia. assert (b' = b) as -> by lia.
    by rewrite (znth_zupd_eq _ _ _ _ H1), (znth_zupd_eq _ _ _ _ H2).
  - assert (b * A + a <> b' * A + a').
    { intros E'. assert (b' = b) as -> by nia. apply E. f_equal. f_equal. lia. }
    rewrite (znth_zupd_ne _ _ _ _ _ H1), (znth_zupd_ne _ _ _ _ _ H2) by lia. apply Hf; lia.
Qed.

(** The two matrices after the loops: the digits, and the digits with [A * B]
    added, exactly. *)
Lemma fill_inputs_result w m1 m2 h1 h2 b1 b2 : mats w !! m1 = Some h1 -> mats w !! m2 = Some h2 ->
  rows h1 = A -> cols h1 = B -> rows h2 = B -> cols h2 = A -> datastart h1 <> datastart h2 ->
  heap w !! datastart h1 = Some b1 -> heap w !! datastart h2 = Some b2 ->
  A * B <= Z.of_nat (length b1) -> A * B <= Z.of_nat (length b2) ->
  exists w', fill_inputs A B m1 m2 rands w = Ok (drop (Z.to_nat (A * B)) rands) w' /\
    mat_is w' m1 A B (fun a b => float_of_Z (digit a b)) /\
    mat_is w' m2 B A (fun b a => float_of_Z (A * B + digit a b)).
Proof.
  intros M1 M2 R1 C1 R2 C2 Hd H1 H2 L1 L2. unfold fill_inputs.
  destruct (for_mat_inv (fun K l w' => l = drop (Z.to_nat K) rands /\ 0 <= K /\ exists c1 c2,
      w' = setb (datastart h1) c1 (setb (datastart h2) c2 w) /\ length c1 = length b1 /\ length c2 = length b2 /\ filled K c1 c2)
    (fun a b l => match l with [] => block | x :: l =>
        let v := float_of_Z (Z.rem x 10) in
        set_at m2 b a (fadd (float_of_Z (s32 (A * B))) v) ;; set_at m1 a b v ;; mret l end) A B rands w)
    as (l & w' & Hrun & -> & _ & c1 & c2 & -> & Hl1 & Hl2 & Hf); [lia|lia| | |].
  - split; [done|]. split; [done|]. exists b1, b2. rewrite (setb_id _ _ w) by done. rewrite setb_id by done.
    repeat split; lia.
  - intros a b l w1 Ha Hb (-> & HK & c1 & c2 & -> & Hl1 & Hl2 & Hf). assert (a * B + b < A * B) by nia. assert (b * A + a < A * B) by nia.
    destruct (lookup_lt_is_Some_2 rands (Z.to_nat (a * B + b))) as [x Hx]; [lia|].
    assert (Hdig : Z.rem x 10 = digit a b) by (unfold digit, znth; rewrite decide_True by lia; by rewrite Hx).
    rewrite (drop_S _ x) by done. cbn zeta. rewrite Hdig, input_exact.
    destruct (zupd c2 (b * A + a) (float_of_Z (A * B + digit a b))) as [c2'|] eqn:E2; [|rewrite zupd_Some in E2 by lia; done].
    destruct (zupd c1 (a * B + b) (float_of_Z (digit a b))) as [c1'|] eqn:E1; [|rewrite zupd_Some in E1 by lia; done].
    set (w1 := setb (datastart h1) c1 (setb (datastart h2) c2 w)).
    assert (S2 : set_at m2 b a (float_of_Z (A * B + digit a b)) w1 = Ok tt (setb (datastart h2) c2' w1)).
    { apply set_at_ok with (b := c2); [done| |by rewrite C2]. cbn. by rewrite lookup_insert_ne, lookup_insert_eq. }
    rewrite (bind_ok _ _ _ _ _ S2).
    assert (S1 : set_at m1 a b (float_of_Z (digit a b)) (setb (datastart h2) c2' w1) = Ok tt (setb (datastart h1) c1' (setb (datastart h2) c2' w1))).
    { apply set_at_ok with (b := c1); [done| |by rewrite C1]. cbn. by rewrite lookup_insert_ne, lookup_insert_eq. }
    rewrite (bind_ok _ _ _ _ _ S1). eexists _, _. split; [reflexivity|].
    split; [f_equal; lia|]. split; [lia|]. exists c1', c2'. split.
    + subst w1. rewrite (setb_comm (datastart h2)) by done. by rewrite !setb_setb.
    + rewrite (zupd_length _ _ _ _ E1), (zupd_length _ _ _ _ E2). split; [done|]. split; [done|]. by eapply filled_step.
  - eexists. split; [exact Hrun|]. split.
    + exists h1, c1. split; [done|]. split; [done|]. split; [done|]. split; [cbn; by rewrite lookup_insert_eq|]. split; [lia|].
      intros i j Hi Hj. apply Hf; [done|done|nia].
    + exists h2, c2. split; [done|]. split; [done|]. split; [done|].
      split; [cbn; by rewrite lookup_insert_ne, lookup_insert_eq|]. split; [lia|].
      intros i j Hi Hj. apply Hf; [done|done|nia].
Qed.
End Inputs.

(** The comparison of the CUDA build divides by the reference with its sign: for
    a negative reference any result passes, where [PortalMat::compare] fails. *)
Lemma cuda_accepts_negative :
  cuda_match epsilon_default (float_of_Z (-1)) (float_of_Z 1000) = true /\
  mismatch epsilon_default (float_of_Z 1000) (float_of_Z (-1)) = true.
Proof. by vm_compute. Qed.

(** * A run of the program *)
Module MatmulDemo.
Import MatDemo.
Definition header (r c a : Z) : Mat := {| rows := r; cols := c; datastart := a; refcount := 0 |}.
Definition w1 : MW :=
  {| mats := {[ 1%nat := header 1 2 10; 2%nat := header 2 1 20; 3%nat := header 1 1 30; 4%nat := header 2 1 40 ]};
     arrayInfo := replicate 128 arrayInfo0; numarrays := 1;
     heap := {[ 10 := [float_of_Z 3; float_of_Z 4]; 20 := [float_of_Z 5; float_of_Z 6];
                30 := [float_of_Z 39]; 40 := [float_of_Z 3; float_of_Z 4] ]};
     fdmap := ∅; mmu := ∅; fds := [1; 2; 3; 4; 5]; addrs := [101; 102; 103; 104; 105]; ids := [0; 1; 2; 3; 4; 5; 6];
     flushed := []; pending := []; mul_sem := 0; ccnt := 0; tableSize_ := 0;
     sum_of_errors_squared := S754_zero false; drand := [] |}.

Lemma w1_wf : wfs ∅ 5 5 w1.
Proof.
  unfold wfs. replace (5 + empties ∅ w1)%nat with 5%nat by (by vm_compute).
  replace (5 + unregistered ∅ w1)%nat with 5%nat by (by vm_compute).
  split; [set_solver|set_solver|done|cbn; lia| | | |done].
  - split; [by apply fresh_check|by apply (all_check (fun a => a <> 0 /\ a <> -1))].
  - by apply fresh_check.
  - by apply fresh_ids_check.
Qed.

Lemma w1_plain (o : nat) h b (g : Z -> Z -> float) : mats w1 !! o = Some h -> heap w1 !! datastart h = Some b -> datastart h <> 0 ->
  (rows h = 1 /\ cols h = 2 /\ b = [g 0 0; g 0 1] \/ rows h = 2 /\ cols h = 1 /\ b = [g 0 0; g 1 0] \/
   rows h = 1 /\ cols h = 1 /\ b = [g 0 0]) -> plain w1 o (rows h) (cols h) g.
Proof.
  intros Hh Hb Hd Hc. split; [|by exists h, b]. exists h, b. split; [done|]. split; [done|]. split; [done|]. split; [done|].
  destruct Hc as [(-> & -> & ->)|[(-> & -> & ->)|(-> & -> & ->)]]; (split; [cbn; lia|]); intros i j Hi Hj.
  - assert (i = 0) as -> by lia. assert (j = 0 \/ j = 1) as [->| ->] by lia; done.
  - assert (j = 0) as -> by lia. assert (i = 0 \/ i = 1) as [->| ->] by lia; done.
  - assert (i = 0) as -> by lia. by assert (j = 0) as -> by lia.
Qed.

Definition G1 (i j : Z) : float := float_of_Z (3 + j).
Definition G2 (i j : Z) : float := float_of_Z (5 + i).
Definition G3 (i j : Z) : float := float_of_Z 39.

Lemma matmul_test_verdict_witness : exists code w', mm_main 1 2 3 4 5 6 7 8 1 w1 = Ok code w' /\
  (code = 0 <-> all_match epsilon_sane 1 1 (fun i j => naive_dot (row G1 2 i) (col G2 2 j)) G3 /\
                all_match epsilon_default 1 1 (fun i j => naive_dot (row G1 2 i) (col G2 2 j)) G3).
Proof.
  apply (matmul_test_verdict w1 1 naive_dot 1 2 3 4 5 6 7 8 1 2 1 G1 G2 G3).
  - apply _.
  - by apply (bool_decide_eq_true_1 _); vm_compute.
  - exact w1_wf.
  - by vm_compute.
  - by vm_compute.
  - by vm_compute.
  - apply (w1_plain 1 (header 1 2 10) [float_of_Z 3; float_of_Z 4] G1); [reflexivity|reflexivity|done|by left].
  - apply (w1_plain 2 (header 2 1 20) [float_of_Z 5; float_of_Z 6] G2); [reflexivity|reflexivity|done|right; by left].
  - apply (w1_plain 3 (header 1 1 30) [float_of_Z 39] G3); [reflexivity|reflexivity|done|right; by right].
  - apply (w1_plain 4 (header 2 1 40) [float_of_Z 3; float_of_Z 4] (fun i j => G1 j i)); [reflexivity|reflexivity|done|right; by left].
Defined.
End MatmulDemo.
