(* ===== verification/Rbm.v ===== *)
(** The restricted Boltzmann machine: [lib/rbm/cpp/rbm.cpp] and [rbm.h], on the
    matrices of [PortalMat].

    Modelled are the operations on the accelerators ([RbmMat]), the table of the
    sigmoid, an epoch of the training with all that it does to the matrices
    (the header that shares the data of [pm_pos_hidden_activations] included),
    the training, and the reading of the training data.  The exponential
    function and what OpenCV computes (the transposed training data) are
    parameters; the matrices that are only printed or compared when [verify] is
    set, which it is not, are left out. *)

From stdpp Require Import base gmap list option fin_maps.
From Stdlib Require Import ZArith Lia SpecFloat.
From S2P Require Import Prelude FloatArith PortalMat MatFacts.
#[local] Open Scope list_scope.
#[local] Open Scope Z_scope.

Class Expf : Type := expf : float -> float.

Definition fone : float := float_of_Z 1.
Definition fzero : float := S754_zero false.

(** [float sigmoid(float x)] *)
Definition sigmoid `{!Expf} (x : float) : float :=
  let x := if flt x (float_of_Z (-8)) then float_of_Z (-8) else x in
  let x := if flt (float_of_Z 8) x then float_of_Z 8 else x in
  fdiv fone (fadd fone (expf (fneg x))).

Section Rbm.
Context {AS : AlignSize} {CV : OpenCV} {AC : Accelerator} {EX : Expf}.

(** * The table of the sigmoid *)

(** [(x - num_entries/2) / fscale], as a [float]; [fscale] is [num_entries / 16.0]. *)
Definition fscale (num_entries : Z) : double := double_of_float (fdiv (float_of_Z num_entries) (float_of_Z 16)).
Definition angle_at (num_entries x : Z) : float :=
  float_of_double (ddiv (double_of_Z (x - Z.quot num_entries 2)) (fscale num_entries)).

Definition table_entry (sigmoidTable : nat) (num_entries ai : Z) : M MW unit :=
  let angle := angle_at num_entries ai in
  let s := sigmoid angle in
  set_at sigmoidTable 0 (4 * ai + 0) (fneg angle) ;;
  set_at sigmoidTable 0 (4 * ai + 1) s ;;
  (if decide (ai = num_entries - 1) then set_at sigmoidTable 0 (4 * ai + 2) fzero
   else if decide (ai > 0) then
     let angle_prev := angle_at num_entries (ai - 1) in
     s_prev ← at_ sigmoidTable 0 (4 * (ai - 1) + 1);
     let dangle := fsub angle angle_prev in
     let ds := fsub s s_prev in
     set_at sigmoidTable 0 (4 * ai + 2) (fdiv ds dangle)
   else mret tt) ;;
  set_at sigmoidTable 0 (4 * ai + 3) fzero.

(** The table is destroyed at the end of its scope, which is [release]. *)
Definition configureSigmoidTable (sigmoidTable : nat) : M MW unit :=
  send SigmoidTableSize ;;
  sem_wait ;;
  w ← getW;
  let num_entries := s32 (tableSize_ w) in
  PortalMat sigmoidTable ;;
  create sigmoidTable 1 (4 * num_entries) ;;
  send (SigmoidSetLimits (float_of_double (fscale num_entries)) (float_of_Z (-8)) (float_of_Z 8)) ;;
  reference sigmoidTable ;;
  for_loop (Z.to_nat num_entries) 0 (fun ai _ => table_entry sigmoidTable num_entries ai) tt ;;
  reference sigmoidTable ;;
  ref ← reference sigmoidTable;
  send (SigmoidUpdateTable ref 0 num_entries) ;;
  sem_wait ;;
  release sigmoidTable.

(** * The operations of [RbmMat] *)

Definition RbmMat_sigmoid (this a : nat) : M MW unit :=
  ha ← get_mat a;
  create this (rows ha) (cols ha) ;;
  reference this ;;
  cacheFlushInvalidate this ;;
  aref ← reference a;
  ref ← reference this;
  ha ← get_mat a;
  send (Sigmoid aref 0 ref 0 (u32 (rows ha * cols ha))) ;;
  sem_wait.

Definition hiddenStates (this a rand : nat) : M MW unit :=
  ha ← get_mat a;
  create this (rows ha) (cols ha) ;;
  reference a ;;
  reference rand ;;
  reference this ;;
  cacheFlushInvalidate this ;;
  reference a ;;
  reference rand ;;
  aref ← reference a;
  rref ← reference rand;
  ref ← reference this;
  ha ← get_mat a;
  send (ComputeStates aref 0 rref 0 ref 0 (u32 (rows ha * cols ha))) ;;
  sem_wait.

Definition updateWeights (this posAssociations negAssociations : nat) (learningRateOverNumExamples : float) : M MW unit :=
  reference posAssociations ;;
  reference negAssociations ;;
  cacheFlushInvalidate this ;;
  pref ← reference posAssociations;
  nref ← reference negAssociations;
  ref ← reference this;
  h ← get_mat this;
  send (UpdateWeights pref nref ref (u32 (rows h * cols h)) learningRateOverNumExamples) ;;
  sem_wait.

Definition sumOfErrorSquared (this pred : nat) : M MW unit :=
  h ← get_mat this; hp ← get_mat pred;
  if decide (rows h <> rows hp \/ cols h <> cols hp) then exit (-1)
  else
    cacheFlushInvalidate this ;;
    ref ← reference this;
    pref ← reference pred;
    send (SumOfErrorSquared ref pref (u32 (rows h * cols h))) ;;
    sem_wait.

(** * Training *)

(** [cv::Mat other(m)]: another header of the same data; its end of scope is
    [release]. *)
Definition share (other m : nat) : M MW unit :=
  h ← get_mat m;
  info ← get_info (refcount h);
  upd_info (refcount h) (set_info_refcount (info_refcount info + 1) info) ;;
  put_mat other h.

Definition drand48 : M MW double :=
  w ← getW;
  match drand w with
  | [] => block
  | x :: l => putW (set_drand l w) ;; mret x
  end.

(** The matrices of [train]. *)
Definition pmData := 1%nat.
Definition pmDataT := 2%nat.
Definition pmWeights := 3%nat.
Definition pmWeightsT := 4%nat.
Definition pm_pos_hidden_activations := 5%nat.
Definition pm_pos_hidden_probs := 6%nat.
Definition pm_rand_mat := 7%nat.
Definition pm_pos_hidden_states := 8%nat.
Definition pm_pos_hidden_probsT := 9%nat.
Definition pm_pos_associations := 10%nat.
Definition pm_neg_visible_activations := 11%nat.
Definition pm_neg_visible_probs := 12%nat.
Definition pm_neg_hidden_activations := 13%nat.
Definition pm_neg_hidden_probs := 14%nat.
Definition pm_neg_visible_probsT := 15%nat.
Definition pm_neg_hidden_probsT := 16%nat.
Definition pm_neg_associations := 17%nat.
Definition pm_pos_hidden_statesT := 18%nat.
Definition pos_hidden_probs := 19%nat.

Variable J_VALUE : Z.

(** The probabilities once more, on the processor: through the second header
    they replace the activations. *)
Definition cpu_pos_hidden_probs : M MW unit :=
  share pos_hidden_probs pm_pos_hidden_activations ;;
  h ← get_mat pm_pos_hidden_activations;
  for_mat (rows h) (cols h) (fun i j _ =>
    x ← at_ pm_pos_hidden_activations i j;
    set_at pos_hidden_probs i j (sigmoid x)) tt.

Definition random_matrix : M MW unit :=
  h ← get_mat pm_pos_hidden_probs;
  create pm_rand_mat (rows h) (cols h) ;;
  for_mat (rows h) (cols h) (fun i j _ => r ← drand48; set_at pm_rand_mat i j (float_of_double r)) tt.

Definition visible_bias : M MW unit :=
  h ← get_mat pm_neg_visible_probs;
  for_loop (Z.to_nat (rows h)) 0 (fun i _ => set_at pm_neg_visible_probs i 0 fone) tt.

(** The positive phase: what the data makes of the hidden units. *)
Definition positive_phase : M MW unit :=
  transpose pmWeightsT pmWeights ;;
  multf J_VALUE pm_pos_hidden_activations pmDataT pmWeights ;;
  RbmMat_sigmoid pm_pos_hidden_probs pm_pos_hidden_activations ;;
  cpu_pos_hidden_probs ;;
  random_matrix ;;
  hiddenStates pm_pos_hidden_states pm_pos_hidden_probs pm_rand_mat ;;
  transpose pm_pos_hidden_probsT pm_pos_hidden_probs ;;
  multf J_VALUE pm_pos_associations pmData pm_pos_hidden_probs.

(** The negative phase: the data the hidden units make, and back. *)
Definition negative_phase : M MW unit :=
  transpose pm_pos_hidden_statesT pm_pos_hidden_states ;;
  multf J_VALUE pm_neg_visible_activations pm_pos_hidden_statesT pmWeightsT ;;
  RbmMat_sigmoid pm_neg_visible_probs pm_neg_visible_activations ;;
  transpose pm_neg_visible_probsT pm_neg_visible_probs ;;
  visible_bias ;;
  multf J_VALUE pm_neg_hidden_activations pm_neg_visible_probsT pmWeights ;;
  RbmMat_sigmoid pm_neg_hidden_probs pm_neg_hidden_activations ;;
  transpose pm_neg_visible_probsT pm_neg_visible_probs ;;
  transpose pm_neg_hidden_probsT pm_neg_hidden_probs ;;
  multf J_VALUE pm_neg_associations pm_neg_visible_probs pm_neg_hidden_probs.

(** The body of the loop over the epochs; the result is the error it records. *)
Definition epoch (data_rows : Z) : M MW float :=
  positive_phase ;;
  negative_phase ;;
  let learningRate := fone in
  let num_examples := float_of_Z data_rows in
  updateWeights pmWeights pm_pos_associations pm_neg_associations (fdiv learningRate num_examples) ;;
  sumOfErrorSquared pmData pm_neg_visible_probs ;;
  w ← getW;
  release pos_hidden_probs ;;
  mret (sum_of_errors_squared w).

Definition default_constructed : list nat :=
  [pmWeightsT; pm_pos_hidden_activations; pm_pos_hidden_probs; pm_rand_mat; pm_pos_hidden_states; pm_pos_hidden_probsT;
   pm_pos_associations; pm_neg_visible_activations; pm_neg_visible_probs; pm_neg_hidden_activations; pm_neg_hidden_probs;
   pm_neg_visible_probsT; pm_neg_hidden_probsT; pm_neg_associations; pm_pos_hidden_statesT].

Fixpoint construct_all (l : list nat) : M MW unit :=
  match l with [] => mret tt | o :: l => PortalMat o ;; construct_all l end.

Fixpoint epochs (n : nat) (data_rows : Z) : M MW (list float) :=
  match n with
  | O => mret []
  | S n => e ← epoch data_rows; l ← epochs n data_rows; mret (e :: l)
  end.

(** [train], from the initial weights; [data] is the training data with a column
    in front, [dataT] is [pmData.t()], [weights] is a matrix of the right shape.
    The state is that after the last epoch, before the matrices go out of scope. *)
Definition train (numEpochs : nat) (data dataT weights : nat) : M MW (list float) :=
  hw ← get_mat weights;
  for_mat (rows hw) (cols hw) (fun i j _ =>
    d ← drand48;
    let w := float_of_double (dmul (ddiv (double_of_Z 1) (double_of_Z 10)) d) in
    set_at weights i j w) tt ;;
  hd ← get_mat data;
  for_loop (Z.to_nat (rows hd)) 0 (fun i _ => set_at data i 0 fone) tt ;;
  PortalMat_copy pmData data ;;
  PortalMat_copy pmDataT dataT ;;
  PortalMat_copy pmWeights weights ;;
  construct_all default_constructed ;;
  epochs numEpochs (rows hd).
End Rbm.

(** * Reading the training data *)

(** [RBM::run] for images of [rows_] by [cols_] pixels, given as functions of row
    and column ([None] is outside the image): row [i] of the training data. *)
Definition run_cols (numPixels : Z) (bsim : bool) : Z :=
  let cols := if bsim then 31 else 783 in
  if decide (cols = 0 \/ numPixels < cols) then numPixels else cols.
Definition run_image (rows_ cols_ cols : Z) (m : Z -> Z -> option Z) (row : list float) : option (list float) :=
  foldl (fun acc j => foldl (fun acc k =>
      row ← acc;
      let offset := j * cols_ + k in
      if decide (offset < cols) then p ← m k j; zupd row offset (float_of_Z p) else Some row)
    acc (seqZ 0 cols_)) (Some row) (seqZ 0 rows_).

(** * The accelerators of the machine *)

(** A hidden unit is on when its probability exceeds the random number. *)
Definition state_of (p r : float) : float := if flt r p then fone else fzero.
(** [weights += learningRate * (pos_associations - neg_associations) / num_examples] *)
Definition weight_update (rate w pos neg : float) : float := fadd w (fmul rate (fsub pos neg)).

(** What the accelerators do with requests for matrices that are in their
    memory: the sigmoid is [sg], the error of a prediction is [err]. *)
Class RbmDevice `{!Accelerator} (sg : float -> float) (err : list float -> list float -> float) : Prop := {
  rd_sigmoid mem src dst n l ld : mem src = Some l -> mem dst = Some ld ->
    n <= Z.of_nat (length l) -> n <= Z.of_nat (length ld) ->
    exists ld' inds, acc_run (Sigmoid src 0 dst 0 n) mem = ([(dst, ld')], inds) /\ total_posts inds = 1 /\
      length ld' = length ld /\ forall k x, 0 <= k < n -> znth l k = Some x -> znth ld' k = Some (sg x);
  rd_states mem src src2 dst n l l2 ld : mem src = Some l -> mem src2 = Some l2 -> mem dst = Some ld ->
    n <= Z.of_nat (length l) -> n <= Z.of_nat (length l2) -> n <= Z.of_nat (length ld) ->
    exists ld' inds, acc_run (ComputeStates src 0 src2 0 dst 0 n) mem = ([(dst, ld')], inds) /\ total_posts inds = 1 /\
      length ld' = length ld /\
      forall k p r, 0 <= k < n -> znth l k = Some p -> znth l2 k = Some r -> znth ld' k = Some (state_of p r);
  rd_update mem pos neg wts n rate lp ln lw : mem pos = Some lp -> mem neg = Some ln -> mem wts = Some lw ->
    n <= Z.of_nat (length lp) -> n <= Z.of_nat (length ln) -> n <= Z.of_nat (length lw) ->
    exists lw' inds, acc_run (UpdateWeights pos neg wts n rate) mem = ([(wts, lw')], inds) /\ total_posts inds = 1 /\
      length lw' = length lw /\
      forall k p q x, 0 <= k < n -> znth lp k = Some p -> znth ln k = Some q -> znth lw k = Some x ->
        znth lw' k = Some (weight_update rate x p q);
  rd_error mem a b n la lb : mem a = Some la -> mem b = Some lb ->
    acc_run (SumOfErrorSquared a b n) mem = ([], [sumOfErrorSquaredDone (err (take (Z.to_nat n) la) (take (Z.to_nat n) lb))])
}.

(** * Facts *)

Section RbmFacts.
Context {AS : AlignSize} {CV : OpenCV} {AC : Accelerator} {EX : Expf}.

Lemma owns_core w w' h i b : core w' = core w -> owns w h i b -> owns w' h i b.
Proof.
  destruct w, w'. unfold core. cbn. intros [= -> -> -> -> -> -> -> -> -> -> ->] []. by split.
Qed.

Lemma owns_keep P n m w w' o h i b : wfs P n m w' -> same_data w w' -> o ∈ P -> mats w !! o = Some h -> owns w h i b ->
  mats w' !! o = Some h /\ exists i', owns w' h i' b /\
    forall ref, mmu w !! ref = Some (info_fd i) -> mmu w' !! ref = Some (info_fd i').
Proof.
  intros Hw (H1 & H2 & _ & _ & H5 & H6 & _) Ho Hh Hown.
  assert (Hh' : mats w' !! o = Some h) by (by rewrite H1). split; [done|].
  destruct (wf_cases _ _ _ _ o h Hw Ho Hh') as [->|(i' & b' & Hown')]; [by destruct (owns_data _ _ _ _ Hown)|].
  exists i'. pose proof (owns_heap _ _ _ _ Hown') as Hb. rewrite H2, (owns_heap _ _ _ _ Hown) in Hb. injection Hb as <-.
  split; [done|]. intros ref Hr. destruct (H6 _ _ (owns_info _ _ _ _ Hown)) as (i'' & Hi'' & E & _).
  rewrite (owns_info _ _ _ _ Hown') in Hi''. injection Hi'' as <-. rewrite E. by apply H5.
Qed.

Lemma same_data_core w w' : core w' = core w -> same_data w w'.
Proof.
  destruct w, w'. unfold core. cbn. intros [= -> -> -> -> -> -> -> -> -> -> ->].
  repeat split; cbn; eauto.
Qed.

(** The operand of an operation, with the elements of its array. *)
Lemma mat_is_array P n m w o r c g : wfs P n m w -> o ∈ P -> 0 < r -> mat_is w o r c g ->
  exists h info b, mats w !! o = Some h /\ owns w h info b /\ rows h = r /\ cols h = c /\
    r * c <= Z.of_nat (length b) /\ forall i j, 0 <= i < r -> 0 <= j < c -> znth b (i * c + j) = Some (g i j).
Proof.
  intros Hw Ho Hr (h & b & Hh & Hhr & Hhc & Hb & Hl & He).
  destruct (wf_cases _ _ _ _ _ _ Hw Ho Hh) as [->|(info & b' & Hown)]; [cbn in *; lia|].
  exists h, info, b. pose proof (owns_heap _ _ _ _ Hown). simplify_eq. done.
Qed.

(** A matrix that is not [this] after [this] got its shape. *)
Lemma frame_owns P n m w w' this o h i b : wfs P n m w' -> frame this w w' -> o ∈ P -> sep_from w this o h b ->
  owns w h i b -> mats w' !! o = Some h /\ exists i', owns w' h i' b.
Proof.
  intros Hw Hf Ho Hs Hown. pose proof (proj1 Hf _ _ _ Hs) as (_ & Hd & Hm & Hl & _). split; [done|].
  destruct (wf_cases _ _ _ _ o h Hw Ho Hm) as [->|(i' & b' & Hx)]; [done|].
  exists i'. pose proof (owns_heap _ _ _ _ Hx). by simplify_eq.
Qed.

(** The number of elements as the requests have it. *)
Definition small (r c : Z) : Prop := fits r c /\ r * c < 2 ^ 31.

Lemma small_u32 r c : small r c -> u32 (r * c) = r * c.
Proof. intros [(Hr & Hc & _) Hs]. apply u32_small. nia. Qed.

(** ** The sigmoid of a matrix *)
Lemma sigmoid_result P n m w this a sg err r c g : RbmDevice sg err ->
  wfs P (cost w this r c + n) (cost w this r c + m) w -> this ∈ P -> a ∈ P -> a <> this -> small r c ->
  mat_is w a r c g ->
  exists w', RbmMat_sigmoid this a w = Ok tt w' /\ result P n m this r c (fun i j => sg (g i j)) w w'.
Proof.
  intros HD Hw Ht Ha Hne Hsm Hm. pose proof (proj1 (proj1 Hsm)) as Hr. unfold RbmMat_sigmoid.
  destruct (mat_is_array _ _ _ _ _ _ _ _ Hw Ha Hr Hm) as (ha & ia & la & Hha & Hoa & Hra & Hca & Hla & Hea).
  rewrite (bind_ok _ _ _ _ _ (get_mat_ok _ _ _ Hha)), Hra, Hca.
  pose proof (wf_sep_from _ _ _ _ _ _ _ _ _ Hw Ht Ha Hne Hha Hoa) as Hsa.
  destruct (create_shaped P n m w this r c Hw Ht (proj1 Hsm)) as (w1 & R1 & W1 & F1 & h & i & l & Hh & Ho & Hhr & Hhc).
  rewrite (bind_ok _ _ _ _ _ R1).
  destruct (frame_owns _ _ _ _ _ _ _ _ _ _ W1 F1 Ha Hsa Hoa) as (Hha1 & ia1 & Hoa1).
  destruct (reference_result P n m w1 this h i l W1 Ht Hh Ho) as (ref0 & w2 & i2 & R2 & W2 & D2 & Ho2 & _).
  rewrite (bind_ok _ _ _ _ _ R2).
  assert (Hh2 : mats w2 !! this = Some h) by (by rewrite (proj1 D2)).
  rewrite (bind_ok _ _ _ _ _ (cacheFlush_ok _ _ _ _ _ Hh2 Ho2)). set (w3 := set_flushed _ w2).
  assert (W3 : wfs P n m w3) by (by apply wfs_core with w2).
  destruct (owns_keep _ _ _ _ _ _ _ _ _ W2 D2 Ha Hha1 Hoa1) as (Hha2 & ia2 & Hoa2 & _).
  destruct (reference_result P n m w3 a ha ia2 la W3 Ha Hha2) as (aref & w4 & ia4 & R4 & W4 & D4 & Hoa4 & Ea);
    [by apply owns_core with w2|]. rewrite (bind_ok _ _ _ _ _ R4).
  destruct (owns_keep P n m w3 w4 this h i2 l W4 D4 Ht Hh2) as (Hh4 & i4 & Ho4 & _); [by apply owns_core with w2|].
  destruct (reference_result P n m w4 this h i4 l W4 Ht Hh4 Ho4) as (ref & w5 & i5 & R5 & W5 & D5 & Ho5 & Er).
  rewrite (bind_ok _ _ _ _ _ R5).
  assert (Hha5 : mats w5 !! a = Some ha) by (by rewrite (proj1 D5), (proj1 D4)).
  assert (Hh5 : mats w5 !! this = Some h) by (by rewrite (proj1 D5)).
  rewrite (bind_ok _ _ _ _ _ (get_mat_ok _ _ _ Hha5)), Hra, Hca, small_u32 by done.
  assert (Oa : object w5 aref = Some la) by (eapply same_data_object; [done|by eapply owns_object]).
  assert (Ot : object w5 ref = Some l) by (by eapply owns_object).
  destruct (rd_sigmoid (object w5) aref ref (r * c) la l Oa Ot Hla) as (l' & inds & Hrun & Hp & Hl' & Hg).
  { rewrite <- Hhr, <- Hhc. apply Ho5. }
  destruct (engine_write P n m w5 this h i5 l l' ref inds r (fun i j => sg (g i j)) (Sigmoid aref 0 ref 0 (r * c)))
    as (w6 & R6 & W6 & F6 & M6); try done.
  { intros x y Hx Hy. apply Hg; [rewrite Hhr, Hhc in *; nia|]. rewrite Hhc in *. apply Hea; lia. }
  exists w6. split; [done|]. split; [done|]. split; [|by rewrite Hhc in M6].
  etrans; [done|]. etrans; [apply (same_data_frame _ _ _ D2)|]. etrans; [by apply (frame_core _ w2 w3)|].
  etrans; [apply (same_data_frame _ _ _ D4)|]. etrans; [apply (same_data_frame _ _ _ D5)|done].
Qed.

(** ** Three matrices get their references *)
Lemma references3 P n m w a b t ha hb ht ia ib it la lb lt : wfs P n m w -> a ∈ P -> b ∈ P -> t ∈ P ->
  mats w !! a = Some ha -> mats w !! b = Some hb -> mats w !! t = Some ht ->
  owns w ha ia la -> owns w hb ib lb -> owns w ht it lt ->
  exists w' ra rb rt it', wfs P n m w' /\ same_data w w' /\
    object w' ra = Some la /\ object w' rb = Some lb /\ owns w' ht it' lt /\ mmu w' !! rt = Some (info_fd it') /\
    forall (A : Type) (k : Z -> Z -> Z -> M MW A),
      (x ← reference a; y ← reference b; z ← reference t; k x y z) w = k ra rb rt w'.
Proof.
  intros Hw Pa Pb Pt Ma Mb Mt Oa Ob Ot.
  destruct (reference_result P n m w a ha ia la Hw Pa Ma Oa) as (ra & w1 & ia1 & R1 & W1 & D1 & Oa1 & E1).
  destruct (owns_keep _ _ _ _ _ _ _ _ _ W1 D1 Pb Mb Ob) as (Mb1 & ib1 & Ob1 & _).
  destruct (owns_keep _ _ _ _ _ _ _ _ _ W1 D1 Pt Mt Ot) as (Mt1 & it1 & Ot1 & _).
  destruct (reference_result P n m w1 b hb ib1 lb W1 Pb Mb1 Ob1) as (rb & w2 & ib2 & R2 & W2 & D2 & Ob2 & E2).
  destruct (owns_keep _ _ _ _ _ _ _ _ _ W2 D2 Pt Mt1 Ot1) as (Mt2 & it2 & Ot2 & _).
  destruct (reference_result P n m w2 t ht it2 lt W2 Pt Mt2 Ot2) as (rt & w3 & it3 & R3 & W3 & D3 & Ot3 & E3).
  exists w3, ra, rb, rt, it3. split; [done|]. split; [by do 2 (etrans; [done|])|].
  split; [eapply same_data_object, same_data_object; [done|done|by eapply owns_object]|].
  split; [eapply same_data_object; [done|by eapply owns_object]|]. split; [done|]. split; [done|].
  intros A k. by rewrite (bind_ok _ _ _ _ _ R1), (bind_ok _ _ _ _ _ R2), (bind_ok _ _ _ _ _ R3).
Qed.

(** ** The states of the hidden units *)
Lemma hiddenStates_result P n m w this a rnd sg err r c g gr : RbmDevice sg err ->
  wfs P (cost w this r c + n) (cost w this r c + m) w -> this ∈ P -> a ∈ P -> rnd ∈ P -> a <> this -> rnd <> this ->
  small r c -> mat_is w a r c g -> mat_is w rnd r c gr ->
  exists w', hiddenStates this a rnd w = Ok tt w' /\ result P n m this r c (fun i j => state_of (g i j) (gr i j)) w w'.
Proof.
  intros HD Hw Ht Ha Hb Hna Hnb Hsm Hm Hmr. pose proof (proj1 (proj1 Hsm)) as Hr. unfold hiddenStates.
  destruct (mat_is_array _ _ _ _ _ _ _ _ Hw Ha Hr Hm) as (ha & ia & la & Hha & Hoa & Hra & Hca & Hla & Hea).
  destruct (mat_is_array _ _ _ _ _ _ _ _ Hw Hb Hr Hmr) as (hb & ib & lb & Hhb & Hob & _ & _ & Hlb & Heb).
  rewrite (bind_ok _ _ _ _ _ (get_mat_ok _ _ _ Hha)), Hra, Hca.
  pose proof (wf_sep_from _ _ _ _ _ _ _ _ _ Hw Ht Ha Hna Hha Hoa) as Hsa.
  pose proof (wf_sep_from _ _ _ _ _ _ _ _ _ Hw Ht Hb Hnb Hhb Hob) as Hsb.
  destruct (create_shaped P n m w this r c Hw Ht (proj1 Hsm)) as (w1 & R1 & W1 & F1 & h & i & l & Hh & Ho & Hhr & Hhc).
  rewrite (bind_ok _ _ _ _ _ R1).
  destruct (frame_owns _ _ _ _ _ _ _ _ _ _ W1 F1 Ha Hsa Hoa) as (Hha1 & ia1 & Hoa1).
  destruct (frame_owns _ _ _ _ _ _ _ _ _ _ W1 F1 Hb Hsb Hob) as (Hhb1 & ib1 & Hob1).
  destruct (references3 P n m w1 a rnd this ha hb h ia1 ib1 i la lb l)
    as (w2 & ra0 & rb0 & rt0 & i2 & W2 & D2 & _ & _ & Ho2 & _ & Hk); try done.
  rewrite Hk. assert (Hh2 : mats w2 !! this = Some h) by (by rewrite (proj1 D2)).
  rewrite (bind_ok _ _ _ _ _ (cacheFlush_ok _ _ _ _ _ Hh2 Ho2)). set (w3 := set_flushed _ w2).
  assert (W3 : wfs P n m w3) by (by apply wfs_core with w2).
  assert (D3 : same_data w1 w3) by (etrans; [done|by apply same_data_core]).
  destruct (owns_keep _ _ _ _ _ _ _ _ _ W3 D3 Ha Hha1 Hoa1) as (Hha3 & ia3 & Hoa3 & _).
  destruct (reference_result P n m w3 a ha ia3 la W3 Ha Hha3 Hoa3) as (ra1 & w4 & ia4 & R4 & W4 & D4 & _).
  assert (D14 : same_data w1 w4) by (by etrans).
  destruct (owns_keep _ _ _ _ _ _ _ _ _ W4 D14 Hb Hhb1 Hob1) as (Hhb4 & ib4 & Hob4 & _).
  destruct (reference_result P n m w4 rnd hb ib4 lb W4 Hb Hhb4 Hob4) as (rb1 & w5 & ib5 & R5 & W5 & D5 & _).
  assert (D15 : same_data w1 w5) by (by etrans).
  destruct (owns_keep _ _ _ _ _ _ _ _ _ W5 D15 Ha Hha1 Hoa1) as (Hha5 & ia5 & Hoa5 & _).
  destruct (owns_keep _ _ _ _ _ _ _ _ _ W5 D15 Hb Hhb1 Hob1) as (Hhb5 & ib5' & Hob5 & _).
  destruct (owns_keep _ _ _ _ _ _ _ _ _ W5 D15 Ht Hh Ho) as (Hh5 & i5 & Ho5 & _).
  destruct (references3 P n m w5 a rnd this ha hb h ia5 ib5' i5 la lb l)
    as (w6 & ra & rb & rt & i6 & W6 & D6 & Va & Vb & Ho6 & Vt & Hk6); try done.
  rewrite (bind_ok _ _ _ _ _ R4), (bind_ok _ _ _ _ _ R5), Hk6.
  assert (Hha6 : mats w6 !! a = Some ha) by (by rewrite (proj1 D6)).
  assert (Hh6 : mats w6 !! this = Some h) by (by rewrite (proj1 D6)).
  rewrite (bind_ok _ _ _ _ _ (get_mat_ok _ _ _ Hha6)), Hra, Hca, small_u32 by done.
  destruct (rd_states (object w6) ra rb rt (r * c) la lb l) as (l' & inds & Hrun & Hp & Hl' & Hg);
    [done|done|by eapply owns_object|done|done|rewrite <- Hhr, <- Hhc; apply Ho6|].
  destruct (engine_write P n m w6 this h i6 l l' rt inds r (fun i j => state_of (g i j) (gr i j))
    (ComputeStates ra 0 rb 0 rt 0 (r * c))) as (w7 & R7 & W7 & F7 & M7); try done.
  { intros x y Hx Hy. rewrite Hhr, Hhc in *. apply Hg; [nia|apply Hea; lia|apply Heb; lia]. }
  exists w7. split; [done|]. split; [done|]. split; [|by rewrite Hhc in M7].
  etrans; [done|]. etrans; [apply (same_data_frame _ _ _ D15)|]. etrans; [apply (same_data_frame _ _ _ D6)|done].
Qed.

(** ** The update of the weights *)
Lemma updateWeights_result P n m w this pos neg sg err rate r c g gp gn : RbmDevice sg err ->
  wfs P n m w -> this ∈ P -> pos ∈ P -> neg ∈ P -> small r c ->
  mat_is w this r c g -> mat_is w pos r c gp -> mat_is w neg r c gn ->
  exists w', updateWeights this pos neg rate w = Ok tt w' /\
    result P n m this r c (fun i j => weight_update rate (g i j) (gp i j) (gn i j)) w w'.
Proof.
  intros HD Hw Ht Ha Hb Hsm Hm Hmp Hmn. pose proof (proj1 (proj1 Hsm)) as Hr. unfold updateWeights.
  destruct (mat_is_array _ _ _ _ _ _ _ _ Hw Ht Hr Hm) as (h & i & l & Hh & Ho & Hhr & Hhc & Hl & He).
  destruct (mat_is_array _ _ _ _ _ _ _ _ Hw Ha Hr Hmp) as (ha & ia & la & Hha & Hoa & Hra & Hca & Hla & Hea).
  destruct (mat_is_array _ _ _ _ _ _ _ _ Hw Hb Hr Hmn) as (hb & ib & lb & Hhb & Hob & _ & _ & Hlb & Heb).
  destruct (reference_result P n m w pos ha ia la Hw Ha Hha Hoa) as (rp & w1 & ia1 & R1 & W1 & D1 & Hoa1 & _).
  rewrite (bind_ok _ _ _ _ _ R1).
  destruct (owns_keep _ _ _ _ _ _ _ _ _ W1 D1 Hb Hhb Hob) as (Hhb1 & ib1 & Hob1 & _).
  destruct (reference_result P n m w1 neg hb ib1 lb W1 Hb Hhb1 Hob1) as (rn & w2 & ib2 & R2 & W2 & D2 & Hob2 & _).
  rewrite (bind_ok _ _ _ _ _ R2). assert (D12 : same_data w w2) by (by etrans).
  destruct (owns_keep _ _ _ _ _ _ _ _ _ W2 D12 Ht Hh Ho) as (Hh2 & i2 & Ho2 & _).
  destruct (owns_keep _ _ _ _ _ _ _ _ _ W2 D12 Ha Hha Hoa) as (Hha2 & ia2 & Hoa2 & _).
  assert (Hhb2 : mats w2 !! neg = Some hb) by (by rewrite (proj1 D12)).
  rewrite (bind_ok _ _ _ _ _ (cacheFlush_ok _ _ _ _ _ Hh2 Ho2)). set (w3 := set_flushed _ w2).
  assert (W3 : wfs P n m w3) by (by apply wfs_core with w2). assert (C3 : core w3 = core w2) by done.
  destruct (references3 P n m w3 pos neg this ha hb h ia2 ib2 i2 la lb l)
    as (w4 & ra & rb & rt & i4 & W4 & D4 & Va & Vb & Ho4 & Vt & Hk);
    [done|done|done|done|done|done|done|by eapply owns_core..|].
  rewrite Hk. assert (Hh4 : mats w4 !! this = Some h) by (by rewrite (proj1 D4)).
  rewrite (bind_ok _ _ _ _ _ (get_mat_ok _ _ _ Hh4)), Hhr, Hhc, small_u32 by done.
  destruct (rd_update (object w4) ra rb rt (r * c) rate la lb l) as (l' & inds & Hrun & Hp & Hl' & Hg);
    [done|done|by eapply owns_object|done|done|done|].
  destruct (engine_write P n m w4 this h i4 l l' rt inds r (fun i j => weight_update rate (g i j) (gp i j) (gn i j))
    (UpdateWeights ra rb rt (r * c) rate)) as (w5 & R5 & W5 & F5 & M5); try done.
  { intros x y Hx Hy. rewrite Hhr, Hhc in *. apply Hg; [nia|apply Hea; lia|apply Heb; lia|apply He; lia]. }
  exists w5. split; [done|]. split; [done|]. split; [|by rewrite Hhc in M5].
  etrans; [apply (same_data_frame _ _ _ D12)|]. etrans; [by apply (frame_core _ w2 w3)|].
  etrans; [apply (same_data_frame _ _ _ D4)|done].
Qed.

(** ** The error of a prediction *)

(** The elements in the order of the array. *)
Definition elems (r c : Z) (g : Z -> Z -> float) : list float := (fun k => g (k / c) (k mod c)) <$> seqZ 0 (r * c).

Lemma take_elems r c g b : 0 <= r -> 0 < c -> r * c <= Z.of_nat (length b) ->
  (forall i j, 0 <= i < r -> 0 <= j < c -> znth b (i * c + j) = Some (g i j)) -> take (Z.to_nat (r * c)) b = elems r c g.
Proof.
  intros Hr Hc Hl He. apply list_eq. intros k. unfold elems. rewrite list_lookup_fmap.
  destruct (decide (k < Z.to_nat (r * c))%nat) as [Hk|Hk].
  - rewrite lookup_take_lt by done. rewrite lookup_seqZ_lt by lia.
    cbn [fmap option_fmap option_map]. rewrite Z.add_0_l.
    assert (Hd : Z.of_nat k = Z.of_nat k / c * c + Z.of_nat k mod c) by (rewrite Z.mul_comm; apply Z.div_mod; lia).
    pose proof (Z.mod_pos_bound (Z.of_nat k) c Hc).
    assert (0 <= Z.of_nat k / c < r) by (split; [apply Z.div_pos; lia|apply Z.div_lt_upper_bound; lia]).
    specialize (He (Z.of_nat k / c) (Z.of_nat k mod c)). rewrite <- Hd in He. rewrite <- He by done.
    unfold znth. rewrite decide_True by lia. by rewrite Nat2Z.id.
  - rewrite lookup_take_ge by lia. rewrite lookup_seqZ_ge by lia. done.
Qed.

Lemma error_served P n m w req e : wfs P n m w -> acc_run req (object w) = ([], [sumOfErrorSquaredDone e]) ->
  exists w', (send req ;; sem_wait) w = Ok tt w' /\ core w' = core w /\ mul_sem w' = 0 /\ sum_of_errors_squared w' = e.
Proof.
  intros Hw Hrun. destruct (wf_idle _ _ _ _ Hw) as [Hpend Hsem].
  unfold send, sem_wait. rewrite (bind_ok _ _ _ tt (set_pending (pending w ++ [req]) w)) by done.
  unfold mbind at 1, M_bind at 1, getW at 1. rewrite Hpend. cbn [app pending set_pending sem_wait_loop].
  unfold mbind at 1, M_bind at 1, getW at 1. cbn [mul_sem set_pending]. rewrite decide_False by lia.
  rewrite (bind_ok _ _ _ tt w).
  2: { unfold modifyW. f_equal. destruct w. cbn in *. by subst. }
  unfold serve. rewrite bind_assoc. unfold mbind at 1, M_bind at 1, getW at 1. rewrite Hrun.
  cbn. unfold mbind, M_bind, getW, putW, modifyW, sem_post, mret, M_ret, modifyW. cbn. rewrite decide_True by lia.
  eexists. split; [reflexivity|]. split; [by destruct w|]. split; [cbn; lia|done].
Qed.

Lemma sumOfErrorSquared_result P n m w this pred sg err r c g gp : RbmDevice sg err ->
  wfs P n m w -> this ∈ P -> pred ∈ P -> small r c -> mat_is w this r c g -> mat_is w pred r c gp ->
  exists w', sumOfErrorSquared this pred w = Ok tt w' /\ wfs P n m w' /\ same_data w w' /\
    sum_of_errors_squared w' = err (elems r c g) (elems r c gp).
Proof.
  intros HD Hw Ht Ha Hsm Hm Hmp. destruct Hsm as [(Hr & Hc & Hf) Hs]. unfold sumOfErrorSquared.
  destruct (mat_is_array _ _ _ _ _ _ _ _ Hw Ht Hr Hm) as (h & i & l & Hh & Ho & Hhr & Hhc & Hl & He).
  destruct (mat_is_array _ _ _ _ _ _ _ _ Hw Ha Hr Hmp) as (ha & ia & la & Hha & Hoa & Hra & Hca & Hla & Hea).
  rewrite (bind_ok _ _ _ _ _ (get_mat_ok _ _ _ Hh)), (bind_ok _ _ _ _ _ (get_mat_ok _ _ _ Hha)).
  rewrite Hhr, Hhc, Hra, Hca, decide_False by lia.
  rewrite (bind_ok _ _ _ _ _ (cacheFlush_ok _ _ _ _ _ Hh Ho)). set (w1 := set_flushed _ w).
  assert (C1 : core w1 = core w) by done. assert (W1 : wfs P n m w1) by (by apply wfs_core with w).
  destruct (reference_result P n m w1 this h i l W1 Ht Hh (owns_core _ _ _ _ _ C1 Ho)) as (ref & w2 & i2 & R2 & W2 & D2 & Ho2 & E2).
  rewrite (bind_ok _ _ _ _ _ R2).
  destruct (owns_keep P n m w1 w2 pred ha ia la W2 D2 Ha Hha (owns_core _ _ _ _ _ C1 Hoa)) as (Hha2 & ia2 & Hoa2 & _).
  destruct (reference_result P n m w2 pred ha ia2 la W2 Ha Hha2 Hoa2) as (pref & w3 & ia3 & R3 & W3 & D3 & Hoa3 & E3).
  rewrite (bind_ok _ _ _ _ _ R3).
  assert (O1 : object w3 ref = Some l) by (eapply same_data_object; [done|by eapply owns_object]).
  assert (O2 : object w3 pref = Some la) by (by eapply owns_object).
  rewrite small_u32 by (by split).
  destruct (error_served P n m w3 _ _ W3 (rd_error _ _ _ (r * c) _ _ O1 O2)) as (w4 & R4 & C4 & S4 & V4).
  exists w4. split; [done|]. split; [by apply wfs_core with w3; [|rewrite S4, (proj2 (wf_idle _ _ _ _ W3))|]|].
  split; [|rewrite V4; f_equal; by apply take_elems; try lia].
  etrans; [by apply (same_data_core w w1)|]. etrans; [done|]. etrans; [done|]. by apply same_data_core.
Qed.

(** ** A second header of an array *)

Definition recounted (other : nat) (ho : Mat) (h : Mat) (info : arrayInfo_t) (y : Z) (w : MW) : MW :=
  set_mats (<[other := ho]> (mats w))
    (set_arrayInfo (<[Z.to_nat (refcount h) := set_info_refcount y info]> (arrayInfo w)) w).

Lemma recounted_wfs P n m w o h info b other ho y : wfs P n m w -> o ∈ P -> mats w !! o = Some h -> owns w h info b ->
  other ∉ P -> 1 <= y -> wfs P n m (recounted other ho h info y w).
Proof.
  intros Hw Ho Hh Hown Hother Hy. set (w' := recounted other ho h info y w).
  pose proof (wf_len _ _ _ _ Hw). pose proof (wf_num _ _ _ _ Hw). pose proof (owns_num _ _ _ _ Hown).
  assert (Hm : forall x, x ∈ P -> mats w' !! x = mats w !! x) by (intros x Hx; cbn; rewrite lookup_insert_ne; [done|set_solver]).
  assert (Hi : forall k x, znth (arrayInfo w) k = Some x -> k <> refcount h -> znth (arrayInfo w') k = Some x).
  { intros k x Hk Hne. cbn. unfold znth in *. case_decide; [|done]. by rewrite list_lookup_insert_ne by lia. }
  assert (Hk : znth (arrayInfo w') (refcount h) = Some (set_info_refcount y info)).
  { cbn. unfold znth. rewrite decide_True by lia. by rewrite list_lookup_insert_eq by lia. }
  assert (empties P w' = empties P w) as HE.
  { apply size_filter_eq. intros x Hx. unfold is_empty. by rewrite Hm. }
  assert (unregistered P w' = unregistered P w) as HU.
  { apply size_filter_eq. intros x Hx. enough (registered w' x <-> registered w x) by tauto.
    destruct (wf_mats _ _ _ _ Hw x Hx) as (h' & Hh' & Hc). unfold registered. rewrite Hm, Hh' by done.
    destruct Hc as [->|(info' & b' & Hown')]; [naive_solver|].
    destruct (decide (x = o)) as [->|Hne].
    - simplify_eq. rewrite Hk, (owns_info _ _ _ _ Hown). done.
    - destruct (wf_sep _ _ _ _ Hw o x h h') as [_ Hd]; eauto using owns_not_empty.
      rewrite (Hi _ _ (owns_info _ _ _ _ Hown')), (owns_info _ _ _ _ Hown') by done. done. }
  unfold wfs. rewrite HE, HU. split; try apply Hw.
  - intros x Hx. rewrite Hm by done. destruct (wf_mats _ _ _ _ Hw x Hx) as (h' & Hh' & Hc). exists h'. split; [done|].
    destruct Hc as [?|(info' & b' & Hown')]; [by left|right]. destruct (decide (x = o)) as [->|Hne].
    + simplify_eq. exists (set_info_refcount y info), b. destruct Hown. by split.
    + destruct (wf_sep _ _ _ _ Hw o x h h') as [_ Hd]; eauto using owns_not_empty.
      exists info', b'. destruct Hown'. split; try done. by apply Hi.
  - intros o1 o2 h1 h2 Q1 Q2. rewrite !Hm by done. apply (wf_sep _ _ _ _ Hw); done.
  - cbn. by rewrite length_insert.
Qed.

Lemma share_ok P n m w o h info b other : wfs P n m w -> mats w !! o = Some h -> owns w h info b ->
  share other o w = Ok tt (recounted other h h info (info_refcount info + 1) w).
Proof.
  intros Hw Hh Hown. pose proof (wf_len _ _ _ _ Hw). pose proof (wf_num _ _ _ _ Hw). pose proof (owns_num _ _ _ _ Hown).
  unfold share. rewrite (bind_ok _ _ _ _ _ (get_mat_ok _ _ _ Hh)).
  rewrite (bind_ok _ _ _ info w) by (unfold get_info, getW, mbind, M_bind, defined; by rewrite (owns_info _ _ _ _ Hown)).
  unfold upd_info, put_mat, modifyW, getW, putW, mbind, M_bind, defined. by rewrite zupd_Some by lia.
Qed.

Lemma release_other P n m w other h info b : wfs P n m w -> mats w !! other = Some h -> owns w h info b ->
  1 < info_refcount info -> release other w = Ok tt (recounted other Mat0 h info (info_refcount info - 1) w).
Proof.
  intros Hw Hh Hown Hc. pose proof (wf_len _ _ _ _ Hw). pose proof (wf_num _ _ _ _ Hw). pose proof (owns_num _ _ _ _ Hown).
  rewrite (release_shared other w h info); [|done|lia|apply Hown|done].
  unfold upd_info, put_mat, modifyW, getW, putW, mbind, M_bind, defined. by rewrite zupd_Some by lia.
Qed.

(** ** The loops of an epoch *)

(** The elements of [o] are replaced through another header of its array. *)
Lemma alias_result P n m w o other h info b r c g f : wfs P n m w -> o ∈ P -> mats w !! o = Some h -> owns w h info b ->
  mats w !! other = Some h -> rows h = r -> cols h = c -> mat_is w o r c g ->
  exists w', for_mat r c (fun i j _ => x ← at_ o i j; set_at other i j (f x)) tt w = Ok tt w' /\
    result P n m o r c (fun i j => f (g i j)) w w' /\ exists b', w' = setb (datastart h) b' w.
Proof.
  intros Hw Ho Hh Hown Hoth <- <- (h' & b' & Hh' & _ & _ & Hb' & _ & He).
  assert (h' = h) as -> by congruence. assert (b' = b) as -> by (pose proof (owns_heap _ _ _ _ Hown); congruence).
  destruct (fill_mat other h b (fun i j => f (g i j)) (fun i j _ => x ← at_ o i j; set_at other i j (f x)) w Hoth)
    as (b' & R & U); try apply Hown; [apply Z.lt_le_incl, Hown|apply Z.lt_le_incl, Hown| |].
  { intros i j b' Hi Hj Hk. rewrite (bind_ok _ _ _ (g i j) (setb (datastart h) b' w)); [done|]. apply at_ok with (h := h) (b := b'); [done|cbn; by rewrite lookup_insert_eq|].
    rewrite Hk by lia. by apply He. }
  destruct (setb_wf P n m w o h info b b' Hw Ho Hh Hown) as (W & O & F); [apply U|].
  exists (setb (datastart h) b' w). split; [done|]. split; [|by eexists]. split; [done|]. split; [done|].
  exists h, b'. split; [done|]. split; [done|]. split; [done|]. split; [apply O|]. split; [apply O|].
  intros i j. by apply (upto_elem (cols h) (fun i j => f (g i j)) (rows h) b b').
Qed.

Lemma wfs_drand P n m w l : wfs P n m w -> wfs P n m (set_drand l w).
Proof.
  intros Hw. unfold wfs. change (empties P (set_drand l w)) with (empties P w).
  change (unregistered P (set_drand l w)) with (unregistered P w). split; try apply Hw.
  intros o Ho. destruct (wf_mats _ _ _ _ Hw o Ho) as (h & Hh & [?|(info & b & [])]); [eauto|].
  exists h. split; [done|]. right. by exists info, b.
Qed.

(** A matrix of random numbers. *)
Definition drawn (f : double -> float) (l : list double) (c i j : Z) : float := f (default fzero (znth l (i * c + j))).
Definition random_at : list double -> Z -> Z -> Z -> float := drawn float_of_double.

Lemma random_loop f w this h b : mats w !! this = Some h -> heap w !! datastart h = Some b -> 0 <= rows h -> 0 <= cols h ->
  rows h * cols h <= Z.of_nat (length b) -> rows h * cols h <= Z.of_nat (length (drand w)) ->
  exists b', for_mat (rows h) (cols h) (fun i j _ => d ← drand48; set_at this i j (f d)) tt w
      = Ok tt (set_drand (drop (Z.to_nat (rows h * cols h)) (drand w)) (setb (datastart h) b' w)) /\
    upto (cols h) (drawn f (drand w) (cols h)) (rows h * cols h) b b'.
Proof.
  intros Hh Hb Hr Hc Hb0 Hl. set (r := rows h) in *. set (c := cols h) in *.
  destruct (for_mat_inv (fun K _ w' => 0 <= K /\ exists b', w' = set_drand (drop (Z.to_nat K) (drand w)) (setb (datastart h) b' w) /\
      upto c (drawn f (drand w) c) K b b')
    (fun i j (_ : unit) => d ← drand48; set_at this i j (f d)) r c tt w) as ([] & w' & R & _ & b' & -> & U);
    [lia|lia| | |by eauto].
  - split; [done|]. exists b. split; [|split; [done|split; [lia|done]]]. rewrite setb_id by done. by destruct w.
  - intros i j [] w1 Hi Hj (HK & b1 & -> & U1). assert (i * c + j < r * c) by nia.
    destruct (lookup_lt_is_Some_2 (drand w) (Z.to_nat (i * c + j))) as [d Hd]; [lia|].
    rewrite (drop_S _ d) by done.
    rewrite (bind_ok _ _ _ d (set_drand (drop (S (Z.to_nat (i * c + j))) (drand w)) (setb (datastart h) b1 w))) by done.
    assert (Hv : f d = drawn f (drand w) c i j) by (unfold drawn, znth; rewrite decide_True by lia; by rewrite Hd).
    rewrite Hv. destruct U1 as (Ul & U1 & U2).
    destruct (zupd b1 (i * c + j) (drawn f (drand w) c i j)) as [b2|] eqn:E; [|rewrite zupd_Some in E by lia; done].
    exists tt, (set_drand (drop (Z.to_nat (i * c + j + 1)) (drand w)) (setb (datastart h) b2 w)). split.
    + rewrite (set_at_ok this i j _ h b1 b2); [|done|cbn; by rewrite lookup_insert_eq|done].
      unfold setb. cbn. rewrite insert_insert_eq. replace (Z.to_nat (i * c + j + 1)) with (S (Z.to_nat (i * c + j))) by lia. done.
    + split; [lia|]. exists b2. split; [done|]. eapply upto_step; [lia|done| |done]. by split.
Qed.

Lemma random_result P n m w this h info b : wfs P n m w -> this ∈ P -> mats w !! this = Some h -> owns w h info b ->
  rows h * cols h <= Z.of_nat (length (drand w)) ->
  exists w', for_mat (rows h) (cols h) (fun i j _ => d ← drand48; set_at this i j (float_of_double d)) tt w
      = Ok tt (set_drand (drop (Z.to_nat (rows h * cols h)) (drand w)) w') /\
    result P n m this (rows h) (cols h) (random_at (drand w) (cols h)) w w'.
Proof.
  intros Hw Ht Hh Hown Hl. pose proof (owns_rows _ _ _ _ Hown). pose proof (owns_cols _ _ _ _ Hown).
  destruct (random_loop float_of_double w this h b Hh (owns_heap _ _ _ _ Hown)) as (b' & R & U);
    [lia|lia|apply Hown|done|]. exists (setb (datastart h) b' w). split; [done|].
  destruct (setb_wf P n m w this h info b b' Hw Ht Hh Hown) as (W & O & F); [apply U|].
  split; [done|]. split; [done|]. exists h, b'. split; [done|]. split; [done|]. split; [done|]. split; [apply O|].
  split; [apply O|]. intros i j. by apply upto_elem with (b := b).
Qed.

(** The first column is set to 1. *)
Definition with_bias (g : Z -> Z -> float) (i j : Z) : float := if decide (j = 0) then fone else g i j.

Lemma bias_loop w this h b g : mats w !! this = Some h -> heap w !! datastart h = Some b -> 0 <= rows h -> 0 < cols h ->
  rows h * cols h <= Z.of_nat (length b) ->
  (forall i j, 0 <= i < rows h -> 0 <= j < cols h -> znth b (i * cols h + j) = Some (g i j)) ->
  exists b', for_loop (Z.to_nat (rows h)) 0 (fun i _ => set_at this i 0 fone) tt w = Ok tt (setb (datastart h) b' w) /\
    length b' = length b /\
    forall i j, 0 <= i < rows h -> 0 <= j < cols h -> znth b' (i * cols h + j) = Some (with_bias g i j).
Proof.
  intros Hh Hb Hr Hc Hl He. set (r := rows h) in *. set (c := cols h) in *.
  destruct (for_loop_inv (fun i (_ : unit) w' => exists b', w' = setb (datastart h) b' w /\ length b' = length b /\
      forall x y, 0 <= x < r -> 0 <= y < c -> znth b' (x * c + y) = Some (if decide (x < i) then with_bias g x y else g x y))
    (fun i _ => set_at this i 0 fone) (Z.to_nat r) 0 tt w) as ([] & w' & R & b' & -> & Hl' & He').
  - exists b. split; [by rewrite setb_id|]. split; [done|]. intros x y Hx Hy. rewrite decide_False by lia. by apply He.
  - intros i [] w1 Hi (b1 & -> & Hl1 & He1). assert (i * c + 0 < r * c) by nia.
    destruct (zupd b1 (i * c + 0) fone) as [b2|] eqn:E; [|rewrite zupd_Some in E by nia; done].
    exists tt, (setb (datastart h) b2 w). split.
    + rewrite (set_at_ok this i 0 _ h b1 b2); [by rewrite setb_setb|done|cbn; by rewrite lookup_insert_eq|done].
    + exists b2. split; [done|]. split; [by rewrite (zupd_length _ _ _ _ E)|]. intros x y Hx Hy.
      destruct (decide (x * c + y = i * c + 0)) as [Eq|Ne].
      * assert (x = i) as -> by nia. assert (y = 0) as -> by lia.
        rewrite (znth_zupd_eq _ _ _ _ E), decide_True by lia. unfold with_bias. by rewrite decide_True.
      * rewrite (znth_zupd_ne _ _ _ _ _ E), He1 by (done || lia). f_equal.
        destruct (decide (x < i)), (decide (x < i + 1)); try lia; [done| |done]. assert (x = i) as -> by lia.
        unfold with_bias. rewrite decide_False; [done|]. intros ->. lia.
  - exists b'. split; [done|]. split; [done|]. intros i j Hi Hj. rewrite He' by done. by rewrite decide_True by lia.
Qed.

Lemma bias_result P n m w this r c g : wfs P n m w -> this ∈ P -> 0 < r -> 0 < c -> mat_is w this r c g ->
  exists w', for_loop (Z.to_nat r) 0 (fun i _ => set_at this i 0 fone) tt w = Ok tt w' /\
    result P n m this r c (with_bias g) w w'.
Proof.
  intros Hw Ht Hr Hc Hm. destruct (mat_is_array _ _ _ _ _ _ _ _ Hw Ht Hr Hm) as (h & info & b & Hh & Hown & <- & <- & Hl & He).
  destruct (bias_loop w this h b g Hh (owns_heap _ _ _ _ Hown)) as (b' & R & Hl' & He'); [lia|done|done|done|].
  destruct (setb_wf P n m w this h info b b' Hw Ht Hh Hown Hl') as (W & O & F).
  exists (setb (datastart h) b' w). split; [done|]. split; [done|]. split; [done|].
  exists h, b'. split; [done|]. split; [done|]. split; [done|]. split; [apply O|]. split; [apply O|done].
Qed.

(** ** The table of the sigmoid *)

(** The slope of an entry is that of the interval before it. *)
Definition slope_at (N ai : Z) : float :=
  fdiv (fsub (sigmoid (angle_at N ai)) (sigmoid (angle_at N (ai - 1)))) (fsub (angle_at N ai) (angle_at N (ai - 1))).
(** Element [k] of the table; [old] is what the memory held. *)
Definition table_cell (N : Z) (old : Z -> float) (k : Z) : float :=
  let ai := k / 4 in
  if decide (k mod 4 = 0) then fneg (angle_at N ai)
  else if decide (k mod 4 = 1) then sigmoid (angle_at N ai)
  else if decide (k mod 4 = 2) then
    if decide (ai = N - 1) then fzero else if decide (ai > 0) then slope_at N ai else old k
  else fzero.

Lemma table_cell_at N old ai : 0 <= ai ->
  table_cell N old (4 * ai + 0) = fneg (angle_at N ai) /\ table_cell N old (4 * ai + 1) = sigmoid (angle_at N ai) /\
  table_cell N old (4 * ai + 2)
    = (if decide (ai = N - 1) then fzero else if decide (ai > 0) then slope_at N ai else old (4 * ai + 2)) /\
  table_cell N old (4 * ai + 3) = fzero.
Proof.
  intros Hai. unfold table_cell.
  assert (forall c, 0 <= c < 4 -> (4 * ai + c) / 4 = ai /\ (4 * ai + c) mod 4 = c) as Hd by (intros; zlia).
  destruct (Hd 0) as [-> ->]; [lia|]. destruct (Hd 1) as [-> ->]; [lia|]. destruct (Hd 2) as [-> ->]; [lia|].
  destruct (Hd 3) as [-> ->]; [lia|]. done.
Qed.

(** The array of the table has the elements [f]. *)
Definition row_holds (w : MW) (h : Mat) (n : Z) (f : Z -> float) (w' : MW) : Prop :=
  exists b0 b, heap w !! datastart h = Some b0 /\ w' = setb (datastart h) b w /\ length b = length b0 /\ n <= Z.of_nat (length b) /\ forall k, 0 <= k < n -> znth b k = Some (f k).

Lemma row_set w h n f w' tbl c v : mats w !! tbl = Some h -> row_holds w h n f w' -> 0 <= c < n ->
  exists w1, set_at tbl 0 c v w' = Ok tt w1 /\ row_holds w h n (fun k => if decide (k = c) then v else f k) w1.
Proof.
  intros Hh (b0 & b & Hb0 & -> & Hlb & Hl & Hf) Hc. destruct (zupd b c v) as [b'|] eqn:E; [|rewrite zupd_Some in E by lia; done].
  exists (setb (datastart h) b' w). split.
  - rewrite (set_at_ok tbl 0 c _ h b b'); [by rewrite setb_setb|done|cbn; by rewrite lookup_insert_eq|done].
  - exists b0, b'. rewrite (zupd_length _ _ _ _ E). do 4 (split; [done|]). intros k Hk.
    destruct (decide (k = c)) as [->|]; [by rewrite (znth_zupd_eq _ _ _ _ E)|].
    rewrite (znth_zupd_ne _ _ _ _ _ E) by done. by apply Hf.
Qed.

Lemma row_get w h n f w' tbl c : mats w !! tbl = Some h -> row_holds w h n f w' -> 0 <= c < n -> at_ tbl 0 c w' = Ok (f c) w'.
Proof.
  intros Hh (b0 & b & Hb0 & -> & Hlb & Hl & Hf) Hc. apply at_ok with (h := h) (b := b); [done|cbn; by rewrite lookup_insert_eq|by apply Hf].
Qed.

Lemma row_holds_ext w h n f f' w' : (forall k, 0 <= k < n -> f k = f' k) -> row_holds w h n f w' -> row_holds w h n f' w'.
Proof. intros He (b0 & b & Hb0 & -> & Hlb & Hl & Hf). exists b0, b. do 4 (split; [done|]). intros k Hk. by rewrite Hf, He. Qed.

Lemma table_entry_result w h tbl N ai old w' : mats w !! tbl = Some h -> 0 <= ai < N ->
  row_holds w h (4 * N) (fun k => if decide (k < 4 * ai) then table_cell N old k else old k) w' ->
  exists w1, table_entry tbl N ai w' = Ok tt w1 /\
    row_holds w h (4 * N) (fun k => if decide (k < 4 * (ai + 1)) then table_cell N old k else old k) w1.
Proof.
  intros Hh Hai H0. unfold table_entry.
  destruct (row_set _ _ _ _ _ tbl (4 * ai + 0) (fneg (angle_at N ai)) Hh H0) as (w1 & R1 & H1); [lia|]. rewrite (bind_ok _ _ _ _ _ R1).
  destruct (row_set _ _ _ _ _ tbl (4 * ai + 1) (sigmoid (angle_at N ai)) Hh H1) as (w2 & R2 & H2); [lia|]. rewrite (bind_ok _ _ _ _ _ R2).
  assert (Hmid : exists w3 s, (if decide (ai = N - 1) then set_at tbl 0 (4 * ai + 2) fzero
     else if decide (ai > 0) then
       s_prev ← at_ tbl 0 (4 * (ai - 1) + 1);
       set_at tbl 0 (4 * ai + 2) (fdiv (fsub (sigmoid (angle_at N ai)) s_prev) (fsub (angle_at N ai) (angle_at N (ai - 1))))
     else mret tt) w2 = Ok tt w3 /\
     s = (if decide (ai = N - 1) then fzero else if decide (ai > 0) then slope_at N ai else old (4 * ai + 2)) /\
     row_holds w h (4 * N) (fun k => if decide (k = 4 * ai + 2) then s else if decide (k = 4 * ai + 1) then sigmoid (angle_at N ai)
       else if decide (k = 4 * ai + 0) then fneg (angle_at N ai) else if decide (k < 4 * ai) then table_cell N old k else old k) w3).
  { case_decide as Hl; [|case_decide as Hp].
    - destruct (row_set _ _ _ _ _ tbl (4 * ai + 2) fzero Hh H2) as (w3 & R3 & H3); [lia|]. by exists w3, fzero.
    - rewrite (bind_ok _ _ _ (sigmoid (angle_at N (ai - 1))) w2).
      + destruct (row_set _ _ _ _ _ tbl (4 * ai + 2) (slope_at N ai) Hh H2) as (w3 & R3 & H3); [lia|]. by exists w3, (slope_at N ai).
      + rewrite (row_get _ _ _ _ _ tbl (4 * (ai - 1) + 1) Hh H2) by lia. f_equal.
        rewrite !decide_False by lia. rewrite decide_True by lia. by destruct (table_cell_at N old (ai - 1)) as (_ & -> & _); [lia|].
    - exists w2, (old (4 * ai + 2)). split; [done|]. split; [done|]. eapply row_holds_ext; [|exact H2]. intros k Hk.
      destruct (decide (k = 4 * ai + 2)) as [->|]; [|done]. by rewrite !decide_False by lia. }
  destruct Hmid as (w3 & s & R3 & Hs & H3). rewrite (bind_ok _ _ _ _ _ R3).
  destruct (row_set _ _ _ _ _ tbl (4 * ai + 3) fzero Hh H3) as (w4 & R4 & H4); [lia|]. exists w4. split; [done|].
  eapply row_holds_ext; [|exact H4]. intros k Hk. subst s. destruct (table_cell_at N old ai) as (T0 & T1 & T2 & T3); [lia|].
  destruct (decide (k = 4 * ai + 3)) as [->|]; [by rewrite decide_True, T3 by lia|].
  destruct (decide (k = 4 * ai + 2)) as [->|]; [by rewrite (decide_True (P := 4 * ai + 2 < 4 * (ai + 1))), T2 by lia|].
  destruct (decide (k = 4 * ai + 1)) as [->|]; [by rewrite decide_True, T1 by lia|].
  destruct (decide (k = 4 * ai + 0)) as [->|]; [by rewrite decide_True, T0 by lia|].
  destruct (decide (k < 4 * ai)), (decide (k < 4 * (ai + 1))); try done; lia.
Qed.

(** The table after the loop.  With more than one entry the slope of entry 0 is
    what the memory held. *)
Lemma sigmoid_table P n m w tbl h info b N old : wfs P n m w -> tbl ∈ P -> mats w !! tbl = Some h -> owns w h info b ->
  rows h = 1 -> cols h = 4 * N -> (forall k, 0 <= k < 4 * N -> znth b k = Some (old k)) ->
  exists w', for_loop (Z.to_nat N) 0 (fun ai _ => table_entry tbl N ai) tt w = Ok tt w' /\
    result P n m tbl 1 (4 * N) (fun _ k => table_cell N old k) w w'.
Proof.
  intros Hw Ht Hh Hown Hr Hc Hb. pose proof (owns_cols _ _ _ _ Hown). pose proof (owns_len _ _ _ _ Hown) as Hl. rewrite Hr, Hc in *.
  destruct (for_loop_inv (fun ai (_ : unit) w' => row_holds w h (4 * N) (fun k => if decide (k < 4 * ai) then table_cell N old k else old k) w')
    (fun ai _ => table_entry tbl N ai) (Z.to_nat N) 0 tt w) as ([] & w' & R & b0 & b' & Hb0 & -> & Hlb & Hl' & Hf).
  - exists b, b. split; [apply Hown|]. split; [by rewrite setb_id by apply Hown|]. split; [done|]. split; [lia|]. intros k Hk. rewrite decide_False by lia. by apply Hb.
  - intros ai [] w1 Hai H1. destruct (table_entry_result w h tbl N ai old w1 Hh ltac:(lia) H1) as (w2 & R2 & H2). by exists tt, w2.
  - assert (Hlen : length b' = length b) by (pose proof (owns_heap _ _ _ _ Hown); congruence).
    destruct (setb_wf P n m w tbl h info b b' Hw Ht Hh Hown Hlen) as (W & O & F). eexists. split; [exact R|].
    split; [done|]. split; [done|]. exists h, b'. split; [done|]. split; [done|]. split; [done|]. split; [apply O|]. split; [lia|].
    intros i j Hi Hj. replace (i * (4 * N) + j) with j by lia. rewrite Hf by lia. by rewrite decide_True by lia.
Qed.
End RbmFacts.
