(* ===== verification/SigmoidTable.v ===== *)
(** Loading the table of the sigmoid: [configureSigmoidTable] of
    [lib/rbm/cpp/rbm.cpp], whole.

    The limits are sent without a wait, so that a request is pending while the
    table is filled: the operations in between neither look at the pending
    requests nor change them ([quiet]). *)

From stdpp Require Import base gmap list option fin_maps.
From Stdlib Require Import ZArith Lia SpecFloat.
From S2P Require Import Prelude FloatArith PortalMat MatFacts MatmulTest Rbm.
#[local] Open Scope list_scope.
#[local] Open Scope Z_scope.

(** * Operations that leave the pending requests alone *)

Definition with_pending {A} (p : list request) (o : outcome MW A) : outcome MW A :=
  match o with
  | Ok a w => Ok a (set_pending p w)
  | Exit c w => Exit c (set_pending p w)
  | Assert w => Assert (set_pending p w)
  | Fault => Fault
  | Block w => Block (set_pending p w)
  end.
Definition quiet {A} (m : M MW A) : Prop := forall p w, m (set_pending p w) = with_pending p (m w).

Lemma quiet_ok {A} (m : M MW A) p w a w' : quiet m -> m w = Ok a w' -> m (set_pending p w) = Ok a (set_pending p w').
Proof. intros Hm H. by rewrite Hm, H. Qed.

Lemma quiet_ret {A} (a : A) : quiet (mret a).
Proof. done. Qed.
Lemma quiet_bind {A B} (m : M MW A) (k : A -> M MW B) : quiet m -> (forall a, quiet (k a)) -> quiet (m ≫= k).
Proof. intros Hm Hk p w. unfold mbind, M_bind. rewrite Hm. destruct (m w); cbn; [apply Hk|done..]. Qed.
Lemma quiet_loop {A} (body : Z -> A -> M MW A) : (forall i a, quiet (body i a)) -> forall n i a, quiet (for_loop n i body a).
Proof. intros Hb. induction n as [|n IH]; intros i a; cbn; [apply quiet_ret|]. by apply quiet_bind. Qed.

Lemma quiet_at o i j : quiet (at_ o i j).
Proof.
  intros p w. unfold at_, get_mat, getW, defined, mbind, M_bind. cbn.
  destruct (mats w !! o) as [h|]; [|done]. cbn. destruct (heap w !! datastart h); [|done]. cbn. by destruct (znth _ _).
Qed.
Lemma quiet_set_at o i j v : quiet (set_at o i j v).
Proof.
  intros p w. unfold set_at, get_mat, getW, putW, defined, mbind, M_bind. cbn.
  destruct (mats w !! o) as [h|]; [|done]. cbn. destruct (heap w !! datastart h); [|done]. cbn. by destruct (zupd _ _ _).
Qed.
Lemma quiet_reference o : quiet (reference o).
Proof.
  intros p w. unfold reference, allocator_reference, get_mat, get_info, getW, defined, mbind, M_bind. cbn.
  destruct (mats w !! o) as [h|]; [|done]. cbn. destruct (znth (arrayInfo w) (refcount h)) as [info|]; [|done].
  case_decide; [|done]. unfold dma_reference, take_answer, upd_info, getW, putW, block, modifyW, mret, M_ret, mbind, M_bind, defined. cbn.
  destruct (ids w) as [|x l]; [done|]. cbn. by destruct (zupd _ _ _).
Qed.
Create HintDb quiet.
#[export] Hint Resolve quiet_ret quiet_bind quiet_loop quiet_at quiet_set_at quiet_reference : quiet.

Lemma quiet_table_entry `{!Expf} tbl N ai : quiet (table_entry tbl N ai).
Proof.
  unfold table_entry. repeat (apply quiet_bind; [auto with quiet|intros _]); [|auto with quiet].
  repeat case_decide; auto with quiet.
Qed.

(** * The device of the sigmoid *)

(** It has [N] entries and takes a table that has the right ones; the limits are
    not acknowledged. *)
Class SigmoidDevice `{!Accelerator} `{!Expf} (N : Z) : Prop := {
  sd_size mem : acc_run SigmoidTableSize mem = ([], [tableSize N]);
  sd_limits mem : acc_run (SigmoidSetLimits (float_of_double (fscale N)) (float_of_Z (-8)) (float_of_Z 8)) mem = ([], []);
  sd_update mem ref l old : mem ref = Some l -> (forall k, 0 <= k < 4 * N -> znth l k = Some (table_cell N old k)) ->
    exists a, acc_run (SigmoidUpdateTable ref 0 N) mem = ([], [tableUpdated a])
}.

(** A matrix without an array that goes out of scope is not counted any more. *)
Lemma size_filter_new (P : gset nat) (Q : nat -> Prop) `{!forall x, Decision (Q x)} o : o ∉ P -> Q o ->
  size (filter Q ({[o]} ∪ P)) = S (size (filter Q P)).
Proof.
  intros Ho HQ. replace (filter Q ({[o]} ∪ P)) with ({[o]} ∪ filter Q P).
  - rewrite size_union, size_singleton; [done|]. set_solver.
  - apply set_eq. intros x. rewrite elem_of_union, !elem_of_filter, elem_of_union, elem_of_singleton. naive_solver.
Qed.

Lemma wfs_drop P n m w o : wfs ({[o]} ∪ P) n m w -> o ∉ P -> mats w !! o = Some Mat0 -> wfs P (S n) (S m) w.
Proof.
  intros Hw Ho H0. unfold wfs, empties, unregistered in *.
  rewrite !size_filter_new, !Nat.add_succ_r in Hw; [|done|unfold registered; rewrite H0; naive_solver|done|done].
  destruct Hw. split; try done.
  - intros x Hx. apply wf_mats. apply elem_of_union. by right.
  - intros x y h h' Hx Hy. apply wf_sep; apply elem_of_union; by right.
Qed.

Section Configure.
Context {AS : AlignSize} {CV : OpenCV} {AC : Accelerator} {EX : Expf}.

(** ** Waits *)

(** A request that writes nothing is served. *)
Lemma wait_step w r l inds w1 : mul_sem w = 0 -> acc_run r (object w) = ([], inds) ->
  handle_all inds (set_pending l w) = Ok tt w1 -> sem_wait_loop (r :: l) w = sem_wait_loop l w1.
Proof.
  intros Hs Hr Hh. cbn [sem_wait_loop]. unfold mbind at 1, M_bind at 1, getW at 1. rewrite Hs, decide_False by lia.
  rewrite (bind_ok _ _ _ tt (set_pending l w)) by done. unfold serve. rewrite !bind_assoc.
  unfold mbind at 1, M_bind at 1, getW at 1. change (object (set_pending l w)) with (object w). rewrite Hr. cbn [foldr].
  rewrite !bind_assoc. rewrite (bind_ok _ _ _ tt (set_pending l w)) by done. by rewrite (bind_ok _ _ _ _ _ Hh).
Qed.
Lemma wait_over w l : mul_sem w = 1 -> sem_wait_loop l w = Ok tt (set_mul_sem 0 w).
Proof. intros H. destruct l; cbn; unfold mbind, M_bind, getW; rewrite H; by rewrite decide_True by lia. Qed.

Lemma size_served P n m w N : SigmoidDevice N -> wfs P n m w ->
  exists w', (send SigmoidTableSize ;; sem_wait) w = Ok tt w' /\ core w' = core w /\ mul_sem w' = mul_sem w /\ tableSize_ w' = N.
Proof.
  intros HD Hw. destruct (wf_idle _ _ _ _ Hw) as [Hpend Hsem].
  unfold send, sem_wait. rewrite (bind_ok _ _ _ tt (set_pending [SigmoidTableSize] w)) by (unfold modifyW; by rewrite Hpend).
  unfold mbind, M_bind, getW. cbn [pending set_pending].
  erewrite wait_step; [|done|apply sd_size|reflexivity]. rewrite wait_over by (cbn; lia).
  eexists. split; [reflexivity|]. destruct w; cbn in *. by subst.
Qed.

(** The limits are taken while the program waits for the table. *)
Lemma table_served P n m w N ref l old : SigmoidDevice N -> wfs P n m w -> object w ref = Some l ->
  (forall k, 0 <= k < 4 * N -> znth l k = Some (table_cell N old k)) ->
  let lim := SigmoidSetLimits (float_of_double (fscale N)) (float_of_Z (-8)) (float_of_Z 8) in
  exists w', (send (SigmoidUpdateTable ref 0 N) ;; sem_wait) (set_pending [lim] w) = Ok tt w' /\
    core w' = core w /\ mul_sem w' = mul_sem w.
Proof.
  intros HD Hw Hl Ht lim. destruct (wf_idle _ _ _ _ Hw) as [Hpend Hsem].
  destruct (sd_update (object w) ref l old Hl Ht) as [a Ha].
  unfold send, sem_wait. rewrite (bind_ok _ _ _ tt (set_pending [lim; SigmoidUpdateTable ref 0 N] w)) by done.
  unfold mbind, M_bind, getW. cbn [pending set_pending].
  erewrite wait_step; [|done|apply sd_limits|reflexivity].
  erewrite wait_step; [|done|exact Ha|reflexivity]. rewrite wait_over by (cbn; lia).
  eexists. split; [reflexivity|]. destruct w; cbn in *. by subst.
Qed.

(** The array of a matrix that was filled, and its reference. *)
Lemma filled_reference P n m w o r c g : wfs P n m w -> o ∈ P -> 0 < r -> mat_is w o r c g ->
  exists ref w' h info b, wfs P n m w' /\ same_data w w' /\ mats w' !! o = Some h /\ owns w' h info b /\ object w' ref = Some b /\
    (forall i j, 0 <= i < r -> 0 <= j < c -> znth b (i * c + j) = Some (g i j)) /\
    reference o w = Ok ref w'.
Proof.
  intros Hw Ho Hr Hm. destruct (mat_is_array _ _ _ _ _ _ _ _ Hw Ho Hr Hm) as (h & info & b & Hh & Hown & _ & _ & _ & He).
  destruct (reference_result P n m w o h info b Hw Ho Hh Hown) as (ref & w' & i' & R & W & D & O & E).
  assert (Hh' : mats w' !! o = Some h) by (by rewrite (proj1 D)).
  exists ref, w', h, i', b. split; [done|]. split; [done|]. split; [done|]. split; [done|].
  split; [by eapply owns_object|]. done.
Qed.

(** Between the answer to the first request and the end of the scope: the table
    is made, filled and handed over. *)
Lemma table_loaded P n m w tbl N : SigmoidDevice N -> wfs P n m w -> tbl ∈ P -> mats w !! tbl = Some Mat0 ->
  0 < N -> 4 * N < 2 ^ 31 ->
  exists w' h info b, wfs P n m w' /\ frame tbl w w' /\ mats w' !! tbl = Some h /\ owns w' h info b /\
    (create tbl 1 (4 * N) ;;
     send (SigmoidSetLimits (float_of_double (fscale N)) (float_of_Z (-8)) (float_of_Z 8)) ;;
     reference tbl ;;
     for_loop (Z.to_nat N) 0 (fun ai _ => table_entry tbl N ai) tt ;;
     reference tbl ;;
     ref ← reference tbl;
     send (SigmoidUpdateTable ref 0 N) ;;
     sem_wait) w = Ok tt w'.
Proof.
  intros HD Hw Ht H0 HN HN2.
  destruct (create_shaped P n m w tbl 1 (4 * N)) as (w1 & R1 & W1 & F1 & h & info & b & Hh & Hown & Hr & Hc);
    [by rewrite cost_empty|done|split; lia|]. rewrite (bind_ok _ _ _ _ _ R1).
  destruct (wf_idle _ _ _ _ W1) as [Hp1 _]. set (lim := SigmoidSetLimits _ _ _).
  assert (RL : send lim w1 = Ok tt (set_pending [lim] w1)) by (unfold send, modifyW; by rewrite Hp1).
  rewrite (bind_ok _ _ _ _ _ RL).
  destruct (reference_result P n m w1 tbl h info b W1 Ht Hh Hown) as (ref & w2 & i2 & R2 & W2 & D2 & O2 & _).
  rewrite (bind_ok _ _ _ _ _ (quiet_ok _ [lim] _ _ _ (quiet_reference tbl) R2)).
  assert (Hh2 : mats w2 !! tbl = Some h) by (by rewrite (proj1 D2)). pose proof (owns_len _ _ _ _ O2) as Hlen.
  destruct (sigmoid_table P n m w2 tbl h i2 b N (fun k => default fzero (znth b k)) W2 Ht Hh2 O2 Hr Hc) as (w3 & R3 & W3 & F3 & M3).
  { intros k Hk. destruct (znth_in_range b k) as [x Hx]; [rewrite Hr, Hc in Hlen; lia|]. by rewrite Hx. }
  rewrite (bind_ok _ _ _ tt (set_pending [lim] w3))
    by (apply quiet_ok; [apply quiet_loop; intros; apply quiet_table_entry|exact R3]).
  destruct (filled_reference P n m w3 tbl 1 (4 * N) _ W3 Ht ltac:(lia) M3) as (ref3 & w3' & _ & _ & _ & W3' & D3 & _ & _ & _ & _ & R3').
  rewrite (bind_ok _ _ _ _ _ (quiet_ok _ [lim] _ _ _ (quiet_reference tbl) R3')).
  destruct (filled_reference P n m w3' tbl 1 (4 * N) _ W3' Ht ltac:(lia) (same_data_mat_is _ _ _ _ _ _ D3 M3))
    as (ref4 & w4 & h4 & i4 & b4 & W4 & D4 & Hh4 & O4 & Ob4 & E4 & R4').
  rewrite (bind_ok _ _ _ _ _ (quiet_ok _ [lim] _ _ _ (quiet_reference tbl) R4')).
  destruct (table_served P n m w4 N ref4 b4 (fun k => default fzero (znth b k)) HD W4 Ob4) as (w5 & R5 & C5 & S5).
  { intros k Hk. specialize (E4 0 k). rewrite Z.mul_0_l, Z.add_0_l in E4. apply E4; lia. }
  exists w5, h4, i4, b4. split; [by apply wfs_core with w4|].
  split; [|split; [|split; [by apply owns_core with w4|exact R5]]].
  - etrans; [done|]. etrans; [apply (same_data_frame _ _ _ D2)|]. etrans; [done|]. etrans; [apply (same_data_frame _ _ _ D3)|].
    etrans; [apply (same_data_frame _ _ _ D4)|].
    by apply frame_core.
  - by injection C5 as ->.
Qed.

(** C21: Loading the table of the sigmoid ends, for every device that accepts a
    table whose entries are the negated angle, its sigmoid, the slope of the
    interval before it (0 for the last entry, unwritten for the first) and 0:
    this table is in the memory the device is told to read when it is told to
    read it, the limits that were sent without waiting are consumed, the memory
    is given back and no other matrix changes.  The identifiers the MMU gives may
    start with 0, as they do in [testrbm], whose first registration this is: the
    table is then registered a second time. *)
Theorem sigmoid_configured (P : gset nat) n m w tbl N : SigmoidDevice N -> wfs P (S (S n)) (S (S m)) w -> tbl ∉ P ->
  0 < N -> 4 * N < 2 ^ 31 ->
  exists w', configureSigmoidTable tbl w = Ok tt w' /\ wfs P (S n) (S m) w' /\ mats w' !! tbl = Some Mat0 /\
    forall o r c g, o ∈ P -> 0 < r -> mat_is w o r c g -> mat_is w' o r c g.
Proof.
  intros HD Hw Ht HN HN2. unfold configureSigmoidTable.
  destruct (size_served P _ _ w N HD Hw) as (w1 & R1 & C1 & S1 & T1).
  rewrite <- bind_assoc. rewrite (bind_ok _ _ _ _ _ R1).
  assert (W1 : wfs P (S (S n)) (S (S m)) w1) by (by apply wfs_core with w).
  unfold mbind at 1, M_bind at 1, getW at 1. rewrite T1. replace (s32 N) with N by (symmetry; apply s32_small; lia).
  destruct (PortalMat_new P _ _ w1 tbl W1) as (w2 & R2 & W2 & M2 & C2). rewrite (bind_ok _ _ _ _ _ R2).
  destruct (table_loaded ({[tbl]} ∪ P) (S n) (S m) w2 tbl N HD W2 ltac:(set_solver) M2 HN HN2)
    as (w3 & h & info & b & W3 & F3 & Hh & Hown & R3).
  destruct (release_wfs _ n m w3 tbl h info b W3 ltac:(set_solver) Hh Hown) as (w4 & R4 & W4 & F4 & M4).
  exists w4. split; [|split; [by apply wfs_drop with tbl|split; [done|]]].
  - rewrite <- R4, <- (bind_ok _ (fun _ => release tbl) _ _ _ R3), !bind_assoc. apply bind_ext. intros _ v. rewrite !bind_assoc.
    repeat (apply bind_ext; intros ? ?; rewrite ?bind_assoc). done.
  - intros o r c g Ho Hr Hm.
    assert (Hne : o <> tbl) by (by intros ->).
    assert (Hm2 : mat_is w2 o r c g).
    { destruct (mat_is_core w w1 o r c g C1 Hm) as (h' & b' & K1 & K2 & K3 & K4 & K5). exists h', b'.
      injection C2 as -> _ _ -> _. by rewrite lookup_insert_ne. }
    destruct (mat_is_array _ _ _ _ _ _ _ _ W2 (elem_of_union_r o {[tbl]} P Ho) Hr Hm2) as (ho & io & bo & Hho & Oo & _).
    eapply (mat_is_frame tbl w2); [by etrans| |done].
    by eapply wf_sep_from; [exact W2|set_solver|set_solver|..].
Qed.
End Configure.

(** * A device that checks its table *)
Module SigmoidDemo.
Import MatDemo.

(** An exponential function of two values, and a table of four entries. *)
#[export] Instance exp_step : Expf := fun x => if flt x fzero then fzero else fone.

#[export] Instance float_eq_dec : EqDecision float.
Proof. solve_decision. Defined.

Definition table_ok (N : Z) (l : list float) : bool :=
  bool_decide (Forall (fun k => znth l k = Some (table_cell N (fun k => default fzero (znth l k)) k)) (seqZ 0 (4 * N))).

#[export] Instance table_engine : Accelerator := fun req mem =>
  match req with
  | SigmoidTableSize => ([], [tableSize 4])
  | SigmoidUpdateTable ref _ n =>
      match mem ref with
      | Some l => if table_ok n l then ([], [tableUpdated 0]) else ([], [])
      | None => ([], [])
      end
  | _ => ([], [])
  end.

Lemma table_cell_own N old l k : znth l k = Some (table_cell N old k) ->
  table_cell N (fun k => default fzero (znth l k)) k = table_cell N old k.
Proof. intros H. unfold table_cell at 1. rewrite H. unfold table_cell. repeat case_decide; done. Qed.

#[export] Instance table_device : SigmoidDevice 4.
Proof.
  split; [done|done|]. intros mem ref l old Hl Ht. exists 0. unfold acc_run, table_engine. rewrite Hl.
  replace (table_ok 4 l) with true; [done|]. symmetry. apply bool_decide_eq_true_2, Forall_forall.
  intros k Hk%elem_of_seqZ. rewrite table_cell_own with (old := old); apply Ht; lia.
Qed.

Lemma sigmoid_configured_witness : exists w', configureSigmoidTable 9 w0 = Ok tt w' /\ mats w' !! 9%nat = Some Mat0.
Proof.
  destruct (sigmoid_configured P0 0 0 w0 9 4) as (w' & R & _ & M & _);
    [apply _|exact w0_wf|by apply (bool_decide_eq_true_1 _); vm_compute|lia|lia|].
  exists w'. split; [exact R|exact M].
Defined.

(** The table in numbers: the slope of the first entry is what the memory held,
    the angles are -8, -4, 0 and 4. *)
Lemma table_example : let old := fun _ => float_of_Z 7 in
  map (fun ai => table_cell 4 old (4 * ai + 0)) [0; 1; 2; 3] = [float_of_Z 8; float_of_Z 4; S754_zero true; float_of_Z (-4)] /\
  map (fun ai => table_cell 4 old (4 * ai + 1)) [0; 1; 2; 3] = [fdiv fone (float_of_Z 2); fdiv fone (float_of_Z 2); fdiv fone (float_of_Z 2); fone] /\
  map (fun ai => table_cell 4 old (4 * ai + 2)) [0; 1; 2; 3] = [float_of_Z 7; fzero; fzero; fzero].
Proof. by vm_compute. Qed.
End SigmoidDemo.
