(* ===== verification/RbmTrain.v ===== *)
(** The training of [Rbm]: what an epoch computes, and that the training ends.

    The state of the program between two operations ([st]) has the matrices of
    [train] in their shapes, what is known of their elements, the random numbers
    still to come, and whether [pos_hidden_probs] shares the array of
    [pm_pos_hidden_activations].  [epoch_weights] is the update the hardware path
    of the code computes.  It differs from contrastive divergence in one place:
    the hidden units of the negative phase are computed from the reconstructed
    visible units without their bias unit, whose column still holds the sigmoid
    of its activation and not 1 ([bias_left_out]). *)

From stdpp Require Import base gmap list option fin_maps.
From Stdlib Require Import ZArith Lia SpecFloat.
From S2P Require Import Prelude FloatArith PortalMat MatFacts MatmulTest Rbm.
#[local] Open Scope list_scope.
#[local] Open Scope Z_scope.

(** * What an epoch computes *)

Section Update.
Variable dot : list float -> list float -> float.
Variable sg : float -> float.
(** [ne] examples, [nv] visible and [nh] hidden units, the bias units included. *)
Variables ne nv nh : Z.

(** The probabilities and the states of the hidden units for the data [D]. *)
Definition hidden_probs (D W : Z -> Z -> float) (i j : Z) : float := sg (dot (row D nv i) (col W nv j)).
Definition hidden_states (D W R : Z -> Z -> float) (i j : Z) : float := state_of (hidden_probs D W i j) (R i j).
(** The probabilities of the visible units for the states [S]. *)
Definition visible_probs (S W : Z -> Z -> float) (i j : Z) : float := sg (dot (row S nh i) (row W nh j)).
Definition associations (V H : Z -> Z -> float) (i j : Z) : float := dot (col V ne i) (col H ne j).

(** The weights after an epoch.  The second pass over the hidden units starts
    from the visible probabilities before their bias column is set to 1; the
    associations use them after it is set. *)
Definition epoch_weights (D W R : Z -> Z -> float) (i j : Z) : float :=
  let V := visible_probs (hidden_states D W R) W in
  weight_update (fdiv fone (float_of_Z ne)) (W i j)
    (associations D (hidden_probs D W) i j)
    (associations (with_bias V) (hidden_probs V W) i j).
Definition epoch_error (err : list float -> list float -> float) (D W R : Z -> Z -> float) : float :=
  err (elems ne nv D) (elems ne nv (with_bias (visible_probs (hidden_states D W R) W))).
End Update.

(** * The state between operations *)

Definition mats_of_train : gset nat := list_to_set (seq 1 18).

Section Train.
Context {AS : AlignSize} {CV : OpenCV} {AC : Accelerator} {EX : Expf}.
Variables (J : Z) (dot : list float -> list float -> float) (sg : float -> float) (err : list float -> list float -> float).
Context {HE : EngineTN J dot} {HD : RbmDevice sg err}.
Variables ne nv nh : Z.
Hypothesis Sev : small ne nv.
Hypothesis Svh : small nv nh.
Hypothesis Seh : small ne nh.

Abbreviation P := mats_of_train.

(** The shape of a matrix of [train]. *)
Definition shape (o : nat) : Z * Z :=
  match o with
  | 1 | 11 | 12 => (ne, nv)
  | 2 | 15 => (nv, ne)
  | 3 | 10 | 17 => (nv, nh)
  | 4 => (nh, nv)
  | 9 | 16 | 18 => (nh, ne)
  | _ => (ne, nh)
  end%nat.

(** What is known of a matrix. *)
Abbreviation fact := (nat * Z * Z * (Z -> Z -> float))%type.
Definition knows (w : MW) (x : fact) : Prop :=
  let '(o, r, c, g) := x in mat_is w o r c g /\ o ∈ P /\ 0 < r.
Definition learn (x : fact) (l : list fact) : list fact :=
  x :: List.filter (fun y : fact => negb (Nat.eqb (y.1.1.1) (x.1.1.1))) l.

Definition aliased (w : MW) : Prop :=
  exists h info, mats w !! pos_hidden_probs = Some h /\ mats w !! pm_pos_hidden_activations = Some h /\
    1 <= refcount h < numarrays w /\ znth (arrayInfo w) (refcount h) = Some info /\ 1 < info_refcount info.

Record st (shared : bool) (d : list double) (l : list fact) (w : MW) : Prop := {
  st_wfs : wfs P 0 0 w;
  st_shape : forall o, o ∈ P -> exists h, mats w !! o = Some h /\ (h = Mat0 \/ (rows h, cols h) = shape o);
  st_knows : Forall (knows w) l;
  st_drand : drand w = d;
  st_alias : shared = true -> aliased w
}.

Lemma st_get b d l w o r c g : st b d l w -> In (o, r, c, g) l -> mat_is w o r c g.
Proof. intros Hs Hin. pose proof (st_knows _ _ _ _ Hs) as Hk. rewrite List.Forall_forall in Hk. by destruct (Hk _ Hin). Qed.

Lemma st_cost b d l w o r c : st b d l w -> o ∈ P -> (r, c) = shape o ->
  wfs P (cost w o r c + 0) (cost w o r c + 0) w.
Proof.
  intros Hs Ho Hsh. destruct (st_shape _ _ _ _ Hs o Ho) as (h & Hh & Hc).
  replace (cost w o r c) with 0%nat; [apply (st_wfs _ _ _ _ Hs)|].
  unfold cost. rewrite Hh. rewrite decide_True; [done|]. destruct Hc as [?|Hc]; [by left|right].
  rewrite <- Hsh in Hc. by injection Hc.
Qed.

(** An operation on [this] is a step of the state. *)
Lemma st_step b d l w w' this r c g : st b d l w -> this ∈ P -> (r, c) = shape this -> 0 < r ->
  (b = true -> this <> pm_pos_hidden_activations) -> result P 0 0 this r c g w w' ->
  st b d (learn (this, r, c, g) l) w'.
Proof.
  intros Hs Ht Hsh Hr Hb (W & F & M). pose proof (st_wfs _ _ _ _ Hs) as Hw. split.
  - done.
  - intros o Ho. destruct (decide (o = this)) as [->|Hne].
    + destruct M as (h & bl & Hh & Hhr & Hhc & _). exists h. split; [done|]. right. by rewrite Hhr, Hhc.
    + destruct F as (_ & _ & Fm & _). rewrite Fm by done. by apply (st_shape _ _ _ _ Hs).
  - constructor; [done|]. pose proof (st_knows _ _ _ _ Hs) as Hk. rewrite List.Forall_forall in Hk |- *.
    intros [[[o r'] c'] g'] [Hin Hne]%filter_In. cbn in Hne. apply negb_true_iff, Nat.eqb_neq in Hne.
    destruct (Hk _ Hin) as (Hm & Ho & Hr'). split; [|done].
    destruct (mat_is_owns _ _ _ _ _ _ _ _ Hw Ho Hr' Hm) as (h & info & bl & Hh & Hown & _).
    eapply mat_is_frame; [done| |done]. by eapply wf_sep_from.
  - destruct F as (_ & _ & _ & Fd). rewrite Fd. apply Hs.
  - intros Hbt. destruct (st_alias _ _ _ _ Hs Hbt) as (h & info & H1 & H2 & H3 & H4 & H5). specialize (Hb Hbt).
    destruct F as (_ & Fc & Fm & _).
    assert (Hcf : count_from w this (refcount h) (info_refcount info)).
    { split; [done|]. split; [|by exists info]. intros ht Hht.
      destruct (wf_cases _ _ _ _ _ _ Hw Ht Hht) as [->|(it & bt & Hot)]; [cbn; lia|].
      destruct (decide (h = Mat0)) as [->|Hn]; [cbn in H3; lia|].
      destruct (wf_sep _ _ _ _ Hw this pm_pos_hidden_activations ht h) as [_ ?]; eauto using owns_not_empty.
      by apply elem_of_list_to_set, elem_of_seq; unfold pm_pos_hidden_activations; lia. }
    destruct (Fc _ _ Hcf) as (K1 & _ & info' & K2 & K3). exists h, info'.
    split; [rewrite Fm; [done|]; intros <-; clear -Ht; apply elem_of_list_to_set, elem_of_seq in Ht; unfold pos_hidden_probs in Ht; lia|].
    split; [by rewrite Fm|]. split; [done|]. split; [done|]. lia.
Qed.

(** ** The operations as steps *)

Lemma small_sym r c : small r c -> small c r.
Proof. intros [(H1 & H2 & H3) H4]. split; [split; [done|split; [done|lia]]|lia]. Qed.

Lemma st_transpose b d l w this o r c g : st b d l w -> this ∈ P -> o ∈ P -> o <> this -> (c, r) = shape this -> small r c ->
  (b = true -> this <> pm_pos_hidden_activations) -> In (o, r, c, g) l ->
  exists w', transpose this o w = Ok true w' /\ st b d (learn (this, c, r, fun i j => g j i) l) w'.
Proof.
  intros Hs Ht Ho Hne Hsh Hsm Hb Hin. pose proof (st_get _ _ _ _ _ _ _ _ Hs Hin) as Hm. pose proof (st_wfs _ _ _ _ Hs) as Hw.
  destruct (mat_is_owns _ _ _ _ _ _ _ _ Hw Ho (proj1 (proj1 Hsm)) Hm) as (h & info & bl & Hh & Hown & _).
  destruct (transpose_result P 0 0 w this o r c g (st_cost _ _ _ _ _ _ _ Hs Ht Hsh) Ht (proj1 Hsm)) as (w' & R & HR).
  { split; [done|]. exists h, bl. by eapply wf_sep_from. }
  exists w'. split; [done|]. eapply st_step; [done|done|done|apply (small_sym _ _ Hsm)|done|done].
Qed.

Lemma st_multf b d l w this a a' r ca cb ga gb : st b d l w -> this ∈ P -> a ∈ P -> a' ∈ P -> a <> this -> a' <> this ->
  (ca, cb) = shape this -> 0 < r -> small ca cb -> (b = true -> this <> pm_pos_hidden_activations) ->
  In (a, r, ca, ga) l -> In (a', r, cb, gb) l ->
  exists w', multf J this a a' w = Ok tt w' /\ st b d (learn (this, ca, cb, fun i j => dot (col ga r i) (col gb r j)) l) w'.
Proof.
  intros Hs Ht Ha Ha' Hna Hna' Hsh Hr Hsm Hb Hin Hin'.
  destruct (multf_result P 0 0 w this a a' J dot r ca cb ga gb HE (st_cost _ _ _ _ _ _ _ Hs Ht Hsh)) as (w' & R & HR);
    [done|done|done|done|done|done|apply Hsm|by eapply st_get|by eapply st_get|].
  exists w'. split; [done|]. eapply st_step; [done|done|done|apply Hsm|done|done].
Qed.

Lemma st_sigmoid b d l w this a r c g : st b d l w -> this ∈ P -> a ∈ P -> a <> this -> (r, c) = shape this -> small r c ->
  (b = true -> this <> pm_pos_hidden_activations) -> In (a, r, c, g) l ->
  exists w', RbmMat_sigmoid this a w = Ok tt w' /\ st b d (learn (this, r, c, fun i j => sg (g i j)) l) w'.
Proof.
  intros Hs Ht Ha Hne Hsh Hsm Hb Hin.
  destruct (sigmoid_result P 0 0 w this a sg err r c g HD (st_cost _ _ _ _ _ _ _ Hs Ht Hsh)) as (w' & R & HR);
    [done|done|done|done|by eapply st_get|].
  exists w'. split; [done|]. eapply st_step; [done|done|done|apply Hsm|done|done].
Qed.

Lemma st_hiddenStates b d l w this a rnd r c g gr : st b d l w -> this ∈ P -> a ∈ P -> rnd ∈ P -> a <> this -> rnd <> this ->
  (r, c) = shape this -> small r c -> (b = true -> this <> pm_pos_hidden_activations) ->
  In (a, r, c, g) l -> In (rnd, r, c, gr) l ->
  exists w', hiddenStates this a rnd w = Ok tt w' /\ st b d (learn (this, r, c, fun i j => state_of (g i j) (gr i j)) l) w'.
Proof.
  intros Hs Ht Ha Hr Hna Hnr Hsh Hsm Hb Hin Hin'.
  destruct (hiddenStates_result P 0 0 w this a rnd sg err r c g gr HD (st_cost _ _ _ _ _ _ _ Hs Ht Hsh)) as (w' & R & HR);
    [done|done|done|done|done|done|by eapply st_get|by eapply st_get|].
  exists w'. split; [done|]. eapply st_step; [done|done|done|apply Hsm|done|done].
Qed.

Lemma st_updateWeights b d l w this pos neg rate r c g gp gn : st b d l w -> this ∈ P -> pos ∈ P -> neg ∈ P ->
  (r, c) = shape this -> small r c -> (b = true -> this <> pm_pos_hidden_activations) ->
  In (this, r, c, g) l -> In (pos, r, c, gp) l -> In (neg, r, c, gn) l ->
  exists w', updateWeights this pos neg rate w = Ok tt w' /\
    st b d (learn (this, r, c, fun i j => weight_update rate (g i j) (gp i j) (gn i j)) l) w'.
Proof.
  intros Hs Ht Hp Hn Hsh Hsm Hb Hin Hinp Hinn.
  destruct (updateWeights_result P 0 0 w this pos neg sg err rate r c g gp gn HD (st_wfs _ _ _ _ Hs)) as (w' & R & HR);
    [done|done|done|done|by eapply st_get|by eapply st_get|by eapply st_get|].
  exists w'. split; [done|]. eapply st_step; [done|done|done|apply Hsm|done|done].
Qed.

Lemma st_bias b d l w this r c g : st b d l w -> this ∈ P -> (r, c) = shape this -> 0 < r -> 0 < c ->
  (b = true -> this <> pm_pos_hidden_activations) -> In (this, r, c, g) l ->
  exists w', for_loop (Z.to_nat r) 0 (fun i _ => set_at this i 0 fone) tt w = Ok tt w' /\
    st b d (learn (this, r, c, with_bias g) l) w'.
Proof.
  intros Hs Ht Hsh Hr Hc Hb Hin.
  destruct (bias_result P 0 0 w this r c g (st_wfs _ _ _ _ Hs) Ht Hr Hc) as (w' & R & HR); [by eapply st_get|].
  exists w'. split; [done|]. by eapply st_step.
Qed.

(** A header that is the same after a fact about its matrix. *)
Lemma st_header b d l w o r c g : st b d l w -> In (o, r, c, g) l ->
  exists h, get_mat o w = Ok h w /\ rows h = r /\ cols h = c.
Proof.
  intros Hs Hin. destruct (st_get _ _ _ _ _ _ _ _ Hs Hin) as (h & bl & Hh & Hr & Hc & _). exists h.
  split; [by apply get_mat_ok|done].
Qed.

(** The random numbers. *)
Lemma st_random b d l w this r c : st b d l w -> this ∈ P -> (r, c) = shape this -> small r c ->
  (b = true -> this <> pm_pos_hidden_activations) -> r * c <= Z.of_nat (length d) ->
  exists w', (create this r c ;; for_mat r c (fun i j _ => x ← drand48; set_at this i j (float_of_double x)) tt) w = Ok tt w' /\
    st b (drop (Z.to_nat (r * c)) d) (learn (this, r, c, random_at d c) l) w'.
Proof.
  intros Hs Ht Hsh Hsm Hb Hl.
  destruct (create_shaped P 0 0 w this r c (st_cost _ _ _ _ _ _ _ Hs Ht Hsh) Ht (proj1 Hsm))
    as (w1 & R1 & W1 & F1 & h & info & bl & Hh & Hown & <- & <-).
  assert (Hd1 : drand w1 = d) by (destruct F1 as (_ & _ & _ & ->); apply Hs).
  destruct (random_result P 0 0 w1 this h info bl W1 Ht Hh Hown) as (w2 & R2 & W2 & F2 & M2); [by rewrite Hd1|].
  rewrite (bind_ok _ _ _ _ _ R1). eexists. split; [exact R2|]. rewrite Hd1 in *.
  assert (S2 : st b d (learn (this, rows h, cols h, random_at d (cols h)) l) w2).
  { eapply st_step; [done|done|done|apply Hsm|done|]. split; [done|]. split; [by etrans|done]. }
  destruct S2 as [Q1 Q2 Q3 Q4 Q5]. split; [by apply wfs_drand|done|done|done|done].
Qed.

(** ** The second header of the activations *)

Lemma alias_outside : pos_hidden_probs ∉ P.
Proof. intros H. apply elem_of_list_to_set, elem_of_seq in H. unfold pos_hidden_probs in H. lia. Qed.
Lemma activations_inside : pm_pos_hidden_activations ∈ P.
Proof. apply elem_of_list_to_set, elem_of_seq. unfold pm_pos_hidden_activations. lia. Qed.

Lemma st_recounted b d l w ho h info bl y : st b d l w -> mats w !! pm_pos_hidden_activations = Some h -> owns w h info bl ->
  1 <= y -> st false d l (recounted pos_hidden_probs ho h info y w).
Proof.
  intros Hs Hh Hown Hy.
  assert (Hm : forall o, o ∈ P -> mats (recounted pos_hidden_probs ho h info y w) !! o = mats w !! o).
  { intros o Ho. cbn. rewrite lookup_insert_ne; [done|]. intros <-. by apply alias_outside. }
  split; [|intros o Ho; rewrite Hm by done; by apply (st_shape _ _ _ _ Hs)| |apply Hs|done].
  - eapply recounted_wfs; [apply Hs|apply activations_inside|done|done|apply alias_outside|done].
  - eapply Forall_impl; [apply (st_knows _ _ _ _ Hs)|]. intros [[[o r] c] g] ((h' & b' & H1 & H2) & Ho & Hr).
    split; [|done]. exists h', b'. by rewrite Hm.
Qed.

Lemma st_share d l w r c g : st false d l w -> small r c -> (r, c) = shape pm_pos_hidden_activations ->
  In (pm_pos_hidden_activations, r, c, g) l ->
  exists w', cpu_pos_hidden_probs w = Ok tt w' /\
    st true d (learn (pm_pos_hidden_activations, r, c, fun i j => sigmoid (g i j)) l) w'.
Proof.
  intros Hs Hsm Hsh Hin. pose proof (st_wfs _ _ _ _ Hs) as Hw.
  destruct (mat_is_array _ _ _ _ _ _ _ _ Hw activations_inside (proj1 (proj1 Hsm)) (st_get _ _ _ _ _ _ _ _ Hs Hin))
    as (h & info & bl & Hh & Hown & Hr & Hc & Hl & He).
  unfold cpu_pos_hidden_probs. rewrite (bind_ok _ _ _ _ _ (share_ok _ _ _ _ _ _ _ _ pos_hidden_probs Hw Hh Hown)).
  pose proof (owns_count _ _ _ _ Hown) as Hcnt. pose proof (owns_num _ _ _ _ Hown) as Hnum. pose proof (wf_len _ _ _ _ Hw). pose proof (wf_num _ _ _ _ Hw).
  set (w1 := recounted _ _ _ _ _ w).
  assert (S1 : st false d l w1) by (eapply st_recounted; [done|done|done|lia]).
  assert (Hh1 : mats w1 !! pm_pos_hidden_activations = Some h) by (cbn; by rewrite lookup_insert_ne).
  assert (Ha1 : mats w1 !! pos_hidden_probs = Some h) by (cbn; by rewrite lookup_insert_eq).
  assert (Hi1 : znth (arrayInfo w1) (refcount h) = Some (set_info_refcount (info_refcount info + 1) info)).
  { cbn. unfold znth. rewrite decide_True by lia. by rewrite list_lookup_insert_eq by lia. }
  destruct (wf_cases _ _ _ _ _ _ (st_wfs _ _ _ _ S1) activations_inside Hh1) as [->|(i1 & b1 & Hown1)]; [by destruct (owns_data _ _ _ _ Hown)|].
  rewrite (bind_ok _ _ _ _ _ (get_mat_ok _ _ _ Hh1)), Hr, Hc.
  destruct (alias_result P 0 0 w1 pm_pos_hidden_activations pos_hidden_probs h i1 b1 r c g sigmoid) as (w2 & R2 & HR2 & b2 & E2);
    [apply S1|apply activations_inside|done|done|done|done|done|by eapply st_get|].
  exists w2. split; [done|].
  assert (S2 : st false d (learn (pm_pos_hidden_activations, r, c, fun i j => sigmoid (g i j)) l) w2)
    by (eapply st_step; [done|apply activations_inside|done|apply Hsm|done|done]).
  destruct S2 as [Q1 Q2 Q3 Q4 _]. split; [done..|]. intros _. subst w2. exists h, (set_info_refcount (info_refcount info + 1) info).
  split; [done|]. split; [done|]. split; [done|]. split; [done|]. cbn. lia.
Qed.

Lemma st_release d l w : st true d l w -> exists w', release pos_hidden_probs w = Ok tt w' /\ st false d l w'.
Proof.
  intros Hs. destruct (st_alias _ _ _ _ Hs eq_refl) as (h & info & H1 & H2 & H3 & H4 & H5). pose proof (st_wfs _ _ _ _ Hs) as Hw.
  destruct (wf_cases _ _ _ _ _ _ Hw activations_inside H2) as [->|(i1 & b1 & Hown)]; [cbn in H3; lia|].
  assert (i1 = info) as -> by (pose proof (owns_info _ _ _ _ Hown); congruence).
  eexists. split; [by eapply release_other|]. eapply st_recounted; [done|done|done|lia].
Qed.

(** ** The phases *)

Lemma st_weaken b d l l' w : st b d l w -> (forall x, In x l' -> In x l) -> st b d l' w.
Proof.
  intros [Q1 Q2 Q3 Q4 Q5] Hl. split; try done. rewrite List.Forall_forall in Q3 |- *. auto.
Qed.

Ltac inside := apply elem_of_list_to_set, elem_of_seq; cbv; lia.
Ltac known := cbn; repeat (first [left; reflexivity|right]).

Lemma positive_phase_result d D W w : st false d [(pmData, ne, nv, D); (pmDataT, nv, ne, fun i j => D j i); (pmWeights, nv, nh, W)] w ->
  ne * nh <= Z.of_nat (length d) ->
  exists w', positive_phase J w = Ok tt w' /\ st true (drop (Z.to_nat (ne * nh)) d)
    [(pmData, ne, nv, D); (pmDataT, nv, ne, fun i j => D j i); (pmWeights, nv, nh, W); (pmWeightsT, nh, nv, fun i j => W j i);
     (pm_pos_hidden_states, ne, nh, hidden_states dot sg nv D W (random_at d nh));
     (pm_pos_associations, nv, nh, associations dot ne D (hidden_probs dot sg nv D W))] w'.
Proof.
  intros S0 Hd. unfold positive_phase.
  destruct (st_transpose _ _ _ _ pmWeightsT pmWeights nv nh W S0) as (w1 & R1 & S1); [inside|inside|done|done|done|done|known|].
  rewrite (bind_ok _ _ _ _ _ R1).
  destruct (st_multf _ _ _ _ pm_pos_hidden_activations pmDataT pmWeights nv ne nh (fun i j => D j i) W S1) as (w2 & R2 & S2);
    [inside|inside|inside|done|done|done|apply Svh|done|done|known|known|].
  rewrite (bind_ok _ _ _ _ _ R2).
  set (act := fun i j => dot (row D nv i) (col W nv j)).
  destruct (st_sigmoid _ _ _ _ pm_pos_hidden_probs pm_pos_hidden_activations ne nh act S2) as (w3 & R3 & S3);
    [inside|inside|done|done|done|done|known|].
  rewrite (bind_ok _ _ _ _ _ R3).
  destruct (st_share _ _ _ ne nh act S3) as (w4 & R4 & S4); [done|done|known|]. rewrite (bind_ok _ _ _ _ _ R4).
  destruct (st_header _ _ _ _ pm_pos_hidden_probs ne nh (hidden_probs dot sg nv D W) S4) as (h4 & H4 & Hr4 & Hc4); [known|].
  destruct (st_random _ _ _ _ pm_rand_mat ne nh S4) as (w5 & R5 & S5); [inside|done|done|done|done|].
  rewrite (bind_ok _ _ _ tt w5) by (unfold random_matrix; rewrite (bind_ok _ _ _ _ _ H4), Hr4, Hc4; exact R5).
  destruct (st_hiddenStates _ _ _ _ pm_pos_hidden_states pm_pos_hidden_probs pm_rand_mat ne nh (hidden_probs dot sg nv D W) (random_at d nh) S5)
    as (w6 & R6 & S6); [inside|inside|inside|done|done|done|done|done|known|known|]. rewrite (bind_ok _ _ _ _ _ R6).
  destruct (st_transpose _ _ _ _ pm_pos_hidden_probsT pm_pos_hidden_probs ne nh (hidden_probs dot sg nv D W) S6) as (w7 & R7 & S7);
    [inside|inside|done|done|done|done|known|]. rewrite (bind_ok _ _ _ _ _ R7).
  destruct (st_multf _ _ _ _ pm_pos_associations pmData pm_pos_hidden_probs ne nv nh D (hidden_probs dot sg nv D W) S7) as (w8 & R8 & S8);
    [inside|inside|inside|done|done|done|apply Sev|done|done|known|known|].
  exists w8. split; [exact R8|]. eapply st_weaken; [exact S8|]. intros x Hx. cbn in Hx.
  destruct_or! Hx; subst; try done; known.
Qed.

Lemma negative_phase_result d D W S A w : st true d
    [(pmData, ne, nv, D); (pmDataT, nv, ne, fun i j => D j i); (pmWeights, nv, nh, W); (pmWeightsT, nh, nv, fun i j => W j i);
     (pm_pos_hidden_states, ne, nh, S); (pm_pos_associations, nv, nh, A)] w ->
  exists w', negative_phase J w = Ok tt w' /\ st true d
    [(pmData, ne, nv, D); (pmDataT, nv, ne, fun i j => D j i); (pmWeights, nv, nh, W); (pm_pos_associations, nv, nh, A);
     (pm_neg_visible_probs, ne, nv, with_bias (visible_probs dot sg nh S W));
     (pm_neg_associations, nv, nh, associations dot ne (with_bias (visible_probs dot sg nh S W))
                                     (hidden_probs dot sg nv (visible_probs dot sg nh S W) W))] w'.
Proof.
  intros S0. unfold negative_phase. set (V := visible_probs dot sg nh S W).
  assert (Hnh : 0 < nh) by apply Seh. assert (Hnv : 0 < nv) by apply Svh. assert (Hne : 0 < ne) by apply Sev.
  destruct (st_transpose _ _ _ _ pm_pos_hidden_statesT pm_pos_hidden_states ne nh S S0) as (w1 & R1 & S1);
    [inside|inside|done|done|done|done|known|]. rewrite (bind_ok _ _ _ _ _ R1).
  destruct (st_multf _ _ _ _ pm_neg_visible_activations pm_pos_hidden_statesT pmWeightsT nh ne nv (fun i j => S j i) (fun i j => W j i) S1)
    as (w2 & R2 & S2); [inside|inside|inside|done|done|done|done|done|done|known|known|]. rewrite (bind_ok _ _ _ _ _ R2).
  destruct (st_sigmoid _ _ _ _ pm_neg_visible_probs pm_neg_visible_activations ne nv (fun i j => dot (row S nh i) (row W nh j)) S2)
    as (w3 & R3 & S3); [inside|inside|done|done|done|done|known|]. rewrite (bind_ok _ _ _ _ _ R3).
  destruct (st_transpose _ _ _ _ pm_neg_visible_probsT pm_neg_visible_probs ne nv V S3) as (w4 & R4 & S4);
    [inside|inside|done|done|done|done|known|]. rewrite (bind_ok _ _ _ _ _ R4).
  destruct (st_header _ _ _ _ pm_neg_visible_probs ne nv V S4) as (h4 & H4 & Hr4 & _); [known|].
  destruct (st_bias _ _ _ _ pm_neg_visible_probs ne nv V S4) as (w5 & R5 & S5); [inside|done|done|done|done|known|].
  rewrite (bind_ok _ _ _ tt w5) by (unfold visible_bias; rewrite (bind_ok _ _ _ _ _ H4), Hr4; exact R5).
  destruct (st_multf _ _ _ _ pm_neg_hidden_activations pm_neg_visible_probsT pmWeights nv ne nh (fun i j => V j i) W S5)
    as (w6 & R6 & S6); [inside|inside|inside|done|done|done|done|done|done|known|known|]. rewrite (bind_ok _ _ _ _ _ R6).
  destruct (st_sigmoid _ _ _ _ pm_neg_hidden_probs pm_neg_hidden_activations ne nh (fun i j => dot (row V nv i) (col W nv j)) S6)
    as (w7 & R7 & S7); [inside|inside|done|done|done|done|known|]. rewrite (bind_ok _ _ _ _ _ R7).
  destruct (st_transpose _ _ _ _ pm_neg_visible_probsT pm_neg_visible_probs ne nv (with_bias V) S7) as (w8 & R8 & S8);
    [inside|inside|done|done|done|done|known|]. rewrite (bind_ok _ _ _ _ _ R8).
  destruct (st_transpose _ _ _ _ pm_neg_hidden_probsT pm_neg_hidden_probs ne nh (hidden_probs dot sg nv V W) S8) as (w9 & R9 & S9);
    [inside|inside|done|done|done|done|known|]. rewrite (bind_ok _ _ _ _ _ R9).
  destruct (st_multf _ _ _ _ pm_neg_associations pm_neg_visible_probs pm_neg_hidden_probs ne nv nh (with_bias V) (hidden_probs dot sg nv V W) S9)
    as (w10 & R10 & S10); [inside|inside|inside|done|done|done|done|done|done|known|known|].
  exists w10. split; [exact R10|]. eapply st_weaken; [exact S10|]. intros x Hx. cbn in Hx.
  destruct_or! Hx; subst; try done; known.
Qed.

Lemma st_same b d l w w' : st b d l w -> wfs P 0 0 w' -> same_data w w' -> st b d l w'.
Proof.
  intros Hs W Hd. pose proof Hd as (H1 & H2 & _ & H4 & _ & H6 & H7). split.
  - done.
  - rewrite H1. apply Hs.
  - eapply Forall_impl; [apply (st_knows _ _ _ _ Hs)|]. intros [[[o r] c] g] (Hm & Ho & Hr). split; [|done].
    by eapply same_data_mat_is.
  - rewrite H4. apply Hs.
  - intros Hb. destruct (st_alias _ _ _ _ Hs Hb) as (h & info & K1 & K2 & K3 & K4 & K5).
    destruct (H6 _ _ K4) as (info' & L1 & _ & L2 & _). exists h, info'. rewrite H1, H7, L2. done.
Qed.

Lemma epoch_result d D W w : st false d [(pmData, ne, nv, D); (pmDataT, nv, ne, fun i j => D j i); (pmWeights, nv, nh, W)] w ->
  ne * nh <= Z.of_nat (length d) ->
  exists w', epoch J ne w = Ok (epoch_error dot sg ne nv nh err D W (random_at d nh)) w' /\
    st false (drop (Z.to_nat (ne * nh)) d)
      [(pmData, ne, nv, D); (pmDataT, nv, ne, fun i j => D j i); (pmWeights, nv, nh, epoch_weights dot sg ne nv nh D W (random_at d nh))] w'.
Proof.
  intros S0 Hd. unfold epoch.
  destruct (positive_phase_result d D W w S0 Hd) as (w1 & R1 & S1). rewrite (bind_ok _ _ _ _ _ R1).
  destruct (negative_phase_result _ D W _ _ w1 S1) as (w2 & R2 & S2). rewrite (bind_ok _ _ _ _ _ R2).
  set (V := visible_probs dot sg nh (hidden_states dot sg nv D W (random_at d nh)) W) in *.
  destruct (st_updateWeights _ _ _ _ pmWeights pm_pos_associations pm_neg_associations (fdiv fone (float_of_Z ne)) nv nh W
    (associations dot ne D (hidden_probs dot sg nv D W)) (associations dot ne (with_bias V) (hidden_probs dot sg nv V W)) S2)
    as (w3 & R3 & S3); [inside|inside|inside|done|done|done|known|known|known|]. rewrite (bind_ok _ _ _ _ _ R3).
  destruct (sumOfErrorSquared_result P 0 0 w3 pmData pm_neg_visible_probs sg err ne nv D (with_bias V) HD (st_wfs _ _ _ _ S3))
    as (w4 & R4 & W4 & D4 & E4); [inside|inside|done|eapply st_get; [exact S3|known]|eapply st_get; [exact S3|known]|].
  rewrite (bind_ok _ _ _ _ _ R4).
  pose proof (st_same _ _ _ _ _ S3 W4 D4) as S4.
  rewrite (bind_ok _ _ _ w4 w4) by done.
  destruct (st_release _ _ _ S4) as (w5 & R5 & S5). rewrite (bind_ok _ _ _ _ _ R5).
  exists w5. split; [by rewrite E4|]. eapply st_weaken; [exact S5|]. intros x Hx. cbn in Hx.
  destruct_or! Hx; subst; try done; known.
Qed.

(** The weights and the errors of the epochs. *)
Fixpoint training (n : nat) (d : list double) (D W : Z -> Z -> float) : list float * (Z -> Z -> float) :=
  match n with
  | O => ([], W)
  | S n =>
      let '(l, W') := training n (drop (Z.to_nat (ne * nh)) d) D (epoch_weights dot sg ne nv nh D W (random_at d nh)) in
      (epoch_error dot sg ne nv nh err D W (random_at d nh) :: l, W')
  end.

Lemma epochs_result n : forall d D W w,
  st false d [(pmData, ne, nv, D); (pmDataT, nv, ne, fun i j => D j i); (pmWeights, nv, nh, W)] w ->
  Z.of_nat n * (ne * nh) <= Z.of_nat (length d) ->
  exists w', epochs J n ne w = Ok (training n d D W).1 w' /\ mat_is w' pmWeights nv nh (training n d D W).2.
Proof.
  induction n as [|n IH]; intros d D W w Hs Hd; cbn [epochs training].
  - exists w. split; [done|]. eapply st_get; [exact Hs|known].
  - destruct (epoch_result d D W w Hs) as (w1 & R1 & S1); [destruct Seh as [(? & ? & _) _]; nia|].
    rewrite (bind_ok _ _ _ _ _ R1).
    destruct (IH _ _ _ _ S1) as (w2 & R2 & M2); [rewrite length_drop; destruct Seh as [(? & ? & _) _]; nia|].
    rewrite (bind_ok _ _ _ _ _ R2). exists w2. destruct (training n _ _ _) as [l W'] eqn:E. cbn in *. done.
Qed.

(** * The whole training *)

Definition initial_weight (d : double) : float := float_of_double (dmul (ddiv (double_of_Z 1) (double_of_Z 10)) d).

Lemma outside_wfs n m w a b b' : wfs ∅ n m w -> heap w !! a = Some b -> wfs ∅ n m (setb a b' w).
Proof.
  intros Hw Hb. unfold wfs in *. change (empties ∅ (setb a b' w)) with (empties ∅ w).
  change (unregistered ∅ (setb a b' w)) with (unregistered ∅ w). split; try apply Hw; [set_solver|].
  destruct (wf_addrs _ _ _ _ Hw) as [(H1 & H2 & H3) H4]. split; [|done]. split; [done|]. split; [done|].
  intros x Hx. cbn. rewrite lookup_insert_ne; [auto|]. intros <-. apply H3 in Hx. congruence.
Qed.

(** A plain matrix with its header and data. *)
Definition plain_at (w : MW) (o : nat) (h : Mat) (g : Z -> Z -> float) : Prop :=
  mats w !! o = Some h /\ datastart h <> 0 /\ plain w o (rows h) (cols h) g.

Lemma plain_at_setb w o h g a b : plain_at w o h g -> datastart h <> a -> plain_at (setb a b w) o h g.
Proof.
  intros (Hh & Hd & (h1 & b1 & K1 & K2 & K3 & K4 & K5) & h2 & b2 & L1 & L2 & L3) Hne. simplify_eq.
  split; [done|]. split; [done|]. split; [exists h, b1|exists h, b1]; cbn; rewrite lookup_insert_ne by done; done.
Qed.

Lemma plain_at_array w o h g : plain_at w o h g -> exists b, heap w !! datastart h = Some b /\
  rows h * cols h <= Z.of_nat (length b) /\
  forall i j, 0 <= i < rows h -> 0 <= j < cols h -> znth b (i * cols h + j) = Some (g i j).
Proof. intros (Hh & Hd & (h1 & b1 & K1 & K2 & K3 & K4 & K5) & _). simplify_eq. eauto. Qed.

Lemma plain_at_new w o h b' g g' : plain_at w o h g ->
  (forall i j, 0 <= i < rows h -> 0 <= j < cols h -> znth b' (i * cols h + j) = Some (g' i j)) ->
  rows h * cols h <= Z.of_nat (length b') -> plain_at (setb (datastart h) b' w) o h g'.
Proof.
  intros (Hh & Hd & _) He Hl. split; [done|]. split; [done|]. split.
  - exists h, b'. split; [done|]. split; [done|]. split; [done|]. split; [cbn; by rewrite lookup_insert_eq|done].
  - exists h, b'. split; [done|]. split; [done|]. cbn. by rewrite lookup_insert_eq.
Qed.

Lemma construct_all_result l : forall Q n m w, NoDup l -> wfs Q (length l + n) (length l + m) w ->
  exists w', construct_all l w = Ok tt w' /\ wfs (list_to_set l ∪ Q) n m w' /\ drand w' = drand w /\ heap w' = heap w /\
    (forall o, o ∈ l -> mats w' !! o = Some Mat0) /\ (forall o, o ∉ l -> mats w' !! o = mats w !! o).
Proof.
  induction l as [|o l IH]; intros Q n m w Hnd Hw; cbn [construct_all].
  - exists w. split; [done|]. split; [|split; [done|split; [done|split; [set_solver|done]]]].
    assert (list_to_set (@nil nat) ∪ Q = Q) as -> by set_solver. done.
  - apply NoDup_cons in Hnd as [Hno Hnd]. cbn [length Nat.add] in Hw.
    destruct (PortalMat_new Q _ _ w o Hw) as (w1 & R1 & W1 & M1 & C1). rewrite (bind_ok _ _ _ _ _ R1).
    destruct (IH _ _ _ w1 Hnd W1) as (w2 & R2 & W2 & D2 & H2 & E2 & K2). exists w2. split; [done|].
    assert (list_to_set (o :: l) ∪ Q = list_to_set l ∪ ({[o]} ∪ Q)) as -> by set_solver.
    split; [done|]. split; [rewrite D2; by injection C1|]. split; [rewrite H2; by injection C1|]. split.
    + intros x [->|Hx]%elem_of_cons; [by rewrite K2|by apply E2].
    + intros x [Hx1 Hx2]%not_elem_of_cons. rewrite K2 by done. injection C1 as ->. by rewrite lookup_insert_ne.
Qed.

Lemma train_started w D W : wfs ({[pmWeights]} ∪ ({[pmDataT]} ∪ ({[pmData]} ∪ ∅))) 15 15 w ->
  plain w pmData ne nv D -> plain w pmDataT nv ne (fun i j => D j i) -> plain w pmWeights nv nh W ->
  exists w', construct_all default_constructed w = Ok tt w' /\
    st false (drand w) [(pmData, ne, nv, D); (pmDataT, nv, ne, fun i j => D j i); (pmWeights, nv, nh, W)] w'.
Proof.
  intros Hw H1 H2 H3.
  destruct (construct_all_result default_constructed _ 0 0 w ltac:(by apply (bool_decide_eq_true_1 _); vm_compute) Hw)
    as (w' & R & W' & D' & Hh & E' & K').
  assert (HP : list_to_set default_constructed ∪ ({[pmWeights]} ∪ ({[pmDataT]} ∪ ({[pmData]} ∪ ∅))) = P) by (by vm_compute).
  rewrite HP in W'.
  assert (Hk : forall o r c g, o ∉ default_constructed -> plain w o r c g -> mat_is w' o r c g).
  { intros o r c g Ho ((h & b & Hm) & _). exists h, b. by rewrite K', Hh. }
  assert (N : forall o, (o < 4)%nat -> o ∉ default_constructed).
  { assert (HF : Forall (fun x => 4 <= x)%nat default_constructed) by (by apply (bool_decide_eq_true_1 _); vm_compute).
    rewrite Forall_forall in HF. intros o Ho Hin. specialize (HF _ Hin). lia. }
  exists w'. split; [done|]. split; [done| | |done|done].
  - intros o Ho. destruct (decide (o ∈ default_constructed)) as [Hin|Hin]; [exists Mat0; split; [by apply E'|by left]|].
    assert (o = pmData \/ o = pmDataT \/ o = pmWeights) as Ho3.
    { rewrite <- HP in Ho. rewrite !elem_of_union, elem_of_list_to_set, !elem_of_singleton in Ho. set_solver. }
    destruct Ho3 as [->|[->| ->]].
    + destruct (Hk _ _ _ _ (N pmData ltac:(cbv; lia)) H1) as (h & b & Hm & Hr & Hc & _). exists h. split; [done|]. right. by rewrite Hr, Hc.
    + destruct (Hk _ _ _ _ (N pmDataT ltac:(cbv; lia)) H2) as (h & b & Hm & Hr & Hc & _). exists h. split; [done|]. right. by rewrite Hr, Hc.
    + destruct (Hk _ _ _ _ (N pmWeights ltac:(cbv; lia)) H3) as (h & b & Hm & Hr & Hc & _). exists h. split; [done|]. right. by rewrite Hr, Hc.
  - constructor; [|constructor; [|constructor; [|constructor]]];
      (split; [apply Hk; [apply N; cbv; lia|done]|split; [inside|apply Sev || apply Svh]]).
Qed.

(** The beginning of [train], up to the copies of the three matrices. *)
Lemma train_inputs w data dataT weights hd ht hw D0 D1 W1 : wfs ∅ 18 18 w ->
  plain_at w data hd D0 -> plain_at w dataT ht D1 -> plain_at w weights hw W1 ->
  (rows hd, cols hd) = (ne, nv) -> (rows hw, cols hw) = (nv, nh) ->
  datastart hd <> datastart ht -> datastart hd <> datastart hw -> datastart ht <> datastart hw ->
  nv * nh <= Z.of_nat (length (drand w)) ->
  exists w', wfs ∅ 18 18 w' /\ drand w' = drop (Z.to_nat (nv * nh)) (drand w) /\
    plain_at w' data hd (with_bias D0) /\ plain_at w' dataT ht D1 /\ plain_at w' weights hw (drawn initial_weight (drand w) nh) /\
    forall A (k : Mat -> M MW A),
      (h ← get_mat weights;
       for_mat (rows h) (cols h) (fun i j _ => d ← drand48; set_at weights i j (initial_weight d)) tt ;;
       h ← get_mat data;
       for_loop (Z.to_nat (rows h)) 0 (fun i _ => set_at data i 0 fone) tt ;; k h) w = k hd w'.
Proof.
  intros Hw PD PT PW [= HD1 HD2] [= HW1 HW2] N1 N2 N3 Hl.
  assert (Hnh : 0 < nh) by apply Seh. assert (Hnv : 0 < nv) by apply Svh. assert (Hne : 0 < ne) by apply Sev.
  destruct (plain_at_array _ _ _ _ PW) as (bw & Hbw & Hlw & _).
  destruct (random_loop initial_weight w weights hw bw (proj1 PW) Hbw) as (bw' & R1 & U1); [lia|lia|done|by rewrite HW1, HW2|].
  set (d' := drop (Z.to_nat (rows hw * cols hw)) (drand w)) in *.
  set (w1 := setb (datastart hw) bw' w) in *.
  assert (PD1 : plain_at w1 data hd D0) by (by apply plain_at_setb).
  destruct (plain_at_array _ _ _ _ PD1) as (bd & Hbd & Hld & Hed).
  destruct (bias_loop (set_drand d' w1) data hd bd D0 (proj1 PD1) Hbd) as (bd' & R2 & Hld' & He2); [lia|lia|done|done|].
  exists (setb (datastart hd) bd' (set_drand d' w1)).
  split; [eapply outside_wfs; [apply wfs_drand, (outside_wfs _ _ w _ bw); done|done]|].
  split; [cbn; unfold d'; by rewrite HW1, HW2|].
  split; [apply plain_at_new with (g := D0); [exact PD1|done|by rewrite Hld']|].
  split; [apply (plain_at_setb (set_drand d' w1)); [exact (plain_at_setb w dataT ht D1 _ bw' PT N3)|by apply not_eq_sym]|].
  split.
  - apply (plain_at_setb (set_drand d' w1)); [|by apply not_eq_sym].
    apply (plain_at_new w weights hw bw' W1); [done| |by rewrite (proj1 U1)].
    intros i j Hi Hj. rewrite <- HW2. by apply upto_elem with (r := rows hw) (b := bw).
  - intros A k. rewrite (bind_ok _ _ _ _ _ (get_mat_ok _ _ _ (proj1 PW))), (bind_ok _ _ _ _ _ R1).
    rewrite (bind_ok _ _ _ hd (set_drand d' w1)) by (apply get_mat_ok, PD1). by rewrite (bind_ok _ _ _ _ _ R2).
Qed.

(** C11: Training ends and its result is pinned: for any number of epochs, from
    random initial weights, [train] returns, the weights are those of
    [training], epoch by epoch, and so are the errors it records; all epochs
    together need 18 arrays and 18 references, and the matrices keep their
    arrays although a second header of the activations comes and goes.  An epoch
    ([epoch_weights]) samples the hidden units from the data, reconstructs the
    visible ones, recomputes the hidden ones and updates the weights by the
    difference of the associations; the recomputation uses the reconstructed
    units without their bias column, so it is not the contrastive divergence the
    processor's path of the same code ([verify]) computes. *)
Theorem rbm_train n w data dataT weights hd ht hw D0 W1 : wfs ∅ 18 18 w ->
  NoDup [data; dataT; weights] -> (forall o, In o [data; dataT; weights] -> (20 <= o)%nat) ->
  plain_at w data hd D0 -> plain_at w dataT ht (fun i j => with_bias D0 j i) -> plain_at w weights hw W1 ->
  (rows hd, cols hd) = (ne, nv) -> (rows ht, cols ht) = (nv, ne) -> (rows hw, cols hw) = (nv, nh) ->
  datastart hd <> datastart ht -> datastart hd <> datastart hw -> datastart ht <> datastart hw ->
  nv * nh + Z.of_nat n * (ne * nh) <= Z.of_nat (length (drand w)) ->
  let W0 := drawn initial_weight (drand w) nh in
  let d := drop (Z.to_nat (nv * nh)) (drand w) in
  exists w', train J n data dataT weights w = Ok (training n d (with_bias D0) W0).1 w' /\
    mat_is w' pmWeights nv nh (training n d (with_bias D0) W0).2.
Proof.
  intros Hw Hnd Hge PD PT PW Sd St Sw N1 N2 N3 Hl W0 d. rewrite !NoDup_cons, !not_elem_of_cons in Hnd. destruct_and! Hnd.
  assert (Hnh : 0 < nh) by apply Seh. assert (Hnv : 0 < nv) by apply Svh. assert (Hne : 0 < ne) by apply Sev.
  destruct (train_inputs w data dataT weights hd ht hw D0 _ W1 Hw PD PT PW Sd Sw N1 N2 N3) as (w1 & V1 & D1 & PD1 & PT1 & PW1 & Hk); [nia|].
  unfold train.
  rewrite Hk.
  injection Sd as Sd1 Sd2. injection St as St1 St2. injection Sw as Sw1 Sw2.
  destruct PD1 as (_ & _ & PD1). destruct PT1 as (_ & _ & PT1). destruct PW1 as (_ & _ & PW1).
  rewrite Sd1, Sd2 in PD1. rewrite St1, St2 in PT1. rewrite Sw1, Sw2 in PW1.
  pose proof (Hge data ltac:(by left)). pose proof (Hge dataT ltac:(right; by left)). pose proof (Hge weights ltac:(right; right; by left)).
  destruct (copy_new ∅ 17 17 w1 pmData data ne nv (with_bias D0)) as (w2 & R2 & V2 & K2 & M2 & E2); [done|cbv; lia|apply Sev|done|].
  rewrite (bind_ok _ _ _ _ _ R2).
  assert (PDm : plain w2 pmData ne nv (with_bias D0)) by (eapply member_plain; [done|set_solver|done|done]).
  destruct (copy_new _ 16 16 w2 pmDataT dataT nv ne (fun i j => with_bias D0 j i) V2) as (w3 & R3 & V3 & K3 & M3 & E3);
    [cbv; lia|apply (small_sym _ _ Sev)|apply K2; [cbv; lia|done]|]. rewrite (bind_ok _ _ _ _ _ R3).
  assert (PTm : plain w3 pmDataT nv ne (fun i j => with_bias D0 j i)) by (eapply member_plain; [done|set_solver|done|done]).
  destruct (copy_new _ 15 15 w3 pmWeights weights nv nh W0 V3) as (w4 & R4 & V4 & K4 & M4 & E4);
    [cbv; lia|apply Svh|apply K3; [cbv; lia|apply K2; [cbv; lia|done]]|]. rewrite (bind_ok _ _ _ _ _ R4).
  destruct (train_started w4 (with_bias D0) W0 V4) as (w5 & R5 & S5);
    [apply K4; [done|apply K3; done]|apply K4; done|eapply member_plain; [done|set_solver|done|done]|].
  rewrite (bind_ok _ _ _ _ _ R5), Sd1. rewrite E4, E3, E2, D1 in S5. apply epochs_result; [exact S5|].
  unfold d. rewrite length_drop. lia.
Qed.
End Train.

(** * The bias column

    The activations of the hidden units that the hardware computes in the
    negative phase are of visible probabilities without the bias unit; those of
    the processor, with which [verify] compares them, are with it, and the
    comparison fails. *)
Lemma bias_left_out :
  let V := fun _ _ : Z => fzero in
  let W := fun _ _ : Z => fone in
  let hw := naive_dot (row V 2 0) (col W 2 0) in
  let cpu := naive_dot (row (with_bias V) 2 0) (col W 2 0) in
  hw = fzero /\ cpu = fone /\
  mismatch (float_of_double (ddiv (double_of_Z 5) (double_of_Z 100))) hw cpu = true.
Proof. by vm_compute. Qed.

(** ** The training data

    The pixel of column [k] in row [j] is read from row [k], column [j]: square
    images are transposed, others are read outside. *)
Lemma run_image_transposes :
  let image (rows_ cols_ : Z) := fun r c : Z => if decide (0 <= r < rows_ /\ 0 <= c < cols_) then Some (10 * r + c) else None in
  run_image 2 2 4 (image 2 2) (replicate 4 fzero) = Some (float_of_Z <$> [0; 10; 1; 11]) /\
  run_image 1 2 2 (image 1 2) (replicate 2 fzero) = None.
Proof. by vm_compute. Qed.

(** * Accelerators and a training *)
Module RbmDemo.
Import MatDemo.

(** The first [n] elements are replaced. *)
Definition mapk (n : Z) (f : nat -> float -> float) (l : list float) : list float :=
  imap (fun k x => if decide (Z.of_nat k < n) then f k x else x) l.
Lemma mapk_lookup n f l k x : 0 <= k < n -> znth l k = Some x -> znth (mapk n f l) k = Some (f (Z.to_nat k) x).
Proof.
  intros Hk. unfold znth, mapk. rewrite decide_True by lia. intros Hx. rewrite list_lookup_imap, Hx.
  cbn [fmap option_fmap option_map]. by rewrite !decide_True by lia.
Qed.
Lemma mapk_total n f l k : 0 <= k < n -> n <= Z.of_nat (length l) -> exists x, znth (mapk n f l) k = Some (f (Z.to_nat k) x).
Proof.
  intros Hk Hl. destruct (znth_in_range l k) as [x Hx]; [lia|]. exists x. by apply mapk_lookup.
Qed.

Definition at_k (l : list float) (k : nat) : float := default fzero (l !! k).
Lemma at_k_znth l k x : 0 <= k -> znth l k = Some x -> at_k l (Z.to_nat k) = x.
Proof. intros Hk. unfold znth, at_k. rewrite decide_True by lia. by intros ->. Qed.

(** A sigmoid that is the identity between 0 and 1, and the number of elements
    that differ as error. *)
Definition clamp (x : float) : float := if flt x fzero then fzero else if flt fone x then fone else x.
Definition differ (a b : list float) : float :=
  float_of_Z (Z.of_nat (length (List.filter (fun p => negb (SFeqb p.1 p.2)) (zip a b)))).

#[export] Instance rbm_engine : Accelerator := fun req mem =>
  match req with
  | Sigmoid src _ dst _ n =>
      match mem src, mem dst with
      | Some l, Some ld => ([(dst, mapk n (fun k _ => clamp (at_k l k)) ld)], [sigmoidDone])
      | _, _ => ([], [])
      end
  | ComputeStates src _ src2 _ dst _ n =>
      match mem src, mem src2, mem dst with
      | Some l, Some l2, Some ld => ([(dst, mapk n (fun k _ => state_of (at_k l k) (at_k l2 k)) ld)], [statesDone])
      | _, _, _ => ([], [])
      end
  | UpdateWeights pos neg wts n rate =>
      match mem pos, mem neg, mem wts with
      | Some lp, Some ln, Some lw =>
          ([(wts, mapk n (fun k x => weight_update rate x (at_k lp k) (at_k ln k)) lw)], [updateWeightsDone])
      | _, _, _ => ([], [])
      end
  | SumOfErrorSquared a b n =>
      match mem a, mem b with
      | Some la, Some lb => ([], [sumOfErrorSquaredDone (differ (take (Z.to_nat n) la) (take (Z.to_nat n) lb))])
      | _, _ => ([], [])
      end
  | SigmoidTableSize => ([], [tableSize 4])
  | SigmoidUpdateTable _ _ _ => ([], [tableUpdated 0])
  | _ => engine req mem
  end.

#[export] Instance rbm_multiplies J : @EngineTN rbm_engine J naive_dot.
Proof. exact (engine_multiplies J). Qed.

#[export] Instance rbm_device : RbmDevice clamp differ.
Proof.
  split; intros; unfold acc_run, rbm_engine.
  - rewrite H, H0. eexists _, _. split; [reflexivity|]. split; [done|]. split; [apply length_imap|].
    intros k x Hk Hx. destruct (mapk_total n (fun k _ => clamp (at_k l k)) ld k Hk) as [y Hy]; [done|].
    rewrite Hy. by rewrite (at_k_znth _ _ _ (proj1 Hk) Hx).
  - rewrite H, H0, H1. eexists _, _. split; [reflexivity|]. split; [done|]. split; [apply length_imap|].
    intros k p r Hk Hp Hr. destruct (mapk_total n (fun k _ => state_of (at_k l k) (at_k l2 k)) ld k Hk) as [y Hy]; [done|].
    rewrite Hy. by rewrite (at_k_znth _ _ _ (proj1 Hk) Hp), (at_k_znth _ _ _ (proj1 Hk) Hr).
  - rewrite H, H0, H1. eexists _, _. split; [reflexivity|]. split; [done|]. split; [apply length_imap|].
    intros k p q x Hk Hp Hq Hx. rewrite (mapk_lookup n _ lw k x Hk Hx).
    by rewrite (at_k_znth _ _ _ (proj1 Hk) Hp), (at_k_znth _ _ _ (proj1 Hk) Hq).
  - by rewrite H, H0.
Qed.

(** One example of two visible units, one hidden unit. *)
#[export] Instance exp_one : Expf := fun _ => fone.
Definition header (r c a : Z) : Mat := {| rows := r; cols := c; datastart := a; refcount := 0 |}.
Definition half : double := ddiv (double_of_Z 1) (double_of_Z 2).
Definition w2 : MW :=
  {| mats := {[ 20%nat := header 1 2 10; 21%nat := header 2 1 20; 22%nat := header 2 1 30 ]};
     arrayInfo := replicate 128 arrayInfo0; numarrays := 1;
     heap := {[ 10 := [fzero; fone]; 20 := [fone; fone]; 30 := [fzero; fzero] ]};
     fdmap := ∅; mmu := ∅; fds := seqZ 1 20; addrs := seqZ 101 20; ids := seqZ 0 20;
     flushed := []; pending := []; mul_sem := 0; ccnt := 0; tableSize_ := 0;
     sum_of_errors_squared := fzero; drand := replicate 4 half |}.

Lemma w2_wf : wfs ∅ 18 18 w2.
Proof.
  unfold wfs. replace (18 + empties ∅ w2)%nat with 18%nat by (by vm_compute).
  replace (18 + unregistered ∅ w2)%nat with 18%nat by (by vm_compute).
  split; [set_solver|set_solver|done|cbn; lia| | | |done].
  - split; [by apply fresh_check; vm_compute|by apply (all_check (fun a => a <> 0 /\ a <> -1)); vm_compute].
  - by apply fresh_check; vm_compute.
  - by apply fresh_ids_check; vm_compute.
Qed.

Definition D2 (i j : Z) : float := if decide (j = 0) then fzero else fone.

Lemma w2_plain (o : nat) h b (g : Z -> Z -> float) : mats w2 !! o = Some h -> heap w2 !! datastart h = Some b -> datastart h <> 0 ->
  (rows h = 1 /\ cols h = 2 /\ b = [g 0 0; g 0 1] \/ rows h = 2 /\ cols h = 1 /\ b = [g 0 0; g 1 0]) -> plain_at w2 o h g.
Proof.
  intros Hh Hb Hd Hc. split; [done|]. split; [done|]. split; [|by exists h, b]. exists h, b.
  split; [done|]. split; [done|]. split; [done|]. split; [done|].
  destruct Hc as [(-> & -> & ->)|(-> & -> & ->)]; (split; [cbn; lia|]); intros i j Hi Hj.
  - assert (i = 0) as -> by lia. assert (j = 0 \/ j = 1) as [->| ->] by lia; done.
  - assert (j = 0) as -> by lia. assert (i = 0 \/ i = 1) as [->| ->] by lia; done.
Qed.

Lemma rbm_train_witness : exists l w', train 1 2 20 21 22 w2 = Ok l w'.
Proof.
  destruct (rbm_train 1 naive_dot clamp differ 1 2 1 ltac:(by vm_compute) ltac:(by vm_compute) ltac:(by vm_compute) 2 w2 20 21 22
    (header 1 2 10) (header 2 1 20) (header 2 1 30) D2 (fun _ _ => fzero)) as (w' & H & _).
  - exact w2_wf.
  - by apply (bool_decide_eq_true_1 _); vm_compute.
  - intros o [<-|[<-|[<-|[]]]]; lia.
  - by apply w2_plain with [fzero; fone]; [reflexivity|reflexivity|done|left].
  - by apply w2_plain with [fone; fone]; [reflexivity|reflexivity|done|right].
  - by apply w2_plain with [fzero; fzero]; [reflexivity|reflexivity|done|right].
  - done.
  - done.
  - done.
  - done.
  - done.
  - done.
  - by vm_compute.
  - by eexists _, w'.
Defined.
End RbmDemo.
