(* ===== verification/DeviceTests.v ===== *)
(** Tests of devices by their indications: [examples/simple/testsimple.cpp],
    [tests/mifo/testmifo.cpp] and [examples/serialconfig/testserialconfig.cpp].

    Each program sends a fixed series of requests and judges the indications
    that come back: a handler asserts that the values are the expected ones and
    counts, and the program exits with the last one.  The handlers are run on
    any list of indications, so that the theorems hold for any device; what the
    devices are sent is compared with what the handlers expect. *)

From stdpp Require Import base list option.
From Stdlib Require Import ZArith Lia.
From S2P Require Import Prelude.
#[local] Open Scope list_scope.
#[local] Open Scope Z_scope.

(** Indications are handled one after the other. *)
Fixpoint deliver {W I} (handler : I -> M W unit) (l : list I) : M W unit :=
  match l with [] => mret tt | i :: l => handler i ;; deliver handler l end.

(** * Messages of different types: [testsimple.cpp] *)
Module SimpleTest.

Inductive E1 : Type := E1Choice1 | E1Choice2 | E1Choice3.
#[export] Instance E1_eq_dec : EqDecision E1.
Proof. solve_decision. Defined.

Record S1 : Type := { s1_a : Z; s1_b : Z }.
Record S2 : Type := { s2_a : Z; s2_b : Z; s2_c : Z }.
Record S3 : Type := { s3_a : Z; s3_e1 : E1 }.

Inductive say : Type :=
| say1 (a : Z) | say2 (a b : Z) | say3 (s : S1) | say4 (s : S2) | say5 (a b c : Z) | say6 (a b c : Z) | say7 (v : S3).

Definition v1a : Z := 42.
Definition v2a : Z := 2.
Definition v2b : Z := 4.
Definition s2 : S2 := {| s2_a := 7; s2_b := 8; s2_c := 9 |}.
Definition s1 : S1 := {| s1_a := 3; s1_b := 6 |}.
Definition v5a : Z := 0x00000000.
Definition v5b : Z := 0xDEADBEEFFECAFECA.
Definition v5c : Z := 0x00000001.
Definition v6a : Z := 0xBBBBBBBB.
Definition v6b : Z := 0x000000EFFECAFECA.
Definition v6c : Z := 0xCCCCCCCC.
Definition v7a : Z := 0xDADADADA.
Definition v7b : E1 := E1Choice2.
Definition s3 : S3 := {| s3_a := v7a; s3_e1 := v7b |}.

(** The state is [cnt]. *)
Definition simple_incr_cnt : M Z unit :=
  cnt ← getW;
  let cnt := u32 (cnt + 1) in
  putW cnt ;;
  if decide (cnt = 7) then exit 0 else mret tt.

Definition same (x y : Z) : bool := bool_decide (x = y).

Definition simple_handler (i : say) : M Z unit :=
  match i with
  | say1 a => assert (same a v1a) ;; simple_incr_cnt
  | say2 a b => assert (same a v2a) ;; assert (same b v2b) ;; simple_incr_cnt
  | say3 s => assert (same (s1_a s) (s1_a s1)) ;; assert (same (s1_b s) (s1_b s1)) ;; simple_incr_cnt
  | say4 s => assert (same (s2_a s) (s2_a s2)) ;; assert (same (s2_b s) (s2_b s2)) ;; assert (same (s2_c s) (s2_c s2)) ;; simple_incr_cnt
  | say5 a b c => assert (same a v5a) ;; assert (same b v5b) ;; assert (same c v5c) ;; simple_incr_cnt
  | say6 a b c => assert (same a v6a) ;; assert (same b v6b) ;; assert (same c v6c) ;; simple_incr_cnt
  | say7 v => assert (same (s3_a v) v7a) ;; assert (bool_decide (s3_e1 v = v7b)) ;; simple_incr_cnt
  end.

Definition simple_requests : list say :=
  [say1 v1a; say2 v2a v2b; say3 s1; say4 s2; say5 v5a v5b v5c; say6 v6a v6b v6c; say7 s3].

(** An indication with the values of the request of its kind. *)
Definition right (i : say) : bool :=
  match i with
  | say1 a => same a v1a
  | say2 a b => same a v2a && same b v2b
  | say3 s => same (s1_a s) 3 && same (s1_b s) 6
  | say4 s => same (s2_a s) 7 && same (s2_b s) 8 && same (s2_c s) 9
  | say5 a b c => same a v5a && same b v5b && same c v5c
  | say6 a b c => same a v6a && same b v6b && same c v6c
  | say7 v => same (s3_a v) v7a && bool_decide (s3_e1 v = v7b)
  end.

Lemma handler_spec i n : 0 <= n < 7 ->
  simple_handler i n = if right i then if decide (n = 6) then Exit 0 7 else Ok tt (n + 1) else Assert n.
Proof.
  intros Hn. assert (Hi : simple_incr_cnt n = if decide (n = 6) then Exit 0 7 else Ok tt (n + 1)).
  { unfold simple_incr_cnt, getW, putW, mbind, M_bind. rewrite u32_small by lia. repeat case_decide; try lia; [by replace (n + 1) with 7 by lia|done]. }
  rewrite <- Hi. destruct i; cbn; unfold mbind, M_bind, assert; cbn;
    repeat match goal with |- context [same ?x ?y] => destruct (same x y) | |- context [bool_decide ?P] => destruct (bool_decide P) end; done.
Qed.

(** The number of right indications in front. *)
Fixpoint right_prefix (l : list say) : nat :=
  match l with [] => O | i :: l => if right i then S (right_prefix l) else O end.

Lemma deliver_from l : forall n, 0 <= n < 7 ->
  deliver simple_handler l n =
    if decide (7 <= n + Z.of_nat (right_prefix l)) then Exit 0 7
    else if decide (right_prefix l = length l) then Ok tt (n + Z.of_nat (right_prefix l)) else Assert (n + Z.of_nat (right_prefix l)).
Proof.
  induction l as [|i l IH]; intros n Hn; cbn [deliver right_prefix length].
  - cbn. rewrite decide_False by lia. rewrite decide_True by done. by rewrite Z.add_0_r.
  - unfold mbind, M_bind. rewrite handler_spec by done. destruct (right i).
    + destruct (decide (n = 6)) as [H6|H6]; [rewrite decide_True by lia; done|]. rewrite IH by lia.
      replace (n + 1 + Z.of_nat (right_prefix l)) with (n + Z.of_nat (S (right_prefix l))) by lia.
      repeat case_decide; try done; lia.
    + rewrite decide_False by lia. rewrite decide_False by done. by rewrite Z.add_0_r.
Qed.

(** The verdict of the test on any indications: it exits with 0 exactly when the
    first seven have the values of a request of their kind, fails an assertion
    at the first wrong one before that, and waits for more otherwise.  A device
    that returns the requests passes; so does one that returns the first
    request seven times and never the others. *)
Theorem simple_verdict :
  (forall l, deliver simple_handler l 0 = Exit 0 7 <-> (7 <= right_prefix l)%nat) /\
  (forall l, (right_prefix l < 7)%nat -> right_prefix l <> length l ->
     deliver simple_handler l 0 = Assert (Z.of_nat (right_prefix l))) /\
  deliver simple_handler simple_requests 0 = Exit 0 7 /\
  deliver simple_handler (replicate 7 (say1 v1a)) 0 = Exit 0 7.
Proof.
  split; [|split; [|split; [by vm_compute|by vm_compute]]].
  - intros l. rewrite deliver_from by lia. repeat case_decide; split; try done; lia.
  - intros l Hl Hn. rewrite deliver_from by lia. rewrite !decide_False by lia. done.
Qed.

(** The interface of the hardware is narrower than the arguments; the values of
    the test fit it. *)
Definition through_hardware (i : say) : say :=
  match i with
  | say1 a => say1 (wrap 32 a)
  | say2 a b => say2 (wrap 16 a) (wrap 16 b)
  | say3 s => say3 {| s1_a := wrap 32 (s1_a s); s1_b := wrap 32 (s1_b s) |}
  | say4 s => say4 {| s2_a := wrap 32 (s2_a s); s2_b := wrap 16 (s2_b s); s2_c := wrap 7 (s2_c s) |}
  | say5 a b c => say5 (wrap 32 a) (wrap 64 b) (wrap 32 c)
  | say6 a b c => say6 (wrap 32 a) (wrap 40 b) (wrap 32 c)
  | say7 v => say7 {| s3_a := wrap 32 (s3_a v); s3_e1 := s3_e1 v |}
  end.
Lemma requests_fit : map through_hardware simple_requests = simple_requests.
Proof. by vm_compute. Qed.
End SimpleTest.

(** * Queues that change the width: [testmifo.cpp] *)
Module MifoTest.

Definition vs : list Z := [22; 0; 1; 2].

Inductive ind : Type :=
| mifo32 (a : Z) | mifo64 (a b : Z) | fimo64 (a b : Z) | fimo96 (a b c : Z) | fimo128 (a b c d : Z).

Definition equal_words (x y : Z) : bool := bool_decide (x = y).

(** The state is [cnt]. *)
Definition mifo_incr_cnt : M Z unit :=
  cnt ← getW;
  let cnt := u32 (cnt + 1) in
  putW cnt ;;
  if decide (cnt = 32) then exit 0 else mret tt.

Definition mifo_handler (i : ind) : M Z unit :=
  match i with
  | mifo32 a =>
      cnt ← getW;
      ea ← defined (znth vs (cnt mod 4));
      assert (equal_words a ea) ;;
      mifo_incr_cnt
  | mifo64 a b =>
      cnt ← getW;
      ea ← defined (znth vs (cnt mod 4));
      eb ← defined (znth vs (u32 (cnt + 1) mod 4));
      assert (equal_words a ea) ;;
      assert (equal_words b eb) ;;
      mifo_incr_cnt ;;
      mifo_incr_cnt
  | fimo64 a b => assert (equal_words a 68) ;; assert (equal_words b 47)
  | fimo96 a b c => assert (equal_words a 68) ;; assert (equal_words b 47) ;; assert (equal_words c 22)
  | fimo128 a b c d => assert (equal_words a 68) ;; assert (equal_words b 47) ;; assert (equal_words c 22) ;; assert (equal_words d 23)
  end.

(** What the program sends: a number of words and four words, of which as many
    count; the words of [fimo32] are put together by the hardware. *)
Inductive mifo_request : Type := req_fimo32 (v : Z) | req_mifo32 (n a b c d : Z) | req_mifo64 (n a b c d : Z).

Definition mifo_requests : list mifo_request :=
  [req_fimo32 68; req_fimo32 47; req_fimo32 22; req_fimo32 23;
   req_mifo32 4 22 0 1 2;
   req_mifo32 1 22 7 7 7; req_mifo32 1 0 7 7 7; req_mifo32 1 1 7 7 7; req_mifo32 1 2 7 7 7;
   req_mifo32 2 22 0 7 7; req_mifo32 2 1 2 7 7; req_mifo32 1 22 7 7 7; req_mifo32 3 0 1 2 7;
   req_mifo64 4 22 0 1 2;
   req_mifo64 1 22 7 7 7; req_mifo64 1 0 7 7 7; req_mifo64 1 1 7 7 7; req_mifo64 1 2 7 7 7;
   req_mifo64 1 22 7 7 7; req_mifo64 3 0 1 2 7; req_mifo64 3 22 0 1 7; req_mifo64 1 2 7 7 7].

Definition sent_words (r : mifo_request) : list Z :=
  match r with
  | req_fimo32 _ => []
  | req_mifo32 n a b c d | req_mifo64 n a b c d => take (Z.to_nat n) [a; b; c; d]
  end.

(** The words of an indication. *)
Definition words (i : ind) : list Z :=
  match i with mifo32 a => [a] | mifo64 a b => [a; b] | _ => [] end.
Definition wide_right (i : ind) : bool :=
  match i with
  | fimo64 a b => equal_words a 68 && equal_words b 47
  | fimo96 a b c => equal_words a 68 && equal_words b 47 && equal_words c 22
  | fimo128 a b c d => equal_words a 68 && equal_words b 47 && equal_words c 22 && equal_words d 23
  | _ => true
  end.

Definition stream : list Z := concat (replicate 8 vs).

Lemma sent_stream : concat (map sent_words mifo_requests) = stream.
Proof. by vm_compute. Qed.

Lemma stream_at n x : stream !! n = Some x -> znth vs (Z.of_nat n mod 4) = Some x.
Proof.
  intros H. pose proof (lookup_lt_Some _ _ _ H) as Hn. change (length stream) with 32%nat in Hn.
  do 32 (destruct n as [|n]; [vm_compute in H |- *; exact H|]). lia.
Qed.
Lemma stream_cons n x l : drop n stream = x :: l -> znth vs (Z.of_nat n mod 4) = Some x /\ drop (S n) stream = l /\ (n < 32)%nat.
Proof.
  intros H. assert (Hx : stream !! n = Some x) by (rewrite <- (Nat.add_0_r n), <- lookup_drop, H; done).
  split; [by apply stream_at|]. split; [|by apply lookup_lt_Some in Hx].
  apply drop_S in Hx. rewrite H in Hx. by injection Hx.
Qed.

Lemma incr_spec n : (n < 32)%nat ->
  mifo_incr_cnt (Z.of_nat n) = if decide (n = 31)%nat then Exit 0 32 else Ok tt (Z.of_nat (S n)).
Proof.
  intros Hn. unfold mifo_incr_cnt, getW, putW, mbind, M_bind. rewrite u32_small by lia.
  replace (Z.of_nat n + 1) with (Z.of_nat (S n)) by lia. repeat case_decide; try lia; [subst; done|done].
Qed.

(** A word at position [n] is accepted exactly when it is that of the stream. *)
Lemma mifo32_spec a n : (n < 32)%nat ->
  mifo_handler (mifo32 a) (Z.of_nat n) = if equal_words a (default 0 (stream !! n)) then mifo_incr_cnt (Z.of_nat n) else Assert (Z.of_nat n).
Proof.
  intros Hn. destruct (lookup_lt_is_Some_2 stream n Hn) as [x Hx]. rewrite Hx. cbn.
  unfold getW, mbind, M_bind, defined, assert. rewrite (stream_at _ _ Hx). by destruct (equal_words a x).
Qed.
Lemma mifo64_spec a b n : (n < 31)%nat ->
  mifo_handler (mifo64 a b) (Z.of_nat n) =
    if equal_words a (default 0 (stream !! n)) && equal_words b (default 0 (stream !! S n)) then (mifo_incr_cnt ;; mifo_incr_cnt) (Z.of_nat n)
    else Assert (Z.of_nat n).
Proof.
  intros Hn. destruct (lookup_lt_is_Some_2 stream n) as [x Hx]; [vm_compute; lia|].
  destruct (lookup_lt_is_Some_2 stream (S n)) as [y Hy]; [vm_compute; lia|]. rewrite Hx, Hy. cbn.
  unfold getW, mbind, M_bind, defined, assert. rewrite (stream_at _ _ Hx). rewrite u32_small by lia.
  replace (Z.of_nat n + 1) with (Z.of_nat (S n)) by lia. rewrite (stream_at _ _ Hy). by destruct (equal_words a x), (equal_words b y).
Qed.
Lemma wide_spec i n : words i = [] -> mifo_handler i n = if wide_right i then Ok tt n else Assert n.
Proof.
  destruct i; try done; intros _; cbn; unfold mbind, M_bind, assert;
    repeat match goal with |- context [equal_words ?x ?y] => destruct (equal_words x y) end; done.
Qed.

Lemma deliver_stream l : forall n, (n < 32)%nat -> Forall wide_right l -> concat (map words l) = drop n stream ->
  deliver mifo_handler l (Z.of_nat n) = Exit 0 32.
Proof.
  induction l as [|i l IH]; intros n Hn Hw Hs.
  { cbn [map concat] in Hs. symmetry in Hs. apply (f_equal length) in Hs. rewrite length_drop in Hs. change (length stream) with 32%nat in Hs. cbn in Hs. lia. }
  inversion Hw as [|? ? Hi Hw']; subst. apply Is_true_true in Hi. cbn [deliver].
  destruct (decide (words i = [])) as [E|E].
  { unfold mbind, M_bind. rewrite wide_spec, Hi by done. apply IH; [done|done|]. cbn [map concat] in Hs. by rewrite E in Hs. }
  destruct i as [a|a b|?|?|?]; try done; cbn [map concat words app] in Hs; symmetry in Hs.
  - destruct (stream_cons _ _ _ Hs) as (_ & Hd & _).
    assert (Hx : stream !! n = Some a) by (rewrite <- (Nat.add_0_r n), <- lookup_drop, Hs; done).
    unfold mbind, M_bind. rewrite mifo32_spec, Hx, incr_spec by done. unfold equal_words. rewrite bool_decide_eq_true_2 by done.
    case_decide; [done|]. apply IH; [lia|done|by rewrite Hd].
  - destruct (stream_cons _ _ _ Hs) as (_ & Hd & _). destruct (stream_cons _ _ _ Hd) as (_ & Hd2 & Hn2).
    assert (Hx : stream !! n = Some a) by (rewrite <- (Nat.add_0_r n), <- lookup_drop, Hs; done).
    assert (Hy : stream !! S n = Some b) by (rewrite <- (Nat.add_0_r (S n)), <- lookup_drop, Hd; done).
    unfold mbind, M_bind. rewrite mifo64_spec, Hx, Hy by lia. unfold equal_words. rewrite !bool_decide_eq_true_2 by done. cbn [andb].
    unfold mbind, M_bind. rewrite incr_spec, decide_False by lia. rewrite incr_spec by lia.
    case_decide; [done|]. apply IH; [lia|done|by rewrite Hd2].
Qed.

(** The test passes with every device that keeps the words in order, however it
    groups them and whenever the wide words come: if the words that arrive are
    those that were sent and the wide ones are right, the program exits with
    0. *)
Theorem mifo_fifo_passes l : Forall wide_right l -> concat (map words l) = concat (map sent_words mifo_requests) ->
  deliver mifo_handler l 0 = Exit 0 32.
Proof. rewrite sent_stream. intros Hw Hs. by apply (deliver_stream l 0%nat); [lia|..]. Qed.

Lemma mifo_fifo_passes_witness : deliver mifo_handler (fimo64 68 47 :: map mifo32 stream) 0 = Exit 0 32.
Proof. apply (mifo_fifo_passes (fimo64 68 47 :: map mifo32 stream)); [by repeat constructor|by vm_compute]. Defined.
End MifoTest.

(** * Registers behind a serial chain: [testserialconfig.cpp] *)
Module SerialTest.

Record Serial : Type := { lasta : Z; lastd : Z; requests_sent : list (Z * Z); errors : list (Z * Z) }.

Section Test.
(** The acknowledgement of the last request, given all requests so far. *)
Variable device : list (Z * Z) -> Z * Z.

(** [dev->send(a, d); sem_wait(&test_sem)]: [ack] has run. *)
Definition send_wait (a d : Z) (s : Serial) : Serial :=
  let l := requests_sent s ++ [(a, d)] in
  {| lasta := (device l).1; lastd := (device l).2; requests_sent := l; errors := errors s |}.

(** A message names what was expected and what came. *)
Definition complain (expected got : Z) (s : Serial) : Serial :=
  {| lasta := lasta s; lastd := lastd s; requests_sent := requests_sent s; errors := errors s ++ [(expected, got)] |}.
Definition lastdshouldbe (v : Z) (s : Serial) : Serial :=
  if decide (lastd s <> v) then complain v (lastd s) s else s.
Definition lastashouldbe (a : Z) (s : Serial) : Serial :=
  if decide (Z.land (lasta s) 0xfffffffe <> a) then complain a (Z.land (lasta s) 0xfffffffe) s else s.

Definition doread (a expect : Z) (s : Serial) : Serial :=
  let s := send_wait (Z.land a 0xfffffffe) 0xfeedface s in
  lastdshouldbe expect (lastashouldbe a s).
Definition dowrite (a d : Z) (s : Serial) : Serial :=
  let s := send_wait (Z.lor a 1) d s in
  lastdshouldbe d (lastashouldbe a s).

Inductive op : Type := Write (a d : Z) | Read (a expect : Z).
Definition do_op (s : Serial) (o : op) : Serial :=
  match o with Write a d => dowrite a d s | Read a e => doread a e s end.

Definition dotest_ops : list op :=
  [Write 0x0 0xf00f00;
   Write 0x11110000 0x00000000; Write 0x22220000 0x00000000; Write 0x33330000 0x00000000; Write 0x44440000 0x00000000;
   Read 0x11110000 0x00000000; Read 0x22220000 0x00000000; Read 0x33330000 0x00000000; Read 0x44440000 0x00000000;
   Write 0x11110000 0x11111111; Write 0x22220000 0x22222222; Write 0x33330000 0x33333333; Write 0x44440000 0x44444444;
   Read 0x11110000 0x11111111; Read 0x22220000 0x00222222; Read 0x33330000 0x00003333; Read 0x44440000 0x00000044;
   Write 0x0 0xdeadbeef; Read 0x0 0xfeedface].
Definition dotest (s : Serial) : Serial := foldl do_op s dotest_ops.

(** ** Facts *)

Definition serial_request (o : op) : Z * Z :=
  match o with Write a d => (Z.lor a 1, d) | Read a _ => (Z.land a 0xfffffffe, 0xfeedface) end.
Definition expected (o : op) : Z * Z := match o with Write a d | Read a d => (a, d) end.
(** The acknowledgement of the last of [reqs] is what [o] expects. *)
Definition answers (reqs : list (Z * Z)) (o : op) : Prop :=
  (Z.land (device reqs).1 0xfffffffe, (device reqs).2) = expected o.

Lemma do_op_spec o s : requests_sent (do_op s o) = requests_sent s ++ [serial_request o] /\
  (exists e, errors (do_op s o) = errors s ++ e /\ (e = [] <-> answers (requests_sent s ++ [serial_request o]) o)).
Proof.
  destruct o as [a d|a d]; cbn [do_op]; unfold dowrite, doread, lastdshouldbe, lastashouldbe, answers, serial_request, expected;
    repeat case_decide; cbn in *; (split; [done|]); eexists;
    (split; [rewrite <- ?app_assoc; try done; by rewrite app_nil_r|]); split; try done; intros; simplify_eq; try congruence.
Qed.

(** Every operation of a run is answered as expected. *)
Fixpoint all_answered (reqs : list (Z * Z)) (l : list op) : Prop :=
  match l with
  | [] => True
  | o :: l => answers (reqs ++ [serial_request o]) o /\ all_answered (reqs ++ [serial_request o]) l
  end.

Lemma run_errors l : forall s, exists e, errors (foldl do_op s l) = errors s ++ e /\ (e = [] <-> all_answered (requests_sent s) l).
Proof.
  induction l as [|o l IH]; intros s; cbn [foldl all_answered].
  - exists []. by rewrite app_nil_r.
  - destruct (do_op_spec o s) as (Hr & e1 & He1 & Ha). destruct (IH (do_op s o)) as (e2 & He2 & Hall).
    exists (e1 ++ e2). rewrite He2, He1, app_assoc. split; [done|]. rewrite <- Hr, <- Hall. rewrite Hr, <- Ha.
    rewrite app_nil. naive_solver.
Qed.

(** The test is silent exactly when every acknowledgement has the address of its
    request and, for a read, the value the register should hold. *)
Theorem serial_verdict s : errors s = [] -> errors (dotest s) = [] <-> all_answered (requests_sent s) dotest_ops.
Proof. intros H. destruct (run_errors dotest_ops s) as (e & He & Ha). unfold dotest. by rewrite He, H, <- Ha. Qed.
End Test.

(** ** Four registers of 32, 24, 16 and 8 bits, and nothing at other addresses *)
Definition width (a : Z) : option Z :=
  if decide (a = 0x11110000) then Some 32 else if decide (a = 0x22220000) then Some 24
  else if decide (a = 0x33330000) then Some 16 else if decide (a = 0x44440000) then Some 8 else None.
Definition taps (l : list (Z * Z)) : Z * Z :=
  let stored a := foldl (fun v r => if decide (r.1 = Z.lor a 1) then r.2 else v) 0 l in
  match l !! pred (length l) with
  | None => (0, 0)
  | Some (a, d) => if Z.odd a then (a, d) else match width a with Some w => (a, wrap w (stored a)) | None => (a, d) end
  end.
Definition serial_start : Serial := {| lasta := 0; lastd := 0; requests_sent := []; errors := [] |}.

Lemma serial_verdict_witness : errors serial_start = [] /\ errors (dotest taps serial_start) = [].
Proof. split; [done|]. apply (serial_verdict taps serial_start); [done|]. by vm_compute. Defined.
End SerialTest.

(** * Colours: [examples/yuv/testyuv.cpp]

    The main thread sets the expected colours, counts a request and sends it,
    and sleeps a second; the indications are handled by another thread, which
    exits when as many have come as were counted. *)
Module YuvTest.

Record rgb : Type := { c_r : Z; c_g : Z; c_b : Z }.
Record yuv : Type := { c_y : Z; c_u : Z; c_v : Z }.
#[export] Instance rgb_eq_dec : EqDecision rgb.
Proof. solve_decision. Defined.
#[export] Instance yuv_eq_dec : EqDecision yuv.
Proof. solve_decision. Defined.

(** The sums are [int]s, shifted arithmetically and cut to a byte. *)
Definition rgbtoyuv (r g b : Z) : yuv :=
  {| c_y := u8 (Z.shiftr (77 * r + 150 * g + 29 * b + 0) 8);
     c_u := u8 (Z.shiftr (-43 * r - 85 * g + 128 * b + 128) 8);
     c_v := u8 (Z.shiftr (128 * r - 107 * g - 21 * b + 128) 8) |}.

(** Of a colour of three bytes the brightness fits a byte: it is the weighted
    mean of the components; the two colour differences lie between -127 and 128
    and are stored modulo 256, so that a byte tells them apart. *)
Lemma rgbtoyuv_bytes r g b : 0 <= r < 256 -> 0 <= g < 256 -> 0 <= b < 256 ->
  c_y (rgbtoyuv r g b) = (77 * r + 150 * g + 29 * b) / 256 /\
  Z.min r (Z.min g b) <= c_y (rgbtoyuv r g b) <= Z.max r (Z.max g b) /\
  exists u v, -127 <= u <= 128 /\ -127 <= v <= 128 /\ c_u (rgbtoyuv r g b) = u mod 256 /\ c_v (rgbtoyuv r g b) = v mod 256.
Proof.
  intros Hr Hg Hb. unfold rgbtoyuv, u8, wrap. cbn [c_y c_u c_v]. rewrite !Z.shiftr_div_pow2 by lia.
  change (2 ^ 8) with 256. rewrite Z.add_0_r.
  assert (Hy : 0 <= (77 * r + 150 * g + 29 * b) / 256 < 256) by zlia. rewrite (Z.mod_small _ _ Hy).
  split; [done|]. split; [zlia|].
  exists ((-43 * r - 85 * g + 128 * b + 128) / 256), ((128 * r - 107 * g - 21 * b + 128) / 256).
  split; [zlia|]. split; [zlia|]. done.
Qed.

Inductive conversion : Type := toRgb | toYuv | toYyuv.
#[export] Instance conversion_eq_dec : EqDecision conversion.
Proof. solve_decision. Defined.

Definition tests : list rgb :=
  (fun '(r, g, b) => {| c_r := r; c_g := g; c_b := b |}) <$>
  [(0, 0, 0); (1, 2, 3); (128, 0, 0); (0, 128, 0); (0, 0, 128); (255, 0, 0); (0, 255, 0); (0, 0, 255); (255, 255, 255)].

(** What the main thread does: [Expect] sets both expected colours,
    [Expect_rgb] the first. *)
Inductive action : Type := Expect (c : rgb) | Expect_rgb (c : rgb) | Count | Send (k : conversion) (c : rgb) | Sleep.
#[export] Instance action_eq_dec : EqDecision action.
Proof. solve_decision. Defined.

Definition test_actions (c : rgb) : list action :=
  [Expect c; Count; Send toRgb c; Count; Send toYuv c; Count; Send toYyuv c; Sleep].
Definition black : rgb := {| c_r := 0; c_g := 0; c_b := 0 |}.
Definition yuv_actions : list action :=
  Count :: concat (map test_actions tests) ++ [Expect_rgb black; Send toRgb black].

Inductive yuv_status : Type := Running | Exited | Failed.
#[export] Instance status_eq_dec : EqDecision yuv_status.
Proof. solve_decision. Defined.

Record Yuv : Type := {
  todo : list action; numTests : Z; cnt : Z; expected_rgb : rgb; expected_yuv : yuv;
  waiting : list (conversion * rgb); stat : yuv_status }.
#[export] Instance Yuv_eq_dec : EqDecision Yuv.
Proof. solve_decision. Defined.

Definition yuv_incr_cnt (s : Yuv) : Yuv :=
  let n := u32 (cnt s + 1) in
  {| todo := todo s; numTests := numTests s; cnt := n; expected_rgb := expected_rgb s; expected_yuv := expected_yuv s;
     waiting := waiting s; stat := if decide (n >= numTests s) then Exited else stat s |}.
Definition fail (s : Yuv) : Yuv :=
  {| todo := todo s; numTests := numTests s; cnt := cnt s; expected_rgb := expected_rgb s; expected_yuv := expected_yuv s;
     waiting := waiting s; stat := Failed |}.

(** The handlers; the answers are those of a device that converts correctly. *)
Definition answered (k : conversion) (c : rgb) (s : Yuv) : Yuv :=
  match k with
  | toRgb => if decide (expected_rgb s = c) then yuv_incr_cnt s else fail s
  | toYuv => if decide (expected_yuv s = rgbtoyuv (c_r c) (c_g c) (c_b c)) then yuv_incr_cnt s else fail s
  | toYyuv => yuv_incr_cnt s
  end.

Definition yuv_main_step (prompt : bool) (s : Yuv) : option Yuv :=
  let upd l n er ey w := Some {| todo := l; numTests := n; cnt := cnt s; expected_rgb := er; expected_yuv := ey; waiting := w; stat := stat s |} in
  match todo s with
  | [] => None
  | Expect c :: l => upd l (numTests s) c (rgbtoyuv (c_r c) (c_g c) (c_b c)) (waiting s)
  | Expect_rgb c :: l => upd l (numTests s) c (expected_yuv s) (waiting s)
  | Count :: l => upd l (numTests s + 1) (expected_rgb s) (expected_yuv s) (waiting s)
  | Send k c :: l => upd l (numTests s) (expected_rgb s) (expected_yuv s) (waiting s ++ [(k, c)])
  | Sleep :: l => if prompt && bool_decide (waiting s <> []) then None
                  else upd l (numTests s) (expected_rgb s) (expected_yuv s) (waiting s)
  end.
Definition yuv_device_step (s : Yuv) : option Yuv :=
  match waiting s with
  | [] => None
  | (k, c) :: l => Some (answered k c {| todo := todo s; numTests := numTests s; cnt := cnt s; expected_rgb := expected_rgb s;
                                         expected_yuv := expected_yuv s; waiting := l; stat := stat s |})
  end.

(** With [prompt] the device has answered before the main thread wakes up. *)
Definition succs (prompt : bool) (s : Yuv) : list Yuv :=
  if decide (stat s = Running) then option_list (yuv_main_step prompt s) ++ option_list (yuv_device_step s) else [].
Definition yuv_start : Yuv :=
  {| todo := yuv_actions; numTests := 0; cnt := 0; expected_rgb := black; expected_yuv := {| c_y := 0; c_u := 0; c_v := 0 |};
     waiting := []; stat := Running |}.
Inductive yuv_reach (prompt : bool) : Yuv -> Prop :=
| reach_start : yuv_reach prompt yuv_start
| reach_step s s' : yuv_reach prompt s -> s' ∈ succs prompt s -> yuv_reach prompt s'.

(** ** All states

    The states that can be reached are finitely many: [states] holds them, and
    is closed under the steps. *)
Fixpoint explore (fuel : nat) (prompt : bool) (todo seen : list Yuv) : list Yuv :=
  match fuel, todo with
  | S fuel, s :: todo =>
      if decide (s ∈ seen) then explore fuel prompt todo seen
      else explore fuel prompt (succs prompt s ++ todo) (s :: seen)
  | _, _ => seen
  end.
Definition states : list Yuv := explore 2000 true [yuv_start] [].
Definition closed (l : list Yuv) : bool := forallb (fun s => bool_decide (Forall (.∈ l) (succs true s))) l.

(** No assertion has failed; the program has exited only with all requests
    answered; it is not stuck before. *)
Definition good (s : Yuv) : bool :=
  match stat s with
  | Failed => false
  | Exited => bool_decide (todo s = [] /\ waiting s = [] /\ cnt s = 28)
  | Running => bool_decide (succs true s <> [])
  end.

Lemma states_closed : bool_decide (yuv_start ∈ states) && closed states && forallb good states = true.
Proof. by vm_compute. Qed.

Lemma reach_states s : yuv_reach true s -> s ∈ states.
Proof.
  pose proof states_closed as [[H0%bool_decide_eq_true_1 Hc]%andb_prop _]%andb_prop.
  induction 1 as [|s s' _ IH Hs]; [done|]. unfold closed in Hc. rewrite forallb_forall in Hc.
  specialize (Hc s). rewrite <- list_elem_of_In in Hc. specialize (Hc IH). apply bool_decide_eq_true_1 in Hc.
  rewrite Forall_forall in Hc. apply Hc; first [done|by apply list_elem_of_In].
Qed.

(** A step consumes an action or an answer. *)
Definition steps_left (s : Yuv) : nat := 2 * length (todo s) + length (waiting s).
Lemma yuv_step_left prompt s s' : s' ∈ succs prompt s -> (steps_left s' < steps_left s)%nat.
Proof.
  unfold succs. case_decide; [|by intros ?%elem_of_nil].
  assert (Hopt : forall o : option Yuv, s' ∈ option_list o -> o = Some s')
    by (intros [x|] Hx; [by apply list_elem_of_singleton in Hx as ->|by apply elem_of_nil in Hx]).
  rewrite elem_of_app. unfold steps_left. intros [E%Hopt|E%Hopt]; unfold yuv_main_step, yuv_device_step in E.
  - destruct (todo s) as [|[] l]; simplify_eq; cbn; rewrite ?length_app; cbn; try lia.
    destruct (_ && _); simplify_eq. cbn. lia.
  - destruct (waiting s) as [|[k c] l]; simplify_eq. unfold answered, yuv_incr_cnt, fail.
    destruct k; repeat case_decide; cbn; lia.
Qed.

(** With a device that answers within the second the test ends, without a failed
    assertion, and exactly when the last of the 28 requests is answered; the
    count can not be reached earlier although it grows while the indications
    come.  With a device that converts as well but answers later an assertion
    can fail: the expected colours have been replaced. *)
Theorem yuv_test_passes :
  (forall s, yuv_reach true s -> stat s <> Failed /\
     (stat s = Exited -> todo s = [] /\ waiting s = [] /\ cnt s = 28) /\ (stat s = Running -> succs true s <> [])) /\
  (forall prompt s s', s' ∈ succs prompt s -> (steps_left s' < steps_left s)%nat) /\
  exists s, yuv_reach false s /\ stat s = Failed.
Proof.
  split; [|split; [exact yuv_step_left|]].
  - intros s Hs. apply reach_states in Hs. pose proof states_closed as [_ Hg]%andb_prop. rewrite forallb_forall in Hg.
    rewrite list_elem_of_In in Hs. specialize (Hg s Hs). clear Hs. unfold good in Hg.
    destruct (stat s); [|apply bool_decide_eq_true_1 in Hg; done|discriminate].
    apply bool_decide_eq_true_1 in Hg. split; [discriminate|]. split; [discriminate|done].
  - set (run := fix run l s := match l with [] => s | i :: l => run l (default s (succs false s !! i)) end).
    assert (Hrun : forall l s, yuv_reach false s -> yuv_reach false (run l s)).
    { induction l as [|i l IH]; intros s Hs; cbn; [done|]. apply IH. destruct (succs false s !! i) as [s'|] eqn:E; cbn; [|done].
      eapply reach_step; [done|]. by eapply list_elem_of_lookup_2. }
    exists (run (replicate 10 0%nat ++ [1%nat]) yuv_start). split; [apply Hrun, reach_start|]. by vm_compute.
Qed.
End YuvTest.
