(* ===== verification/PortalPerf.v ===== *)
(** The performance test of the portals: [examples/portalperf/testportalperf.cpp],
    on the timers of [Timer].

    The program times requests of nine shapes and indications of nine shapes,
    ten thousand of each.  The hardware is what it answers to [startspit]: the
    indications that each pass over the portals finds; the cycle counter shows
    any values.  [portalExec_poll(0)] does not poll and returns 0, and
    [portalExec_event] returns NULL ([Poller]), so that [wait_for] only ends by
    its count. *)

From stdpp Require Import base list option.
From Stdlib Require Import ZArith Lia.
From S2P Require Import Prelude PortalTypes PortalCore Timer.
#[local] Open Scope list_scope.
#[local] Open Scope Z_scope.

(** * Data *)

Inductive spit_ind : Type :=
| spit | spitl (v1 : Z) | spitll (v1 v2 : Z) | spitlll (v1 v2 v3 : Z) | spitllll (v1 v2 v3 v4 : Z)
| spitd (v1 : Z) | spitdd (v1 v2 : Z) | spitddd (v1 v2 v3 : Z) | spitdddd (v1 v2 v3 v4 : Z).

Inductive perf_request : Type :=
| swallow | swallowl (v1 : Z) | swallowll (v1 v2 : Z) | swallowlll (v1 v2 v3 : Z) | swallowllll (v1 v2 v3 v4 : Z)
| swallowd (v1 : Z) | swallowdd (v1 v2 : Z) | swallowddd (v1 v2 v3 : Z) | swallowdddd (v1 v2 v3 v4 : Z)
| startspit (which count : Z).

(** [passes]: what each further pass over the portals finds; [reads]: how often
    the cycle counter was read. *)
Record Perf : Type := {
  tm : Timers; reads : nat; heard_count : Z; vrl : Z * Z * Z * Z; vrd : Z * Z * Z * Z;
  sent_requests : list perf_request; passes : list (list spit_ind) }.

Definition set_tm (v : Timers) (s : Perf) : Perf :=
  {| tm := v; reads := reads s; heard_count := heard_count s; vrl := vrl s; vrd := vrd s;
     sent_requests := sent_requests s; passes := passes s |}.
Definition set_reads (v : nat) (s : Perf) : Perf :=
  {| tm := tm s; reads := v; heard_count := heard_count s; vrl := vrl s; vrd := vrd s;
     sent_requests := sent_requests s; passes := passes s |}.
Definition set_heard_count (v : Z) (s : Perf) : Perf :=
  {| tm := tm s; reads := reads s; heard_count := v; vrl := vrl s; vrd := vrd s;
     sent_requests := sent_requests s; passes := passes s |}.
Definition set_vrl (v : Z * Z * Z * Z) (s : Perf) : Perf :=
  {| tm := tm s; reads := reads s; heard_count := heard_count s; vrl := v; vrd := vrd s;
     sent_requests := sent_requests s; passes := passes s |}.
Definition set_vrd (v : Z * Z * Z * Z) (s : Perf) : Perf :=
  {| tm := tm s; reads := reads s; heard_count := heard_count s; vrl := vrl s; vrd := v;
     sent_requests := sent_requests s; passes := passes s |}.
Definition set_sent (v : list perf_request) (s : Perf) : Perf :=
  {| tm := tm s; reads := reads s; heard_count := heard_count s; vrl := vrl s; vrd := vrd s;
     sent_requests := v; passes := passes s |}.
Definition set_passes (v : list (list spit_ind)) (s : Perf) : Perf :=
  {| tm := tm s; reads := reads s; heard_count := heard_count s; vrl := vrl s; vrd := vrd s;
     sent_requests := sent_requests s; passes := v |}.

Definition LOOP_COUNT : Z := 10000.

(** * The indications *)

(** Every handler counts and stores its arguments; the other variables keep
    their values. *)
Definition handle_spit (i : spit_ind) (s : Perf) : Perf :=
  let s := set_heard_count (s32 (heard_count s + 1)) s in
  let '(_, l2, l3, l4) := vrl s in
  let '(_, d2, d3, d4) := vrd s in
  match i with
  | spit => s
  | spitl v1 => set_vrl (v1, l2, l3, l4) s
  | spitll v1 v2 => set_vrl (v1, v2, l3, l4) s
  | spitlll v1 v2 v3 => set_vrl (v1, v2, v3, l4) s
  | spitllll v1 v2 v3 v4 => set_vrl (v1, v2, v3, v4) s
  | spitd v1 => set_vrd (v1, d2, d3, d4) s
  | spitdd v1 v2 => set_vrd (v1, v2, d3, d4) s
  | spitddd v1 v2 v3 => set_vrd (v1, v2, v3, d4) s
  | spitdddd v1 v2 v3 v4 => set_vrd (v1, v2, v3, v4) s
  end.
Definition handle_pass (l : list spit_ind) (s : Perf) : Perf := foldl (fun s i => handle_spit i s) s l.

(** Without further indications the loop does not end. *)
Fixpoint wait_loop (l : list (list spit_ind)) (n : Z) : M Perf unit :=
  s ← getW;
  if decide (heard_count s <> n) then
    match l with
    | [] => block
    | p :: l => putW (handle_pass p (set_passes l s)) ;; wait_loop l n
    end
  else mret tt.
Definition wait_for (n : Z) : M Perf unit := s ← getW; wait_loop (passes s) n.

(** * The tests *)

(** The values sent; the constants are cut to 32 and 64 bits. *)
Definition vl1 : Z := u32 0xfeed000000000011.
Definition vl2 : Z := u32 0xface000000000012.
Definition vl3 : Z := u32 0xdead000000000013.
Definition vl4 : Z := u32 0xbeef000000000014.
Definition vd1 : Z := u64 0xfeed0000000000000021.
Definition vd2 : Z := u64 0xface0000000000000022.
Definition vd3 : Z := u64 0xdead0000000000000023.
Definition vd4 : Z := u64 0xbeef0000000000000024.

Section Perf.
(** The values of the cycle counter, and the hardware's answer to [startspit]. *)
Variable clock : nat -> Z.
Variable spits : Z -> Z -> list (list spit_ind).

Definition perfCycleCount : M Perf Z := s ← getW; putW (set_reads (S (reads s)) s) ;; mret (clock (reads s)).

Definition timerStart (i : Z) : M Perf unit :=
  s ← getW; t ← portalTimerStart perfCycleCount i (tm s); modifyW (set_tm t).
Definition timerCatch (i : Z) : M Perf unit :=
  s ← getW; '(_, t) ← portalTimerCatch perfCycleCount i (tm s); modifyW (set_tm t).
Definition timerLap (i : Z) : M Perf Z :=
  s ← getW; '(v, t) ← portalTimerLap perfCycleCount i (tm s); modifyW (set_tm t) ;; mret v.
Definition timerInit : M Perf unit := modifyW (fun s => set_tm (portalTimerInit (tm s)) s).
Definition timerPrint (loops : Z) : M Perf (list (Z * Z * Z * Z * Z)) := s ← getW; portalTimerPrint loops (tm s).

(** The proxy sends; [startspit] makes the hardware send. *)
Definition send_request (r : perf_request) : M Perf unit :=
  modifyW (fun s => set_sent (sent_requests s ++ [r])
                      match r with startspit which count => set_passes (passes s ++ spits which count) s | _ => s end).

Definition timed_call (r : perf_request) : M Perf unit :=
  timerStart 0 ;;
  timerCatch 0 ;;
  send_request r ;;
  timerCatch 19.

Definition call_swallow : M Perf unit := timed_call swallow.
Definition call_swallowl : M Perf unit := timed_call (swallowl vl1).
Definition call_swallowll : M Perf unit := timed_call (swallowll vl1 vl2).
Definition call_swallowlll : M Perf unit := timed_call (swallowlll vl1 vl2 vl3).
Definition call_swallowllll : M Perf unit := timed_call (swallowllll vl1 vl2 vl3 vl4).
Definition call_swallowd : M Perf unit := timed_call (swallowd vd1).
Definition call_swallowdd : M Perf unit := timed_call (swallowdd vd1 vd2).
Definition call_swallowddd : M Perf unit := timed_call (swallowddd vd1 vd2 vd3).
Definition call_swallowdddd : M Perf unit := timed_call (swallowdddd vd1 vd2 vd3 vd4).

Fixpoint times (n : nat) (m : M Perf unit) : M Perf unit :=
  match n with O => mret tt | S n => m ;; times n m end.

Definition dotestout (testfn : M Perf unit) : M Perf unit :=
  timerInit ;;
  timerStart 1 ;;
  times (Z.to_nat LOOP_COUNT) testfn ;;
  timerLap 1 ;;
  timerPrint LOOP_COUNT ;;
  mret tt.

Definition dotestin (which : Z) : M Perf unit :=
  modifyW (set_heard_count 0) ;;
  timerInit ;;
  timerStart 1 ;;
  timerStart 0 ;;
  timerCatch 0 ;;
  send_request (startspit which LOOP_COUNT) ;;
  timerCatch 19 ;;
  wait_for LOOP_COUNT ;;
  timerCatch 21 ;;
  timerLap 1 ;;
  timerPrint 1 ;;
  mret tt.

Definition timer_tests : M Perf unit :=
  timerInit ;;
  times 1000 (timerStart 0 ;; timerCatch 1 ;; timerCatch 2 ;; timerCatch 3 ;; timerCatch 4 ;;
              timerCatch 5 ;; timerCatch 6 ;; timerCatch 7 ;; timerCatch 8) ;;
  timerPrint 1000 ;;
  mret tt.

Definition perf_main : M Perf unit :=
  timer_tests ;;
  dotestout call_swallow ;;
  dotestout call_swallowl ;;
  dotestout call_swallowll ;;
  dotestout call_swallowlll ;;
  dotestout call_swallowllll ;;
  dotestout call_swallowd ;;
  dotestout call_swallowdd ;;
  dotestout call_swallowddd ;;
  dotestout call_swallowdddd ;;
  dotestin 1 ;;
  dotestin 0 ;;
  dotestin 2 ;;
  dotestin 3 ;;
  dotestin 4 ;;
  dotestin 5 ;;
  dotestin 6 ;;
  dotestin 7 ;;
  dotestin 8.
End Perf.

(** * Facts *)

Definition rest (s : Perf) := (heard_count s, vrl s, vrd s, sent_requests s, passes s).
Definition timers_ok (s : Perf) : Prop :=
  length (c_start (tm s)) = Z.to_nat MAX_TIMER_COUNT /\ length (timers (tm s)) = Z.to_nat MAX_TIMERS.

(** Operations on the timers return and touch nothing else. *)
Definition timing {A} (m : M Perf A) : Prop :=
  forall s, timers_ok s -> exists a s', m s = Ok a s' /\ timers_ok s' /\ rest s' = rest s.

Lemma timing_bind {A B} (m : M Perf A) (k : A -> M Perf B) : timing m -> (forall a, timing (k a)) -> timing (m ≫= k).
Proof.
  intros Hm Hk s Hs. destruct (Hm s Hs) as (a & s1 & R1 & O1 & E1). rewrite (bind_ok _ _ _ _ _ R1).
  destruct (Hk a s1 O1) as (b & s2 & R2 & O2 & E2). exists b, s2. split; [done|]. split; [done|congruence].
Qed.
Lemma timing_ret {A} (a : A) : timing (mret a).
Proof. intros s Hs. by exists a, s. Qed.
Lemma timing_times n m : timing m -> timing (times n m).
Proof. intros Hm. induction n as [|n IH]; cbn; [apply timing_ret|]. by apply timing_bind. Qed.

Lemma print_rows_ok loops s : u64 loops <> 0 -> forall l i, exists r, print_rows (W := Perf) i l loops s = Ok r s.
Proof.
  intros Hl. induction l as [|e l IH]; intros i; cbn [print_rows]; [by exists []|]. destruct (IH (i + 1)) as [r Hr].
  unfold mbind, M_bind. destruct (decide (tt_min e <> NO_MIN)); [destruct (decide (u64 loops = 0)); [done|]|]; cbn; rewrite Hr; by eexists.
Qed.

Section PerfFacts.
Variable clock : nat -> Z.
Variable spits : Z -> Z -> list (list spit_ind).

Lemma timing_start i : 0 <= i < MAX_TIMER_COUNT -> timing (timerStart clock i).
Proof.
  intros Hi s [H1 H2]. unfold timerStart, portalTimerStart, perfCycleCount, getW, putW, modifyW, mret, M_ret, mbind, M_bind, assert. cbn.
  rewrite bool_decide_eq_true_2 by lia. rewrite zupd_Some by lia. cbn. eexists _, _. split; [reflexivity|].
  split; [|done]. split; [cbn; by rewrite length_insert|done].
Qed.
Lemma timing_lap i : 0 <= i < MAX_TIMER_COUNT -> timing (timerLap clock i).
Proof.
  intros Hi s [H1 H2]. unfold timerLap, portalTimerLap, perfCycleCount, getW, putW, modifyW, mret, M_ret, mbind, M_bind, assert. cbn.
  rewrite bool_decide_eq_true_2 by lia. destruct (znth_in_range (c_start (tm s)) i) as [x Hx]; [lia|]. rewrite Hx. cbn.
  eexists _, _. split; [reflexivity|]. done.
Qed.
Lemma timing_catch i : 0 <= i < MAX_TIMERS -> timing (timerCatch clock i).
Proof.
  intros Hi s [H1 H2]. unfold timerCatch, perfCycleCount.
  destruct (znth_in_range (c_start (tm s)) 0) as [x Hx]; [rewrite H1; vm_compute; done|].
  destruct (znth_in_range (timers (tm s)) i) as [e He]; [lia|].
  unfold mbind at 1, M_bind at 1, getW at 1.
  rewrite (bind_ok _ _ _ _ _ (portalTimerCatch_ok (s ← getW; putW (set_reads (S (reads s)) s) ;; mret (clock (reads s)))
    i x (clock (reads s)) e s (set_reads (S (reads s)) s) (tm s) eq_refl Hx Hi He)).
  eexists _, _. split; [reflexivity|]. split; [|done]. split; [done|cbn; by rewrite length_insert].
Qed.
Lemma timing_init : timing timerInit.
Proof. intros s [H1 H2]. eexists _, _. split; [reflexivity|]. split; [|done]. split; [done|]. cbn [tm set_tm portalTimerInit timers]. by rewrite length_replicate. Qed.
Lemma timing_print loops : u64 loops <> 0 -> timing (timerPrint loops).
Proof.
  intros Hl s Hs. destruct (print_rows_ok loops s Hl (timers (tm s)) 0) as [r Hr].
  exists r, s. unfold timerPrint, portalTimerPrint, mbind, M_bind, getW. by rewrite Hr.
Qed.
End PerfFacts.
Create HintDb timing.
#[export] Hint Resolve timing_bind timing_ret timing_times timing_init : timing.
#[export] Hint Extern 2 (timing (timerStart _ _)) => apply timing_start; vm_compute; done : timing.
#[export] Hint Extern 2 (timing (timerLap _ _)) => apply timing_lap; vm_compute; done : timing.
#[export] Hint Extern 2 (timing (timerCatch _ _)) => apply timing_catch; vm_compute; done : timing.
#[export] Hint Extern 2 (timing (timerPrint _)) => apply timing_print; vm_compute; done : timing.

(** A pass counts its indications and leaves the rest of the program alone. *)
Lemma handle_pass_spec p : forall s, 0 <= heard_count s -> heard_count s + Z.of_nat (length p) < 2 ^ 31 ->
  heard_count (handle_pass p s) = heard_count s + Z.of_nat (length p) /\ tm (handle_pass p s) = tm s /\
  sent_requests (handle_pass p s) = sent_requests s /\ passes (handle_pass p s) = passes s.
Proof.
  unfold handle_pass. induction p as [|i p IH]; intros s H0 Hb; cbn [foldl length] in *; [split; [lia|done]|].
  assert (Hi : heard_count (handle_spit i s) = heard_count s + 1 /\ tm (handle_spit i s) = tm s /\
    sent_requests (handle_spit i s) = sent_requests s /\ passes (handle_spit i s) = passes s).
  { unfold handle_spit. cbn. rewrite s32_small by lia. destruct (vrl s) as [[[]]], (vrd s) as [[[]]]. by destruct i. }
  destruct Hi as (H1 & H2 & H3 & H4). destruct (IH (handle_spit i s)) as (K1 & K2 & K3 & K4); [lia|lia|].
  split; [lia|]. split; [congruence|]. split; congruence.
Qed.

(** [wait_for] returns when exactly the wanted number comes, however the
    indications are spread over the passes. *)
Lemma wait_loop_returns n l : forall s, 0 <= heard_count s -> heard_count s + Z.of_nat (length (concat l)) = n -> n < 2 ^ 31 ->
  passes s = l ->
  exists s', wait_loop l n s = Ok tt s' /\ heard_count s' = n /\ tm s' = tm s /\ sent_requests s' = sent_requests s /\ concat (passes s') = [].
Proof.
  induction l as [|p l IH]; intros s H0 Hn Hb Hp; cbn [wait_loop]; unfold mbind at 1, M_bind at 1, getW at 1.
  - cbn in Hn. rewrite decide_False by lia. exists s. rewrite Hp. split; [done|]. split; [lia|done].
  - destruct (decide (heard_count s <> n)) as [Hne|He].
    + cbn [concat] in Hn. rewrite length_app in Hn.
      destruct (handle_pass_spec p (set_passes l s)) as (K1 & K2 & K3 & K4); [done|cbn; lia|].
      unfold mbind at 1, M_bind at 1, putW at 1. destruct (IH (handle_pass p (set_passes l s))) as (s' & R & E1 & E2 & E3 & E4);
        [rewrite K1; cbn; lia|rewrite K1; cbn; lia|done|done|].
      exists s'. split; [done|]. split; [done|]. split; [by rewrite E2|]. split; [by rewrite E3|done].
    + exists s. rewrite Hp. split; [done|]. split; [lia|]. split; [done|]. split; [done|]. destruct (concat (p :: l)); [done|cbn in Hn; lia].
Qed.

(** Once the count is beyond the wanted number [wait_for] does not return: the
    test is for inequality. *)
Lemma wait_for_overshot n l : forall s, 0 <= n < heard_count s -> heard_count s + Z.of_nat (length (concat l)) < 2 ^ 31 ->
  exists s', wait_loop l n s = Block s'.
Proof.
  induction l as [|p l IH]; intros s H0 Hb; cbn [wait_loop]; unfold mbind at 1, M_bind at 1, getW at 1; rewrite decide_True by lia.
  - by exists s.
  - cbn [concat] in Hb. rewrite length_app in Hb. destruct (handle_pass_spec p (set_passes l s)) as (K1 & _); [cbn; lia|cbn; lia|].
    unfold mbind at 1, M_bind at 1, putW at 1. apply IH; rewrite K1; cbn; lia.
Qed.

#[local] Opaque LOOP_COUNT.

Section Main.
Variable clock : nat -> Z.
Variable spits : Z -> Z -> list (list spit_ind).
(** The hardware sends as many indications as it is asked for. *)
Hypothesis spits_count : forall which count, 0 <= count -> length (concat (spits which count)) = Z.to_nat count.

(** Between two tests: the timers are well-formed, no indication is on its way
    and [l] was sent. *)
Definition between (l : list perf_request) (s : Perf) : Prop :=
  timers_ok s /\ concat (passes s) = [] /\ sent_requests s = l.

Lemma timing_between {A} (m : M Perf A) l s : timing m -> between l s -> exists a s', m s = Ok a s' /\ between l s'.
Proof.
  intros Hm (H1 & H2 & H3). destruct (Hm s H1) as (a & s' & R & O & E). exists a, s'. split; [done|].
  injection E as E1 E2 E3 E4 E5. split; [done|]. by rewrite E4, E5.
Qed.

Lemma timed_call_sends r l s : (forall w c, r <> startspit w c) -> between l s ->
  exists s', timed_call clock spits r s = Ok tt s' /\ between (l ++ [r]) s'.
Proof.
  intros Hr Hs. unfold timed_call.
  destruct (timing_between (timerStart clock 0) l s) as ([] & s1 & R1 & B1); [auto with timing|done|]. rewrite (bind_ok _ _ _ _ _ R1).
  destruct (timing_between (timerCatch clock 0) l s1) as ([] & s2 & R2 & B2); [auto with timing|done|]. rewrite (bind_ok _ _ _ _ _ R2).
  set (s3 := set_sent (l ++ [r]) s2). rewrite (bind_ok _ _ _ tt s3).
  2: { unfold send_request, modifyW, s3. destruct B2 as (_ & _ & ->). destruct r; try done. by destruct (Hr which count). }
  destruct (timing_between (timerCatch clock 19) (l ++ [r]) s3) as ([] & s4 & R4 & B4); [auto with timing|split; [apply B2|split; [apply B2|done]]|].
  by exists s4.
Qed.

Lemma times_sends r n : (forall w c, r <> startspit w c) -> forall l s, between l s ->
  exists s', times n (timed_call clock spits r) s = Ok tt s' /\ between (l ++ replicate n r) s'.
Proof.
  intros Hr. induction n as [|n IH]; intros l s Hs; cbn [times replicate].
  - exists s. by rewrite app_nil_r.
  - destruct (timed_call_sends r l s Hr Hs) as (s1 & R1 & B1). rewrite (bind_ok _ _ _ _ _ R1).
    destruct (IH _ _ B1) as (s2 & R2 & B2). exists s2. split; [done|]. by rewrite <- app_assoc in B2.
Qed.

Lemma dotestout_sends r l s : (forall w c, r <> startspit w c) -> between l s ->
  exists s', dotestout clock (timed_call clock spits r) s = Ok tt s' /\ between (l ++ replicate (Z.to_nat LOOP_COUNT) r) s'.
Proof.
  intros Hr Hs. unfold dotestout. 
  destruct (timing_between timerInit l s) as ([] & s1 & R1 & B1); [auto with timing|done|]. rewrite (bind_ok _ _ _ _ _ R1).
  destruct (timing_between (timerStart clock 1) l s1) as ([] & s2 & R2 & B2); [auto with timing|done|]. rewrite (bind_ok _ _ _ _ _ R2).
  destruct (times_sends r (Z.to_nat LOOP_COUNT) Hr l s2 B2) as (s3 & R3 & B3). rewrite (bind_ok _ _ _ _ _ R3).
  destruct (timing_between (timerLap clock 1 ;; timerPrint LOOP_COUNT ;; mret tt) (l ++ replicate (Z.to_nat LOOP_COUNT) r) s3) as ([] & s4 & R4 & B4); [|done|by exists s4].
  auto with timing.
Qed.

(** An operation on the timers in front of the rest of a test. *)
Lemma timing_first {A} (m : M Perf A) (k : A -> M Perf unit) (Q : Perf -> Prop) s : timing m -> timers_ok s ->
  (forall a s', timers_ok s' -> rest s' = rest s -> exists s2, k a s' = Ok tt s2 /\ Q s2) ->
  exists s2, (m ≫= k) s = Ok tt s2 /\ Q s2.
Proof. intros Hm Hs Hk. destruct (Hm s Hs) as (a & s' & R & O & E). rewrite (bind_ok _ _ _ _ _ R). by apply Hk. Qed.

Lemma dotestin_hears which l s : between l s ->
  exists s', dotestin clock spits which s = Ok tt s' /\ between (l ++ [startspit which LOOP_COUNT]) s' /\ heard_count s' = LOOP_COUNT.
Proof.
  intros (Ho & Hp & Hl). unfold dotestin. rewrite (bind_ok _ _ _ tt (set_heard_count 0 s)) by done.
  apply timing_first; [auto with timing|done|intros [] s1 O1 E1].
  apply timing_first; [auto with timing|done|intros [] s2 O2 E2].
  apply timing_first; [auto with timing|done|intros [] s3 O3 E3].
  apply timing_first; [auto with timing|done|intros [] s4 O4 E4].
  rewrite E3, E2, E1 in E4. injection E4 as F1 F2 F3 F4 F5.
  rewrite (bind_ok _ _ _ tt (set_sent (sent_requests s4 ++ [startspit which LOOP_COUNT]) (set_passes (passes s4 ++ spits which LOOP_COUNT) s4))) by done.
  apply timing_first; [auto with timing|done|intros [] s5 O5 E5]. injection E5 as G1 G2 G3 G4 G5.
  destruct (wait_loop_returns LOOP_COUNT (passes s5) s5) as (s6 & R6 & H6 & T6 & S6 & P6); [lia| |by vm_compute|done|].
  { rewrite G1, F1, G5, F5, concat_app, length_app, Hp, spits_count by (by vm_compute). vm_compute. done. }
  unfold wait_for. rewrite bind_assoc. unfold mbind at 1, M_bind at 1, getW at 1. rewrite (bind_ok _ _ _ _ _ R6).
  apply timing_first; [auto with timing|by unfold timers_ok; rewrite T6|intros [] s7 O7 E7].
  apply timing_first; [auto with timing|done|intros ? s8 O8 E8].
  apply timing_first; [auto with timing|done|intros ? s9 O9 E9].
  rewrite E8, E7 in E9. injection E9 as I1 I2 I3 I4 I5. exists s9. split; [done|]. split; [|congruence].
  split; [done|]. split; [congruence|]. congruence.
Qed.

(** A test in front of the rest of the program. *)
Lemma out_first r (k : unit -> M Perf unit) (Q : Perf -> Prop) l s : (forall w c, r <> startspit w c) -> between l s ->
  (forall s', between (l ++ replicate (Z.to_nat LOOP_COUNT) r) s' -> exists s2, k tt s' = Ok tt s2 /\ Q s2) ->
  exists s2, (dotestout clock (timed_call clock spits r) ≫= k) s = Ok tt s2 /\ Q s2.
Proof. intros Hr Hs Hk. destruct (dotestout_sends r l s Hr Hs) as (s' & R & B). rewrite (bind_ok _ _ _ _ _ R). by apply Hk. Qed.
Lemma in_first which (k : unit -> M Perf unit) (Q : Perf -> Prop) l s : between l s ->
  (forall s', between (l ++ [startspit which LOOP_COUNT]) s' -> exists s2, k tt s' = Ok tt s2 /\ Q s2) ->
  exists s2, (dotestin clock spits which ≫= k) s = Ok tt s2 /\ Q s2.
Proof. intros Hs Hk. destruct (dotestin_hears which l s Hs) as (s' & R & B & _). rewrite (bind_ok _ _ _ _ _ R). by apply Hk. Qed.
End Main.

(** The program returns, for every cycle counter and every hardware that sends
    as many indications as it is asked for, however they are spread over the
    passes: ten thousand requests of each shape were sent, in order, and every
    [startspit]; the last test heard all its indications. *)
Theorem portalperf_returns clock spits s :
  (forall which count, 0 <= count -> length (concat (spits which count)) = Z.to_nat count) ->
  timers_ok s -> concat (passes s) = [] ->
  exists s', perf_main clock spits s = Ok tt s' /\ heard_count s' = LOOP_COUNT /\
    sent_requests s' = sent_requests s ++
      concat (map (replicate (Z.to_nat LOOP_COUNT))
        [swallow; swallowl 0x11; swallowll 0x11 0x12; swallowlll 0x11 0x12 0x13; swallowllll 0x11 0x12 0x13 0x14;
         swallowd 0x21; swallowdd 0x21 0x22; swallowddd 0x21 0x22 0x23; swallowdddd 0x21 0x22 0x23 0x24]) ++
      map (fun which => startspit which LOOP_COUNT) [1; 0; 2; 3; 4; 5; 6; 7; 8].
Proof.
  intros Hc Ho Hp.
  assert (B : between (sent_requests s) s) by done. unfold perf_main.
  assert (Htests : timing (timer_tests clock)) by (unfold timer_tests; auto 20 with timing).
  destruct (timing_between (timer_tests clock) _ s Htests B) as ([] & s0 & R0 & B0). rewrite (bind_ok _ _ _ _ _ R0).
  clear B. do 9 (eapply out_first; [done|exact B0|clear B0; intros ? B0]).
  do 8 (eapply in_first; [done|exact B0|clear B0; intros ? B0]).
  destruct (dotestin_hears clock spits Hc 8 _ _ B0) as (sn & R & (_ & _ & Hl) & Hh). exists sn. split; [exact R|]. split; [exact Hh|].
  rewrite Hl. cbn [map concat]. rewrite app_nil_r, <- !app_assoc. reflexivity.
Qed.

(** ** Hardware that spreads the indications over passes of two *)
Module PerfDemo.
Fixpoint pairs (n : nat) : list (list spit_ind) :=
  match n with O => [] | S O => [[spit]] | S (S n) => [spit; spit] :: pairs n end.
Lemma pairs_count n : length (concat (pairs n)) = n /\ length (concat (pairs (S n))) = S n.
Proof. induction n as [|n [IH1 IH2]]; [done|]. split; [done|]. cbn. by rewrite IH1. Qed.

Definition s0 : Perf :=
  {| tm := {| c_start := replicate 16 0; lap_timer_temp := 0; timers := [] |}; reads := 0; heard_count := 0;
     vrl := (0, 0, 0, 0); vrd := (0, 0, 0, 0); sent_requests := []; passes := [] |}.

Lemma portalperf_returns_witness : exists s', perf_main Z.of_nat (fun _ n => pairs (Z.to_nat n)) (set_tm (portalTimerInit (tm s0)) s0) = Ok tt s' /\
  heard_count s' = LOOP_COUNT.
Proof.
  destruct (portalperf_returns Z.of_nat (fun _ n => pairs (Z.to_nat n)) (set_tm (portalTimerInit (tm s0)) s0)) as (s' & R & H & _).
  - intros which count _. apply pairs_count.
  - by vm_compute.
  - done.
  - exists s'. split; [exact R|exact H].
Defined.
End PerfDemo.
